(* ===== verification/_CoqProject ===== *)
-Q . S2P
Prelude.v
Money.v
Amm.v
Ledger.v
Market.v
Resolution.v
Economy.v
Integrity.v
Chars.v
Drafting.v
Moderation.v
Render.v
Errors.v
Credits.v
PgLedger.v
Json.v
Config.v
Fences.v
ConfigStore.v
Compliance.v
Collect.v
Postings.v
Book.v
Vote.v
Trade.v
Referrals.v
Resolve.v
Settlement.v
Lifecycle.v
System.v
Clock.v
Outbound.v
Withdraw.v
Payout.v
Disburse.v
Intents.v
Address.v
Deposits.v
Inflow.v
Treasury.v
