(* ===== verification/Prelude.v ===== *)
(** * Opinions: a verification library

    [opinions] is a real-money opinion market: users vote on a question, trade
    shares of its two outcomes against a constant-product pool, and are paid
    from the market's escrow when the crowd's tally resolves it.  The Rust
    sources are layered: pure functions ([src/crates/domain]), use cases over
    ports ([src/crates/application]) and adapters, of which the Postgres one
    ([src/crates/adapters/src/pg]) implements the ports in production.  This
    library models the domain crate, the use cases that move or gate money,
    and the SQL of the transactions they run, and proves what makes them
    correct.  It is a shallow embedding: a Rust function is a Rocq function
    with the same name, a struct is a [Record], an enum an [Inductive], a
    table a map or a list of rows, a query a function of the tables, and a use
    case a function from tables to an answer and new tables.

    ** Files and what they model

    - [Prelude]: the [outcome] monad, machine integers, sums, automation.
    - [Money], [Amm], [Ledger], [Market], [Resolution], [Economy],
      [Integrity], [Chars], [Drafting], [Moderation], [Render]: the domain
      crate, file by file ([Economy] is scoring, reputation, fee policy and
      ranking; [Chars] is the text model of the last three).
    - [Errors]: [application/src/error.rs].
    - [Credits]: credit lots and fee allocations ([money/credits.rs],
      [pg/credit_tx.rs]); the grant of a lot by command is in [Referrals].
    - [PgLedger]: accounts and postings of [pg/trade_tx.rs] over tables.
    - [Json], [Config], [Fences], [ConfigStore]: the configuration catalog,
      its validation, fingerprints and staleness probe, direct writes and
      two-phase proposals ([ops/config.rs], [ops/set_config.rs],
      [ops/proposals.rs], [pg/ops_config_tx.rs]).
    - [Compliance]: the money gate, statuses, self-exclusion, limits and their
      proposals ([money/enforcement.rs], [money/statuses.rs],
      [money/self_exclusion.rs], [money/admin.rs], [pg/compliance_tx.rs]).
    - [Collect]: receivables and the lazy conversion of credits
      ([ops/receivable_collection.rs], [convert_then_collect]).
    - [Postings]: no code; what ledger writes do to the balance of an owner, and
      what a collection does to balances and debts.
    - [Book]: the market tables, the row decoders ([pg/rows.rs]) and the
      reads and writes of the trade transaction; the specification of a
      covered book.
    - [Vote], [Trade]: [cast_vote.rs] and [place_trade.rs].
    - [Referrals]: [money/referrals.rs], [GrantCredit] of [money/credits.rs],
      and their queries.
    - [Resolve]: [resolve_market.rs] over [pg/resolve_tx.rs]; [Settlement]:
      its proofs.
    - [Lifecycle]: [ensure_genesis.rs], [seed_market.rs], [advance_market.rs],
      the due-market queries and the clock's sweep.
    - [System]: no code; the requests above as a step relation on [Db], its
      invariant [sound], and what is reachable from an empty database when
      users, cash and configuration change beside it ([life]).
    - [Clock]: the theorems on the sweep and on the vote statistics.
    - [Outbound]: the states of a withdrawal, destinations, the rail, and the
      payments and attempts of [money/types.rs], [money/outbound.rs],
      [pg/outbound_tx.rs] and [rails/solana.rs].
    - [Withdraw]: request, decision, sending, replacement, reconciliation and
      settlement of a withdrawal ([money/withdraw_*.rs]) over
      [pg/withdraw_tx.rs], with the AML evaluation of a request
      ([money/aml.rs]); its state [Wdb] is [Db] and the withdrawal tables.
    - [Payout]: no code; the invariant [wsound] of those tables and that every
      withdrawal transaction keeps it.
    - [Disburse]: no code; market and withdrawal transactions as one step
      relation, and what is reachable.
    - [Intents]: no code; what accepted requests, approvals and replacements
      mean.
    - [Address]: no code; base58 against positional notation.
    - [Deposits]: observation, admission, dual-controlled commands, and refunds
      with their sending and settlement ([credit_deposit.rs],
      [pg/credit_tx.rs]), over the same [Wdb].
    - [Inflow]: no code; the invariant [dsound] of the deposit table and that
      every deposit transaction keeps it.
    - [Treasury]: no code; market, withdrawal and deposit transactions as one
      step relation, and what is reachable.

    ** How state and effects are modelled

    [Db] ([Book.v]) is one consistent state of all tables.  A use case of the
    source opens one transaction, and its model computes an [outcome] and a
    new [Db]; [atomic] keeps the old one when the answer is an error.  Row and
    advisory locks are represented by the serial order of transactions, except
    where the source itself reads before it locks: an attempt to resolve a
    market, and every withdrawal transaction, sees two states, and its theorems
    hold for any first one.  A send is two transactions with a call to the rail
    between them; the rail's memory is a state of its own, which a rollback
    does not undo.  Tables
    are lists in any physical order where a query has an [order by], maps where
    it has a key.  Identifiers the code generates ([Uuid::new_v4]) and the
    clock are arguments, so a theorem holds for all of them; the insert that
    would violate a key is an error as it is in the database.  A use case that
    asks the clock several times gets one value [now], and the database clock of
    its transaction another, [db_now].  An integer is a
    [Z] with its type; unchecked arithmetic that leaves its type is [Panic].
    [HashMap] iteration follows an arbitrary order ([HashMapOrder]).

    Code outside the repository is a parameter with its documented behaviour
    as a hypothesis: the text of a [Uuid] (class [UuidText]), SHA-256, the
    Unicode tables, [serde_json]'s printer, the JSON of an [OffsetDateTime],
    the JSON parser, the collation of the database, and the answers of the
    signer, the chain and the screening providers.  Instances at which the hypotheses hold
    are given with the witnesses.

    ** What is proved

    The domain: quotes keep the pool well formed and never lower its product,
    equal their mathematical references on every input, and no round trip
    profits; postings conserve money and refuse overdrafts; settlement
    conserves the escrow; lifecycles only move forward.  The stores: the SQL
    posting path refines the domain ledger; credits are never over-allocated;
    a configuration patch is accepted exactly within tables of ranges and
    per-apply limits written out beside the checks; committed configuration
    stays valid, its log replays, and sensitive keys and bans need two
    principals, both of the roles the code asks for.  The use cases: trading keeps every market's
    escrow equal to the shares it must redeem; votes are numbered without
    gaps; trades, votes, grants and resolutions are idempotent in their keys (a
    trade whose key a vote has used only in effect, not in its answer);
    accepted requests passed every gate; the bonus reserve covers its
    promises; a collection takes the oldest debts first and gives them to the
    house; paying a market empties its escrow to the last unit and touches
    no other market.  The system: in every database reachable from the empty
    one, through any order of requests and of changes beside the markets, the
    escrow of every open market holds
    exactly its shares, so its settlement is defined at every result; a market
    whose payout key is taken stays blocked; and the clock's sweep takes a late
    market over every boundary it has passed in one visit, unless the key of a
    boundary is taken.  Withdrawals: in any
    interleaving with the markets the [Withheld] account is the sum of the
    active holds and the identities the code asserts hold; rows follow the
    published table and two recovery moves it does not list; a hold that was given back has no attempt that can land,
    and one that was settled exactly one that did; a finalized payment settles
    unless its key was taken; an accepted request was within every limit and is
    answered once for its intent; an approval had the authority its amount
    needs; and a destination text and its key determine each other.  Deposits:
    in any interleaving with markets and withdrawals the [DepositSuspense]
    account is what the invariant checker sums over the table; rows follow the
    transition function; a deposit is admitted or refunded, never both, a refund
    goes back to its source and lands at most once; an observation is bound to
    its signature; an admission by the machine passed every gate, a manual one and
    a refund took two people.
    Findings, where the code differs from its documentation or its intent, are
    theorems too: a key a client took blocks a payout, a settlement or a deposit
    for good, an expired proposal blocks a refund, the rail blocks a
    replacement, the trade gate forgets an exclusion that was never lifted, a
    vote's key spoils the replay of a trade.

    ** Fuel and bounds

    Loops that are not structural recursions have fuel, and a theorem that it
    suffices: 67 rounds of Newton's method for a 128-bit square root, two of
    the sell correction, one per character for mentions, 20 digits, one chunk
    per element, and four rounds for the clock's catch-up of a market, which is
    the longest chain its states have ([Clock] also says what any other number
    of rounds does when a key is taken), and eight bytes for the carry of
    a base58 digit, which [Address] shows to be below 58.  A list read from a table is bounded by the address space
    where the sum of its entries must not overflow ([MAX_HOLDINGS]).

    ** Not modelled

    User creation, phone verification, the unwind of a market, write-offs and
    remedial credits are not modelled; what they change beside the markets is
    the step [elsewhere] of [Disburse] and [Treasury], which leaves the withheld
    and suspended money and the outbound payments as they are.  The chain watcher
    that reports an observation is its argument.  Provider deliveries
    and the writes of screening results outside a withdrawal are left out.  Pure
    input and output (HTTP, websockets, chain clients, language models,
    rendering processes), test doubles, the simulation swarm and the binary's
    wiring hold no logic of their own that the tables do not see. *)

From stdpp Require Export base numbers list option gmap strings sorting.
From Stdlib Require Export ZArith Lia.
#[global] Open Scope Z_scope.

(** ** Results that may also panic

    [outcome E A] is Rust's [Result<A, E>] with one more constructor for the
    executions that do not return: a division by zero, a slice index out of
    range, an unchecked machine operation that leaves its type (the debug
    profile panics there; the release profile wraps, so a theorem that no
    [Panic] happens makes both profiles agree), and a loop that exhausts the
    fuel of its model. *)

Inductive outcome (E A : Type) : Type :=
| Ok (a : A)
| Err (e : E)
| Panic.
Arguments Ok {E A} a.
Arguments Err {E A} e.
Arguments Panic {E A}.

#[export] Instance outcome_ret {E} : MRet (outcome E) := fun A a => Ok a.
#[export] Instance outcome_bind {E} : MBind (outcome E) := fun A B f m =>
  match m with
  | Ok a => f a
  | Err e => Err e
  | Panic => Panic
  end.

(** [Option::ok_or]. *)
Definition ok_or {E A} (o : option A) (e : E) : outcome E A :=
  match o with Some a => Ok a | None => Err e end.

(** [Result::map_err]; with [From] it is what [?] does to the error. *)
Definition map_err {E F A} (f : E -> F) (m : outcome E A) : outcome F A :=
  match m with Ok a => Ok a | Err e => Err (f e) | Panic => Panic end.

(** [Result::map]. *)
Definition map_ok {E A B} (f : A -> B) (m : outcome E A) : outcome E B :=
  match m with Ok a => Ok (f a) | Err e => Err e | Panic => Panic end.

(** A computation with no error arm used where errors of type [E] occur. *)
Definition lift_total {E A} (m : outcome Empty_set A) : outcome E A :=
  map_err (fun e : Empty_set => match e with end) m.

Definition is_ok {E A} (m : outcome E A) : bool :=
  match m with Ok _ => true | _ => false end.

Definition no_panic {E A} (m : outcome E A) : Prop := m <> Panic.

(** ** Machine integers *)

Inductive ity := U8 | U16 | U32 | U64 | U128 | I32 | I64 | I128.

Definition imin (t : ity) : Z :=
  match t with
  | U8 | U16 | U32 | U64 | U128 => 0
  | I32 => -2147483648
  | I64 => -9223372036854775808
  | I128 => -170141183460469231731687303715884105728
  end.

Definition imax (t : ity) : Z :=
  match t with
  | U8 => 255
  | U16 => 65535
  | U32 => 4294967295
  | U64 => 18446744073709551615
  | U128 => 340282366920938463463374607431768211455
  | I32 => 2147483647
  | I64 => 9223372036854775807
  | I128 => 170141183460469231731687303715884105727
  end.

(** Membership of a mathematical integer in a machine type. *)
Definition in_ty (t : ity) (z : Z) : Prop := imin t <= z <= imax t.

Definition fits (t : ity) (z : Z) : bool := (imin t <=? z) && (z <=? imax t).

(** [checked t (a op b)] is [a.checked_op(b)], and [T::try_from(z).ok()]. *)
Definition checked (t : ity) (z : Z) : option Z := if fits t z then Some z else None.

(** An unchecked machine operation. *)
Definition arith {E} (t : ity) (z : Z) : outcome E Z := if fits t z then Ok z else Panic.

(** Saturating arithmetic, and [T::try_from(z).unwrap_or(T::MAX)] for [z >= 0]. *)
Definition saturate (t : ity) (z : Z) : Z := Z.max (imin t) (Z.min z (imax t)).

(** Unsigned division; Rust panics on a zero divisor. *)
Definition udiv {E} (a b : Z) : outcome E Z := if b =? 0 then Panic else Ok (a / b).

(** Signed division truncates toward zero; it panics on a zero divisor and on
    [MIN / -1]. *)
Definition sdiv {E} (t : ity) (a b : Z) : outcome E Z :=
  if b =? 0 then Panic else arith t (Z.quot a b).

(** [len()] of a slice as a machine count. *)
Definition zlen {A} (l : list A) : Z := Z.of_nat (length l).

Fixpoint zsum (l : list Z) : Z :=
  match l with [] => 0 | x :: l => x + zsum l end.

(** A [for] loop whose body updates the accumulator and may return early. *)
Fixpoint foldM {E A B} (f : B -> A -> outcome E B) (b : B) (l : list A) : outcome E B :=
  match l with
  | [] => Ok b
  | x :: l => b' ← f b x; foldM f b' l
  end.

(** [sort_by_key]: a stable sort. *)
Fixpoint insert_by {A} (le : A -> A -> bool) (x : A) (l : list A) : list A :=
  match l with
  | [] => [x]
  | y :: l' => if le x y then x :: l else y :: insert_by le x l'
  end.

Definition sort_by {A} (le : A -> A -> bool) (l : list A) : list A := foldr (insert_by le) [] l.

(** Sum of a measure over the bindings of a map. *)
Definition msum {K V} `{Countable K} (f : K -> V -> Z) (m : gmap K V) : Z :=
  zsum (map (fun kv => f kv.1 kv.2) (map_to_list m)).

(** The order in which a [HashMap] is iterated is unspecified; what the code
    may rely on is that every binding is visited exactly once. *)
Class HashMapOrder := {
  iter_map : forall {K V} `{Countable K}, gmap K V -> list (K * V);
  iter_map_perm : forall {K V} `{Countable K} (m : gmap K V), iter_map m ≡ₚ map_to_list m }.

(** One such order. *)
Definition canonical_order : HashMapOrder :=
  {| iter_map := fun K V _ _ m => map_to_list m;
     iter_map_perm := fun K V _ _ m => Permutation_refl _ |}.

(** ** Automation *)

Create HintDb opinions.

Lemma fits_iff t z : fits t z = true <-> in_ty t z.
Proof. unfold fits, in_ty. rewrite andb_true_iff, !Z.leb_le. reflexivity. Qed.

#[export] Instance in_ty_dec t z : Decision (in_ty t z).
Proof. unfold in_ty. apply _. Defined.

Lemma checked_in t z : in_ty t z -> checked t z = Some z.
Proof. intros H. unfold checked. rewrite (proj2 (fits_iff t z) H). reflexivity. Qed.

Lemma checked_out t z : ~ in_ty t z -> checked t z = None.
Proof.
  intros H. unfold checked. destruct (fits t z) eqn:E; [|reflexivity].
  apply fits_iff in E. contradiction.
Qed.

Lemma checked_Some t z y : checked t z = Some y <-> y = z /\ in_ty t z.
Proof.
  unfold checked. rewrite <- fits_iff.
  destruct (fits t z); naive_solver.
Qed.

Lemma checked_None t z : checked t z = None <-> ~ in_ty t z.
Proof. unfold checked. rewrite <- fits_iff. destruct (fits t z); naive_solver. Qed.

Lemma arith_in {E} t z : in_ty t z -> @arith E t z = Ok z.
Proof. intros H. unfold arith. rewrite (proj2 (fits_iff t z) H). reflexivity. Qed.

Lemma arith_Ok {E} t z y : @arith E t z = Ok y <-> y = z /\ in_ty t z.
Proof. unfold arith. rewrite <- fits_iff. destruct (fits t z); naive_solver. Qed.

Lemma arith_not_Err {E} t z (e : E) : arith t z = Err e <-> False.
Proof. unfold arith. destruct (fits t z); naive_solver. Qed.

Lemma ok_or_Ok {E A} (o : option A) (e : E) a : ok_or o e = Ok a <-> o = Some a.
Proof. destruct o; cbn; naive_solver. Qed.

Lemma ok_or_Err {E A} (o : option A) (e e' : E) : ok_or o e = Err e' <-> o = None /\ e' = e.
Proof. destruct o; cbn; naive_solver. Qed.

Lemma udiv_pos {E} a b : 0 < b -> @udiv E a b = Ok (a / b).
Proof. intros H. unfold udiv. destruct (Z.eqb_spec b 0); [lia|reflexivity]. Qed.

Lemma udiv_Ok {E} a b c : @udiv E a b = Ok c <-> b <> 0 /\ c = a / b.
Proof. unfold udiv. destruct (Z.eqb_spec b 0); naive_solver. Qed.

Lemma sdiv_in {E} t a b : b <> 0 -> in_ty t (Z.quot a b) -> @sdiv E t a b = Ok (Z.quot a b).
Proof.
  intros Hb H. unfold sdiv. destruct (Z.eqb_spec b 0); [lia|]. by apply arith_in.
Qed.

Lemma sdiv_Ok {E} t a b c :
  @sdiv E t a b = Ok c <-> b <> 0 /\ c = Z.quot a b /\ in_ty t c.
Proof.
  unfold sdiv. destruct (Z.eqb_spec b 0); [naive_solver|].
  rewrite arith_Ok. naive_solver.
Qed.

Lemma bind_Ok {E A B} (m : outcome E A) (f : A -> outcome E B) b :
  m ≫= f = Ok b <-> exists a, m = Ok a /\ f a = Ok b.
Proof. destruct m; cbn; naive_solver. Qed.

Lemma bind_Err {E A B} (m : outcome E A) (f : A -> outcome E B) e :
  m ≫= f = Err e <-> m = Err e \/ exists a, m = Ok a /\ f a = Err e.
Proof. destruct m; cbn; naive_solver. Qed.

Lemma bind_Panic {E A B} (m : outcome E A) (f : A -> outcome E B) :
  m ≫= f = Panic <-> m = Panic \/ exists a, m = Ok a /\ f a = Panic.
Proof. destruct m; cbn; naive_solver. Qed.

Lemma map_err_Ok {E F A} (f : E -> F) (m : outcome E A) a :
  map_err f m = Ok a <-> m = Ok a.
Proof. destruct m; cbn; naive_solver. Qed.

Lemma map_err_Err {E F A} (f : E -> F) (m : outcome E A) e :
  map_err f m = Err e <-> exists e', m = Err e' /\ e = f e'.
Proof. destruct m; cbn; naive_solver. Qed.

Lemma map_err_Panic {E F A} (f : E -> F) (m : outcome E A) :
  map_err f m = Panic <-> m = Panic.
Proof. destruct m; cbn; naive_solver. Qed.

Lemma lift_total_Ok {E A} (m : outcome Empty_set A) a :
  @lift_total E A m = Ok a <-> m = Ok a.
Proof. apply map_err_Ok. Qed.

(** [ty] closes a range side condition of a machine operation. *)
Ltac ty := unfold in_ty in *; cbn [imin imax] in *; first [lia | nia].

(** [run] evaluates the leading machine operation of the computation on the
    left of the goal, its side condition being a range fact the context
    proves. *)
Ltac run :=
  match goal with
  | |- (ok_or (checked ?t ?z) _ ≫= _) = _ => rewrite (checked_in t z) by ty
  | |- (arith ?t ?z ≫= _) = _ => rewrite (arith_in t z) by ty
  | |- (udiv ?a ?b ≫= _) = _ => rewrite (udiv_pos a b) by ty
  | |- (sdiv ?t ?a ?b ≫= _) = _ => rewrite (sdiv_in t a b) by ty
  end; cbn [ok_or mbind outcome_bind map_err].

(** [inv_run H] takes an equation [m = Ok x] about a monadic computation apart
    into the equations of its steps. *)
Ltac inv_run H :=
  repeat first
    [ progress (apply bind_Ok in H; let a := fresh "v" in let Ha := fresh "Hr" in
                destruct H as (a & Ha & H); inv_run Ha)
    | progress (apply ok_or_Ok in H)
    | progress (apply map_err_Ok in H)
    | progress (apply lift_total_Ok in H)
    | apply checked_Some in H; destruct H as [-> H]
    | apply arith_Ok in H; destruct H as [-> H]
    | apply udiv_Ok in H; let Hn := fresh "Hnz" in destruct H as [Hn ->]
    | match type of H with
      | (if ?c then _ else _) = Ok _ =>
          let Hc := fresh "Hc" in destruct c eqn:Hc; [discriminate H|]
      | (if ?c then _ else _) = Ok _ =>
          let Hc := fresh "Hc" in destruct c eqn:Hc; [|discriminate H]
      end ].

(** [bool_hyps] turns boolean comparisons of the context into propositions. *)
Ltac bool_hyps :=
  repeat match goal with
  | H : (_ || _)%bool = false |- _ => apply orb_false_iff in H; destruct H
  | H : (_ && _)%bool = true |- _ => apply andb_true_iff in H; destruct H
  | H : negb _ = true |- _ => apply negb_true_iff in H
  | H : negb _ = false |- _ => apply negb_false_iff in H
  | H : (_ <? _) = true |- _ => apply Z.ltb_lt in H
  | H : (_ <? _) = false |- _ => apply Z.ltb_ge in H
  | H : (_ <=? _) = true |- _ => apply Z.leb_le in H
  | H : (_ <=? _) = false |- _ => apply Z.leb_gt in H
  | H : (_ =? _) = true |- _ => apply Z.eqb_eq in H
  | H : (_ =? _) = false |- _ => apply Z.eqb_neq in H
  end.

(** [case_if] cases on the condition of a conditional of the goal. *)
Ltac case_if :=
  match goal with
  | |- context [if ?c then _ else _] =>
      let H := fresh "Hc" in destruct c eqn:H
  end.

(** ** Division lemmas the money arithmetic shares *)

Lemma ceil_div_spec a b : 0 < b -> 0 <= a ->
  let q := (a + (b - 1)) / b in a <= q * b < a + b.
Proof.
  intros Hb Ha q. subst q.
  pose proof (Z.div_mod (a + (b - 1)) b ltac:(lia)).
  pose proof (Z.mod_pos_bound (a + (b - 1)) b Hb). nia.
Qed.

Lemma floor_div_spec a b : 0 < b -> a / b * b <= a < a / b * b + b.
Proof.
  intros Hb. pose proof (Z.div_mod a b ltac:(lia)).
  pose proof (Z.mod_pos_bound a b Hb). nia.
Qed.

Lemma quot_div_nonneg a b : 0 <= a -> 0 < b -> Z.quot a b = a / b.
Proof. intros. by apply Z.quot_div_nonneg. Qed.

(** ** Sums *)

Lemma zsum_app l k : zsum (l ++ k) = zsum l + zsum k.
Proof. induction l as [|x l IH]; cbn; lia. Qed.

Lemma zsum_perm l k : l ≡ₚ k -> zsum l = zsum k.
Proof. induction 1; cbn; lia. Qed.

Lemma zsum_nonneg l : Forall (fun z => 0 <= z) l -> 0 <= zsum l.
Proof. induction 1; cbn; lia. Qed.

Lemma zsum_map_le {A} (f g : A -> Z) l :
  (forall x, x ∈ l -> f x <= g x) -> zsum (map f l) <= zsum (map g l).
Proof.
  induction l as [|a l IH]; intros H; cbn; [lia|].
  pose proof (H a ltac:(left)). pose proof (IH ltac:(intros; apply H; by right)). lia.
Qed.

Lemma zsum_map_add {A} (f g : A -> Z) l :
  zsum (map (fun x => f x + g x) l) = zsum (map f l) + zsum (map g l).
Proof. induction l; cbn in *; lia. Qed.

Lemma zsum_map_mul {A} (f : A -> Z) c l :
  zsum (map (fun x => c * f x) l) = c * zsum (map f l).
Proof. induction l; cbn in *; lia. Qed.

Lemma zsum_abs_le l : Z.abs (zsum l) <= zsum (map Z.abs l).
Proof. induction l; cbn; lia. Qed.

Lemma zsum_indicator {A} `{EqDecision A} (f : A -> Z) x l :
  NoDup l -> x ∈ l -> zsum (map (fun a => if bool_decide (x = a) then f a else 0) l) = f x.
Proof.
  intros Hnd Hin. induction Hnd as [|y l Hy Hnd IH]; [by apply elem_of_nil in Hin|].
  cbn. case_bool_decide as E.
  - subst y. enough (zsum (map (fun a => if bool_decide (x = a) then f a else 0) l) = 0) by lia.
    clear - Hy. induction l as [|z l IH]; cbn; [done|].
    rewrite elem_of_cons in Hy. case_bool_decide; [naive_solver|]. rewrite IH; naive_solver.
  - apply elem_of_cons in Hin as [?|?]; [congruence|]. rewrite IH by done. lia.
Qed.

Lemma zsum_indicator_le {A} `{EqDecision A} (c : Z) x (l : list A) :
  NoDup l -> 0 <= c -> zsum (map (fun a => if bool_decide (x = a) then c else 0) l) <= c.
Proof.
  intros Hnd Hc. destruct (decide (x ∈ l)) as [Hin|Hout].
  - rewrite (zsum_indicator (fun _ => c)) by done. lia.
  - enough (zsum (map (fun a => if bool_decide (x = a) then c else 0) l) = 0) by lia.
    clear Hnd. induction l as [|z l IH]; cbn; [done|].
    rewrite elem_of_cons in Hout. case_bool_decide; [naive_solver|]. rewrite IH; naive_solver.
Qed.

Lemma zlen_app {A} (l k : list A) : zlen (l ++ k) = zlen l + zlen k.
Proof. unfold zlen. rewrite length_app. lia. Qed.

Lemma zlen_nonneg {A} (l : list A) : 0 <= zlen l.
Proof. unfold zlen. lia. Qed.

Lemma zlen_cons {A} (x : A) l : zlen (x :: l) = 1 + zlen l.
Proof. unfold zlen. cbn [length]. lia. Qed.

(** ** Loops and map sums *)

Lemma foldM_app {E A B} (f : B -> A -> outcome E B) b l k :
  foldM f b (l ++ k) = (b' ← foldM f b l; foldM f b' k).
Proof.
  revert b. induction l as [|x l IH]; intros b; cbn; [done|].
  destruct (f b x); cbn; auto.
Qed.

(** A loop whose body only names its errors otherwise. *)
Lemma foldM_map_err {E F A B} (g : E -> F) (f : B -> A -> outcome F B) (h : B -> A -> outcome E B) b l :
  (forall b x, f b x = map_err g (h b x)) -> foldM f b l = map_err g (foldM h b l).
Proof.
  intros Hf. revert b. induction l as [|x l IH]; intros b; cbn; [done|].
  rewrite Hf. destruct (h b x); cbn; auto.
Qed.

(** The invariant rule for a loop that runs to its end. *)
Lemma foldM_ind {E A B} (f : B -> A -> outcome E B) (I : list A -> B -> Prop) b l b' :
  foldM f b l = Ok b' -> I [] b ->
  (forall done x rest acc acc', l = done ++ x :: rest -> I done acc ->
     f acc x = Ok acc' -> I (done ++ [x]) acc') ->
  I l b'.
Proof.
  intros H H0 Hstep.
  enough (G : forall rest done acc, l = done ++ rest -> I done acc ->
            foldM f acc rest = Ok b' -> I l b') by (eapply (G l []); eauto).
  clear H. induction rest as [|x rest IH]; intros done acc -> Hi Hr; cbn in Hr.
  - rewrite app_nil_r. congruence.
  - apply bind_Ok in Hr as (acc' & Hx & Hr). apply (IH (done ++ [x]) acc'); [|eauto|done].
    by rewrite <- app_assoc.
Qed.

(** The progress rule: a loop whose body never fails under the invariant. *)
Lemma foldM_total {E A B} (f : B -> A -> outcome E B) (I : list A -> B -> Prop) b l :
  I [] b ->
  (forall done x rest acc, l = done ++ x :: rest -> I done acc ->
     exists acc', f acc x = Ok acc' /\ I (done ++ [x]) acc') ->
  exists b', foldM f b l = Ok b' /\ I l b'.
Proof.
  intros H0 Hstep.
  enough (G : forall rest done acc, l = done ++ rest -> I done acc ->
            exists b', foldM f acc rest = Ok b' /\ I l b') by (by apply (G l [])).
  induction rest as [|x rest IH]; intros done acc -> Hi; cbn.
  - rewrite app_nil_r. eauto.
  - destruct (Hstep done x rest acc eq_refl Hi) as (acc' & -> & Hi'). cbn.
    apply (IH (done ++ [x]) acc'); [|done]. by rewrite <- app_assoc.
Qed.

Lemma insert_by_perm {A} (le : A -> A -> bool) x l : insert_by le x l ≡ₚ x :: l.
Proof.
  induction l as [|y l IH]; cbn; [done|]. destruct (le x y); [done|]. rewrite IH. constructor.
Qed.

Lemma sort_by_perm {A} (le : A -> A -> bool) l : sort_by le l ≡ₚ l.
Proof. induction l as [|x l IH]; cbn; [done|]. by rewrite insert_by_perm, IH. Qed.

Lemma insert_by_sorted {A} (le : A -> A -> bool) x l :
  Transitive (fun a b => le a b = true) -> (forall a b, le a b = true \/ le b a = true) ->
  StronglySorted (fun a b => le a b = true) l -> StronglySorted (fun a b => le a b = true) (insert_by le x l).
Proof.
  intros T O. induction 1 as [|y l Hs IH Hf]; cbn; [by repeat constructor|]. destruct (le x y) eqn:E.
  - constructor; [by constructor|]. constructor; [done|]. eapply Forall_impl; [exact Hf|]. intros z Hz. by apply (T x y z).
  - constructor; [done|]. rewrite insert_by_perm. constructor; [|done]. by destruct (O x y) as [|]; [congruence|].
Qed.

Lemma sort_by_sorted {A} (le : A -> A -> bool) :
  Transitive (fun a b => le a b = true) -> (forall a b, le a b = true \/ le b a = true) ->
  forall l, StronglySorted (fun a b => le a b = true) (sort_by le l).
Proof. intros T O l. induction l; cbn; [constructor|by apply insert_by_sorted]. Qed.

Section MapSums.
Context {K V : Type} `{Countable K}.
Implicit Types (f : K -> V -> Z) (m : gmap K V).

Lemma msum_empty f : msum f (∅ : gmap K V) = 0.
Proof. unfold msum. by rewrite map_to_list_empty. Qed.

Lemma msum_insert_new f m k v : m !! k = None -> msum f (<[k:=v]> m) = f k v + msum f m.
Proof.
  intros Hk. unfold msum.
  rewrite (zsum_perm _ (map (fun kv => f kv.1 kv.2) ((k, v) :: map_to_list m))).
  - reflexivity.
  - by rewrite map_to_list_insert.
Qed.

Lemma msum_delete f m k v : m !! k = Some v -> msum f m = f k v + msum f (delete k m).
Proof.
  intros Hk. rewrite <- (insert_delete_id m k v Hk) at 1.
  rewrite msum_insert_new; [done|]. apply lookup_delete_eq.
Qed.

Lemma msum_insert f m k v v' :
  m !! k = Some v -> msum f (<[k:=v']> m) = msum f m - f k v + f k v'.
Proof.
  intros Hk. rewrite (msum_delete f m k v Hk).
  rewrite <- insert_delete_eq, msum_insert_new by apply lookup_delete_eq. lia.
Qed.

Lemma msum_nonneg f m : (forall k v, m !! k = Some v -> 0 <= f k v) -> 0 <= msum f m.
Proof.
  intros Hf. apply zsum_nonneg, Forall_forall. intros z Hz.
  apply list_elem_of_In, in_map_iff in Hz as ([k v] & <- & Hin).
  apply Hf, elem_of_map_to_list, list_elem_of_In, Hin.
Qed.

Lemma msum_ge f m k v :
  (forall k v, m !! k = Some v -> 0 <= f k v) -> m !! k = Some v -> f k v <= msum f m.
Proof.
  intros Hf Hk. rewrite (msum_delete f m k v Hk).
  enough (0 <= msum f (delete k m)) by lia. apply msum_nonneg.
  intros k' v' Hd. apply lookup_delete_Some in Hd as [_ Hd]. eauto.
Qed.

Lemma msum_ext f g m :
  (forall k v, m !! k = Some v -> f k v = g k v) -> msum f m = msum g m.
Proof.
  intros Hfg. unfold msum. f_equal. apply map_ext_in. intros [k v] Hin. apply Hfg.
  by apply elem_of_map_to_list, list_elem_of_In.
Qed.

Lemma msum_imap {W} (g : K -> V -> W) (f : K -> W -> Z) m :
  msum f (map_imap (fun k v => Some (g k v)) m) = msum (fun k v => f k (g k v)) m.
Proof.
  induction m as [|k v m Hk IH] using map_ind.
  - rewrite map_imap_empty. by rewrite !msum_empty.
  - rewrite map_imap_insert_Some with (y := g k v) by done.
    rewrite msum_insert_new by done. rewrite <- IH.
    unfold msum at 1 2.
    rewrite (zsum_perm _ (map (fun kv => f kv.1 kv.2)
      ((k, g k v) :: map_to_list (map_imap (fun k v => Some (g k v)) m)))); [done|].
    rewrite map_to_list_insert; [done|]. by rewrite map_lookup_imap, Hk.
Qed.

Lemma msum_add f g m : msum (fun k v => f k v + g k v) m = msum f m + msum g m.
Proof. unfold msum. rewrite <- zsum_map_add. done. Qed.

Lemma iter_map_sum `{HashMapOrder} f m :
  zsum (map (fun kv => f kv.1 kv.2) (iter_map m)) = msum f m.
Proof. unfold msum. apply zsum_perm. by rewrite iter_map_perm. Qed.

Lemma elem_of_iter_map `{HashMapOrder} m k v : (k, v) ∈ iter_map m <-> m !! k = Some v.
Proof. rewrite iter_map_perm. apply elem_of_map_to_list. Qed.

Lemma iter_map_NoDup `{HashMapOrder} m : NoDup (iter_map m).*1.
Proof. rewrite iter_map_perm. apply NoDup_fst_map_to_list. Qed.
End MapSums.

#[export] Hint Resolve zlen_nonneg zsum_nonneg : opinions.
#[export] Hint Rewrite @zsum_app @zlen_app @zlen_cons : opinions.
