(* ===== verification/Money.v ===== *)
(** * Money: the fee split of [crates/domain/src/money.rs]

    [MicroUsd] and [MicroShares] are newtypes over [i64] and [BasisPoints]
    over [u16]; here they are the integers themselves, the range of the
    machine type being a hypothesis [in_ty] where a theorem needs it. *)

From S2P Require Import Prelude.

(** Result of splitting a gross amount. *)
Record FeeSplit := { fs_net : Z; fs_fee : Z }.

Inductive MoneyError := NegativeAmount | MoneyOverflow | FeeTooHigh.

#[export] Instance MoneyError_eq_dec : EqDecision MoneyError.
Proof. solve_decision. Defined.

(** [MicroUsd::checked_add] and [MicroUsd::checked_sub]. *)
Definition musd_checked_add (a b : Z) : option Z := checked I64 (a + b).
Definition musd_checked_sub (a b : Z) : option Z := checked I64 (a - b).

(** [apply_fee]: the fee is computed in [i128] and rounds up. *)
Definition apply_fee (gross fee : Z) : outcome MoneyError FeeSplit :=
  if gross <? 0 then Err NegativeAmount else
  if 10000 <? fee then Err FeeTooHigh else
  prod ← arith I128 (gross * fee);
  num ← arith I128 (prod + 9999);
  f ← sdiv I128 num 10000;
  fee_amt ← ok_or (checked I64 f) MoneyOverflow;
  net ← arith I64 (gross - fee_amt);
  Ok {| fs_net := net; fs_fee := fee_amt |}.

(** The fee a gross amount pays at a rate: the least whole amount at or above
    the exact one. *)
Definition fee_ceiling (gross fee : Z) : Z := (gross * fee + 9999) / 10000.

(** ** Lemmas *)

Lemma fee_ceiling_bounds gross fee :
  0 <= gross -> 0 <= fee <= 10000 ->
  0 <= fee_ceiling gross fee <= gross /\
  gross * fee <= fee_ceiling gross fee * 10000 < gross * fee + 10000.
Proof.
  intros Hg Hf. unfold fee_ceiling.
  pose proof (ceil_div_spec (gross * fee) 10000 ltac:(lia) ltac:(nia)) as H.
  cbn zeta in H. replace (10000 - 1) with 9999 in H by lia. nia.
Qed.

Lemma fee_ceiling_zero_rate gross : fee_ceiling gross 0 = 0.
Proof. unfold fee_ceiling. rewrite Z.mul_0_r. reflexivity. Qed.

Lemma fee_ceiling_mono gross gross' fee :
  0 <= fee -> gross <= gross' -> fee_ceiling gross fee <= fee_ceiling gross' fee.
Proof. intros. unfold fee_ceiling. apply Z.div_le_mono; nia. Qed.

(** On the inputs it accepts, [apply_fee] returns the ceiling fee and the
    remainder as net: no error arm and no overflow is reachable. *)
Lemma apply_fee_ok gross fee :
  in_ty I64 gross -> 0 <= gross -> 0 <= fee <= 10000 ->
  apply_fee gross fee =
    Ok {| fs_net := gross - fee_ceiling gross fee; fs_fee := fee_ceiling gross fee |}.
Proof.
  intros Hr Hg Hf. destruct (fee_ceiling_bounds gross fee Hg Hf) as [Hb _].
  assert (E : Z.quot (gross * fee + 9999) 10000 = fee_ceiling gross fee)
    by (apply quot_div_nonneg; nia).
  unfold apply_fee.
  rewrite (proj2 (Z.ltb_ge gross 0)) by lia.
  rewrite (proj2 (Z.ltb_ge 10000 fee)) by lia.
  run. run. rewrite sdiv_in; [|lia|rewrite E; ty]. cbn [mbind outcome_bind].
  rewrite E. run. run. reflexivity.
Qed.

Lemma apply_fee_inv gross fee s :
  in_ty I64 gross -> 0 <= fee -> apply_fee gross fee = Ok s ->
  0 <= gross /\ fee <= 10000 /\
  s = {| fs_net := gross - fee_ceiling gross fee; fs_fee := fee_ceiling gross fee |}.
Proof.
  intros Hr Hf H.
  assert (Hg : 0 <= gross).
  { destruct (Z.ltb_spec gross 0) as [Hlt|]; [|lia]. unfold apply_fee in H.
    rewrite (proj2 (Z.ltb_lt gross 0) Hlt) in H. discriminate. }
  assert (Hf' : fee <= 10000).
  { destruct (Z.ltb_spec 10000 fee) as [Hlt|]; [|lia]. unfold apply_fee in H.
    rewrite (proj2 (Z.ltb_ge gross 0) Hg), (proj2 (Z.ltb_lt 10000 fee) Hlt) in H. discriminate. }
  split_and!; [done..|]. rewrite apply_fee_ok in H by (done || lia). congruence.
Qed.

Lemma apply_fee_negative gross fee : gross < 0 -> apply_fee gross fee = Err NegativeAmount.
Proof. intros H. unfold apply_fee. by rewrite (proj2 (Z.ltb_lt gross 0) H). Qed.

Lemma apply_fee_too_high gross fee :
  0 <= gross -> 10000 < fee -> apply_fee gross fee = Err FeeTooHigh.
Proof.
  intros Hg Hf. unfold apply_fee.
  by rewrite (proj2 (Z.ltb_ge gross 0) Hg), (proj2 (Z.ltb_lt 10000 fee) Hf).
Qed.

Lemma apply_fee_no_panic gross fee :
  in_ty I64 gross -> 0 <= fee -> apply_fee gross fee <> Panic.
Proof.
  intros Hr Hf.
  destruct (Z.ltb_spec gross 0); [by rewrite apply_fee_negative|].
  destruct (Z.ltb_spec 10000 fee); [by rewrite apply_fee_too_high|].
  by rewrite apply_fee_ok by (done || lia).
Qed.

#[export] Hint Resolve apply_fee_no_panic : opinions.

(** ** Properties *)

(** on every [i64] gross amount and every fee rate, [apply_fee] behaves
    exactly as documented: a negative amount and an over-100% rate are refused
    with their own error, and otherwise the split is returned (the overflow
    arm and every panic are unreachable), it reassembles to the gross amount
    exactly, the fee is the exact rate rounded up by less than one micro, and
    neither leg is negative. *)
Theorem apply_fee_splits_exactly (gross fee : Z) :
  in_ty I64 gross -> in_ty U16 fee ->
  (gross < 0 -> apply_fee gross fee = Err NegativeAmount) /\
  (0 <= gross -> 10000 < fee -> apply_fee gross fee = Err FeeTooHigh) /\
  (0 <= gross -> fee <= 10000 -> exists s, apply_fee gross fee = Ok s /\
     fs_net s + fs_fee s = gross /\ 0 <= fs_net s /\ 0 <= fs_fee s /\
     gross * fee <= fs_fee s * 10000 < gross * fee + 10000).
Proof.
  intros Hg Hf. split_and!; auto using apply_fee_negative, apply_fee_too_high.
  intros H0 H1. eexists. rewrite apply_fee_ok by ty. split; [reflexivity|].
  destruct (fee_ceiling_bounds gross fee H0 ltac:(ty)). cbn. lia.
Qed.

Lemma apply_fee_splits_exactly_witness :
  in_ty I64 101 /\ in_ty U16 100 /\ exists s, apply_fee 101 100 = Ok s /\
     fs_net s + fs_fee s = 101 /\ 0 <= fs_net s /\ 0 <= fs_fee s /\
     101 * 100 <= fs_fee s * 10000 < 101 * 100 + 10000.
Proof.
  split; [ty|]. split; [ty|].
  apply (apply_fee_splits_exactly 101 100); [ty | ty | lia | lia].
Defined.

Example apply_fee_101 : apply_fee 101 100 = Ok {| fs_net := 99; fs_fee := 2 |}.
Proof. reflexivity. Qed.
