(* ===== verification/Amm.v ===== *)
(** * Amm: the integer CPMM of [crates/domain/src/amm.rs]

    Pools, the marginal price, the two quotes and the Newton square root they
    use, with the arithmetic at its machine width.  The theorems are the
    reserve invariant, the non-decreasing product, the conservation of
    complete sets, the maximality of the sell proceeds, the absence of panics
    and overflow errors, and the unprofitability of a round trip. *)

From S2P Require Import Prelude Money.

Definition MAX_RESERVE : Z := 1000000000000000.
Definition MAX_AMOUNT : Z := 1000000000000000.

Inductive Side := Yes | No.

#[export] Instance Side_eq_dec : EqDecision Side.
Proof. solve_decision. Defined.

Record Pool := { p_yes : Z; p_no : Z; p_fee : Z }.

Record BuyQuote := {
  bq_shares_out : Z; bq_fee : Z; bq_pool_after : Pool; bq_avg_price : Z }.

Record SellQuote := { sq_collateral_out : Z; sq_fee : Z; sq_pool_after : Pool }.

Inductive AmmError := EmptyPool | AmountTooSmall | DrainsPool | InputTooLarge | AmmOverflow.

#[export] Instance AmmError_eq_dec : EqDecision AmmError.
Proof. solve_decision. Defined.

(** [impl From<MoneyError> for AmmError]. *)
Definition AmmError_from (e : MoneyError) : AmmError :=
  match e with
  | NegativeAmount => AmountTooSmall
  | MoneyOverflow => AmmOverflow
  | FeeTooHigh => InputTooLarge
  end.

(** [u128::from(v.unsigned_abs())]. *)
Definition to_u128 (v : Z) : Z := Z.abs v.

Definition max_reserve_u128 : Z := to_u128 MAX_RESERVE.

(** The Newton loop of [isqrt_u128]; [midpoint] is the floor of the mean,
    computed without overflow. *)
Fixpoint isqrt_loop (fuel : nat) (x r : Z) : outcome AmmError Z :=
  match fuel with
  | O => Panic
  | S fuel =>
      q ← udiv x r;
      let next := (r + q) / 2 in
      if r <=? next then Ok r else isqrt_loop fuel x next
  end.

(** Iterations the loop is given: the distance to the root halves at every
    step and is below [2^65] at the seed. *)
Definition isqrt_fuel : nat := 67.

(** [isqrt_u128]: [128 - x.leading_zeros()] is the bit length of [x], and
    [bits.div_ceil(2)] the shift of the seed. *)
Definition isqrt_u128 (x : Z) : outcome AmmError Z :=
  if x <? 2 then Ok x else
  let bits := Z.log2 x + 1 in
  let r := Z.shiftl 1 ((bits + 1) / 2) in
  isqrt_loop isqrt_fuel x r.

(** [Pool::new]. *)
Definition pool_new (yes no fee : Z) : outcome AmmError Pool :=
  if (yes <=? 0) || (no <=? 0) then Err EmptyPool else
  if (MAX_RESERVE <? yes) || (MAX_RESERVE <? no) || (10000 <? fee) then Err InputTooLarge else
  Ok {| p_yes := yes; p_no := no; p_fee := fee |}.

(** [price_micro]: [i64::try_from(p).unwrap_or(i64::MAX)] is the saturation of
    the non-negative [p]. *)
Definition price_micro (pool : Pool) (side : Side) : outcome AmmError Z :=
  let yes := to_u128 (p_yes pool) in
  let no := to_u128 (p_no pool) in
  let opposite := match side with Yes => no | No => yes end in
  prod ← arith U128 (opposite * 1000000);
  total ← arith U128 (yes + no);
  p ← udiv prod total;
  Ok (saturate I64 p).

Definition quote_buy (pool : Pool) (side : Side) (collateral fee : Z) :
    outcome AmmError BuyQuote :=
  if MAX_AMOUNT <? collateral then Err InputTooLarge else
  split ← map_err AmmError_from (apply_fee collateral fee);
  let '(buy_reserve, other_reserve) :=
    match side with
    | Yes => (p_yes pool, p_no pool)
    | No => (p_no pool, p_yes pool)
    end in
  let a := to_u128 buy_reserve in
  let b := to_u128 other_reserve in
  let net := to_u128 (fs_net split) in
  b_after ← ok_or (checked U128 (b + net)) AmmOverflow;
  if max_reserve_u128 <? b_after then Err InputTooLarge else
  k ← ok_or (checked U128 (a * b)) AmmOverflow;
  b_less ← arith U128 (b_after - 1);
  num ← ok_or (checked U128 (k + b_less)) AmmOverflow;
  a_pool ← udiv num b_after;
  a_net ← ok_or (checked U128 (a + net)) AmmOverflow;
  out ← ok_or (checked U128 (a_net - a_pool)) AmmOverflow;
  if out =? 0 then Err AmountTooSmall else
  scaled ← ok_or (checked U128 (to_u128 collateral * 1000000)) AmmOverflow;
  avg ← udiv scaled out;
  let '(yes_after, no_after) :=
    match side with Yes => (a_pool, b_after) | No => (b_after, a_pool) end in
  shares_out ← ok_or (checked I64 out) AmmOverflow;
  yes' ← ok_or (checked I64 yes_after) AmmOverflow;
  no' ← ok_or (checked I64 no_after) AmmOverflow;
  avg' ← ok_or (checked I64 avg) AmmOverflow;
  Ok {| bq_shares_out := shares_out;
        bq_fee := fs_fee split;
        bq_pool_after := {| p_yes := yes'; p_no := no'; p_fee := p_fee pool |};
        bq_avg_price := avg' |}.

(** The guard loop of [quote_sell]: decrement [c] while the product of the
    reserves after the burn is below [k]. *)
Fixpoint sell_loop (fuel : nat) (sell_side s other_side k c : Z) : outcome AmmError Z :=
  match fuel with
  | O => Panic
  | S fuel =>
      if c =? 0 then Err AmountTooSmall else
      grown ← arith U128 (sell_side + s);
      left ← arith U128 (grown - c);
      right ← arith U128 (other_side - c);
      after_product ← ok_or (checked U128 (left * right)) AmmOverflow;
      if k <=? after_product then Ok c else sell_loop fuel sell_side s other_side k (c - 1)
  end.

(** Iterations the guard loop is given: the floored root is at most one too
    high, so the loop breaks in its first or second round. *)
Definition sell_fuel : nat := 2.

Definition quote_sell (pool : Pool) (side : Side) (shares fee : Z) :
    outcome AmmError SellQuote :=
  if shares <=? 0 then Err AmountTooSmall else
  if MAX_AMOUNT <? shares then Err InputTooLarge else
  let '(sell_reserve, other_reserve) :=
    match side with
    | Yes => (p_yes pool, p_no pool)
    | No => (p_no pool, p_yes pool)
    end in
  let sell_side := to_u128 sell_reserve in
  let other_side := to_u128 other_reserve in
  let s := to_u128 shares in
  k ← ok_or (checked U128 (sell_side * other_side)) AmmOverflow;
  bsum0 ← ok_or (checked U128 (sell_side + s)) AmmOverflow;
  bsum ← ok_or (checked U128 (bsum0 + other_side)) AmmOverflow;
  sb ← ok_or (checked U128 (s * other_side)) AmmOverflow;
  four_sb ← ok_or (checked U128 (sb * 4)) AmmOverflow;
  square ← ok_or (checked U128 (bsum * bsum)) AmmOverflow;
  disc ← ok_or (checked U128 (square - four_sb)) AmmOverflow;
  root ← isqrt_u128 disc;
  gap ← arith U128 (bsum - root);
  let c0 := gap / 2 in
  if other_side <=? c0 then Err DrainsPool else
  c ← sell_loop sell_fuel sell_side s other_side k c0;
  grown ← arith U128 (sell_side + s);
  sell_after ← arith U128 (grown - c);
  if max_reserve_u128 <? sell_after then Err InputTooLarge else
  other_after ← arith U128 (other_side - c);
  gross ← ok_or (checked I64 c) AmmOverflow;
  split ← map_err AmmError_from (apply_fee gross fee);
  let '(yes_after, no_after) :=
    match side with
    | Yes => (sell_after, other_after)
    | No => (other_after, sell_after)
    end in
  yes' ← ok_or (checked I64 yes_after) AmmOverflow;
  no' ← ok_or (checked I64 no_after) AmmOverflow;
  Ok {| sq_collateral_out := fs_net split;
        sq_fee := fs_fee split;
        sq_pool_after := {| p_yes := yes'; p_no := no'; p_fee := p_fee pool |} |}.

(** ** The invariant of reachable pools *)

Definition pool_wf (p : Pool) : Prop :=
  0 < p_yes p <= MAX_RESERVE /\ 0 < p_no p <= MAX_RESERVE /\ 0 <= p_fee p <= 10000.

(** The reserve a trade on [side] buys from or sells into, and the other. *)
Definition near (p : Pool) (side : Side) : Z := match side with Yes => p_yes p | No => p_no p end.
Definition far (p : Pool) (side : Side) : Z := match side with Yes => p_no p | No => p_yes p end.

(** The constant-product invariant. *)
Definition pool_k (p : Pool) : Z := p_yes p * p_no p.

(** A pool with the reserves of [side] and of the other outcome replaced. *)
Definition with_reserves (p : Pool) (side : Side) (n f : Z) : Pool :=
  match side with
  | Yes => {| p_yes := n; p_no := f; p_fee := p_fee p |}
  | No => {| p_yes := f; p_no := n; p_fee := p_fee p |}
  end.

(** The reserve kept on the bought side: [ceil(a * b / (b + net))]. *)
Definition buy_keep (a b net : Z) : Z := (a * b + (b + net - 1)) / (b + net).

(** Reference buy quote: which amounts are refused, and the reserves of an
    accepted one, with no machine arithmetic. *)
Definition buy_spec (p : Pool) (side : Side) (collateral fee : Z) : outcome AmmError BuyQuote :=
  if MAX_AMOUNT <? collateral then Err InputTooLarge else
  if collateral <? 0 then Err AmountTooSmall else
  if 10000 <? fee then Err InputTooLarge else
  let net := collateral - fee_ceiling collateral fee in
  if MAX_RESERVE <? far p side + net then Err InputTooLarge else
  if net =? 0 then Err AmountTooSmall else
  let keep := buy_keep (near p side) (far p side) net in
  let out := near p side + net - keep in
  Ok {| bq_shares_out := out;
        bq_fee := fee_ceiling collateral fee;
        bq_pool_after := with_reserves p side keep (far p side + net);
        bq_avg_price := collateral * 1000000 / out |}.

(** Whether burning [c] complete sets after a sale of [s] keeps the product. *)
Definition burn_keeps (p : Pool) (side : Side) (s c : Z) : bool :=
  near p side * far p side <=? (near p side + s - c) * (far p side - c).

(** The floored smaller root of the burn equation. *)
Definition sell_root (p : Pool) (side : Side) (s : Z) : Z :=
  let b := near p side + s + far p side in
  (b - Z.sqrt (b * b - s * far p side * 4)) / 2.

(** The burn the guard loop settles on. *)
Definition sell_burn (p : Pool) (side : Side) (s : Z) : Z :=
  if burn_keeps p side s (sell_root p side s) then sell_root p side s
  else sell_root p side s - 1.

(** Reference sell quote. *)
Definition sell_spec (p : Pool) (side : Side) (s fee : Z) : outcome AmmError SellQuote :=
  if s <=? 0 then Err AmountTooSmall else
  if MAX_AMOUNT <? s then Err InputTooLarge else
  if far p side <=? sell_root p side s then Err DrainsPool else
  let c := sell_burn p side s in
  if c <=? 0 then Err AmountTooSmall else
  if MAX_RESERVE <? near p side + s - c then Err InputTooLarge else
  if 10000 <? fee then Err InputTooLarge else
  Ok {| sq_collateral_out := c - fee_ceiling c fee;
        sq_fee := fee_ceiling c fee;
        sq_pool_after := with_reserves p side (near p side + s - c) (far p side - c) |}.

(** The pool with its outcomes exchanged. *)
Definition mirror (p : Pool) : Pool := {| p_yes := p_no p; p_no := p_yes p; p_fee := p_fee p |}.
Definition opposite (s : Side) : Side := match s with Yes => No | No => Yes end.

Definition mirror_buy (q : BuyQuote) : BuyQuote :=
  {| bq_shares_out := bq_shares_out q; bq_fee := bq_fee q;
     bq_pool_after := mirror (bq_pool_after q); bq_avg_price := bq_avg_price q |}.

Definition mirror_sell (q : SellQuote) : SellQuote :=
  {| sq_collateral_out := sq_collateral_out q; sq_fee := sq_fee q;
     sq_pool_after := mirror (sq_pool_after q) |}.

(** A concrete pool and its quotes, for the witnesses. *)
Definition demo_pool : Pool := {| p_yes := 1000000000; p_no := 1000000000; p_fee := 100 |}.

Definition demo_buy : BuyQuote :=
  {| bq_shares_out := 19702950; bq_fee := 100000;
     bq_pool_after := {| p_yes := 990197050; p_no := 1009900000; p_fee := 100 |};
     bq_avg_price := 507538 |}.

Definition demo_sell : SellQuote :=
  {| sq_collateral_out := 2471906; sq_fee := 24969;
     sq_pool_after := {| p_yes := 997503125; p_no := 1002503125; p_fee := 100 |} |}.

Definition demo_sell_back : SellQuote :=
  {| sq_collateral_out := 9899999; sq_fee := 0;
     sq_pool_after := {| p_yes := 1000000001; p_no := 1000000001; p_fee := 100 |} |}.

Example isqrt_max : isqrt_u128 340282366920938463463374607431768211455 = Ok 18446744073709551615.
Proof. vm_compute. reflexivity. Qed.

Example sell_symmetric :
  quote_sell {| p_yes := 1000; p_no := 1000; p_fee := 100 |} Yes 1000 100 =
  Ok {| sq_collateral_out := 377; sq_fee := 4;
        sq_pool_after := {| p_yes := 1619; p_no := 619; p_fee := 100 |} |}.
Proof. vm_compute. reflexivity. Qed.

Example sell_drains :
  quote_sell {| p_yes := 1000; p_no := 1000; p_fee := 100 |} Yes 1000000000 100 = Err DrainsPool.
Proof. vm_compute. reflexivity. Qed.

(** ** The square root *)

Lemma newton_step x r :
  0 < x -> 0 < r -> Z.sqrt x <= r ->
  let next := (r + x / r) / 2 in
  Z.sqrt x <= next /\
  (r = Z.sqrt x -> r <= next) /\
  (Z.sqrt x < r -> next < r /\ 2 * (next - Z.sqrt x) <= r - Z.sqrt x).
Proof.
  intros Hx Hr Hs next.
  destruct (Z.sqrt_spec x ltac:(lia)) as [Hlo Hhi].
  assert (Hs1 : 0 <= Z.sqrt x) by apply Z.sqrt_nonneg.
  assert (Hup : 2 * Z.sqrt x - r <= x / r) by (apply Z.div_le_lower_bound; nia).
  assert (Hge : Z.sqrt x <= next) by (apply Z.div_le_lower_bound; lia).
  split; [done|]. split; [intros ->; done|]. intros Hlt.
  assert (Hq : x / r < Z.sqrt x + 1) by (apply Z.div_lt_upper_bound; nia).
  pose proof (floor_div_spec (r + x / r) 2 ltac:(lia)). fold next in H. lia.
Qed.

Lemma isqrt_loop_spec n x r :
  0 < x -> 0 < r -> Z.sqrt x <= r -> r - Z.sqrt x < 2 ^ Z.of_nat n ->
  isqrt_loop (S n) x r = Ok (Z.sqrt x).
Proof.
  revert r. induction n as [|n IH]; intros r Hx Hr Hs Hd;
    destruct (newton_step x r Hx Hr Hs) as (Hge & Heq & Hlt);
    cbn [isqrt_loop]; rewrite udiv_pos by lia; cbn [mbind outcome_bind].
  - cbn in Hd. assert (r = Z.sqrt x) as -> by lia.
    rewrite (proj2 (Z.leb_le _ _)); auto.
  - destruct (decide (r = Z.sqrt x)) as [->|Hne].
    { rewrite (proj2 (Z.leb_le _ _)); auto. }
    destruct Hlt as [Hdec Hhalf]; [lia|].
    rewrite (proj2 (Z.leb_gt _ _)) by lia.
    assert (0 < Z.sqrt x) by (apply Z.sqrt_pos; lia).
    apply IH; [lia..|]. rewrite Nat2Z.inj_succ, Z.pow_succ_r in Hd by lia. lia.
Qed.

Lemma isqrt_seed x :
  0 < x -> in_ty U128 x ->
  let r := Z.shiftl 1 ((Z.log2 x + 1 + 1) / 2) in
  0 < r /\ Z.sqrt x <= r /\ r - Z.sqrt x < 2 ^ Z.of_nat 66.
Proof.
  intros Hx Ht r.
  assert (Hlog : 0 <= Z.log2 x <= 127).
  { split; [apply Z.log2_nonneg|]. replace 127 with (Z.log2 (2 ^ 128 - 1)) by reflexivity.
    apply Z.log2_le_mono. ty. }
  destruct (Z.log2_spec x Hx) as [_ Hup].
  pose proof (floor_div_spec (Z.log2 x + 1 + 1) 2 ltac:(lia)) as Hd.
  set (m := (Z.log2 x + 1 + 1) / 2) in *.
  assert (Hr : r = 2 ^ m) by (unfold r; rewrite Z.shiftl_1_l; reflexivity).
  assert (Hp : 0 < 2 ^ m) by (apply Z.pow_pos_nonneg; lia).
  assert (Hsq : x < 2 ^ m * 2 ^ m).
  { rewrite <- Z.pow_add_r by lia.
    apply Z.lt_le_trans with (2 ^ Z.succ (Z.log2 x)); [done|].
    apply Z.pow_le_mono_r; lia. }
  assert (Hle : Z.sqrt x <= 2 ^ m).
  { apply Z.lt_succ_r, Z.sqrt_lt_square; nia. }
  assert (Hm : 2 ^ m <= 2 ^ 64) by (apply Z.pow_le_mono_r; lia).
  rewrite Hr. split_and!; [done..|].
  pose proof (Z.sqrt_nonneg x). change (Z.of_nat 66) with 66. lia.
Qed.

Lemma isqrt_u128_sqrt x : in_ty U128 x -> isqrt_u128 x = Ok (Z.sqrt x).
Proof.
  intros Ht. unfold isqrt_u128. case_if; bool_hyps.
  - assert (x = 0 \/ x = 1) as [-> | ->] by ty; reflexivity.
  - destruct (isqrt_seed x ltac:(lia) Ht) as (H1 & H2 & H3).
    cbv zeta. apply (isqrt_loop_spec 66); [lia|done..].
Qed.

(** ** Buying *)

Lemma buy_keep_bounds a b net :
  0 < a -> 0 < b -> 0 <= net ->
  0 < buy_keep a b net <= a /\
  a * b <= buy_keep a b net * (b + net) < a * b + (b + net).
Proof.
  intros Ha Hb Hn.
  pose proof (ceil_div_spec (a * b) (b + net) ltac:(lia) ltac:(nia)) as H.
  cbn zeta in H. fold (buy_keep a b net) in H.
  assert (buy_keep a b net <= a); [|nia].
  unfold buy_keep. apply Z.lt_succ_r, Z.div_lt_upper_bound; nia.
Qed.

Lemma net_bounds collateral fee :
  0 <= collateral -> 0 <= fee <= 10000 ->
  0 <= collateral - fee_ceiling collateral fee <= collateral /\
  (collateral - fee_ceiling collateral fee <> 0 ->
   collateral <= 20000 * (collateral - fee_ceiling collateral fee)).
Proof.
  intros Hc Hf. destruct (fee_ceiling_bounds collateral fee Hc Hf) as [H1 H2].
  split; [lia|]. intros Hn. set (F := fee_ceiling collateral fee) in *.
  assert (fee < 10000) by nia.
  assert (collateral * 1 <= collateral * (10000 - fee)) by (apply Z.mul_le_mono_nonneg_l; lia).
  lia.
Qed.

Lemma buy_out_ge_net a b net :
  0 < a -> 0 < b -> 0 <= net -> net <= a + net - buy_keep a b net <= a + net - 1.
Proof. intros. destruct (buy_keep_bounds a b net); lia. Qed.

Lemma buy_keep_zero a b : 0 < a -> 0 < b -> buy_keep a b 0 = a.
Proof. intros. destruct (buy_keep_bounds a b 0) as [? ?]; nia. Qed.

Lemma quote_buy_refines p side collateral fee :
  pool_wf p -> in_ty I64 collateral -> in_ty U16 fee ->
  quote_buy p side collateral fee = buy_spec p side collateral fee.
Proof.
  intros Hwf Hc Hf. unfold quote_buy, buy_spec.
  destruct (MAX_AMOUNT <? collateral) eqn:E0; [done|].
  destruct (collateral <? 0) eqn:E1; bool_hyps.
  { rewrite apply_fee_negative by done. reflexivity. }
  destruct (10000 <? fee) eqn:E2; bool_hyps.
  { rewrite apply_fee_too_high by done. reflexivity. }
  rewrite apply_fee_ok by ty. cbn [map_err mbind outcome_bind fs_net fs_fee].
  destruct (net_bounds collateral fee) as [Hn Hn']; [lia|ty|].
  set (net := collateral - fee_ceiling collateral fee) in *. cbv zeta.
  assert (Hab : 0 < near p side <= MAX_RESERVE /\ 0 < far p side <= MAX_RESERVE).
  { destruct side; destruct Hwf as (? & ? & _); cbn; lia. }
  destruct Hab as [Ha Hb].
  replace (match side with Yes => (p_yes p, p_no p) | No => (p_no p, p_yes p) end)
    with (near p side, far p side) by (destruct side; reflexivity).
  cbv iota. set (a := near p side) in *. set (b := far p side) in *.
  unfold max_reserve_u128, to_u128, MAX_RESERVE, MAX_AMOUNT in *.
  rewrite !Z.abs_eq by lia. run.
  destruct (1000000000000000 <? b + net) eqn:E3; [done|]. bool_hyps.
  run. run. run. run. fold (buy_keep a b net).
  destruct (buy_keep_bounds a b net) as [Hk _]; [lia..|].
  pose proof (buy_out_ge_net a b net ltac:(lia) ltac:(lia) ltac:(lia)) as Ho.
  run. run. destruct (Z.eqb_spec net 0) as [E4|E4].
  { assert (a + net - buy_keep a b net = 0) as ->; [|done].
    rewrite E4, buy_keep_zero by lia. lia. }
  rewrite (proj2 (Z.eqb_neq _ 0)) by lia. run. run.
  specialize (Hn' E4).
  assert (Hav : 0 <= collateral * 1000000 / (a + net - buy_keep a b net) <= 20000 * 1000000).
  { split; [apply Z.div_pos; lia|]. apply Z.div_le_upper_bound; [lia|]. nia. }
  destruct side; cbn [with_reserves]; repeat run; reflexivity.
Qed.

(** ** Selling *)

Section SellRoot.
Context (S O s : Z).
Hypotheses (HS : 0 < S) (HO : 0 < O) (Hs : 0 < s).

Let b := S + s + O.
Let disc := b * b - s * O * 4.
Let r := Z.sqrt disc.
Let c0 := (b - r) / 2.

Lemma disc_bounds : 5 <= disc <= b * b.
Proof.
  assert (E : disc = S * S + 2 * (S * s) + 2 * (S * O) + (s - O) * (s - O))
    by (unfold disc, b; ring).
  pose proof (Z.square_nonneg (s - O)).
  assert (1 <= S * S /\ 1 <= S * s /\ 1 <= S * O /\ 1 <= s * O) by nia.
  split; [lia|]. unfold disc. lia.
Qed.

Lemma root_bounds : r * r <= disc < (r + 1) * (r + 1) /\ 2 <= r <= b.
Proof.
  pose proof disc_bounds as Hd.
  destruct (Z.sqrt_spec disc ltac:(lia)) as [H1 H2]. fold r in H1, H2.
  rewrite <- Z.add_1_r in H2.
  assert (0 <= r) by apply Z.sqrt_nonneg.
  assert (2 <= r) by nia.
  assert (0 < b) by (unfold b; lia).
  assert (r <= b) by (apply Z.square_le_simpl_nonneg; lia). lia.
Qed.

Lemma c0_bounds : 0 <= c0 /\ r <= b - 2 * c0 <= r + 1.
Proof.
  pose proof root_bounds as (_ & ? & ?).
  pose proof (floor_div_spec (b - r) 2 ltac:(lia)). fold c0 in H1.
  assert (0 <= c0) by (apply Z.div_pos; lia). lia.
Qed.

(** The burn equation: completing the square. *)
Lemma burn_square c :
  (b - 2 * c) * (b - 2 * c) = 4 * ((S + s - c) * (O - c) - S * O) + disc.
Proof. unfold disc, b. ring. Qed.

Lemma burn_below : S * O <= (S + s - (c0 - 1)) * (O - (c0 - 1)).
Proof.
  pose proof (burn_square (c0 - 1)) as E. pose proof root_bounds. pose proof c0_bounds.
  set (t := b - 2 * (c0 - 1)) in *.
  assert ((r + 1) * (r + 1) <= t * t) by (apply Z.square_le_mono_nonneg; lia). lia.
Qed.

Lemma burn_above : (S + s - (c0 + 1)) * (O - (c0 + 1)) < S * O.
Proof.
  pose proof (burn_square (c0 + 1)) as E. pose proof root_bounds. pose proof c0_bounds.
  set (t := b - 2 * (c0 + 1)) in *.
  assert (t * t <= (r - 1) * (r - 1)) by (apply Z.square_le_mono_nonneg; lia). lia.
Qed.

(** A burn below the other reserve that keeps the product burns fewer sets
    than the shares sold. *)
Lemma burn_lt_shares c : c < O -> S * O <= (S + s - c) * (O - c) -> c < s.
Proof.
  intros Hc H. destruct (Z.lt_ge_cases c s) as [|Hge]; [done|]. exfalso.
  assert ((S + s - c) * (O - c) <= S * (O - c)) by (apply Z.mul_le_mono_nonneg_r; lia).
  assert (0 < S * c) by (apply Z.mul_pos_pos; lia). lia.
Qed.

Lemma c0_le_shares : c0 < O -> c0 <= s.
Proof. intros. pose proof (burn_lt_shares (c0 - 1) ltac:(lia) burn_below). lia. Qed.
End SellRoot.

Lemma prod_u128 x y :
  0 <= x <= 3000000000000000 -> 0 <= y <= 3000000000000000 -> in_ty U128 (x * y).
Proof. intros. ty. Qed.

Lemma sell_loop_spec S O s c0 :
  0 < S -> 0 < O -> 0 < s -> S + s + O <= 3000000000000000 ->
  c0 = (S + s + O - Z.sqrt ((S + s + O) * (S + s + O) - s * O * 4)) / 2 -> c0 < O ->
  let c := if S * O <=? (S + s - c0) * (O - c0) then c0 else c0 - 1 in
  sell_loop sell_fuel S s O (S * O) c0 = if c <=? 0 then Err AmountTooSmall else Ok c.
Proof.
  intros HS HO Hs Hmax Hc0 Hlt c.
  pose proof (c0_bounds S O s HS HO Hs) as [Hc _].
  pose proof (burn_below S O s HS HO Hs) as Hbelow.
  pose proof (c0_le_shares S O s HS HO Hs) as Hle. rewrite <- Hc0 in *.
  specialize (Hle Hlt). clear Hc0. cbn [sell_fuel sell_loop].
  destruct (Z.eqb_spec c0 0) as [Hz|Hnz].
  { rewrite (proj2 (Z.leb_le c 0)); [done|]. unfold c. case_if; lia. }
  run. run. run. rewrite checked_in by (apply prod_u128; lia).
  cbn [ok_or mbind outcome_bind]. subst c.
  destruct (S * O <=? (S + s - c0) * (O - c0)) eqn:E.
  { by rewrite (proj2 (Z.leb_gt c0 0)) by lia. }
  destruct (Z.eqb_spec (c0 - 1) 0) as [Hz|Hnz'].
  { by rewrite (proj2 (Z.leb_le (c0 - 1) 0)) by lia. }
  run. run. rewrite checked_in by (apply prod_u128; lia). cbn [ok_or mbind outcome_bind].
  rewrite (proj2 (Z.leb_le _ _) Hbelow).
  by rewrite (proj2 (Z.leb_gt (c0 - 1) 0)) by lia.
Qed.

(** What a burn the guard loop settles on satisfies. *)
Lemma sell_burn_spec p side s :
  0 < near p side -> 0 < far p side -> 0 < s -> sell_root p side s < far p side ->
  let c := sell_burn p side s in
  near p side * far p side <= (near p side + s - c) * (far p side - c) /\
  (near p side + s - (c + 1)) * (far p side - (c + 1)) < near p side * far p side /\
  c < s /\ c < far p side /\ sell_root p side s - 1 <= c <= sell_root p side s.
Proof.
  intros HS HO Hs Hlt c.
  pose proof (burn_below _ _ _ HS HO Hs) as Hb.
  pose proof (burn_above _ _ _ HS HO Hs) as Ha.
  fold (sell_root p side s) in Hb, Ha.
  unfold sell_burn, burn_keeps in c.
  destruct (near p side * far p side <=? _) eqn:E; bool_hyps; subst c.
  - repeat split; try lia; [done..|].
    apply (burn_lt_shares (near p side) (far p side)); done.
  - replace (sell_root p side s - 1 + 1) with (sell_root p side s) by lia.
    pose proof (c0_le_shares _ _ _ HS HO Hs) as Hle. fold (sell_root p side s) in Hle.
    repeat split; try lia; done.
Qed.

Lemma quote_sell_refines p side shares fee :
  pool_wf p -> in_ty I64 shares -> in_ty U16 fee ->
  quote_sell p side shares fee = sell_spec p side shares fee.
Proof.
  intros Hwf Hs Hf. unfold quote_sell, sell_spec.
  destruct (shares <=? 0) eqn:E0; [done|].
  destruct (MAX_AMOUNT <? shares) eqn:E1; [done|]. bool_hyps.
  replace (match side with Yes => (p_yes p, p_no p) | No => (p_no p, p_yes p) end)
    with (near p side, far p side) by (destruct side; reflexivity).
  cbv iota zeta.
  assert (Hab : 0 < near p side <= MAX_RESERVE /\ 0 < far p side <= MAX_RESERVE).
  { destruct side; destruct Hwf as (? & ? & _); cbn; lia. }
  pose proof (sell_burn_spec p side shares) as Hburn.
  unfold sell_burn, burn_keeps, sell_root in *.
  destruct Hab as [Ha Hb].
  set (S := near p side) in *. set (O := far p side) in *.
  unfold max_reserve_u128, to_u128, MAX_RESERVE, MAX_AMOUNT in *.
  rewrite !Z.abs_eq by lia.
  pose proof (disc_bounds S O shares ltac:(lia) ltac:(lia) ltac:(lia)) as Hd.
  pose proof (root_bounds S O shares ltac:(lia) ltac:(lia) ltac:(lia)) as (_ & Hr).
  pose proof (c0_bounds S O shares ltac:(lia) ltac:(lia) ltac:(lia)) as (Hc0 & _).
  assert (Hsq : in_ty U128 ((S + shares + O) * (S + shares + O))) by (apply prod_u128; lia).
  assert (Hso : in_ty U128 (shares * O)) by (apply prod_u128; lia).
  rewrite checked_in by (apply prod_u128; lia). cbn [ok_or mbind outcome_bind].
  run. run. run. run. run. run.
  rewrite isqrt_u128_sqrt by ty. cbn [mbind outcome_bind]. run.
  set (c0 := (S + shares + O - Z.sqrt _) / 2) in *.
  destruct (O <=? c0) eqn:E2; [done|]. bool_hyps.
  rewrite (sell_loop_spec S O shares c0) by (done || lia).
  destruct Hburn as (_ & _ & Hcs & HcO & Hcr); [lia..|].
  set (c := if S * O <=? _ then c0 else c0 - 1) in *.
  destruct (c <=? 0) eqn:E3; [done|]. bool_hyps. cbn [mbind outcome_bind].
  run. run. destruct (1000000000000000 <? S + shares - c) eqn:E4; [done|]. bool_hyps.
  run. run.
  destruct (10000 <? fee) eqn:E5; bool_hyps.
  { rewrite apply_fee_too_high by lia. reflexivity. }
  rewrite apply_fee_ok by ty. cbn [map_err mbind outcome_bind fs_net fs_fee].
  destruct side; cbn [with_reserves]; run; run; reflexivity.
Qed.

(** ** What an accepted quote guarantees *)

Lemma near_far_wf p side :
  pool_wf p -> 0 < near p side <= MAX_RESERVE /\ 0 < far p side <= MAX_RESERVE.
Proof. intros (? & ? & _). destruct side; cbn; lia. Qed.

Lemma with_reserves_wf p side n f :
  pool_wf p -> 0 < n <= MAX_RESERVE -> 0 < f <= MAX_RESERVE -> pool_wf (with_reserves p side n f).
Proof. intros (? & ? & ?). destruct side; cbn; unfold pool_wf; cbn; lia. Qed.

Lemma near_with p side n f : near (with_reserves p side n f) side = n.
Proof. by destruct side. Qed.

Lemma far_with p side n f : far (with_reserves p side n f) side = f.
Proof. by destruct side. Qed.

Lemma fee_with p side n f : p_fee (with_reserves p side n f) = p_fee p.
Proof. by destruct side. Qed.

Lemma pool_k_near_far p side : pool_k p = near p side * far p side.
Proof. unfold pool_k. destruct side; cbn; lia. Qed.

#[export] Hint Rewrite near_with far_with fee_with : opinions.

(** The facts an accepted buy leaves behind. *)
Record buy_facts (p : Pool) (side : Side) (collateral fee : Z) (q : BuyQuote) : Prop := {
  bf_collateral : 0 < collateral <= MAX_AMOUNT;
  bf_fee_exact : bq_fee q = fee_ceiling collateral fee;
  bf_fee_range : 0 <= bq_fee q < collateral;
  bf_shares : collateral - bq_fee q <= bq_shares_out q;
  bf_near : near (bq_pool_after q) side + bq_shares_out q = near p side + (collateral - bq_fee q);
  bf_far : far (bq_pool_after q) side = far p side + (collateral - bq_fee q);
  bf_wf : pool_wf (bq_pool_after q);
  bf_same_fee : p_fee (bq_pool_after q) = p_fee p;
  bf_product : pool_k p <= pool_k (bq_pool_after q) }.

Lemma quote_buy_facts p side collateral fee q :
  pool_wf p -> in_ty I64 collateral -> in_ty U16 fee ->
  quote_buy p side collateral fee = Ok q -> buy_facts p side collateral fee q.
Proof.
  intros Hwf Hc Hf. rewrite quote_buy_refines by done. unfold buy_spec. cbv zeta.
  intros H. destruct (near_far_wf p side Hwf) as [Ha Hb].
  inv_run H. bool_hyps. injection H as <-.
  pose proof (net_bounds collateral fee ltac:(lia) ltac:(ty)) as [Hn _].
  set (net := collateral - fee_ceiling collateral fee) in *.
  pose proof (buy_keep_bounds (near p side) (far p side) net) as [Hk Hp]; [lia..|].
  pose proof (fee_ceiling_bounds collateral fee ltac:(lia) ltac:(ty)) as [Hfc _].
  unfold MAX_RESERVE, MAX_AMOUNT in *.
  split; cbn; unfold MAX_AMOUNT; autorewrite with opinions; try (subst net; lia).
  - apply with_reserves_wf; unfold MAX_RESERVE; lia || done.
  - rewrite !(pool_k_near_far _ side), near_with, far_with. lia.
Qed.

(** The facts an accepted sell leaves behind; [c] is the number of complete
    sets burnt. *)
Record sell_facts (p : Pool) (side : Side) (s fee : Z) (q : SellQuote) (c : Z) : Prop := {
  sf_shares : 0 < s <= MAX_AMOUNT;
  sf_burn : 0 < c < s;
  sf_gross : sq_collateral_out q + sq_fee q = c;
  sf_fee_exact : sq_fee q = fee_ceiling c fee;
  sf_fee_range : 0 <= sq_fee q <= c;
  sf_near : near (sq_pool_after q) side = near p side + s - c;
  sf_far : far (sq_pool_after q) side = far p side - c;
  sf_wf : pool_wf (sq_pool_after q);
  sf_same_fee : p_fee (sq_pool_after q) = p_fee p;
  sf_product : pool_k p <= pool_k (sq_pool_after q);
  sf_maximal : (near p side + s - (c + 1)) * (far p side - (c + 1)) < pool_k p }.

Lemma quote_sell_facts p side s fee q :
  pool_wf p -> in_ty I64 s -> in_ty U16 fee ->
  quote_sell p side s fee = Ok q -> sell_facts p side s fee q (sell_burn p side s).
Proof.
  intros Hwf Hs Hf. rewrite quote_sell_refines by done. unfold sell_spec. cbv zeta.
  intros H. destruct (near_far_wf p side Hwf) as [Ha Hb].
  inv_run H. bool_hyps. injection H as <-.
  destruct (sell_burn_spec p side s) as (Hk & Hm & Hcs & HcO & _); [lia..|].
  set (c := sell_burn p side s) in *.
  pose proof (fee_ceiling_bounds c fee ltac:(lia) ltac:(ty)) as [Hfc _].
  unfold MAX_RESERVE, MAX_AMOUNT in *.
  split; cbn; unfold MAX_AMOUNT; autorewrite with opinions; try lia.
  - apply with_reserves_wf; unfold MAX_RESERVE; lia || done.
  - rewrite !(pool_k_near_far _ side), near_with, far_with. lia.
  - rewrite (pool_k_near_far _ side). lia.
Qed.

(** A burn that keeps the product after a buy returns at most the net
    collateral of the buy. *)
Lemma round_trip_burn a b a' net c :
  0 < a -> 0 < b -> 0 <= net -> a * b <= a' * (b + net) ->
  c < b + net ->
  a' * (b + net) <= (a + net - c) * (b + net - c) -> c <= net.
Proof.
  intros Ha Hb Hn Hk Hc H. destruct (Z.le_gt_cases c net) as [|Hgt]; [done|]. exfalso.
  assert ((a + net - c) * (b + net - c) <= a * (b + net - c))
    by (apply Z.mul_le_mono_nonneg_r; lia).
  assert (a * (b + net - c) < a * b) by (apply Z.mul_lt_mono_pos_l; lia). lia.
Qed.

(** ** Properties *)

(** [isqrt_u128] is the floor square root on every [u128]: the Newton
    descent terminates within its fuel and stops exactly at the greatest [r]
    with [r * r <= x]. *)
Theorem isqrt_u128_floor (x : Z) :
  in_ty U128 x -> exists r, isqrt_u128 x = Ok r /\ 0 <= r /\ r * r <= x < (r + 1) * (r + 1).
Proof.
  intros Hx. exists (Z.sqrt x). split; [by apply isqrt_u128_sqrt|].
  split; [apply Z.sqrt_nonneg|]. rewrite !Z.add_1_r. apply Z.sqrt_spec. ty.
Qed.

Lemma isqrt_u128_floor_witness :
  exists r, isqrt_u128 5000000 = Ok r /\ 0 <= r /\ r * r <= 5000000 < (r + 1) * (r + 1).
Proof. apply (isqrt_u128_floor 5000000). ty. Defined.

(** On a well-formed pool, [quote_buy] equals the reference quote on every
    machine input: it refuses exactly the documented amounts with the
    documented errors, and the overflow errors, the panics and the wrap-around
    of its checked [u128] pipeline are unreachable. *)
Theorem quote_buy_equals_reference (p : Pool) (side : Side) (collateral fee : Z) :
  pool_wf p -> in_ty I64 collateral -> in_ty U16 fee ->
  quote_buy p side collateral fee = buy_spec p side collateral fee /\
  quote_buy p side collateral fee <> Err AmmOverflow /\
  quote_buy p side collateral fee <> Panic.
Proof.
  intros. rewrite quote_buy_refines by done. unfold buy_spec. cbv zeta.
  split_and!; [done|..]; repeat case_if; discriminate.
Qed.

Lemma demo_pool_wf : pool_wf demo_pool.
Proof. unfold pool_wf, MAX_RESERVE; cbn; lia. Qed.

Lemma quote_buy_equals_reference_witness :
  quote_buy demo_pool Yes 10000000 100 = buy_spec demo_pool Yes 10000000 100 /\
  quote_buy demo_pool Yes 10000000 100 <> Err AmmOverflow /\
  quote_buy demo_pool Yes 10000000 100 <> Panic.
Proof. apply (quote_buy_equals_reference demo_pool Yes); [apply demo_pool_wf | ty | ty]. Defined.

(** C2: an accepted buy preserves the pool invariant (positive reserves under
    the closed cap), never decreases the constant product, mints complete sets
    one for one with the net collateral on both outcomes, and hands out at
    least one share per micro of net collateral. *)
Theorem quote_buy_preserves (p : Pool) (side : Side) (collateral fee : Z) (q : BuyQuote) :
  pool_wf p -> in_ty I64 collateral -> in_ty U16 fee ->
  quote_buy p side collateral fee = Ok q ->
  pool_wf (bq_pool_after q) /\
  pool_k p <= pool_k (bq_pool_after q) /\
  near (bq_pool_after q) side + bq_shares_out q = near p side + (collateral - bq_fee q) /\
  far (bq_pool_after q) side = far p side + (collateral - bq_fee q) /\
  0 < collateral - bq_fee q <= bq_shares_out q.
Proof.
  intros Hwf Hc Hf H. destruct (quote_buy_facts _ _ _ _ _ Hwf Hc Hf H).
  split_and!; done || lia.
Qed.

Lemma quote_buy_preserves_witness :
  pool_wf (bq_pool_after demo_buy) /\
  0 < 10000000 - bq_fee demo_buy <= bq_shares_out demo_buy.
Proof.
  destruct (quote_buy_preserves demo_pool Yes 10000000 100 demo_buy demo_pool_wf
              ltac:(ty) ltac:(ty) ltac:(vm_compute; reflexivity)) as (H1 & _ & _ & _ & H2).
  split; [exact H1 | exact H2].
Defined.

(** C40: on a well-formed pool, [quote_sell] equals the reference quote on every
    machine input; the guard loop ends within two rounds, and no overflow
    error, panic or underflow is reachable. *)
Theorem quote_sell_equals_reference (p : Pool) (side : Side) (shares fee : Z) :
  pool_wf p -> in_ty I64 shares -> in_ty U16 fee ->
  quote_sell p side shares fee = sell_spec p side shares fee /\
  quote_sell p side shares fee <> Err AmmOverflow /\
  quote_sell p side shares fee <> Panic.
Proof.
  intros. rewrite quote_sell_refines by done. unfold sell_spec. cbv zeta.
  split_and!; [done|..]; repeat case_if; discriminate.
Qed.

Lemma quote_sell_equals_reference_witness :
  quote_sell demo_pool No 5000000 100 = sell_spec demo_pool No 5000000 100 /\
  quote_sell demo_pool No 5000000 100 <> Err AmmOverflow /\
  quote_sell demo_pool No 5000000 100 <> Panic.
Proof. apply (quote_sell_equals_reference demo_pool No); [apply demo_pool_wf | ty | ty]. Defined.

(** C3: an accepted sell burns the same number [c] of complete sets on both
    outcomes, pays out exactly [c] as proceeds plus fee, keeps the pool
    invariant and the constant product, and [c] is the largest burn that
    does: one more set would shrink the product. *)
Theorem quote_sell_preserves (p : Pool) (side : Side) (shares fee : Z) (q : SellQuote) :
  pool_wf p -> in_ty I64 shares -> in_ty U16 fee ->
  quote_sell p side shares fee = Ok q ->
  let c := sq_collateral_out q + sq_fee q in
  0 < c < shares /\ 0 <= sq_fee q <= c /\
  pool_wf (sq_pool_after q) /\
  near (sq_pool_after q) side = near p side + shares - c /\
  far (sq_pool_after q) side = far p side - c /\
  pool_k p <= pool_k (sq_pool_after q) /\
  (near p side + shares - (c + 1)) * (far p side - (c + 1)) < pool_k p.
Proof.
  intros Hwf Hs Hf H c. destruct (quote_sell_facts _ _ _ _ _ Hwf Hs Hf H) as [].
  subst c. rewrite sf_gross0. split_and!; done || lia.
Qed.

Lemma quote_sell_preserves_witness :
  0 < sq_collateral_out demo_sell + sq_fee demo_sell < 5000000 /\
  pool_wf (sq_pool_after demo_sell).
Proof.
  destruct (quote_sell_preserves demo_pool No 5000000 100 demo_sell demo_pool_wf
              ltac:(ty) ltac:(ty) ltac:(vm_compute; reflexivity)) as (H1 & _ & H2 & _).
  split; [exact H1 | exact H2].
Defined.

(** buying and immediately selling back the bought shares never returns
    more than was paid, whatever the two fee rates: the proceeds and the sell
    fee together are at most the net collateral of the buy. *)
Theorem round_trip_never_profits (p : Pool) (side : Side) (collateral fee fee' : Z)
    (b : BuyQuote) (s : SellQuote) :
  pool_wf p -> in_ty I64 collateral -> in_ty U16 fee -> in_ty U16 fee' ->
  quote_buy p side collateral fee = Ok b ->
  quote_sell (bq_pool_after b) side (bq_shares_out b) fee' = Ok s ->
  sq_collateral_out s + sq_fee s <= collateral - bq_fee b /\
  sq_collateral_out s <= collateral.
Proof.
  intros Hwf Hc Hf Hf' Hb Hs.
  destruct (quote_buy_facts _ _ _ _ _ Hwf Hc Hf Hb) as [].
  destruct (near_far_wf p side Hwf) as [Ha Hfa].
  destruct (near_far_wf _ side bf_wf0) as [Ha' Hfa'].
  assert (Hty : in_ty I64 (bq_shares_out b)) by (unfold MAX_RESERVE, MAX_AMOUNT in *; ty).
  destruct (quote_sell_facts _ _ _ _ _ bf_wf0 Hty Hf' Hs) as [].
  set (c := sell_burn _ _ _) in *. clearbody c.
  rewrite !(pool_k_near_far _ side) in bf_product0.
  rewrite !(pool_k_near_far _ side) in sf_product0.
  destruct (near_far_wf _ side sf_wf0) as [_ Hfs].
  rewrite sf_near0, sf_far0, bf_far0, bf_near0 in *.
  pose proof (round_trip_burn (near p side) (far p side) (near (bq_pool_after b) side)
                (collateral - bq_fee b) c). lia.
Qed.

Lemma round_trip_never_profits_witness :
  sq_collateral_out demo_sell_back + sq_fee demo_sell_back <= 10000000 - bq_fee demo_buy /\
  sq_collateral_out demo_sell_back <= 10000000.
Proof.
  apply (round_trip_never_profits demo_pool Yes 10000000 100 0 demo_buy demo_sell_back
           demo_pool_wf); [ty | ty | ty | vm_compute; reflexivity | vm_compute; reflexivity].
Defined.

(** on a well-formed pool the two marginal prices are defined, lie in the
    unit interval, and sum to one dollar within one micro. *)
Theorem prices_sum_to_one (p : Pool) :
  pool_wf p -> exists y n, price_micro p Yes = Ok y /\ price_micro p No = Ok n /\
    0 <= y <= 1000000 /\ 0 <= n <= 1000000 /\ 999999 <= y + n <= 1000000.
Proof.
  intros (Hy & Hn & _). destruct p as [yes no pf]. cbn in Hy, Hn. unfold MAX_RESERVE in *.
  pose proof (floor_div_spec (no * 1000000) (yes + no) ltac:(lia)) as H1.
  pose proof (floor_div_spec (yes * 1000000) (yes + no) ltac:(lia)) as H2.
  set (y := no * 1000000 / (yes + no)) in *. set (n := yes * 1000000 / (yes + no)) in *.
  assert (Hp : 0 <= y /\ 0 <= n) by (split; apply Z.div_pos; lia).
  assert (Hle : y + n <= 1000000) by (apply (Z.mul_le_mono_pos_r _ _ (yes + no)); lia).
  assert (Hge : 1000000 < y + n + 2) by (apply (Z.mul_lt_mono_pos_r (yes + no)); lia).
  exists y, n. unfold price_micro, to_u128; cbn [p_yes p_no].
  rewrite !Z.abs_eq by lia. repeat split; try lia.
  - run. run. run. f_equal. unfold saturate. fold y. ty.
  - run. run. run. f_equal. unfold saturate. fold n. ty.
Qed.

Lemma prices_sum_to_one_witness :
  exists y n, price_micro demo_pool Yes = Ok y /\ price_micro demo_pool No = Ok n /\
    0 <= y <= 1000000 /\ 0 <= n <= 1000000 /\ 999999 <= y + n <= 1000000.
Proof. apply (prices_sum_to_one demo_pool). apply demo_pool_wf. Defined.

Lemma mirror_near p side : near (mirror p) (opposite side) = near p side.
Proof. by destruct side. Qed.

Lemma mirror_far p side : far (mirror p) (opposite side) = far p side.
Proof. by destruct side. Qed.

Lemma mirror_wf p : pool_wf p -> pool_wf (mirror p).
Proof. unfold pool_wf; cbn. tauto. Qed.

(** the two outcomes are exactly symmetric: quoting the opposite side of the
    exchanged pool gives the same shares, fees, prices and errors, and the
    exchanged pool afterwards, for buys and for sells. *)
Theorem sides_are_symmetric (p : Pool) (side : Side) (amount fee : Z) :
  pool_wf p -> in_ty I64 amount -> in_ty U16 fee ->
  quote_buy (mirror p) (opposite side) amount fee =
    map_ok mirror_buy (quote_buy p side amount fee) /\
  quote_sell (mirror p) (opposite side) amount fee =
    map_ok mirror_sell (quote_sell p side amount fee).
Proof.
  intros Hwf Ha Hf. pose proof (mirror_wf p Hwf) as Hwf'.
  rewrite !quote_buy_refines, !quote_sell_refines by done.
  unfold buy_spec, sell_spec, sell_burn, burn_keeps, sell_root. cbv zeta.
  rewrite !mirror_near, !mirror_far.
  split; repeat case_if; try reflexivity; destruct side; reflexivity.
Qed.

Lemma sides_are_symmetric_witness :
  quote_buy (mirror demo_pool) (opposite No) 777 30 =
    map_ok mirror_buy (quote_buy demo_pool No 777 30) /\
  quote_sell (mirror demo_pool) (opposite No) 777 30 =
    map_ok mirror_sell (quote_sell demo_pool No 777 30).
Proof. apply (sides_are_symmetric demo_pool No 777 30 demo_pool_wf); ty. Defined.
