(* ===== verification/Ledger.v ===== *)
(** * Ledger: double entry of [crates/domain/src/ledger.rs]

    Transactions and the balance map.  [Balances::apply] iterates two hash
    maps; the iteration order is a [HashMapOrder] the definitions take, so the
    theorems hold for every order.  The theorems are the ledger invariant (no
    overdrawn internal account, one External and one of each money singleton
    per currency, zero sum per currency), its preservation by every operation,
    the exact acceptance condition and effect of [apply], and conservation. *)

From S2P Require Import Prelude.

(** [AccountId] wraps a [Uuid], a 128-bit number. *)
Notation AccountId := N (only parsing).

Inductive OwnerType :=
| User | PoolOwner | Fees | House | Escrow | External | Withheld | DepositSuspense | BonusReserve.

#[export] Instance OwnerType_eq_dec : EqDecision OwnerType.
Proof. solve_decision. Defined.

Inductive Currency := Usdc | UsdcCredit.

#[export] Instance Currency_eq_dec : EqDecision Currency.
Proof. solve_decision. Defined.

#[export] Instance Currency_countable : Countable Currency.
Proof.
  refine {| encode c := match c with Usdc => 1%positive | UsdcCredit => 2%positive end;
            decode p := match p with 1%positive => Some Usdc | _ => Some UsdcCredit end |}.
  by intros [].
Defined.

Record Entry := { e_account : AccountId; e_amount : Z }.

Inductive TxnKind :=
| Deposit | Trade | Payout | Withdrawal | Seed | Reversal | CreditGrant | CreditConvert.

#[export] Instance TxnKind_eq_dec : EqDecision TxnKind.
Proof. solve_decision. Defined.

Inductive LedgerError :=
| Unbalanced (sum_micro : Z)
| UnbalancedCurrency (currency : Currency) (sum_micro : Z)
| TooFewEntries
| ZeroEntry
| InsufficientFunds (account : AccountId)
| UnknownAccount
| DuplicateExternal (currency : Currency)
| DuplicateSingleton (owner : OwnerType) (currency : Currency)
| LedgerOverflow.

Record Transaction := { t_kind : TxnKind; t_entries : list Entry }.

(** [Transaction::new]; the sum is an unchecked [i128] sum. *)
Definition transaction_new (kind : TxnKind) (entries : list Entry) :
    outcome LedgerError Transaction :=
  if zlen entries <? 2 then Err TooFewEntries else
  if existsb (fun e => e_amount e =? 0) entries then Err ZeroEntry else
  sum ← foldM (fun s e => arith I128 (s + e_amount e)) 0 entries;
  if negb (sum =? 0) then Err (Unbalanced sum) else
  Ok {| t_kind := kind; t_entries := entries |}.

(** One slot of the balance map: owner, currency and balance. *)
Record Slot := { s_owner : OwnerType; s_currency : Currency; s_balance : Z }.

Record Balances := { accounts : gmap AccountId Slot }.

Definition balances_default : Balances := {| accounts := ∅ |}.

Definition is_money_singleton (owner : OwnerType) : bool :=
  match owner with Withheld | DepositSuspense | BonusReserve => true | _ => false end.

(** [self.accounts.values().any(...)]. *)
Definition any_account (b : Balances) (f : Slot -> bool) : bool :=
  existsb (fun kv => f kv.2) (map_to_list (accounts b)).

Definition has_owner (b : Balances) (owner : OwnerType) (currency : Currency) : bool :=
  any_account b (fun s => bool_decide (s_owner s = owner) && bool_decide (s_currency s = currency)).

(** [Balances::open]. *)
Definition open_account (b : Balances) (account : AccountId) (owner : OwnerType)
    (currency : Currency) : Balances * outcome LedgerError unit :=
  match accounts b !! account with
  | Some _ => (b, Ok tt)
  | None =>
      if bool_decide (owner = External) && has_owner b External currency
      then (b, Err (DuplicateExternal currency)) else
      if is_money_singleton owner && has_owner b owner currency
      then (b, Err (DuplicateSingleton owner currency)) else
      ({| accounts := <[account := {| s_owner := owner; s_currency := currency; s_balance := 0 |}]>
                        (accounts b) |}, Ok tt)
  end.

Section Apply.
Context `{HashMapOrder}.

(** Step (1) of [apply]: aggregate the entry amounts per account. *)
Definition aggregate (entries : list Entry) : outcome LedgerError (gmap AccountId Z) :=
  foldM (fun deltas e =>
           d ← ok_or (checked I128 (default 0 (deltas !! e_account e) + e_amount e))
                 LedgerOverflow;
           Ok (<[e_account e := d]> deltas)) ∅ entries.

(** Step (2): the sum of the deltas within every currency touched. *)
Definition currency_sums (b : Balances) (deltas : gmap AccountId Z) :
    outcome LedgerError (gmap Currency Z) :=
  foldM (fun (per : gmap Currency Z) (ad : AccountId * Z) =>
           slot ← ok_or (accounts b !! ad.1) UnknownAccount;
           s ← ok_or (checked I128 (default 0 (per !! s_currency slot) + ad.2)) LedgerOverflow;
           Ok (<[s_currency slot := s]> per)) ∅ (iter_map deltas).

Definition check_currencies (per : gmap Currency Z) : outcome LedgerError unit :=
  foldM (fun (_ : unit) (cs : Currency * Z) =>
           if negb (cs.2 =? 0) then Err (UnbalancedCurrency cs.1 cs.2) else Ok tt)
        tt (iter_map per).

(** Step (3): every post-balance, in checked arithmetic. *)
Definition post_balances (b : Balances) (deltas : gmap AccountId Z) :
    outcome LedgerError (list (AccountId * Z)) :=
  foldM (fun posts (ad : AccountId * Z) =>
           slot ← ok_or (accounts b !! ad.1) UnknownAccount;
           wide ← ok_or (checked I128 (s_balance slot + ad.2)) LedgerOverflow;
           post ← ok_or (checked I64 wide) LedgerOverflow;
           if (post <? 0) && negb (bool_decide (s_owner slot = External))
           then Err (InsufficientFunds ad.1)
           else Ok (posts ++ [(ad.1, post)])) [] (iter_map deltas).

(** Step (4): write. *)
Definition set_balance (post : Z) (s : Slot) : Slot :=
  {| s_owner := s_owner s; s_currency := s_currency s; s_balance := post |}.

Definition write_posts (m : gmap AccountId Slot) (posts : list (AccountId * Z)) :
    gmap AccountId Slot :=
  fold_left (fun m ap => alter (set_balance ap.2) ap.1 m) posts m.

(** [Balances::apply]: the balances after the call and what it returned. *)
Definition apply (b : Balances) (txn : Transaction) : Balances * outcome LedgerError unit :=
  match
    deltas ← aggregate (t_entries txn);
    per ← currency_sums b deltas;
    _ ← check_currencies per;
    post_balances b deltas
  with
  | Ok posts => ({| accounts := write_posts (accounts b) posts |}, Ok tt)
  | Err e => (b, Err e)
  | Panic => (b, Panic)
  end.

(** [Balances::internal_total]: an [i128] sum over the internal accounts. *)
Definition internal_total (b : Balances) (currency : Currency) : outcome LedgerError Z :=
  sum ← foldM (fun s (kv : AccountId * Slot) =>
                 if bool_decide (s_currency kv.2 = currency) &&
                    negb (bool_decide (s_owner kv.2 = External))
                 then arith I128 (s + s_balance kv.2) else Ok s) 0 (iter_map (accounts b));
  Ok (if fits I64 sum then sum else imax I64).
End Apply.

(** [Balances::balance]. *)
Definition balance (b : Balances) (account : AccountId) : option Z :=
  s_balance <$> accounts b !! account.

(** ** Specification *)

(** A transaction [Transaction::new] can return. *)
Definition txn_wf (t : Transaction) : Prop :=
  2 <= zlen (t_entries t) <= 9223372036854775808 /\
  Forall (fun e => in_ty I64 (e_amount e) /\ e_amount e <> 0) (t_entries t) /\
  zsum (map e_amount (t_entries t)) = 0.

(** What the entries of a transaction move on one account. *)
Definition moved (entries : list Entry) (a : AccountId) : Z :=
  zsum (map (fun e => if bool_decide (e_account e = a) then e_amount e else 0) entries).

(** The aggregated delta of an account a transaction touches. *)
Definition delta_at (entries : list Entry) (a : AccountId) : option Z :=
  if bool_decide (a ∈ e_account <$> entries) then Some (moved entries a) else None.

(** The total movement of some entries, signs disregarded. *)
Definition gross (l : list Entry) : Z := zsum (map (fun e => Z.abs (e_amount e)) l).

(** What they move within one currency. *)
Definition moved_in (b : Balances) (entries : list Entry) (c : Currency) : Z :=
  zsum (map (fun e => match accounts b !! e_account e with
                      | Some s => if bool_decide (s_currency s = c) then e_amount e else 0
                      | None => 0
                      end) entries).

(** The acceptance condition of [apply], independent of any order. *)
Definition accepts (b : Balances) (t : Transaction) : Prop :=
  (forall e, e ∈ t_entries t -> is_Some (accounts b !! e_account e)) /\
  (forall c, moved_in b (t_entries t) c = 0) /\
  (forall e s, e ∈ t_entries t -> accounts b !! e_account e = Some s ->
     let post := s_balance s + moved (t_entries t) (e_account e) in
     in_ty I64 post /\ (post < 0 -> s_owner s = External)).

(** The weight of an account in a currency. *)
Definition in_currency (b : Balances) (c : Currency) (a : AccountId) : Z :=
  match accounts b !! a with
  | Some s => if bool_decide (s_currency s = c) then 1 else 0
  | None => 0
  end.

(** The sum of some deltas within a currency. *)
Definition deltas_in (b : Balances) (c : Currency) (l : list (AccountId * Z)) : Z :=
  zsum (map (fun ad => in_currency b c ad.1 * ad.2) l).

(** An account's new balance paired with its key. *)
Definition post_of (b : Balances) (ad : AccountId * Z) : AccountId * Z :=
  (ad.1, from_option (fun s => s_balance s + ad.2) ad.2 (accounts b !! ad.1)).

(** A delta step (3) admits. *)
Definition post_ok (b : Balances) (ad : AccountId * Z) : Prop :=
  exists s, accounts b !! ad.1 = Some s /\ in_ty I64 (s_balance s + ad.2) /\
    (s_balance s + ad.2 < 0 -> s_owner s = External).

(** The balances an accepted transaction leaves. *)
Definition applied (b : Balances) (t : Transaction) : gmap AccountId Slot :=
  map_imap (fun a s => Some (set_balance (s_balance s + moved (t_entries t) a) s)) (accounts b).

(** The balance of a slot counted towards a currency. *)
Definition slot_in (c : Currency) (s : Slot) : Z :=
  if bool_decide (s_currency s = c) then s_balance s else 0.

(** The sum over all accounts of a currency, External included. *)
Definition currency_total (b : Balances) (c : Currency) : Z :=
  msum (fun _ s => slot_in c s) (accounts b).

(** The internal accounts of a currency, and its External account. *)
Definition internal_sum (b : Balances) (c : Currency) : Z :=
  msum (fun _ s => if bool_decide (s_owner s = External) then 0 else slot_in c s) (accounts b).

Definition external_sum (b : Balances) (c : Currency) : Z :=
  msum (fun _ s => if bool_decide (s_owner s = External) then slot_in c s else 0) (accounts b).

(** Owners of which a currency has at most one account. *)
Definition unique_owner (o : OwnerType) : bool := bool_decide (o = External) || is_money_singleton o.

(** The ledger invariant. *)
Record ledger_wf (b : Balances) : Prop := {
  lw_range : forall a s, accounts b !! a = Some s -> in_ty I64 (s_balance s);
  lw_solvent : forall a s, accounts b !! a = Some s -> s_owner s <> External -> 0 <= s_balance s;
  lw_unique : forall a a' s s', accounts b !! a = Some s -> accounts b !! a' = Some s' ->
    unique_owner (s_owner s) = true -> s_owner s = s_owner s' ->
    s_currency s = s_currency s' -> a = a';
  lw_zero_sum : forall c, currency_total b c = 0 }.

(** The transition system of the ledger. *)
Inductive ledger_step `{HashMapOrder} : Balances -> Balances -> Prop :=
| step_open b a o c : ledger_step b (open_account b a o c).1
| step_apply b t : txn_wf t -> ledger_step b (apply b t).1.

(** ** What the entries move *)

Lemma moved_app l k a : moved (l ++ k) a = moved l a + moved k a.
Proof. unfold moved. by rewrite map_app, zsum_app. Qed.

Lemma moved_cons e l a :
  moved (e :: l) a = (if bool_decide (e_account e = a) then e_amount e else 0) + moved l a.
Proof. reflexivity. Qed.

Lemma moved_out l a : (forall e, e ∈ l -> e_account e <> a) -> moved l a = 0.
Proof.
  induction l as [|e l IH]; intros Hl; [done|]. rewrite moved_cons, IH.
  - rewrite bool_decide_false by (apply Hl; left). done.
  - intros e' He. apply Hl. by right.
Qed.

Lemma gross_bound l :
  Forall (fun e => in_ty I64 (e_amount e) /\ e_amount e <> 0) l ->
  0 <= gross l <= 9223372036854775808 * zlen l.
Proof.
  induction 1 as [|e l [He _] Hl IH]; [done|]. rewrite zlen_cons.
  change (gross (e :: l)) with (Z.abs (e_amount e) + gross l). ty.
Qed.

Lemma gross_app l k : gross (l ++ k) = gross l + gross k.
Proof. unfold gross. by rewrite map_app, zsum_app. Qed.

Lemma gross_nonneg l : 0 <= gross l.
Proof. apply zsum_nonneg, Forall_map, Forall_forall. intros. cbn. lia. Qed.

Lemma moved_abs l a : Z.abs (moved l a) <= gross l.
Proof.
  induction l as [|e l IH]; [done|]. rewrite moved_cons.
  change (gross (e :: l)) with (Z.abs (e_amount e) + gross l). case_bool_decide; lia.
Qed.

(** The deltas of distinct accounts together are bounded by the entries. *)
Lemma moved_abs_sum l ks : NoDup ks -> zsum (map (fun a => Z.abs (moved l a)) ks) <= gross l.
Proof.
  intros Hnd. induction l as [|e l IH].
  - enough (zsum (map (fun a => Z.abs (moved [] a)) ks) = 0) by (cbn in *; lia).
    clear. induction ks; cbn in *; lia.
  - change (gross (e :: l)) with (Z.abs (e_amount e) + gross l).
    pose proof (zsum_indicator_le (Z.abs (e_amount e)) (e_account e) ks Hnd ltac:(lia)).
    pose proof (zsum_map_le (fun a => Z.abs (moved (e :: l) a))
      (fun a => (if bool_decide (e_account e = a) then Z.abs (e_amount e) else 0)
                + Z.abs (moved l a)) ks) as Hle.
    rewrite zsum_map_add in Hle.
    assert (forall x, x ∈ ks -> Z.abs (moved (e :: l) x) <=
      (if bool_decide (e_account e = x) then Z.abs (e_amount e) else 0) + Z.abs (moved l x)).
    { intros x _. rewrite moved_cons. case_bool_decide; lia. }
    specialize (Hle H0). lia.
Qed.

(** Summing per account and summing per entry agree, for any weight of the
    accounts. *)
Lemma double_count (w : AccountId -> Z) l ks :
  NoDup ks -> (forall e, e ∈ l -> e_account e ∈ ks \/ w (e_account e) = 0) ->
  zsum (map (fun a => w a * moved l a) ks) = zsum (map (fun e => w (e_account e) * e_amount e) l).
Proof.
  intros Hnd. induction l as [|e l IH]; intros Hin.
  - cbn. clear. induction ks as [|k ks IH]; cbn; [done|]. rewrite IH. lia.
  - rewrite (map_ext (fun a => w a * moved (e :: l) a)
      (fun a => (if bool_decide (e_account e = a) then w a * e_amount e else 0)
                + w a * moved l a)).
    2:{ intros a. rewrite moved_cons. case_bool_decide; lia. }
    rewrite zsum_map_add, IH by (intros e' He; apply Hin; by right). cbn [map zsum].
    f_equal. destruct (Hin e ltac:(left)) as [Hk|Hz].
    + by rewrite (zsum_indicator (fun a => w a * e_amount e)).
    + rewrite Hz, Z.mul_0_l. clear IH Hin. induction ks as [|k ks IH]; cbn; [done|].
      apply NoDup_cons in Hnd as [_ Hnd]. rewrite IH by done.
      case_bool_decide; [subst k; rewrite Hz|]; lia.
Qed.

(** ** Step (1) *)

Section ApplySteps.
Context `{HashMapOrder}.

Lemma aggregate_ok entries :
  Forall (fun e => in_ty I64 (e_amount e) /\ e_amount e <> 0) entries ->
  zlen entries <= 9223372036854775808 ->
  exists deltas, aggregate entries = Ok deltas /\ forall a, deltas !! a = delta_at entries a.
Proof.
  intros Hall Hlen. unfold aggregate.
  apply (foldM_total _ (fun done deltas => forall a, deltas !! a = delta_at done a)); [done|].
  intros done e rest deltas -> Hi.
  assert (Hd : default 0 (deltas !! e_account e) = moved done (e_account e)).
  { rewrite Hi. unfold delta_at. case_bool_decide as E; [done|]. cbn. symmetry. apply moved_out.
    intros e' He Heq. apply E. rewrite <- Heq. by apply list_elem_of_fmap_2. }
  rewrite Hd. pose proof (moved_abs done (e_account e)).
  assert (gross done <= 9223372036854775808 * zlen done).
  { apply gross_bound. by apply Forall_app in Hall as [? _]. }
  apply Forall_app in Hall as [_ Hall]. apply Forall_cons in Hall as [[He _] _].
  autorewrite with opinions in Hlen. pose proof (zlen_nonneg done). pose proof (zlen_nonneg rest).
  rewrite checked_in by ty. cbn. eexists. split; [done|]. intros a.
  unfold delta_at. rewrite lookup_insert, fmap_app, moved_app, moved_cons.
  case_decide as E.
  - subst a. rewrite bool_decide_true by set_solver. rewrite bool_decide_true by done.
    cbn. f_equal. lia.
  - rewrite Hi, (bool_decide_false (e_account e = a)) by done. unfold delta_at.
    rewrite (bool_decide_ext (a ∈ (e_account <$> done) ++ (e_account <$> [e]))
               (a ∈ e_account <$> done)) by set_solver.
    case_bool_decide; [|done]. f_equal. cbn. lia.
Qed.
(** ** Step (2) *)

Lemma currency_sums_known b deltas per :
  currency_sums b deltas = Ok per ->
  forall ad, ad ∈ iter_map deltas -> is_Some (accounts b !! ad.1).
Proof.
  unfold currency_sums. intros Hok.
  apply (foldM_ind _ (fun done _ => forall ad, ad ∈ done -> is_Some (accounts b !! ad.1))
           _ _ _ Hok).
  - intros ad Had. by apply elem_of_nil in Had.
  - intros done x rest acc acc' _ Hi Hx ad. rewrite elem_of_app, list_elem_of_singleton.
    intros [Had | ->]; [auto|]. inv_run Hx. eauto.
Qed.

Lemma deltas_in_bound b c entries l :
  NoDup l.*1 -> (forall ad, ad ∈ l -> ad.2 = moved entries ad.1) ->
  Z.abs (deltas_in b c l) <= gross entries.
Proof.
  intros Hnd Hl. pose proof (moved_abs_sum entries l.*1 Hnd) as Hb.
  pose proof (zsum_abs_le (map (fun ad => in_currency b c ad.1 * ad.2) l)) as Ha.
  unfold deltas_in. rewrite map_map in Ha.
  enough (zsum (map (fun ad => Z.abs (in_currency b c ad.1 * ad.2)) l) <=
          zsum (map (fun a => Z.abs (moved entries a)) l.*1)) by lia.
  change (l.*1) with (map fst l). rewrite map_map. apply zsum_map_le.
  intros ad Had. rewrite <- (Hl ad Had). unfold in_currency.
  destruct (accounts b !! ad.1); [case_bool_decide|]; lia.
Qed.

Lemma currency_sums_ok b entries deltas :
  Forall (fun e => in_ty I64 (e_amount e) /\ e_amount e <> 0) entries ->
  zlen entries <= 9223372036854775808 ->
  (forall a d, deltas !! a = Some d -> d = moved entries a) ->
  (forall ad, ad ∈ iter_map deltas -> is_Some (accounts b !! ad.1)) ->
  exists per, currency_sums b deltas = Ok per /\
    forall c, default 0 (per !! c) = deltas_in b c (iter_map deltas) /\
              (forall s, per !! c = Some s -> s = deltas_in b c (iter_map deltas)).
Proof.
  intros Hall Hlen Hd Hk. pose proof (gross_bound entries Hall) as Hg.
  assert (Hd' : forall ad, ad ∈ iter_map deltas -> ad.2 = moved entries ad.1).
  { intros [a d] Had. apply elem_of_iter_map in Had. by apply Hd. }
  pose proof (iter_map_NoDup deltas) as Hnd. unfold currency_sums. revert Hd' Hk Hnd.
  generalize (iter_map deltas) as l. intros l Hd' Hk Hnd.
  apply (foldM_total _ (fun done per => forall c,
     default 0 (per !! c) = deltas_in b c done /\
     (forall s, per !! c = Some s -> s = deltas_in b c done))); [split; done|].
  intros done [a d] rest per -> Hi.
  destruct (Hk (a, d)) as [s Hs]; [set_solver|]. cbn [fst snd] in *. rewrite Hs. cbn.
  assert (Hstep : forall c, deltas_in b c (done ++ [(a, d)]) = deltas_in b c done +
                   (if bool_decide (s_currency s = c) then d else 0)).
  { intros c. unfold deltas_in. rewrite map_app, zsum_app. cbn. unfold in_currency at 2.
    rewrite Hs. case_bool_decide; lia. }
  assert (Hb : Z.abs (deltas_in b (s_currency s) (done ++ [(a, d)])) <= gross entries).
  { apply deltas_in_bound.
    - replace (done ++ (a, d) :: rest) with ((done ++ [(a, d)]) ++ rest) in Hnd
        by (by rewrite <- app_assoc).
      rewrite fmap_app in Hnd. by apply NoDup_app in Hnd as (? & _ & _).
    - intros ad Had. apply Hd'. set_solver. }
  rewrite (proj1 (Hi _)). rewrite (Hstep (s_currency s)), bool_decide_true in Hb by done.
  pose proof (zlen_nonneg entries). rewrite checked_in by ty. cbn.
  eexists. split; [done|]. intros c. rewrite Hstep, lookup_insert.
  case_decide as E; [subst c; rewrite bool_decide_true by done; naive_solver|].
  rewrite bool_decide_false, Z.add_0_r by done. apply Hi.
Qed.

Lemma check_currencies_ok per :
  check_currencies per = Ok tt <-> forall c s, per !! c = Some s -> s = 0.
Proof.
  unfold check_currencies. split.
  - intros Hok c s Hs. apply elem_of_iter_map in Hs. revert Hs.
    apply (foldM_ind _ (fun done _ => (c, s) ∈ done -> s = 0) _ _ _ Hok).
    + intros Hin. by apply elem_of_nil in Hin.
    + intros done x rest [] [] _ Hi Hx. rewrite elem_of_app, list_elem_of_singleton.
      intros [?|<-]; [auto|]. cbn in Hx. inv_run Hx. by bool_hyps.
  - intros Hz.
    destruct (foldM_total (E := LedgerError) (fun (_ : unit) (cs : Currency * Z) =>
             if negb (cs.2 =? 0) then Err (UnbalancedCurrency cs.1 cs.2) else Ok tt)
             (fun _ _ => True) tt (iter_map per)) as ([] & -> & _); [done| |done].
    intros done [c s] rest [] Hl _. exists tt. split; [|done]. cbn.
    rewrite (Hz c s); [done|]. apply elem_of_iter_map. rewrite Hl. set_solver.
Qed.

(** ** Step (3) *)

Lemma post_balances_inv b deltas posts :
  post_balances b deltas = Ok posts ->
  posts = map (post_of b) (iter_map deltas) /\ Forall (post_ok b) (iter_map deltas).
Proof.
  unfold post_balances. intros Hok.
  apply (foldM_ind _ (fun done posts => posts = map (post_of b) done /\ Forall (post_ok b) done)
           _ _ _ Hok); [done|].
  intros done [a d] rest acc acc' _ [-> Hi] Hx. cbn [fst snd] in Hx.
  inv_run Hx. injection Hx as <-. rewrite map_app. split.
  - cbn. unfold post_of. cbn. by rewrite Hr.
  - apply Forall_app. split; [done|]. constructor; [|done]. eexists. cbn.
    split_and!; [done..|]. intros Hneg.
    apply andb_false_iff in Hc as [Hc|Hc]; bool_hyps; [lia|]. by apply bool_decide_eq_true in Hc.
Qed.

Lemma post_balances_ok b deltas :
  (forall a s, accounts b !! a = Some s -> in_ty I64 (s_balance s)) ->
  Forall (post_ok b) (iter_map deltas) ->
  post_balances b deltas = Ok (map (post_of b) (iter_map deltas)).
Proof.
  intros Hr Hall. unfold post_balances.
  edestruct (foldM_total (E := LedgerError) (fun posts (ad : AccountId * Z) =>
             slot ← ok_or (accounts b !! ad.1) UnknownAccount;
             wide ← ok_or (checked I128 (s_balance slot + ad.2)) LedgerOverflow;
             post ← ok_or (checked I64 wide) LedgerOverflow;
             if (post <? 0) && negb (bool_decide (s_owner slot = External))
             then Err (InsufficientFunds ad.1)
             else Ok (posts ++ [(ad.1, post)]))
           (fun done posts => posts = map (post_of b) done) [] (iter_map deltas))
    as (posts & Hp & Heq); [done| |by rewrite Hp, Heq].
  intros done [a d] rest acc Hl ->. rewrite Hl in Hall.
  apply Forall_app in Hall as [_ Hall]. apply Forall_cons in Hall as [(s & Hs & Ht & Hneg) _].
  cbn [fst snd] in *. eexists. rewrite Hs. cbn [ok_or mbind outcome_bind].
  pose proof (Hr a s Hs). rewrite checked_in by ty. cbn [ok_or mbind outcome_bind].
  rewrite checked_in by ty. cbn [ok_or mbind outcome_bind]. split.
  - destruct (Z.ltb_spec (s_balance s + d) 0) as [Hlt|]; [|done].
    rewrite bool_decide_true by auto. done.
  - rewrite map_app. cbn. unfold post_of. cbn. by rewrite Hs.
Qed.

(** ** Step (4) *)

Lemma write_posts_cons m k p posts :
  write_posts m ((k, p) :: posts) = write_posts (alter (set_balance p) k m) posts.
Proof. reflexivity. Qed.

Lemma write_posts_out m posts a : a ∉ posts.*1 -> write_posts m posts !! a = m !! a.
Proof.
  revert m. induction posts as [|[k p] posts IH]; intros m Hout; [done|].
  apply not_elem_of_cons in Hout as [Hne Hout]. rewrite write_posts_cons, IH by done. by rewrite lookup_alter_ne.
Qed.

Lemma write_posts_in m posts a p :
  NoDup posts.*1 -> (a, p) ∈ posts -> write_posts m posts !! a = set_balance p <$> m !! a.
Proof.
  revert m. induction posts as [|[k q] posts IH]; intros m Hnd Hin; [by apply elem_of_nil in Hin|].
  apply NoDup_cons in Hnd as [Hk Hnd]. rewrite write_posts_cons.
  apply elem_of_cons in Hin as [Heq|Hin].
  - injection Heq as <- <-. rewrite write_posts_out by done. by rewrite lookup_alter_eq.
  - rewrite IH by done. rewrite lookup_alter_ne; [done|]. intros ->. apply Hk.
    apply list_elem_of_fmap. by exists (a, p).
Qed.
End ApplySteps.

(** ** The exact behaviour of [apply] *)

Lemma moved_in_weight b entries c :
  moved_in b entries c = zsum (map (fun e => in_currency b c (e_account e) * e_amount e) entries).
Proof.
  unfold moved_in. f_equal. apply map_ext. intros e. unfold in_currency.
  destruct (accounts b !! e_account e); [case_bool_decide|]; lia.
Qed.

Lemma set_balance_id s : set_balance (s_balance s) s = s.
Proof. by destruct s. Qed.

Lemma set_balance_same p s : s_balance s = p -> set_balance p s = s.
Proof. intros <-. apply set_balance_id. Qed.

Section ApplyExact.
Context `{HashMapOrder}.
Context (b : Balances) (t : Transaction).
Hypothesis Hrange : forall a s, accounts b !! a = Some s -> in_ty I64 (s_balance s).
Hypothesis Hentries : Forall (fun e => in_ty I64 (e_amount e) /\ e_amount e <> 0) (t_entries t).
Hypothesis Hlen : zlen (t_entries t) <= 9223372036854775808.

Let entries := t_entries t.

Lemma deltas_elem deltas :
  (forall a, deltas !! a = delta_at entries a) ->
  forall a d, (a, d) ∈ iter_map deltas <-> a ∈ e_account <$> entries /\ d = moved entries a.
Proof.
  intros Hd a d. rewrite elem_of_iter_map, Hd. unfold delta_at.
  case_bool_decide; naive_solver.
Qed.

Lemma deltas_in_moved_in deltas c :
  (forall a, deltas !! a = delta_at entries a) ->
  deltas_in b c (iter_map deltas) = moved_in b entries c.
Proof.
  intros Hd. pose proof (deltas_elem deltas Hd) as He.
  rewrite moved_in_weight, <- (double_count (in_currency b c) entries (iter_map deltas).*1).
  - unfold deltas_in. change ((iter_map deltas).*1) with (map fst (iter_map deltas)).
    rewrite map_map. f_equal. apply map_ext_in. intros [a d] Hin.
    apply list_elem_of_In, He in Hin as [_ ->]. done.
  - apply iter_map_NoDup.
  - intros e Hin. left. apply list_elem_of_fmap. exists (e_account e, moved entries (e_account e)).
    split; [done|]. apply He. split; [|done]. by apply list_elem_of_fmap_2.
Qed.

Lemma write_posts_applied deltas :
  (forall a, deltas !! a = delta_at entries a) ->
  write_posts (accounts b) (map (post_of b) (iter_map deltas)) = applied b t.
Proof.
  intros Hd. pose proof (deltas_elem deltas Hd) as He.
  assert (Hkeys : (map (post_of b) (iter_map deltas)).*1 = (iter_map deltas).*1).
  { change (map fst (map (post_of b) (iter_map deltas)) = map fst (iter_map deltas)).
    rewrite map_map. by apply map_ext. }
  apply map_eq. intros a. unfold applied. rewrite map_lookup_imap.
  destruct (decide (a ∈ e_account <$> entries)) as [Hin|Hout].
  - rewrite (write_posts_in _ _ a (post_of b (a, moved entries a)).2).
    + unfold post_of. cbn. by destruct (accounts b !! a).
    + rewrite Hkeys. apply iter_map_NoDup.
    + apply list_elem_of_In, in_map_iff. exists (a, moved entries a).
      split; [done|]. by apply list_elem_of_In, He.
  - rewrite write_posts_out.
    + destruct (accounts b !! a) as [s|]; [|done]. cbn. f_equal. symmetry.
      apply set_balance_same. unfold entries in *. rewrite moved_out; [lia|].
      intros e Hin Heq. apply Hout. rewrite <- Heq. by apply list_elem_of_fmap_2.
    + rewrite Hkeys. intros Hin. apply list_elem_of_fmap in Hin as ([a' d] & -> & Hin).
      apply He in Hin as [Hin _]. auto.
Qed.

Lemma apply_accepted : accepts b t -> apply b t = ({| accounts := applied b t |}, Ok tt).
Proof.
  intros (Hk & Hz & Hp). unfold apply.
  destruct (aggregate_ok (t_entries t) Hentries Hlen) as (deltas & -> & Hd).
  pose proof (deltas_elem deltas Hd) as He.
  assert (Hknown : forall ad, ad ∈ iter_map deltas -> is_Some (accounts b !! ad.1)).
  { intros [a d] Hin. apply He in Hin as [Hin _].
    apply list_elem_of_fmap in Hin as (e & -> & Hin). by apply Hk. }
  destruct (currency_sums_ok b (t_entries t) deltas) as (per & Hper & Hsum); [done..| |done|].
  { intros a d Hs. rewrite Hd in Hs. unfold delta_at in Hs. case_bool_decide; congruence. }
  cbn [mbind outcome_bind]. rewrite Hper. cbn [mbind outcome_bind].
  rewrite (proj2 (check_currencies_ok per)).
  2:{ intros c s Hs. rewrite (proj2 (Hsum c) s Hs), deltas_in_moved_in by done. apply Hz. }
  cbn [mbind outcome_bind]. rewrite post_balances_ok; [by rewrite write_posts_applied|done|].
  apply Forall_forall. intros [a d] Hin. apply He in Hin as [Hin ->].
  apply list_elem_of_fmap in Hin as (e & -> & Hin). destruct (Hk e Hin) as [s Hs].
  destruct (Hp e s Hin Hs). exists s. cbn. auto.
Qed.

Lemma apply_Ok_accepts : (apply b t).2 = Ok tt -> accepts b t.
Proof.
  unfold apply. destruct (aggregate_ok (t_entries t) Hentries Hlen) as (deltas & -> & Hd).
  pose proof (deltas_elem deltas Hd) as He.
  cbn [mbind outcome_bind]. destruct (currency_sums b deltas) as [per|e|] eqn:Hper; [|done..].
  pose proof (currency_sums_known b deltas per Hper) as Hknown.
  destruct (currency_sums_ok b (t_entries t) deltas) as (per' & Hper' & Hsum); [done..| |done|].
  { intros a d Hs. rewrite Hd in Hs. unfold delta_at in Hs. case_bool_decide; congruence. }
  rewrite Hper in Hper'. injection Hper' as <-.
  cbn [mbind outcome_bind]. destruct (check_currencies per) as [[]|e|] eqn:Hc; [|done..].
  pose proof (proj1 (check_currencies_ok per) Hc) as Hzero.
  cbn [mbind outcome_bind]. destruct (post_balances b deltas) as [posts|e|] eqn:Hpost; [|done..].
  intros _. destruct (post_balances_inv b deltas posts Hpost) as [_ Hok].
  assert (Hin : forall e, e ∈ entries ->
            (e_account e, moved entries (e_account e)) ∈ iter_map deltas).
  { intros e Hin. apply He. split; [by apply list_elem_of_fmap_2|done]. }
  split_and!.
  - intros e Hi. exact (Hknown _ (Hin e Hi)).
  - intros c. change (moved_in b entries c = 0).
    rewrite <- (deltas_in_moved_in deltas c Hd), <- (proj1 (Hsum c)).
    destruct (per !! c) as [s|] eqn:Hs; [|done]. by apply (Hzero c).
  - intros e s Hi Hs post.
    pose proof (proj1 (Forall_forall _ _) Hok _ (Hin e Hi)) as (s' & Hs' & ? & ?).
    cbn in *. assert (s' = s) as -> by congruence. auto.
Qed.

Lemma apply_no_panic : (apply b t).2 <> Panic.
Proof.
  unfold apply.
  assert (Hf : forall {A B} (f : B -> A -> outcome LedgerError B) acc l,
            (forall acc x, f acc x <> Panic) -> foldM f acc l <> Panic).
  { intros A B f acc l Hf. revert acc. induction l as [|x l IH]; intros acc; cbn; [done|].
    specialize (Hf acc x). destruct (f acc x); cbn; done. }
  assert (Hs : (deltas ← aggregate (t_entries t); per ← currency_sums b deltas;
                _ ← check_currencies per; post_balances b deltas) <> Panic).
  { intros Hp. apply bind_Panic in Hp as [Hp|(d & _ & Hp)].
    { revert Hp. apply Hf. intros ??. by destruct (checked _ _). }
    apply bind_Panic in Hp as [Hp|(per & _ & Hp)].
    { revert Hp. apply Hf. intros ? [k z]. cbn. destruct (accounts b !! k); [|done]. cbn.
      by destruct (checked _ _). }
    apply bind_Panic in Hp as [Hp|(? & _ & Hp)].
    { revert Hp. apply Hf. intros ??. by case_if. }
    revert Hp. apply Hf. intros ? [k z]. cbn. destruct (accounts b !! k); [|done]. cbn.
    destruct (checked I128 _); [|done]. cbn. destruct (checked I64 _); [|done]. cbn.
    by case_if. }
  case_match; done.
Qed.
End ApplyExact.

(** ** The invariant is preserved *)

Lemma any_account_false b f :
  any_account b f = false -> forall a s, accounts b !! a = Some s -> f s = false.
Proof.
  intros Hf a s Hs. destruct (f s) eqn:E; [|done]. exfalso.
  assert (any_account b f = true); [|congruence].
  apply existsb_exists. exists (a, s). split; [|done].
  by apply list_elem_of_In, elem_of_map_to_list.
Qed.

Lemma has_owner_false b o c :
  has_owner b o c = false ->
  forall a s, accounts b !! a = Some s -> s_owner s = o -> s_currency s = c -> False.
Proof.
  intros Hf a s Hs Ho Hc. pose proof (any_account_false _ _ Hf a s Hs) as E. cbn in E.
  by rewrite !bool_decide_true in E by done.
Qed.

Lemma default_wf : ledger_wf balances_default.
Proof.
  split; cbn; [intros a s; by rewrite lookup_empty..|].
  intros c. unfold currency_total. apply msum_empty.
Qed.

Lemma open_account_wf b a o c : ledger_wf b -> ledger_wf (open_account b a o c).1.
Proof.
  intros Hwf. unfold open_account. destruct (accounts b !! a) eqn:Ha; [done|].
  destruct (bool_decide (o = External) && has_owner b External c) eqn:E1; [done|].
  destruct (is_money_singleton o && has_owner b o c) eqn:E2; [done|].
  assert (Hfresh : unique_owner o = true -> has_owner b o c = false).
  { unfold unique_owner. intros [Ho|Ho]%orb_true_iff.
    - apply bool_decide_eq_true in Ho as ->. by rewrite bool_decide_true in E1 by done.
    - by rewrite Ho in E2. }
  destruct Hwf as [Hr Hs Hu Hz]. split; cbn.
  - intros a' s. rewrite lookup_insert. destruct (decide (a = a')); [|by apply Hr].
    intros [= <-]. cbn. ty.
  - intros a' s. rewrite lookup_insert. destruct (decide (a = a')); [|by apply Hs].
    intros [= <-]. cbn. lia.
  - intros a1 a2 s1 s2. rewrite !lookup_insert.
    destruct (decide (a = a1)), (decide (a = a2)).
    + congruence.
    + intros [= <-] H2 Ho1 Ho2 Hc2. cbn in *. exfalso.
      exact (has_owner_false b o c (Hfresh Ho1) a2 s2 H2 (eq_sym Ho2) (eq_sym Hc2)).
    + intros H1 [= <-] Ho1 Ho2 Hc1. cbn in *. exfalso. rewrite Ho2 in Ho1.
      exact (has_owner_false b o c (Hfresh Ho1) a1 s1 H1 Ho2 Hc1).
    + apply Hu.
  - intros c'. unfold currency_total. cbn. rewrite msum_insert_new by done.
    fold (currency_total b c'). rewrite Hz. unfold slot_in. cbn. by destruct (bool_decide (c = c')). 
Qed.

Lemma applied_lookup b t a s' :
  applied b t !! a = Some s' <->
  exists s, accounts b !! a = Some s /\
    s' = set_balance (s_balance s + moved (t_entries t) a) s.
Proof.
  unfold applied. rewrite map_lookup_imap.
  destruct (accounts b !! a); cbn; naive_solver.
Qed.

Lemma currency_total_applied b t c :
  currency_total {| accounts := applied b t |} c =
  currency_total b c + moved_in b (t_entries t) c.
Proof.
  unfold currency_total, applied. cbn. rewrite msum_imap.
  rewrite (msum_ext _ (fun a s => slot_in c s + in_currency b c a * moved (t_entries t) a)).
  2:{ intros a s Hs. unfold slot_in, in_currency. rewrite Hs. cbn. case_bool_decide; lia. }
  rewrite msum_add. f_equal. rewrite moved_in_weight.
  rewrite <- (double_count (in_currency b c) (t_entries t) (map_to_list (accounts b)).*1).
  - unfold msum. change ((map_to_list (accounts b)).*1) with (map fst (map_to_list (accounts b))).
    by rewrite map_map.
  - apply NoDup_fst_map_to_list.
  - intros e _. unfold in_currency. destruct (accounts b !! e_account e) as [s|] eqn:Hs; [|by right].
    left. apply list_elem_of_fmap. exists (e_account e, s). split; [done|].
    by apply elem_of_map_to_list.
Qed.

Lemma accepted_post b t a s :
  ledger_wf b -> accepts b t -> accounts b !! a = Some s ->
  in_ty I64 (s_balance s + moved (t_entries t) a) /\
  (s_owner s <> External -> 0 <= s_balance s + moved (t_entries t) a).
Proof.
  intros Hwf (_ & _ & Hp) Hs.
  destruct (decide (a ∈ e_account <$> t_entries t)) as [Hin|Hout].
  - apply list_elem_of_fmap in Hin as (e & -> & Hin). destruct (Hp e s Hin Hs) as [H1 H2].
    split; [done|]. intros Ho. destruct (Z.le_gt_cases 0 (s_balance s + moved (t_entries t) (e_account e)));
      [done|]. exfalso. apply Ho, H2. lia.
  - rewrite moved_out.
    + rewrite Z.add_0_r. split; [by eapply lw_range|]. intros. by eapply lw_solvent.
    + intros e Hin Heq. apply Hout. rewrite <- Heq. by apply list_elem_of_fmap_2.
Qed.

Lemma applied_wf b t : ledger_wf b -> accepts b t -> ledger_wf {| accounts := applied b t |}.
Proof.
  intros Hwf Hacc. split; cbn.
  - intros a s' (s & Hs & ->)%applied_lookup. cbn. by eapply accepted_post.
  - intros a s' (s & Hs & ->)%applied_lookup. cbn. by eapply accepted_post.
  - intros a a' s1 s2 (s & Hs & ->)%applied_lookup (s' & Hs' & ->)%applied_lookup. cbn.
    by eapply lw_unique.
  - intros c. rewrite currency_total_applied, (lw_zero_sum b Hwf). destruct Hacc as (_ & Hz & _).
    by rewrite Hz.
Qed.

Lemma apply_wf `{HashMapOrder} b t : ledger_wf b -> txn_wf t -> ledger_wf (apply b t).1.
Proof.
  intros Hwf ([_ Hlen] & Hent & _).
  destruct ((apply b t).2) as [[]|e|] eqn:E.
  - pose proof (apply_Ok_accepts b t Hent Hlen E) as Hacc.
    rewrite apply_accepted; try done; [by apply applied_wf|apply lw_range; done].
  - unfold apply in *. case_match; done.
  - unfold apply in *. case_match; done.
Qed.

Lemma total_split b c : currency_total b c = internal_sum b c + external_sum b c.
Proof.
  unfold currency_total, internal_sum, external_sum. rewrite <- msum_add.
  apply msum_ext. intros a s _. case_bool_decide; lia.
Qed.

Lemma external_sum_is b c a s :
  ledger_wf b -> accounts b !! a = Some s -> s_owner s = External -> s_currency s = c ->
  external_sum b c = s_balance s.
Proof.
  intros Hwf Ha Ho Hc. unfold external_sum. rewrite (msum_delete _ _ a s Ha).
  rewrite bool_decide_true by done. unfold slot_in at 1. rewrite bool_decide_true by done.
  rewrite (msum_ext _ (fun _ _ => 0)).
  - unfold msum. enough (zsum (map (fun _ => 0) (map_to_list (delete a (accounts b)))) = 0) by lia.
    induction (map_to_list _) as [|? l IH]; cbn in *; lia.
  - intros k v (Hne & Hk)%lookup_delete_Some. case_bool_decide as D; [|done].
    unfold slot_in. case_bool_decide as D'; [|done]. exfalso. apply Hne.
    apply (lw_unique b Hwf a k s v); [done..| | |]; [|congruence..].
    unfold unique_owner. by rewrite bool_decide_true.
Qed.

Lemma internal_sum_mirrors b c a s :
  ledger_wf b -> accounts b !! a = Some s -> s_owner s = External -> s_currency s = c ->
  internal_sum b c = - s_balance s.
Proof.
  intros Hwf Ha Ho Hc. pose proof (total_split b c) as Ht.
  rewrite (lw_zero_sum b Hwf), (external_sum_is b c a s) in Ht by done. lia.
Qed.

Lemma internal_total_ok `{HashMapOrder} b c :
  ledger_wf b -> Z.of_nat (size (accounts b)) <= 9223372036854775808 ->
  internal_total b c =
    Ok (if fits I64 (internal_sum b c) then internal_sum b c else imax I64).
Proof.
  intros Hwf Hsz. unfold internal_total.
  assert (Hlen : zlen (iter_map (accounts b)) = Z.of_nat (size (accounts b))).
  { unfold zlen. rewrite iter_map_perm, length_map_to_list. done. }
  pose proof (iter_map_sum (fun _ s => if bool_decide (s_owner s = External) then 0
                                       else slot_in c s) (accounts b)) as Hsum.
  fold (internal_sum b c) in Hsum.
  assert (Hel : forall kv, kv ∈ iter_map (accounts b) ->
            in_ty I64 (s_balance kv.2) /\ (s_owner kv.2 <> External -> 0 <= s_balance kv.2)).
  { intros [a s] Hin. apply elem_of_iter_map in Hin.
    split; [by eapply lw_range|]. intros. by eapply lw_solvent. }
  revert Hlen Hsum Hel. generalize (iter_map (accounts b)). intros l Hlen Hsum Hel.
  edestruct (foldM_total (E := LedgerError) (fun s (kv : AccountId * Slot) =>
                   if bool_decide (s_currency kv.2 = c) &&
                      negb (bool_decide (s_owner kv.2 = External))
                   then arith I128 (s + s_balance kv.2) else Ok s)
     (fun done s => s = zsum (map (fun kv : AccountId * Slot =>
          if bool_decide (s_owner kv.2 = External) then 0 else slot_in c kv.2) done) /\
          0 <= s <= 9223372036854775807 * zlen done) 0 l) as (s & -> & Hs & _).
  - done.
  - intros done [a s] rest acc -> [Hacc Hb]. cbn [snd].
    destruct (Hel (a, s)) as [Hr Hnn]; [set_solver|]. cbn in Hr, Hnn.
    autorewrite with opinions in Hlen. pose proof (zlen_nonneg done).
    pose proof (zlen_nonneg rest).
    rewrite map_app, zsum_app, zlen_app, zlen_cons, <- Hacc. cbn [map zsum snd].
    change (zlen []) with 0. unfold slot_in.
    destruct (decide (s_owner s = External)) as [Ho|Ho].
    + rewrite (bool_decide_true (s_owner s = External)) by done. cbn [negb].
      rewrite andb_false_r. eexists. split; [done|]. lia.
    + specialize (Hnn Ho). rewrite (bool_decide_false (s_owner s = External)) by done.
      cbn [negb]. rewrite andb_true_r.
      destruct (bool_decide (s_currency s = c)); eexists;
        (split; [first [reflexivity | apply arith_in; ty]|]; ty).
  - cbn. by rewrite Hs, Hsum.
Qed.

(** ** Properties *)

(** C1: every ledger reachable from the empty one by opening accounts and
    applying well-formed transactions, accepted or refused, in any hash-map
    iteration order, satisfies the ledger invariant: no internal account is
    overdrawn, balances stay in [i64], each currency has at most one External
    account and one of each money singleton, and sums to zero. *)
Theorem ledger_invariant_reachable `{HashMapOrder} (b : Balances) :
  rtc ledger_step balances_default b -> ledger_wf b.
Proof.
  intros Hr. assert (G : forall x y, rtc ledger_step x y -> ledger_wf x -> ledger_wf y).
  { intros x y. induction 1 as [|x y z Hstep _ IH]; [done|]. intros Hx. apply IH.
    destruct Hstep; [by apply open_account_wf | by apply apply_wf]. }
  eapply G; [exact Hr | apply default_wf].
Qed.

Lemma ledger_invariant_reachable_witness :
  ledger_wf (open_account balances_default 1%N External Usdc).1.
Proof.
  apply (@ledger_invariant_reachable canonical_order).
  eapply rtc_l; [apply step_open | apply rtc_refl].
Defined.

(** C5: [apply] accepts a transaction exactly when every account is open, every
    currency the entries touch balances to zero, and no post-balance leaves
    [i64] or overdraws an internal account (duplicate entries on one account
    being summed first); an accepted transaction adds to each balance exactly
    what its entries move, a refused one reports an error and writes nothing;
    the decision and the balances do not depend on the hash-map order, and the
    call never panics. *)
Theorem apply_exact `{HashMapOrder} (b : Balances) (t : Transaction) :
  ledger_wf b -> txn_wf t ->
  (accepts b t -> apply b t = ({| accounts := applied b t |}, Ok tt)) /\
  (~ accepts b t -> exists e, apply b t = (b, Err e)).
Proof.
  intros Hwf ([_ Hlen] & Hent & _). split.
  - apply apply_accepted; try done. apply lw_range. done.
  - intros Hn. destruct (apply b t) as [b' r] eqn:E.
    pose proof (apply_no_panic b t) as Hp.
    pose proof (apply_Ok_accepts b t Hent Hlen) as Ho. rewrite E in Hp, Ho. cbn in Hp, Ho.
    destruct r as [[]|e|]; [by destruct Hn; apply Ho| |done].
    exists e. unfold apply in E. case_match; naive_solver.
Qed.

Definition demo_ledger : Balances :=
  (open_account (open_account balances_default 1%N External Usdc).1 2%N User Usdc).1.

Definition demo_deposit : Transaction :=
  {| t_kind := Deposit;
     t_entries := [{| e_account := 1%N; e_amount := -10 |}; {| e_account := 2%N; e_amount := 10 |}] |}.

Lemma demo_ledger_wf : ledger_wf demo_ledger.
Proof. apply open_account_wf, open_account_wf, default_wf. Qed.

Lemma demo_deposit_wf : txn_wf demo_deposit.
Proof.
  split; [unfold zlen; cbn [length t_entries demo_deposit]; lia|]. split; [|done].
  repeat constructor; ty || done.
Qed.

Lemma apply_exact_witness :
  (accepts demo_ledger demo_deposit ->
   @apply canonical_order demo_ledger demo_deposit =
     ({| accounts := applied demo_ledger demo_deposit |}, Ok tt)) /\
  @apply canonical_order demo_ledger demo_deposit =
     ({| accounts := <[1%N := {| s_owner := External; s_currency := Usdc; s_balance := -10 |}]>
                    (<[2%N := {| s_owner := User; s_currency := Usdc; s_balance := 10 |}]> ∅) |},
      Ok tt).
Proof.
  split; [apply (@apply_exact canonical_order demo_ledger demo_deposit
                   demo_ledger_wf demo_deposit_wf) | vm_compute; reflexivity].
Defined.

(** conservation as the code reports it: in a well-formed ledger
    [internal_total] returns exactly the negated balance of the currency's
    External account, for every balance of that account except [i64::MIN], whose
    negation is not an [i64] and is reported as [i64::MAX]; and it is zero when
    the currency has no External account. *)
Theorem internal_total_mirrors_external `{HashMapOrder} (b : Balances) (c : Currency) :
  ledger_wf b -> Z.of_nat (size (accounts b)) <= 9223372036854775808 ->
  (forall a s, accounts b !! a = Some s -> s_owner s = External -> s_currency s = c ->
     internal_total b c = Ok (Z.min (- s_balance s) (imax I64))) /\
  ((forall a s, accounts b !! a = Some s -> s_owner s = External -> s_currency s <> c) ->
     internal_total b c = Ok 0).
Proof.
  intros Hwf Hsz. split.
  - intros a s Ha Ho Hc. rewrite internal_total_ok by done. f_equal.
    rewrite (internal_sum_mirrors b c a s) by done.
    pose proof (lw_range b Hwf a s Ha) as Hr.
    destruct (fits I64 (- s_balance s)) eqn:E; [apply fits_iff in E; ty|].
    assert (~ in_ty I64 (- s_balance s)) by (rewrite <- fits_iff; congruence). ty.
  - intros Hno. rewrite internal_total_ok by done.
    pose proof (total_split b c) as Ht. rewrite (lw_zero_sum b Hwf) in Ht.
    assert (external_sum b c = 0) as E.
    { unfold external_sum. rewrite (msum_ext _ (fun _ _ => 0)).
      - unfold msum. induction (map_to_list _) as [|? l IH]; cbn in *; lia.
      - intros k v Hk. case_bool_decide as D; [|done]. unfold slot_in.
        rewrite bool_decide_false by eauto. done. }
    by replace (internal_sum b c) with 0 by lia.
Qed.

Definition demo_funded : Balances := (@apply canonical_order demo_ledger demo_deposit).1.

Lemma demo_funded_wf : ledger_wf demo_funded.
Proof. apply apply_wf; [apply demo_ledger_wf | apply demo_deposit_wf]. Qed.

Lemma internal_total_mirrors_external_witness :
  @internal_total canonical_order demo_funded Usdc = Ok 10.
Proof.
  destruct (@internal_total_mirrors_external canonical_order demo_funded Usdc demo_funded_wf)
    as [H _]; [vm_compute; congruence|].
  rewrite (H 1%N {| s_owner := External; s_currency := Usdc; s_balance := -10 |});
    vm_compute; reflexivity.
Defined.

(** The transaction that empties the [i64] range of the External account. *)
Definition edge_deposit : Transaction :=
  {| t_kind := Deposit;
     t_entries := [{| e_account := 1%N; e_amount := -9223372036854775808 |};
                   {| e_account := 2%N; e_amount := 9223372036854775807 |};
                   {| e_account := 3%N; e_amount := 1 |}] |}.

Definition edge_ledger : Balances :=
  (@apply canonical_order (open_account demo_ledger 3%N User Usdc).1 edge_deposit).1.

(** the documented identity [internal_total(c) == -balance(external(c))] has a
    reachable exception: three accounts and one accepted deposit put External
    at [i64::MIN], and [internal_total] then reports [i64::MAX] while the
    internal accounts hold one micro more. *)
Theorem internal_total_identity_fails_at_min :
  rtc (@ledger_step canonical_order) balances_default edge_ledger /\
  balance edge_ledger 1%N = Some (-9223372036854775808) /\
  internal_sum edge_ledger Usdc = 9223372036854775808 /\
  @internal_total canonical_order edge_ledger Usdc = Ok 9223372036854775807.
Proof.
  split; [|vm_compute; done].
  eapply rtc_l; [apply (step_open _ 1%N External Usdc)|].
  eapply rtc_l; [apply (step_open _ 2%N User Usdc)|].
  eapply rtc_l; [apply (step_open _ 3%N User Usdc)|].
  eapply rtc_l; [apply (step_apply _ edge_deposit)|apply rtc_refl].
  split; [unfold zlen; cbn [length t_entries edge_deposit]; lia|]. split; [|done].
  repeat constructor; ty || done.
Qed.

Lemma sum_i128 (l : list Entry) :
  Forall (fun e => in_ty I64 (e_amount e)) l -> zlen l <= 9223372036854775808 ->
  foldM (fun s e => @arith LedgerError I128 (s + e_amount e)) 0 l = Ok (zsum (map e_amount l)).
Proof.
  intros Hall Hlen.
  edestruct (foldM_total (E := LedgerError) (fun s e => arith I128 (s + e_amount e))
    (fun done s => s = zsum (map e_amount done) /\ Z.abs s <= 9223372036854775808 * zlen done) 0 l)
    as (s & -> & -> & _); [done| |done].
  intros done e rest s -> [-> Hb]. apply Forall_app in Hall as [_ Hall].
  apply Forall_cons in Hall as [He _]. autorewrite with opinions in Hlen.
  pose proof (zlen_nonneg rest). pose proof (zlen_nonneg done).
  eexists. split; [apply arith_in; ty|].
  rewrite map_app, zsum_app, zlen_app. cbn. change (zlen [e]) with 1. ty.
Qed.

Lemma has_zero_iff (entries : list Entry) :
  existsb (fun e => e_amount e =? 0) entries = true <-> exists e, e ∈ entries /\ e_amount e = 0.
Proof. rewrite existsb_exists. setoid_rewrite <- list_elem_of_In. by setoid_rewrite Z.eqb_eq. Qed.

Lemma has_zero_not (entries : list Entry) :
  Forall (fun e => e_amount e <> 0) entries ->
  existsb (fun e => e_amount e =? 0) entries = false.
Proof.
  intros Hn. apply not_true_iff_false. intros (e & He & Hz)%has_zero_iff.
  by destruct (proj1 (Forall_forall _ _) Hn e He).
Qed.

(** [Transaction::new] returns exactly the well-formed transactions. *)
Lemma transaction_new_Ok kind entries t :
  Forall (fun e => in_ty I64 (e_amount e)) entries -> zlen entries <= 9223372036854775808 ->
  transaction_new kind entries = Ok t <-> txn_wf t /\ t = {| t_kind := kind; t_entries := entries |}.
Proof.
  intros Hall Hlen. unfold transaction_new. rewrite sum_i128 by done.
  cbn [mbind outcome_bind]. unfold txn_wf. split.
  - intros H. destruct (zlen entries <? 2) eqn:E1; [done|].
    destruct (existsb (fun e => e_amount e =? 0) entries) eqn:E2; [done|].
    destruct (zsum (map e_amount entries) =? 0) eqn:E3; [|done]. cbn in H.
    injection H as <-. bool_hyps. cbn. split_and!; try done; try lia.
    apply Forall_forall. intros e He. split; [by eapply (proj1 (Forall_forall _ _) Hall)|].
    intros Hz. assert (false = true); [|done]. rewrite <- E2. apply has_zero_iff. eauto.
  - intros [([H1 _] & H2 & H3) ->]. cbn in *. rewrite (proj2 (Z.ltb_ge _ _)) by lia.
    rewrite has_zero_not, H3; [done|]. eapply Forall_impl; [exact H2|]. naive_solver.
Qed.

(** [Transaction::new] returns exactly the well-formed transactions: it
    succeeds if and only if there are two entries or more, none is zero and
    they sum to zero, keeping the kind and the entries; each of the three
    refusals is reported with its own error in that order, the unbalanced one
    with the exact [i128] sum. *)
Theorem transaction_new_exact (kind : TxnKind) (entries : list Entry) :
  Forall (fun e => in_ty I64 (e_amount e)) entries -> zlen entries <= 9223372036854775808 ->
  (forall t, transaction_new kind entries = Ok t <->
     txn_wf t /\ t = {| t_kind := kind; t_entries := entries |}) /\
  (zlen entries < 2 -> transaction_new kind entries = Err TooFewEntries) /\
  (2 <= zlen entries -> (exists e, e ∈ entries /\ e_amount e = 0) ->
     transaction_new kind entries = Err ZeroEntry) /\
  (2 <= zlen entries -> Forall (fun e => e_amount e <> 0) entries ->
     zsum (map e_amount entries) <> 0 ->
     transaction_new kind entries = Err (Unbalanced (zsum (map e_amount entries)))).
Proof.
  intros Hall Hlen. split; [intros t; by apply transaction_new_Ok|].
  unfold transaction_new. rewrite sum_i128 by done. cbn [mbind outcome_bind]. split_and!.
  - intros H. by rewrite (proj2 (Z.ltb_lt _ _)).
  - intros H He. rewrite (proj2 (Z.ltb_ge _ _)) by lia. by rewrite (proj2 (has_zero_iff entries)).
  - intros H Hn Hs. rewrite (proj2 (Z.ltb_ge _ _)), has_zero_not by (done || lia).
    by rewrite (proj2 (Z.eqb_neq _ _)).
Qed.

Lemma transaction_new_exact_witness :
  transaction_new Trade [{| e_account := 1%N; e_amount := -5 |};
                         {| e_account := 2%N; e_amount := 4 |}] = Err (Unbalanced (-1)).
Proof.
  apply (transaction_new_exact Trade [{| e_account := 1%N; e_amount := -5 |};
                                      {| e_account := 2%N; e_amount := 4 |}]);
    [apply (bool_decide_unpack _); vm_compute; exact I | vm_compute; congruence
    | vm_compute; congruence | apply (bool_decide_unpack _); vm_compute; exact I
    | vm_compute; congruence].
Defined.
