(* ===== verification/Market.v ===== *)
(** * Market: the lifecycle of [crates/domain/src/market.rs]

    The transition function, as a step relation with its reachable states:
    markets only move forward, terminal states have no exit, and a payment is
    always preceded by a close and a resolution. *)

From S2P Require Import Prelude.

Inductive MarketState :=
| Draft | Scheduled | Live | Closing | Closed | Resolving | Resolved | Paid | Voided.

#[export] Instance MarketState_eq_dec : EqDecision MarketState.
Proof. solve_decision. Defined.

Inductive MarketEvent :=
| Approve | GoLive | EnterCloseWindow | Close | StartIntegritySweep | Resolve | Pay
| VoidLowParticipation | VoidByAdmin.

#[export] Instance MarketEvent_eq_dec : EqDecision MarketEvent.
Proof. solve_decision. Defined.

Inductive TransitionError := Illegal (from : MarketState) (event : MarketEvent).

(** [transition]: the rejecting arms of the source enumerate every other pair. *)
Definition transition (state : MarketState) (event : MarketEvent) :
    outcome TransitionError MarketState :=
  match state, event with
  | Draft, Approve => Ok Scheduled
  | Scheduled, GoLive => Ok Live
  | Live, EnterCloseWindow => Ok Closing
  | Closing, Close => Ok Closed
  | Closed, StartIntegritySweep => Ok Resolving
  | (Closed | Resolving), Resolve => Ok Resolved
  | Resolved, Pay => Ok Paid
  | (Closed | Resolving), VoidLowParticipation => Ok Voided
  | (Draft | Scheduled | Live | Closing | Closed | Resolving | Resolved), VoidByAdmin => Ok Voided
  | from, event => Err (Illegal from event)
  end.

(** One accepted event, and a run of accepted events. *)
Inductive market_step : MarketState -> MarketEvent -> MarketState -> Prop :=
| mstep s e s' : transition s e = Ok s' -> market_step s e s'.

Inductive market_run : MarketState -> list MarketEvent -> MarketState -> Prop :=
| mrun_nil s : market_run s [] s
| mrun_cons s e s' es s'' :
    market_step s e s' -> market_run s' es s'' -> market_run s (e :: es) s''.

(** Replaying a list of events, stopping at the first rejected one. *)
Definition replay (s : MarketState) (es : list MarketEvent) : outcome TransitionError MarketState :=
  foldM transition s es.

(** The position of a state in the lifecycle. *)
Definition stage (s : MarketState) : nat :=
  match s with
  | Draft => 0 | Scheduled => 1 | Live => 2 | Closing => 3 | Closed => 4
  | Resolving => 5 | Resolved => 6 | Paid => 7 | Voided => 7
  end.

Definition terminal (s : MarketState) : bool :=
  match s with Paid | Voided => true | _ => false end.

(** The legal edges the crate's test table lists. *)
Definition legal_edges : list (MarketState * MarketEvent * MarketState) :=
  [(Draft, Approve, Scheduled); (Scheduled, GoLive, Live); (Live, EnterCloseWindow, Closing);
   (Closing, Close, Closed); (Closed, StartIntegritySweep, Resolving);
   (Closed, Resolve, Resolved); (Resolving, Resolve, Resolved); (Resolved, Pay, Paid);
   (Closed, VoidLowParticipation, Voided); (Resolving, VoidLowParticipation, Voided);
   (Draft, VoidByAdmin, Voided); (Scheduled, VoidByAdmin, Voided); (Live, VoidByAdmin, Voided);
   (Closing, VoidByAdmin, Voided); (Closed, VoidByAdmin, Voided);
   (Resolving, VoidByAdmin, Voided); (Resolved, VoidByAdmin, Voided)].

(** ** Lemmas *)

Lemma transition_no_panic s e : transition s e <> Panic.
Proof. by destruct s, e. Qed.

Lemma transition_stage s e s' : transition s e = Ok s' -> (stage s < stage s')%nat.
Proof. destruct s, e; intros [= <-]; cbn; lia. Qed.

Lemma terminal_stuck s e : terminal s = true -> transition s e = Err (Illegal s e).
Proof. by destruct s, e. Qed.

Lemma market_run_replay s es s' : market_run s es s' <-> replay s es = Ok s'.
Proof.
  split.
  - induction 1 as [|s e s' es s'' [??? He] _ IH]; [done|]. cbn. by rewrite He.
  - revert s. induction es as [|e es IH]; intros s H; cbn in H.
    + injection H as <-. constructor.
    + apply bind_Ok in H as (s1 & He & H). econstructor; [by constructor|]. by apply IH.
Qed.

Lemma market_run_stage s es s' :
  market_run s es s' -> (stage s + length es <= stage s')%nat.
Proof.
  induction 1 as [|s e s' es s'' [??? He] _ IH]; cbn; [lia|].
  apply transition_stage in He. lia.
Qed.

Lemma replay_terminal s es s' :
  terminal s = true -> replay s es = Ok s' -> es = [] /\ s' = s.
Proof.
  intros Ht H. destruct es as [|e es]; cbn in H; [by injection H|].
  by rewrite terminal_stuck in H.
Qed.

Lemma market_run_app s es1 es2 s' :
  market_run s (es1 ++ es2) s' <-> exists m, market_run s es1 m /\ market_run m es2 s'.
Proof.
  setoid_rewrite market_run_replay. unfold replay. rewrite foldM_app. apply bind_Ok.
Qed.

(** [step_events H] runs one event of a replay equation, closing the branches
    the transition function rejects and those already voided. *)
Ltac step_events H :=
  match type of H with
  | foldM transition ?s ?es = Ok _ =>
      destruct es as [|[] es]; cbn in H; try discriminate H;
      try (apply (replay_terminal Voided) in H as [_ H]; [discriminate H | reflexivity])
  end.

(** ** Properties *)

(** [transition] is exactly the published edge table: it accepts the listed
    pairs with the listed target, and refuses every other pair with an error
    naming the state and the event. *)
Theorem transition_is_the_edge_table (s : MarketState) (e : MarketEvent) :
  (forall s', transition s e = Ok s' <-> (s, e, s') ∈ legal_edges) /\
  ((forall s', (s, e, s') ∉ legal_edges) -> transition s e = Err (Illegal s e)).
Proof.
  split.
  - intros s'. destruct s, e, s'; split; intros H;
      first [discriminate H | reflexivity | by apply (bool_decide_unpack _); vm_compute
            | by apply (bool_decide_pack _) in H; vm_compute in H].
  - intros H. destruct (transition s e) as [s'|[f x]|] eqn:E.
    + exfalso. apply (H s'). revert E. destruct s, e; intros [= <-];
      by apply (bool_decide_unpack _); vm_compute.
    + destruct s, e; cbn in E; congruence.
    + by destruct (transition_no_panic s e).
Qed.

(** the lifecycle is acyclic and bounded: every accepted event moves the
    market strictly forward, so no state is ever entered twice, a run has at
    most seven events, and a market that left [Live] never trades again. *)
Theorem lifecycle_moves_forward (s : MarketState) (es : list MarketEvent) (s' : MarketState) :
  market_run s es s' ->
  (length es <= 7)%nat /\ (stage s + length es <= stage s')%nat /\
  (es <> [] -> s' <> s) /\ ((2 < stage s)%nat -> s' <> Live).
Proof.
  intros H. apply market_run_stage in H as Hs.
  assert ((stage s' <= 7)%nat) by (destruct s'; cbn; lia).
  split_and!; [lia|done|..].
  - intros Hne ->. destruct es; [done|]. cbn in Hs. lia.
  - intros Hst ->. cbn in Hs. lia.
Qed.

Lemma lifecycle_moves_forward_witness :
  (length [Approve; GoLive] <= 7)%nat /\ (stage Draft + length [Approve; GoLive] <= stage Live)%nat /\
  ([Approve; GoLive] <> [] -> Live <> Draft) /\ ((2 < stage Draft)%nat -> Live <> Live).
Proof.
  apply (lifecycle_moves_forward Draft [Approve; GoLive] Live).
  apply market_run_replay. reflexivity.
Defined.

(** a market is only ever paid along the documented path: from [Draft] to
    [Paid] there are exactly two event sequences, approval, opening, close
    window, close, an optional integrity sweep, resolution and payment; so a
    paid market was closed and resolved, and was never voided. *)
Theorem paid_only_after_resolution (es : list MarketEvent) :
  market_run Draft es Paid <->
  es = [Approve; GoLive; EnterCloseWindow; Close; Resolve; Pay] \/
  es = [Approve; GoLive; EnterCloseWindow; Close; StartIntegritySweep; Resolve; Pay].
Proof.
  rewrite market_run_replay. split.
  - intros H. unfold replay in H.
    step_events H. step_events H. step_events H. step_events H. step_events H.
    + step_events H. step_events H. apply (replay_terminal Paid) in H as [-> _]; auto.
    + step_events H. apply (replay_terminal Paid) in H as [-> _]; auto.
  - intros [-> | ->]; reflexivity.
Qed.

(** paid and voided markets are final: no event is accepted there, and every
    other state can still be voided by an administrator, so a market never gets
    stuck short of a final state. *)
Theorem terminal_states_are_final (s : MarketState) :
  (terminal s = true <-> forall e, transition s e = Err (Illegal s e)) /\
  (terminal s = false -> transition s VoidByAdmin = Ok Voided).
Proof.
  split; [|by destruct s]. split; [intros H e; by apply terminal_stuck|].
  intros H. specialize (H VoidByAdmin). by destruct s.
Qed.

Lemma terminal_states_are_final_witness :
  transition Resolved VoidByAdmin = Ok Voided.
Proof. apply (terminal_states_are_final Resolved). reflexivity. Defined.
