(* ===== verification/Resolution.v ===== *)
(** * Resolution: settlement of [crates/domain/src/resolution.rs]

    Redemption values, the floored payout of one holding and the settlement of
    a whole book against its escrow.  The theorems give the exact condition
    under which a book settles and show that the settlement conserves the
    escrow with fewer micros of dust than holdings. *)

From S2P Require Import Prelude Amm Ledger.

Definition MICRO_PER_WHOLE : Z := 1000000.

Record Settlement := { st_payouts : list (AccountId * Z); st_dust : Z }.

Inductive ResolutionError :=
| ResOverflow
| ConservationViolated (expected got : Z)
| ActualOutOfRange
| HoldingsIncomplete (minted presented : Z).

(** One holding: account, outcome and shares. *)
Notation Holding := (AccountId * Side * Z)%type (only parsing).

Definition redemptions (actual_yes_bps : Z) : outcome ResolutionError (Z * Z) :=
  if 10000 <? actual_yes_bps then Err ActualOutOfRange else
  yes ← arith I64 (actual_yes_bps * 100);
  no ← arith I64 (1000000 - yes);
  Ok (yes, no).

Definition position_payout (shares redemption_per_share : Z) : outcome ResolutionError Z :=
  if (shares <? 0) || (redemption_per_share <? 0) then Err ResOverflow else
  prod ← arith I128 (shares * redemption_per_share);
  payout ← sdiv I128 prod MICRO_PER_WHOLE;
  ok_or (checked I64 payout) ResOverflow.

(** The first loop of [settle_market]: the shares presented on each side. *)
Definition presented_step (acc : Z * Z) (h : Holding) : outcome ResolutionError (Z * Z) :=
  let '(yes_presented, no_presented) := acc in
  let '(_, side, shares) := h in
  if shares <? 0 then Err ResOverflow else
  match side with
  | Yes => y ← ok_or (checked I128 (yes_presented + shares)) ResOverflow; Ok (y, no_presented)
  | No => n ← ok_or (checked I128 (no_presented + shares)) ResOverflow; Ok (yes_presented, n)
  end.

(** The second loop: payouts and their sum. *)
Definition payout_step (yes_redemption no_redemption : Z) (acc : list (AccountId * Z) * Z)
    (h : Holding) : outcome ResolutionError (list (AccountId * Z) * Z) :=
  let '(payouts, payout_sum) := acc in
  let '(account, side, shares) := h in
  let redemption := match side with Yes => yes_redemption | No => no_redemption end in
  payout ← position_payout shares redemption;
  payout_sum ← ok_or (checked I128 (payout_sum + payout)) ResOverflow;
  Ok (payouts ++ [(account, payout)], payout_sum).

Definition settle_market (holdings : list Holding) (actual_yes_bps escrow : Z) :
    outcome ResolutionError Settlement :=
  '(yes_redemption, no_redemption) ← redemptions actual_yes_bps;
  if escrow <? 0 then Err ResOverflow else
  let minted := escrow in
  '(yes_presented, no_presented) ← foldM presented_step (0, 0) holdings;
  if negb (yes_presented =? minted) then
    presented ← ok_or (checked I64 yes_presented) ResOverflow;
    Err (HoldingsIncomplete minted presented)
  else if negb (no_presented =? minted) then
    presented ← ok_or (checked I64 no_presented) ResOverflow;
    Err (HoldingsIncomplete minted presented)
  else
  '(payouts, payout_sum) ← foldM (payout_step yes_redemption no_redemption) ([], 0) holdings;
  dust_i128 ← arith I128 (escrow - payout_sum);
  dust ← ok_or (checked I64 dust_i128) ResOverflow;
  recombined ← ok_or (checked I128 (payout_sum + dust_i128)) ResOverflow;
  holding_count ← ok_or (checked I128 (zlen holdings)) ResOverflow;
  if negb (recombined =? escrow) || (holding_count <=? dust_i128) then
    got ← ok_or (checked I64 recombined) ResOverflow;
    Err (ConservationViolated escrow got)
  else Ok {| st_payouts := payouts; st_dust := dust |}.

(** ** Specification *)

Definition h_account (h : Holding) : AccountId := h.1.1.
Definition h_side (h : Holding) : Side := h.1.2.
Definition h_shares (h : Holding) : Z := h.2.

(** The shares a list of holdings presents on one side. *)
Definition presented_on (side : Side) (l : list Holding) : Z :=
  zsum (map (fun h => if bool_decide (h_side h = side) then h_shares h else 0) l).

(** The value of one share of an outcome, in micro-USD. *)
Definition redemption_of (bps : Z) (side : Side) : Z :=
  match side with Yes => bps * 100 | No => 1000000 - bps * 100 end.

(** The floored payout of a holding. *)
Definition payout_of (bps : Z) (h : Holding) : Z :=
  h_shares h * redemption_of bps (h_side h) / MICRO_PER_WHOLE.

Definition paid_total (bps : Z) (l : list Holding) : Z := zsum (map (payout_of bps) l).

(** The books that settle: a valid result, no negative balance, and on both
    outcomes exactly as many shares as sets were minted. *)
Definition book_complete (holdings : list Holding) (bps escrow : Z) : Prop :=
  bps <= 10000 /\ 0 <= escrow /\ holdings <> [] /\
  Forall (fun h => 0 <= h_shares h) holdings /\
  presented_on Yes holdings = escrow /\ presented_on No holdings = escrow.

Definition expected_settlement (holdings : list Holding) (bps escrow : Z) : Settlement :=
  {| st_payouts := map (fun h => (h_account h, payout_of bps h)) holdings;
     st_dust := escrow - paid_total bps holdings |}.

(** Inputs of the machine types of [settle_market]. *)
Definition settle_input (holdings : list Holding) (bps escrow : Z) : Prop :=
  Forall (fun h => in_ty I64 (h_shares h)) holdings /\ zlen holdings <= 9223372036854775807 /\
  in_ty U16 bps /\ in_ty I64 escrow.

Example settle_test :
  settle_market [(1%N, Yes, 600001); (2%N, Yes, 400002); (1%N, No, 100001); (2%N, No, 900002)]
    7350 1000003 =
  Ok {| st_payouts := [(1%N, 441000); (2%N, 294001); (1%N, 26500); (2%N, 238500)]; st_dust := 2 |}.
Proof. vm_compute. reflexivity. Qed.

Example settle_incomplete :
  settle_market [(1%N, Yes, 600001); (1%N, No, 100001); (2%N, No, 900002)] 7350 1000003 =
  Err (HoldingsIncomplete 1000003 600001).
Proof. vm_compute. reflexivity. Qed.

(** ** Lemmas *)

Lemma redemptions_ok bps : 0 <= bps <= 10000 ->
  redemptions bps = Ok (redemption_of bps Yes, redemption_of bps No).
Proof.
  intros Hb. unfold redemptions. rewrite (proj2 (Z.ltb_ge _ _)) by lia. run. run. done.
Qed.

Lemma redemption_bounds bps side : 0 <= bps <= 10000 -> 0 <= redemption_of bps side <= 1000000.
Proof. destruct side; cbn; lia. Qed.

Lemma payout_bounds bps h :
  0 <= bps <= 10000 -> 0 <= h_shares h ->
  0 <= payout_of bps h <= h_shares h /\
  payout_of bps h * 1000000 <= h_shares h * redemption_of bps (h_side h)
    < payout_of bps h * 1000000 + 1000000.
Proof.
  intros Hb Hs. pose proof (redemption_bounds bps (h_side h) Hb) as Hr.
  unfold payout_of, MICRO_PER_WHOLE.
  pose proof (floor_div_spec (h_shares h * redemption_of bps (h_side h)) 1000000 ltac:(lia)).
  split; [|lia]. split; [apply Z.div_pos; nia|]. apply Z.div_le_upper_bound; nia.
Qed.

Lemma position_payout_ok bps h :
  0 <= bps <= 10000 -> in_ty I64 (h_shares h) -> 0 <= h_shares h ->
  position_payout (h_shares h) (redemption_of bps (h_side h)) = Ok (payout_of bps h).
Proof.
  intros Hb Ht Hs. pose proof (redemption_bounds bps (h_side h) Hb) as Hr.
  pose proof (payout_bounds bps h Hb Hs) as [Hp _].
  assert (E : Z.quot (h_shares h * redemption_of bps (h_side h)) MICRO_PER_WHOLE = payout_of bps h)
    by (apply quot_div_nonneg; unfold MICRO_PER_WHOLE; nia).
  unfold position_payout. rewrite !(proj2 (Z.ltb_ge _ _)) by lia. cbn [orb].
  run. rewrite sdiv_in; [|done|rewrite E; ty]. cbn [mbind outcome_bind]. rewrite E.
  rewrite checked_in by ty. done.
Qed.

Lemma presented_on_app side l k : presented_on side (l ++ k) = presented_on side l + presented_on side k.
Proof. unfold presented_on. by rewrite map_app, zsum_app. Qed.

Lemma presented_on_cons side h l :
  presented_on side (h :: l) = (if bool_decide (h_side h = side) then h_shares h else 0) + presented_on side l.
Proof. done. Qed.

Lemma presented_bounds side l :
  Forall (fun h => in_ty I64 (h_shares h) /\ 0 <= h_shares h) l ->
  0 <= presented_on side l <= 9223372036854775807 * zlen l.
Proof.
  induction 1 as [|h l [Ht Hn] _ IH]; [done|]. rewrite presented_on_cons, zlen_cons.
  case_bool_decide; ty.
Qed.

Lemma presented_on_single side side' a sh :
  presented_on side [(a, side', sh)] = if bool_decide (side' = side) then sh else 0.
Proof. rewrite presented_on_cons. cbn. case_bool_decide; lia. Qed.

(** The first loop succeeds exactly on non-negative holdings. *)
Lemma presented_loop l :
  Forall (fun h => in_ty I64 (h_shares h) /\ 0 <= h_shares h) l -> zlen l <= 9223372036854775807 ->
  foldM presented_step (0, 0) l = Ok (presented_on Yes l, presented_on No l).
Proof.
  intros Hall Hlen.
  edestruct (foldM_total presented_step (fun done acc =>
    acc = (presented_on Yes done, presented_on No done)) (0, 0) l) as (acc & -> & ->); [done| |done].
  intros done [[a side] sh] rest acc -> ->. apply Forall_app in Hall as [Hd Hr].
  apply Forall_cons in Hr as [[Ht Hn] _]. cbn in Ht, Hn. autorewrite with opinions in Hlen.
  pose proof (presented_bounds Yes done Hd). pose proof (presented_bounds No done Hd).
  pose proof (zlen_nonneg rest). pose proof (zlen_nonneg done).
  unfold presented_step. rewrite (proj2 (Z.ltb_ge sh 0)) by lia.
  destruct side; (rewrite checked_in by ty); cbn; eexists; (split; [done|]);
    rewrite !presented_on_app, !presented_on_single; repeat case_bool_decide; try done;
    f_equal; lia.
Qed.

Lemma presented_loop_nonneg l acc :
  foldM presented_step (0, 0) l = Ok acc -> Forall (fun h => 0 <= h_shares h) l.
Proof.
  intros H. apply (foldM_ind presented_step (fun done _ => Forall (fun h => 0 <= h_shares h) done)
                     _ _ _ H); [done|].
  intros done [[a side] sh] rest [y n] acc' _ Hi Hx. apply Forall_app. split; [done|].
  constructor; [|done]. unfold presented_step in Hx. cbn.
  destruct (Z.ltb_spec sh 0); [discriminate|done].
Qed.

(** The second loop computes every floored payout. *)
Lemma payout_loop bps l :
  0 <= bps <= 10000 ->
  Forall (fun h => in_ty I64 (h_shares h) /\ 0 <= h_shares h) l -> zlen l <= 9223372036854775807 ->
  foldM (payout_step (redemption_of bps Yes) (redemption_of bps No)) ([], 0) l =
    Ok (map (fun h => (h_account h, payout_of bps h)) l, paid_total bps l).
Proof.
  intros Hb Hall Hlen.
  edestruct (foldM_total (payout_step (redemption_of bps Yes) (redemption_of bps No))
    (fun done acc => acc = (map (fun h => (h_account h, payout_of bps h)) done, paid_total bps done)
       /\ 0 <= paid_total bps done <= 9223372036854775807 * zlen done) ([], 0) l)
    as (acc & -> & -> & _); [done| |done].
  intros done h rest acc -> [-> Hbd]. apply Forall_app in Hall as [Hd Hr].
  apply Forall_cons in Hr as [[Ht Hn] _]. autorewrite with opinions in Hlen.
  pose proof (zlen_nonneg rest). pose proof (zlen_nonneg done).
  pose proof (payout_bounds bps h Hb Hn) as [Hp _].
  assert (E : payout_step (redemption_of bps Yes) (redemption_of bps No)
     (map (fun h => (h_account h, payout_of bps h)) done, paid_total bps done) h =
     Ok (map (fun h => (h_account h, payout_of bps h)) (done ++ [h]), paid_total bps (done ++ [h]))).
  { pose proof (position_payout_ok bps h Hb Ht Hn) as Hpay.
    unfold paid_total in *. rewrite !map_app, zsum_app. cbn [map zsum].
    destruct h as [[a side] sh]. unfold payout_step. cbn [h_side h_shares fst snd] in *.
    replace (match side with Yes => redemption_of bps Yes | No => redemption_of bps No end)
      with (redemption_of bps side) by (by destruct side).
    rewrite Hpay. cbn [mbind outcome_bind]. rewrite checked_in by ty. cbn.
    by rewrite Z.add_0_r. }
  eexists. split; [exact E|]. split; [done|].
  unfold paid_total in *. rewrite map_app, zsum_app, zlen_app. cbn. change (zlen [h]) with 1. ty.
Qed.

(** The exact value of the holdings, before flooring. *)
Lemma exact_value bps l :
  zsum (map (fun h => h_shares h * redemption_of bps (h_side h)) l) =
  bps * 100 * presented_on Yes l + (1000000 - bps * 100) * presented_on No l.
Proof.
  induction l as [|h l IH]; [cbn; lia|].
  cbn [map zsum]. rewrite IH, !presented_on_cons.
  destruct (h_side h); repeat case_bool_decide; try done; cbn [redemption_of]; lia.
Qed.

Lemma dust_bounds bps l escrow :
  0 <= bps <= 10000 -> Forall (fun h => 0 <= h_shares h) l ->
  presented_on Yes l = escrow -> presented_on No l = escrow -> l <> [] ->
  0 <= escrow - paid_total bps l < zlen l.
Proof.
  intros Hb Hn Hy Hno Hne.
  assert (G : forall k, Forall (fun h => 0 <= h_shares h) k ->
    paid_total bps k * 1000000 <=
      zsum (map (fun h => h_shares h * redemption_of bps (h_side h)) k) <=
    paid_total bps k * 1000000 + 999999 * zlen k).
  { induction 1 as [|h k Hh _ IH]; [done|].
    unfold paid_total in *. cbn [map zsum]. rewrite zlen_cons.
    pose proof (payout_bounds bps h Hb Hh) as [_ ?]. lia. }
  specialize (G l Hn). rewrite exact_value, Hy, Hno in G.
  assert (0 < zlen l) by (destruct l; [done|rewrite zlen_cons; pose proof (zlen_nonneg l); lia]). lia.
Qed.

Lemma paid_total_nonneg bps l :
  0 <= bps <= 10000 -> Forall (fun h => 0 <= h_shares h) l -> 0 <= paid_total bps l.
Proof.
  intros Hb Hn. apply zsum_nonneg, Forall_map. eapply Forall_impl; [exact Hn|].
  intros h Hh. by apply payout_bounds.
Qed.

Lemma settle_complete holdings bps escrow :
  settle_input holdings bps escrow -> book_complete holdings bps escrow ->
  settle_market holdings bps escrow = Ok (expected_settlement holdings bps escrow).
Proof.
  intros (Hty & Hlen & Hbps & He) (Hb & He0 & Hne & Hn & Hy & Hno).
  assert (Hb' : 0 <= bps <= 10000) by ty.
  assert (Hall : Forall (fun h => in_ty I64 (h_shares h) /\ 0 <= h_shares h) holdings).
  { apply Forall_forall. intros h Hh. split; [by apply (proj1 (Forall_forall _ _) Hty)|].
    by apply (proj1 (Forall_forall _ _) Hn). }
  pose proof (dust_bounds bps holdings escrow Hb' Hn Hy Hno Hne) as Hd.
  pose proof (paid_total_nonneg bps holdings Hb' Hn) as Hp.
  pose proof (zlen_nonneg holdings).
  unfold settle_market. rewrite redemptions_ok by done. cbn [mbind outcome_bind].
  rewrite (proj2 (Z.ltb_ge escrow 0)) by done. rewrite presented_loop by done.
  cbn [mbind outcome_bind]. rewrite Hy, Hno, Z.eqb_refl. cbn [negb].
  rewrite payout_loop by done. cbn [mbind outcome_bind].
  run. run. run. run.
  replace (paid_total bps holdings + (escrow - paid_total bps holdings)) with escrow by lia.
  rewrite Z.eqb_refl. cbn [negb orb]. rewrite (proj2 (Z.leb_gt _ _)) by lia. done.
Qed.

Lemma settle_only_complete holdings bps escrow s :
  settle_input holdings bps escrow -> settle_market holdings bps escrow = Ok s ->
  book_complete holdings bps escrow.
Proof.
  intros (Hty & Hlen & Hbps & He) H. unfold settle_market in H.
  assert (Hb : bps <= 10000).
  { unfold redemptions in H. destruct (Z.ltb_spec 10000 bps); [discriminate|done]. }
  assert (Hb' : 0 <= bps <= 10000) by ty.
  rewrite redemptions_ok in H by done. cbn [mbind outcome_bind] in H.
  destruct (Z.ltb_spec escrow 0); [discriminate|].
  destruct (foldM presented_step (0, 0) holdings) as [[y n]|e|] eqn:Hl; [|discriminate..].
  pose proof (presented_loop_nonneg holdings _ Hl) as Hn.
  assert (Hall : Forall (fun h => in_ty I64 (h_shares h) /\ 0 <= h_shares h) holdings).
  { apply Forall_forall. intros h Hh. split; [by apply (proj1 (Forall_forall _ _) Hty)|].
    by apply (proj1 (Forall_forall _ _) Hn). }
  rewrite presented_loop in Hl by done. injection Hl as <- <-. cbn [mbind outcome_bind] in H.
  destruct (Z.eqb_spec (presented_on Yes holdings) escrow) as [Hy|]; cbn [negb] in H.
  2:{ apply bind_Ok in H as (? & _ & H). discriminate. }
  destruct (Z.eqb_spec (presented_on No holdings) escrow) as [Hno|]; cbn [negb] in H.
  2:{ apply bind_Ok in H as (? & _ & H). discriminate. }
  split_and!; try done. intros ->. cbn in Hy. subst escrow. vm_compute in H. discriminate.
Qed.

(** ** Properties *)

(** [settle_market] settles exactly the complete books: a result of at most
    10,000 basis points, non-negative balances, at least one holding, and on
    both outcomes exactly as many shares as micro-USD in escrow.  It then
    returns the floored payout of every holding in order and the remainder as
    dust; every other input is an error, never a panic or a wrap-around. *)
Theorem settle_market_exact (holdings : list Holding) (bps escrow : Z) :
  settle_input holdings bps escrow ->
  forall s, settle_market holdings bps escrow = Ok s <->
    book_complete holdings bps escrow /\ s = expected_settlement holdings bps escrow.
Proof.
  intros Hi s. split.
  - intros H. pose proof (settle_only_complete _ _ _ _ Hi H) as Hc. split; [done|].
    rewrite settle_complete in H by done. congruence.
  - intros [Hc ->]. by apply settle_complete.
Qed.

Definition demo_holdings : list Holding :=
  [(1%N, Yes, 600001); (2%N, Yes, 400002); (1%N, No, 100001); (2%N, No, 900002)].

Lemma demo_settle_input : settle_input demo_holdings 7350 1000003.
Proof. split_and!; [apply (bool_decide_unpack _); vm_compute; exact I | vm_compute; congruence | ty.. ]. Qed.

Lemma settle_market_exact_witness :
  book_complete demo_holdings 7350 1000003 /\
  expected_settlement demo_holdings 7350 1000003 =
  {| st_payouts := [(1%N, 441000); (2%N, 294001); (1%N, 26500); (2%N, 238500)]; st_dust := 2 |}.
Proof.
  destruct (proj1 (settle_market_exact demo_holdings 7350 1000003 demo_settle_input
    {| st_payouts := [(1%N, 441000); (2%N, 294001); (1%N, 26500); (2%N, 238500)]; st_dust := 2 |})
    ltac:(vm_compute; reflexivity)) as [H1 H2].
  split; [exact H1 | symmetry; exact H2].
Defined.

(** C4: a settlement conserves the escrow: payouts plus dust equal it exactly,
    no payout is negative or exceeds its shares, and the dust is non-negative
    and strictly below the number of holdings. *)
Theorem settlement_conserves_escrow (holdings : list Holding) (bps escrow : Z) (s : Settlement) :
  settle_input holdings bps escrow -> settle_market holdings bps escrow = Ok s ->
  zsum (map snd (st_payouts s)) + st_dust s = escrow /\
  0 <= st_dust s < zlen holdings /\
  map fst (st_payouts s) = map h_account holdings /\
  Forall2 (fun h p => 0 <= snd p <= h_shares h) holdings (st_payouts s).
Proof.
  intros Hi H. pose proof (settle_only_complete _ _ _ _ Hi H) as Hc.
  rewrite settle_complete in H by done. injection H as <-.
  destruct Hi as (_ & _ & Hbps & _). destruct Hc as (Hb & He0 & Hne & Hn & Hy & Hno).
  assert (Hb' : 0 <= bps <= 10000) by ty. cbn [st_payouts st_dust expected_settlement].
  rewrite !map_map. split_and!.
  - change (paid_total bps holdings + (escrow - paid_total bps holdings) = escrow). lia.
  - by apply dust_bounds.
  - by apply dust_bounds.
  - done.
  - clear - Hn Hb'. induction Hn as [|h l Hh Hl IH]; cbn [map]; constructor; [|done].
    by apply payout_bounds.
Qed.

Lemma settlement_conserves_escrow_witness :
  441000 + (294001 + (26500 + (238500 + 0))) + 2 = 1000003 /\ 0 <= 2 < 4.
Proof.
  destruct (settlement_conserves_escrow demo_holdings 7350 1000003
    {| st_payouts := [(1%N, 441000); (2%N, 294001); (1%N, 26500); (2%N, 238500)]; st_dust := 2 |}
    demo_settle_input ltac:(vm_compute; reflexivity)) as (H1 & H2 & _).
  split; [exact H1 | exact H2].
Defined.

(** an incomplete book is a hard error that names the missing side: when a
    side's shares differ from the minted sets, [settle_market] reports the
    minted and the presented quantity of the first such side and pays nobody. *)
Theorem incomplete_book_refused (holdings : list Holding) (bps escrow : Z) :
  settle_input holdings bps escrow -> bps <= 10000 -> 0 <= escrow ->
  Forall (fun h => 0 <= h_shares h) holdings ->
  in_ty I64 (presented_on Yes holdings) -> in_ty I64 (presented_on No holdings) ->
  (presented_on Yes holdings <> escrow ->
   settle_market holdings bps escrow = Err (HoldingsIncomplete escrow (presented_on Yes holdings))) /\
  (presented_on Yes holdings = escrow -> presented_on No holdings <> escrow ->
   settle_market holdings bps escrow = Err (HoldingsIncomplete escrow (presented_on No holdings))).
Proof.
  intros (Hty & Hlen & Hbps & He) Hb He0 Hn Hy Hno.
  assert (Hall : Forall (fun h => in_ty I64 (h_shares h) /\ 0 <= h_shares h) holdings).
  { apply Forall_forall. intros h Hh. split; [by apply (proj1 (Forall_forall _ _) Hty)|].
    by apply (proj1 (Forall_forall _ _) Hn). }
  unfold settle_market. rewrite redemptions_ok by ty. cbn [mbind outcome_bind].
  rewrite (proj2 (Z.ltb_ge escrow 0)) by done. rewrite presented_loop by done.
  cbn [mbind outcome_bind]. split.
  - intros Hne. rewrite (proj2 (Z.eqb_neq _ _) Hne). cbn [negb]. by rewrite checked_in.
  - intros -> Hne. rewrite Z.eqb_refl, (proj2 (Z.eqb_neq _ _) Hne). cbn [negb].
    by rewrite checked_in.
Qed.

Lemma incomplete_book_refused_witness :
  settle_market [(1%N, Yes, 5)] 5000 5 = Err (HoldingsIncomplete 5 0).
Proof.
  apply (incomplete_book_refused [(1%N, Yes, 5)] 5000 5);
    [split_and!; [apply (bool_decide_unpack _); vm_compute; exact I | vm_compute; congruence | ty..]
    | lia | lia | apply (bool_decide_unpack _); vm_compute; exact I | vm_compute; split; congruence
    | vm_compute; split; congruence | reflexivity | vm_compute; congruence].
Defined.
