(* ===== verification/Economy.v ===== *)
(** * Economy: the voter economy of the domain crate

    Vote scoring ([scoring.rs]), reputation and tiers ([reputation.rs]), the
    tiered trade fee ([fee_policy.rs]) and the hot ranking ([ranking.rs]):
    integer formulas at their machine widths.  The theorems give their exact
    values and ranges, the direction and convergence of reputation updates, and
    the monotonicity of fees and ranks. *)

From S2P Require Import Prelude Money Amm.

(** ** Vote scoring *)

Record VoteScore := { accuracy_bp : Z; majority_bp : Z; score_bp : Z }.

Inductive ScoringError := GuessOutOfRange | ScoreActualOutOfRange.

Definition wins_majority (side : Side) (actual_yes_bps : Z) : bool :=
  (actual_yes_bps =? 5000)
  || (bool_decide (side = Yes) && (5000 <? actual_yes_bps))
  || (bool_decide (side = No) && (actual_yes_bps <? 5000)).

Definition score_vote (side : Side) (crowd_guess_pct actual_yes_bps : Z) :
    outcome ScoringError VoteScore :=
  if 100 <? crowd_guess_pct then Err GuessOutOfRange else
  if 10000 <? actual_yes_bps then Err ScoreActualOutOfRange else
  guessed_yes_bps ← arith U16 (crowd_guess_pct * 100);
  let diff := Z.abs (guessed_yes_bps - actual_yes_bps) in
  penalty ← arith U16 (diff * 4);
  let accuracy := Z.max 0 (10000 - penalty) in
  let majority := if wins_majority side actual_yes_bps then 10000 else 0 in
  tripled ← arith U16 (3 * accuracy);
  total ← arith U16 (tripled + majority);
  Ok {| accuracy_bp := accuracy; majority_bp := majority; score_bp := total / 4 |}.

(** ** Reputation *)

Definition UNIT : Z := 1000000.

Inductive HalfLife := H10 | H20 | H40.

Definition k_ppm (h : HalfLife) : Z :=
  match h with H10 => 933033 | H20 => 965936 | H40 => 982821 end.

Inductive RepError := OperandOutOfRange.

Definition update_rep (rep_micro score_micro : Z) (h : HalfLife) : outcome RepError Z :=
  if negb ((0 <=? rep_micro) && (rep_micro <=? UNIT)) ||
     negb ((0 <=? score_micro) && (score_micro <=? UNIT)) then Err OperandOutOfRange else
  let k := k_ppm h in
  left ← arith I128 (rep_micro * k);
  gap ← arith I128 (UNIT - k);
  right ← arith I128 (score_micro * gap);
  numerator ← arith I128 (left + right);
  half ← sdiv I64 UNIT 2;
  shifted ← arith I128 (numerator + half);
  rounded ← sdiv I128 shifted UNIT;
  ok_or (checked I64 rounded) OperandOutOfRange.

(** [tier_for]: a fold over the four thresholds in [u8]. *)
Definition tier_for (rep_micro : Z) (thresholds : list Z) : outcome Empty_set Z :=
  foldM (fun tier threshold =>
           arith U8 (tier + (if threshold <=? rep_micro then 1 else 0))) 0 thresholds.

(** ** Trade fees *)

Record FeeContext := {
  base_bps : Z; tier : Z; discount_bp_by_tier : list Z; min_fee_bps : Z;
  is_flip_within_window : bool }.

(** [effective_fee]; the indexed array has five entries. *)
Definition effective_fee (ctx : FeeContext) : outcome Empty_set Z :=
  if is_flip_within_window ctx then Ok (base_bps ctx) else
  let index := Z.min (tier ctx) 4 in
  match discount_bp_by_tier ctx !! Z.to_nat index with
  | Some discount => Ok (Z.max (Z.max 0 (base_bps ctx - discount)) (min_fee_bps ctx))
  | None => Panic
  end.

(** ** Hot ranking *)

Inductive RankError := FutureTimestamp.

Definition hot_score (score age_secs : Z) : outcome RankError Z :=
  if age_secs <? 0 then Err FutureTimestamp else
  bumped ← arith I128 (Z.max score 0 + 1);
  score_num ← arith I128 (bumped * 1000000);
  age_hours ← sdiv I64 age_secs 3600;
  base ← arith I128 (age_hours + 2);
  denominator ← arith I128 (base * base);
  q ← sdiv I128 score_num denominator;
  Ok (if fits I64 q then q else imax I64).

(** ** Specification *)

(** The exact EWMA numerator of an update, over [UNIT]. *)
Definition ewma (rep score : Z) (h : HalfLife) : Z := rep * k_ppm h + score * (UNIT - k_ppm h).

(** Round half up. *)
Definition rep_next (rep score : Z) (h : HalfLife) : Z := (ewma rep score h + 500000) / UNIT.

Fixpoint rep_iter (n : nat) (rep score : Z) (h : HalfLife) : outcome RepError Z :=
  match n with O => Ok rep | S n => r ← update_rep rep score h; rep_iter n r score h end.

Definition in_unit (z : Z) : Prop := 0 <= z <= UNIT.

(** A context of the machine types, with the five-entry discount array. *)
Definition fee_context_ok (ctx : FeeContext) : Prop :=
  in_ty U16 (base_bps ctx) /\ in_ty U8 (tier ctx) /\ in_ty U16 (min_fee_bps ctx) /\
  length (discount_bp_by_tier ctx) = 5%nat /\
  Forall (in_ty U16) (discount_bp_by_tier ctx).

Example golden_h10 : rep_iter 10 0 1000000 H10 = Ok 500000.
Proof. vm_compute. reflexivity. Qed.
Example golden_h20 : rep_iter 20 0 1000000 H20 = Ok 500004.
Proof. vm_compute. reflexivity. Qed.
Example golden_h40 : rep_iter 40 1000000 0 H40 = Ok 500007.
Proof. vm_compute. reflexivity. Qed.
Example hot_examples :
  (hot_score (-1) 0, hot_score 0 3600, hot_score 1 7199, hot_score 0 (-1)) =
  (Ok 250000, Ok 111111, Ok 222222, Err FutureTimestamp).
Proof. vm_compute. reflexivity. Qed.

(** ** Lemmas *)

Lemma score_vote_ok side g a :
  0 <= g <= 100 -> 0 <= a <= 10000 ->
  let acc := Z.max 0 (10000 - 4 * Z.abs (100 * g - a)) in
  let maj := if wins_majority side a then 10000 else 0 in
  score_vote side g a =
    Ok {| accuracy_bp := acc; majority_bp := maj; score_bp := (3 * acc + maj) / 4 |}.
Proof.
  intros Hg Ha acc maj. unfold score_vote.
  rewrite !(proj2 (Z.ltb_ge _ _)) by lia. run.
  replace (Z.abs (g * 100 - a) * 4) with (4 * Z.abs (100 * g - a)) by lia.
  assert (0 <= maj <= 10000) by (unfold maj; case_if; lia).
  run. fold acc maj. assert (0 <= acc <= 10000) by (unfold acc; lia). run. run. done.
Qed.

Lemma k_bounds h : 500000 < k_ppm h < UNIT /\ 17179 <= UNIT - k_ppm h.
Proof. unfold UNIT. destruct h; cbn; lia. Qed.

Lemma ewma_between rep score h :
  in_unit rep -> in_unit score ->
  Z.min rep score * UNIT <= ewma rep score h <= Z.max rep score * UNIT.
Proof.
  unfold in_unit, UNIT. intros Hr Hs. destruct (k_bounds h) as [Hk _]. unfold ewma, UNIT in *.
  destruct (Z.le_gt_cases rep score).
  - rewrite Z.min_l, Z.max_r by lia. nia.
  - rewrite Z.min_r, Z.max_l by lia. nia.
Qed.

Lemma rep_next_between rep score h :
  in_unit rep -> in_unit score ->
  Z.min rep score <= rep_next rep score h <= Z.max rep score.
Proof.
  intros Hr Hs. pose proof (ewma_between rep score h Hr Hs). unfold rep_next, UNIT in *.
  pose proof (floor_div_spec (ewma rep score h + 500000) 1000000 ltac:(lia)). lia.
Qed.

Lemma update_rep_ok rep score h :
  in_unit rep -> in_unit score -> update_rep rep score h = Ok (rep_next rep score h).
Proof.
  intros Hr Hs. pose proof (rep_next_between rep score h Hr Hs) as Hb.
  pose proof (ewma_between rep score h Hr Hs) as He. destruct (k_bounds h) as [Hk _].
  unfold update_rep. unfold in_unit, UNIT in *.
  rewrite !(proj2 (Z.leb_le _ _)) by lia. cbn [negb orb andb].
  run. run. run. replace (rep * k_ppm h + score * (1000000 - k_ppm h)) with (ewma rep score h) by done.
  run. change (@sdiv RepError I64 1000000 2) with (@Ok RepError Z 500000).
  cbn [mbind outcome_bind]. run.
  assert (E : Z.quot (ewma rep score h + 500000) 1000000 = rep_next rep score h)
    by (apply quot_div_nonneg; lia).
  rewrite sdiv_in; [|lia|rewrite E; ty]. cbn [mbind outcome_bind]. rewrite E.
  rewrite checked_in by ty. done.
Qed.

(** Thirty micros away from the score, an update moves strictly closer. *)
Lemma rep_next_moves rep score h :
  in_unit rep -> in_unit score -> 30 <= Z.abs (score - rep) ->
  Z.abs (score - rep_next rep score h) < Z.abs (score - rep).
Proof.
  intros Hr Hs Hd. pose proof (rep_next_between rep score h Hr Hs) as Hb.
  destruct (k_bounds h) as [Hk Hg].
  pose proof (floor_div_spec (ewma rep score h + 500000) UNIT ltac:(unfold UNIT; lia)) as Hf.
  fold (rep_next rep score h) in Hf.
  assert (E : ewma rep score h = rep * UNIT + (score - rep) * (UNIT - k_ppm h))
    by (unfold ewma; ring).
  assert (Hstep : 515370 <= Z.abs (score - rep) * (UNIT - k_ppm h)) by (unfold UNIT in *; nia).
  set (n := rep_next rep score h) in *. set (d := (score - rep) * (UNIT - k_ppm h)) in *.
  assert (Hne : n <> rep).
  { intros Heq. rewrite Heq, E in Hf.
    destruct (Z.le_gt_cases rep score).
    - rewrite Z.abs_eq in Hstep by lia. fold d in Hstep. unfold UNIT in *. lia.
    - rewrite Z.abs_neq in Hstep by lia.
      assert (d <= -515370) by (unfold d; lia). unfold UNIT in *. lia. }
  lia.
Qed.

Lemma rep_iter_in n rep score h :
  in_unit rep -> in_unit score -> exists r, rep_iter n rep score h = Ok r /\ in_unit r.
Proof.
  revert rep. induction n as [|n IH]; intros rep Hr Hs; cbn; [eauto|].
  rewrite update_rep_ok by done. cbn. apply IH; [|done].
  pose proof (rep_next_between rep score h Hr Hs). unfold in_unit in *. lia.
Qed.

Lemma rep_iter_close n rep score h :
  in_unit rep -> in_unit score -> Z.abs (score - rep) <= Z.of_nat n + 29 ->
  exists r, rep_iter n rep score h = Ok r /\ Z.abs (score - r) <= 29.
Proof.
  revert rep. induction n as [|n IH]; intros rep Hr Hs Hd; cbn; [exists rep; split; [done|lia]|].
  rewrite update_rep_ok by done. cbn.
  pose proof (rep_next_between rep score h Hr Hs) as Hb. apply IH; [unfold in_unit in *; lia|done|].
  destruct (Z.le_gt_cases 30 (Z.abs (score - rep))).
  - pose proof (rep_next_moves rep score h Hr Hs ltac:(done)). lia.
  - lia.
Qed.

Lemma tier_for_count rep l :
  zlen l <= 255 ->
  tier_for rep l = Ok (zsum (map (fun t => if t <=? rep then 1 else 0) l)).
Proof.
  intros Hlen. unfold tier_for.
  edestruct (foldM_total (E := Empty_set) (fun tier threshold =>
           arith U8 (tier + (if threshold <=? rep then 1 else 0)))
    (fun done s => s = zsum (map (fun t => if t <=? rep then 1 else 0) done) /\
                   0 <= s <= zlen done) 0 l) as (s & -> & -> & _); [done| |done].
  intros done t rest s -> [Hs Hb]. autorewrite with opinions in Hlen.
  pose proof (zlen_nonneg rest). pose proof (zlen_nonneg done).
  eexists. split; [apply arith_in; case_if; ty|]. rewrite map_app, zsum_app, zlen_app.
  cbn. change (zlen [t]) with 1. case_if; lia.
Qed.

Lemma effective_fee_ok ctx :
  fee_context_ok ctx -> is_flip_within_window ctx = false ->
  exists d, discount_bp_by_tier ctx !! Z.to_nat (Z.min (tier ctx) 4) = Some d /\ in_ty U16 d /\
    effective_fee ctx = Ok (Z.max (Z.max 0 (base_bps ctx - d)) (min_fee_bps ctx)).
Proof.
  intros (_ & Ht & _ & Hlen & Hall) Hflip. unfold effective_fee. rewrite Hflip.
  destruct (lookup_lt_is_Some_2 (discount_bp_by_tier ctx) (Z.to_nat (Z.min (tier ctx) 4)))
    as [d Hd]; [ty|].
  exists d. split_and!; [done| |by rewrite Hd].
  rewrite Forall_lookup in Hall. by eapply Hall.
Qed.

Lemma hot_score_ok score age :
  in_ty I32 score -> in_ty I64 age -> 0 <= age ->
  hot_score score age =
    Ok ((Z.max score 0 + 1) * 1000000 / ((age / 3600 + 2) * (age / 3600 + 2))).
Proof.
  intros Hs Ha H0. unfold hot_score. rewrite (proj2 (Z.ltb_ge age 0)) by lia.
  assert (Hh : 0 <= age / 3600 <= 2562047788015216).
  { split; [apply Z.div_pos; lia|]. apply Z.div_le_upper_bound; ty. }
  run. run. rewrite sdiv_in; [|lia|rewrite quot_div_nonneg by lia; ty]. cbn [mbind outcome_bind].
  rewrite quot_div_nonneg by lia. set (a := age / 3600) in *. run. run.
  set (N := (Z.max score 0 + 1) * 1000000). set (D := (a + 2) * (a + 2)).
  assert (HN : 0 <= N <= 2147483648000000) by (unfold N; ty).
  assert (HD : 4 <= D) by (unfold D; nia).
  assert (Hq : 0 <= N / D <= 2147483648000000).
  { split; [apply Z.div_pos; lia|]. apply Z.div_le_upper_bound; nia. }
  rewrite sdiv_in; [|lia|rewrite quot_div_nonneg by lia; ty]. cbn [mbind outcome_bind].
  rewrite quot_div_nonneg by lia. rewrite (proj2 (fits_iff I64 (N / D))) by ty. done.
Qed.

(** ** Properties *)

(** a valid vote always scores: accuracy loses four basis points per basis
    point of error down to zero, a tie gives both sides the majority component,
    the reported score is the published 75/25 mean, every component lies in
    0..=10000, and no [u16] intermediate overflows; an invalid guess or result
    is refused with its own error. *)
Theorem score_vote_exact (side : Side) (g a : Z) :
  in_ty U8 g -> in_ty U16 a ->
  (100 < g -> score_vote side g a = Err GuessOutOfRange) /\
  (g <= 100 -> 10000 < a -> score_vote side g a = Err ScoreActualOutOfRange) /\
  (g <= 100 -> a <= 10000 -> exists s, score_vote side g a = Ok s /\
     accuracy_bp s = Z.max 0 (10000 - 4 * Z.abs (100 * g - a)) /\
     (majority_bp s = 10000 <-> match side with Yes => 5000 <= a | No => a <= 5000 end) /\
     score_bp s = (75 * accuracy_bp s + 25 * majority_bp s) / 100 /\
     0 <= accuracy_bp s <= 10000 /\ (majority_bp s = 0 \/ majority_bp s = 10000) /\
     0 <= score_bp s <= 10000).
Proof.
  intros Hg Ha. split_and!.
  - intros H. unfold score_vote. by rewrite (proj2 (Z.ltb_lt _ _)).
  - intros H1 H2. unfold score_vote.
    by rewrite (proj2 (Z.ltb_ge _ _) H1), (proj2 (Z.ltb_lt _ _) H2).
  - intros H1 H2. eexists. rewrite score_vote_ok by ty. split; [done|].
    cbn [accuracy_bp majority_bp score_bp].
    set (acc := Z.max 0 (10000 - 4 * Z.abs (100 * g - a))).
    assert (Hacc : 0 <= acc <= 10000) by ty.
    assert (Hm : wins_majority side a = true <-> match side with Yes => 5000 <= a | No => a <= 5000 end).
    { unfold wins_majority. destruct side; repeat case_bool_decide; try done; cbn [andb orb];
        rewrite ?orb_false_r, orb_true_iff, Z.eqb_eq, Z.ltb_lt; lia. }
    rewrite <- Hm. destruct (wins_majority side a).
    + replace (75 * acc + 25 * 10000) with (25 * (3 * acc + 10000)) by lia.
      rewrite (Z.div_mul_cancel_l _ 4 25) by lia.
      split_and!; try done; try lia; [apply Z.div_pos; lia | apply Z.div_le_upper_bound; lia].
    + replace (75 * acc + 25 * 0) with (25 * (3 * acc + 0)) by lia.
      rewrite (Z.div_mul_cancel_l _ 4 25) by lia.
      split_and!; try done; try lia; [apply Z.div_pos; lia | apply Z.div_le_upper_bound; lia].
Qed.

Lemma score_vote_exact_witness : score_vote Yes 50 10001 = Err ScoreActualOutOfRange.
Proof. apply (score_vote_exact Yes 50 10001); [ty | ty | lia | lia]. Defined.

(** reputation stays in the unit interval and converges: an update of valid
    operands never fails, lies between the old reputation and the score, is
    within half a micro-unit of the exact EWMA, and repeated updates towards a
    fixed score come within 29 micro-units of it in at most a million steps;
    operands outside the interval are refused. *)
Theorem update_rep_converges (rep score : Z) (h : HalfLife) :
  (~ (in_unit rep /\ in_unit score) -> update_rep rep score h = Err OperandOutOfRange) /\
  (in_unit rep -> in_unit score ->
   (exists r, update_rep rep score h = Ok r /\ in_unit r /\
      Z.min rep score <= r <= Z.max rep score /\
      2 * Z.abs (r * UNIT - ewma rep score h) <= UNIT) /\
   (exists r, rep_iter (Z.to_nat 1000000) rep score h = Ok r /\ Z.abs (score - r) <= 29)).
Proof.
  split.
  - intros Hn. unfold update_rep. unfold in_unit in Hn.
    destruct (Z.leb_spec 0 rep), (Z.leb_spec rep UNIT), (Z.leb_spec 0 score),
      (Z.leb_spec score UNIT); try done. lia.
  - intros Hr Hs. pose proof (rep_next_between rep score h Hr Hs) as Hb. split.
    + eexists. rewrite update_rep_ok by done. split_and!; [done|unfold in_unit in *; lia..|].
      pose proof (floor_div_spec (ewma rep score h + 500000) UNIT ltac:(unfold UNIT; lia)) as Hf.
      fold (rep_next rep score h) in Hf. unfold UNIT in *. lia.
    + apply rep_iter_close; [done..|]. rewrite Z2Nat.id by lia. unfold in_unit, UNIT in *. lia.
Qed.

Lemma update_rep_converges_witness : update_rep 1000001 0 H20 = Err OperandOutOfRange.
Proof. apply (update_rep_converges 1000001 0 H20). unfold in_unit, UNIT. lia. Defined.

(** the effective fee is total on every context and respects the policy: a
    flip pays exactly the base rate; otherwise the fee is the base less the
    tier's discount, never below the floor, never above the larger of base and
    floor, and a tier above four is treated as four. *)
Theorem effective_fee_policy (ctx : FeeContext) :
  fee_context_ok ctx ->
  exists f, effective_fee ctx = Ok f /\ in_ty U16 f /\
    f <= Z.max (base_bps ctx) (min_fee_bps ctx) /\
    (is_flip_within_window ctx = true -> f = base_bps ctx) /\
    (is_flip_within_window ctx = false ->
       min_fee_bps ctx <= f /\
       exists d, discount_bp_by_tier ctx !! Z.to_nat (Z.min (tier ctx) 4) = Some d /\
         f = Z.max (base_bps ctx - d) (min_fee_bps ctx)).
Proof.
  intros Hok. destruct Hok as (Hb & Ht & Hm & Hlen & Hall) eqn:E. clear E.
  destruct (is_flip_within_window ctx) eqn:Hf.
  - exists (base_bps ctx). unfold effective_fee. rewrite Hf. split_and!; try done; try ty; lia.
  - destruct (effective_fee_ok ctx Hok Hf) as (d & Hd & Hdt & ->).
    eexists. split; [done|]. split_and!; try done; try ty.
    intros _. split; [lia|]. exists d. split; [done|]. ty.
Qed.

Definition demo_fee_context : FeeContext :=
  {| base_bps := 100; tier := 2; discount_bp_by_tier := [0; 5; 20; 50; 100];
     min_fee_bps := 10; is_flip_within_window := false |}.

Lemma effective_fee_policy_witness :
  exists f, effective_fee demo_fee_context = Ok f /\ f <= 100.
Proof.
  destruct (effective_fee_policy demo_fee_context) as (f & H1 & _ & H2 & _);
    [unfold fee_context_ok; apply (bool_decide_unpack _); vm_compute; exact I|].
  exists f. split; [exact H1 | exact H2].
Defined.

(** the hot rank is total on past timestamps and orders as intended: a higher
    score never ranks lower at the same age, an older post never ranks higher
    at the same score, negative scores rank as zero, and no [i128] step
    overflows. *)
Theorem hot_score_monotone (score score' age age' : Z) :
  in_ty I32 score -> in_ty I32 score' -> in_ty I64 age -> in_ty I64 age' ->
  0 <= age <= age' -> score <= score' ->
  exists r r', hot_score score age' = Ok r /\ hot_score score' age = Ok r' /\ 0 <= r <= r'.
Proof.
  intros Hs Hs' Ha Ha' Hage Hsc.
  rewrite !hot_score_ok by (done || lia). do 2 eexists. split_and!; [done..| |].
  - apply Z.div_pos; [ty|]. pose proof (Z.div_pos age' 3600). nia.
  - pose proof (Z.div_le_mono age age' 3600 ltac:(lia) ltac:(lia)).
    pose proof (Z.div_pos age 3600 ltac:(lia) ltac:(lia)).
    set (x := age / 3600) in *. set (y := age' / 3600) in *.
    apply Z.le_trans with ((Z.max score 0 + 1) * 1000000 / ((x + 2) * (x + 2))).
    + apply Z.div_le_compat_l; [lia|]. nia.
    + apply Z.div_le_mono; [nia|]. lia.
Qed.

Lemma hot_score_monotone_witness :
  exists r r', hot_score 1 7200 = Ok r /\ hot_score 10 0 = Ok r' /\ 0 <= r <= r'.
Proof. apply (hot_score_monotone 1 10 0 7200); [ty | ty | ty | ty | lia | lia]. Defined.

(** The tier is the number of thresholds reached, so it never exceeds the number
    of thresholds and never falls when reputation rises. *)
Theorem tier_for_monotone (rep rep' : Z) (thresholds : list Z) :
  length thresholds = 4%nat -> rep <= rep' ->
  exists t t', tier_for rep thresholds = Ok t /\ tier_for rep' thresholds = Ok t' /\
    0 <= t <= t' /\ t' <= 4.
Proof.
  intros Hlen Hle. assert (Hz : zlen thresholds = 4) by (unfold zlen; lia).
  rewrite !tier_for_count by lia. do 2 eexists. split_and!; [done..| | |].
  - apply zsum_nonneg, Forall_map, Forall_forall. intros. cbn. case_if; lia.
  - apply zsum_map_le. intros t _. destruct (Z.leb_spec t rep), (Z.leb_spec t rep'); lia.
  - rewrite <- Hz. clear. induction thresholds as [|t l IH]; [done|]. rewrite zlen_cons. cbn.
    case_if; lia.
Qed.
