(* ===== verification/Integrity.v ===== *)
(** * Integrity: the anomaly sweep before a payout

    [integrity.rs]: four integer checks over the vote statistics of a market and
    the verdict that holds a payout when at least two of them flag.  The
    theorems give each check's exact flag condition as an inequality between
    products (no rounding), and show that none of the machine operations
    overflows or divides by zero. *)

From S2P Require Import Prelude.

Definition PPM : Z := 1000000.

Record VoteStats := {
  total : Z; last_window : Z; prior_windows_total : Z; prior_horizon_windows : Z;
  young_accounts : Z; subnet_observed : Z; top_subnet_count : Z;
  device_observed : Z; top_device_count : Z }.

Record SweepThresholds := {
  burst_multiplier_ppm : Z; young_account_share_max_ppm : Z; subnet_share_max_ppm : Z;
  device_share_max_ppm : Z; min_votes_for_ratios : Z; min_metadata_coverage_ppm : Z }.

Inductive Strength := Weak | Medium.

Record CheckResult := {
  name : string; value_ppm : Z; threshold_ppm : Z; coverage : Z;
  strength : Strength; flagged : bool; note : string }.

Inductive Verdict := Pass | Flag.

(** The sweep has no error arm. *)
Notation total_outcome := (outcome Empty_set).

Definition ratio_ppm (numerator denominator : Z) : total_outcome Z :=
  if denominator =? 0 then Ok 0 else
  scaled ← arith U128 (numerator * PPM);
  value ← udiv scaled denominator;
  Ok (if fits U64 value then value else imax U64).

Definition coverage_ppm (observed total : Z) : total_outcome Z :=
  r ← ratio_ppm observed total;
  Ok (if fits U32 r then r else imax U32).

Definition low_votes (name : string) (threshold : Z) (strength : Strength) : CheckResult :=
  {| name := name; value_ppm := 0; threshold_ppm := threshold; coverage := 1000000;
     strength := strength; flagged := false;
     note := "skipped: fewer than the configured minimum votes" |}.

Definition vote_burst (s : VoteStats) (t : SweepThresholds) : total_outcome CheckResult :=
  if total s <? min_votes_for_ratios t
  then Ok (low_votes "vote_burst" (burst_multiplier_ppm t) Medium) else
  if prior_windows_total s =? 0 then
    value ← arith U64 (last_window s * 1000000);
    threshold ← arith U64 (min_votes_for_ratios t * 1000000);
    Ok {| name := "vote_burst"; value_ppm := value; threshold_ppm := threshold;
          coverage := 1000000; strength := Medium;
          flagged := min_votes_for_ratios t <? last_window s;
          note := "zero prior baseline; compares final-window count to minimum votes" |}
  else
    ratio ← udiv (saturate U128 (saturate U128 (last_window s * prior_horizon_windows s) * PPM))
                 (prior_windows_total s);
    let value := if fits U64 ratio then ratio else imax U64 in
    Ok {| name := "vote_burst"; value_ppm := value; threshold_ppm := burst_multiplier_ppm t;
          coverage := 1000000; strength := Medium;
          flagged := burst_multiplier_ppm t <? value;
          note := "final close-anchored window versus prior-window average" |}.

Record ShareCheck := {
  sc_name : string; sc_count : Z; sc_denominator : Z; sc_threshold : Z;
  sc_min_coverage : Z; sc_strength : Strength; sc_note : string }.

Definition share_check (input : ShareCheck) (total min_votes : Z) : total_outcome CheckResult :=
  if total <? min_votes
  then Ok (low_votes (sc_name input) (sc_threshold input) (sc_strength input)) else
  cov ← coverage_ppm (sc_denominator input) total;
  if cov <? sc_min_coverage input then
    Ok {| name := sc_name input; value_ppm := 0; threshold_ppm := sc_threshold input;
          coverage := cov; strength := sc_strength input; flagged := false;
          note := "skipped: metadata coverage below configured minimum" |}
  else
    value ← ratio_ppm (sc_count input) (sc_denominator input);
    Ok {| name := sc_name input; value_ppm := value; threshold_ppm := sc_threshold input;
          coverage := cov; strength := sc_strength input;
          flagged := sc_threshold input <? value; note := sc_note input |}.

Definition young_check (s : VoteStats) (t : SweepThresholds) : ShareCheck :=
  {| sc_name := "young_account_share"; sc_count := young_accounts s;
     sc_denominator := total s; sc_threshold := young_account_share_max_ppm t;
     sc_min_coverage := 0; sc_strength := Medium; sc_note := "account age at cast time" |}.

Definition subnet_check (s : VoteStats) (t : SweepThresholds) : ShareCheck :=
  {| sc_name := "subnet_concentration"; sc_count := top_subnet_count s;
     sc_denominator := subnet_observed s; sc_threshold := subnet_share_max_ppm t;
     sc_min_coverage := min_metadata_coverage_ppm t; sc_strength := Weak;
     sc_note := "weak IP-prefix proxy: IPv4 /24, IPv6 /64" |}.

Definition device_check (s : VoteStats) (t : SweepThresholds) : ShareCheck :=
  {| sc_name := "device_concentration"; sc_count := top_device_count s;
     sc_denominator := device_observed s; sc_threshold := device_share_max_ppm t;
     sc_min_coverage := min_metadata_coverage_ppm t; sc_strength := Weak;
     sc_note := "weak client-asserted device identifier" |}.

Definition sweep_checks (s : VoteStats) (t : SweepThresholds) :
    total_outcome (list CheckResult) :=
  burst ← vote_burst s t;
  young ← share_check (young_check s t) (total s) (min_votes_for_ratios t);
  subnet ← share_check (subnet_check s t) (total s) (min_votes_for_ratios t);
  device ← share_check (device_check s t) (total s) (min_votes_for_ratios t);
  Ok [burst; young; subnet; device].

Definition verdict (results : list CheckResult) : Verdict :=
  if 2 <=? zlen (List.filter flagged results) then Flag else Pass.

(** ** Specification *)

Definition stats_ok (s : VoteStats) : Prop :=
  in_ty U32 (total s) /\ in_ty U32 (last_window s) /\ in_ty U32 (prior_windows_total s) /\
  in_ty U32 (prior_horizon_windows s) /\ in_ty U32 (young_accounts s) /\
  in_ty U32 (subnet_observed s) /\ in_ty U32 (top_subnet_count s) /\
  in_ty U32 (device_observed s) /\ in_ty U32 (top_device_count s).

Definition thresholds_ok (t : SweepThresholds) : Prop :=
  in_ty U32 (burst_multiplier_ppm t) /\ in_ty U32 (young_account_share_max_ppm t) /\
  in_ty U32 (subnet_share_max_ppm t) /\ in_ty U32 (device_share_max_ppm t) /\
  in_ty U32 (min_votes_for_ratios t) /\ in_ty U32 (min_metadata_coverage_ppm t).

(** A share [count/denominator] strictly above [limit] ppm, as the integer
    division reports it: at least [limit + 1] whole ppm. *)
Definition share_exceeds (count denominator limit : Z) : bool :=
  (0 <? denominator) && ((limit + 1) * denominator <=? count * PPM).

(** Metadata present on at least [min_coverage] ppm of the votes. *)
Definition covered (observed total min_coverage : Z) : bool :=
  (min_coverage =? 0) || ((0 <? total) && (min_coverage * total <=? observed * PPM)).

Definition burst_flag (s : VoteStats) (t : SweepThresholds) : bool :=
  if prior_windows_total s =? 0 then min_votes_for_ratios t <? last_window s
  else (burst_multiplier_ppm t + 1) * prior_windows_total s
       <=? last_window s * prior_horizon_windows s * PPM.

(** The four flags the sweep is meant to raise. *)
Definition sweep_flags (s : VoteStats) (t : SweepThresholds) : list bool :=
  if total s <? min_votes_for_ratios t then [false; false; false; false] else
  [burst_flag s t;
   share_exceeds (young_accounts s) (total s) (young_account_share_max_ppm t);
   covered (subnet_observed s) (total s) (min_metadata_coverage_ppm t) &&
     share_exceeds (top_subnet_count s) (subnet_observed s) (subnet_share_max_ppm t);
   covered (device_observed s) (total s) (min_metadata_coverage_ppm t) &&
     share_exceeds (top_device_count s) (device_observed s) (device_share_max_ppm t)].

(** ** Lemmas *)

Lemma ratio_ppm_ok n d :
  in_ty U32 n -> in_ty U32 d ->
  ratio_ppm n d = Ok (if d =? 0 then 0 else n * PPM / d) /\
  (0 < d -> 0 <= n * PPM / d <= 4294967295000000).
Proof.
  intros Hn Hd. unfold PPM.
  assert (Hb : 0 < d -> 0 <= n * 1000000 / d <= 4294967295000000).
  { intros Hpos. split; [apply Z.div_pos; ty|]. apply Z.div_le_upper_bound; [done|].
    unfold in_ty in *; cbn in *; nia. }
  split; [|done]. unfold ratio_ppm, PPM. destruct (Z.eqb_spec d 0); [done|].
  run. run. specialize (Hb ltac:(ty)). by rewrite (proj2 (fits_iff U64 _)) by ty.
Qed.

Lemma ratio_above n d l : 0 < d -> (l <? n * PPM / d) = ((l + 1) * d <=? n * PPM).
Proof.
  intros Hd. apply eq_bool_prop_intro. rewrite !Is_true_true, Z.ltb_lt, Z.leb_le.
  rewrite <- Z.le_succ_l. unfold Z.succ. split; intros H.
  - rewrite (Z.mul_comm (l + 1)). apply Z.mul_le_mono_nonneg_l with (p := d) in H; [|lia].
    pose proof (Z.mul_div_le (n * PPM) d Hd). lia.
  - apply Z.div_le_lower_bound; [done|]. lia.
Qed.

Lemma ratio_below n d l : 0 < d -> (n * PPM / d <? l) = negb (l * d <=? n * PPM).
Proof.
  intros Hd. pose proof (ratio_above n d (l - 1) Hd) as E.
  rewrite Z.sub_add in E. rewrite <- E. rewrite <- Z.leb_antisym.
  apply eq_bool_prop_intro. rewrite !Is_true_true, Z.ltb_lt, Z.leb_le. lia.
Qed.

(** The coverage test never depends on the [u32] clamp. *)
Lemma coverage_below o n l :
  in_ty U32 o -> in_ty U32 n -> in_ty U32 l ->
  exists c, coverage_ppm o n = Ok c /\ (c <? l) = negb (covered o n l).
Proof.
  intros Ho Hn Hl. destruct (ratio_ppm_ok o n Ho Hn) as [E Hb].
  unfold coverage_ppm. rewrite E. cbn [mbind outcome_bind]. eexists. split; [done|].
  unfold covered. destruct (Z.eqb_spec n 0) as [->|Hne].
  - change (fits U32 0) with true. rewrite andb_false_l, orb_false_r.
    destruct (Z.eqb_spec l 0); cbn [negb]; [apply Z.ltb_ge; lia|apply Z.ltb_lt; ty].
  - assert (Hpos : 0 < n) by ty. specialize (Hb Hpos).
    rewrite (proj2 (Z.ltb_lt 0 n) Hpos), andb_true_l.
    rewrite negb_orb, <- ratio_below by done.
    destruct (fits U32 (o * PPM / n)) eqn:F.
    + destruct (Z.eqb_spec l 0) as [->|]; cbn [negb andb]; [apply Z.ltb_ge; lia|done].
    + assert (~ in_ty U32 (o * PPM / n)) as Hout by (rewrite <- fits_iff, F; done).
      rewrite (proj2 (Z.ltb_ge (imax U32) l)), (proj2 (Z.ltb_ge (o * PPM / n) l)) by ty.
      by rewrite andb_false_r.
Qed.

Lemma share_check_flag i n m :
  in_ty U32 (sc_count i) -> in_ty U32 (sc_denominator i) -> in_ty U32 (sc_threshold i) ->
  in_ty U32 (sc_min_coverage i) -> in_ty U32 n ->
  exists r, share_check i n m = Ok r /\ name r = sc_name i /\
    flagged r = negb (n <? m) && (covered (sc_denominator i) n (sc_min_coverage i) &&
                  share_exceeds (sc_count i) (sc_denominator i) (sc_threshold i)).
Proof.
  intros Hc Hd Ht Hm Hn. unfold share_check. destruct (n <? m); [eauto|].
  destruct (coverage_below _ _ _ Hd Hn Hm) as (c & -> & Hcov). cbn [mbind outcome_bind].
  rewrite Hcov. destruct (covered _ _ _); cbn [negb andb]; [|eauto].
  destruct (ratio_ppm_ok _ _ Hc Hd) as [-> _]. cbn [mbind outcome_bind]. eexists.
  split; [done|]. split; [done|]. cbn [flagged]. unfold share_exceeds.
  destruct (Z.eqb_spec (sc_denominator i) 0) as [->|].
  - rewrite andb_false_l. apply Z.ltb_ge. ty.
  - rewrite (proj2 (Z.ltb_lt 0 _)) by ty. by rewrite ratio_above by ty.
Qed.

Lemma vote_burst_flag s t :
  stats_ok s -> thresholds_ok t ->
  exists r, vote_burst s t = Ok r /\ name r = "vote_burst"%string /\
    flagged r = negb (total s <? min_votes_for_ratios t) && burst_flag s t.
Proof.
  intros (_ & Hl & Hp & Hh & _) (Hb & _ & _ & _ & Hm & _). unfold vote_burst, burst_flag.
  destruct (total s <? min_votes_for_ratios t); [eauto|]. cbn [negb andb].
  destruct (Z.eqb_spec (prior_windows_total s) 0).
  - rewrite !arith_in by ty. cbn [mbind outcome_bind]. eauto.
  - assert (0 <= last_window s * prior_horizon_windows s <= 18446744065119617025)
      by (unfold in_ty in *; cbn in *; nia).
    rewrite udiv_pos by ty. cbn [mbind outcome_bind]. eexists. split; [done|].
    split; [done|]. cbn [flagged]. unfold saturate, PPM. cbn [imin imax]. rewrite !Z.min_l, !Z.max_r by lia.
    change 1000000 with PPM. rewrite <- ratio_above by ty.
    destruct (fits U64 _) eqn:F; [done|].
    assert (Hout : ~ in_ty U64 (last_window s * prior_horizon_windows s * PPM / prior_windows_total s))
      by (rewrite <- fits_iff, F; done).
    assert (0 <= last_window s * prior_horizon_windows s * PPM / prior_windows_total s)
      by (apply Z.div_pos; unfold PPM; ty).
    rewrite !(proj2 (Z.ltb_lt (burst_multiplier_ppm t) _)) by ty. done.
Qed.

Lemma verdict_counts rs :
  verdict rs = Flag <-> 2 <= zlen (List.filter id (map flagged rs)).
Proof.
  unfold verdict.
  assert (E : zlen (List.filter id (map flagged rs)) = zlen (List.filter flagged rs)).
  { induction rs as [|r rs IH]; [done|]. cbn. unfold id in *.
    destruct (flagged r); [rewrite !zlen_cons|]; lia. }
  rewrite E. destruct (Z.leb_spec 2 (zlen (List.filter flagged rs))); split; (done || lia).
Qed.

(** ** Properties *)

(** the sweep always produces its four checks, and each flag is exact: it is
    raised precisely when the vote count reaches the minimum, the metadata is
    covered and the share or burst exceeds its limit by a whole ppm; with fewer
    votes nothing is flagged and the verdict is Pass, and in general the verdict
    is Flag precisely when at least two of the four are raised. *)
Theorem sweep_flags_exact (s : VoteStats) (t : SweepThresholds) :
  stats_ok s -> thresholds_ok t ->
  exists rs, sweep_checks s t = Ok rs /\
    map name rs = ["vote_burst"; "young_account_share"; "subnet_concentration";
                   "device_concentration"] /\
    map flagged rs = sweep_flags s t /\
    (verdict rs = Flag <-> 2 <= zlen (List.filter id (sweep_flags s t))).
Proof.
  intros Hs Ht. pose proof Hs as (H1 & H2 & H3 & H4 & H5 & H6 & H7 & H8 & H9).
  pose proof Ht as (T1 & T2 & T3 & T4 & T5 & T6).
  destruct (vote_burst_flag s t Hs Ht) as (b & Hb & Nb & Fb).
  destruct (share_check_flag (young_check s t) (total s) (min_votes_for_ratios t))
    as (y & Hy & Ny & Fy); [done..|].
  destruct (share_check_flag (subnet_check s t) (total s) (min_votes_for_ratios t))
    as (n & Hn & Nn & Fn); [done..|].
  destruct (share_check_flag (device_check s t) (total s) (min_votes_for_ratios t))
    as (d & Hd & Nd & Fd); [done..|].
  exists [b; y; n; d]. unfold sweep_checks. rewrite Hb, Hy, Hn, Hd.
  assert (HF : map flagged [b; y; n; d] = sweep_flags s t).
  { cbn [map]. rewrite Fb, Fy, Fn, Fd. unfold sweep_flags. by destruct (total s <? _). }
  split_and!; [done | cbn [map]; by rewrite Nb, Ny, Nn, Nd | done |].
  rewrite <- HF. apply verdict_counts.
Qed.

Definition demo_thresholds : SweepThresholds :=
  {| burst_multiplier_ppm := 2000000; young_account_share_max_ppm := 500000;
     subnet_share_max_ppm := 600000; device_share_max_ppm := 600000;
     min_votes_for_ratios := 4; min_metadata_coverage_ppm := 500000 |}.

Definition demo_stats : VoteStats :=
  {| total := 10; last_window := 5; prior_windows_total := 8; prior_horizon_windows := 4;
     young_accounts := 6; subnet_observed := 10; top_subnet_count := 6;
     device_observed := 4; top_device_count := 4 |}.

Lemma sweep_flags_exact_witness :
  exists rs, sweep_checks demo_stats demo_thresholds = Ok rs /\
    map flagged rs = [true; true; false; false] /\ verdict rs = Flag.
Proof.
  destruct (sweep_flags_exact demo_stats demo_thresholds) as (rs & H1 & _ & H2 & H3);
    [unfold stats_ok; apply (bool_decide_unpack _); vm_compute; exact I
    |unfold thresholds_ok; apply (bool_decide_unpack _); vm_compute; exact I|].
  exists rs. split; [exact H1|]. split; [exact H2|]. apply H3. vm_compute. discriminate.
Defined.
