(* ===== verification/Chars.v ===== *)
(** * Chars: Rust strings as sequences of Unicode scalar values

    A [String] is the list of its [char]s, each the integer of its code point.
    Holds the parts of [str] and [char] the text components use: the
    White_Space property, [trim], [split_whitespace], substring search and
    decimal formatting, with the lemmas those components share. *)

From S2P Require Import Prelude.
From Stdlib Require Import Ascii.

Definition str := list Z.

(** A literal of the source: ASCII only. *)
Definition lit (s : string) : str :=
  map (fun c => Z.of_N (N_of_ascii c)) (String.list_ascii_of_string s).

Definition scalar_value (c : Z) : Prop := 0 <= c < 55296 \/ 57343 < c < 1114112.

(** [char::is_whitespace]: the White_Space property of Unicode. *)
Definition is_whitespace (c : Z) : bool :=
  ((9 <=? c) && (c <=? 13)) || (c =? 32) || (c =? 133) || (c =? 160) || (c =? 5760) ||
  ((8192 <=? c) && (c <=? 8202)) || (c =? 8232) || (c =? 8233) || (c =? 8239) ||
  (c =? 8287) || (c =? 12288).

(** [char::is_control]: general category Cc. *)
Definition is_control (c : Z) : bool := (c <=? 31) || ((127 <=? c) && (c <=? 159)).

Fixpoint trim_start (s : str) : str :=
  match s with
  | [] => []
  | c :: s' => if is_whitespace c then trim_start s' else s
  end.

Definition trim (s : str) : str := rev (trim_start (rev (trim_start s))).

Definition is_empty {A} (s : list A) : bool := match s with [] => true | _ => false end.

(** [str::split_whitespace]: the maximal runs of non-whitespace characters;
    [acc] is the current run. *)
Fixpoint split_ws (acc s : str) : list str :=
  match s with
  | [] => if is_empty acc then [] else [acc]
  | c :: s' =>
      if is_whitespace c then
        if is_empty acc then split_ws [] s' else acc :: split_ws [] s'
      else split_ws (acc ++ [c]) s'
  end.

Definition split_whitespace (s : str) : list str := split_ws [] s.

Fixpoint is_prefix (p s : str) : bool :=
  match p, s with
  | [], _ => true
  | a :: p', b :: s' => (a =? b) && is_prefix p' s'
  | _, [] => false
  end.

(** [match_indices(p).count()]: non-overlapping occurrences, left to right;
    [skip] characters of the current match are still to be passed. *)
Fixpoint count_matches (p : str) (skip : nat) (s : str) : Z :=
  match s with
  | [] => 0
  | _ :: s' =>
      match skip with
      | S k => count_matches p k s'
      | O => if is_prefix p s then 1 + count_matches p (length p - 1) s'
             else count_matches p 0 s'
      end
  end.

(** [Display] of an unsigned integer: decimal digits, no leading zero.  Twenty
    digits are enough for a [u64]. *)
Fixpoint digits_fuel (fuel : nat) (n : Z) (acc : str) : str :=
  match fuel with
  | O => acc
  | S fuel =>
      let acc := (48 + n mod 10) :: acc in
      if n <? 10 then acc else digits_fuel fuel (n / 10) acc
  end.

Definition show_u64 (n : Z) : str := digits_fuel 20 n [].

(** [{:02}]: at least two digits. *)
Definition show_02 (n : Z) : str :=
  let d := show_u64 n in if (length d <? 2)%nat then 48 :: d else d.

(** Reading decimal digits back. *)
Definition read_digits (s : str) : Z := fold_left (fun v c => 10 * v + (c - 48)) s 0.

Definition is_digit (c : Z) : bool := (48 <=? c) && (c <=? 57).

(** ** Lemmas *)

Lemma is_empty_true {A} (s : list A) : is_empty s = true <-> s = [].
Proof. by destruct s. Qed.

Lemma is_empty_false {A} (s : list A) : is_empty s = false <-> s <> [].
Proof. by destruct s. Qed.

Lemma trim_start_nil s : trim_start s = [] <-> Forall (fun c => is_whitespace c = true) s.
Proof.
  induction s as [|c s IH]; cbn; [by split|].
  rewrite Forall_cons. destruct (is_whitespace c) eqn:E; [naive_solver|]. split; [done|].
  by intros [? _].
Qed.

Lemma trim_start_head c s : trim_start s = c :: drop 1 (trim_start s) -> is_whitespace c = false.
Proof.
  induction s as [|d s IH]; cbn; [done|]. destruct (is_whitespace d) eqn:E; [done|].
  intros [= <-]. done.
Qed.

Lemma trim_empty s : is_empty (trim s) = true <-> Forall (fun c => is_whitespace c = true) s.
Proof.
  rewrite is_empty_true. unfold trim. split.
  - intros H. apply (f_equal (@rev Z)) in H. rewrite rev_involutive in H. cbn in H.
    apply trim_start_nil in H. apply trim_start_nil.
    destruct (trim_start s) as [|c t] eqn:E; [done|].
    pose proof (trim_start_head c s) as Hh. rewrite E in Hh. cbn in Hh. specialize (Hh eq_refl).
    rewrite Forall_forall in H. specialize (H c). rewrite H in Hh; [done|].
    cbn. rewrite list_elem_of_In, in_app_iff. right. by left.
  - intros H. by rewrite (proj2 (trim_start_nil s) H).
Qed.

Lemma digits_fuel_app fuel n acc : digits_fuel fuel n acc = digits_fuel fuel n [] ++ acc.
Proof.
  revert n acc. induction fuel as [|f IH]; intros n acc; cbn; [done|].
  destruct (n <? 10); [done|]. rewrite IH, (IH _ [_]), <- app_assoc. done.
Qed.

Lemma read_digits_app s t : read_digits (s ++ t) = fold_left (fun v c => 10 * v + (c - 48)) t (read_digits s).
Proof. unfold read_digits. apply fold_left_app. Qed.

Lemma digits_fuel_read fuel n :
  0 <= n < 10 ^ Z.of_nat fuel -> read_digits (digits_fuel fuel n []) = n.
Proof.
  revert n. induction fuel as [|f IH]; intros n Hn; [cbn in Hn; cbn; lia|].
  cbn [digits_fuel]. destruct (Z.ltb_spec n 10) as [H|H].
  - rewrite Z.mod_small by lia. cbn. lia.
  - rewrite digits_fuel_app, read_digits_app, IH.
    + cbn. pose proof (Z.div_mod n 10 ltac:(lia)). lia.
    + split; [apply Z.div_pos; lia|]. apply Z.div_lt_upper_bound; [lia|].
      rewrite Nat2Z.inj_succ, Z.pow_succ_r in Hn by lia. lia.
Qed.

Lemma digits_fuel_digits fuel n : Forall (fun c => is_digit c = true) (digits_fuel fuel n []).
Proof.
  revert n. induction fuel as [|f IH]; intros n; cbn; [done|].
  assert (is_digit (48 + n mod 10) = true).
  { unfold is_digit. pose proof (Z.mod_pos_bound n 10 ltac:(lia)).
    rewrite (proj2 (Z.leb_le _ _)), (proj2 (Z.leb_le _ _)) by lia. done. }
  destruct (n <? 10); [by repeat constructor|]. rewrite digits_fuel_app, Forall_app.
  split; [done|by repeat constructor].
Qed.

(** Decimal formatting round-trips for every [u64]. *)
Lemma show_u64_read n : in_ty U64 n -> read_digits (show_u64 n) = n.
Proof. intros H. apply digits_fuel_read. ty. Qed.

Lemma show_02_two n : 0 <= n < 100 ->
  show_02 n = [48 + n / 10; 48 + n mod 10] /\ read_digits (show_02 n) = n.
Proof.
  intros Hn. assert (E : show_02 n = [48 + n / 10; 48 + n mod 10]).
  { unfold show_02, show_u64. cbn [digits_fuel]. destruct (Z.ltb_spec n 10).
    - cbn. by rewrite Z.div_small by lia.
    - assert (n / 10 < 10) by (apply Z.div_lt_upper_bound; lia).
      assert (0 <= n / 10) by (apply Z.div_pos; lia).
      rewrite (proj2 (Z.ltb_lt (n / 10) 10)) by lia. cbn. by rewrite (Z.mod_small (n / 10)) by lia. }
  split; [done|]. rewrite E. cbn. pose proof (Z.div_mod n 10 ltac:(lia)). lia.
Qed.

Lemma split_ws_spec acc s :
  Forall (fun c => is_whitespace c = false) acc ->
  Forall (fun w => w <> [] /\ Forall (fun c => is_whitespace c = false) w) (split_ws acc s) /\
  concat (split_ws acc s) = acc ++ List.filter (fun c => negb (is_whitespace c)) s.
Proof.
  revert acc. induction s as [|c s IH]; intros acc Hacc; cbn.
  - destruct acc; cbn; [done|]. rewrite !app_nil_r.
    split; [|done]. constructor; [done|constructor].
  - destruct (is_whitespace c) eqn:E; cbn.
    + destruct (IH [] ltac:(done)) as [H1 H2].
      destruct (is_empty acc) eqn:Ea.
      * apply is_empty_true in Ea as ->. by rewrite H2.
      * apply is_empty_false in Ea. cbn. rewrite H2.
        split; [|done]. by constructor.
    + destruct (IH (acc ++ [c])) as [H1 H2]; [rewrite Forall_app; by repeat constructor|].
      split; [done|]. by rewrite H2, <- app_assoc.
Qed.

Lemma is_prefix_spec p s : is_prefix p s = true <-> exists t, s = p ++ t.
Proof.
  revert s. induction p as [|a p IH]; intros s; cbn; [naive_solver|].
  destruct s as [|b s]; [naive_solver|]. rewrite andb_true_iff, Z.eqb_eq, IH. naive_solver.
Qed.
