(* ===== verification/Drafting.v ===== *)
(** * Drafting: draft validation and publication slots

    [drafting.rs]: the shape and tier floors of a content draft, and the UTC
    slot arithmetic that schedules publications.  The theorems show that a draft
    passes precisely when it meets every requirement, and that a slot is the
    least boundary strictly after the current time. *)

From S2P Require Import Prelude Chars.

Definition SECONDS_PER_DAY : Z := 86400.

Inductive DraftingError :=
| InvalidSlots | InvalidCadence | TimestampOverflow | EmptyQuestion | EmptyDescription
| EmptyVideoScript | EmptySlug | InvalidSeed | InvalidFee | InvalidMinVotes | InvalidWindow
| SeedBelowFloor | VotesBelowFloor.

Inductive DraftSource := Template | Llm.

Inductive DraftTier := Daily | Flash.

Record DraftSpec := {
  question : str; description : str; video_script : str; slug : str; draft_tier : DraftTier;
  seed : Z; fee : Z; min_votes_to_resolve : Z; open_secs : Z; hidden_window_secs : Z }.

Definition validate (d : DraftSpec) : outcome DraftingError unit :=
  if is_empty (trim (question d)) then Err EmptyQuestion else
  if is_empty (trim (description d)) then Err EmptyDescription else
  if is_empty (trim (video_script d)) then Err EmptyVideoScript else
  if is_empty (trim (slug d)) then Err EmptySlug else
  if seed d <=? 0 then Err InvalidSeed else
  if 10000 <? fee d then Err InvalidFee else
  if min_votes_to_resolve d <=? 0 then Err InvalidMinVotes else
  if (open_secs d =? 0) || (open_secs d <=? hidden_window_secs d) then Err InvalidWindow else
  Ok tt.

Definition validate_floors (d : DraftSpec) (seed_floor_micro min_votes_floor : Z) :
    outcome DraftingError unit :=
  _ ← validate d;
  if seed d <? seed_floor_micro then Err SeedBelowFloor else
  if min_votes_to_resolve d <? min_votes_floor then Err VotesBelowFloor else
  Ok tt.

(** [div_euclid] and [rem_euclid] by a positive divisor are the floored ones. *)
Definition next_daily_slot (unix_seconds slots : Z) : outcome DraftingError Z :=
  if slots =? 0 then Err InvalidSlots else
  let now := unix_seconds in
  day ← arith I128 (now / SECONDS_PER_DAY);
  second ← arith I128 (now mod SECONDS_PER_DAY);
  interval ← sdiv I128 SECONDS_PER_DAY slots;
  index ← sdiv I128 second interval;
  next_index ← arith I128 (index + 1);
  next ← (if next_index <? slots then
            start ← arith I128 (day * SECONDS_PER_DAY);
            offset ← arith I128 (next_index * interval);
            arith I128 (start + offset)
          else
            tomorrow ← arith I128 (day + 1);
            arith I128 (tomorrow * SECONDS_PER_DAY));
  ok_or (checked I64 next) TimestampOverflow.

Definition next_flash_slot (unix_seconds cadence_secs : Z) : outcome DraftingError Z :=
  if cadence_secs =? 0 then Err InvalidCadence else
  q ← arith I128 (unix_seconds / cadence_secs);
  next ← arith I128 (q + 1);
  next ← ok_or (checked I128 (next * cadence_secs)) TimestampOverflow;
  ok_or (checked I64 next) TimestampOverflow.

(** ** Specification *)

(** A text with at least one character that is not whitespace. *)
Definition has_text (s : str) : Prop := exists c, c ∈ s /\ is_whitespace c = false.

Definition draft_ok (d : DraftSpec) : Prop :=
  has_text (question d) /\ has_text (description d) /\ has_text (video_script d) /\
  has_text (slug d) /\ 0 < seed d /\ fee d <= 10000 /\ 0 < min_votes_to_resolve d /\
  hidden_window_secs d < open_secs d.

(** The starts of a day with [slots] slots: midnight plus [i * floor(86400/slots)]. *)
Definition daily_boundary (slots b : Z) : Prop :=
  exists d i, 0 <= i < slots /\ b = d * SECONDS_PER_DAY + i * (SECONDS_PER_DAY / slots).

Definition flash_boundary (cadence b : Z) : Prop := exists k, b = k * cadence.

(** [n] is the least boundary strictly after [now]. *)
Definition next_boundary (boundary : Z -> Prop) (now n : Z) : Prop :=
  boundary n /\ now < n /\ forall b, boundary b -> now < b -> n <= b.

(** ** Lemmas *)

Lemma trim_has_text s : is_empty (trim s) = false <-> has_text s.
Proof.
  rewrite <- not_true_iff_false, trim_empty. unfold has_text. split.
  - intros H. apply not_Forall_Exists in H; [|apply _].
    apply Exists_exists in H as (c & Hc & Hw). exists c. split; [done|].
    by apply not_true_is_false.
  - intros (c & Hc & Hw) H. rewrite Forall_forall in H. rewrite H in Hw; done.
Qed.

Lemma interval_bounds slots : 0 < slots <= 65535 ->
  1 <= SECONDS_PER_DAY / slots <= 86400 /\ SECONDS_PER_DAY / slots * slots <= SECONDS_PER_DAY.
Proof.
  intros Hs. unfold SECONDS_PER_DAY. pose proof (floor_div_spec 86400 slots ltac:(lia)).
  split_and!; [apply Z.div_le_lower_bound; lia | apply Z.div_le_upper_bound; nia | lia].
Qed.

(** The slot chosen inside the current day, or the next midnight. *)
Definition daily_next (now slots : Z) : Z :=
  let iv := SECONDS_PER_DAY / slots in
  let k := now mod SECONDS_PER_DAY / iv + 1 in
  if k <? slots then now / SECONDS_PER_DAY * SECONDS_PER_DAY + k * iv
  else (now / SECONDS_PER_DAY + 1) * SECONDS_PER_DAY.

Lemma daily_next_least now slots :
  0 < slots <= 65535 -> next_boundary (daily_boundary slots) now (daily_next now slots).
Proof.
  intros Hs. destruct (interval_bounds slots Hs) as [Hiv Hfit]. unfold daily_next.
  set (iv := SECONDS_PER_DAY / slots) in *. unfold SECONDS_PER_DAY in *.
  pose proof (Z.div_mod now 86400 ltac:(lia)) as Hd.
  pose proof (Z.mod_pos_bound now 86400 ltac:(lia)) as Hm.
  set (day := now / 86400) in *. set (sec := now mod 86400) in *.
  pose proof (floor_div_spec sec iv ltac:(lia)) as Hq. set (k := sec / iv) in *.
  assert (Hk : 0 <= k) by (apply Z.div_pos; lia).
  assert (Hleast : forall d i, 0 <= i < slots -> now < d * 86400 + i * iv ->
            day < d \/ (d = day /\ k + 1 <= i)).
  { intros d i Hi Hb. assert (i * iv <= 86400 - iv) by nia.
    destruct (Z.le_gt_cases d day); [|by left]. right.
    destruct (Z.eq_dec d day) as [->|]; [|nia]. split; [done|]. nia. }
  destruct (Z.ltb_spec (k + 1) slots) as [Hlt|Hge].
  - split_and!; [exists day, (k + 1); split; [lia|done] | nia |].
    intros b (d & i & Hi & ->) Hb. fold iv in Hb |- *. unfold SECONDS_PER_DAY in *.
    destruct (Hleast d i Hi Hb) as [?|[-> ?]]; [|nia].
    assert ((k + 1) * iv <= 86400) by nia. assert (0 <= i * iv) by nia. lia.
  - split_and!; [exists (day + 1), 0; split; [lia|unfold SECONDS_PER_DAY; lia] | lia |].
    intros b (d & i & Hi & ->) Hb. fold iv in Hb |- *. unfold SECONDS_PER_DAY in *.
    destruct (Hleast d i Hi Hb) as [?|[-> ?]]; [|lia].
    assert (0 <= i * iv) by nia. lia.
Qed.

Lemma next_daily_slot_eq now slots :
  in_ty I64 now -> 0 < slots <= 65535 ->
  next_daily_slot now slots = ok_or (checked I64 (daily_next now slots)) TimestampOverflow.
Proof.
  intros Hn Hs. unfold next_daily_slot. destruct (Z.eqb_spec slots 0); [lia|].
  destruct (interval_bounds slots Hs) as [Hiv Hfit]. unfold daily_next.
  unfold SECONDS_PER_DAY in *.
  pose proof (Z.div_mod now 86400 ltac:(lia)) as Hd.
  pose proof (Z.mod_pos_bound now 86400 ltac:(lia)) as Hm.
  run. run. rewrite sdiv_in; [|lia|rewrite quot_div_nonneg by lia; ty].
  cbn [mbind outcome_bind]. rewrite (quot_div_nonneg 86400) by lia.
  set (iv := 86400 / slots) in *. set (sec := now mod 86400) in *. set (day := now / 86400) in *.
  assert (Hk : 0 <= sec / iv <= 86400)
    by (split; [apply Z.div_pos; lia|apply Z.div_le_upper_bound; nia]).
  rewrite sdiv_in; [|lia|rewrite quot_div_nonneg by lia; ty].
  cbn [mbind outcome_bind]. rewrite quot_div_nonneg by lia. set (k := sec / iv) in *. run.
  assert (0 <= (k + 1) * iv <= 86401 * 86400) by nia.
  destruct (k + 1 <? slots); repeat (rewrite arith_in by ty; cbn [mbind outcome_bind]); done.
Qed.

Lemma flash_next_least now c :
  0 < c -> next_boundary (flash_boundary c) now ((now / c + 1) * c).
Proof.
  intros Hc. pose proof (floor_div_spec now c Hc). set (q := now / c) in *.
  split_and!; [by eexists|lia|].
  intros b [k ->] Hb. apply Z.mul_le_mono_nonneg_r; [lia|].
  assert (q < k); [|lia]. apply (Z.mul_lt_mono_pos_r c); lia.
Qed.

Lemma validate_cases d :
  in_ty U64 (open_secs d) -> in_ty U64 (hidden_window_secs d) ->
  (draft_ok d /\ validate d = Ok tt) \/
  (~ draft_ok d /\ exists e, validate d = Err e /\ e <> SeedBelowFloor /\ e <> VotesBelowFloor).
Proof.
  intros Ho Hh. unfold validate, draft_ok. rewrite <- !trim_has_text.
  destruct (is_empty (trim (question d))); [right; naive_solver|].
  destruct (is_empty (trim (description d))); [right; naive_solver|].
  destruct (is_empty (trim (video_script d))); [right; naive_solver|].
  destruct (is_empty (trim (slug d))); [right; naive_solver|].
  destruct (Z.leb_spec (seed d) 0); [right; split; [lia|naive_solver]|].
  destruct (Z.ltb_spec 10000 (fee d)); [right; split; [lia|naive_solver]|].
  destruct (Z.leb_spec (min_votes_to_resolve d) 0); [right; split; [lia|naive_solver]|].
  destruct (Z.eqb_spec (open_secs d) 0); [right; split; [ty|naive_solver]|].
  destruct (Z.leb_spec (open_secs d) (hidden_window_secs d)); [right; split; [lia|naive_solver]|].
  left. split; [|done]. split_and!; done || lia.
Qed.

(** ** Properties *)

(** both slot functions return the least boundary of their schedule strictly
    after the current time, fail with TimestampOverflow precisely when that
    boundary does not fit in 64 bits, refuse a zero slot count or cadence with
    their own error, and never overflow or divide by zero. *)
Theorem next_slots_are_least (now slots cadence : Z) :
  in_ty I64 now -> in_ty U16 slots -> in_ty U64 cadence ->
  (if bool_decide (slots = 0) then next_daily_slot now slots = Err InvalidSlots
   else exists n, next_boundary (daily_boundary slots) now n /\
          next_daily_slot now slots =
            if bool_decide (in_ty I64 n) then Ok n else Err TimestampOverflow) /\
  (if bool_decide (cadence = 0) then next_flash_slot now cadence = Err InvalidCadence
   else exists n, next_boundary (flash_boundary cadence) now n /\
          next_flash_slot now cadence =
            if bool_decide (in_ty I64 n) then Ok n else Err TimestampOverflow).
Proof.
  intros Hn Hs Hc.
  assert (Hck : forall z, ok_or (checked I64 z) TimestampOverflow =
            if bool_decide (in_ty I64 z) then Ok z else Err TimestampOverflow).
  { intros z. case_bool_decide; [by rewrite checked_in|by rewrite checked_out]. }
  split; case_bool_decide as E; try by subst.
  - exists (daily_next now slots). split; [apply daily_next_least; ty|].
    rewrite next_daily_slot_eq by ty. apply Hck.
  - exists ((now / cadence + 1) * cadence). split; [apply flash_next_least; ty|].
    unfold next_flash_slot. destruct (Z.eqb_spec cadence 0); [done|].
    pose proof (floor_div_spec now cadence ltac:(ty)) as Hq.
    assert (in_ty I64 (now / cadence)).
    { split; [apply Z.div_le_lower_bound; ty|]. apply Z.div_le_upper_bound; ty. }
    run. run. run. apply Hck.
Qed.

Lemma next_slots_are_least_witness :
  next_daily_slot 86399 5 = Ok 86400 /\
  exists n, next_boundary (daily_boundary 5) 86399 n /\
    next_daily_slot 86399 5 = if bool_decide (in_ty I64 n) then Ok n else Err TimestampOverflow.
Proof.
  split; [vm_compute; reflexivity|].
  exact (proj1 (next_slots_are_least 86399 5 3600 ltac:(ty) ltac:(ty) ltac:(ty))).
Defined.

(** a draft passes publication exactly when every text has a non-blank
    character, the numbers are in range, the hidden window is shorter than the
    open window and both tier floors are met; otherwise an error is returned,
    and it is a floor error only for a draft whose shape is valid. *)
Theorem validate_floors_exact (d : DraftSpec) (seed_floor votes_floor : Z) :
  in_ty U64 (open_secs d) -> in_ty U64 (hidden_window_secs d) ->
  (validate_floors d seed_floor votes_floor = Ok tt <->
     draft_ok d /\ seed_floor <= seed d /\ votes_floor <= min_votes_to_resolve d) /\
  no_panic (validate_floors d seed_floor votes_floor) /\
  (validate_floors d seed_floor votes_floor = Err SeedBelowFloor <->
     draft_ok d /\ seed d < seed_floor) /\
  (validate_floors d seed_floor votes_floor = Err VotesBelowFloor <->
     draft_ok d /\ seed_floor <= seed d /\ min_votes_to_resolve d < votes_floor).
Proof.
  intros Ho Hh. unfold validate_floors, no_panic.
  destruct (validate_cases d Ho Hh) as [[Hok ->]|[Hno (e & -> & He1 & He2)]]; cbn [mbind outcome_bind].
  - destruct (Z.ltb_spec (seed d) seed_floor), (Z.ltb_spec (min_votes_to_resolve d) votes_floor);
      split_and!; try done; split; (done || lia || (intros; split_and!; done || lia)).
  - naive_solver.
Qed.

Definition demo_draft : DraftSpec :=
  {| question := lit "Will the subway open?"; description := lit "Transit."; slug := lit "subway";
     video_script := lit "Track it."; draft_tier := Daily; seed := 2000000; fee := 100;
     min_votes_to_resolve := 3; open_secs := 3600; hidden_window_secs := 300 |}.

Lemma validate_floors_exact_witness :
  draft_ok demo_draft /\ validate_floors demo_draft 2000001 3 = Err SeedBelowFloor.
Proof.
  destruct (validate_floors_exact demo_draft 2000000 3) as (H & _);
    [vm_compute; split; discriminate | vm_compute; split; discriminate |].
  destruct (validate_floors_exact demo_draft 2000001 3) as (_ & _ & K & _);
    [vm_compute; split; discriminate | vm_compute; split; discriminate |].
  destruct (proj1 H) as [Hd _]; [vm_compute; reflexivity|].
  split; [exact Hd|]. apply K. split; [exact Hd|]. vm_compute. reflexivity.
Defined.
