(* ===== verification/Moderation.v ===== *)
(** * Moderation: comment normalisation, screening and mentions

    [moderation.rs] and [mentions.rs].  Unicode normalisation (NFKC), the Format
    category, lower-casing and SHA-256 are tables and functions outside the
    repository: they are variables of the section.  The theorems show that a
    normalised body is its words joined by single spaces, that screening decides
    in the documented order, and that mention extraction equals a one-pass
    reference scanner. *)

From S2P Require Import Prelude Chars.

(** ** UTF-8 *)

(** The encoding of one scalar value. *)
Definition utf8_char (c : Z) : list Z :=
  if c <? 128 then [c]
  else if c <? 2048 then [192 + c / 64; 128 + c mod 64]
  else if c <? 65536 then [224 + c / 4096; 128 + c / 64 mod 64; 128 + c mod 64]
  else [240 + c / 262144; 128 + c / 4096 mod 64; 128 + c / 64 mod 64; 128 + c mod 64].

(** [str::as_bytes]. *)
Definition as_bytes (s : str) : list Z := concat (map utf8_char s).

Definition is_continuation (b : Z) : bool := (128 <=? b) && (b <? 192).

(** [is_char_boundary]: the end of the string or the first byte of a character. *)
Definition is_char_boundary (bytes : list Z) (i : nat) : bool :=
  match bytes !! i with
  | Some b => negb (is_continuation b)
  | None => (i =? length bytes)%nat
  end.

(** [body[start..end]] panics off a character boundary. *)
Definition str_slice (bytes : list Z) (start stop : nat) : outcome Empty_set (list Z) :=
  if is_char_boundary bytes start && is_char_boundary bytes stop
  then Ok (take (stop - start) (drop start bytes)) else Panic.

(** Lower-case hexadecimal of a byte string. *)
Definition hex_digit (n : Z) : Z := if n <? 10 then 48 + n else 87 + n.

Definition hex (bytes : list Z) : str :=
  concat (map (fun b => [hex_digit (b / 16); hex_digit (b mod 16)]) bytes).

(** ** Mentions *)

Definition is_handle_byte (b : Z) : bool :=
  is_digit b || ((65 <=? b) && (b <=? 90)) || ((97 <=? b) && (b <=? 122)) || (b =? 95).

Definition to_ascii_lowercase (b : Z) : Z := if (65 <=? b) && (b <=? 90) then b + 32 else b.

(** The inner [while]: how many handle bytes follow. *)
Fixpoint handle_len (s : list Z) : nat :=
  match s with
  | b :: s' => if is_handle_byte b then S (handle_len s') else O
  | [] => O
  end.

(** The outer [while]; every pass advances [index], so the length of the body
    plus one is enough fuel. *)
Fixpoint mention_loop (fuel : nat) (bytes : list Z) (max : Z) (in_code : bool) (index : nat)
    (seen : gset (list Z)) (mentions : list (list Z)) : outcome Empty_set (list (list Z)) :=
  match fuel with
  | O => Panic
  | S fuel =>
      match bytes !! index with
      | None => Ok mentions
      | Some b =>
          if b =? 96 then mention_loop fuel bytes max (negb in_code) (index + 1) seen mentions
          else if in_code || negb (b =? 64)
          then mention_loop fuel bytes max in_code (index + 1) seen mentions
          else
            let start := (index + 1)%nat in
            let stop := (start + handle_len (drop start bytes))%nat in
            let len := (stop - start)%nat in
            let next := (stop `max` (index + 1))%nat in
            if ((3 <=? len) && (len <=? 32))%nat then
              slice ← str_slice bytes start stop;
              let handle := map to_ascii_lowercase slice in
              if bool_decide (handle ∈ seen)
              then mention_loop fuel bytes max in_code next seen mentions
              else
                let mentions := mentions ++ [handle] in
                if zlen mentions =? max then Ok mentions
                else mention_loop fuel bytes max in_code next ({[handle]} ∪ seen) mentions
            else mention_loop fuel bytes max in_code next seen mentions
      end
  end.

Definition parse_mentions (body : str) (max : Z) : outcome Empty_set (list (list Z)) :=
  if max =? 0 then Ok [] else
  let bytes := as_bytes body in
  mention_loop (S (length bytes)) bytes max false 0 ∅ [].

(** ** Comment moderation *)

Record ModerationRules := {
  max_comment_len_chars : Z; max_links : Z; max_comments_per_window : Z }.

Inductive Screen := Visible | Shadow (reason : string) | Blocked (reason : string).

Definition retained_control (character : Z) : bool := (character =? 10) || (character =? 9).

Definition link_count (normalized : str) : Z :=
  let links := count_matches (lit "http://") 0 normalized +
               count_matches (lit "https://") 0 normalized in
  if fits U32 links then links else imax U32.

(** One step of the [for] loop of [normalize_body]. *)
Definition normalize_step (st : str * bool) (character : Z) : str * bool :=
  let '(normalized, pending_space) := st in
  if is_whitespace character then (normalized, negb (is_empty normalized))
  else
    let normalized := if pending_space then normalized ++ [32] else normalized in
    (normalized ++ [character], false).

Section Unicode.
(** [UnicodeNormalization::nfkc], the Format general category,
    [char::to_lowercase] and [Sha256::digest]. *)
Variable nfkc : str -> str.
Variable is_format : Z -> bool.
Variable to_lowercase : Z -> list Z.
Variable sha256 : list Z -> list Z.

Definition removed_character (character : Z) : bool :=
  is_format character || (is_control character && negb (retained_control character)).

(** The characters the normalisation loop sees. *)
Definition normal_stream (body : str) : str :=
  List.filter (fun c => negb (removed_character c)) (concat (map to_lowercase (nfkc body))).

Definition normalize_body (body : str) : str :=
  (fold_left normalize_step (normal_stream body) ([], false)).1.

Definition sanitize_for_storage (body : str) : str :=
  List.filter (fun c => negb (removed_character c)) body.

Definition body_hash (body : str) : str := hex (sha256 (as_bytes (normalize_body body))).

Definition screen (body : str) (recent_same_hash author_posts_in_window : Z)
    (rules : ModerationRules) : Screen :=
  let normalized := normalize_body body in
  if is_empty normalized then Blocked "empty" else
  if max_comment_len_chars rules <? (if fits U32 (zlen body) then zlen body else imax U32)
  then Blocked "too_long" else
  if max_comments_per_window rules <=? author_posts_in_window then Blocked "rate" else
  if max_links rules <? link_count normalized then Shadow "links" else
  if 0 <? recent_same_hash then Shadow "duplicate" else
  Visible.
End Unicode.

(** ** Reference definitions *)

(** Words joined by single spaces. *)
Fixpoint join_words (ws : list str) : str :=
  match ws with
  | [] => []
  | [w] => w
  | w :: ws => w ++ 32 :: join_words ws
  end.

(** The handles of a byte string, in order: at every [@] outside backquotes, the
    run of handle bytes that follows, when it has 3 to 32 of them. *)
Fixpoint handles (in_code : bool) (s : list Z) : list (list Z) :=
  match s with
  | [] => []
  | b :: s' =>
      if b =? 96 then handles (negb in_code) s'
      else if negb in_code && (b =? 64) && (3 <=? handle_len s')%nat && (handle_len s' <=? 32)%nat
      then map to_ascii_lowercase (take (handle_len s') s') :: handles in_code s'
      else handles in_code s'
  end.

(** First occurrences, in order. *)
Fixpoint first_occurrences (seen : gset (list Z)) (l : list (list Z)) : list (list Z) :=
  match l with
  | [] => []
  | h :: l =>
      if bool_decide (h ∈ seen) then first_occurrences seen l
      else h :: first_occurrences ({[h]} ∪ seen) l
  end.

(** A stored handle: 3 to 32 lower-case ASCII letters, digits or underscores. *)
Definition handle_ok (h : list Z) : Prop :=
  (3 <= length h <= 32)%nat /\
  Forall (fun b => is_handle_byte b = true /\ to_ascii_lowercase b = b) h.

Example mention_examples :
  parse_mentions (lit "hi @Alice `@Bob_1` @ab, @alice @CAROL_9@dave") 2 =
    Ok [lit "alice"; lit "carol_9"].
Proof. vm_compute. reflexivity. Qed.

(** ** Lemmas *)

Lemma join_words_snoc ws w : ws <> [] -> join_words (ws ++ [w]) = join_words ws ++ 32 :: w.
Proof.
  induction ws as [|v ws IH]; [done|]. intros _. destruct ws as [|v' ws]; [done|].
  cbn [app join_words] in *. rewrite IH by done. by rewrite <- app_assoc.
Qed.

Lemma join_words_extend ws w c : join_words (ws ++ [w ++ [c]]) = join_words (ws ++ [w]) ++ [c].
Proof.
  destruct ws as [|v ws]; [done|]. rewrite !join_words_snoc by done. by rewrite <- app_assoc.
Qed.

Lemma join_words_nonempty ws w : w <> [] -> is_empty (join_words (ws ++ [w])) = false.
Proof.
  intros Hw. destruct ws as [|v ws]; [by destruct w|]. rewrite join_words_snoc by done.
  by destruct (join_words (v :: ws)).
Qed.

Lemma join_words_empty ws (P : str -> Prop) :
  Forall (fun w => w <> [] /\ P w) ws -> is_empty (join_words ws) = true <-> ws = [].
Proof.
  destruct 1 as [|w ws [Hne _] _]; [done|]. split; [|done].
  destruct ws; cbn; by destruct w.
Qed.

(** The loop in the two states it can be in after the first word: inside a word,
    or after one. *)
Lemma normalize_loop s ws acc : acc <> [] ->
  (fold_left normalize_step s (join_words (ws ++ [acc]), false)).1 = join_words (ws ++ split_ws acc s) /\
  (fold_left normalize_step s (join_words (ws ++ [acc]), true)).1 =
    join_words ((ws ++ [acc]) ++ split_ws [] s).
Proof.
  revert ws acc. induction s as [|c s IH]; intros ws acc Hacc; cbn [fold_left split_ws].
  - rewrite (proj2 (is_empty_false acc)) by done. cbn. by rewrite app_nil_r.
  - unfold normalize_step at 2 4. destruct (is_whitespace c).
    + rewrite join_words_nonempty by done. cbn [negb is_empty].
      rewrite (proj2 (is_empty_false acc)) by done.
      split; [|by apply IH]. etrans; [by apply (IH ws acc)|]. by rewrite <- app_assoc.
    + cbn [app]. split.
      * rewrite <- join_words_extend. apply (IH ws (acc ++ [c])). by destruct acc.
      * rewrite <- app_assoc. cbn [app].
        replace (join_words (ws ++ [acc]) ++ [32; c]) with (join_words ((ws ++ [acc]) ++ [[c]]))
          by (rewrite join_words_snoc; [done|by destruct ws]).
        by apply (IH (ws ++ [acc]) [c]).
Qed.

Lemma normalize_words s :
  (fold_left normalize_step s ([], false)).1 = join_words (split_whitespace s).
Proof.
  unfold split_whitespace. induction s as [|c s IH]; [done|]. cbn [fold_left split_ws].
  unfold normalize_step at 2. destruct (is_whitespace c); [done|]. cbn [app is_empty].
  by apply (normalize_loop s [] [c]).
Qed.

Lemma handle_byte_range b : is_handle_byte b = true -> 48 <= b <= 122 /\ b <> 96 /\ b <> 64.
Proof. unfold is_handle_byte, is_digit. lia. Qed.

Lemma handle_byte_lower b :
  is_handle_byte b = true ->
  is_handle_byte (to_ascii_lowercase b) = true /\
  to_ascii_lowercase (to_ascii_lowercase b) = to_ascii_lowercase b.
Proof.
  unfold is_handle_byte, is_digit, to_ascii_lowercase. intros H.
  destruct ((65 <=? b) && (b <=? 90)) eqn:E.
  - replace ((65 <=? b + 32) && (b + 32 <=? 90)) with false by lia. split; lia.
  - rewrite E. split; [lia|done].
Qed.

Lemma handle_len_take s : Forall (fun b => is_handle_byte b = true) (take (handle_len s) s).
Proof.
  induction s as [|b s IH]; cbn; [done|]. destruct (is_handle_byte b) eqn:E; cbn; [|done].
  by constructor.
Qed.

Lemma handle_len_le s : (handle_len s <= length s)%nat.
Proof. induction s as [|b s IH]; cbn; [lia|]. destruct (is_handle_byte b); lia. Qed.

(** Passing over handle bytes changes nothing for the scanner. *)
Lemma handles_skip ic s : handles ic (drop (handle_len s) s) = handles ic s.
Proof.
  induction s as [|b s IH]; cbn; [done|]. destruct (is_handle_byte b) eqn:E; cbn [drop]; [|done].
  apply handle_byte_range in E. rewrite (proj2 (Z.eqb_neq b 96)), (proj2 (Z.eqb_neq b 64)) by lia.
  by rewrite andb_false_r.
Qed.

Lemma handles_ok ic s : Forall handle_ok (handles ic s).
Proof.
  revert ic. induction s as [|b s IH]; intros ic; cbn [handles]; [done|].
  destruct (b =? 96); [done|]. case_if; [|done]. constructor; [|done].
  rewrite !andb_true_iff, !Nat.leb_le in Hc. split.
  - rewrite length_map, length_take. pose proof (handle_len_le s). lia.
  - rewrite Forall_map. eapply Forall_impl; [apply handle_len_take|].
    intros x Hx. by apply handle_byte_lower.
Qed.

(** An ASCII byte is never followed by a continuation byte. *)
Fixpoint no_orphan (l : list Z) : Prop :=
  match l with
  | [] => True
  | a :: t => (a < 128 -> forall b, head t = Some b -> is_continuation b = false) /\ no_orphan t
  end.

Lemma as_bytes_no_orphan s : Forall scalar_value s ->
  no_orphan (as_bytes s) /\ forall b, head (as_bytes s) = Some b -> is_continuation b = false.
Proof.
  unfold as_bytes, scalar_value, is_continuation.
  induction 1 as [|c s Hc _ [IH1 IH2]]; cbn [map concat]; [done|]. unfold utf8_char.
  pose proof (Z.mod_pos_bound c 64 ltac:(lia)). pose proof (Z.mod_pos_bound (c / 64) 64 ltac:(lia)).
  pose proof (Z.mod_pos_bound (c / 4096) 64 ltac:(lia)).
  pose proof (Z.div_pos c 64 ltac:(lia) ltac:(lia)).
  pose proof (Z.div_pos c 4096 ltac:(lia) ltac:(lia)).
  pose proof (Z.div_pos c 262144 ltac:(lia) ltac:(lia)).
  destruct (Z.ltb_spec c 128); [|destruct (Z.ltb_spec c 2048); [|destruct (Z.ltb_spec c 65536)]];
    cbn [app no_orphan head]; (split; [split_and!; try done; lia|]); intros b [= <-]; lia.
Qed.

Lemma no_orphan_lookup l i a b :
  no_orphan l -> l !! i = Some a -> l !! S i = Some b -> a < 128 -> is_continuation b = false.
Proof.
  revert i. induction l as [|x l IH]; intros i Hl Ha Hb Hlt; [done|]. destruct Hl as [Hx Hl].
  destruct i as [|i]; cbn in Ha, Hb; [|by eapply IH]. simplify_eq.
  apply Hx; [done|]. by destruct l.
Qed.

(** The slice of a handle is on character boundaries. *)
Lemma handle_slice bytes start :
  no_orphan bytes -> (start <= length bytes)%nat -> (3 <= handle_len (drop start bytes))%nat ->
  str_slice bytes start (start + handle_len (drop start bytes)) =
    Ok (take (handle_len (drop start bytes)) (drop start bytes)).
Proof.
  intros Ho Hle H3. set (n := handle_len (drop start bytes)) in *.
  assert (Hn : (n <= length bytes - start)%nat).
  { unfold n. pose proof (handle_len_le (drop start bytes)). rewrite length_drop in *. lia. }
  assert (Hb : forall i, (i < n)%nat -> exists b, bytes !! (start + i)%nat = Some b /\ is_handle_byte b = true).
  { intros i Hi. destruct (lookup_lt_is_Some_2 bytes (start + i)) as [b Hb]; [lia|].
    exists b. split; [done|]. pose proof (handle_len_take (drop start bytes)) as Hf. fold n in Hf.
    rewrite Forall_lookup in Hf. apply (Hf i). rewrite lookup_take_lt by done.
    by rewrite lookup_drop. }
  assert (B : forall i, (i < n)%nat -> is_char_boundary bytes (start + i) = true).
  { intros i Hi. destruct (Hb i Hi) as (b & Eb & Hh). unfold is_char_boundary. rewrite Eb.
    apply handle_byte_range in Hh. unfold is_continuation. lia. }
  unfold str_slice. rewrite <- (Nat.add_0_r start) at 1. rewrite B by lia.
  replace (is_char_boundary bytes (start + n)) with true; [cbn; f_equal; f_equal; lia|].
  symmetry. unfold is_char_boundary. destruct (bytes !! (start + n)%nat) as [b|] eqn:Eb.
  - destruct (Hb (n - 1)%nat ltac:(lia)) as (a & Ea & Hh). apply handle_byte_range in Hh.
    rewrite (no_orphan_lookup bytes (start + (n - 1)) a b); try done; [|lia].
    by replace (S (start + (n - 1)))%nat with (start + n)%nat by lia.
  - apply lookup_ge_None in Eb. apply Nat.eqb_eq. lia.
Qed.

(** The loop against the reference, from any reachable state. *)
Lemma mention_loop_spec fuel bytes max ic i seen ms :
  no_orphan bytes -> (i <= length bytes)%nat -> (length bytes - i < fuel)%nat -> zlen ms < max ->
  mention_loop fuel bytes max ic i seen ms =
    Ok (ms ++ take (Z.to_nat (max - zlen ms)) (first_occurrences seen (handles ic (drop i bytes)))).
Proof.
  intros Ho. revert ic i seen ms. induction fuel as [|f IH]; intros ic i seen ms Hi Hf Hm; [lia|].
  cbn [mention_loop]. destruct (bytes !! i) as [b|] eqn:Eb.
  2:{ apply lookup_ge_None in Eb. rewrite drop_ge by lia. cbn. by rewrite take_nil, app_nil_r. }
  pose proof (lookup_lt_Some _ _ _ Eb) as Hlt.
  rewrite (drop_S bytes b i Eb). cbn [handles].
  replace (S i) with (i + 1)%nat by lia. set (t := drop (i + 1) bytes).
  destruct (b =? 96); [rewrite IH by lia; done|].
  destruct ic; [cbn [orb negb andb]; rewrite IH by lia; done|]. cbn [orb negb andb].
  destruct (b =? 64); cbn [negb andb]; [|rewrite IH by lia; done].
  pose proof (handle_len_le t) as Hl. unfold t in Hl at 2. rewrite length_drop in Hl.
  replace (i + 1 + handle_len t - (i + 1))%nat with (handle_len t) by lia.
  replace ((i + 1 + handle_len t) `max` (i + 1))%nat with (i + 1 + handle_len t)%nat by lia.
  assert (Hskip : handles false (drop (i + 1 + handle_len t) bytes) = handles false t).
  { rewrite <- (handles_skip false t). unfold t. by rewrite drop_drop. }
  destruct ((3 <=? handle_len t)%nat && (handle_len t <=? 32)%nat) eqn:Hr.
  2:{ rewrite IH by lia. by rewrite Hskip. }
  apply andb_true_iff in Hr as [H3 _]. apply Nat.leb_le in H3.
  unfold t at 1. rewrite handle_slice by (try done; lia). fold t. cbn [mbind outcome_bind].
  set (h := map to_ascii_lowercase (take (handle_len t) t)). cbn [first_occurrences].
  case_bool_decide; [rewrite IH by lia; by rewrite Hskip|].
  rewrite zlen_app. change (zlen [h]) with 1.
  replace (Z.to_nat (max - zlen ms)) with (S (Z.to_nat (max - zlen ms - 1))) by lia. cbn [take].
  destruct (Z.eqb_spec (zlen ms + 1) max).
  - by replace (Z.to_nat (max - zlen ms - 1)) with 0%nat by lia.
  - rewrite IH; [|lia|lia|rewrite zlen_app; change (zlen [h]) with 1; lia].
    rewrite Hskip, zlen_app, <- app_assoc. change (zlen [h]) with 1.
    by replace (max - (zlen ms + 1)) with (max - zlen ms - 1) by lia.
Qed.

Lemma first_occurrences_NoDup seen l :
  NoDup (first_occurrences seen l) /\
  forall h, h ∈ first_occurrences seen l <-> h ∈ l /\ h ∉ seen.
Proof.
  revert seen. induction l as [|x l IH]; intros seen; cbn; [split; [constructor|set_solver]|].
  case_bool_decide as E; destruct (IH seen) as [IH1 IH2], (IH ({[x]} ∪ seen)) as [J1 J2].
  - split; [done|]. set_solver.
  - split; [constructor; [set_solver|done]|]. intros h. rewrite !elem_of_cons, J2.
    destruct (decide (h = x)); set_solver.
Qed.

(** ** Properties *)

(** mention extraction is total and equals the one-pass reference: the first
    occurrences of the handles that stand after an [@] outside backquotes, in
    order, cut to the maximum; so at most [max] mentions come out, all distinct,
    each 3 to 32 lower-case ASCII letters, digits or underscores, and the string
    slice is always on character boundaries. *)
Theorem parse_mentions_reference (body : str) (max : Z) :
  Forall scalar_value body -> in_ty U8 max ->
  exists ms, parse_mentions body max = Ok ms /\
    ms = take (Z.to_nat max) (first_occurrences ∅ (handles false (as_bytes body))) /\
    zlen ms <= max /\ NoDup ms /\ Forall handle_ok ms.
Proof.
  intros Hb Hm. destruct (as_bytes_no_orphan body Hb) as [Ho _].
  destruct (first_occurrences_NoDup ∅ (handles false (as_bytes body))) as [Hnd Hin].
  set (ms := take (Z.to_nat max) (first_occurrences ∅ (handles false (as_bytes body)))).
  exists ms. split_and!; [|done| | |].
  - unfold parse_mentions. destruct (Z.eqb_spec max 0) as [->|]; [done|].
    rewrite mention_loop_spec; [|done|lia|lia|unfold zlen; cbn [length]; ty].
    unfold zlen. cbn [app length Z.of_nat]. by rewrite drop_0, Z.sub_0_r.
  - unfold ms, zlen. rewrite length_take. ty.
  - eapply sublist_NoDup; [done|apply sublist_take].
  - apply Forall_take, Forall_forall. intros h Hh. apply Hin in Hh as [Hh _].
    pose proof (handles_ok false (as_bytes body)) as Hf. rewrite Forall_forall in Hf. by apply Hf.
Qed.

Lemma parse_mentions_reference_witness :
  exists ms, parse_mentions (lit "@Al_1, @al_1") 5 = Ok ms /\ NoDup ms /\ Forall handle_ok ms.
Proof.
  destruct (parse_mentions_reference (lit "@Al_1, @al_1") 5) as (ms & H1 & _ & _ & H2 & H3);
    [unfold scalar_value; apply (bool_decide_unpack _); vm_compute; exact I | ty |].
  exists ms. split; [exact H1|]. split; [exact H2|exact H3].
Defined.

(** for any normalisation and lower-casing tables, a normalised body is the
    words of the filtered character stream joined by single spaces (no leading,
    trailing or repeated blank, so duplicates that differ only in spacing or in
    invisible characters hash alike), and a comment is visible precisely when
    it has a word, is within the length, rate and link limits and repeats no
    recent body. *)
Theorem normalize_and_screen (nfkc : str -> str) (is_format : Z -> bool)
    (to_lowercase : Z -> list Z) (body : str) (recent posts : Z) (rules : ModerationRules) :
  in_ty U32 (zlen body) ->
  let words := split_whitespace (normal_stream nfkc is_format to_lowercase body) in
  let normalized := normalize_body nfkc is_format to_lowercase body in
  normalized = join_words words /\
  Forall (fun w => w <> [] /\ Forall (fun c => is_whitespace c = false) w) words /\
  (screen nfkc is_format to_lowercase body recent posts rules = Visible <->
     words <> [] /\ zlen body <= max_comment_len_chars rules /\
     posts < max_comments_per_window rules /\
     link_count normalized <= max_links rules /\ recent <= 0) /\
  (screen nfkc is_format to_lowercase body recent posts rules = Blocked "empty" <-> words = []).
Proof.
  intros Hlen words normalized.
  assert (Hn : normalized = join_words words) by apply normalize_words.
  destruct (split_ws_spec [] (normal_stream nfkc is_format to_lowercase body) ltac:(done)) as [Hw _].
  split_and!; [done|done| |].
  all: assert (He : is_empty normalized = true <-> words = [])
    by (rewrite Hn; exact (join_words_empty _ _ Hw)).
  all: unfold screen; fold normalized; rewrite (proj2 (fits_iff U32 _)) by done.
  all: destruct (is_empty normalized) eqn:E.
  1, 3: destruct He as [He _]; rewrite He by done; naive_solver.
  all: assert (words <> []) by (intros Hc; apply He in Hc; congruence).
  all: destruct (Z.ltb_spec (max_comment_len_chars rules) (zlen body));
    destruct (Z.leb_spec (max_comments_per_window rules) posts);
    destruct (Z.ltb_spec (max_links rules) (link_count normalized));
    destruct (Z.ltb_spec 0 recent); split; try done; lia || naive_solver lia.
Qed.

Lemma normalize_and_screen_witness :
  screen (fun s => s) (fun c => c =? 8203) (fun c => [to_ascii_lowercase c])
    (lit "  Hello   World ") 0 1
    {| max_comment_len_chars := 32; max_links := 1; max_comments_per_window := 2 |} = Visible.
Proof.
  apply (normalize_and_screen (fun s => s) (fun c => c =? 8203) (fun c => [to_ascii_lowercase c])
    (lit "  Hello   World ") 0 1
    {| max_comment_len_chars := 32; max_links := 1; max_comments_per_window := 2 |}).
  - vm_compute. split; discriminate.
  - split_and!; vm_compute; discriminate || reflexivity.
Defined.
