(* ===== verification/Render.v ===== *)
(** * Render: the share-card and poster vocabulary

    [render_spec.rs]: XML escaping, the money and percent formatters, greedy
    word wrapping and the three spec builders.  The theorems show that escaped
    text is inert and can be read back, that wrapping keeps every character and
    respects its width, that formatted amounts read back to the truncated
    amount, and that every spec stays in its frame with escaped text only. *)

From S2P Require Import Prelude Chars Moderation.

Definition SPEC_VERSION : Z := 1.
Definition BG : str := lit "#0B0B0F".
Definition INK : str := lit "#FFFFFF".
Definition ACCENT : str := lit "#7C5CFF".
Definition MUTED : str := lit "#9A9AA5".
Definition GREEN : str := lit "#2ECC71".
Definition RED : str := lit "#E74C3C".
Definition BRAND : str := lit "OPINIONS".

Record TextRun := { run_x : Z; run_y : Z; run_size : Z; color : str; text : str }.

Record RenderSpec := {
  version : Z; width : Z; height : Z; background : str; runs : list TextRun }.

Record ShareCardInput := {
  handle : str; card_question : str; side_yes : bool; payout_micro : Z; return_bps : Z }.

(** One arm of the [match] of [escape_text]. *)
Definition escape_char (ch : Z) : str :=
  if ch =? 38 then lit "&amp;"
  else if ch =? 60 then lit "&lt;"
  else if ch =? 62 then lit "&gt;"
  else if ch =? 34 then lit "&quot;"
  else if ch =? 39 then lit "&apos;"
  else [ch].

Definition escape_text (input : str) : str := concat (map escape_char input).

(** [unsigned_abs] of an [i64] always fits a [u64]. *)
Definition format_micro_usd (micro : Z) : outcome Empty_set str :=
  abs ← arith U64 (Z.abs micro);
  cents_total ← udiv abs 10000;
  dollars ← udiv cents_total 100;
  let sign := if micro <? 0 then lit "-" else [] in
  Ok (sign ++ lit "$" ++ show_u64 dollars ++ lit "." ++ show_02 (cents_total mod 100)).

Definition format_return_bps (bps : Z) : outcome Empty_set str :=
  abs ← arith U64 (Z.abs bps);
  tenths ← udiv abs 10;
  units ← udiv tenths 10;
  let sign := if bps <? 0 then lit "-" else lit "+" in
  Ok (sign ++ show_u64 units ++ lit "." ++ show_u64 (tenths mod 10) ++ lit "%").

(** [slice::chunks]; each chunk takes at least one element, so the length is
    enough fuel. *)
Fixpoint chunks_fuel (fuel : nat) (n : nat) (l : str) : list str :=
  match fuel with
  | O => []
  | S fuel => if is_empty l then [] else take n l :: chunks_fuel fuel n (drop n l)
  end.

Definition chunks (n : nat) (l : str) : list str := chunks_fuel (length l) n l.

Record WrapState := { lines : list str; line : str; line_len : nat }.

(** The body of the loop over chunks of an over-long word. *)
Definition wrap_chunk (max_chars : nat) (w : WrapState) (chunk : str) : WrapState :=
  if (length chunk =? max_chars)%nat
  then {| lines := lines w ++ [chunk]; line := line w; line_len := line_len w |}
  else {| lines := lines w; line := chunk; line_len := length chunk |}.

(** The body of the loop over words. *)
Definition wrap_word (max_chars : nat) (w : WrapState) (word : str) : WrapState :=
  let word_len := length word in
  if (max_chars <? word_len)%nat then
    let w := if (0 <? line_len w)%nat
             then {| lines := lines w ++ [line w]; line := []; line_len := 0 |} else w in
    fold_left (wrap_chunk max_chars) (chunks max_chars word) w
  else if (line_len w =? 0)%nat then
    {| lines := lines w; line := word; line_len := word_len |}
  else if (line_len w + 1 + word_len <=? max_chars)%nat then
    {| lines := lines w; line := line w ++ [32] ++ word; line_len := line_len w + (1 + word_len) |}
  else
    {| lines := lines w ++ [line w]; line := word; line_len := word_len |}.

Definition wrap_chars (txt : str) (max_chars : nat) : outcome Empty_set (list str) :=
  if (max_chars =? 0)%nat then Panic else
  let w := fold_left (wrap_word max_chars) (split_whitespace txt)
             {| lines := []; line := []; line_len := 0 |} in
  Ok (if (0 <? line_len w)%nat then lines w ++ [line w] else lines w).

Definition run (x y size : Z) (color text : str) : TextRun :=
  {| run_x := x; run_y := y; run_size := size; color := color; text := escape_text text |}.

(** The wrapped lines of a question as runs [step] pixels apart from [top]. *)
Fixpoint line_runs (index top step size : Z) (col : str) (ls : list str) :
    outcome Empty_set (list TextRun) :=
  match ls with
  | [] => Ok []
  | l :: ls =>
      let i := if fits I32 index then index else imax I32 - top in
      offset ← arith I32 (i * step);
      yy ← arith I32 (top + offset);
      rest ← line_runs (index + 1) top step size col ls;
      Ok (run 64 yy size col l :: rest)
  end.

Definition poster_spec (question : str) : outcome Empty_set RenderSpec :=
  wrapped ← wrap_chars question 24;
  body ← line_runs 0 300 90 72 INK (take 8 wrapped);
  Ok {| version := SPEC_VERSION; width := 1080; height := 1350; background := BG;
        runs := [run 64 120 40 ACCENT BRAND] ++ body ++
                [run 64 1290 32 MUTED (lit "opinions.market")] |}.

Definition video_spec (question : str) : outcome Empty_set RenderSpec :=
  wrapped ← wrap_chars question 22;
  body ← line_runs 0 420 100 80 INK (take 10 wrapped);
  Ok {| version := SPEC_VERSION; width := 1080; height := 1920; background := BG;
        runs := [run 64 160 44 ACCENT BRAND] ++ body ++
                [run 64 1840 36 MUTED (lit "opinions.market")] |}.

Definition share_card_spec (input : ShareCardInput) : outcome Empty_set RenderSpec :=
  wrapped ← wrap_chars (card_question input) 38;
  body ← line_runs 0 250 52 40 MUTED (take 3 wrapped);
  payout ← format_micro_usd (payout_micro input);
  ret ← format_return_bps (return_bps input);
  let '(side, side_color) := if side_yes input then (lit "YES", GREEN) else (lit "NO", RED) in
  Ok {| version := SPEC_VERSION; width := 1200; height := 630; background := BG;
        runs := [run 64 90 36 ACCENT BRAND; run 64 170 44 INK (lit "@" ++ handle input)] ++ body ++
                [run 64 470 48 side_color side;
                 run 64 540 40 INK (lit "Payout " ++ payout);
                 run 64 600 40 INK (lit "Return " ++ ret)] |}.

(** [sha256_hex], over the digest function of the hash library. *)
Definition sha256_hex (sha256 : list Z -> list Z) (bytes : list Z) : str := hex (sha256 bytes).

(** ** Specification *)

Definition entities : list (Z * str) :=
  [(38, lit "&amp;"); (60, lit "&lt;"); (62, lit "&gt;"); (34, lit "&quot;"); (39, lit "&apos;")].

Definition entity_at (s : str) : option (Z * str) :=
  List.find (fun e => is_prefix e.2 s) entities.

(** Reading escaped text back: a known entity is its character. *)
Fixpoint unescape (skip : nat) (s : str) : str :=
  match s with
  | [] => []
  | c :: s' =>
      match skip with
      | S k => unescape k s'
      | O => match entity_at s with
             | Some (ch, e) => ch :: unescape (length e - 1) s'
             | None => c :: unescape 0 s'
             end
      end
  end.

(** Text that an XML parser reads as character data: no markup character, and
    every ampersand starts one of the five entities. *)
Fixpoint inert (s : str) : bool :=
  match s with
  | [] => true
  | c :: s' =>
      negb (existsb (Z.eqb c) [60; 62; 34; 39]) &&
      (negb (c =? 38) || match entity_at s with Some _ => true | None => false end) && inert s'
  end.

(** The characters of a text that are not whitespace. *)
Definition ink (s : str) : str := List.filter (fun c => negb (is_whitespace c)) s.

(** A spec whose text is inert and whose baselines are inside the frame. *)
Definition spec_safe (s : RenderSpec) : Prop :=
  Forall (fun r => inert (text r) = true /\ 0 <= run_x r < width s /\ 0 < run_y r < height s) (runs s).

Example wrap_examples :
  (wrap_chars (lit "one two  threefourfive six") 8, wrap_chars (lit "ab cd") 5, wrap_chars [] 3) =
  (Ok [lit "one two"; lit "threefou"; lit "rfive"; lit "six"], Ok [lit "ab cd"], Ok []).
Proof. vm_compute. reflexivity. Qed.

Example format_examples :
  (format_micro_usd 1234567, format_micro_usd (imin I64), format_return_bps (-5),
   format_return_bps 12345) =
  (Ok (lit "$1.23"), Ok (lit "-$9223372036854.77"), Ok (lit "-0.0%"), Ok (lit "+123.4%")).
Proof. vm_compute. reflexivity. Qed.

(** ** Lemmas *)

Lemma entity_at_plain c t : c <> 38 -> entity_at (c :: t) = None.
Proof.
  intros Hc. unfold entity_at, entities. cbn [List.find snd].
  assert (H : forall e, is_prefix (38 :: e) (c :: t) = false).
  { intros e. cbn [is_prefix]. destruct (Z.eqb_spec 38 c); [congruence|done]. }
  repeat match goal with |- context [lit ?s] =>
    let v := eval vm_compute in (lit s) in change (lit s) with v end.
  by rewrite !H.
Qed.

(** Escaping one character in front of any text. *)
Lemma escape_char_cases c t :
  unescape 0 (escape_char c ++ t) = c :: unescape 0 t /\
  inert (escape_char c ++ t) = inert t.
Proof.
  unfold escape_char.
  destruct (Z.eqb_spec c 38) as [->|]; [done|].
  destruct (Z.eqb_spec c 60) as [->|]; [done|].
  destruct (Z.eqb_spec c 62) as [->|]; [done|].
  destruct (Z.eqb_spec c 34) as [->|]; [done|].
  destruct (Z.eqb_spec c 39) as [->|]; [done|].
  cbn [app unescape inert]. rewrite entity_at_plain by done. split; [done|].
  cbn [existsb]. rewrite !(proj2 (Z.eqb_neq c _)) by done. done.
Qed.

Lemma escape_text_unescape s : unescape 0 (escape_text s) = s.
Proof.
  induction s as [|c s IH]; [done|].
  change (escape_text (c :: s)) with (escape_char c ++ escape_text s).
  destruct (escape_char_cases c (escape_text s)) as [-> _]. by rewrite IH.
Qed.

Lemma escape_text_inert s : inert (escape_text s) = true.
Proof.
  induction s as [|c s IH]; [done|].
  change (escape_text (c :: s)) with (escape_char c ++ escape_text s).
  by destruct (escape_char_cases c (escape_text s)) as [_ ->].
Qed.

Lemma ink_app s t : ink (s ++ t) = ink s ++ ink t.
Proof. apply List.filter_app. Qed.

Lemma ink_plain s : Forall (fun c => is_whitespace c = false) s -> ink s = s.
Proof.
  induction 1 as [|c s Hc _ IH]; [done|]. cbn. unfold ink in IH. rewrite Hc. cbn. by rewrite IH.
Qed.

(** What the wrapping loop maintains: [seen] is the ink written so far. *)
Definition wrap_inv (n : nat) (seen : str) (w : WrapState) : Prop :=
  line_len w = length (line w) /\ (length (line w) <= n)%nat /\
  Forall (fun l => (0 < length l <= n)%nat) (lines w) /\
  ink (concat (lines w)) ++ ink (line w) = seen.

Lemma wrap_chunks n fuel l seen w :
  (0 < n)%nat -> (length l <= fuel)%nat -> line w = [] -> wrap_inv n seen w ->
  wrap_inv n (seen ++ ink l) (fold_left (wrap_chunk n) (chunks_fuel fuel n l) w).
Proof.
  intros Hn. revert l seen w. induction fuel as [|f IH]; intros l seen w Hl Hw Hinv.
  - destruct l; cbn in *; [|lia]. by rewrite app_nil_r.
  - cbn [chunks_fuel]. destruct l as [|c l'] eqn:El; [cbn; by rewrite app_nil_r|].
    rewrite <- El in *. replace (is_empty l) with false by (by rewrite El). cbn [fold_left].
    destruct Hinv as (H1 & H2 & H3 & H4). rewrite Hw in H4. cbn in H4. rewrite app_nil_r in H4.
    assert (Hne : (0 < length l)%nat) by (rewrite El; cbn; lia).
    unfold wrap_chunk at 2. rewrite length_take.
    destruct (Nat.eqb_spec (n `min` length l) n).
    + replace (ink l) with (ink (take n l) ++ ink (drop n l)) by (by rewrite <- ink_app, take_drop).
      rewrite app_assoc. apply IH; [rewrite length_drop; lia|done|].
      split_and!; cbn [lines line line_len]; [done|done| |].
      * rewrite Forall_app. split; [done|]. constructor; [|constructor]. rewrite length_take. lia.
      * rewrite concat_app, ink_app. cbn. rewrite Hw, app_nil_r. cbn. by rewrite H4, !app_nil_r.
    + rewrite drop_ge, take_ge by lia.
      assert (E : chunks_fuel f n [] = []) by (by destruct f). rewrite E. cbn [fold_left].
      split_and!; cbn [lines line line_len]; [lia|lia|done|]. by rewrite H4.
Qed.

Lemma wrap_flush n seen w :
  wrap_inv n seen w -> (0 < length (line w))%nat ->
  Forall (fun l => (0 < length l <= n)%nat) (lines w ++ [line w]) /\
  ink (concat (lines w ++ [line w])) = seen.
Proof.
  intros (H1 & H2 & H3 & H4) Hpos. split.
  - rewrite Forall_app. split; [done|]. by constructor.
  - rewrite concat_app, ink_app. cbn. by rewrite app_nil_r.
Qed.

Lemma wrap_word_inv n seen w word :
  (0 < n)%nat -> word <> [] -> Forall (fun c => is_whitespace c = false) word ->
  wrap_inv n seen w -> wrap_inv n (seen ++ word) (wrap_word n w word).
Proof.
  intros Hn Hne Hws Hinv. pose proof Hinv as (H1 & H2 & H3 & H4). unfold wrap_word.
  rewrite <- (ink_plain word Hws) at 1.
  destruct (Nat.ltb_spec n (length word)).
  - apply wrap_chunks; [done|done| |].
    + destruct (Nat.ltb_spec 0 (line_len w)); [done|]. apply length_zero_iff_nil. lia.
    + destruct (Nat.ltb_spec 0 (line_len w)); [|done].
      destruct (wrap_flush n seen w Hinv ltac:(lia)). split_and!; cbn; try done; [lia|].
      by rewrite app_nil_r.
  - destruct (Nat.eqb_spec (line_len w) 0); [|destruct (Nat.leb_spec (line_len w + 1 + length word) n)].
    + assert (line w = []) as El by (apply length_zero_iff_nil; lia). rewrite El in H4.
      cbn in H4. rewrite app_nil_r in H4. split_and!; cbn [lines line line_len]; try done. by rewrite H4.
    + split_and!; cbn [lines line line_len]; try done; [rewrite !length_app; cbn; lia..|].
      rewrite !ink_app. change (ink [32]) with (@nil Z). cbn [app]. by rewrite app_assoc, H4.
    + destruct (wrap_flush n seen w Hinv ltac:(lia)) as [G1 G2].
      split_and!; cbn [lines line line_len]; try done. by rewrite G2.
Qed.

Lemma wrap_words_inv n ws seen w :
  (0 < n)%nat -> Forall (fun v => v <> [] /\ Forall (fun c => is_whitespace c = false) v) ws ->
  wrap_inv n seen w -> wrap_inv n (seen ++ concat ws) (fold_left (wrap_word n) ws w).
Proof.
  intros Hn Hws. revert seen w. induction Hws as [|v ws [Hv1 Hv2] _ IH]; intros seen w Hinv; cbn.
  - by rewrite app_nil_r.
  - rewrite app_assoc. apply IH. by apply wrap_word_inv.
Qed.

Lemma wrap_chars_ok txt n : (0 < n)%nat ->
  exists ls, wrap_chars txt n = Ok ls /\ Forall (fun l => (0 < length l <= n)%nat) ls /\
    ink (concat ls) = ink txt.
Proof.
  intros Hn. destruct (split_ws_spec [] txt ltac:(done)) as [Hw Hc]. cbn in Hc.
  fold (split_whitespace txt) in Hw, Hc.
  pose proof (wrap_words_inv n (split_whitespace txt) [] {| lines := []; line := []; line_len := 0 |}
    Hn Hw) as Hinv. cbn [app] in Hinv. rewrite Hc in Hinv. fold (ink txt) in Hinv.
  unfold wrap_chars. destruct (Nat.eqb_spec n 0); [lia|].
  set (w := fold_left _ _ _) in *. specialize (Hinv ltac:(split_and!; cbn; [done|lia|done|done])).
  eexists. split; [done|]. pose proof Hinv as (H1 & H2 & H3 & H4).
  destruct (Nat.ltb_spec 0 (line_len w)).
  - apply wrap_flush; [done|lia].
  - split; [done|]. assert (line w = []) as El by (apply length_zero_iff_nil; lia).
    rewrite El in H4. cbn in H4. by rewrite app_nil_r in H4.
Qed.

(** Layout of the wrapped lines: baselines [top], [top + step], ... *)
Lemma line_runs_ok i top step size col ls :
  0 <= i -> 0 < top -> 0 < step -> in_ty I32 (top + step * (i + zlen ls)) ->
  exists rs, line_runs i top step size col ls = Ok rs /\
    map text rs = map escape_text ls /\
    Forall (fun r => inert (text r) = true /\ run_x r = 64 /\
                     0 < run_y r <= top + step * (i + zlen ls - 1)) rs.
Proof.
  revert i. induction ls as [|l ls IH]; intros i Hi Ht Hs Hb; cbn [line_runs]; [by eexists|].
  rewrite zlen_cons in *. pose proof (zlen_nonneg ls).
  assert (in_ty I32 i) by ty. rewrite (proj2 (fits_iff I32 i)) by done.
  assert (0 <= i * step /\ i * step + step <= step * (i + (1 + zlen ls))) by nia.
  rewrite !arith_in by ty. cbn [mbind outcome_bind]. rewrite !arith_in by ty. cbn [mbind outcome_bind].
  destruct (IH (i + 1)) as (rs & -> & E & Hf); [lia..|by replace (i + 1 + zlen ls) with (i + (1 + zlen ls)) by lia|].
  cbn [mbind outcome_bind]. eexists. split; [done|]. cbn [map text run]. split; [by rewrite E|].
  constructor; [cbn; split_and!; [apply escape_text_inert|done|lia|lia]|].
  eapply Forall_impl; [exact Hf|]. cbn. intros r. replace (i + 1 + zlen ls) with (i + (1 + zlen ls)) by lia.
  done.
Qed.

Lemma format_micro_usd_ok m : in_ty I64 m ->
  exists d c, format_micro_usd m =
      Ok ((if m <? 0 then lit "-" else []) ++ lit "$" ++ show_u64 d ++ lit "." ++ show_02 c) /\
    in_ty U64 d /\ 0 <= c < 100 /\ 100 * d + c = Z.abs m / 10000.
Proof.
  intros Hm. unfold format_micro_usd. rewrite arith_in by ty. cbn [mbind outcome_bind].
  rewrite !udiv_pos by lia. cbn [mbind outcome_bind].
  assert (0 <= Z.abs m / 10000 <= 922337203685477581)
    by (split; [apply Z.div_pos; lia|apply Z.div_le_upper_bound; ty]).
  set (ct := Z.abs m / 10000) in *. exists (ct / 100), (ct mod 100).
  pose proof (Z.div_mod ct 100 ltac:(lia)). pose proof (Z.mod_pos_bound ct 100 ltac:(lia)).
  split_and!; try done; try lia; ty.
Qed.

Lemma format_return_bps_ok b : in_ty I64 b ->
  exists u t, format_return_bps b =
      Ok ((if b <? 0 then lit "-" else lit "+") ++ show_u64 u ++ lit "." ++ show_u64 t ++ lit "%") /\
    in_ty U64 u /\ 0 <= t < 10 /\ 10 * u + t = Z.abs b / 10.
Proof.
  intros Hb. unfold format_return_bps. rewrite arith_in by ty. cbn [mbind outcome_bind].
  rewrite !udiv_pos by lia. cbn [mbind outcome_bind].
  assert (0 <= Z.abs b / 10 <= 922337203685477581)
    by (split; [apply Z.div_pos; lia|apply Z.div_le_upper_bound; ty]).
  set (ct := Z.abs b / 10) in *. exists (ct / 10), (ct mod 10).
  pose proof (Z.div_mod ct 10 ltac:(lia)). pose proof (Z.mod_pos_bound ct 10 ltac:(lia)).
  split_and!; try done; try lia; ty.
Qed.

(** The lines of a question, wrapped to [w] and cut to [k] rows, inside a frame. *)
Lemma wrapped_runs q w k top step size col limit :
  (0 < w)%nat -> 0 < top -> 0 < step -> top + step * Z.of_nat k <= limit -> limit <= 32767 ->
  exists ls rs, wrap_chars q w = Ok ls /\ line_runs 0 top step size col (take k ls) = Ok rs /\
    map text rs = map escape_text (take k ls) /\
    Forall (fun r => inert (text r) = true /\ 0 <= run_x r < 1080 /\ 0 < run_y r < limit) rs.
Proof.
  intros Hw Ht Hs Hk Hl. destruct (wrap_chars_ok q w Hw) as (ls & Hls & _).
  assert (Hz : zlen (take k ls) <= Z.of_nat k) by (unfold zlen; rewrite length_take; lia).
  pose proof (zlen_nonneg (take k ls)).
  assert (step * zlen (take k ls) <= step * Z.of_nat k) by (apply Z.mul_le_mono_nonneg_l; lia).
  destruct (line_runs_ok 0 top step size col (take k ls)) as (rs & Hrs & E & Hf);
    [lia..|cbn [Z.add]; unfold in_ty; cbn; nia|].
  exists ls, rs. split_and!; [done..|]. eapply Forall_impl; [exact Hf|]. cbn beta.
  intros r (H1 & H2 & H3). split_and!; [done|lia..|nia].
Qed.

Lemma run_safe x y size col t (w h : Z) :
  0 <= x < w -> 0 < y < h ->
  inert (text (run x y size col t)) = true /\ 0 <= run_x (run x y size col t) < w /\
  0 < run_y (run x y size col t) < h.
Proof. intros. cbn. split_and!; try lia. apply escape_text_inert. Qed.

Lemma runs_within (rs : list TextRun) w limit h :
  1080 <= w -> limit <= h ->
  Forall (fun r => inert (text r) = true /\ 0 <= run_x r < 1080 /\ 0 < run_y r < limit) rs ->
  Forall (fun r => inert (text r) = true /\ 0 <= run_x r < w /\ 0 < run_y r < h) rs.
Proof. intros Hw Hh Hf. eapply Forall_impl; [exact Hf|]. cbn beta. intros r (? & ? & ?). split_and!; lia || done. Qed.

#[local] Ltac frame Hf :=
  unfold spec_safe; cbn [runs width height];
  repeat first [apply Forall_app; split | apply Forall_cons; split | apply Forall_nil];
  first [done | apply run_safe; lia | eapply runs_within; [| |exact Hf]; lia].

(** ** Properties *)

(** escaping is safe and lossless: whatever the input, the escaped text has
    no markup character, every ampersand in it starts one of the five entities,
    and reading the entities back gives the input. *)
Theorem escape_text_roundtrip (input : str) :
  inert (escape_text input) = true /\ unescape 0 (escape_text input) = input.
Proof. split; [apply escape_text_inert|apply escape_text_unescape]. Qed.

(** word wrapping never loses or invents ink and respects its width: for a
    positive width it returns lines of one to [max_chars] characters whose
    non-blank characters are those of the text in order; a zero width is the
    documented panic. *)
Theorem wrap_chars_exact (txt : str) (max_chars : nat) :
  if (max_chars =? 0)%nat then wrap_chars txt max_chars = Panic
  else exists ls, wrap_chars txt max_chars = Ok ls /\
    Forall (fun l => (0 < length l <= max_chars)%nat) ls /\ ink (concat ls) = ink txt.
Proof.
  destruct (Nat.eqb_spec max_chars 0) as [->|]; [done|]. apply wrap_chars_ok. lia.
Qed.

(** The three spec builders are total for every question, handle and 64-bit
    amount: no i32 coordinate overflows, all text is escaped and every
    baseline lies inside the frame, whatever the length of the question; the
    question rows are the escaped wrapped lines. *)
Theorem card_specs_safe (question : str) (card : ShareCardInput) :
  in_ty I64 (payout_micro card) -> in_ty I64 (return_bps card) ->
  (exists p ls, poster_spec question = Ok p /\ spec_safe p /\
     wrap_chars question 24 = Ok ls /\
     map text (runs p) = escape_text BRAND ::
       map escape_text (take 8 ls) ++ [escape_text (lit "opinions.market")]) /\
  (exists v, video_spec question = Ok v /\ spec_safe v) /\
  (exists s, share_card_spec card = Ok s /\ spec_safe s /\ (length (runs s) <= 8)%nat).
Proof.
  intros Hp Hr. split_and!.
  - unfold poster_spec.
    destruct (wrapped_runs question 24 8 300 90 72 INK 1350) as (ls & rs & -> & Hrs & E & Hf); [lia..|].
    cbn [mbind outcome_bind]. rewrite Hrs. cbn [mbind outcome_bind].
    do 2 eexists. split_and!; [done| |done|]; [frame Hf|].
    cbn [runs app map text run]. by rewrite map_app, E.
  - unfold video_spec.
    destruct (wrapped_runs question 22 10 420 100 80 INK 1920) as (ls & rs & -> & Hrs & _ & Hf); [lia..|].
    cbn [mbind outcome_bind]. rewrite Hrs. cbn [mbind outcome_bind].
    eexists. split; [done|]. frame Hf.
  - unfold share_card_spec.
    destruct (wrapped_runs (card_question card) 38 3 250 52 40 MUTED 630)
      as (ls & rs & -> & Hrs & E & Hf); [lia..|].
    cbn [mbind outcome_bind]. rewrite Hrs. cbn [mbind outcome_bind].
    destruct (format_micro_usd_ok _ Hp) as (d & c & -> & _).
    destruct (format_return_bps_ok _ Hr) as (u & t & -> & _). cbn [mbind outcome_bind].
    assert (Hl : (length rs <= 3)%nat).
    { rewrite <- (length_map text), E, length_map, length_take. lia. }
    destruct (side_yes card); eexists; (split; [done|]); (split; [frame Hf|]);
      cbn [runs]; rewrite !length_app; cbn [length]; lia.
Qed.

Definition demo_card : ShareCardInput :=
  {| handle := lit "<b>"; card_question := lit "Will it rain & pour?"; side_yes := true;
     payout_micro := 12340000; return_bps := 500 |}.

Lemma card_specs_safe_witness :
  exists s, share_card_spec demo_card = Ok s /\ spec_safe s /\ (length (runs s) <= 8)%nat.
Proof.
  apply (card_specs_safe [] demo_card); vm_compute; split; discriminate.
Defined.

(** Formatted money reads back: the digits shown are the amount truncated
    toward zero to whole cents, with a minus sign exactly for negative amounts. *)
Theorem format_micro_usd_reads_back (micro : Z) :
  in_ty I64 micro ->
  exists d c, format_micro_usd micro =
      Ok ((if micro <? 0 then lit "-" else []) ++ lit "$" ++ d ++ lit "." ++ c) /\
    Forall (fun ch => is_digit ch = true) d /\ length c = 2%nat /\
    100 * read_digits d + read_digits c = Z.abs micro / 10000.
Proof.
  intros Hm. destruct (format_micro_usd_ok micro Hm) as (d & c & -> & Hd & Hc & E).
  destruct (show_02_two c Hc) as [E2 R2].
  exists (show_u64 d), (show_02 c). split_and!; [done|apply digits_fuel_digits|by rewrite E2|].
  by rewrite R2, show_u64_read.
Qed.
