(* ===== verification/Errors.v ===== *)
(** * Errors: the error vocabulary that crosses the ports

    [crates/application/src/error.rs]: failures of a port implementation and
    business-rule rejections.  Both live in modules because the domain errors
    share some constructor names. *)

From S2P Require Import Prelude Amm Ledger Resolution Economy.

Module Store.
Inductive StoreError :=
| NotFound (what : string)
| DuplicateKey
| Ledger (e : LedgerError)
| Invariant (what : string)
| Conflict (what : string)
| Integrity (what : string)
| Backend (what : string)
| Unavailable (what : string).
End Store.

Notation StoreError := Store.StoreError.

Module App.
Inductive AppError :=
| MarketNotOpen
| TradingFrozen
| VoteRequired
| InsufficientShares
| PositionCapExceeded (cap_micro : Z) (tier : Z)
| SeedFeeBelowMinimum (base_bps : Z) (min_bps : Z)
| InsufficientFunds
| AlreadyVoted
| VotingClosed
| InvalidCrowdGuess
| PhoneVerificationRequired
| VoteVelocityExceeded
| AccountTooYoungNearClose
| CommentNotVisible
| CommentAlreadyVoted
| InvalidCommentVote
| ThreadTooDeep
| ReporterNotQualified
| ReportVelocityExceeded
| CommentBlocked (e : string)
| InvalidDraft (e : string)
| DraftNotPending
| DraftNotApproved
| DraftExpired
| PendingDraftLimit
| NoSlotFree
| DailySeedBudgetExceeded
| JobNotReady
| ArtifactNotFound
| IllegalTransition
| UseResolveMarket
| NeedsCuratorDecision
| CuratorOverrideNotAllowed
| UnderReview
| CuratorRequired
| LpPaused
| StaleConfig (preview_generation : Z) (current_generation : Z)
| IdempotencyConflict
| TradingPaused
| VotingPaused
| ProposalConflict (e : string)
| ReceivableOpen (outstanding_micro : Z)
| AdminForbidden (e : string)
| ConfigInvalid (key : string) (reason : string)
| ExpectedConfigVersionRequired
| MoneyForbidden (e : string)
| DepositsPaused
| ComplianceHold (reason : string)
| InsufficientBonusReserve (reserve_micro : Z) (promised_micro : Z)
| ReferralIneligible
| Overflow
| Amm (e : AmmError)
| Resolution (e : ResolutionError)
| Scoring (e : ScoringError)
| Store (e : StoreError).
End App.

Notation AppError := App.AppError.

(** [?] on a store result inside a use case. *)
Definition store {A} (m : outcome StoreError A) : outcome AppError A := map_err App.Store m.

Lemma store_Ok {A} (m : outcome StoreError A) a : store m = Ok a <-> m = Ok a.
Proof. apply map_err_Ok. Qed.
