(* ===== verification/Credits.v ===== *)
(** * Credits: bonus lots and the fee-allocation algebra

    [application/src/money/credits.rs] (the algebra), the row types of
    [application/src/money/mod.rs], and the Postgres operations that append and
    move allocation facts ([adapters/src/pg/credit_tx.rs],
    [adapters/src/pg/resolve_tx.rs]).  The table of facts is an append-only
    list; its SQL constraints are the guards of [insert_row].  The theorems show
    that no sequence of accepted inserts over-allocates a lot or a fee, that
    progress is what the log says, that the planner's facts are always accepted,
    and that a market's move leaves nothing provisional. *)

From S2P Require Import Prelude Errors.

(** ** Rows *)

Inductive GrantClass := RealMoney | Sweeps.

#[export] Instance GrantClass_eq_dec : EqDecision GrantClass.
Proof. solve_decision. Defined.

Definition grant_class_str (c : GrantClass) : string :=
  match c with RealMoney => "real_money" | Sweeps => "sweeps" end.

Definition parse_grant_class (value : string) : outcome StoreError GrantClass :=
  if String.eqb value "real_money" then Ok RealMoney
  else if String.eqb value "sweeps" then Ok Sweeps
  else Err (Store.Invariant "unknown grant class").

(** Timestamps are nanoseconds from the Unix epoch. *)
Record CreditLotRow := {
  lot_row_id : N; lot_user : N; lot_source : string; lot_amount : Z; granted_at : Z;
  grant_class : GrantClass; policy_version : string; converted_at : option Z }.

Inductive AllocationKind := Allocated | Finalized | Reversed.

#[export] Instance AllocationKind_eq_dec : EqDecision AllocationKind.
Proof. solve_decision. Defined.

Definition allocation_kind_str (k : AllocationKind) : string :=
  match k with Allocated => "allocated" | Finalized => "finalized" | Reversed => "reversed" end.

Definition parse_allocation_kind (value : string) : outcome StoreError AllocationKind :=
  if String.eqb value "allocated" then Ok Allocated
  else if String.eqb value "finalized" then Ok Finalized
  else if String.eqb value "reversed" then Ok Reversed
  else Err (Store.Invariant "unknown allocation kind").

(** The idempotency keys the code formats: [alloc:trade:lot:seq],
    [final:trade:source] and [rev:trade:source]; any other key is opaque. *)
Inductive AllocationKey :=
| AllocKey (trade lot : N) (split_seq : Z)
| FinalKey (trade source : N)
| RevKey (trade source : N)
| OtherKey (key : string).

#[export] Instance AllocationKey_eq_dec : EqDecision AllocationKey.
Proof. solve_decision. Defined.

Record AllocationFact := {
  fact_id : N; trade_id : N; lot_id : N; split_seq : Z; fact_amount : Z;
  alloc_kind : AllocationKind; source_allocation_id : option N;
  idempotency_key : AllocationKey }.

(** ** The algebra of [credits.rs] *)

Record LotCapacity := { cap_lot : N; remaining_micro : Z }.

Inductive AllocError :=
| DuplicateAllocated | DuplicateTerminal | SourceMissing | AmountMismatch | ExceedsSource
| ZeroAmount.

(** The loop of [split_oldest_first]. *)
Fixpoint split_loop {E} (lots : list LotCapacity) (left : Z) : outcome E (list (N * Z * Z)) :=
  match lots with
  | [] => Ok []
  | lot :: rest =>
      if left =? 0 then Ok []
      else if remaining_micro lot <=? 0 then split_loop rest left
      else
        let take := Z.min left (remaining_micro lot) in
        left' ← arith I64 (left - take);
        out ← split_loop rest left';
        Ok ((cap_lot lot, 0, take) :: out)
  end.

Definition split_oldest_first {E} (lots : list LotCapacity) (fee_micro : Z) :
    outcome E (list (N * Z * Z)) :=
  if fee_micro <=? 0 then Ok [] else split_loop lots fee_micro.

Record Progress := {
  provisional : Z; finalized : Z; reversed_sources : gset N; finalized_sources : gset N }.

Definition add_source (s : gset N) (source : option N) : gset N :=
  match source with Some src => {[src]} ∪ s | None => s end.

(** The first loop of [lot_progress]. *)
Definition progress_step {E} (lot : N) (p : Progress) (fact : AllocationFact) : outcome E Progress :=
  if bool_decide (lot_id fact <> lot) then Ok p else
  match alloc_kind fact with
  | Allocated =>
      v ← arith I64 (provisional p + fact_amount fact);
      Ok {| provisional := v; finalized := finalized p;
            reversed_sources := reversed_sources p; finalized_sources := finalized_sources p |}
  | Finalized =>
      v ← arith I64 (finalized p + fact_amount fact);
      Ok {| provisional := provisional p; finalized := v;
            reversed_sources := reversed_sources p;
            finalized_sources := add_source (finalized_sources p) (source_allocation_id fact) |}
  | Reversed =>
      Ok {| provisional := provisional p; finalized := finalized p;
            reversed_sources := add_source (reversed_sources p) (source_allocation_id fact);
            finalized_sources := finalized_sources p |}
  end.

(** The second loop of [lot_progress]. *)
Definition release_step {E} (lot : N) (fin rev : gset N) (v : Z) (fact : AllocationFact) :
    outcome E Z :=
  if bool_decide (lot_id fact <> lot) || bool_decide (alloc_kind fact <> Allocated) then Ok v
  else if bool_decide (fact_id fact ∈ fin) || bool_decide (fact_id fact ∈ rev)
  then arith I64 (v - fact_amount fact) else Ok v.

Definition lot_progress {E} (facts : list AllocationFact) (lot : N) : outcome E (Z * Z) :=
  p ← foldM (progress_step lot)
        {| provisional := 0; finalized := 0; reversed_sources := ∅; finalized_sources := ∅ |} facts;
  v ← foldM (release_step lot (finalized_sources p) (reversed_sources p)) (provisional p) facts;
  Ok (Z.max v 0, finalized p).

Definition lot_remaining {E} (lot : CreditLotRow) (facts : list AllocationFact) : outcome E Z :=
  if bool_decide (is_Some (converted_at lot)) then Ok 0 else
  pf ← lot_progress facts (lot_row_id lot);
  a ← arith I64 (lot_amount lot - pf.1);
  b ← arith I64 (a - pf.2);
  Ok (Z.max b 0).

Definition trade_net_allocated {E} (facts : list AllocationFact) (trade : N) : outcome E Z :=
  foldM (fun sum fact =>
           match alloc_kind fact with
           | Allocated => arith I64 (sum + fact_amount fact)
           | Reversed => arith I64 (sum - fact_amount fact)
           | Finalized => Ok sum
           end) 0 (List.filter (fun f => bool_decide (trade_id f = trade)) facts).

Definition is_allocated_key (trade lot : N) (seq : Z) (f : AllocationFact) : bool :=
  bool_decide (trade_id f = trade) && bool_decide (lot_id f = lot) && (split_seq f =? seq) &&
  bool_decide (alloc_kind f = Allocated).

Definition check_allocate (existing : list AllocationFact) (trade lot : N) (seq amount_micro : Z) :
    outcome AllocError unit :=
  if amount_micro <=? 0 then Err ZeroAmount else
  if existsb (is_allocated_key trade lot seq) existing then Err DuplicateAllocated else
  Ok tt.

Definition check_terminal (existing : list AllocationFact) (source_id : N) (amount_micro : Z) :
    outcome AllocError unit :=
  if amount_micro <=? 0 then Err ZeroAmount else
  source ← ok_or (List.find (fun f => bool_decide (fact_id f = source_id) &&
                                      bool_decide (alloc_kind f = Allocated)) existing)
                 SourceMissing;
  if fact_amount source <? amount_micro then Err ExceedsSource else
  if negb (amount_micro =? fact_amount source) then Err AmountMismatch else
  if existsb (fun f => bool_decide (source_allocation_id f = Some source_id) &&
                       bool_decide (alloc_kind f = Finalized \/ alloc_kind f = Reversed)) existing
  then Err DuplicateTerminal else
  Ok tt.

(** [Iterator::sum] over [i64]. *)
Definition remaining_real_money_promise {E} (lots : list CreditLotRow)
    (facts : list AllocationFact) : outcome E Z :=
  foldM (fun sum lot =>
           _ ← lot_progress facts (lot_row_id lot);
           arith I64 (sum + lot_amount lot)) 0
    (List.filter (fun lot => bool_decide (grant_class lot = RealMoney) &&
                             bool_decide (converted_at lot = None)) lots).

Definition lot_ready_to_convert {E} (lot : CreditLotRow) (facts : list AllocationFact) :
    outcome E bool :=
  if bool_decide (is_Some (converted_at lot)) || bool_decide (grant_class lot <> RealMoney)
  then Ok false else
  pf ← lot_progress facts (lot_row_id lot);
  Ok (lot_amount lot <=? pf.2).

Definition lot_age_key (lots : list CreditLotRow) (c : LotCapacity) : Z * N :=
  (default 0 (granted_at <$> List.find (fun lot => bool_decide (lot_row_id lot = cap_lot c)) lots),
   cap_lot c).

Definition age_le (lots : list CreditLotRow) (a b : LotCapacity) : bool :=
  let '(t, i) := lot_age_key lots a in
  let '(t', i') := lot_age_key lots b in
  (t <? t') || ((t =? t') && (i <=? i')%N).

(** The capacities of the unconverted lots. *)
Fixpoint capacities_of {E} (lots : list CreditLotRow) (facts : list AllocationFact) :
    outcome E (list LotCapacity) :=
  match lots with
  | [] => Ok []
  | lot :: rest =>
      if bool_decide (converted_at lot = None) then
        r ← lot_remaining lot facts;
        out ← capacities_of rest facts;
        Ok ({| cap_lot := lot_row_id lot; remaining_micro := r |} :: out)
      else capacities_of rest facts
  end.

(** The loop that builds the facts; [fresh] supplies [Uuid::new_v4]. *)
Fixpoint plan_loop (fresh : nat -> N) (n : nat) (facts : list AllocationFact) (trade : N)
    (splits : list (N * Z * Z)) : outcome AllocError (list AllocationFact) :=
  match splits with
  | [] => Ok []
  | (lot, seq, amount) :: rest =>
      _ ← check_allocate facts trade lot seq amount;
      out ← plan_loop fresh (S n) facts trade rest;
      Ok ({| fact_id := fresh n; trade_id := trade; lot_id := lot; split_seq := seq;
             fact_amount := amount; alloc_kind := Allocated; source_allocation_id := None;
             idempotency_key := AllocKey trade lot seq |} :: out)
  end.

Definition plan_trade_allocations (fresh : nat -> N) (lots : list CreditLotRow)
    (facts : list AllocationFact) (trade : N) (fee_micro : Z) :
    outcome AllocError (list AllocationFact) :=
  capacities ← capacities_of lots facts;
  splits ← split_oldest_first (sort_by (age_le lots) capacities) fee_micro;
  plan_loop fresh 0 facts trade splits.

Definition coverage_by_lot {E} (lots : list CreditLotRow) (facts : list AllocationFact) :
    outcome E (gmap N (Z * Z)) :=
  foldM (fun m lot => pf ← lot_progress facts (lot_row_id lot); Ok (<[lot_row_id lot := pf]> m))
    ∅ lots.

(** ** The Postgres tables *)

(** [trades] as [fee_micro] and [market_id]; [credit_grant_lots]; and
    [credit_fee_allocations] in insertion order. *)
Record CreditDb := {
  db_trades : gmap N (Z * N); db_lots : gmap N CreditLotRow; db_facts : list AllocationFact }.

Definition same_allocation (l r : AllocationFact) : bool :=
  bool_decide (trade_id l = trade_id r) && bool_decide (lot_id l = lot_id r) &&
  (split_seq l =? split_seq r) && (fact_amount l =? fact_amount r) &&
  bool_decide (alloc_kind l = alloc_kind r) &&
  bool_decide (source_allocation_id l = source_allocation_id r).

(** [case kind when 'allocated' then amount when 'reversed' then -amount else 0]. *)
Definition signed (f : AllocationFact) : Z :=
  match alloc_kind f with
  | Allocated => fact_amount f
  | Reversed => - fact_amount f
  | Finalized => 0
  end.

Definition net_where (P : AllocationFact -> bool) (facts : list AllocationFact) : Z :=
  zsum (map (fun f => if P f then signed f else 0) facts).

(** [sum(..)::bigint] fails out of range. *)
Definition bigint (z : Z) : outcome StoreError Z :=
  ok_or (checked I64 z) (Store.Backend "bigint out of range").

(** The guards of an [allocated] insert. *)
Definition guard_allocated (db : CreditDb) (fact : AllocationFact) : outcome StoreError unit :=
  if bool_decide (is_Some (source_allocation_id fact))
  then Err (Store.Invariant "allocated credit fact names a source") else
  trade ← ok_or (db_trades db !! trade_id fact) (Store.NotFound "trade");
  trade_progress ← bigint (net_where (fun f => bool_decide (trade_id f = trade_id fact)) (db_facts db));
  next_trade ← ok_or (checked I64 (trade_progress + fact_amount fact))
                     (Store.Invariant "credit allocation overflow");
  if trade.1 <? next_trade then Err (Store.Invariant "credit allocation exceeds trade fee") else
  lot ← ok_or (db_lots db !! lot_id fact) (Store.NotFound "credit lot");
  lot_prog ← bigint (net_where (fun f => bool_decide (lot_id f = lot_id fact)) (db_facts db));
  next_lot ← ok_or (checked I64 (lot_prog + fact_amount fact))
                   (Store.Invariant "credit allocation overflow");
  if lot_amount lot <? next_lot
  then Err (Store.Invariant "credit allocation exceeds lot requirement") else Ok tt.

Definition moves_source (source fact : AllocationFact) : bool :=
  bool_decide (alloc_kind source = Allocated) && bool_decide (trade_id source = trade_id fact) &&
  bool_decide (lot_id source = lot_id fact) && (split_seq source =? split_seq fact) &&
  (fact_amount source =? fact_amount fact).

(** The guards of a [finalized] or [reversed] insert. *)
Definition guard_terminal (db : CreditDb) (fact : AllocationFact) : outcome StoreError unit :=
  source_id ← ok_or (source_allocation_id fact)
                    (Store.Invariant "terminal credit allocation missing source");
  source ← ok_or (List.find (fun f => bool_decide (fact_id f = source_id)) (db_facts db))
                 (Store.NotFound "credit allocation source");
  if negb (moves_source source fact)
  then Err (Store.Invariant "terminal credit allocation does not exactly move source") else
  if existsb (fun f => bool_decide (source_allocation_id f = Some source_id)) (db_facts db)
  then Err (Store.Conflict "credit allocation terminal") else Ok tt.

(** The [insert] statement under the table's constraints: positive amounts, the
    shape check, the foreign key to the lot, and the unique keys. *)
Definition insert_row (db : CreditDb) (fact : AllocationFact) : outcome StoreError CreditDb :=
  if fact_amount fact <=? 0 then Err (Store.Integrity "amount_micro check") else
  if negb (Bool.eqb (bool_decide (alloc_kind fact = Allocated))
                    (bool_decide (source_allocation_id fact = None)))
  then Err (Store.Integrity "shape check") else
  if existsb (fun f => bool_decide (fact_id f = fact_id fact) ||
                       bool_decide (idempotency_key f = idempotency_key fact) ||
                       (bool_decide (alloc_kind fact = Allocated) &&
                        is_allocated_key (trade_id fact) (lot_id fact) (split_seq fact) f) ||
                       (bool_decide (is_Some (source_allocation_id fact)) &&
                        bool_decide (source_allocation_id f = source_allocation_id fact)))
             (db_facts db)
  then Err (Store.Conflict "credit allocation") else
  if bool_decide (db_lots db !! lot_id fact = None) then Err (Store.Integrity "lot_id foreign key") else
  Ok {| db_trades := db_trades db; db_lots := db_lots db; db_facts := db_facts db ++ [fact] |}.

Definition insert_allocation (db : CreditDb) (fact : AllocationFact) : outcome StoreError CreditDb :=
  match List.find (fun f => bool_decide (idempotency_key f = idempotency_key fact)) (db_facts db) with
  | Some existing =>
      if same_allocation existing fact then Ok db
      else Err (Store.Conflict "credit allocation idempotency")
  | None =>
      _ ← (match alloc_kind fact with
           | Allocated => guard_allocated db fact
           | Finalized | Reversed => guard_terminal db fact
           end);
      insert_row db fact
  end.

(** An allocated fact without a terminal child. *)
Definition is_live (facts : list AllocationFact) (f : AllocationFact) : bool :=
  bool_decide (alloc_kind f = Allocated) &&
  negb (existsb (fun t => bool_decide (source_allocation_id t = Some (fact_id f))) facts).

Definition fact_le (a b : AllocationFact) : bool :=
  (trade_id a <? trade_id b)%N || ((trade_id a =? trade_id b)%N &&
  ((lot_id a <? lot_id b)%N || ((lot_id a =? lot_id b)%N &&
  ((split_seq a <? split_seq b) || ((split_seq a =? split_seq b) && (fact_id a <=? fact_id b)%N))))).

Definition in_market (db : CreditDb) (market : N) (f : AllocationFact) : bool :=
  bool_decide (snd <$> db_trades db !! trade_id f = Some market).

Definition live_allocations_for_trade (db : CreditDb) (trade : N) : list AllocationFact :=
  sort_by fact_le (List.filter (fun f => bool_decide (trade_id f = trade) && is_live (db_facts db) f)
                               (db_facts db)).

Definition terminal_key (kind : AllocationKind) (trade source : N) : outcome StoreError AllocationKey :=
  match kind with
  | Finalized => Ok (FinalKey trade source)
  | Reversed => Ok (RevKey trade source)
  | Allocated => Err (Store.Invariant "allocated is not a terminal credit fact")
  end.

(** The loop of [move_market_allocations]. *)
Fixpoint move_loop (fresh : nat -> N) (n : nat) (kind : AllocationKind) (db : CreditDb)
    (rows : list AllocationFact) (moved : Z) : outcome StoreError (CreditDb * Z) :=
  match rows with
  | [] => Ok (db, moved)
  | row :: rest =>
      key ← terminal_key kind (trade_id row) (fact_id row);
      db' ← insert_allocation db
        {| fact_id := fresh n; trade_id := trade_id row; lot_id := lot_id row;
           split_seq := split_seq row; fact_amount := fact_amount row; alloc_kind := kind;
           source_allocation_id := Some (fact_id row); idempotency_key := key |};
      moved' ← ok_or (checked U32 (moved + 1)) (Store.Invariant "credit allocation count overflow");
      move_loop fresh (S n) kind db' rest moved'
  end.

Definition move_market_allocations (fresh : nat -> N) (db : CreditDb) (market : N)
    (kind : AllocationKind) : outcome StoreError (CreditDb * Z) :=
  let rows := sort_by fact_le
    (List.filter (fun f => in_market db market f && is_live (db_facts db) f) (db_facts db)) in
  move_loop fresh 0 kind db rows 0.

(** ** Specification *)

(** An append-only log in which every terminal fact moves exactly one earlier
    live allocation. *)
Inductive log_ok : list AllocationFact -> Prop :=
| log_nil : log_ok []
| log_allocate facts f :
    log_ok facts -> alloc_kind f = Allocated -> source_allocation_id f = None ->
    0 < fact_amount f -> fact_id f ∉ map fact_id facts -> log_ok (facts ++ [f])
| log_terminal facts f src :
    log_ok facts -> alloc_kind f <> Allocated -> src ∈ facts ->
    source_allocation_id f = Some (fact_id src) -> moves_source src f = true ->
    Forall (fun t => source_allocation_id t <> Some (fact_id src)) facts ->
    fact_id f ∉ map fact_id facts -> log_ok (facts ++ [f]).

Definition sum_where (P : AllocationFact -> bool) (facts : list AllocationFact) : Z :=
  zsum (map (fun f => if P f then fact_amount f else 0) facts).

Definition of_kind (lot : N) (k : AllocationKind) (f : AllocationFact) : bool :=
  bool_decide (lot_id f = lot) && bool_decide (alloc_kind f = k).

(** Total ever allocated to, finalized for and reversed from a lot. *)
Definition lot_gross (lot : N) := sum_where (of_kind lot Allocated).
Definition lot_finalized (lot : N) := sum_where (of_kind lot Finalized).
Definition lot_reversed (lot : N) := sum_where (of_kind lot Reversed).

(** The net of a lot and of a trade: allocated less reversed. *)
Definition lot_net (lot : N) := net_where (fun f => bool_decide (lot_id f = lot)).
Definition trade_net (trade : N) := net_where (fun f => bool_decide (trade_id f = trade)).

Record credits_wf (db : CreditDb) : Prop := {
  wf_log : log_ok (db_facts db);
  wf_refs : Forall (fun f => is_Some (db_lots db !! lot_id f) /\ is_Some (db_trades db !! trade_id f))
                   (db_facts db);
  wf_rows : forall l row, db_lots db !! l = Some row ->
              lot_row_id row = l /\ 0 < lot_amount row <= imax I64;
  wf_lot_cap : forall l row, db_lots db !! l = Some row -> lot_net l (db_facts db) <= lot_amount row;
  wf_fees : forall t fm, db_trades db !! t = Some fm -> in_ty I64 fm.1 /\ 0 <= fm.1;
  wf_fee_cap : forall t fm, db_trades db !! t = Some fm -> trade_net t (db_facts db) <= fm.1 }.

(** Any attempted inserts, in any order; a refused one changes nothing. *)
Inductive credit_run : CreditDb -> CreditDb -> Prop :=
| credit_refl db : credit_run db db
| credit_insert db db' db'' fact :
    credit_run db db' -> insert_allocation db' fact = Ok db'' -> credit_run db db''.

(** ** Lemmas *)

Lemma sum_where_snoc P facts f :
  sum_where P (facts ++ [f]) = sum_where P facts + if P f then fact_amount f else 0.
Proof. unfold sum_where. rewrite map_app, zsum_app. cbn. lia. Qed.

Lemma net_where_snoc P facts f :
  net_where P (facts ++ [f]) = net_where P facts + if P f then signed f else 0.
Proof. unfold net_where. rewrite map_app, zsum_app. cbn. lia. Qed.

Lemma sum_where_ext P Q facts :
  (forall f, f ∈ facts -> P f = Q f) -> sum_where P facts = sum_where Q facts.
Proof.
  intros H. unfold sum_where. f_equal. apply map_ext_in. intros f Hf.
  rewrite H; [done|]. by apply list_elem_of_In.
Qed.

Record log_facts (facts : list AllocationFact) : Prop := {
  lf_ids : NoDup (map fact_id facts);
  lf_pos : forall f, f ∈ facts -> 0 < fact_amount f;
  lf_shape : forall f, f ∈ facts -> (alloc_kind f = Allocated <-> source_allocation_id f = None);
  lf_source : forall t s, t ∈ facts -> source_allocation_id t = Some s ->
                exists src, src ∈ facts /\ fact_id src = s /\ moves_source src t = true }.

Lemma moves_source_true src f :
  moves_source src f = true <->
  alloc_kind src = Allocated /\ trade_id src = trade_id f /\ lot_id src = lot_id f /\
  split_seq src = split_seq f /\ fact_amount src = fact_amount f.
Proof. unfold moves_source. rewrite !andb_true_iff, !bool_decide_eq_true, !Z.eqb_eq. tauto. Qed.

Lemma log_ok_facts facts : log_ok facts -> log_facts facts.
Proof.
  induction 1 as [|facts f _ [I1 I2 I3 I4] Hk Hs Ha Hid|facts f src _ [I1 I2 I3 I4] Hk Hin Hs Hm Ho Hid].
  - split; [apply NoDup_nil_2|intros ? []%not_elem_of_nil..|intros ?? []%not_elem_of_nil].
  - split.
    + rewrite map_app. apply NoDup_app. split_and!; [done| |by apply NoDup_singleton].
      intros x Hx Hx'. apply list_elem_of_singleton in Hx' as ->. done.
    + intros g [Hg| ->%list_elem_of_singleton]%elem_of_app; eauto.
    + intros g [Hg| ->%list_elem_of_singleton]%elem_of_app; [eauto|done].
    + intros t s [Ht| ->%list_elem_of_singleton]%elem_of_app Hts; [|congruence].
      destruct (I4 t s Ht Hts) as (src & ? & ? & ?). exists src. set_solver.
  - pose proof Hm as (K1 & K2 & K3 & K4 & K5)%moves_source_true. split.
    + rewrite map_app. apply NoDup_app. split_and!; [done| |by apply NoDup_singleton].
      intros x Hx Hx'. apply list_elem_of_singleton in Hx' as ->. done.
    + intros g [Hg| ->%list_elem_of_singleton]%elem_of_app; [eauto|]. rewrite <- K5. eauto.
    + intros g [Hg| ->%list_elem_of_singleton]%elem_of_app; [eauto|]. by rewrite Hs.
    + intros t s [Ht| ->%list_elem_of_singleton]%elem_of_app Hts.
      * destruct (I4 t s Ht Hts) as (src' & ? & ? & ?). exists src'. set_solver.
      * exists src. split; [set_solver|]. split; [congruence|done].
Qed.

Lemma fact_id_inj facts f g :
  NoDup (map fact_id facts) -> f ∈ facts -> g ∈ facts -> fact_id f = fact_id g -> f = g.
Proof.
  intros Hnd Hf Hg E. apply list_elem_of_lookup in Hf as [i Hi], Hg as [j Hj].
  assert (i = j) as <-; [|congruence].
  eapply NoDup_lookup; [exact Hnd| |]; rewrite list_lookup_fmap; [by rewrite Hi|rewrite Hj; cbn; by rewrite E].
Qed.

(** Some fact of the log names [f] as its source. *)
Definition is_moved (facts : list AllocationFact) (f : AllocationFact) : bool :=
  existsb (fun t => bool_decide (source_allocation_id t = Some (fact_id f))) facts.

Lemma is_moved_true facts f :
  is_moved facts f = true <-> exists t, t ∈ facts /\ source_allocation_id t = Some (fact_id f).
Proof.
  unfold is_moved. rewrite existsb_exists. setoid_rewrite bool_decide_eq_true.
  by setoid_rewrite <- list_elem_of_In.
Qed.

Lemma is_moved_snoc facts t f :
  is_moved (facts ++ [t]) f =
  is_moved facts f || bool_decide (source_allocation_id t = Some (fact_id f)).
Proof. unfold is_moved. rewrite existsb_app. cbn. by rewrite orb_false_r. Qed.

(** Facts with a given id: exactly one in a log that has it. *)
Lemma sum_where_id facts src (P : AllocationFact -> bool) :
  NoDup (map fact_id facts) -> src ∈ facts ->
  sum_where (fun f => P f && bool_decide (fact_id f = fact_id src)) facts =
    if P src then fact_amount src else 0.
Proof.
  unfold sum_where. intros Hnd Hin. induction facts as [|g facts IH]; [set_solver|].
  cbn in Hnd |- *. apply NoDup_cons in Hnd as [Hg Hnd].
  apply elem_of_cons in Hin as [->|Hin].
  - rewrite bool_decide_eq_true_2 by done. rewrite andb_true_r.
    enough (zsum (map (fun f => if P f && bool_decide (fact_id f = fact_id g) then fact_amount f else 0) facts) = 0)
      by lia.
    clear -Hg. induction facts as [|h facts IH]; [done|]. cbn in Hg |- *.
    rewrite bool_decide_eq_false_2 by set_solver. rewrite andb_false_r, IH; [done|set_solver].
  - rewrite bool_decide_eq_false_2; [rewrite andb_false_r, IH by done; lia|].
    intros E. apply Hg. rewrite E. by apply list_elem_of_fmap_2.
Qed.

Lemma of_kind_true l k f : of_kind l k f = true <-> lot_id f = l /\ alloc_kind f = k.
Proof. unfold of_kind. by rewrite andb_true_iff, !bool_decide_eq_true. Qed.

Lemma of_kind_other l k f : alloc_kind f <> k -> of_kind l k f = false.
Proof. intros H. apply not_true_is_false. rewrite of_kind_true. tauto. Qed.

(** What left the provisional state is what was finalized or reversed. *)
Lemma log_moved l facts : log_ok facts ->
  sum_where (fun f => of_kind l Allocated f && is_moved facts f) facts =
  lot_finalized l facts + lot_reversed l facts.
Proof.
  unfold lot_finalized, lot_reversed.
  induction 1 as [|facts f Hlog IH Hk Hs Ha Hid|facts f src Hlog IH Hk Hin Hs Hm Ho Hid]; [done| |].
  - rewrite !sum_where_snoc, (of_kind_other l Finalized), (of_kind_other l Reversed) by congruence.
    rewrite !Z.add_0_r.
    rewrite (sum_where_ext _ (fun g => of_kind l Allocated g && is_moved facts g)).
    2:{ intros g _. rewrite is_moved_snoc, Hs, bool_decide_eq_false_2 by done. by rewrite orb_false_r. }
    rewrite IH. replace (is_moved (facts ++ [f]) f) with false; [rewrite andb_false_r; lia|].
    symmetry. apply not_true_is_false. intros (t & Ht & Hts)%is_moved_true.
    apply elem_of_app in Ht as [Ht| ->%list_elem_of_singleton]; [|congruence].
    destruct (lf_source _ (log_ok_facts _ Hlog) t _ Ht Hts) as (s & Hsin & E & _).
    apply Hid. rewrite <- E. by apply list_elem_of_fmap_2.
  - pose proof Hm as (K1 & K2 & K3 & K4 & K5)%moves_source_true.
    pose proof (log_ok_facts _ Hlog) as [L1 L2 L3 L4].
    assert (Hnew : forall g, g ∈ facts ->
      (if of_kind l Allocated g && is_moved (facts ++ [f]) g then fact_amount g else 0) =
      (if of_kind l Allocated g && is_moved facts g then fact_amount g else 0) +
      (if of_kind l Allocated g && bool_decide (fact_id g = fact_id src) then fact_amount g else 0)).
    { intros g Hg. rewrite is_moved_snoc, Hs.
      destruct (of_kind l Allocated g); [|done]. cbn [andb].
      destruct (decide (fact_id g = fact_id src)) as [E|E].
      - rewrite (bool_decide_eq_true_2 (Some _ = _)), (bool_decide_eq_true_2 (fact_id g = _)) by congruence.
        replace (is_moved facts g) with false; [done|]. symmetry. apply not_true_is_false.
        intros (t & Ht & Hts)%is_moved_true. rewrite Forall_forall in Ho. apply (Ho t Ht). congruence.
      - rewrite (bool_decide_eq_false_2 (Some _ = _)), (bool_decide_eq_false_2 (fact_id g = _)) by congruence.
        rewrite orb_false_r. lia. }
    rewrite !sum_where_snoc.
    rewrite (of_kind_other l Allocated f) by done.
    cbn [andb]. unfold sum_where at 1.
    rewrite (map_ext_in _ _ facts (fun g Hg => Hnew g (proj2 (list_elem_of_In _ _) Hg))).
    rewrite zsum_map_add. fold (sum_where (fun g => of_kind l Allocated g && is_moved facts g) facts).
    fold (sum_where (fun g => of_kind l Allocated g && bool_decide (fact_id g = fact_id src)) facts).
    rewrite IH, sum_where_id by done.
    unfold of_kind. rewrite K1, K3, K5, (bool_decide_eq_true_2 (Allocated = _)), andb_true_r by done.
    case_bool_decide; destruct (alloc_kind f); try done; repeat case_bool_decide; try done; cbn [andb]; lia.
Qed.

Lemma sum_where_app P l k : sum_where P (l ++ k) = sum_where P l + sum_where P k.
Proof. unfold sum_where. by rewrite map_app, zsum_app. Qed.

Lemma sum_where_nonneg P facts : (forall f, f ∈ facts -> 0 < fact_amount f) -> 0 <= sum_where P facts.
Proof.
  intros H. apply zsum_nonneg. rewrite Forall_map, Forall_forall. intros f Hf.
  specialize (H f Hf). cbn. case_if; lia.
Qed.

Lemma sum_where_mono P Q facts :
  (forall f, f ∈ facts -> 0 < fact_amount f) ->
  (forall f, P f = true -> Q f = true) -> sum_where P facts <= sum_where Q facts.
Proof.
  intros H HPQ. apply zsum_map_le. intros f Hf. specialize (H f Hf).
  destruct (P f) eqn:E; [rewrite HPQ by done; lia|]. case_if; lia.
Qed.

(** The sums of a lot fit together and are bounded by the gross. *)
Lemma lot_sums l facts : log_ok facts ->
  0 <= lot_finalized l facts /\ 0 <= lot_reversed l facts /\
  lot_finalized l facts + lot_reversed l facts <= lot_gross l facts /\
  lot_net l facts = lot_gross l facts - lot_reversed l facts.
Proof.
  intros Hlog. pose proof (log_ok_facts _ Hlog) as [_ L2 _ _].
  split_and!; [by apply sum_where_nonneg..| |].
  - rewrite <- log_moved by done. apply sum_where_mono; [done|].
    by intros f [? _]%andb_true_iff.
  - unfold lot_net, lot_gross, lot_reversed, net_where, sum_where, of_kind, signed. clear.
    induction facts as [|f facts IH]; [done|]. cbn. rewrite IH.
    destruct (alloc_kind f); repeat case_bool_decide; try done; cbn [andb]; lia.
Qed.

Lemma sum_where_prefix P pre rest facts :
  facts = pre ++ rest -> (forall f, f ∈ facts -> 0 < fact_amount f) ->
  0 <= sum_where P pre <= sum_where P facts.
Proof.
  intros -> H. rewrite sum_where_app.
  pose proof (sum_where_nonneg P pre ltac:(intros; apply H; set_solver)).
  pose proof (sum_where_nonneg P rest ltac:(intros; apply H; set_solver)). lia.
Qed.

Lemma of_kind_lot l k f : lot_id f <> l -> of_kind l k f = false.
Proof. intros H. apply not_true_is_false. rewrite of_kind_true. tauto. Qed.

(** The source sets the first loop builds. *)
Definition sources_of (l : N) (k : AllocationKind) (facts : list AllocationFact) (s : gset N) : Prop :=
  forall n, n ∈ s <-> exists t, t ∈ facts /\ of_kind l k t = true /\ source_allocation_id t = Some n.

Lemma sources_of_snoc l k facts f s :
  sources_of l k facts s ->
  sources_of l k (facts ++ [f]) (if of_kind l k f then add_source s (source_allocation_id f) else s).
Proof.
  intros H n. unfold sources_of in H. unfold add_source.
  setoid_rewrite elem_of_app. setoid_rewrite list_elem_of_singleton.
  destruct (of_kind l k f) eqn:E; [destruct (source_allocation_id f) eqn:Es|].
  - rewrite elem_of_union, elem_of_singleton, H. split.
    + intros [->|(t & ?)]; [exists f; auto|exists t; tauto].
    + intros (t & [Ht| ->] & H2 & H3); [right; eauto|left; congruence].
  - rewrite H. split; [intros (t & ?); exists t; tauto|].
    intros (t & [Ht| ->] & H2 & H3); [eauto|congruence].
  - rewrite H. split; [intros (t & ?); exists t; tauto|].
    intros (t & [Ht| ->] & H2 & H3); [eauto|congruence].
Qed.

Lemma progress_loop {E} l facts : log_ok facts -> lot_gross l facts <= imax I64 ->
  exists p, foldM (E := E) (progress_step l)
      {| provisional := 0; finalized := 0; reversed_sources := ∅; finalized_sources := ∅ |} facts = Ok p /\
    provisional p = lot_gross l facts /\ finalized p = lot_finalized l facts /\
    sources_of l Reversed facts (reversed_sources p) /\
    sources_of l Finalized facts (finalized_sources p).
Proof.
  intros Hlog Hg. pose proof (log_ok_facts _ Hlog) as [_ L2 _ _].
  destruct (lot_sums l facts Hlog) as (S1 & S2 & S3 & _).
  apply (foldM_total (progress_step l) (fun done p =>
    provisional p = lot_gross l done /\ finalized p = lot_finalized l done /\
    sources_of l Reversed done (reversed_sources p) /\
    sources_of l Finalized done (finalized_sources p))).
  - split_and!; try done; intros n; cbn; set_solver.
  - intros done f rest p E0 (P1 & P2 & P3 & P4).
    assert (Hb : forall P, 0 <= sum_where P (done ++ [f]) <= sum_where P facts).
    { intros P. apply (sum_where_prefix P _ rest); [|done]. by rewrite <- app_assoc. }
    pose proof (Hb (of_kind l Allocated)) as B1. pose proof (Hb (of_kind l Finalized)) as B2.
    pose proof (sources_of_snoc l Reversed done f _ P3) as R.
    pose proof (sources_of_snoc l Finalized done f _ P4) as F.
    unfold lot_gross, lot_finalized in *. rewrite sum_where_snoc in B1, B2.
    setoid_rewrite sum_where_snoc. unfold progress_step.
    case_bool_decide as Hl.
    + rewrite !(of_kind_lot l) in * by done. exists p. split_and!; done || lia.
    + destruct (alloc_kind f) eqn:Ek.
      all: repeat first [rewrite (proj2 (of_kind_true l _ f)) in * by done
                        |rewrite (of_kind_other l _ f) in * by congruence].
      * rewrite arith_in by ty. eexists. split; [done|]. cbn [provisional finalized reversed_sources finalized_sources].
        split_and!; done || lia.
      * rewrite arith_in by ty. eexists. split; [done|]. cbn [provisional finalized reversed_sources finalized_sources].
        split_and!; done || lia.
      * eexists. split; [done|]. cbn [provisional finalized reversed_sources finalized_sources].
        split_and!; done || lia.
Qed.

(** Membership in the two source sets is having a terminal child. *)
Lemma sources_moved l facts fin rev f :
  log_ok facts -> sources_of l Finalized facts fin -> sources_of l Reversed facts rev ->
  f ∈ facts -> of_kind l Allocated f = true ->
  bool_decide (fact_id f ∈ fin) || bool_decide (fact_id f ∈ rev) = is_moved facts f.
Proof.
  intros Hlog HF HR Hf [Hl Hk]%of_kind_true. pose proof (log_ok_facts _ Hlog) as [L1 L2 L3 L4].
  apply eq_bool_prop_intro. rewrite !Is_true_true, orb_true_iff, !bool_decide_eq_true, is_moved_true.
  rewrite (HF _), (HR _). split; [naive_solver|].
  intros (t & Ht & Hts). destruct (L4 t _ Ht Hts) as (src & Hin & E & Hm).
  assert (src = f) as -> by (by eapply fact_id_inj).
  apply moves_source_true in Hm as (_ & _ & Hlot & _).
  destruct (alloc_kind t) eqn:Ekt; [apply L3 in Ekt; [congruence|done]|left|right];
    exists t; (split; [done|]); split; [apply of_kind_true; split; congruence|done
                                       |apply of_kind_true; split; congruence|done].
Qed.

(** [lot_progress] is exact on every log whose gross fits: the live allocations
    and the finalized total, which together are the net. *)
Lemma lot_progress_ok {E} l facts : log_ok facts -> lot_gross l facts <= imax I64 ->
  lot_progress (E := E) facts l =
    Ok (lot_gross l facts - lot_finalized l facts - lot_reversed l facts, lot_finalized l facts).
Proof.
  intros Hlog Hg. destruct (progress_loop (E := E) l facts Hlog Hg) as (p & Hp & P1 & P2 & P3 & P4).
  unfold lot_progress. rewrite Hp. cbn [mbind outcome_bind].
  pose proof (log_ok_facts _ Hlog) as [_ L2 _ _].
  destruct (lot_sums l facts Hlog) as (S1 & S2 & S3 & _). pose proof (log_moved l facts Hlog) as Hmv.
  set (Q := fun f => of_kind l Allocated f && is_moved facts f) in *.
  destruct (foldM_total (E := E) (release_step l (finalized_sources p) (reversed_sources p))
    (fun done v => v = lot_gross l facts - sum_where Q done) (provisional p) facts) as (v & -> & ->).
  - rewrite P1. cbn. lia.
  - intros done f rest v E0 ->. eexists. split; [|done]. rewrite sum_where_snoc.
    pose proof (sum_where_prefix Q (done ++ [f]) rest facts ltac:(by rewrite <- app_assoc) L2) as HQ.
    rewrite sum_where_snoc in HQ. assert (Hf : f ∈ facts) by (rewrite E0; set_solver).
    unfold release_step. destruct (of_kind l Allocated f) eqn:Eo.
    + pose proof Eo as [Hl Hk]%of_kind_true.
      rewrite (sources_moved l facts _ _ f Hlog P4 P3 Hf Eo).
      rewrite !bool_decide_eq_false_2 by (by intros ?). cbn [orb].
      unfold Q in *. rewrite Eo in *. cbn [andb] in *. destruct (is_moved facts f); [|f_equal; lia].
      rewrite arith_in by ty. f_equal. lia.
    + unfold Q in *. rewrite Eo in *. cbn [andb] in *.
      replace (bool_decide (lot_id f <> l) || bool_decide (alloc_kind f <> Allocated)) with true;
        [f_equal; lia|]. symmetry. apply orb_true_iff. rewrite !bool_decide_eq_true.
      destruct (decide (lot_id f = l)); [|by left]. right. intros Hk.
      rewrite (proj2 (of_kind_true l Allocated f)) in Eo; done.
  - cbn [mbind outcome_bind]. rewrite P2, Hmv. f_equal. f_equal. lia.
Qed.

Lemma existsb_false {A} (P : A -> bool) l : existsb P l = false <-> Forall (fun x => P x = false) l.
Proof.
  induction l as [|a l IH]; cbn; [by split|]. by rewrite orb_false_iff, Forall_cons, IH.
Qed.

Lemma insert_row_Ok db f db' : insert_row db f = Ok db' ->
  0 < fact_amount f /\ (alloc_kind f = Allocated <-> source_allocation_id f = None) /\
  fact_id f ∉ map fact_id (db_facts db) /\ is_Some (db_lots db !! lot_id f) /\
  db' = {| db_trades := db_trades db; db_lots := db_lots db; db_facts := db_facts db ++ [f] |}.
Proof.
  unfold insert_row. intros H.
  destruct (Z.leb_spec (fact_amount f) 0); [done|].
  destruct (negb _) eqn:Hshape; [done|]. destruct (existsb _ _) eqn:Hex; [done|].
  case_bool_decide as Hlot; [done|]. injection H as <-.
  apply negb_false_iff, eqb_prop in Hshape. apply existsb_false in Hex. split_and!; try done.
  - by repeat case_bool_decide.
  - intros (g & E & Hg)%list_elem_of_fmap. rewrite Forall_forall in Hex. specialize (Hex g Hg).
    rewrite bool_decide_eq_true_2 in Hex by done. done.
  - by apply not_eq_None_Some.
Qed.

Lemma guard_terminal_Ok db f : guard_terminal db f = Ok tt ->
  exists src, src ∈ db_facts db /\ source_allocation_id f = Some (fact_id src) /\
    moves_source src f = true /\
    Forall (fun t => source_allocation_id t <> Some (fact_id src)) (db_facts db).
Proof.
  unfold guard_terminal. intros H. inv_run H. apply find_some in Hr0 as [Hin Hid].
  apply bool_decide_eq_true in Hid. subst v.
  exists v0. split_and!; [by apply list_elem_of_In|done|by apply negb_false_iff|].
  apply existsb_false in Hc0. eapply Forall_impl; [exact Hc0|]. cbn beta.
  intros t. by rewrite bool_decide_eq_false.
Qed.

Lemma guard_allocated_Ok db f : guard_allocated db f = Ok tt ->
  exists fm row, db_trades db !! trade_id f = Some fm /\ db_lots db !! lot_id f = Some row /\
    source_allocation_id f = None /\
    trade_net (trade_id f) (db_facts db) + fact_amount f <= fm.1 /\
    lot_net (lot_id f) (db_facts db) + fact_amount f <= lot_amount row.
Proof.
  unfold guard_allocated, bigint. intros H. inv_run H. apply bool_decide_eq_false in Hc.
  bool_hyps. do 2 eexists. split_and!; [done|done| |done|done].
  destruct (source_allocation_id f); [|done]. by destruct Hc.
Qed.

(** Appending a fact changes the net of its own lot and trade only. *)
Lemma lot_net_snoc l facts f :
  lot_net l (facts ++ [f]) = lot_net l facts + if bool_decide (lot_id f = l) then signed f else 0.
Proof. apply net_where_snoc. Qed.

Lemma trade_net_snoc t facts f :
  trade_net t (facts ++ [f]) = trade_net t facts + if bool_decide (trade_id f = t) then signed f else 0.
Proof. apply net_where_snoc. Qed.

Lemma insert_allocation_wf db f db' :
  credits_wf db -> insert_allocation db f = Ok db' ->
  credits_wf db' /\ db_lots db' = db_lots db /\ db_trades db' = db_trades db.
Proof.
  intros Hwf H. unfold insert_allocation in H.
  destruct (List.find _ _) as [ex|]; [destruct (same_allocation ex f); [injection H as <-|]; done|].
  apply bind_Ok in H as ([] & Hg & H). apply insert_row_Ok in H as (Ha & Hsh & Hid & Hlot & ->).
  split; [|done]. destruct Hwf as [W1 W2 W3 W4 W5 W6].
  assert (Hcases : (alloc_kind f = Allocated /\ guard_allocated db f = Ok tt) \/
                   (alloc_kind f <> Allocated /\ guard_terminal db f = Ok tt))
    by (destruct (alloc_kind f); auto).
  clear Hg. destruct Hcases as [[Hk Hg]|[Hk Hg]].
  - apply guard_allocated_Ok in Hg as (fm & row & G1 & G2 & G3 & G4 & G5).
    split; cbn [db_facts db_lots db_trades]; try done.
    + by apply log_allocate.
    + apply Forall_app. split; [done|]. constructor; [|constructor]. by rewrite G1, G2.
    + intros l r Hl. rewrite lot_net_snoc. unfold signed. rewrite Hk. specialize (W4 l r Hl).
      case_bool_decide as E; [|lia]. subst l. simplify_eq. lia.
    + intros t fm' Ht. rewrite trade_net_snoc. unfold signed. rewrite Hk. specialize (W6 t fm' Ht).
      case_bool_decide as E; [|lia]. subst t. simplify_eq. lia.
  - apply guard_terminal_Ok in Hg as (src & G1 & G2 & G3 & G4).
    assert (Hs : signed f <= 0) by (unfold signed; destruct (alloc_kind f); done || lia).
    split; cbn [db_facts db_lots db_trades]; try done.
    + by eapply log_terminal.
    + apply Forall_app. split; [done|]. constructor; [|constructor].
      apply moves_source_true in G3 as (_ & <- & <- & _). rewrite Forall_forall in W2. by apply W2.
    + intros l r Hl. rewrite lot_net_snoc. specialize (W4 l r Hl). case_bool_decide; lia.
    + intros t fm Ht. rewrite trade_net_snoc. specialize (W6 t fm Ht). case_bool_decide; lia.
Qed.

Lemma credit_run_wf db db' : credits_wf db -> credit_run db db' ->
  credits_wf db' /\ db_lots db' = db_lots db /\ db_trades db' = db_trades db.
Proof.
  intros Hwf. induction 1 as [|db db' db'' f _ IH Hi]; [done|].
  destruct (IH Hwf) as (H1 & H2 & H3).
  destruct (insert_allocation_wf db' f db'' H1 Hi) as (J1 & J2 & J3). split_and!; congruence.
Qed.

(** ** The planner *)

Lemma lot_net_nonneg l facts : log_ok facts -> 0 <= lot_net l facts.
Proof. intros H. destruct (lot_sums l facts H) as (? & ? & ? & ?). lia. Qed.

Lemma lot_remaining_ok {E} row facts :
  log_ok facts -> lot_gross (lot_row_id row) facts <= imax I64 ->
  lot_net (lot_row_id row) facts <= lot_amount row <= imax I64 -> converted_at row = None ->
  lot_remaining (E := E) row facts = Ok (lot_amount row - lot_net (lot_row_id row) facts).
Proof.
  intros Hlog Hg Hb Hc. unfold lot_remaining. rewrite bool_decide_eq_false_2 by (rewrite Hc; by intros []).
  rewrite lot_progress_ok by done. cbn [mbind outcome_bind fst snd].
  destruct (lot_sums (lot_row_id row) facts Hlog) as (S1 & S2 & S3 & S4).
  rewrite !arith_in by ty. cbn [mbind outcome_bind]. rewrite !arith_in by ty. cbn [mbind outcome_bind].
  f_equal. lia.
Qed.

(** What a lot can still absorb. *)
Definition capacity (facts : list AllocationFact) (row : CreditLotRow) : Z :=
  if bool_decide (converted_at row = None)
  then lot_amount row - lot_net (lot_row_id row) facts else 0.

Definition lot_fits (facts : list AllocationFact) (row : CreditLotRow) : Prop :=
  lot_gross (lot_row_id row) facts <= imax I64 /\
  lot_net (lot_row_id row) facts <= lot_amount row <= imax I64.

Lemma capacities_of_ok {E} lots facts :
  log_ok facts -> Forall (lot_fits facts) lots -> NoDup (map lot_row_id lots) ->
  exists caps, capacities_of (E := E) lots facts = Ok caps /\
    NoDup (map cap_lot caps) /\
    Forall (fun c => exists row, row ∈ lots /\ lot_row_id row = cap_lot c /\ 0 <= remaining_micro c /\
              remaining_micro c + lot_net (cap_lot c) facts <= lot_amount row) caps /\
    zsum (map remaining_micro caps) = zsum (map (capacity facts) lots).
Proof.
  intros Hlog. induction 1 as [|row lots [F1 F2] _ IH]; intros Hnd; [by exists []|].
  cbn [map] in Hnd. apply NoDup_cons in Hnd as [Hni Hnd].
  destruct (IH Hnd) as (caps & E1 & E2 & E3 & E4). cbn [capacities_of map zsum]. unfold capacity at 1.
  assert (E3' : Forall (fun c => exists r, r ∈ row :: lots /\ lot_row_id r = cap_lot c /\
            0 <= remaining_micro c /\ remaining_micro c + lot_net (cap_lot c) facts <= lot_amount r) caps).
  { eapply Forall_impl; [exact E3|]. intros c (r & ? & ?). exists r. set_solver. }
  case_bool_decide as Hc; [|exists caps; split_and!; done].
  rewrite (lot_remaining_ok row facts Hlog F1 F2 Hc), E1. cbn [mbind outcome_bind].
  eexists. split; [done|]. cbn [map zsum cap_lot remaining_micro]. split_and!; [| |lia].
  - apply NoDup_cons. split; [|done]. intros (c & Ec & Hin)%list_elem_of_fmap. apply Hni.
    rewrite Forall_forall in E3. destruct (E3 c Hin) as (r & Hr & Er & _). rewrite Ec, <- Er.
    by apply list_elem_of_fmap_2.
  - constructor; [|done]. exists row. cbn. split_and!; [set_solver|done|lia|lia].
Qed.

Lemma split_loop_ok {E} caps left :
  0 <= left <= imax I64 -> Forall (fun c => 0 <= remaining_micro c) caps ->
  exists out, split_loop (E := E) caps left = Ok out /\
    zsum (map snd out) = Z.min left (zsum (map remaining_micro caps)) /\
    sublist (map (fun o => o.1.1) out) (map cap_lot caps) /\
    Forall (fun o => o.1.2 = 0 /\ 0 < o.2 /\
              exists c, c ∈ caps /\ cap_lot c = o.1.1 /\ o.2 <= remaining_micro c) out.
Proof.
  intros Hl Hc. revert left Hl. induction Hc as [|c caps H0 Hc IH]; intros left Hl; cbn [split_loop].
  - exists []. cbn. split_and!; [done|lia|constructor|constructor].
  - assert (Hs : 0 <= zsum (map remaining_micro caps)) by (apply zsum_nonneg; by rewrite Forall_map).
    destruct (Z.eqb_spec left 0) as [->|].
    { exists []. cbn. split_and!; [done|lia|apply sublist_nil_l|constructor]. }
    destruct (Z.leb_spec (remaining_micro c) 0).
    + destruct (IH left Hl) as (out & -> & S1 & S2 & S3). exists out. split; [done|].
      split_and!; [cbn; lia|by apply sublist_cons|].
      eapply Forall_impl; [exact S3|]. cbn beta. intros o (? & ? & c' & ? & ?). set_solver.
    + rewrite arith_in by ty. cbn [mbind outcome_bind].
      destruct (IH (left - Z.min left (remaining_micro c)) ltac:(lia)) as (out & -> & S1 & S2 & S3).
      cbn [mbind outcome_bind]. eexists. split; [done|]. cbn [map zsum fst snd]. split_and!; [lia| |].
      * by apply sublist_skip.
      * constructor; [cbn; split_and!; [done|lia|]; exists c; split_and!; [set_solver|done|lia]|].
        eapply Forall_impl; [exact S3|]. cbn beta. intros o (? & ? & c' & ? & ?). set_solver.
Qed.

Definition planned_fact (fresh : nat -> N) (trade : N) (n : nat) (o : N * Z * Z) : AllocationFact :=
  {| fact_id := fresh n; trade_id := trade; lot_id := o.1.1; split_seq := o.1.2; fact_amount := o.2;
     alloc_kind := Allocated; source_allocation_id := None;
     idempotency_key := AllocKey trade o.1.1 o.1.2 |}.

Fixpoint planned_facts (fresh : nat -> N) (trade : N) (n : nat) (out : list (N * Z * Z)) :=
  match out with [] => [] | o :: out => planned_fact fresh trade n o :: planned_facts fresh trade (S n) out end.

Lemma plan_loop_ok fresh n facts trade out :
  Forall (fun o => 0 < o.2) out -> Forall (fun f => trade_id f <> trade) facts ->
  plan_loop fresh n facts trade out = Ok (planned_facts fresh trade n out).
Proof.
  intros Ho Hf. revert n. induction Ho as [|[[l s] a] out Ha _ IH]; intros n; [done|].
  cbn [plan_loop planned_facts]. unfold check_allocate. cbn in Ha.
  destruct (Z.leb_spec a 0); [lia|].
  replace (existsb (is_allocated_key trade l s) facts) with false.
  - cbn [mbind outcome_bind]. by rewrite IH.
  - symmetry. apply existsb_false. eapply Forall_impl; [exact Hf|]. cbn beta. intros f Hft.
    unfold is_allocated_key. by rewrite bool_decide_eq_false_2.
Qed.

(** A fact of trade [t] with a fresh id and key and room in its lot and fee. *)
Record insertable (db : CreditDb) (t : N) (f : AllocationFact) : Prop := {
  ins_kind : alloc_kind f = Allocated;
  ins_source : source_allocation_id f = None;
  ins_trade : trade_id f = t;
  ins_key : idempotency_key f = AllocKey t (lot_id f) (split_seq f);
  ins_amount : 0 < fact_amount f;
  ins_id : fact_id f ∉ map fact_id (db_facts db);
  ins_new : Forall (fun g => idempotency_key g <> idempotency_key f /\
                             ~ (trade_id g = t /\ lot_id g = lot_id f)) (db_facts db);
  ins_room : exists row, db_lots db !! lot_id f = Some row /\
               lot_net (lot_id f) (db_facts db) + fact_amount f <= lot_amount row }.

Lemma insertable_Ok db t f fm :
  credits_wf db -> insertable db t f -> db_trades db !! t = Some fm ->
  0 <= trade_net t (db_facts db) -> trade_net t (db_facts db) + fact_amount f <= fm.1 ->
  insert_allocation db f =
    Ok {| db_trades := db_trades db; db_lots := db_lots db; db_facts := db_facts db ++ [f] |}.
Proof.
  intros [W1 W2 W3 W4 W5 W6] [I1 I2 I3 I4 I5 I6 I7 (row & Hr & Hroom)] Ht H0 Hfee.
  destruct (W5 t fm Ht) as [Hty _]. destruct (W3 _ _ Hr) as [_ Hamt].
  pose proof (lot_net_nonneg (lot_id f) _ W1) as Hnn.
  unfold insert_allocation.
  replace (List.find _ (db_facts db)) with (@None AllocationFact).
  2:{ symmetry. clear -I7. induction I7 as [|g l [Hg _] _ IH]; [done|]. cbn.
      by rewrite bool_decide_eq_false_2. }
  rewrite I1. unfold guard_allocated, bigint.
  rewrite bool_decide_eq_false_2 by (rewrite I2; by intros []). rewrite I3, Ht. cbn [ok_or mbind outcome_bind].
  unfold trade_net, lot_net in *.
  rewrite Hr. cbn [ok_or mbind outcome_bind].
  repeat (rewrite checked_in by ty; cbn [ok_or mbind outcome_bind]).
  rewrite (proj2 (Z.ltb_ge _ _) Hfee), (proj2 (Z.ltb_ge _ _) Hroom). cbn [mbind outcome_bind].
  unfold insert_row. rewrite (proj2 (Z.leb_gt _ _) I5), I1, I2. cbn [negb Bool.eqb].
  rewrite !bool_decide_eq_true_2 by done. cbn [Bool.eqb negb].
  replace (existsb _ (db_facts db)) with false.
  - rewrite bool_decide_eq_false_2 by (by rewrite Hr). done.
  - symmetry. apply existsb_false, Forall_forall. intros g Hg. rewrite Forall_forall in I7.
    destruct (I7 g Hg) as [K1 K2]. rewrite (bool_decide_eq_false_2 (fact_id g = _)).
    + rewrite (bool_decide_eq_false_2 (idempotency_key g = _)) by done.
      rewrite (bool_decide_eq_false_2 (is_Some None)) by (by intros []). cbn [orb andb].
      rewrite orb_false_r. unfold is_allocated_key. rewrite I3.
      destruct (decide (trade_id g = t)); [|by rewrite bool_decide_eq_false_2].
      rewrite (bool_decide_eq_false_2 (lot_id g = _)) by naive_solver. by rewrite andb_false_r.
    + intros E. apply I6. rewrite <- E. by apply list_elem_of_fmap_2.
Qed.

Lemma insert_planned db t fm fs :
  credits_wf db -> db_trades db !! t = Some fm -> Forall (insertable db t) fs ->
  NoDup (map fact_id fs) -> NoDup (map lot_id fs) -> 0 <= trade_net t (db_facts db) ->
  trade_net t (db_facts db) + zsum (map fact_amount fs) <= fm.1 ->
  exists db', foldM insert_allocation db fs = Ok db' /\ db_facts db' = db_facts db ++ fs /\ credits_wf db'.
Proof.
  revert db. induction fs as [|f fs IH]; intros db Hwf Ht Hins Hids Hlots H0 Hsum.
  { exists db. by rewrite app_nil_r. }
  apply Forall_cons in Hins as [Hf Hins]. cbn [map zsum] in *.
  apply NoDup_cons in Hids as [Hid Hids], Hlots as [Hlot Hlots].
  assert (Hpos : 0 <= zsum (map fact_amount fs)).
  { apply zsum_nonneg. rewrite Forall_map. eapply Forall_impl; [exact Hins|].
    intros g Hg. pose proof (ins_amount _ _ _ Hg). cbn. lia. }
  pose proof (insertable_Ok db t f fm Hwf Hf Ht H0 ltac:(lia)) as Hi.
  destruct (insert_allocation_wf _ _ _ Hwf Hi) as [Hwf' _].
  destruct Hf as [I1 I2 I3 I4 I5 I6 I7 I8].
  set (db1 := {| db_trades := db_trades db; db_lots := db_lots db; db_facts := db_facts db ++ [f] |}) in *.
  assert (Hn : trade_net t (db_facts db1) = trade_net t (db_facts db) + fact_amount f).
  { unfold db1. cbn [db_facts]. rewrite trade_net_snoc, bool_decide_eq_true_2 by done. unfold signed. by rewrite I1. }
  destruct (IH db1) as (db' & E1 & E2 & E3); [done|done| |done|done|lia|lia|].
  - apply Forall_forall. intros g Hg. rewrite Forall_forall in Hins.
    destruct (Hins g Hg) as [J1 J2 J3 J4 J5 J6 J7 (row & Jr & Jroom)].
    assert (Hlg : lot_id g <> lot_id f).
    { intros E. apply Hlot. rewrite <- E. by apply list_elem_of_fmap_2. }
    split; cbn [db_facts db_lots db1]; try done.
    + rewrite map_app. cbn. rewrite elem_of_app, list_elem_of_singleton. intros [?|E]; [done|].
      apply Hid. rewrite <- E. by apply list_elem_of_fmap_2.
    + apply Forall_app. split; [done|]. constructor; [|constructor]. split; [|naive_solver].
      rewrite I4, J4. congruence.
    + exists row. split; [done|]. rewrite lot_net_snoc, bool_decide_eq_false_2 by done. lia.
  - exists db'. cbn [foldM]. rewrite Hi. cbn [mbind outcome_bind]. split_and!; [done| |done].
    rewrite E2. cbn. by rewrite <- app_assoc.
Qed.

Lemma planned_facts_shape fresh t n out :
  map fact_id (planned_facts fresh t n out) = map fresh (seq n (length out)) /\
  map lot_id (planned_facts fresh t n out) = map (fun o => o.1.1) out /\
  map fact_amount (planned_facts fresh t n out) = map snd out.
Proof.
  revert n. induction out as [|o out IH]; intros n; [done|].
  destruct (IH (S n)) as (H1 & H2 & H3). cbn. by rewrite H1, H2, H3.
Qed.

Lemma planned_facts_elem fresh t n out f :
  f ∈ planned_facts fresh t n out -> exists k o, o ∈ out /\ f = planned_fact fresh t k o.
Proof.
  revert n. induction out as [|o out IH]; intros n; [by intros ?%not_elem_of_nil|].
  cbn. rewrite elem_of_cons. intros [->|Hf]; [exists n, o; set_solver|].
  destruct (IH _ Hf) as (k & o' & ? & ->). exists k, o'. set_solver.
Qed.

Lemma net_where_none P facts : Forall (fun f => P f = false) facts -> net_where P facts = 0.
Proof. unfold net_where. induction 1 as [|f l Hf _ IH]; [done|]. cbn. rewrite Hf. lia. Qed.

(** ** Moving the allocations of a market *)

Lemma find_by_id facts f :
  NoDup (map fact_id facts) -> f ∈ facts ->
  List.find (fun g => bool_decide (fact_id g = fact_id f)) facts = Some f.
Proof.
  intros Hnd Hin. destruct (List.find _ facts) as [g|] eqn:E.
  - apply find_some in E as [Hg Hid]. apply bool_decide_eq_true in Hid. f_equal.
    eapply fact_id_inj; [done| |done|done]. by apply list_elem_of_In.
  - eapply find_none in E; [|by apply list_elem_of_In]. by rewrite bool_decide_eq_true_2 in E.
Qed.

Lemma is_live_true facts f :
  is_live facts f = true <-> alloc_kind f = Allocated /\
    Forall (fun t => source_allocation_id t <> Some (fact_id f)) facts.
Proof.
  unfold is_live. rewrite andb_true_iff, negb_true_iff, bool_decide_eq_true, existsb_false.
  setoid_rewrite bool_decide_eq_false. done.
Qed.

(** Terminal idempotency keys name the source they move. *)
Definition keys_ok (facts : list AllocationFact) : Prop :=
  Forall (fun f => match idempotency_key f with
                   | FinalKey _ s | RevKey _ s => source_allocation_id f = Some s
                   | _ => True
                   end) facts.

Definition terminal_fact (fresh : nat -> N) (kind : AllocationKind) (n : nat) (row : AllocationFact) :
    AllocationFact :=
  {| fact_id := fresh n; trade_id := trade_id row; lot_id := lot_id row; split_seq := split_seq row;
     fact_amount := fact_amount row; alloc_kind := kind; source_allocation_id := Some (fact_id row);
     idempotency_key := match kind with
                        | Reversed => RevKey (trade_id row) (fact_id row)
                        | _ => FinalKey (trade_id row) (fact_id row)
                        end |}.

Lemma insert_terminal db row fresh kind n :
  credits_wf db -> keys_ok (db_facts db) -> kind <> Allocated -> row ∈ db_facts db ->
  is_live (db_facts db) row = true -> fresh n ∉ map fact_id (db_facts db) ->
  insert_allocation db (terminal_fact fresh kind n row) =
    Ok {| db_trades := db_trades db; db_lots := db_lots db;
          db_facts := db_facts db ++ [terminal_fact fresh kind n row] |}.
Proof.
  intros [W1 W2 W3 W4 W5 W6] Hkeys Hk Hin [Hka Hlive]%is_live_true Hid.
  pose proof (log_ok_facts _ W1) as [L1 L2 _ _]. set (f := terminal_fact fresh kind n row).
  assert (Hnk : Forall (fun g => idempotency_key g <> idempotency_key f) (db_facts db)).
  { apply Forall_forall. intros g Hg E. unfold keys_ok in Hkeys. rewrite Forall_forall in Hkeys, Hlive.
    specialize (Hkeys g Hg). apply (Hlive g Hg). rewrite E in Hkeys. by destruct kind. }
  unfold insert_allocation. replace (List.find _ (db_facts db)) with (@None AllocationFact).
  2:{ symmetry. clear -Hnk. induction Hnk as [|g l Hg _ IH]; [done|]. cbn.
      by rewrite bool_decide_eq_false_2. }
  assert (Hg : guard_terminal db f = Ok tt).
  { unfold guard_terminal. cbn [f terminal_fact source_allocation_id ok_or mbind outcome_bind].
    rewrite find_by_id by done. cbn [ok_or mbind outcome_bind].
    replace (moves_source row f) with true by (symmetry; by apply moves_source_true). cbn [negb].
    replace (existsb _ (db_facts db)) with false; [done|]. symmetry. apply existsb_false.
    eapply Forall_impl; [exact Hlive|]. intros t. by rewrite bool_decide_eq_false. }
  assert (Hrow : insert_row db f = Ok {| db_trades := db_trades db; db_lots := db_lots db;
                                         db_facts := db_facts db ++ [f] |}).
  { unfold insert_row. specialize (L2 row Hin).
    rewrite (proj2 (Z.leb_gt (fact_amount f) 0)) by done.
    rewrite (bool_decide_eq_false_2 (alloc_kind f = _)), (bool_decide_eq_false_2 (source_allocation_id f = _)) by done.
    cbn [Bool.eqb negb andb]. replace (existsb _ (db_facts db)) with false.
    - rewrite Forall_forall in W2. destruct (W2 row Hin) as [[r Hr] _]. cbn [lot_id f terminal_fact].
      by rewrite bool_decide_eq_false_2 by (by rewrite Hr).
    - symmetry. apply existsb_false, Forall_forall. intros g Hgin. rewrite Forall_forall in Hnk, Hlive.
      rewrite (bool_decide_eq_false_2 (idempotency_key g = _)) by (by apply Hnk).
      rewrite (bool_decide_eq_false_2 (source_allocation_id g = _)) by (by apply Hlive).
      rewrite andb_false_r, orb_false_r, (bool_decide_eq_false_2 (fact_id g = _)); [done|].
      intros E. apply Hid. change (fresh n) with (fact_id f). rewrite <- E. by apply list_elem_of_fmap_2. }
  cbn [f terminal_fact alloc_kind] in *. destruct kind; [done| |]; by rewrite Hg, Hrow.
Qed.

Fixpoint terminals (fresh : nat -> N) (kind : AllocationKind) (n : nat) (rows : list AllocationFact) :=
  match rows with
  | [] => []
  | row :: rows => terminal_fact fresh kind n row :: terminals fresh kind (S n) rows
  end.

Lemma move_loop_ok fresh kind rows db n moved :
  (forall i j, fresh i = fresh j -> i = j) -> kind <> Allocated ->
  credits_wf db -> keys_ok (db_facts db) -> NoDup (map fact_id rows) ->
  Forall (fun r => r ∈ db_facts db /\ is_live (db_facts db) r = true) rows ->
  (forall i, (n <= i)%nat -> fresh i ∉ map fact_id (db_facts db)) ->
  0 <= moved -> moved + zlen rows <= imax U32 ->
  exists db', move_loop fresh n kind db rows moved = Ok (db', moved + zlen rows) /\
    db_facts db' = db_facts db ++ terminals fresh kind n rows /\ credits_wf db' /\
    db_trades db' = db_trades db.
Proof.
  intros Hinj Hk. revert db n moved.
  induction rows as [|row rows IH]; intros db n moved Hwf Hkeys Hnd Hrows Hfresh H0 Hmax; cbn [move_loop terminals].
  { exists db. rewrite app_nil_r. unfold zlen. cbn. by rewrite Z.add_0_r. }
  apply Forall_cons in Hrows as [[Hin Hlive] Hrows]. cbn [map] in Hnd.
  apply NoDup_cons in Hnd as [Hni Hnd]. rewrite zlen_cons in *. pose proof (zlen_nonneg rows).
  set (f := terminal_fact fresh kind n row).
  assert (Hi := insert_terminal db row fresh kind n Hwf Hkeys Hk Hin Hlive (Hfresh n ltac:(lia))).
  fold f in Hi. destruct (insert_allocation_wf _ _ _ Hwf Hi) as [Hwf' _].
  set (db1 := {| db_trades := db_trades db; db_lots := db_lots db; db_facts := db_facts db ++ [f] |}) in *.
  replace (terminal_key kind (trade_id row) (fact_id row)) with (@Ok StoreError _ (idempotency_key f))
    by (by destruct kind). cbn [mbind outcome_bind].
  change {| fact_id := fresh n; trade_id := trade_id row; lot_id := lot_id row;
            split_seq := split_seq row; fact_amount := fact_amount row; alloc_kind := kind;
            source_allocation_id := Some (fact_id row); idempotency_key := idempotency_key f |} with f.
  rewrite Hi. cbn [mbind outcome_bind]. rewrite checked_in by ty. cbn [ok_or mbind outcome_bind].
  destruct (IH db1 (S n) (moved + 1)) as (db' & E1 & E2 & E3 & E4); [done| |done| | |lia|lia|].
  - apply Forall_app. split; [done|]. constructor; [|constructor]. by destruct kind.
  - apply Forall_forall. intros r Hr. rewrite Forall_forall in Hrows. destruct (Hrows r Hr) as [K1 K2].
    unfold db1. cbn [db_facts]. split; [set_solver|]. apply is_live_true in K2 as [K2 K3].
    apply is_live_true. split; [done|]. apply Forall_app. split; [done|]. constructor; [|constructor].
    cbn. intros [= E]. apply Hni. rewrite E. by apply list_elem_of_fmap_2.
  - intros i Hi'. unfold db1. cbn [db_facts]. rewrite map_app, elem_of_app. cbn.
    rewrite list_elem_of_singleton. intros [?|E]; [apply (Hfresh i ltac:(lia)); done|].
    apply Hinj in E. lia.
  - exists db'. rewrite E1. split_and!; [f_equal; f_equal; lia| |done|done].
    rewrite E2. unfold db1. cbn [db_facts]. by rewrite <- app_assoc.
Qed.

Lemma terminals_elem fresh kind n rows f :
  f ∈ terminals fresh kind n rows -> exists k r, r ∈ rows /\ f = terminal_fact fresh kind k r.
Proof.
  revert n. induction rows as [|o out IH]; intros n; [by intros ?%not_elem_of_nil|].
  cbn. rewrite elem_of_cons. intros [->|Hf]; [exists n, o; set_solver|].
  destruct (IH _ Hf) as (k & o' & ? & ->). exists k, o'. set_solver.
Qed.

Lemma terminals_moved fresh kind n rows r :
  r ∈ rows -> exists f, f ∈ terminals fresh kind n rows /\ source_allocation_id f = Some (fact_id r).
Proof.
  revert n. induction rows as [|o out IH]; intros n; [by intros ?%not_elem_of_nil|].
  cbn. rewrite elem_of_cons. intros [->|Hr].
  { exists (terminal_fact fresh kind n o). split; [by left|done]. }
  destruct (IH (S n) Hr) as (f & ? & ?). exists f. set_solver.
Qed.

Lemma terminals_sum fresh kind n rows l k :
  sum_where (of_kind l k) (terminals fresh kind n rows) =
    if bool_decide (kind = k) then sum_where (fun r => bool_decide (lot_id r = l)) rows else 0.
Proof.
  revert n. unfold sum_where. induction rows as [|r rows IH]; intros n; [by case_bool_decide|].
  cbn [terminals map zsum]. rewrite IH. unfold of_kind. cbn [terminal_fact lot_id alloc_kind fact_amount].
  case_bool_decide; [|rewrite andb_false_r; lia]. by rewrite andb_true_r.
Qed.

Lemma sum_where_perm P l k : l ≡ₚ k -> sum_where P l = sum_where P k.
Proof. intros H. unfold sum_where. apply zsum_perm. by rewrite H. Qed.

Lemma sum_where_filter P Q facts :
  sum_where P (List.filter Q facts) = sum_where (fun f => P f && Q f) facts.
Proof.
  unfold sum_where. induction facts as [|f facts IH]; [done|]. cbn.
  destruct (Q f); cbn; rewrite IH; [by rewrite andb_true_r|by rewrite andb_false_r].
Qed.

Lemma sublist_map_filter {A B} (f : A -> B) (P : A -> bool) l :
  sublist (map f (List.filter P l)) (map f l).
Proof.
  induction l as [|x l IH]; [constructor|]. cbn.
  destruct (P x); cbn; [by apply sublist_skip|by apply sublist_cons].
Qed.

(** The planner's facts are insertable, taken one at a time. *)
Lemma planned_insertable fresh db trade lots sorted caps out :
  (forall i, fresh i ∉ map fact_id (db_facts db)) -> sorted ≡ₚ caps ->
  Forall (fun f => trade_id f <> trade /\
                   forall l s, idempotency_key f <> AllocKey trade l s) (db_facts db) ->
  Forall (fun row => db_lots db !! lot_row_id row = Some row /\
                     lot_gross (lot_row_id row) (db_facts db) <= imax I64) lots ->
  Forall (fun c => exists row, row ∈ lots /\ lot_row_id row = cap_lot c /\ 0 <= remaining_micro c /\
            remaining_micro c + lot_net (cap_lot c) (db_facts db) <= lot_amount row) caps ->
  Forall (fun o => o.1.2 = 0 /\ 0 < o.2 /\
            exists c, c ∈ sorted /\ cap_lot c = o.1.1 /\ o.2 <= remaining_micro c) out ->
  Forall (insertable db trade) (planned_facts fresh trade 0 out).
Proof.
  intros Hfresh Hperm Hnew Hlots C2 S3.
  apply Forall_forall. intros f (k & o & Ho & ->)%planned_facts_elem.
  rewrite Forall_forall in S3. destruct (S3 o Ho) as (O1 & O2 & c & Hc & Ec & Hr).
  rewrite Hperm in Hc. rewrite Forall_forall in C2. destruct (C2 c Hc) as (row & R1 & R2 & R3 & R4).
  rewrite Forall_forall in Hlots. destruct (Hlots row R1) as [R5 _].
  split; cbn [planned_fact alloc_kind source_allocation_id trade_id idempotency_key fact_amount
              fact_id lot_id split_seq]; [done..|by apply Hfresh| |].
  - eapply Forall_impl; [exact Hnew|]. intros g [? ?]. split; [done|tauto].
  - exists row. rewrite <- Ec, <- R2. split; [done|]. rewrite R2. lia.
Qed.

(** ** Properties *)

(** C31: whatever facts are offered and in whatever order, a well-formed credit
    table stays well formed: no lot is ever credited beyond its stamped
    requirement and no trade beyond its fee; for every lot whose gross fits in
    64 bits the progress code returns exactly the live and the finalized totals,
    both non-negative, whose sum is the net and is at most the requirement (so
    the clamp to zero never hides an error), and the reported remaining capacity
    of an unconverted lot is the exact difference. *)
Theorem credits_never_overallocate (db db' : CreditDb) :
  credits_wf db -> credit_run db db' ->
  credits_wf db' /\
  (forall t fm, db_trades db !! t = Some fm -> trade_net t (db_facts db') <= fm.1) /\
  (forall l row, db_lots db !! l = Some row -> lot_gross l (db_facts db') <= imax I64 ->
     exists prov fin, lot_progress (E := AllocError) (db_facts db') l = Ok (prov, fin) /\
       0 <= prov /\ 0 <= fin /\ prov + fin = lot_net l (db_facts db') /\
       prov + fin <= lot_amount row /\
       (converted_at row = None ->
        lot_remaining (E := AllocError) row (db_facts db') = Ok (lot_amount row - prov - fin))).
Proof.
  intros Hwf Hrun. destruct (credit_run_wf db db' Hwf Hrun) as (Hwf' & EL & ET).
  split_and!; [done| |].
  - intros t fm Ht. apply (wf_fee_cap _ Hwf'). by rewrite ET.
  - intros l row Hl Hg. rewrite <- EL in Hl. destruct (wf_rows _ Hwf' l row Hl) as [<- Hamt].
    pose proof (wf_lot_cap _ Hwf' _ _ Hl) as Hcap. pose proof (wf_log _ Hwf') as Hlog.
    destruct (lot_sums (lot_row_id row) _ Hlog) as (S1 & S2 & S3 & S4).
    do 2 eexists. split; [by apply lot_progress_ok|]. split_and!; try lia.
    intros Hc. rewrite lot_remaining_ok by (done || lia). f_equal. lia.
Qed.

Definition demo_lot : CreditLotRow :=
  {| lot_row_id := 7; lot_user := 1; lot_source := "signup"; lot_amount := 100; granted_at := 0;
     grant_class := RealMoney; policy_version := "v1"; converted_at := None |}.

Definition demo_credits : CreditDb :=
  {| db_trades := {[ 1%N := (60, 9%N) ]}; db_lots := {[ 7%N := demo_lot ]}; db_facts := [] |}.

Definition demo_fact : AllocationFact :=
  {| fact_id := 20; trade_id := 1; lot_id := 7; split_seq := 0; fact_amount := 60;
     alloc_kind := Allocated; source_allocation_id := None; idempotency_key := AllocKey 1 7 0 |}.

Lemma demo_credits_wf : credits_wf demo_credits.
Proof.
  split; cbn [db_facts db_lots db_trades demo_credits]; [by constructor|by constructor|..];
    intros k v [<- <-]%lookup_singleton_Some; vm_compute; intuition discriminate.
Qed.

Definition demo_credits' : CreditDb :=
  {| db_trades := {[ 1%N := (60, 9%N) ]}; db_lots := {[ 7%N := demo_lot ]}; db_facts := [demo_fact] |}.

Lemma credits_never_overallocate_witness :
  credit_run demo_credits demo_credits' /\ trade_net 1 (db_facts demo_credits') <= 60.
Proof.
  assert (Hrun : credit_run demo_credits demo_credits').
  { apply credit_insert with demo_credits demo_fact; [apply credit_refl|vm_compute; reflexivity]. }
  split; [exact Hrun|].
  apply (proj1 (proj2 (credits_never_overallocate demo_credits demo_credits' demo_credits_wf Hrun))
           1%N (60, 9%N)). vm_compute. reflexivity.
Defined.

(** the planner and the table agree: for a trade that has no facts yet, the
    facts planned for its fee cover the fee or all remaining capacity, whichever
    is less, and the table accepts every one of them, in order; nothing the
    planner produces is ever refused by a guard or a constraint. *)
Theorem planned_allocations_accepted (fresh : nat -> N) (db : CreditDb) (lots : list CreditLotRow)
    (trade market : N) (fee_micro : Z) :
  credits_wf db -> db_trades db !! trade = Some (fee_micro, market) ->
  NoDup (map lot_row_id lots) ->
  Forall (fun row => db_lots db !! lot_row_id row = Some row /\
                     lot_gross (lot_row_id row) (db_facts db) <= imax I64) lots ->
  Forall (fun f => trade_id f <> trade /\
                   forall l s, idempotency_key f <> AllocKey trade l s) (db_facts db) ->
  (forall i j, fresh i = fresh j -> i = j) -> (forall i, fresh i ∉ map fact_id (db_facts db)) ->
  exists planned db', plan_trade_allocations fresh lots (db_facts db) trade fee_micro = Ok planned /\
    foldM insert_allocation db planned = Ok db' /\ db_facts db' = db_facts db ++ planned /\
    credits_wf db' /\
    zsum (map fact_amount planned) =
      Z.min fee_micro (zsum (map (capacity (db_facts db)) lots)).
Proof.
  intros Hwf Htr Hnd Hlots Hnew Hinj Hfresh.
  pose proof Hwf as [W1 W2 W3 W4 W5 W6]. destruct (W5 _ _ Htr) as [Hty Hfee]. cbn [fst] in *.
  unfold plan_trade_allocations.
  destruct (capacities_of_ok (E := AllocError) lots (db_facts db) W1) as (caps & -> & C1 & C2 & C3); [|done|].
  { eapply Forall_impl; [exact Hlots|]. intros row [Hr Hg]. split; [done|].
    specialize (W4 _ _ Hr). destruct (W3 _ _ Hr) as [_ ?]. lia. }
  cbn [mbind outcome_bind].
  pose proof (sort_by_perm (age_le lots) caps) as Hperm. set (sorted := sort_by _ caps) in *.
  unfold split_oldest_first. destruct (Z.leb_spec fee_micro 0).
  { exists [], db. cbn. rewrite app_nil_r. split_and!; [done..|].
    assert (0 <= zsum (map (capacity (db_facts db)) lots)); [|lia].
    rewrite <- C3. apply zsum_nonneg. rewrite Forall_map. eapply Forall_impl; [exact C2|].
    intros c (? & ? & ? & ? & ?). done. }
  destruct (split_loop_ok (E := AllocError) sorted fee_micro) as (out & -> & S1 & S2 & S3); [ty| |].
  { rewrite Hperm. eapply Forall_impl; [exact C2|]. intros c (? & ? & ? & ? & ?). done. }
  cbn [mbind outcome_bind]. rewrite plan_loop_ok.
  2:{ eapply Forall_impl; [exact S3|]. cbn beta. tauto. }
  2:{ eapply Forall_impl; [exact Hnew|]. cbn beta. tauto. }
  destruct (planned_facts_shape fresh trade 0 out) as (D1 & D2 & D3).
  assert (T0 : trade_net trade (db_facts db) = 0).
  { apply net_where_none. eapply Forall_impl; [exact Hnew|]. intros f [? _]. by rewrite bool_decide_eq_false_2. }
  assert (Hsum : zsum (map snd out) = Z.min fee_micro (zsum (map (capacity (db_facts db)) lots))).
  { rewrite S1, <- C3. f_equal. apply zsum_perm. by rewrite Hperm. }
  destruct (insert_planned db trade (fee_micro, market) (planned_facts fresh trade 0 out))
    as (db' & E1 & E2 & E3); [done|done| | | |lia|rewrite D3, T0; cbn [fst]; lia|].
  - by eapply (planned_insertable fresh db trade lots sorted).
  - rewrite D1. apply NoDup_fmap_2; [intros i j; apply Hinj|apply NoDup_seq].
  - rewrite D2. eapply sublist_NoDup; [|exact S2]. by rewrite Hperm.
  - do 2 eexists. split; [done|]. split_and!; [done|done|done|]. by rewrite D3.
Qed.

Lemma planned_allocations_accepted_witness :
  exists planned db', plan_trade_allocations (fun i => N.of_nat (i + 50)) [demo_lot] [] 1 60 = Ok planned /\
    foldM insert_allocation demo_credits planned = Ok db' /\ zsum (map fact_amount planned) = 60.
Proof.
  destruct (planned_allocations_accepted (fun i => N.of_nat (i + 50)) demo_credits [demo_lot] 1 9 60)
    as (planned & db' & H1 & H2 & _ & _ & H3).
  - apply demo_credits_wf.
  - vm_compute. reflexivity.
  - apply (bool_decide_unpack _). vm_compute. exact I.
  - repeat constructor. vm_compute. discriminate.
  - constructor.
  - intros i j H. lia.
  - intros i. apply not_elem_of_nil.
  - exists planned, db'. split; [exact H1|]. split; [exact H2|]. rewrite H3. vm_compute. reflexivity.
Defined.

(** Finalizing (or reversing) the allocations of a market is exact and
    complete: the move succeeds, counts the live allocations of the market,
    appends one terminal fact for each and changes no earlier one; afterwards
    nothing of the market is provisional, each lot's finalized (or reversed)
    total has grown by exactly what the market had live for it, and the table is
    still well formed. *)
Theorem market_move_complete (fresh : nat -> N) (db : CreditDb) (market : N) (kind : AllocationKind) :
  let live f := in_market db market f && is_live (db_facts db) f in
  credits_wf db -> keys_ok (db_facts db) -> kind <> Allocated ->
  (forall i j, fresh i = fresh j -> i = j) -> (forall i, fresh i ∉ map fact_id (db_facts db)) ->
  zlen (db_facts db) <= imax U32 ->
  exists db' ts, move_market_allocations fresh db market kind =
      Ok (db', zlen (List.filter live (db_facts db))) /\
    db_facts db' = db_facts db ++ ts /\ Forall (fun t => alloc_kind t = kind) ts /\ credits_wf db' /\
    Forall (fun f => in_market db' market f && is_live (db_facts db') f = false) (db_facts db') /\
    forall l, let moved := sum_where (fun f => bool_decide (lot_id f = l) && live f) (db_facts db) in
      lot_gross l (db_facts db') = lot_gross l (db_facts db) /\
      lot_finalized l (db_facts db') =
        lot_finalized l (db_facts db) + (if bool_decide (kind = Finalized) then moved else 0) /\
      lot_reversed l (db_facts db') =
        lot_reversed l (db_facts db) + (if bool_decide (kind = Reversed) then moved else 0).
Proof.
  intros live Hwf Hkeys Hk Hinj Hfresh Hlen. pose proof (log_ok_facts _ (wf_log _ Hwf)) as [L1 _ _ _].
  unfold move_market_allocations. set (rows := sort_by fact_le _).
  assert (Hperm : rows ≡ₚ List.filter live (db_facts db)) by apply sort_by_perm.
  assert (Hin : forall r, r ∈ rows <-> r ∈ db_facts db /\ live r = true).
  { intros r. rewrite Hperm, list_elem_of_In, filter_In, <- list_elem_of_In. done. }
  assert (Hcount : zlen rows = zlen (List.filter live (db_facts db))) by (unfold zlen; by rewrite Hperm).
  assert (Hsmall : zlen rows <= zlen (db_facts db)).
  { rewrite Hcount. unfold zlen. pose proof (filter_length_le live (db_facts db)). lia. }
  destruct (move_loop_ok fresh kind rows db 0 0) as (db' & E1 & E2 & E3 & E4); [done|done|done|done| | |intros; apply Hfresh|lia|lia|].
  - rewrite Hperm. eapply sublist_NoDup; [exact L1|]. apply sublist_map_filter.
  - apply Forall_forall. intros r [H1 H2]%Hin. apply andb_true_iff in H2 as [_ H2]. done.
  - exists db', (terminals fresh kind 0 rows). rewrite E1, <- Hcount. split_and!; [done|done| |done| |].
    + apply Forall_forall. intros f (k & r & _ & ->)%terminals_elem. done.
    + apply Forall_forall. intros f Hf. apply not_true_is_false. intros [Hm [Ha Hl]%is_live_true]%andb_true_iff.
      rewrite Forall_forall in Hl. rewrite E2 in Hf, Hl.
      apply elem_of_app in Hf as [Hf|(k & r & _ & ->)%terminals_elem]; [|done].
      assert (f ∈ rows) as Hr.
      { apply Hin. split; [done|]. apply andb_true_iff. unfold in_market in *. rewrite E4 in Hm. split; [done|].
        apply is_live_true. split; [done|]. apply Forall_forall. intros t Ht. apply Hl. set_solver. }
      destruct (terminals_moved fresh kind 0 rows f Hr) as (t & Ht & Es). apply (Hl t); [set_solver|done].
    + intros l. cbv zeta. set (moved := sum_where _ (db_facts db)). unfold lot_gross, lot_finalized, lot_reversed. rewrite E2, !sum_where_app, !terminals_sum.
      assert (Em : sum_where (fun r => bool_decide (lot_id r = l)) rows = moved).
      { rewrite (sum_where_perm _ _ _ Hperm). apply sum_where_filter. }
      rewrite Em, (bool_decide_eq_false_2 (kind = Allocated)) by done. lia.
Qed.

Lemma market_move_complete_witness :
  exists db' ts, move_market_allocations (fun i => N.of_nat (i + 50)) demo_credits' 9 Finalized = Ok (db', 1) /\
    db_facts db' = demo_fact :: ts.
Proof.
  destruct (market_move_complete (fun i => N.of_nat (i + 50)) demo_credits' 9 Finalized)
    as (db' & ts & H1 & H2 & _).
  - apply (credit_run_wf demo_credits); [apply demo_credits_wf|].
    apply credit_insert with demo_credits demo_fact; [apply credit_refl|vm_compute; reflexivity].
  - repeat constructor.
  - discriminate.
  - intros i j H. lia.
  - intros i. cbn. rewrite list_elem_of_singleton. lia.
  - vm_compute. discriminate.
  - exists db', ts. split; [exact H1|exact H2].
Defined.
