(* ===== verification/PgLedger.v ===== *)
(** * PgLedger: the Postgres ledger and its refinement of the domain ledger

    [adapters/src/pg/trade_tx.rs] keeps accounts, transactions and entries in
    three append-only tables and derives every balance by summation, where the
    domain crate keeps a map of balances.  This file models [account] and
    [ledger_apply] over the tables, with the unique indexes and the deferred
    triggers of the migrations, and proves that they refine [Balances]: a
    transaction is accepted by the adapter precisely when the domain ledger
    accepts it on the summed balances, and the sums afterwards are the domain's
    result. *)

From S2P Require Import Prelude Ledger Errors.

(** Ledger-account owners of [model.rs]. *)
Module Ref.
Inductive OwnerRef :=
| User (user : N) | MarketEscrow (market : N) | MarketPool (market : N)
| Fees | House | External | Withheld | DepositSuspense | BonusReserve.
End Ref.

Notation OwnerRef := Ref.OwnerRef.

Definition owner_parts (owner : OwnerRef) : OwnerType * option N :=
  match owner with
  | Ref.User user => (User, Some user)
  | Ref.MarketEscrow market => (Escrow, Some market)
  | Ref.MarketPool market => (PoolOwner, Some market)
  | Ref.Fees => (Fees, None)
  | Ref.House => (House, None)
  | Ref.External => (External, None)
  | Ref.Withheld => (Withheld, None)
  | Ref.DepositSuspense => (DepositSuspense, None)
  | Ref.BonusReserve => (BonusReserve, None)
  end.

Record AccountRow := {
  acct_id : N; acct_type : OwnerType; acct_owner : option N; acct_currency : Currency }.

Record TxnRow := { txn_id : N; txn_kind : TxnKind; txn_key : string }.

Record EntryRow := { entry_txn : N; entry_account : N; entry_amount : Z }.

Record PgLedger := {
  pg_accounts : list AccountRow; pg_txns : list TxnRow; pg_entries : list EntryRow }.

Definition pg_empty : PgLedger := {| pg_accounts := []; pg_txns := []; pg_entries := [] |}.

(** Owner classes with one account per owner; the others have one per currency. *)
Definition owned_class (o : OwnerType) : bool :=
  match o with User | PoolOwner | Escrow => true | _ => false end.

(** The unique indexes of [ledger_accounts], as [on conflict] names them. *)
Definition conflicts (ty : OwnerType) (owner : option N) (c : Currency) (row : AccountRow) : bool :=
  bool_decide (acct_type row = ty) && bool_decide (acct_currency row = c) &&
  (negb (owned_class ty) || bool_decide (acct_owner row = owner)).

Definition is_account (ty : OwnerType) (owner : option N) (c : Currency) (row : AccountRow) : bool :=
  bool_decide (acct_type row = ty) && bool_decide (acct_owner row = owner) &&
  bool_decide (acct_currency row = c).

(** [account]: get or create.  [fresh] is the generated primary key. *)
Definition account (fresh : N) (db : PgLedger) (owner : OwnerRef) (c : Currency) :
    outcome StoreError (PgLedger * N) :=
  let '(ty, oid) := owner_parts owner in
  db' ← (if existsb (conflicts ty oid c) (pg_accounts db) then Ok db
         else if existsb (fun r => bool_decide (acct_id r = fresh)) (pg_accounts db)
         then Err (Store.Integrity "ledger_accounts_pkey")
         else Ok {| pg_accounts := pg_accounts db ++
                      [{| acct_id := fresh; acct_type := ty; acct_owner := oid; acct_currency := c |}];
                    pg_txns := pg_txns db; pg_entries := pg_entries db |});
  row ← ok_or (List.find (is_account ty oid c) (pg_accounts db'))
              (Store.Invariant "account upsert returned no account");
  Ok (db', acct_id row).

Definition txn_by_key (db : PgLedger) (key : string) : option N :=
  txn_id <$> List.find (fun t => String.eqb (txn_key t) key) (pg_txns db).

Definition find_account (db : PgLedger) (a : N) : option AccountRow :=
  List.find (fun r => bool_decide (acct_id r = a)) (pg_accounts db).

(** [select sum(amount_micro) from ledger_entries where account_id = a]. *)
Definition entry_sum (db : PgLedger) (a : N) : Z :=
  zsum (map (fun e => if bool_decide (entry_account e = a) then entry_amount e else 0) (pg_entries db)).

(** The rows the balance query returns for the locked ids. *)
Fixpoint load_slots (db : PgLedger) (ids : list N) : outcome StoreError (gmap N Slot) :=
  match ids with
  | [] => Ok ∅
  | a :: ids =>
      match find_account db a with
      | None => load_slots db ids
      | Some r =>
          bal ← ok_or (checked I64 (entry_sum db a)) (Store.Backend "bigint out of range");
          m ← load_slots db ids;
          Ok (<[a := {| s_owner := acct_type r; s_currency := acct_currency r; s_balance := bal |}]> m)
      end
  end.

Section PgApply.
Context `{HashMapOrder}.

(** [aggregate] of the adapter: the delta of every account. *)
Definition pg_aggregate (entries : list Entry) : outcome StoreError (gmap N Z) :=
  foldM (fun deltas e =>
           d ← ok_or (checked I128 (default 0 (deltas !! e_account e) + e_amount e))
                 (Store.Ledger LedgerOverflow);
           Ok (<[e_account e := d]> deltas)) ∅ entries.

(** [validate_posts]: the currency sums, their check and every post-balance. *)
Definition validate_posts (deltas : gmap N Z) (slots : gmap N Slot) : outcome StoreError unit :=
  per ← foldM (fun (per : gmap Currency Z) (ad : N * Z) =>
           slot ← ok_or (slots !! ad.1) (Store.Ledger UnknownAccount);
           s ← ok_or (checked I128 (default 0 (per !! s_currency slot) + ad.2)) (Store.Ledger LedgerOverflow);
           Ok (<[s_currency slot := s]> per)) ∅ (iter_map deltas);
  _ ← foldM (fun (_ : unit) (cs : Currency * Z) =>
           if negb (cs.2 =? 0) then Err (Store.Ledger (UnbalancedCurrency cs.1 cs.2)) else Ok tt) tt (iter_map per);
  foldM (fun (_ : unit) (ad : N * Z) =>
           slot ← ok_or (slots !! ad.1) (Store.Ledger UnknownAccount);
           post ← ok_or (checked I128 (s_balance slot + ad.2)) (Store.Ledger LedgerOverflow);
           _ ← ok_or (checked I64 post) (Store.Ledger LedgerOverflow);
           if (post <? 0) && negb (bool_decide (s_owner slot = External))
           then Err (Store.Ledger (InsufficientFunds ad.1)) else Ok tt) tt (iter_map deltas).

Definition ledger_apply (fresh : N) (db : PgLedger) (kind : TxnKind) (key : string)
    (entries : list Entry) : outcome StoreError (PgLedger * N) :=
  _ ← map_err Store.Ledger (transaction_new kind entries);
  deltas ← pg_aggregate entries;
  let ids := (map_to_list deltas).*1 in
  if negb (forallb (fun a => bool_decide (is_Some (find_account db a))) ids)
  then Err (Store.Ledger UnknownAccount) else
  slots ← load_slots db ids;
  _ ← validate_posts deltas slots;
  if existsb (fun t => String.eqb (txn_key t) key || bool_decide (txn_id t = fresh)) (pg_txns db)
  then Err Store.DuplicateKey else
  Ok ({| pg_accounts := pg_accounts db;
         pg_txns := pg_txns db ++ [{| txn_id := fresh; txn_kind := kind; txn_key := key |}];
         pg_entries := pg_entries db ++
           map (fun e => {| entry_txn := fresh; entry_account := e_account e; entry_amount := e_amount e |})
               entries |}, fresh).
End PgApply.

(** ** Specification *)

(** The slot the tables hold for an account. *)
Definition pg_slot (db : PgLedger) (r : AccountRow) : Slot :=
  {| s_owner := acct_type r; s_currency := acct_currency r; s_balance := entry_sum db (acct_id r) |}.

(** The abstraction: the domain ledger the tables stand for. *)
Definition balances_of (db : PgLedger) : Balances :=
  {| accounts := list_to_map (map (fun r => (acct_id r, pg_slot db r)) (pg_accounts db)) |}.

(** The sum of one transaction within one currency, as the deferred trigger
    groups it. *)
Definition txn_sum (db : PgLedger) (t : N) (c : Currency) : Z :=
  zsum (map (fun e => if bool_decide (entry_txn e = t) &&
                         bool_decide (acct_currency <$> find_account db (entry_account e) = Some c)
                      then entry_amount e else 0) (pg_entries db)).

(** What the deferred triggers check at commit. *)
Definition triggers_pass (db : PgLedger) : Prop :=
  (forall t c, txn_sum db t c = 0) /\
  Forall (fun t => exists e, e ∈ pg_entries db /\ entry_txn e = txn_id t) (pg_txns db).

Record pg_wf (db : PgLedger) : Prop := {
  pw_ids : NoDup (map acct_id (pg_accounts db));
  pw_unique : forall r r', r ∈ pg_accounts db -> r' ∈ pg_accounts db ->
      conflicts (acct_type r) (acct_owner r) (acct_currency r) r' = true -> r = r';
  pw_shape : Forall (fun r => owned_class (acct_type r) = bool_decide (is_Some (acct_owner r)))
               (pg_accounts db);
  pw_keys : NoDup (map txn_key (pg_txns db));
  pw_txns : NoDup (map txn_id (pg_txns db));
  pw_refs : Forall (fun e => entry_txn e ∈ map txn_id (pg_txns db) /\
                             is_Some (find_account db (entry_account e))) (pg_entries db);
  pw_triggers : triggers_pass db;
  pw_ledger : ledger_wf (balances_of db) }.

(** The operations of the adapter; a refused one writes nothing. *)
Inductive pg_step `{HashMapOrder} : PgLedger -> PgLedger -> Prop :=
| pg_account fresh db db' owner c a :
    account fresh db owner c = Ok (db', a) -> pg_step db db'
| pg_apply fresh db db' kind key entries t :
    Forall (fun e => in_ty I64 (e_amount e)) entries -> zlen entries <= 9223372036854775808 ->
    ledger_apply fresh db kind key entries = Ok (db', t) -> pg_step db db'.

(** ** Lemmas *)

Lemma find_by {A} (P : A -> bool) l x : List.find P l = Some x -> x ∈ l /\ P x = true.
Proof. intros [H1 H2]%find_some. split; [by apply list_elem_of_In|done]. Qed.

Lemma find_none_by {A} (P : A -> bool) l : List.find P l = None <-> Forall (fun x => P x = false) l.
Proof.
  induction l as [|x l IH]; cbn; [done|]. rewrite Forall_cons, <- IH.
  destruct (P x); naive_solver.
Qed.

Lemma find_app {A} (P : A -> bool) l k :
  List.find P (l ++ k) = match List.find P l with Some x => Some x | None => List.find P k end.
Proof. induction l as [|x l IH]; cbn; [done|]. by destruct (P x). Qed.

Lemma acct_id_inj db r r' :
  NoDup (map acct_id (pg_accounts db)) -> r ∈ pg_accounts db -> r' ∈ pg_accounts db ->
  acct_id r = acct_id r' -> r = r'.
Proof.
  intros Hnd Hr Hr' E. apply list_elem_of_lookup in Hr as [i Hi], Hr' as [j Hj].
  assert (i = j) as <-; [|congruence].
  eapply NoDup_lookup; [exact Hnd| |]; rewrite list_lookup_fmap;
    [by rewrite Hi|rewrite Hj; cbn; by rewrite E].
Qed.

Lemma find_account_Some db a r :
  NoDup (map acct_id (pg_accounts db)) ->
  find_account db a = Some r <-> r ∈ pg_accounts db /\ acct_id r = a.
Proof.
  intros Hnd. split.
  - intros [H1 H2%bool_decide_eq_true]%find_by. done.
  - intros [Hin <-]. unfold find_account. destruct (List.find _ _) as [r'|] eqn:E.
    + apply find_by in E as [H1 H2%bool_decide_eq_true]. f_equal. by eapply acct_id_inj.
    + apply find_none_by in E. rewrite Forall_forall in E. specialize (E r Hin).
      by rewrite bool_decide_eq_true_2 in E.
Qed.

Lemma balances_lookup db a :
  NoDup (map acct_id (pg_accounts db)) ->
  accounts (balances_of db) !! a = pg_slot db <$> find_account db a.
Proof.
  intros Hnd. unfold balances_of. cbn [accounts]. apply option_eq. intros s.
  rewrite <- elem_of_list_to_map by (change (NoDup (map fst (map (fun r => (acct_id r, pg_slot db r)) (pg_accounts db)))); by rewrite map_map).
  rewrite list_elem_of_fmap. split.
  - intros (r & [= -> ->] & Hin). by rewrite (proj2 (find_account_Some db _ r Hnd)).
  - intros (r & Hr & ->)%fmap_Some. apply find_account_Some in Hr as [Hin <-]; [|done]. by exists r.
Qed.

Lemma load_slots_ok db ids :
  (forall a s, accounts (balances_of db) !! a = Some s -> in_ty I64 (s_balance s)) ->
  NoDup (map acct_id (pg_accounts db)) ->
  exists m, load_slots db ids = Ok m /\
    forall a, m !! a = if bool_decide (a ∈ ids) then accounts (balances_of db) !! a else None.
Proof.
  intros Hr Hnd. induction ids as [|a ids (m & Hm & Hl)]; cbn [load_slots].
  { exists ∅. split; [done|]. intros a. by rewrite lookup_empty. }
  pose proof (balances_lookup db a Hnd) as Ha.
  destruct (find_account db a) as [r|] eqn:E; cbn [fmap option_fmap option_map] in Ha.
  - specialize (Hr a _ Ha). pose proof E as [_ Ei]%find_account_Some; [|done]. cbn in Hr. rewrite Ei in Hr.
    rewrite checked_in by done. cbn [ok_or mbind outcome_bind]. rewrite Hm. cbn [mbind outcome_bind].
    eexists. split; [done|]. intros k. destruct (decide (k = a)) as [->|Hne].
    + rewrite lookup_insert_eq, bool_decide_eq_true_2 by set_solver. rewrite Ha. unfold pg_slot. by rewrite Ei.
    + rewrite lookup_insert_ne by done. rewrite Hl. by repeat case_bool_decide; set_solver.
  - exists m. split; [done|]. intros k. rewrite Hl. destruct (decide (k = a)) as [->|Hne].
    + rewrite Ha. by repeat case_bool_decide.
    + by repeat case_bool_decide; set_solver.
Qed.

Lemma accepts_same b b' t :
  (forall e, e ∈ t_entries t -> accounts b !! e_account e = accounts b' !! e_account e) ->
  accepts b t -> accepts b' t.
Proof.
  intros Hs (H1 & H2 & H3). split_and!.
  - intros e He. rewrite <- Hs by done. by apply H1.
  - intros c. rewrite <- (H2 c). unfold moved_in. f_equal. apply map_ext_in.
    intros e He%list_elem_of_In. by rewrite Hs.
  - intros e s He. rewrite <- Hs by done. by apply H3.
Qed.

Section PgRefines.
Context `{HashMapOrder}.

(** The adapter repeats the three loops of the domain; they agree. *)
Lemma pg_aggregate_domain entries : pg_aggregate entries = map_err Store.Ledger (aggregate entries).
Proof. apply foldM_map_err. intros d e. by destruct (checked I128 _). Qed.

Lemma post_loop_domain (slots : gmap N Slot) l posts :
  foldM (fun (_ : unit) (ad : N * Z) =>
           slot ← ok_or (slots !! ad.1) (Store.Ledger UnknownAccount);
           post ← ok_or (checked I128 (s_balance slot + ad.2)) (Store.Ledger LedgerOverflow);
           _ ← ok_or (checked I64 post) (Store.Ledger LedgerOverflow);
           if (post <? 0) && negb (bool_decide (s_owner slot = External))
           then Err (Store.Ledger (InsufficientFunds ad.1)) else Ok tt) tt l =
  map_err Store.Ledger (map_ok (fun _ => tt) (foldM (fun posts (ad : N * Z) =>
           slot ← ok_or (slots !! ad.1) UnknownAccount;
           wide ← ok_or (checked I128 (s_balance slot + ad.2)) LedgerOverflow;
           post ← ok_or (checked I64 wide) LedgerOverflow;
           if (post <? 0) && negb (bool_decide (s_owner slot = External))
           then Err (InsufficientFunds ad.1) else Ok (posts ++ [(ad.1, post)])) posts l)).
Proof.
  revert posts. induction l as [|[a d] l IH]; intros posts; [done|]. cbn [foldM fst snd].
  destruct (slots !! a) as [slot|]; [|done]. cbn [ok_or mbind outcome_bind].
  destruct (checked I128 _) as [w|]; [|done]. cbn [ok_or mbind outcome_bind].
  destruct (checked I64 w) as [p|] eqn:E; [|done]. cbn [ok_or mbind outcome_bind].
  apply checked_Some in E as [-> _]. destruct (_ && _); [done|]. apply IH.
Qed.

Lemma validate_posts_domain deltas slots :
  validate_posts deltas slots = map_err Store.Ledger
    (per ← currency_sums {| accounts := slots |} deltas; _ ← check_currencies per;
     _ ← post_balances {| accounts := slots |} deltas; Ok tt).
Proof.
  unfold validate_posts, currency_sums. rewrite (foldM_map_err Store.Ledger _ (fun (per : gmap Currency Z) (ad : N * Z) =>
    slot ← ok_or (slots !! ad.1) UnknownAccount;
    s ← ok_or (checked I128 (default 0 (per !! s_currency slot) + ad.2)) LedgerOverflow; Ok (<[s_currency slot := s]> per))).
  2:{ intros per ad. destruct (slots !! ad.1) as [slot|]; [|done]. cbn. by destruct (checked I128 _). }
  cbn [accounts]. destruct (foldM _ ∅ (iter_map deltas)) as [per| |]; [|done..]. cbn [map_err mbind outcome_bind].
  unfold check_currencies. rewrite (foldM_map_err Store.Ledger _ (fun (_ : unit) (cs : Currency * Z) =>
    if negb (cs.2 =? 0) then Err (UnbalancedCurrency cs.1 cs.2) else Ok tt)).
  2:{ intros [] cs. by destruct (negb _). }
  destruct (foldM _ tt (iter_map per)) as [[]| |]; [|done..]. cbn [map_err mbind outcome_bind].
  rewrite (post_loop_domain slots _ []). unfold post_balances. cbn [accounts]. by destruct (foldM _ [] _).
Qed.

(** The adapter's validation is the domain's acceptance. *)
Lemma validate_posts_Ok deltas slots t :
  aggregate (t_entries t) = Ok deltas -> txn_wf t ->
  (forall a s, slots !! a = Some s -> in_ty I64 (s_balance s)) ->
  validate_posts deltas slots = Ok tt <-> accepts {| accounts := slots |} t.
Proof.
  intros Hd ([_ Hlen] & Hent & _) Hr. set (b := {| accounts := slots |}).
  transitivity ((apply b t).2 = Ok tt).
  - rewrite validate_posts_domain. unfold apply. rewrite Hd. cbn [mbind outcome_bind]. fold b.
    destruct (currency_sums b deltas); cbn; [|done..].
    destruct (check_currencies _); cbn; [|done..]. by destruct (post_balances b deltas).
  - split; [by apply apply_Ok_accepts|]. intros Ha. by rewrite apply_accepted.
Qed.

Lemma aggregate_keys entries deltas :
  aggregate entries = Ok deltas ->
  Forall (fun e => in_ty I64 (e_amount e) /\ e_amount e <> 0) entries ->
  zlen entries <= 9223372036854775808 ->
  forall a, a ∈ (map_to_list deltas).*1 <-> a ∈ map e_account entries.
Proof.
  intros Hd Hent Hlen a. destruct (aggregate_ok entries Hent Hlen) as (d & Hd' & Hdl).
  assert (d = deltas) as -> by congruence.
  rewrite list_elem_of_fmap. change (map e_account entries) with (e_account <$> entries). split.
  - intros ([k v] & -> & Hin%elem_of_map_to_list). rewrite Hdl in Hin. unfold delta_at in Hin.
    by case_bool_decide.
  - intros Hin. exists (a, moved entries a). split; [done|]. apply elem_of_map_to_list. rewrite Hdl.
    unfold delta_at. by rewrite bool_decide_eq_true_2.
Qed.

(** The tables after an accepted transaction. *)
Definition pg_posted (fresh : N) (db : PgLedger) (kind : TxnKind) (key : string)
    (entries : list Entry) : PgLedger :=
  {| pg_accounts := pg_accounts db;
     pg_txns := pg_txns db ++ [{| txn_id := fresh; txn_kind := kind; txn_key := key |}];
     pg_entries := pg_entries db ++
       map (fun e => {| entry_txn := fresh; entry_account := e_account e; entry_amount := e_amount e |})
           entries |}.

Lemma fresh_txn_iff (fresh : N) (key : string) l :
  existsb (fun t => String.eqb (txn_key t) key || bool_decide (txn_id t = fresh)) l = false <->
  key ∉ map txn_key l /\ fresh ∉ map txn_id l.
Proof.
  change (map txn_key l) with (txn_key <$> l). change (map txn_id l) with (txn_id <$> l).
  induction l as [|x l IH]; cbn; [set_solver|]. rewrite !orb_false_iff, IH, !not_elem_of_cons.
  rewrite bool_decide_eq_false, String.eqb_neq. naive_solver.
Qed.

Section OneTransaction.
Context (db : PgLedger) (t : Transaction) (deltas : gmap N Z).
Hypothesis Hids : NoDup (map acct_id (pg_accounts db)).
Hypothesis Hrange : forall a s, accounts (balances_of db) !! a = Some s -> in_ty I64 (s_balance s).
Hypothesis Ht : txn_wf t.
Hypothesis Hd : aggregate (t_entries t) = Ok deltas.

Lemma ids_known_iff :
  forallb (fun a => bool_decide (is_Some (find_account db a))) (map_to_list deltas).*1 = true <->
  forall e, e ∈ t_entries t -> is_Some (accounts (balances_of db) !! e_account e).
Proof.
  destruct Ht as ([_ Hlen] & Hent & _). rewrite forallb_forall. setoid_rewrite <- list_elem_of_In.
  setoid_rewrite (aggregate_keys _ deltas Hd Hent Hlen). setoid_rewrite bool_decide_eq_true. split.
  - intros Hk e He. rewrite balances_lookup by done.
    apply fmap_is_Some, Hk. by apply list_elem_of_fmap_2.
  - intros Hk a (e & -> & He)%list_elem_of_fmap. specialize (Hk e He).
    rewrite balances_lookup in Hk by done. by apply fmap_is_Some in Hk.
Qed.

Lemma validate_loaded_iff slots :
  load_slots db (map_to_list deltas).*1 = Ok slots ->
  validate_posts deltas slots = Ok tt <-> accepts (balances_of db) t.
Proof.
  intros Hs. pose proof Ht as ([_ Hlen] & Hent & _).
  destruct (load_slots_ok db (map_to_list deltas).*1 Hrange Hids) as (m & Hm & Hl).
  assert (m = slots) as -> by congruence.
  assert (Hsame : forall e, e ∈ t_entries t ->
    accounts {| accounts := slots |} !! e_account e = accounts (balances_of db) !! e_account e).
  { intros e He. cbn. rewrite Hl, bool_decide_eq_true_2; [done|].
    apply (aggregate_keys _ deltas Hd Hent Hlen). by apply list_elem_of_fmap_2. }
  assert (Hrs : forall a s, slots !! a = Some s -> in_ty I64 (s_balance s)).
  { intros a s. rewrite Hl. case_bool_decide; [apply Hrange|done]. }
  rewrite (validate_posts_Ok deltas slots t Hd Ht Hrs).
  split; apply accepts_same; [done|]. intros e He. by rewrite Hsame.
Qed.
End OneTransaction.

Lemma ledger_apply_Ok fresh db kind key entries db' id :
  pg_wf db -> Forall (fun e => in_ty I64 (e_amount e)) entries ->
  zlen entries <= 9223372036854775808 ->
  let t := {| t_kind := kind; t_entries := entries |} in
  ledger_apply fresh db kind key entries = Ok (db', id) <->
  txn_wf t /\ accepts (balances_of db) t /\ key ∉ map txn_key (pg_txns db) /\
  fresh ∉ map txn_id (pg_txns db) /\ id = fresh /\ db' = pg_posted fresh db kind key entries.
Proof.
  intros Hwf Hty Hlen t. pose proof (pw_ids _ Hwf) as W1.
  pose proof (lw_range _ (pw_ledger _ Hwf)) as Hrange. unfold ledger_apply. split.
  - intros Hok. apply bind_Ok in Hok as (t' & Ht' & Hok). apply map_err_Ok in Ht'.
    apply transaction_new_Ok in Ht' as [Htw ->]; [|done..].
    apply bind_Ok in Hok as (deltas & Hd & Hok). rewrite pg_aggregate_domain in Hd. apply map_err_Ok in Hd.
    destruct (negb _) eqn:Hk in Hok; [done|].
    apply bind_Ok in Hok as (slots & Hs & Hok). apply bind_Ok in Hok as ([] & Hv & Hok).
    destruct (existsb _ _) eqn:Hx in Hok; [done|]. injection Hok as <- <-.
    apply (validate_loaded_iff db t deltas W1 Hrange Htw Hd slots Hs) in Hv.
    by apply fresh_txn_iff in Hx as [? ?].
  - intros (Htw & Hacc & Hk1 & Hk2 & -> & ->). pose proof Htw as (_ & Hent & _).
    rewrite (proj2 (transaction_new_Ok kind entries t Hty Hlen)) by done. cbn [map_err mbind outcome_bind].
    destruct (aggregate_ok entries Hent Hlen) as (deltas & Hd & _). rewrite pg_aggregate_domain, Hd. cbn [map_err mbind outcome_bind].
    rewrite (proj2 (ids_known_iff db t deltas W1 Htw Hd)) by apply Hacc. cbn [negb].
    destruct (load_slots_ok db (map_to_list deltas).*1 Hrange W1) as (slots & Hs & _). rewrite Hs.
    cbn [mbind outcome_bind]. rewrite (proj2 (validate_loaded_iff db t deltas W1 Hrange Htw Hd slots Hs) Hacc).
    cbn [mbind outcome_bind]. by rewrite (proj2 (fresh_txn_iff _ _ _)).
Qed.
End PgRefines.

Lemma entry_sum_posted fresh db kind key entries a :
  entry_sum (pg_posted fresh db kind key entries) a = entry_sum db a + moved entries a.
Proof.
  unfold entry_sum, pg_posted, moved. cbn [pg_entries]. by rewrite map_app, zsum_app, map_map.
Qed.

(** The sums after posting are the domain's result. *)
Lemma balances_posted fresh db kind key entries :
  NoDup (map acct_id (pg_accounts db)) ->
  balances_of (pg_posted fresh db kind key entries) =
    {| accounts := applied (balances_of db) {| t_kind := kind; t_entries := entries |} |}.
Proof.
  intros Hnd. set (db' := pg_posted fresh db kind key entries).
  enough (E : accounts (balances_of db') = applied (balances_of db) {| t_kind := kind; t_entries := entries |})
    by (unfold balances_of in *; cbn in *; by rewrite E).
  apply map_eq. intros a. unfold applied. rewrite map_lookup_imap, !balances_lookup by done.
  change (find_account db' a) with (find_account db a).
  destruct (find_account db a) as [r|] eqn:Er; [|done]. cbn. f_equal.
  apply find_account_Some in Er as [_ <-]; [|done].
  unfold pg_slot, set_balance. cbn [s_owner s_currency s_balance t_entries]. f_equal.
  apply (entry_sum_posted fresh db kind key).
Qed.

Lemma zsum_none {A} (f : A -> Z) l : (forall x, x ∈ l -> f x = 0) -> zsum (map f l) = 0.
Proof.
  induction l as [|x l IH]; intros Hf; cbn; [done|].
  rewrite (Hf x) by set_solver. rewrite IH; [done|]. intros; apply Hf; set_solver.
Qed.

Lemma txn_sum_posted fresh db kind key entries t c :
  pg_wf db -> fresh ∉ map txn_id (pg_txns db) ->
  txn_sum (pg_posted fresh db kind key entries) t c =
    if bool_decide (t = fresh) then moved_in (balances_of db) entries c else txn_sum db t c.
Proof.
  intros Hwf Hfresh. unfold txn_sum, pg_posted. cbn [pg_entries]. rewrite map_app, zsum_app, map_map.
  unfold find_account. cbn [pg_accounts entry_txn entry_account entry_amount].
  destruct (decide (t = fresh)) as [->|E].
  - rewrite (bool_decide_eq_true_2 (fresh = fresh)) by done. rewrite zsum_none.
    + rewrite Z.add_0_l. cbn [andb]. unfold moved_in. f_equal. apply map_ext. intros e.
      rewrite balances_lookup by apply pw_ids, Hwf. fold (find_account db (e_account e)).
      destruct (find_account db (e_account e)) as [r|]; cbn; [|done].
      by repeat case_bool_decide; simplify_eq.
    + intros e He. pose proof (pw_refs _ Hwf) as Hr. rewrite Forall_forall in Hr.
      destruct (Hr e He) as [Hin _]. rewrite bool_decide_eq_false_2; [done|].
      intros E. apply Hfresh. by rewrite <- E.
  - rewrite (bool_decide_eq_false_2 (t = fresh)) by done.
    rewrite (zsum_none _ entries); [lia|]. intros e _. by rewrite bool_decide_eq_false_2.
Qed.

Lemma posted_wf fresh db kind key entries :
  pg_wf db -> txn_wf {| t_kind := kind; t_entries := entries |} ->
  accepts (balances_of db) {| t_kind := kind; t_entries := entries |} ->
  key ∉ map txn_key (pg_txns db) -> fresh ∉ map txn_id (pg_txns db) ->
  pg_wf (pg_posted fresh db kind key entries).
Proof.
  intros Hwf Ht Hacc Hkey Hfresh. pose proof Hwf as [W1 W2 W3 W4 W5 W6 [W7 W7'] W8].
  split; try done.
  - cbn. rewrite map_app. apply NoDup_app. split_and!; [done| |by apply NoDup_singleton].
    intros k Hk Hk'. apply list_elem_of_singleton in Hk' as ->. done.
  - cbn. rewrite map_app. apply NoDup_app. split_and!; [done| |by apply NoDup_singleton].
    intros k Hk Hk'. apply list_elem_of_singleton in Hk' as ->. done.
  - cbn [pg_entries pg_posted pg_txns]. rewrite map_app. apply Forall_app. split.
    + eapply Forall_impl; [exact W6|]. cbn beta. intros e [? ?]. split; [set_solver|done].
    + rewrite Forall_map. apply Forall_forall. intros e He. cbn. split; [set_solver|].
      destruct Hacc as (Hk & _). specialize (Hk e He). rewrite balances_lookup in Hk by done.
      by apply fmap_is_Some in Hk.
  - split.
    + intros t c. rewrite txn_sum_posted by done. case_bool_decide; [|done]. apply Hacc.
    + cbn [pg_entries pg_posted pg_txns]. apply Forall_app. split.
      * eapply Forall_impl; [exact W7'|]. intros x (e & ? & ?). exists e. set_solver.
      * constructor; [|constructor]. destruct Ht as ([Hl _] & _). cbn in Hl.
        destruct entries as [|e entries]; [unfold zlen in Hl; cbn in Hl; lia|]. 
        exists {| entry_txn := fresh; entry_account := e_account e; entry_amount := e_amount e |}.
        split; [cbn; set_solver|done].
  - rewrite balances_posted by done. by apply applied_wf.
Qed.

(** A new account row opens the account in the abstraction. *)
Definition pg_opened (fresh : N) (db : PgLedger) (ty : OwnerType) (oid : option N) (c : Currency) : PgLedger :=
  {| pg_accounts := pg_accounts db ++
       [{| acct_id := fresh; acct_type := ty; acct_owner := oid; acct_currency := c |}];
     pg_txns := pg_txns db; pg_entries := pg_entries db |}.

Lemma find_account_opened fresh db ty oid c a :
  fresh ∉ map acct_id (pg_accounts db) ->
  find_account (pg_opened fresh db ty oid c) a =
    if bool_decide (a = fresh) then Some {| acct_id := fresh; acct_type := ty; acct_owner := oid; acct_currency := c |}
    else find_account db a.
Proof.
  unfold find_account, pg_opened. cbn [pg_accounts]. change (map acct_id (pg_accounts db)) with (acct_id <$> pg_accounts db).
  induction (pg_accounts db) as [|r l IH]; cbn; intros Hf.
  - by repeat case_bool_decide.
  - rewrite not_elem_of_cons in Hf. destruct Hf as [Hne Hf]. rewrite IH by done.
    destruct (decide (acct_id r = a)) as [<-|].
    + rewrite (bool_decide_eq_true_2 (acct_id r = _)), bool_decide_eq_false_2 by done. done.
    + by rewrite (bool_decide_eq_false_2 (acct_id r = a)).
Qed.

Lemma entry_sum_unknown db a : pg_wf db -> find_account db a = None -> entry_sum db a = 0.
Proof.
  intros Hwf Hn. apply zsum_none. intros e He. pose proof (pw_refs _ Hwf) as Hr.
  rewrite Forall_forall in Hr. destruct (Hr e He) as [_ [r Hs]].
  rewrite bool_decide_eq_false_2; [done|]. intros E. congruence.
Qed.

Lemma conflicts_none db ty oid c :
  NoDup (map acct_id (pg_accounts db)) ->
  existsb (conflicts ty oid c) (pg_accounts db) = false -> owned_class ty = false ->
  has_owner (balances_of db) ty c = false.
Proof.
  intros Hnd Hx Ho. apply not_true_is_false. unfold has_owner, any_account.
  rewrite existsb_exists. intros ([a s] & Hin%list_elem_of_In%elem_of_map_to_list & Hp).
  rewrite balances_lookup in Hin by done. apply fmap_Some in Hin as (r & Hr & ->).
  apply find_account_Some in Hr as [Hr _]; [|done]. cbn in Hp.
  assert (existsb (conflicts ty oid c) (pg_accounts db) = true); [|congruence].
  apply existsb_exists. exists r. split; [by apply list_elem_of_In|].
  unfold conflicts. by rewrite Hp, Ho.
Qed.

(** Opening a row is [Balances::open], which accepts it. *)
Lemma balances_opened fresh db ty oid c :
  pg_wf db -> fresh ∉ map acct_id (pg_accounts db) ->
  existsb (conflicts ty oid c) (pg_accounts db) = false ->
  open_account (balances_of db) fresh ty c = (balances_of (pg_opened fresh db ty oid c), Ok tt).
Proof.
  intros Hwf Hf Hx. pose proof (pw_ids _ Hwf) as Hnd.
  assert (Hn : find_account db fresh = None).
  { apply eq_None_not_Some. intros [r [Hin <-]%find_account_Some]; [|done].
    apply Hf. by apply list_elem_of_fmap_2. }
  assert (Hnd' : NoDup (map acct_id (pg_accounts (pg_opened fresh db ty oid c)))).
  { cbn. rewrite map_app. apply NoDup_app. split_and!; [done| |by apply NoDup_singleton].
    intros k Hk Hk'. apply list_elem_of_singleton in Hk' as ->. done. }
  unfold open_account. rewrite balances_lookup, Hn by done. cbn [fmap option_fmap option_map].
  replace (bool_decide (ty = External) && has_owner (balances_of db) External c) with false.
  2:{ case_bool_decide; [subst|done]. by rewrite (conflicts_none db External oid c). }
  replace (is_money_singleton ty && has_owner (balances_of db) ty c) with false.
  2:{ destruct (is_money_singleton ty) eqn:Em; [|done]. rewrite (conflicts_none db ty oid c); try done. by destruct ty. }
  f_equal. enough (E : <[fresh := {| s_owner := ty; s_currency := c; s_balance := 0 |}]> (accounts (balances_of db)) =
    accounts (balances_of (pg_opened fresh db ty oid c))) by (rewrite E; by destruct (balances_of (pg_opened fresh db ty oid c))).
  apply map_eq. intros a. rewrite balances_lookup, find_account_opened by done.
  destruct (decide (a = fresh)) as [->|Hne].
  - rewrite lookup_insert_eq, bool_decide_eq_true_2 by done. cbn. unfold pg_slot. cbn. do 2 f_equal.
    symmetry. by apply (entry_sum_unknown db).
  - rewrite lookup_insert_ne, bool_decide_eq_false_2, balances_lookup by done. done.
Qed.

Lemma conflicts_sym r ty oid c fresh :
  conflicts (acct_type r) (acct_owner r) (acct_currency r)
    {| acct_id := fresh; acct_type := ty; acct_owner := oid; acct_currency := c |} = true ->
  conflicts ty oid c r = true.
Proof.
  unfold conflicts. cbn. rewrite !andb_true_iff, !orb_true_iff, !bool_decide_eq_true.
  intros [[-> ->] [?| ->]]; auto.
Qed.

Lemma opened_wf fresh db ty oid c :
  pg_wf db -> fresh ∉ map acct_id (pg_accounts db) ->
  existsb (conflicts ty oid c) (pg_accounts db) = false ->
  owned_class ty = bool_decide (is_Some oid) -> pg_wf (pg_opened fresh db ty oid c).
Proof.
  intros Hwf Hf Hx Hshape. pose proof Hwf as [W1 W2 W3 W4 W5 W6 [W7 W7'] W8].
  assert (Hnew : forall r, r ∈ pg_accounts db -> conflicts ty oid c r = false).
  { intros r Hr. apply not_true_is_false. intros Hc.
    assert (existsb (conflicts ty oid c) (pg_accounts db) = true); [|congruence].
    apply existsb_exists. exists r. split; [by apply list_elem_of_In|done]. }
  assert (Hold : forall e, e ∈ pg_entries db ->
    find_account (pg_opened fresh db ty oid c) (entry_account e) = find_account db (entry_account e)).
  { intros e He. rewrite Forall_forall in W6. destruct (W6 e He) as [_ [r Hr]].
    rewrite find_account_opened, bool_decide_eq_false_2; [done| |done].
    intros E. apply find_account_Some in Hr as [Hin Hid]; [|done]. apply Hf.
    rewrite <- E, <- Hid. by apply list_elem_of_fmap_2. }
  split; try done.
  - cbn. rewrite map_app. apply NoDup_app. split_and!; [done| |by apply NoDup_singleton].
    intros k Hk Hk'. apply list_elem_of_singleton in Hk' as ->. done.
  - intros r r'. cbn [pg_accounts pg_opened]. rewrite !elem_of_app, !list_elem_of_singleton.
    intros [Hr| ->] [Hr'| ->] Hc; [by apply W2| | |done].
    + apply conflicts_sym in Hc. by rewrite Hnew in Hc.
    + cbn in Hc. by rewrite Hnew in Hc.
  - cbn. apply Forall_app. split; [done|]. by constructor.
  - cbn [pg_entries pg_txns pg_opened]. apply Forall_forall. intros e He. rewrite Hold by done.
    rewrite Forall_forall in W6. by apply W6.
  - split; [|done]. intros t cur. rewrite <- (W7 t cur). unfold txn_sum. cbn [pg_entries pg_opened].
    f_equal. apply map_ext_in. intros e He%list_elem_of_In. by rewrite Hold.
  - pose proof (open_account_wf (balances_of db) fresh ty c W8) as Ho.
    by rewrite (balances_opened fresh db ty oid c) in Ho.
Qed.

(** A well-formed table holds at most one account per owner and currency, and a
    conflicting row is that account. *)
Lemma conflict_is_account db ty oid c r :
  pg_wf db -> owned_class ty = bool_decide (is_Some oid) -> r ∈ pg_accounts db ->
  conflicts ty oid c r = true -> is_account ty oid c r = true.
Proof.
  intros Hwf Hs Hr. unfold conflicts, is_account.
  rewrite !andb_true_iff, orb_true_iff, negb_true_iff, !bool_decide_eq_true.
  intros [[Hty Hc] Hor]. split; [|done]. split; [done|]. destruct Hor as [Ho|]; [|done].
  pose proof (pw_shape _ Hwf) as Hsh. rewrite Forall_forall in Hsh. specialize (Hsh r Hr).
  rewrite Hty, Ho in Hsh. rewrite Ho in Hs. symmetry in Hsh, Hs. apply bool_decide_eq_false in Hsh, Hs.
  rewrite <- eq_None_not_Some in Hsh, Hs. congruence.
Qed.

Lemma owner_parts_shape owner :
  owned_class (owner_parts owner).1 = bool_decide (is_Some (owner_parts owner).2).
Proof. by destruct owner. Qed.

Lemma is_account_conflicts ty oid c r : is_account ty oid c r = true -> conflicts ty oid c r = true.
Proof.
  unfold is_account, conflicts. rewrite !andb_true_iff, orb_true_iff, !bool_decide_eq_true. tauto.
Qed.

Lemma is_account_same ty oid c r r' :
  is_account ty oid c r = true -> is_account ty oid c r' = true ->
  conflicts (acct_type r) (acct_owner r) (acct_currency r) r' = true.
Proof.
  unfold is_account. rewrite !andb_true_iff, !bool_decide_eq_true.
  intros [[-> ->] ->] Hr'. apply is_account_conflicts. unfold is_account.
  by rewrite !andb_true_iff, !bool_decide_eq_true.
Qed.

(** [account] either finds the account or opens it. *)
Lemma account_cases fresh db owner c :
  pg_wf db -> fresh ∉ map acct_id (pg_accounts db) ->
  let ty := (owner_parts owner).1 in let oid := (owner_parts owner).2 in
  (exists r, r ∈ pg_accounts db /\ is_account ty oid c r = true /\
     account fresh db owner c = Ok (db, acct_id r)) \/
  (existsb (conflicts ty oid c) (pg_accounts db) = false /\
   account fresh db owner c = Ok (pg_opened fresh db ty oid c, fresh)).
Proof.
  intros Hwf Hf ty oid. unfold account.
  destruct (owner_parts owner) as [ty' oid'] eqn:Ep. cbn in ty, oid. subst ty oid.
  pose proof (owner_parts_shape owner) as Hs. rewrite Ep in Hs. cbn in Hs.
  destruct (existsb (conflicts ty' oid' c) (pg_accounts db)) eqn:Hx; [left|right; split; [done|]].
  - apply existsb_exists in Hx as (r & Hr%list_elem_of_In & Hc).
    pose proof (conflict_is_account db _ _ _ r Hwf Hs Hr Hc) as Hi.
    cbn [mbind outcome_bind]. destruct (List.find _ _) as [r'|] eqn:Ef.
    + apply find_by in Ef as [Hr' Hi']. exists r'. done.
    + apply find_none_by in Ef. rewrite Forall_forall in Ef. by rewrite Ef in Hi.
  - replace (existsb (fun r => bool_decide (acct_id r = fresh)) (pg_accounts db)) with false.
    2:{ symmetry. apply not_true_is_false. intros (r & Hr%list_elem_of_In & E%bool_decide_eq_true)%existsb_exists.
        apply Hf. rewrite <- E. by apply list_elem_of_fmap_2. }
    cbn [mbind outcome_bind pg_accounts]. rewrite find_app.
    destruct (List.find _ (pg_accounts db)) as [r|] eqn:Ef.
    + apply find_by in Ef as [Hr Hi]. exfalso.
      assert (existsb (conflicts ty' oid' c) (pg_accounts db) = true); [|congruence].
      apply existsb_exists. exists r. split; [by apply list_elem_of_In|].
      unfold is_account in Hi. rewrite !andb_true_iff, !bool_decide_eq_true in Hi.
      destruct Hi as [[E1 E2] E3]. unfold conflicts. rewrite !bool_decide_eq_true_2 by done.
      by rewrite orb_true_r.
    + cbn. unfold is_account. cbn. by rewrite !bool_decide_eq_true_2.
Qed.

Lemma account_wf fresh db owner c db' a :
  pg_wf db -> account fresh db owner c = Ok (db', a) -> pg_wf db'.
Proof.
  intros Hwf Ha. destruct (decide (fresh ∈ map acct_id (pg_accounts db))) as [Hin|Hnin].
  - unfold account in Ha. destruct (owner_parts owner) as [ty oid].
    destruct (existsb (conflicts ty oid c) (pg_accounts db)).
    + cbn [mbind outcome_bind] in Ha. apply bind_Ok in Ha as (r & _ & [= <- _]). done.
    + replace (existsb (fun r => bool_decide (acct_id r = fresh)) (pg_accounts db)) with true in Ha; [done|].
      symmetry. apply existsb_exists. apply list_elem_of_fmap in Hin as (r & -> & Hr).
      exists r. split; [by apply list_elem_of_In|]. by apply bool_decide_eq_true_2.
  - destruct (account_cases fresh db owner c Hwf Hnin) as [(r & _ & _ & E)|[Hx E]];
      rewrite E in Ha; injection Ha as <- <-; [done|].
    apply opened_wf; try done. apply owner_parts_shape.
Qed.

Lemma pg_step_wf `{HashMapOrder} db db' : pg_wf db -> pg_step db db' -> pg_wf db'.
Proof.
  intros Hwf Hs. destruct Hs as [fresh d d' owner c a Ha|fresh d d' kind key entries t Hty Hlen Ha];
    [by eapply account_wf|].
  apply (ledger_apply_Ok fresh d kind key entries d' t Hwf Hty Hlen) in Ha as (? & ? & ? & ? & _ & ->).
  by apply posted_wf.
Qed.

Lemma pg_empty_wf : pg_wf pg_empty.
Proof.
  split; try constructor; try (intros ?? []%not_elem_of_nil); try done.
  all: try (intros a s; cbn; by rewrite lookup_empty).
  all: try (intros a a' s s'; cbn; by rewrite lookup_empty).
Qed.

(** ** Properties *)

(** C30: the Postgres ledger refines the domain ledger: on a well-formed table the
    adapter accepts a batch of entries precisely when [Transaction::new] builds
    it, [Balances::apply] accepts it on the summed balances and the key and the
    generated id are new; it then only appends one header and the entries, and
    the sums afterwards are exactly the balances [apply] computes.  A refusal is
    an error, never a partial write or a panic. *)
Theorem pg_ledger_refines_domain `{HashMapOrder} (fresh : N) (db : PgLedger) (kind : TxnKind)
    (key : string) (entries : list Entry) :
  pg_wf db -> Forall (fun e => in_ty I64 (e_amount e)) entries ->
  zlen entries <= 9223372036854775808 ->
  ((exists r, ledger_apply fresh db kind key entries = Ok r) <->
     exists t, transaction_new kind entries = Ok t /\ (apply (balances_of db) t).2 = Ok tt /\
       key ∉ map txn_key (pg_txns db) /\ fresh ∉ map txn_id (pg_txns db)) /\
  (forall db' id, ledger_apply fresh db kind key entries = Ok (db', id) ->
     id = fresh /\ txn_by_key db' key = Some fresh /\ pg_accounts db' = pg_accounts db /\
     (exists es, pg_entries db' = pg_entries db ++ es) /\
     balances_of db' = (apply (balances_of db) {| t_kind := kind; t_entries := entries |}).1 /\
     triggers_pass db').
Proof.
  intros Hwf Hty Hlen. pose proof (lw_range _ (pw_ledger _ Hwf)) as Hrange.
  pose proof (fun db' id => ledger_apply_Ok fresh db kind key entries db' id Hwf Hty Hlen) as Hiff.
  cbn zeta in Hiff. set (t := {| t_kind := kind; t_entries := entries |}) in *.
  split; [split|].
  - intros [[db' id] (Ht & Hacc & ? & ? & _)%Hiff]. exists t. split_and!; [|..|done|done].
    + by apply transaction_new_Ok.
    + pose proof Ht as ([_ ?] & ? & _). by rewrite apply_accepted.
  - intros (t' & [Ht ->]%transaction_new_Ok & Ha & ? & ?); [|done..]. pose proof Ht as ([_ ?] & ? & _).
    exists (pg_posted fresh db kind key entries, fresh). apply Hiff. split_and!; try done.
    by apply apply_Ok_accepts.
  - intros db' id (Ht & Hacc & Hk & Hf & -> & ->)%Hiff. pose proof Ht as ([_ ?] & ? & _).
    split_and!; [done| |done|by eexists| |].
    + unfold txn_by_key, pg_posted. cbn [pg_txns]. rewrite find_app.
      destruct (List.find _ _) as [x|] eqn:E.
      * apply find_by in E as [Hx Hx'%String.eqb_eq]. destruct Hk. rewrite <- Hx'. by apply list_elem_of_fmap_2.
      * cbn. by rewrite String.eqb_refl.
    + rewrite apply_accepted by done. cbn [fst]. apply balances_posted, Hwf.
    + by apply pw_triggers, posted_wf.
Qed.

Definition demo_pg : PgLedger :=
  {| pg_accounts := [{| acct_id := 1; acct_type := External; acct_owner := None; acct_currency := Usdc |};
                     {| acct_id := 2; acct_type := User; acct_owner := Some 9%N; acct_currency := Usdc |}];
     pg_txns := []; pg_entries := [] |}.

Lemma demo_pg_reachable `{HashMapOrder} : rtc pg_step pg_empty demo_pg.
Proof.
  eapply rtc_l; [apply (pg_account 1 _ (pg_opened 1 pg_empty External None Usdc) Ref.External Usdc 1);
                 vm_compute; reflexivity|].
  eapply rtc_l; [apply (pg_account 2 _ demo_pg (Ref.User 9) Usdc 2); vm_compute; reflexivity|].
  apply rtc_refl.
Qed.

Lemma pg_reachable_wf `{HashMapOrder} db : rtc pg_step pg_empty db -> pg_wf db.
Proof.
  intros Hr. pose proof pg_empty_wf as Hwf. revert Hwf.
  induction Hr as [|x y z Hs _ IH]; [done|]. intros Hx. by apply IH, (pg_step_wf x).
Qed.

Definition demo_deposit_entries : list Entry :=
  [{| e_account := 1%N; e_amount := -500 |}; {| e_account := 2%N; e_amount := 500 |}].

Lemma pg_ledger_refines_domain_witness :
  let H := canonical_order in
  exists r, ledger_apply 7 demo_pg Deposit "dep-1" demo_deposit_entries = Ok r.
Proof.
  intros H.
  apply (pg_ledger_refines_domain (H := canonical_order) 7 demo_pg Deposit "dep-1" demo_deposit_entries).
  - apply (pg_reachable_wf (H := canonical_order)), demo_pg_reachable.
  - apply (bool_decide_unpack _). vm_compute. exact I.
  - vm_compute. discriminate.
  - exists {| t_kind := Deposit; t_entries := demo_deposit_entries |}.
    split; [vm_compute; reflexivity|]. split; [vm_compute; reflexivity|].
    split; apply not_elem_of_nil.
Defined.

(** Every table the adapter can reach, by any interleaving of account
    upserts and ledger transactions, satisfies the ledger invariant on its
    summed balances (solvent internal accounts, zero sum per currency), holds at
    most one account per owner and currency, and passes the deferred triggers of
    the schema, so a commit never fails on them. *)
Theorem pg_ledger_invariant `{HashMapOrder} (db : PgLedger) :
  rtc pg_step pg_empty db ->
  ledger_wf (balances_of db) /\ triggers_pass db /\
  forall owner c fresh db1 a1 fresh' db2 a2,
    account fresh db owner c = Ok (db1, a1) ->
    account fresh' db1 owner c = Ok (db2, a2) -> db2 = db1 /\ a2 = a1.
Proof.
  intros Hr. pose proof (pg_reachable_wf db Hr) as Hwf. split_and!; [apply Hwf|apply Hwf|].
  intros owner c fresh db1 a1 fresh' db2 a2 H1 H2.
  pose proof (account_wf _ _ _ _ _ _ Hwf H1) as Hwf1.
  assert (Hrow : exists r, r ∈ pg_accounts db1 /\ acct_id r = a1 /\
                   is_account (owner_parts owner).1 (owner_parts owner).2 c r = true).
  { unfold account in H1. destruct (owner_parts owner) as [ty oid]. apply bind_Ok in H1 as (d & _ & H1).
    apply bind_Ok in H1 as (r & Hr' & [= -> <-]). apply ok_or_Ok, find_by in Hr' as [? ?]. by exists r. }
  destruct Hrow as (r & Hin & <- & Hi). unfold account in H2.
  destruct (owner_parts owner) as [ty oid]. cbn [fst snd] in Hi. pose proof (is_account_conflicts _ _ _ _ Hi) as Hc.
  assert (Hx : existsb (conflicts ty oid c) (pg_accounts db1) = true)
    by (apply existsb_exists; exists r; split; [by apply list_elem_of_In|done]).
  rewrite Hx in H2. cbn [mbind outcome_bind] in H2. apply bind_Ok in H2 as (r' & Hr' & [= <- <-]).
  apply ok_or_Ok, find_by in Hr' as [Hin' Hi']. split; [done|]. f_equal. symmetry.
  apply (pw_unique _ Hwf1); [done..|]. by apply is_account_same with ty oid c.
Qed.

Lemma pg_ledger_invariant_witness : ledger_wf (balances_of demo_pg) /\ triggers_pass demo_pg.
Proof.
  destruct (pg_ledger_invariant (H := canonical_order) demo_pg) as (H1 & H2 & _);
    [apply demo_pg_reachable|]. split; [exact H1|exact H2].
Defined.
