(* ===== verification/Json.v ===== *)
(** * Json: the JSON values the configuration is made of

    The values of [serde_json], as the operations console stores and patches
    them: an enum with an integer number (any [i64] or [u64]), a binary
    floating-point number kept as its 64 bits, and an object whose keys are
    kept in the order of a [BTreeMap].  The accessors are the ones the code
    calls; equality is the derived one, on which the two zeros of a float are
    equal.  Also the string operations the configuration code uses on keys. *)

From Stdlib Require Import Sorted OrderedTypeEx.
From S2P Require Import Prelude.

Inductive Value :=
| JNull
| JBool (b : bool)
| JInt (z : Z)
| JFloat (bits : Z)
| JString (s : string)
| JArray (items : list Value)
| JObject (fields : list (string * Value)).

Definition as_i64_opt (v : Value) : option Z :=
  match v with JInt z => checked I64 z | _ => None end.

Definition as_u64_opt (v : Value) : option Z :=
  match v with JInt z => checked U64 z | _ => None end.

Definition as_bool_opt (v : Value) : option bool :=
  match v with JBool b => Some b | _ => None end.

Definition as_str_opt (v : Value) : option string :=
  match v with JString s => Some s | _ => None end.

Definition as_array_opt (v : Value) : option (list Value) :=
  match v with JArray l => Some l | _ => None end.

Definition as_object_opt (v : Value) : option (list (string * Value)) :=
  match v with JObject l => Some l | _ => None end.

(** [Map::get]. *)
Definition field_get (k : string) (fields : list (string * Value)) : option Value :=
  snd <$> List.find (fun kv => bool_decide (kv.1 = k)) fields.

Definition float_zero (bits : Z) : bool := (bits =? 0) || (bits =? 9223372036854775808).

Definition float_eqb (a b : Z) : bool := (a =? b) || (float_zero a && float_zero b).

Fixpoint json_eqb (v w : Value) : bool :=
  match v, w with
  | JNull, JNull => true
  | JBool a, JBool b => Bool.eqb a b
  | JInt a, JInt b => a =? b
  | JFloat a, JFloat b => float_eqb a b
  | JString a, JString b => bool_decide (a = b)
  | JArray l, JArray k =>
      (fix go l k := match l, k with
       | [], [] => true
       | x :: l, y :: k => json_eqb x y && go l k
       | _, _ => false
       end) l k
  | JObject l, JObject k =>
      (fix go l k := match l, k with
       | [], [] => true
       | (a, x) :: l, (b, y) :: k => bool_decide (a = b) && json_eqb x y && go l k
       | _, _ => false
       end) l k
  | _, _ => false
  end.

(** The byte order of keys, and insertion into a [BTreeMap] with string keys. *)
Definition str_lt (a b : string) : bool :=
  match String.compare a b with Lt => true | _ => false end.

Fixpoint btree_insert {A} (k : string) (v : A) (m : list (string * A)) : list (string * A) :=
  match m with
  | [] => [(k, v)]
  | (k', v') :: m' =>
      match String.compare k k' with
      | Lt => (k, v) :: m
      | Eq => (k, v) :: m'
      | Gt => (k', v') :: btree_insert k v m'
      end
  end.

(** Collecting pairs into a [BTreeMap] and iterating it. *)
Definition btree_collect {A} (l : list (string * A)) : list (string * A) :=
  fold_left (fun m kv => btree_insert kv.1 kv.2 m) l [].

(** Keys strictly ascending, as the iteration of a [BTreeMap] yields them. *)
Definition keys_sorted {A} (l : list (string * A)) : Prop :=
  StronglySorted (fun a b => str_lt a.1 b.1 = true) l.

(** ** Strings *)

(** [str::strip_prefix]. *)
Fixpoint strip_prefix (p s : string) : option string :=
  match p, s with
  | "", _ => Some s
  | String a p, String b s => if Ascii.eqb a b then strip_prefix p s else None
  | _, _ => None
  end%string.

(** [str::contains] of a literal. *)
Definition contains (needle s : string) : bool :=
  match String.index 0 needle s with Some _ => true | None => false end.

(** ** Facts *)

Lemma strip_prefix_Some p s t : strip_prefix p s = Some t <-> s = (p +:+ t)%string.
Proof.
  revert s. induction p as [|a p IH]; intros s; cbn.
  - split; [by intros [= ->]|by intros ->].
  - destruct s as [|b s]; cbn; [split; [done|discriminate]|].
    destruct (Ascii.eqb_spec a b) as [->|Hne].
    + rewrite IH. split; [by intros ->|by intros [= ->]].
    + split; [done|by intros [= ->]].
Qed.

(** An equality test on values that accepts a value decides sameness up to the
    representation of zero; on values without floats it is equality. *)
Lemma Value_ind' (P : Value -> Prop) :
  P JNull -> (forall b, P (JBool b)) -> (forall z, P (JInt z)) -> (forall f, P (JFloat f)) ->
  (forall s, P (JString s)) -> (forall l, Forall P l -> P (JArray l)) ->
  (forall l, Forall (fun kv => P kv.2) l -> P (JObject l)) -> forall v, P v.
Proof.
  intros H1 H2 H3 H4 H5 H6 H7. fix IH 1. intros [|b|z|f|s|l|l];
    [exact H1|apply H2|apply H3|apply H4|apply H5|apply H6|apply H7].
  - induction l as [|x l IHl]; constructor; [apply IH|exact IHl].
  - induction l as [|[k x] l IHl]; constructor; [apply IH|exact IHl].
Qed.

Lemma float_eqb_refl a : float_eqb a a = true.
Proof. unfold float_eqb. by rewrite Z.eqb_refl. Qed.

Lemma float_eqb_sym a b : float_eqb a b = float_eqb b a.
Proof. unfold float_eqb. by rewrite (Z.eqb_sym a b), (andb_comm (float_zero a)). Qed.

Lemma float_eqb_trans a b c :
  float_eqb a b = true -> float_eqb b c = true -> float_eqb a c = true.
Proof.
  unfold float_eqb. rewrite !orb_true_iff, !andb_true_iff, !Z.eqb_eq.
  intros [->|[]] [->|[]]; auto.
Qed.

Lemma json_eqb_refl v : json_eqb v v = true.
Proof.
  induction v as [|b|z|f|s|l IH|l IH] using Value_ind'; cbn.
  - done.
  - by destruct b.
  - apply Z.eqb_refl.
  - apply float_eqb_refl.
  - by apply bool_decide_eq_true.
  - induction IH as [|x l Hx _ IHl]; [done|]. by rewrite Hx, IHl.
  - induction IH as [|[k x] l Hx _ IHl]; [done|]. cbn in Hx.
    by rewrite bool_decide_eq_true_2, Hx, IHl.
Qed.

Lemma json_eqb_sym v w : json_eqb v w = json_eqb w v.
Proof.
  revert w. induction v as [|b|z|f|s|l IH|l IH] using Value_ind'; intros [| | | | |k|k];
    cbn; try done.
  - by destruct b, b0.
  - apply Z.eqb_sym.
  - apply float_eqb_sym.
  - apply bool_decide_ext. naive_solver.
  - revert k. induction IH as [|x l Hx _ IHl]; intros [|y k]; [done..|]. by rewrite Hx, IHl.
  - revert k. induction IH as [|[a x] l Hx _ IHl]; intros [|[b y] k]; [done..|]. cbn in Hx.
    rewrite Hx, IHl. do 2 f_equal. apply bool_decide_ext. naive_solver.
Qed.

Lemma json_eqb_trans v w u :
  json_eqb v w = true -> json_eqb w u = true -> json_eqb v u = true.
Proof.
  revert w u. induction v as [|b|z|f|s|l IH|l IH] using Value_ind'; intros [| | | | |k|k] [| | | | |m|m];
    cbn; try done.
  - by destruct b, b0, b1.
  - rewrite !Z.eqb_eq. congruence.
  - apply float_eqb_trans.
  - rewrite !bool_decide_eq_true. congruence.
  - revert k m. induction IH as [|x l Hx _ IHl]; intros [|y k] [|z m]; try done.
    rewrite !andb_true_iff. intros [??] [??]. eauto.
  - revert k m. induction IH as [|[a x] l Hx _ IHl]; intros [|[b y] k] [|[c z] m]; try done.
    cbn in Hx. rewrite !andb_true_iff, !bool_decide_eq_true.
    intros [[-> ?] ?] [[-> ?] ?]. eauto.
Qed.

(** [==] on values, as an equivalence that the accessors respect. *)
Definition json_equiv (v w : Value) : Prop := json_eqb v w = true.

#[export] Instance json_equivalence : Equivalence json_equiv.
Proof.
  split.
  - intros v. apply json_eqb_refl.
  - intros v w. unfold json_equiv. by rewrite json_eqb_sym.
  - intros v w u. apply json_eqb_trans.
Qed.

#[export] Instance as_i64_opt_proper : Proper (json_equiv ==> eq) as_i64_opt.
Proof.
  intros [] []; cbn; unfold json_equiv; cbn; try done. by intros ->%Z.eqb_eq.
Qed.

#[export] Instance as_bool_opt_proper : Proper (json_equiv ==> eq) as_bool_opt.
Proof.
  intros [] []; cbn; unfold json_equiv; cbn; try done. by intros ->%eqb_true_iff.
Qed.

#[export] Instance as_str_opt_proper : Proper (json_equiv ==> eq) as_str_opt.
Proof.
  intros [] []; cbn; unfold json_equiv; cbn; try done. by intros ->%bool_decide_eq_true.
Qed.

Lemma as_i64_opt_Some v n : as_i64_opt v = Some n <-> v = JInt n /\ in_ty I64 n.
Proof.
  destruct v; cbn; try naive_solver. rewrite checked_Some. naive_solver.
Qed.

(** ** Sorted association lists *)

Lemma str_lt_spec a b : str_lt a b = true <-> String_as_OT.lt a b.
Proof.
  rewrite <- String_as_OT.cmp_lt. unfold str_lt, String_as_OT.cmp.
  by destruct (String.compare a b).
Qed.

Lemma str_lt_trans a b c : str_lt a b = true -> str_lt b c = true -> str_lt a c = true.
Proof. rewrite !str_lt_spec. apply String_as_OT.lt_trans. Qed.

Lemma str_lt_irrefl a : str_lt a a = false.
Proof.
  destruct (str_lt a a) eqn:E; [|done]. apply str_lt_spec in E.
  by destruct (String_as_OT.lt_not_eq _ _ E).
Qed.

Lemma str_lt_total a b : str_lt a b = true \/ a = b \/ str_lt b a = true.
Proof.
  unfold str_lt. rewrite (String.compare_antisym b a).
  destruct (String.compare a b) eqn:E; cbn; auto. right. left. by apply String.compare_eq_iff.
Qed.

Lemma keys_sorted_NoDup {A} (l : list (string * A)) : keys_sorted l -> NoDup l.*1.
Proof.
  induction 1 as [|kv l _ IH Hf]; cbn; constructor; [|done].
  intros Hin. apply list_elem_of_fmap in Hin as (kv' & Heq & Hin).
  rewrite Forall_forall in Hf. specialize (Hf _ Hin). rewrite Heq, str_lt_irrefl in Hf. done.
Qed.

Lemma btree_insert_In {A} k (v : A) m kv :
  kv ∈ btree_insert k v m -> kv = (k, v) \/ kv ∈ m.
Proof.
  induction m as [|[k' v'] m IH]; cbn; [rewrite elem_of_cons; naive_solver|].
  destruct (String.compare k k'); rewrite !elem_of_cons; naive_solver.
Qed.

Lemma btree_insert_sorted {A} k (v : A) m : keys_sorted m -> keys_sorted (btree_insert k v m).
Proof.
  unfold keys_sorted. induction 1 as [|[k' v'] m Hm IH Hall]; cbn; [repeat constructor|].
  destruct (String.compare k k') eqn:E.
  - apply String.compare_eq_iff in E as ->. by constructor.
  - assert (Hlt : str_lt k k' = true) by (unfold str_lt; by rewrite E).
    constructor; [by constructor|]. constructor; [done|].
    eapply Forall_impl; [exact Hall|]. cbn. intros x Hx. by eapply str_lt_trans.
  - assert (Hlt : str_lt k' k = true).
    { unfold str_lt. rewrite String.compare_antisym, E. done. }
    constructor; [done|]. apply Forall_forall. intros x Hx.
    apply btree_insert_In in Hx as [->|Hx]; [done|]. rewrite Forall_forall in Hall. by apply Hall.
Qed.
