(* ===== verification/Config.v ===== *)
(** * Config: the typed configuration catalog and its validator

    [crates/application/src/ops/config.rs], first part: the catalog of
    configuration keys with their write rule, apply class and check, and
    [validate_patch], the one gate through which every configuration change
    passes.  A check reads a snapshot in which its own key still has its
    committed value and every other key of the patch already has its new one.
    Arithmetic on [i64] values read from JSON is unchecked in the source, so
    the checks can panic; where they do is part of the theorems.  The parser of
    UUIDs (crate [uuid]) is a parameter. *)

From S2P Require Import Prelude Amm Ledger Resolution Economy Errors Json.
#[local] Open Scope string_scope.
#[local] Open Scope list_scope.
#[local] Open Scope Z_scope.

Inductive AdminRole := Curator | Ops | Finance | Superadmin.

#[export] Instance AdminRole_eq_dec : EqDecision AdminRole.
Proof. solve_decision. Defined.

Inductive ApplyClass := LiveImmutable | NextTrade | NewMarketOnly | ImmediateGlobal.

Inductive WriteRule :=
| Direct (role : AdminRole)
| TwoPhase (role : AdminRole).

Record ConfigEntry := mkConfigEntry { ce_key : string; ce_value : Value }.

Record ConfigChange := mkConfigChange { cc_key : string; cc_old : option Value; cc_new : Value }.

Notation Snapshot := (gmap string Value).

Record CatalogRule := mkRule {
  rule_key : string;
  rule_pattern : bool;
  rule_write : WriteRule;
  rule_class : ApplyClass;
  rule_check : string -> Value -> Snapshot -> outcome string unit }.

Definition snapshot_of (entries : list ConfigEntry) : Snapshot :=
  fold_left (fun m e => <[ce_key e := ce_value e]> m) entries ∅.

Definition as_i64 (v : Value) : outcome string Z := ok_or (as_i64_opt v) "expected an integer".

Definition as_bool (v : Value) : outcome string bool := ok_or (as_bool_opt v) "expected a boolean".

Definition as_i64_array (n : nat) (v : Value) : outcome string (list Z) :=
  arr ← ok_or (as_array_opt v) "expected an array";
  if negb (length arr =? n)%nat then Err "wrong array length"
  else foldM (fun out item =>
         z ← ok_or (as_i64_opt item) "expected integer entries"; Ok (out ++ [z])) [] arr.

Definition bounded (v lo hi : Z) : outcome string unit :=
  if (v <? lo) || (v >? hi) then Err "out of bounds" else Ok tt.

Definition prior_i64 (snap : Snapshot) (key : string) : option Z := snap !! key ≫= as_i64_opt.

Definition max_delta (prior : option Z) (new delta : Z) : outcome string unit :=
  match prior with
  | Some p =>
      d ← arith I64 (new - p);
      a ← arith I64 (Z.abs d);
      if a >? delta then Err "delta exceeds the per-apply limit" else Ok tt
  | None => Ok tt
  end.

Definition within_2x (prior : option Z) (new : Z) : outcome string unit :=
  match prior with
  | Some p =>
      if (p >? 0) && ((new >? saturate I64 (p * 2)) || (new <? Z.quot p 2))
      then Err "change exceeds 2x of the prior value" else Ok tt
  | None => Ok tt
  end.

(** [windows(2).any(|w| w[1] < w[0])] *)
Fixpoint any_descent (arr : list Z) : bool :=
  match arr with
  | a :: (b :: _) as rest => (b <? a) || any_descent rest
  | _ => false
  end.

Definition monotone_non_decreasing (arr : list Z) : outcome string unit :=
  if any_descent arr then Err "entries must be monotone non-decreasing" else Ok tt.

Definition PUBLISHED_POSITION_CAPS : list Z :=
  [25000000; 50000000; 100000000; 250000000; 500000000].

Definition INTEGRITY_DEFAULTS : list (string * Z) :=
  [ ("integrity_burst_multiplier_ppm", 2000000)
  ; ("integrity_young_share_max_ppm", 500000)
  ; ("integrity_device_share_max_ppm", 600000)
  ; ("integrity_subnet_share_max_ppm", 600000)
  ; ("integrity_min_metadata_coverage_ppm", 500000) ].

Definition PUBLISHED_MAX_VOTES : Z := 30.
Definition PUBLISHED_VOTE_WINDOW : Z := 3600.
Definition PUBLISHED_MIN_VOTES_FLOOR : Z := 3.

(** ** The checks *)

Definition check_discounts (_ : string) (v : Value) (snap : Snapshot) : outcome string unit :=
  arr ← as_i64_array 5 v;
  let base := default 100 (prior_i64 snap "trade_fee_bps") in
  _ ← foldM (fun _ entry => bounded entry 0 base) tt arr;
  _ ← monotone_non_decreasing arr;
  match snap !! "fee_discount_bp_by_tier" with
  | Some p =>
      match as_i64_array 5 p with
      | Ok prior => foldM (fun _ pn => max_delta (Some pn.1) pn.2 10) tt (combine prior arr)
      | _ => Ok tt
      end
  | None => Ok tt
  end.

Definition check_position_caps (_ : string) (v : Value) (_ : Snapshot) : outcome string unit :=
  arr ← as_i64_array 5 v;
  _ ← foldM (fun _ ac => if ac.1 <? ac.2 then Err "cap below the published tier table" else Ok tt)
        tt (combine arr PUBLISHED_POSITION_CAPS);
  monotone_non_decreasing arr.

Definition check_tier_thresholds (_ : string) (v : Value) (snap : Snapshot) : outcome string unit :=
  arr ← as_i64_array 5 v;
  _ ← monotone_non_decreasing arr;
  match snap !! "rep_tier_thresholds_micro" with
  | Some p =>
      match as_i64_array 5 p with
      | Ok prior =>
          foldM (fun _ pn =>
            let band := Z.quot pn.1 10 in
            d ← arith I64 (pn.2 - pn.1);
            a ← arith I64 (Z.abs d);
            if a >? band then Err "threshold moves more than 10% in one proposal" else Ok tt)
            tt (combine prior arr)
      | _ => Ok tt
      end
  | None => Ok tt
  end.

Definition check_seed (key : string) (v : Value) (snap : Snapshot) : outcome string unit :=
  n ← as_i64 v;
  if n <=? 0 then Err "seed must be positive" else within_2x (prior_i64 snap key) n.

Definition check_min_votes_floor (_ : string) (v : Value) (_ : Snapshot) : outcome string unit :=
  n ← as_i64 v;
  if n <? PUBLISHED_MIN_VOTES_FLOOR then Err "below the published floor" else Ok tt.

Definition check_max_votes (_ : string) (v : Value) (_ : Snapshot) : outcome string unit :=
  n ← as_i64 v;
  bounded n (Z.quot PUBLISHED_MAX_VOTES 2) (Z.quot (PUBLISHED_MAX_VOTES * 3) 2).

Definition check_vote_window (_ : string) (v : Value) (_ : Snapshot) : outcome string unit :=
  n ← as_i64 v;
  bounded n (Z.quot PUBLISHED_VOTE_WINDOW 2) (Z.quot (PUBLISHED_VOTE_WINDOW * 3) 2).

Definition check_integrity_ppm (key : string) (v : Value) (_ : Snapshot) : outcome string unit :=
  n ← as_i64 v;
  match List.find (fun d => bool_decide (d.1 = key)) INTEGRITY_DEFAULTS with
  | None => Err "unknown integrity knob"
  | Some (_, published) =>
      lo ← arith I64 (published * 4);
      hi ← arith I64 (published * 6);
      bounded n (Z.quot lo 5) (Z.quot hi 5)
  end.

Definition check_bool (_ : string) (v : Value) (_ : Snapshot) : outcome string unit :=
  map_ok (fun _ => tt) (as_bool v).

Definition mul_delta (prior : option Z) (new factor seed : Z) : outcome string unit :=
  match prior with
  | None => Ok tt
  | Some p =>
      if p =? 0 then
        if new =? 0 then Ok tt
        else if new >? seed then Err "re-enable exceeds the seed baseline" else Ok tt
      else if new =? 0 then Ok tt
      else if (p >? 0) && ((new >? saturate I64 (p * factor)) ||
                           ((factor >? 1) && (new <? Z.quot p factor)))
      then Err "change exceeds the multiplicative per-apply limit"
      else Ok tt
  end.

Definition check_kyc_tier (k : string) (v : Value) (snap : Snapshot) : outcome string unit :=
  n ← as_i64 v;
  _ ← bounded n 0 2;
  mul_delta (prior_i64 snap k) n 1 (if contains "deposit" k then 1 else 2).

Definition check_bonus_structure (_ : string) (v : Value) (_ : Snapshot) : outcome string unit :=
  match as_str_opt v with
  | Some s =>
      if bool_decide (s = "real_money") || bool_decide (s = "sweeps") then Ok tt
      else Err "bonus_structure must be real_money or sweeps"
  | None => Err "bonus_structure must be real_money or sweeps"
  end.

Definition check_region_allowset (_ : string) (v : Value) (_ : Snapshot) : outcome string unit :=
  arr ← ok_or (as_array_opt v) "expected an array";
  match arr with
  | [] => Err "region_allowset must be non-empty when present"
  | _ =>
      if forallb (fun item => match as_str_opt item with Some _ => true | None => false end) arr
      then Ok tt else Err "region_allowset entries must be strings"
  end.

Definition check_region_version (_ : string) (v : Value) (snap : Snapshot) : outcome string unit :=
  n ← as_i64 v;
  if n <? 1 then Err "region_allowset_version must be >= 1"
  else match prior_i64 snap "region_allowset_version" with
  | Some p =>
      if n =? p then Ok tt
      else p1 ← arith I64 (p + 1);
           if n =? p1 then Ok tt else Err "region_allowset_version must increase by 1"
  | None => Ok tt
  end.

Definition check_fee_override (_ : string) (v : Value) (_ : Snapshot) : outcome string unit :=
  if bool_decide (as_str_opt v = Some "inherit") then Ok tt
  else match as_object_opt v with
  | Some [(k, w)] =>
      if bool_decide (k = "override") then
        match as_i64_opt w with
        | Some bps => bounded bps 10 200
        | None => Err "fee override must be inherit or override(bps)"
        end
      else Err "fee override must be inherit or override(bps)"
  | _ => Err "fee override must be inherit or override(bps)"
  end.

Definition check_trade_fee (_ : string) (v : Value) (snap : Snapshot) : outcome string unit :=
  n ← as_i64 v;
  _ ← bounded n 10 200;
  max_delta (prior_i64 snap "trade_fee_bps") n 20.

Definition check_min_fee (_ : string) (v : Value) (snap : Snapshot) : outcome string unit :=
  n ← as_i64 v;
  _ ← bounded n 0 50;
  max_delta (prior_i64 snap "min_fee_bps") n 10.

Definition check_flip_window (_ : string) (v : Value) (_ : Snapshot) : outcome string unit :=
  n ← as_i64 v; bounded n 600 86400.

Definition check_min_pot (_ : string) (v : Value) (snap : Snapshot) : outcome string unit :=
  n ← as_i64 v;
  _ ← bounded n 0 1000000000;
  within_2x (prior_i64 snap "rep_score_min_pot_micro") n.

Definition check_seed_budget (_ : string) (v : Value) (snap : Snapshot) : outcome string unit :=
  n ← as_i64 v;
  _ ← bounded n 1000000 100000000000;
  within_2x (prior_i64 snap "daily_seed_budget_micro") n.

Definition check_hidden_window (_ : string) (v : Value) (_ : Snapshot) : outcome string unit :=
  n ← as_i64 v; bounded n 60 900.

Definition check_oi_floor (_ : string) (v : Value) (_ : Snapshot) : outcome string unit :=
  n ← as_i64 v; bounded n 0 1000000000.

Definition check_hold_threshold (_ : string) (v : Value) (snap : Snapshot) : outcome string unit :=
  n ← as_i64 v;
  _ ← bounded n 1000000 10000000000;
  within_2x (prior_i64 snap "payout_hold_threshold_micro") n.

Definition check_sweep_delay (_ : string) (v : Value) (snap : Snapshot) : outcome string unit :=
  n ← as_i64 v;
  _ ← bounded n 60 3600;
  within_2x (prior_i64 snap "sweep_delay_secs") n.

Definition check_cadence (_ : string) (v : Value) (_ : Snapshot) : outcome string unit :=
  n ← as_i64 v; bounded n 900 86400.

Definition check_daily_slots (_ : string) (v : Value) (snap : Snapshot) : outcome string unit :=
  n ← as_i64 v;
  _ ← bounded n 1 4;
  max_delta (prior_i64 snap "daily_slots") n 1.

Definition check_faucet_cap (_ : string) (v : Value) (snap : Snapshot) : outcome string unit :=
  n ← as_i64 v;
  _ ← bounded n 0 1000000000;
  within_2x (prior_i64 snap "faucet_per_call_cap_micro") n.

Definition check_remedial_market_cap (_ : string) (v : Value) (_ : Snapshot) : outcome string unit :=
  n ← as_i64 v; bounded n 0 500000000.

Definition check_remedial_daily_cap (_ : string) (v : Value) (_ : Snapshot) : outcome string unit :=
  n ← as_i64 v; bounded n 0 2000000000.

Definition check_receivable_cap (_ : string) (v : Value) (_ : Snapshot) : outcome string unit :=
  n ← as_i64 v; bounded n 0 1000000000000.

Definition check_writeoff_item_cap (_ : string) (v : Value) (_ : Snapshot) : outcome string unit :=
  n ← as_i64 v; bounded n 0 500000000.

Definition check_writeoff_daily_cap (_ : string) (v : Value) (_ : Snapshot) : outcome string unit :=
  n ← as_i64 v; bounded n 0 2000000000.

Definition check_proposal_ttl (_ : string) (v : Value) (_ : Snapshot) : outcome string unit :=
  n ← as_i64 v; bounded n 60 3600.

Definition check_dual_delay (_ : string) (v : Value) (_ : Snapshot) : outcome string unit :=
  n ← as_i64 v; bounded n 0 86400.

Definition check_withdraw_min (_ : string) (v : Value) (snap : Snapshot) : outcome string unit :=
  n ← as_i64 v;
  _ ← bounded n 1000000 1000000000;
  mul_delta (prior_i64 snap "withdraw_min_micro") n 10 5000000.

Definition check_withdraw_max (_ : string) (v : Value) (snap : Snapshot) : outcome string unit :=
  n ← as_i64 v;
  _ ← bounded n 1000000 1000000000000;
  mul_delta (prior_i64 snap "withdraw_max_micro") n 10 1000000000.

Definition check_withdraw_daily (_ : string) (v : Value) (snap : Snapshot) : outcome string unit :=
  n ← as_i64 v;
  _ ← bounded n 1000000 1000000000000;
  mul_delta (prior_i64 snap "withdraw_daily_limit_micro") n 10 2000000000.

Definition check_auto_approve (_ : string) (v : Value) (snap : Snapshot) : outcome string unit :=
  n ← as_i64 v;
  _ ← bounded n 0 1000000000;
  mul_delta (prior_i64 snap "withdraw_auto_approve_micro") n 10 50000000.

Definition check_dual_control (_ : string) (v : Value) (snap : Snapshot) : outcome string unit :=
  n ← as_i64 v;
  _ ← bounded n 1000000 1000000000000;
  mul_delta (prior_i64 snap "withdraw_dual_control_micro") n 10 500000000.

Definition check_warm_floor (_ : string) (v : Value) (snap : Snapshot) : outcome string unit :=
  n ← as_i64 v;
  _ ← bounded n 1000000 1000000000;
  mul_delta (prior_i64 snap "dest_warm_floor_micro") n 10 100000000.

Definition check_warm_age (_ : string) (v : Value) (snap : Snapshot) : outcome string unit :=
  n ← as_i64 v;
  _ ← bounded n 1 720;
  mul_delta (prior_i64 snap "dest_warm_age_hours") n 4 72.

Definition check_dest_daily (_ : string) (v : Value) (snap : Snapshot) : outcome string unit :=
  n ← as_i64 v;
  _ ← bounded n 1000000 1000000000000;
  mul_delta (prior_i64 snap "dest_daily_limit_micro") n 10 1000000000.

Definition check_hot_wallet (_ : string) (v : Value) (snap : Snapshot) : outcome string unit :=
  n ← as_i64 v;
  _ ← bounded n 1000000 10000000000000;
  mul_delta (prior_i64 snap "hot_wallet_daily_limit_micro") n 4 10000000000.

Definition check_confirmations (_ : string) (v : Value) (snap : Snapshot) : outcome string unit :=
  n ← as_i64 v;
  _ ← bounded n 1 300;
  mul_delta (prior_i64 snap "deposit_confirmations") n 4 32.

Definition check_credit_grant (k : string) (v : Value) (snap : Snapshot) : outcome string unit :=
  n ← as_i64 v;
  _ ← bounded n 0 100000000;
  mul_delta (prior_i64 snap k) n 4 5000000.

Definition check_referral_min (_ : string) (v : Value) (snap : Snapshot) : outcome string unit :=
  n ← as_i64 v;
  _ ← bounded n 1000000 1000000000;
  mul_delta (prior_i64 snap "referral_min_notional_micro") n 10 10000000.

Definition check_bonus_mint (_ : string) (v : Value) (snap : Snapshot) : outcome string unit :=
  n ← as_i64 v;
  _ ← bounded n 0 10000000000;
  mul_delta (prior_i64 snap "bonus_mint_daily_cap_micro") n 4 500000000.

Definition check_aml_velocity (k : string) (v : Value) (snap : Snapshot) : outcome string unit :=
  n ← as_i64 v;
  _ ← bounded n 1000000 1000000000000;
  mul_delta (prior_i64 snap k) n 4 5000000000.

Definition check_structuring_n (_ : string) (v : Value) (snap : Snapshot) : outcome string unit :=
  n ← as_i64 v;
  _ ← bounded n 2 100;
  mul_delta (prior_i64 snap "aml_structuring_n") n 4 4.

Definition check_structuring_window (_ : string) (v : Value) (snap : Snapshot) : outcome string unit :=
  n ← as_i64 v;
  _ ← bounded n 1 168;
  mul_delta (prior_i64 snap "aml_structuring_window_hours") n 4 24.

Definition check_structuring_threshold (_ : string) (v : Value) (snap : Snapshot) : outcome string unit :=
  n ← as_i64 v;
  _ ← bounded n 100000000 10000000000;
  mul_delta (prior_i64 snap "aml_structuring_threshold_micro") n 4 500000000.

Definition check_structuring_floor (_ : string) (v : Value) (snap : Snapshot) : outcome string unit :=
  n ← as_i64 v;
  _ ← bounded n 10000000 1000000000;
  mul_delta (prior_i64 snap "aml_structuring_floor_micro") n 4 100000000.

Definition check_shadow_cap (k : string) (v : Value) (snap : Snapshot) : outcome string unit :=
  n ← as_i64 v;
  _ ← bounded n 0 1000000000;
  mul_delta (prior_i64 snap k) n 10 25000000.

Definition check_stuck_sla (k : string) (v : Value) (snap : Snapshot) : outcome string unit :=
  n ← as_i64 v;
  _ ← bounded n 60 86400;
  mul_delta (prior_i64 snap k) n 4 900.

Definition check_approve_daily (_ : string) (v : Value) (snap : Snapshot) : outcome string unit :=
  n ← as_i64 v;
  _ ← bounded n 1000000 10000000000000;
  mul_delta (prior_i64 snap "withdraw_approve_daily_cap_micro") n 4 5000000000.

Definition check_reserve_topup (_ : string) (v : Value) (snap : Snapshot) : outcome string unit :=
  n ← as_i64 v;
  _ ← bounded n 1000000 1000000000000;
  mul_delta (prior_i64 snap "bonus_reserve_topup_daily_cap_micro") n 4 1000000000.

(** The cross-key order of the money limits, on the prospective snapshot. *)
Definition withdraw_chain (omin oauto ofloor odual omax odest odaily ohot : option Z) :
    outcome string unit :=
  match omin, oauto, ofloor, odual, omax, odest, odaily, ohot with
  | Some min, Some auto, Some floor, Some dual, Some max, Some dest, Some daily, Some hot =>
      if auto =? 0 then
        if negb ((min <=? dual) && (dual <=? max) && (max <=? dest) &&
                 (dest <=? daily) && (daily <=? hot))
        then Err "dual <= max <= dest_daily <= daily <= hot_wallet" else Ok tt
      else if negb ((min <=? auto) && (auto <? floor)) then Err "min <= auto < dest_warm_floor"
      else if negb ((auto <=? dual) && (dual <=? max) && (max <=? dest) &&
                    (dest <=? daily) && (daily <=? hot))
      then Err "auto <= dual <= max <= dest_daily <= daily <= hot_wallet" else Ok tt
  | _, _, _, _, _, _, _, _ => Ok tt
  end.

Definition structuring_chain (ofloor othreshold : option Z) : outcome string unit :=
  match ofloor, othreshold with
  | Some floor, Some threshold =>
      if negb ((0 <? floor) && (floor <? threshold))
      then Err "0 < aml_structuring_floor < threshold" else Ok tt
  | _, _ => Ok tt
  end.

Definition check_p7_cross_keys (snap : Snapshot) : outcome string unit :=
  let get k := prior_i64 snap k in
  _ ← withdraw_chain (get "withdraw_min_micro") (get "withdraw_auto_approve_micro")
        (get "dest_warm_floor_micro") (get "withdraw_dual_control_micro")
        (get "withdraw_max_micro") (get "dest_daily_limit_micro")
        (get "withdraw_daily_limit_micro") (get "hot_wallet_daily_limit_micro");
  structuring_chain (get "aml_structuring_floor_micro") (get "aml_structuring_threshold_micro").

Definition phase7_seed : list (string * Value) :=
  [ ("deposit_kyc_tier", JInt 1)
  ; ("withdraw_kyc_tier", JInt 2)
  ; ("withdraw_min_micro", JInt 5000000)
  ; ("withdraw_max_micro", JInt 1000000000)
  ; ("withdraw_daily_limit_micro", JInt 2000000000)
  ; ("withdraw_auto_approve_micro", JInt 50000000)
  ; ("withdraw_dual_control_micro", JInt 500000000)
  ; ("dest_warm_floor_micro", JInt 100000000)
  ; ("dest_warm_age_hours", JInt 72)
  ; ("dest_daily_limit_micro", JInt 1000000000)
  ; ("hot_wallet_daily_limit_micro", JInt 10000000000)
  ; ("deposit_confirmations", JInt 32)
  ; ("pause_deposits", JBool false)
  ; ("pause_withdrawals", JBool false)
  ; ("credit_signup_micro", JInt 5000000)
  ; ("credit_referral_referrer_micro", JInt 5000000)
  ; ("credit_referral_referee_micro", JInt 5000000)
  ; ("referral_min_notional_micro", JInt 10000000)
  ; ("bonus_mint_daily_cap_micro", JInt 500000000)
  ; ("bonus_structure", JString "real_money")
  ; ("aml_deposit_velocity_micro_24h", JInt 5000000000)
  ; ("aml_withdraw_velocity_micro_24h", JInt 5000000000)
  ; ("aml_structuring_n", JInt 4)
  ; ("aml_structuring_window_hours", JInt 24)
  ; ("aml_structuring_threshold_micro", JInt 500000000)
  ; ("aml_structuring_floor_micro", JInt 100000000)
  ; ("shadow_trade_cap_micro", JInt 25000000)
  ; ("shadow_deposit_cap_micro", JInt 25000000)
  ; ("stuck_send_sla_secs", JInt 900)
  ; ("stuck_screening_sla_secs", JInt 3600)
  ; ("region_allowset_version", JInt 1)
  ; ("withdraw_approve_daily_cap_micro", JInt 5000000000)
  ; ("bonus_reserve_topup_daily_cap_micro", JInt 1000000000) ].

Definition phase7_seed_snapshot : Snapshot :=
  fold_left (fun m kv => <[kv.1 := kv.2]> m) phase7_seed ∅.

(** ** The catalog *)

Definition CATALOG_1 : list CatalogRule :=
  [ mkRule "trade_fee_bps" false (TwoPhase Finance) NewMarketOnly check_trade_fee
  ; mkRule "min_fee_bps" false (TwoPhase Finance) NextTrade check_min_fee
  ; mkRule "discount_flip_window_secs" false (TwoPhase Finance) NextTrade check_flip_window
  ; mkRule "fee_discount_bp_by_tier" false (TwoPhase Finance) NextTrade check_discounts
  ; mkRule "position_cap_micro_by_tier" false (TwoPhase Finance) NextTrade check_position_caps
  ; mkRule "rep_tier_thresholds_micro" false (TwoPhase Finance) NextTrade check_tier_thresholds
  ; mkRule "rep_score_min_pot_micro" false (TwoPhase Finance) NextTrade check_min_pot
  ; mkRule "seed_micro_daily" false (TwoPhase Finance) NewMarketOnly check_seed
  ; mkRule "seed_micro_flash" false (TwoPhase Finance) NewMarketOnly check_seed
  ; mkRule "daily_seed_budget_micro" false (TwoPhase Finance) NewMarketOnly check_seed_budget
  ; mkRule "hidden_window_secs" false (TwoPhase Finance) LiveImmutable check_hidden_window
  ; mkRule "min_votes_to_resolve_floor" false (TwoPhase Finance) LiveImmutable check_min_votes_floor
  ; mkRule "oi_floor_micro" false (TwoPhase Finance) LiveImmutable check_oi_floor
  ; mkRule "payout_hold_threshold_micro" false (TwoPhase Finance) LiveImmutable check_hold_threshold
  ; mkRule "sweep_delay_secs" false (Direct Ops) ImmediateGlobal check_sweep_delay
  ; mkRule "max_votes_per_window" false (TwoPhase Ops) ImmediateGlobal check_max_votes
  ; mkRule "vote_window_secs" false (TwoPhase Ops) ImmediateGlobal check_vote_window
  ; mkRule "integrity_burst_multiplier_ppm" false (TwoPhase Superadmin) ImmediateGlobal check_integrity_ppm
  ; mkRule "integrity_young_share_max_ppm" false (TwoPhase Superadmin) ImmediateGlobal check_integrity_ppm
  ; mkRule "integrity_device_share_max_ppm" false (TwoPhase Superadmin) ImmediateGlobal check_integrity_ppm ].

Definition CATALOG_2 : list CatalogRule :=
  [ mkRule "integrity_subnet_share_max_ppm" false (TwoPhase Superadmin) ImmediateGlobal check_integrity_ppm
  ; mkRule "integrity_min_metadata_coverage_ppm" false (TwoPhase Superadmin) ImmediateGlobal check_integrity_ppm
  ; mkRule "flash_cadence_secs" false (Direct Curator) ImmediateGlobal check_cadence
  ; mkRule "daily_slots" false (Direct Curator) ImmediateGlobal check_daily_slots
  ; mkRule "feature_flash_markets" false (Direct Ops) ImmediateGlobal check_bool
  ; mkRule "feature_comments" false (Direct Ops) ImmediateGlobal check_bool
  ; mkRule "feature_referrals" false (TwoPhase Finance) ImmediateGlobal check_bool
  ; mkRule "trading_paused" false (Direct Ops) ImmediateGlobal check_bool
  ; mkRule "market_paused:" true (Direct Ops) ImmediateGlobal check_bool
  ; mkRule "voting_paused:" true (TwoPhase Superadmin) ImmediateGlobal check_bool
  ; mkRule "faucet_per_call_cap_micro" false (Direct Finance) ImmediateGlobal check_faucet_cap
  ; mkRule "remedial_credit_market_cap_micro" false (TwoPhase Finance) ImmediateGlobal check_remedial_market_cap
  ; mkRule "remedial_credit_daily_cap_micro" false (TwoPhase Finance) ImmediateGlobal check_remedial_daily_cap
  ; mkRule "receivable_outstanding_cap_micro" false (TwoPhase Finance) ImmediateGlobal check_receivable_cap
  ; mkRule "writeoff_per_item_cap_micro" false (TwoPhase Finance) ImmediateGlobal check_writeoff_item_cap
  ; mkRule "writeoff_daily_cap_micro" false (TwoPhase Finance) ImmediateGlobal check_writeoff_daily_cap
  ; mkRule "proposal_ttl_secs" false (TwoPhase Superadmin) ImmediateGlobal check_proposal_ttl
  ; mkRule "dual_control_delay_secs" false (TwoPhase Superadmin) ImmediateGlobal check_dual_delay
  ; mkRule "deposit_kyc_tier" false (TwoPhase Finance) NextTrade check_kyc_tier
  ; mkRule "withdraw_kyc_tier" false (TwoPhase Finance) NextTrade check_kyc_tier ].

Definition CATALOG_3 : list CatalogRule :=
  [ mkRule "withdraw_min_micro" false (TwoPhase Finance) NextTrade check_withdraw_min
  ; mkRule "withdraw_max_micro" false (TwoPhase Finance) NextTrade check_withdraw_max
  ; mkRule "withdraw_daily_limit_micro" false (TwoPhase Finance) NextTrade check_withdraw_daily
  ; mkRule "withdraw_auto_approve_micro" false (TwoPhase Finance) NextTrade check_auto_approve
  ; mkRule "withdraw_dual_control_micro" false (TwoPhase Superadmin) NextTrade check_dual_control
  ; mkRule "dest_warm_floor_micro" false (TwoPhase Finance) NextTrade check_warm_floor
  ; mkRule "dest_warm_age_hours" false (TwoPhase Finance) NextTrade check_warm_age
  ; mkRule "dest_daily_limit_micro" false (TwoPhase Finance) NextTrade check_dest_daily
  ; mkRule "hot_wallet_daily_limit_micro" false (TwoPhase Superadmin) NextTrade check_hot_wallet
  ; mkRule "deposit_confirmations" false (TwoPhase Ops) ImmediateGlobal check_confirmations
  ; mkRule "pause_deposits" false (Direct Ops) ImmediateGlobal check_bool
  ; mkRule "pause_withdrawals" false (Direct Ops) ImmediateGlobal check_bool
  ; mkRule "credit_signup_micro" false (TwoPhase Finance) NextTrade check_credit_grant
  ; mkRule "credit_referral_referrer_micro" false (TwoPhase Finance) NextTrade check_credit_grant
  ; mkRule "credit_referral_referee_micro" false (TwoPhase Finance) NextTrade check_credit_grant
  ; mkRule "referral_min_notional_micro" false (TwoPhase Finance) NextTrade check_referral_min
  ; mkRule "bonus_mint_daily_cap_micro" false (TwoPhase Finance) NextTrade check_bonus_mint
  ; mkRule "bonus_structure" false (TwoPhase Superadmin) NextTrade check_bonus_structure
  ; mkRule "aml_deposit_velocity_micro_24h" false (TwoPhase Finance) ImmediateGlobal check_aml_velocity
  ; mkRule "aml_withdraw_velocity_micro_24h" false (TwoPhase Finance) ImmediateGlobal check_aml_velocity ].

Definition CATALOG_4 : list CatalogRule :=
  [ mkRule "aml_structuring_n" false (TwoPhase Finance) ImmediateGlobal check_structuring_n
  ; mkRule "aml_structuring_window_hours" false (TwoPhase Finance) ImmediateGlobal check_structuring_window
  ; mkRule "aml_structuring_threshold_micro" false (TwoPhase Finance) ImmediateGlobal check_structuring_threshold
  ; mkRule "aml_structuring_floor_micro" false (TwoPhase Finance) ImmediateGlobal check_structuring_floor
  ; mkRule "shadow_trade_cap_micro" false (Direct Ops) NextTrade check_shadow_cap
  ; mkRule "shadow_deposit_cap_micro" false (Direct Ops) NextTrade check_shadow_cap
  ; mkRule "stuck_send_sla_secs" false (TwoPhase Ops) ImmediateGlobal check_stuck_sla
  ; mkRule "stuck_screening_sla_secs" false (TwoPhase Ops) ImmediateGlobal check_stuck_sla
  ; mkRule "region_allowset" false (TwoPhase Superadmin) NextTrade check_region_allowset
  ; mkRule "region_allowset_version" false (TwoPhase Superadmin) NextTrade check_region_version
  ; mkRule "withdraw_approve_daily_cap_micro" false (TwoPhase Superadmin) NextTrade check_approve_daily
  ; mkRule "bonus_reserve_topup_daily_cap_micro" false (TwoPhase Superadmin) NextTrade check_reserve_topup
  ; mkRule "fee_bps_override:" true (TwoPhase Finance) NextTrade check_fee_override ].

Definition CATALOG : list CatalogRule :=
  CATALOG_1 ++ CATALOG_2 ++ CATALOG_3 ++ CATALOG_4.

(** ** Lookup and validation *)

Section Uuids.
(** [uuid::Uuid::parse_str(s).is_ok()] *)
Context (uuid_parses : string -> bool).

Definition rule_matches (key : string) (rule : CatalogRule) : bool :=
  if rule_pattern rule then
    match strip_prefix (rule_key rule) key with
    | Some suffix => uuid_parses suffix
    | None => false
    end
  else bool_decide (rule_key rule = key).

Definition rule_for (key : string) : option CatalogRule := List.find (rule_matches key) CATALOG.

Definition is_sensitive (key : string) : bool :=
  match rule_write <$> rule_for key with Some (TwoPhase _) => true | _ => false end.

Definition role_may_write (role : AdminRole) (key : string) : bool :=
  match rule_write <$> rule_for key with
  | Some (Direct listed) => bool_decide (role = listed)
  | Some (TwoPhase listed) => bool_decide (role = listed) || bool_decide (role = Superadmin)
  | None => false
  end.

(** [current ⊕ patch]. *)
Definition prospective_of (current : Snapshot) (object : list (string * Value)) : Snapshot :=
  fold_left (fun m kv => <[kv.1 := kv.2]> m) object current.

(** The prospective snapshot with the key's own committed value. *)
Definition delta_view (current prospective : Snapshot) (key : string) : Snapshot :=
  match current !! key with
  | Some prior => <[key := prior]> prospective
  | None => delete key prospective
  end.

(** One turn of the loop over the patch. *)
Definition validate_key (current prospective : Snapshot) (changes : list ConfigChange)
    (kv : string * Value) : outcome AppError (list ConfigChange) :=
  let '(key, value) := kv in
  rule ← ok_or (rule_for key) (App.ConfigInvalid key "unknown config key");
  _ ← map_err (App.ConfigInvalid key)
        (rule_check rule key value (delta_view current prospective key));
  let old := current !! key in
  if match old with Some o => json_eqb o value | None => false end then Ok changes
  else Ok (changes ++ [mkConfigChange key old value]).

Definition validate_patch (current : Snapshot) (patch : Value) :
    outcome AppError (list ConfigChange) :=
  object ← ok_or (as_object_opt patch) (App.ConfigInvalid "patch" "patch must be a JSON object");
  match object with
  | [] => Err (App.ConfigInvalid "patch" "patch must not be empty")
  | _ =>
      let prospective := prospective_of current object in
      changes ← foldM (validate_key current prospective) [] object;
      _ ← map_err (App.ConfigInvalid "cross_key") (check_p7_cross_keys prospective);
      Ok changes
  end.
End Uuids.

(** ** Specification *)

(** Committing change rows. *)
Definition apply_rows (current : Snapshot) (changes : list ConfigChange) : Snapshot :=
  fold_left (fun m c => <[cc_key c := cc_new c]> m) changes current.

(** Two snapshots that answer every read alike. *)
Definition snap_equiv (s t : Snapshot) : Prop :=
  forall k, option_Forall2 json_equiv (s !! k) (t !! k).

(** The change row of one key of a patch: none when the value is not new. *)
Definition change_of (current : Snapshot) (kv : string * Value) : option ConfigChange :=
  let old := current !! kv.1 in
  if match old with Some o => json_eqb o kv.2 | None => false end then None
  else Some (mkConfigChange kv.1 old kv.2).

Definition key_accepted (uuid_parses : string -> bool) (current prospective : Snapshot)
    (kv : string * Value) : Prop :=
  exists rule, rule_for uuid_parses kv.1 = Some rule /\
    rule_check rule kv.1 kv.2 (delta_view current prospective kv.1) = Ok tt.

(** The value ranges of the operator documentation
    ([docs/copy/ops.md] and [docs/plans/phase7-money-compliance.md]).  Bounds of
    that documentation the program does not check are not in the table: the
    published floor of the seeds, and the open time of a market above its hidden
    window. *)
Inductive Doc :=
| DRange (lo hi : Z)
| DAtLeast (lo : Z)
| DBoolean
| DCaps
| DDiscounts
| DThresholds
| DStructure
| DRegions
| DFeeOverride.

Fixpoint ascending (arr : list Z) : Prop :=
  match arr with
  | a :: (b :: _) as rest => a <= b /\ ascending rest
  | _ => True
  end.

Definition five_ints (v : Value) (P : list Z -> Prop) : Prop :=
  exists arr, v = JArray (map JInt arr) /\ length arr = 5%nat /\ ascending arr /\ P arr.

Definition doc_ok (d : Doc) (v : Value) : Prop :=
  match d with
  | DRange lo hi => exists n, v = JInt n /\ lo <= n <= hi
  | DAtLeast lo => exists n, v = JInt n /\ lo <= n <= imax I64
  | DBoolean => exists b, v = JBool b
  | DCaps => five_ints v (Forall2 (fun floor cap => floor <= cap) PUBLISHED_POSITION_CAPS)
  | DDiscounts => five_ints v (Forall (fun d => 0 <= d))
  | DThresholds => five_ints v (fun _ => True)
  | DStructure => v = JString "real_money" \/ v = JString "sweeps"
  | DRegions => exists l, v = JArray l /\ l <> [] /\ Forall (fun i => exists s, i = JString s) l
  | DFeeOverride => v = JString "inherit" \/
                    exists n, v = JObject [("override", JInt n)] /\ 10 <= n <= 200
  end.

Definition DOCUMENTED : list (string * Doc) :=
  [ ("trade_fee_bps", DRange 10 200); ("min_fee_bps", DRange 0 50)
  ; ("discount_flip_window_secs", DRange 600 86400); ("fee_discount_bp_by_tier", DDiscounts)
  ; ("position_cap_micro_by_tier", DCaps); ("rep_tier_thresholds_micro", DThresholds)
  ; ("rep_score_min_pot_micro", DRange 0 1000000000)
  ; ("seed_micro_daily", DAtLeast 1); ("seed_micro_flash", DAtLeast 1)
  ; ("daily_seed_budget_micro", DRange 1000000 100000000000)
  ; ("hidden_window_secs", DRange 60 900); ("min_votes_to_resolve_floor", DAtLeast 3)
  ; ("oi_floor_micro", DRange 0 1000000000)
  ; ("payout_hold_threshold_micro", DRange 1000000 10000000000)
  ; ("sweep_delay_secs", DRange 60 3600); ("max_votes_per_window", DRange 15 45)
  ; ("vote_window_secs", DRange 1800 5400)
  ; ("integrity_burst_multiplier_ppm", DRange 1600000 2400000)
  ; ("integrity_young_share_max_ppm", DRange 400000 600000)
  ; ("integrity_device_share_max_ppm", DRange 480000 720000)
  ; ("integrity_subnet_share_max_ppm", DRange 480000 720000)
  ; ("integrity_min_metadata_coverage_ppm", DRange 400000 600000)
  ; ("flash_cadence_secs", DRange 900 86400); ("daily_slots", DRange 1 4)
  ; ("feature_flash_markets", DBoolean); ("feature_comments", DBoolean)
  ; ("feature_referrals", DBoolean); ("trading_paused", DBoolean)
  ; ("market_paused:", DBoolean); ("voting_paused:", DBoolean)
  ; ("faucet_per_call_cap_micro", DRange 0 1000000000)
  ; ("remedial_credit_market_cap_micro", DRange 0 500000000)
  ; ("remedial_credit_daily_cap_micro", DRange 0 2000000000)
  ; ("receivable_outstanding_cap_micro", DRange 0 1000000000000)
  ; ("writeoff_per_item_cap_micro", DRange 0 500000000)
  ; ("writeoff_daily_cap_micro", DRange 0 2000000000)
  ; ("proposal_ttl_secs", DRange 60 3600); ("dual_control_delay_secs", DRange 0 86400)
  ; ("deposit_kyc_tier", DRange 0 2); ("withdraw_kyc_tier", DRange 0 2)
  ; ("withdraw_min_micro", DRange 1000000 1000000000)
  ; ("withdraw_max_micro", DRange 1000000 1000000000000)
  ; ("withdraw_daily_limit_micro", DRange 1000000 1000000000000)
  ; ("withdraw_auto_approve_micro", DRange 0 1000000000)
  ; ("withdraw_dual_control_micro", DRange 1000000 1000000000000)
  ; ("dest_warm_floor_micro", DRange 1000000 1000000000)
  ; ("dest_warm_age_hours", DRange 1 720)
  ; ("dest_daily_limit_micro", DRange 1000000 1000000000000)
  ; ("hot_wallet_daily_limit_micro", DRange 1000000 10000000000000)
  ; ("deposit_confirmations", DRange 1 300)
  ; ("pause_deposits", DBoolean); ("pause_withdrawals", DBoolean)
  ; ("credit_signup_micro", DRange 0 100000000)
  ; ("credit_referral_referrer_micro", DRange 0 100000000)
  ; ("credit_referral_referee_micro", DRange 0 100000000)
  ; ("referral_min_notional_micro", DRange 1000000 1000000000)
  ; ("bonus_mint_daily_cap_micro", DRange 0 10000000000); ("bonus_structure", DStructure)
  ; ("aml_deposit_velocity_micro_24h", DRange 1000000 1000000000000)
  ; ("aml_withdraw_velocity_micro_24h", DRange 1000000 1000000000000)
  ; ("aml_structuring_n", DRange 2 100); ("aml_structuring_window_hours", DRange 1 168)
  ; ("aml_structuring_threshold_micro", DRange 100000000 10000000000)
  ; ("aml_structuring_floor_micro", DRange 10000000 1000000000)
  ; ("shadow_trade_cap_micro", DRange 0 1000000000)
  ; ("shadow_deposit_cap_micro", DRange 0 1000000000)
  ; ("stuck_send_sla_secs", DRange 60 86400); ("stuck_screening_sla_secs", DRange 60 86400)
  ; ("region_allowset", DRegions); ("region_allowset_version", DAtLeast 1)
  ; ("withdraw_approve_daily_cap_micro", DRange 1000000 10000000000000)
  ; ("bonus_reserve_topup_daily_cap_micro", DRange 1000000 1000000000000)
  ; ("fee_bps_override:", DFeeOverride) ].

(** How far one change may move a value from the committed one: the "maximum
    change" column of the same tables.  [MTimes] lets a key be switched off, and
    back on up to its seed; discounts are also bounded by the trade fee that
    will hold when the patch is applied.  Where the program's limit is not the
    documented one, the row has the program's: the KYC tiers ("1" in the plan)
    can only be lowered, the flash cadence ("one cadence step") and the fee
    override ("20bp vs pool stamp") have no limit. *)
Inductive Move :=
| MAny
| MDelta (limit : Z)
| MDouble
| MTimes (factor seed : Z)
| MNext
| MInts
| MDiscounts
| MThresholds.

Definition LIMITS : list (string * Move) :=
  [ ("trade_fee_bps", MDelta 20); ("min_fee_bps", MDelta 10); ("fee_discount_bp_by_tier", MDiscounts)
  ; ("position_cap_micro_by_tier", MInts); ("rep_tier_thresholds_micro", MThresholds)
  ; ("rep_score_min_pot_micro", MDouble); ("seed_micro_daily", MDouble); ("seed_micro_flash", MDouble)
  ; ("daily_seed_budget_micro", MDouble); ("payout_hold_threshold_micro", MDouble); ("sweep_delay_secs", MDouble)
  ; ("daily_slots", MDelta 1); ("faucet_per_call_cap_micro", MDouble)
  ; ("deposit_kyc_tier", MTimes 1 1); ("withdraw_kyc_tier", MTimes 1 2)
  ; ("withdraw_min_micro", MTimes 10 5000000); ("withdraw_max_micro", MTimes 10 1000000000)
  ; ("withdraw_daily_limit_micro", MTimes 10 2000000000); ("withdraw_auto_approve_micro", MTimes 10 50000000)
  ; ("withdraw_dual_control_micro", MTimes 10 500000000); ("dest_warm_floor_micro", MTimes 10 100000000)
  ; ("dest_warm_age_hours", MTimes 4 72); ("dest_daily_limit_micro", MTimes 10 1000000000)
  ; ("hot_wallet_daily_limit_micro", MTimes 4 10000000000); ("deposit_confirmations", MTimes 4 32)
  ; ("credit_signup_micro", MTimes 4 5000000); ("credit_referral_referrer_micro", MTimes 4 5000000)
  ; ("credit_referral_referee_micro", MTimes 4 5000000); ("referral_min_notional_micro", MTimes 10 10000000)
  ; ("bonus_mint_daily_cap_micro", MTimes 4 500000000)
  ; ("aml_deposit_velocity_micro_24h", MTimes 4 5000000000); ("aml_withdraw_velocity_micro_24h", MTimes 4 5000000000)
  ; ("aml_structuring_n", MTimes 4 4); ("aml_structuring_window_hours", MTimes 4 24)
  ; ("aml_structuring_threshold_micro", MTimes 4 500000000); ("aml_structuring_floor_micro", MTimes 4 100000000)
  ; ("shadow_trade_cap_micro", MTimes 10 25000000); ("shadow_deposit_cap_micro", MTimes 10 25000000)
  ; ("stuck_send_sla_secs", MTimes 4 900); ("stuck_screening_sla_secs", MTimes 4 900)
  ; ("region_allowset_version", MNext); ("withdraw_approve_daily_cap_micro", MTimes 4 5000000000)
  ; ("bonus_reserve_topup_daily_cap_micro", MTimes 4 1000000000) ].

Definition limit_of (name : string) : Move :=
  default MAny (snd <$> List.find (fun m => bool_decide (m.1 = name)) LIMITS).

(** A relation between the committed and the new integer, if there are both. *)
Definition int_step (prior : option Value) (v : Value) (R : Z -> Z -> Prop) : Prop :=
  forall p n, prior = Some (JInt p) -> in_ty I64 p -> v = JInt n -> R p n.

(** The same for vectors of five. *)
Definition ints_step (prior : option Value) (arr : list Z) (R : Z -> Z -> Prop) : Prop :=
  forall old, prior = Some (JArray (map JInt old)) -> length old = 5%nat -> Forall (in_ty I64) old ->
    Forall2 R old arr.

(** The change from [prior] to [v] is within the limit, under the trade fee [fee]. *)
Definition step_ok (m : Move) (prior : option Value) (fee : Z) (v : Value) : Prop :=
  match m with
  | MAny => True
  | MDelta d => int_step prior v (fun p n => Z.abs (n - p) <= d)
  | MDouble => int_step prior v (fun p n => 0 < p -> p / 2 <= n <= 2 * p)
  | MTimes factor seed => int_step prior v (fun p n =>
      n <> 0 -> (p = 0 -> n <= seed) /\ (0 < p -> n <= factor * p /\ (1 < factor -> p / factor <= n)))
  | MNext => int_step prior v (fun p n => n = p \/ n = p + 1)
  | MInts => forall arr, v = JArray (map JInt arr) -> Forall (in_ty I64) arr
  | MDiscounts => forall arr, v = JArray (map JInt arr) ->
      Forall (fun d => d <= fee) arr /\ ints_step prior arr (fun p n => Z.abs (n - p) <= 10)
  | MThresholds => forall arr, v = JArray (map JInt arr) ->
      Forall (in_ty I64) arr /\ ints_step prior arr (fun p n => Z.abs (n - p) <= Z.quot p 10)
  end.

(** The trade fee a snapshot holds, the shipped one if none. *)
Definition trade_fee (s : Snapshot) : Z := default 100 (prior_i64 s "trade_fee_bps").

(** The names that are prefixes of a market's UUID. *)
Definition is_pattern (name : string) : bool :=
  bool_decide (name ∈ ["market_paused:"; "voting_paused:"; "fee_bps_override:"]).

Definition names (uuid_parses : string -> bool) (name key : string) : Prop :=
  if is_pattern name then exists id, key = (name +:+ id)%string /\ uuid_parses id = true
  else key = name.

(** The value of a key is as documented. *)
Definition documented_ok (uuid_parses : string -> bool) (key : string) (v : Value) : Prop :=
  exists name d, (name, d) ∈ DOCUMENTED /\ names uuid_parses name key /\ doc_ok d v.

(** The order of the withdrawal limits, when all of them are configured. *)
Definition limits_ordered (s : Snapshot) : Prop :=
  (forall min auto floor dual max dest daily hot,
     prior_i64 s "withdraw_min_micro" = Some min ->
     prior_i64 s "withdraw_auto_approve_micro" = Some auto ->
     prior_i64 s "dest_warm_floor_micro" = Some floor ->
     prior_i64 s "withdraw_dual_control_micro" = Some dual ->
     prior_i64 s "withdraw_max_micro" = Some max ->
     prior_i64 s "dest_daily_limit_micro" = Some dest ->
     prior_i64 s "withdraw_daily_limit_micro" = Some daily ->
     prior_i64 s "hot_wallet_daily_limit_micro" = Some hot ->
     (auto = 0 \/ min <= auto < floor /\ auto <= dual) /\
     min <= dual <= max /\ max <= dest /\ dest <= daily <= hot) /\
  (forall floor threshold,
     prior_i64 s "aml_structuring_floor_micro" = Some floor ->
     prior_i64 s "aml_structuring_threshold_micro" = Some threshold ->
     0 < floor < threshold).

Definition config_ok (uuid_parses : string -> bool) (s : Snapshot) : Prop :=
  (forall k v, s !! k = Some v -> documented_ok uuid_parses k v) /\ limits_ordered s.

(** ** Lemmas *)

Lemma bounded_Ok v lo hi u : bounded v lo hi = Ok u <-> lo <= v <= hi.
Proof.
  unfold bounded. rewrite Z.gtb_ltb.
  destruct (Z.ltb_spec v lo), (Z.ltb_spec hi v); cbn; destruct u; naive_solver lia.
Qed.

Lemma as_i64_Ok v n : as_i64 v = Ok n <-> v = JInt n /\ in_ty I64 n.
Proof. unfold as_i64. rewrite ok_or_Ok. apply as_i64_opt_Some. Qed.

Lemma any_descent_ascending arr : any_descent arr = false <-> ascending arr.
Proof.
  induction arr as [|a [|b rest] IH]; [done..|].
  change (any_descent (a :: b :: rest)) with ((b <? a) || any_descent (b :: rest)).
  change (ascending (a :: b :: rest)) with (a <= b /\ ascending (b :: rest)).
  rewrite orb_false_iff, IH, Z.ltb_ge. done.
Qed.

Lemma as_i64_array_Ok n v arr :
  as_i64_array n v = Ok arr <->
  v = JArray (map JInt arr) /\ length arr = n /\ Forall (in_ty I64) arr.
Proof.
  unfold as_i64_array. split.
  - intros H. inv_run H. destruct v; try discriminate. cbn in Hr. injection Hr as ->.
    apply negb_false_iff, Nat.eqb_eq in Hc. subst n.
    apply (foldM_ind _ (fun seen out => seen = map JInt out /\ Forall (in_ty I64) out)) in H.
    + destruct H as [-> H]. by rewrite length_map.
    + done.
    + intros seen x rest acc acc' _ [-> Hall] Hx. inv_run Hx. apply as_i64_opt_Some in Hr as [-> Hv].
      injection Hx as <-. rewrite map_app. split; [done|]. apply Forall_app. auto.
  - intros (-> & <- & Hall). cbn. rewrite length_map, Nat.eqb_refl. cbn.
    enough (G : forall out, foldM (fun out item =>
       z ← ok_or (as_i64_opt item) "expected integer entries"; Ok (out ++ [z])) out (map JInt arr)
       = @Ok string _ (out ++ arr)) by apply (G []).
    induction Hall as [|z arr Hz _ IH]; intros out; cbn; [by rewrite app_nil_r|].
    rewrite checked_in by done. cbn. rewrite IH. by rewrite <- app_assoc.
Qed.

Lemma range_check (rest : Z -> outcome string unit) lo hi v :
  (n ← as_i64 v; _ ← bounded n lo hi; rest n) = Ok tt -> doc_ok (DRange lo hi) v.
Proof.
  intros H. inv_run H. apply as_i64_opt_Some in Hr as [-> _]. apply bounded_Ok in Hr0. by eexists.
Qed.

Lemma range_check_only lo hi v :
  (n ← as_i64 v; bounded n lo hi) = Ok tt -> doc_ok (DRange lo hi) v.
Proof.
  intros H. inv_run H. apply as_i64_opt_Some in Hr as [-> _]. apply bounded_Ok in H. by eexists.
Qed.

Lemma check_bool_doc k v s : check_bool k v s = Ok tt -> doc_ok DBoolean v.
Proof. destruct v; try discriminate. by eexists. Qed.

Lemma check_seed_doc k v s : check_seed k v s = Ok tt -> doc_ok (DAtLeast 1) v.
Proof.
  unfold check_seed. intros H. inv_run H. apply as_i64_opt_Some in Hr as [-> [_ Hv]].
  bool_hyps. eexists. split; [done|lia].
Qed.

Lemma check_min_votes_floor_doc k v s :
  check_min_votes_floor k v s = Ok tt -> doc_ok (DAtLeast 3) v.
Proof.
  unfold check_min_votes_floor, PUBLISHED_MIN_VOTES_FLOOR. intros H. inv_run H.
  apply as_i64_opt_Some in Hr as [-> [_ Hv]]. bool_hyps. eexists. split; [done|lia].
Qed.

Lemma check_region_version_doc k v s :
  check_region_version k v s = Ok tt -> doc_ok (DAtLeast 1) v.
Proof.
  unfold check_region_version. intros H. apply bind_Ok in H as (n & Hr & H).
  apply as_i64_Ok in Hr as [-> [_ Hv]].
  destruct (Z.ltb_spec n 1); [discriminate|]. eexists. split; [done|lia].
Qed.

Lemma check_discounts_doc k v s : check_discounts k v s = Ok tt -> doc_ok DDiscounts v.
Proof.
  unfold check_discounts, monotone_non_decreasing. intros H.
  apply bind_Ok in H as (arr & Ha & H). apply bind_Ok in H as ([] & Hb & H).
  apply bind_Ok in H as ([] & Hm & _). inv_run Hm. apply any_descent_ascending in Hc.
  apply as_i64_array_Ok in Ha as (-> & Hlen & _). exists arr. do 3 (split; [done|]).
  apply (foldM_ind _ (fun seen _ => Forall (fun d => 0 <= d) seen)) in Hb; [done|done|].
  intros seen x _ [] [] _ Hseen Hx. apply bounded_Ok in Hx. apply Forall_app. split; [done|].
  constructor; [lia|done].
Qed.

Lemma check_tier_thresholds_doc k v s :
  check_tier_thresholds k v s = Ok tt -> doc_ok DThresholds v.
Proof.
  unfold check_tier_thresholds, monotone_non_decreasing. intros H.
  apply bind_Ok in H as (arr & Ha & H). apply bind_Ok in H as ([] & Hm & _). inv_run Hm.
  apply any_descent_ascending in Hc. apply as_i64_array_Ok in Ha as (-> & Hlen & _).
  by exists arr.
Qed.

Lemma check_position_caps_doc k v s : check_position_caps k v s = Ok tt -> doc_ok DCaps v.
Proof.
  unfold check_position_caps, monotone_non_decreasing. intros H.
  apply bind_Ok in H as (arr & Ha & H). apply bind_Ok in H as ([] & Hb & H). inv_run H.
  apply any_descent_ascending in Hc. apply as_i64_array_Ok in Ha as (-> & Hlen & _).
  exists arr. do 3 (split; [done|]).
  assert (G : Forall (fun ac => ac.2 <= ac.1) (combine arr PUBLISHED_POSITION_CAPS)).
  { apply (foldM_ind _ (fun seen _ => Forall (fun ac : Z * Z => ac.2 <= ac.1) seen)) in Hb; [done|done|].
    intros seen x _ [] [] _ Hseen Hx. inv_run Hx. bool_hyps. apply Forall_app. auto. }
  destruct arr as [|a [|b [|c [|d [|e [|]]]]]]; try discriminate.
  cbn in G. rewrite !Forall_cons in G. cbn in G. repeat constructor; lia.
Qed.

Lemma check_bonus_structure_doc k v s : check_bonus_structure k v s = Ok tt -> doc_ok DStructure v.
Proof.
  unfold check_bonus_structure. destruct v; try discriminate. cbn.
  destruct (bool_decide_reflect (s0 = "real_money")) as [->|]; [by left|].
  destruct (bool_decide_reflect (s0 = "sweeps")) as [->|]; [by right|]. discriminate.
Qed.

Lemma check_region_allowset_doc k v s : check_region_allowset k v s = Ok tt -> doc_ok DRegions v.
Proof.
  unfold check_region_allowset. destruct v as [| | | | |[|i l]|]; try discriminate. cbn [as_array_opt ok_or mbind outcome_bind].
  case_if; [|discriminate]. intros _. eexists. split; [done|]. split; [done|].
  apply Forall_forall. intros x Hx. apply list_elem_of_In in Hx.
  rewrite forallb_forall in Hc. specialize (Hc x Hx). destruct x; try discriminate. by eexists.
Qed.

Lemma check_fee_override_doc k v s : check_fee_override k v s = Ok tt -> doc_ok DFeeOverride v.
Proof.
  unfold check_fee_override. destruct v as [| | | |t| |[|[f w] [|]]]; try discriminate; cbn.
  - destruct (bool_decide_reflect (Some t = Some "inherit")) as [[= ->]|]; [by left|discriminate].
  - destruct (bool_decide_reflect (f = "override")) as [->|]; [|discriminate].
    destruct (as_i64_opt w) eqn:E; [|discriminate]. apply as_i64_opt_Some in E as [-> _].
    intros H%bounded_Ok. right. by eexists.
Qed.

Lemma check_integrity_doc k published lo hi v s :
  check_integrity_ppm k v s = Ok tt ->
  List.find (fun d => bool_decide (d.1 = k)) INTEGRITY_DEFAULTS = Some (k, published) ->
  lo = Z.quot (published * 4) 5 -> hi = Z.quot (published * 6) 5 ->
  doc_ok (DRange lo hi) v.
Proof.
  unfold check_integrity_ppm. intros H Hf -> ->. rewrite Hf in H. inv_run H.
  apply as_i64_opt_Some in Hr as [-> _]. apply bounded_Ok in H. by eexists.
Qed.

(** Every check of the catalog implies the documented range of its key. *)
Definition rule_documented (r : CatalogRule) (d : string * Doc) : Prop :=
  (rule_key r = d.1 /\ rule_pattern r = is_pattern d.1) /\
  forall k v s, (rule_pattern r = false -> k = rule_key r) ->
    rule_check r k v s = Ok tt -> doc_ok d.2 v.

Create HintDb catalog.
#[local] Hint Resolve check_bool_doc check_seed_doc check_min_votes_floor_doc
  check_region_version_doc check_discounts_doc check_tier_thresholds_doc
  check_position_caps_doc check_bonus_structure_doc check_region_allowset_doc
  check_fee_override_doc : catalog.

Ltac rule_doc :=
  split; [by split|]; intros ? ? ? Hk H;
  first [ solve [eauto with catalog nocore]
        | exact (range_check_only _ _ _ H)
        | exact (range_check _ _ _ _ H)
        | rewrite (Hk eq_refl) in H; cbn [rule_check rule_key] in H; eapply (check_integrity_doc _ _ _ _ _ _ H); reflexivity ].

Lemma catalog_documented : Forall2 rule_documented CATALOG DOCUMENTED.
Proof. repeat (apply Forall2_cons; split; [rule_doc|]). constructor. Qed.

(** The two checks whose arithmetic is not protected by bounds: tier
    thresholds are compared with their prior values, and the region version
    with its successor. *)
Definition delta_safe (key : string) (v : Value) (snap : Snapshot) : Prop :=
  (key = "rep_tier_thresholds_micro" ->
   forall w arr, w = v \/ snap !! key = Some w -> w = JArray (map JInt arr) ->
     Forall (fun z => 0 <= z) arr) /\
  (key = "region_allowset_version" -> snap !! key <> Some (JInt (imax I64))).

Definition rule_total (r : CatalogRule) (d : string * Doc) : Prop :=
  rule_key r = d.1 /\
  forall k v s, (rule_pattern r = false -> k = rule_key r) ->
    (forall p, s !! k = Some p -> doc_ok d.2 p) -> delta_safe k v s ->
    rule_check r k v s <> Panic.

Lemma rule_matches_names up r name key :
  rule_key r = name -> rule_pattern r = is_pattern name ->
  rule_matches up key r = true -> names up name key.
Proof.
  unfold rule_matches, names. intros -> ->. destruct (is_pattern name).
  - destruct (strip_prefix name key) as [id|] eqn:Hs; [|discriminate].
    apply strip_prefix_Some in Hs. eauto.
  - intros H. by apply bool_decide_eq_true in H.
Qed.

(** The catalog row of a rule, with its documentation. *)
Lemma rule_for_documented up k r : rule_for up k = Some r ->
  exists name d, (name, d) ∈ DOCUMENTED /\ names up name k /\ rule_documented r (name, d) /\
    forall P, Forall2 P CATALOG DOCUMENTED -> P r (name, d).
Proof.
  unfold rule_for. intros Hr.
  apply find_some in Hr as [Hin Hm]. apply list_elem_of_In, list_elem_of_lookup in Hin as [i Hi].
  destruct (Forall2_lookup_l _ _ _ _ _ catalog_documented Hi) as ([name d] & Hd & Hdoc).
  exists name, d. split; [by eapply list_elem_of_lookup_2|].
  split; [destruct Hdoc as [[]]; by eapply rule_matches_names|]. split; [done|].
  intros P HP. by eapply (Forall2_lookup_lr _ _ _ _ _ _ HP).
Qed.

Lemma names_key r up name k :
  rule_key r = name -> rule_pattern r = is_pattern name -> names up name k ->
  rule_pattern r = false -> k = rule_key r.
Proof. unfold names. intros -> -> Hn Hp. by rewrite Hp in Hn. Qed.

Lemma accepted_documented up current pro k v :
  key_accepted up current pro (k, v) -> documented_ok up k v.
Proof.
  intros (r & Hr & Hc). cbn [fst snd] in *.
  destruct (rule_for_documented _ _ _ Hr) as (name & d & Hin & Hn & [[Hk Hp] Hdoc] & _).
  exists name, d. do 2 (split; [done|]). eapply Hdoc; [|exact Hc]. by eapply names_key.
Qed.

(** *** The prospective snapshot and the change rows *)

Lemma prospective_union current object : NoDup object.*1 ->
  prospective_of current object = list_to_map object ∪ current.
Proof.
  unfold prospective_of. revert current. induction object as [|[k v] object IH]; intros current Hnd.
  - cbn. by rewrite (left_id_L ∅ (∪)).
  - cbn in Hnd. apply NoDup_cons in Hnd as [Hk Hnd]. cbn [fold_left]. rewrite (IH _ Hnd).
    cbn [fst snd]. rewrite list_to_map_cons, <- insert_union_l.
    symmetry. apply insert_union_r. by apply not_elem_of_list_to_map_1.
Qed.

Lemma apply_rows_lookup current object k : NoDup object.*1 ->
  option_Forall2 json_equiv
    (apply_rows current (omap (change_of current) object) !! k)
    (prospective_of current object !! k).
Proof.
  intros Hnd. unfold apply_rows, prospective_of. revert Hnd.
  enough (G : forall m m' : Snapshot, (forall x, x ∈ object.*1 -> m !! x = current !! x) ->
     option_Forall2 json_equiv (m !! k) (m' !! k) -> NoDup object.*1 ->
     option_Forall2 json_equiv
       (fold_left (fun m c => <[cc_key c := cc_new c]> m) (omap (change_of current) object) m !! k)
       (fold_left (fun m kv => <[kv.1 := kv.2]> m) object m' !! k)).
  { intros Hnd. apply G; [done| |done]. destruct (current !! k); constructor. reflexivity. }
  induction object as [|[a v] object IH]; intros m m' Hm Hk Hnd; [done|].
  cbn [omap list_omap fold_left fst snd]. apply NoDup_cons in Hnd as [Ha Hnd].
  cbn [fst] in Ha. unfold change_of at 1. cbn [fst snd].
  destruct (match current !! a with Some o => json_eqb o v | None => false end) eqn:E;
    cbn [fold_left cc_key cc_new]; (apply IH; [| |done]).
  - intros x Hx. apply Hm. by right.
  - destruct (decide (a = k)) as [->|Hne]; [|by rewrite lookup_insert_ne].
    rewrite lookup_insert_eq, (Hm k) by (by left). destruct (current !! k) as [o|]; [|done].
    by constructor.
  - intros x Hx. rewrite lookup_insert_ne by (intros ->; contradiction). apply Hm. by right.
  - destruct (decide (a = k)) as [->|Hne]; [|by rewrite !lookup_insert_ne].
    rewrite !lookup_insert_eq. constructor. reflexivity.
Qed.

Lemma apply_rows_split current changes k v :
  apply_rows current changes !! k = Some v ->
  current !! k = Some v \/ exists c, c ∈ changes /\ cc_key c = k /\ cc_new c = v.
Proof.
  unfold apply_rows. revert current.
  induction changes as [|c changes IH]; intros current H; [by left|].
  cbn [fold_left] in H. apply IH in H as [H|(c' & Hin & ?)]; [|right; exists c'; split; [by right|done]].
  apply lookup_insert_Some in H as [[<- <-]|[_ H]]; [|by left].
  right. exists c. split; [left|done].
Qed.

Lemma prior_i64_equiv s t k : snap_equiv s t -> prior_i64 s k = prior_i64 t k.
Proof.
  intros H. unfold prior_i64. specialize (H k). destruct H as [v w Hvw|]; cbn; [|done].
  by rewrite Hvw.
Qed.

(** The two halves of the cross-key check as order facts. *)
Ltac no_limit := split; [intros _; intros; discriminate|done].

Lemma withdraw_chain_ok (omin oauto ofloor odual omax odest odaily ohot : option Z) :
  withdraw_chain omin oauto ofloor odual omax odest odaily ohot = Ok tt <->
  (forall min auto floor dual max dest daily hot,
     omin = Some min -> oauto = Some auto -> ofloor = Some floor -> odual = Some dual ->
     omax = Some max -> odest = Some dest -> odaily = Some daily -> ohot = Some hot ->
     (auto = 0 \/ min <= auto < floor /\ auto <= dual) /\
     min <= dual <= max /\ max <= dest /\ dest <= daily <= hot).
Proof.
  unfold withdraw_chain. destruct omin as [min|]; [|no_limit]. destruct oauto as [auto|]; [|no_limit].
  destruct ofloor as [floor|]; [|no_limit]. destruct odual as [dual|]; [|no_limit].
  destruct omax as [max|]; [|no_limit]. destruct odest as [dest|]; [|no_limit].
  destruct odaily as [daily|]; [|no_limit]. destruct ohot as [hot|]; [|no_limit].
  split.
  - intros H min' auto' floor' dual' max' dest' daily' hot' [= <-] [= <-] [= <-] [= <-]
      [= <-] [= <-] [= <-] [= <-]. destruct (Z.eqb_spec auto 0); inv_run H; bool_hyps; lia.
  - intros H. specialize (H _ _ _ _ _ _ _ _ eq_refl eq_refl eq_refl eq_refl eq_refl eq_refl
      eq_refl eq_refl). destruct (Z.eqb_spec auto 0); repeat (case_if; [exfalso|]); try done.
    all: repeat match goal with H : negb _ = true |- _ => apply negb_true_iff in H end.
    all: rewrite !andb_false_iff, ?Z.leb_gt, ?Z.ltb_ge in *; lia.
Qed.

Lemma cross_keys_ordered s : check_p7_cross_keys s = Ok tt <-> limits_ordered s.
Proof.
  unfold check_p7_cross_keys, limits_ordered. rewrite <- withdraw_chain_ok.
  rewrite bind_Ok. split.
  - intros ([] & Hw & H). split; [exact Hw|]. intros floor threshold Hf Ht.
    unfold structuring_chain in H. rewrite Hf, Ht in H. inv_run H. bool_hyps. lia.
  - intros [Hw H]. exists tt. split; [exact Hw|]. unfold structuring_chain.
    destruct (prior_i64 s "aml_structuring_floor_micro") as [f|]; [|done].
    destruct (prior_i64 s "aml_structuring_threshold_micro") as [t|]; [|done].
    specialize (H _ _ eq_refl eq_refl). destruct (Z.ltb_spec 0 f); [|lia].
    destruct (Z.ltb_spec f t); [done|lia].
Qed.

Section Validation.
Context (uuid_parses : string -> bool).
Implicit Types (current pro : Snapshot).

Lemma validate_key_Ok current pro changes kv changes' :
  validate_key uuid_parses current pro changes kv = Ok changes' <->
  key_accepted uuid_parses current pro kv /\
  changes' = changes ++ match change_of current kv with Some c => [c] | None => [] end.
Proof.
  destruct kv as [k v]. unfold validate_key, key_accepted, change_of. cbn [fst snd].
  rewrite bind_Ok. setoid_rewrite ok_or_Ok. setoid_rewrite bind_Ok. setoid_rewrite map_err_Ok.
  split.
  - intros (r & Hr & [] & Hc & H). split; [by exists r|].
    destruct (match current !! k with Some o => json_eqb o v | None => false end);
      injection H as <-; [by rewrite app_nil_r|done].
  - intros [(r & Hr & Hc) ->]. exists r. split; [done|]. exists tt. split; [done|].
    destruct (match current !! k with Some o => json_eqb o v | None => false end); [|done].
    by rewrite app_nil_r.
Qed.

Lemma validate_keys_Ok current pro object changes changes' :
  foldM (validate_key uuid_parses current pro) changes object = Ok changes' <->
  Forall (key_accepted uuid_parses current pro) object /\
  changes' = changes ++ omap (change_of current) object.
Proof.
  revert changes. induction object as [|kv object IH]; intros changes; cbn [foldM omap list_omap].
  - rewrite app_nil_r. naive_solver.
  - rewrite bind_Ok. setoid_rewrite validate_key_Ok. setoid_rewrite IH.
    rewrite Forall_cons. split.
    + intros (a & [Hk ->] & Hall & ->). split; [done|]. rewrite <- app_assoc.
      by destruct (change_of current kv).
    + intros [[Hk Hall] ->]. eexists. split; [done|]. split; [done|]. rewrite <- app_assoc.
      by destruct (change_of current kv).
Qed.

Lemma validate_patch_Ok current object changes :
  validate_patch uuid_parses current (JObject object) = Ok changes <->
  object <> [] /\
  Forall (key_accepted uuid_parses current (prospective_of current object)) object /\
  limits_ordered (prospective_of current object) /\
  changes = omap (change_of current) object.
Proof.
  unfold validate_patch. cbn [as_object_opt ok_or mbind outcome_bind].
  destruct object as [|kv object]; [split; [discriminate|naive_solver]|].
  set (obj := kv :: object). rewrite bind_Ok. setoid_rewrite validate_keys_Ok.
  setoid_rewrite bind_Ok. setoid_rewrite map_err_Ok. rewrite <- cross_keys_ordered.
  split; [intros (a & [Hall ->] & [] & Hx & [= <-]); done|].
  intros (_ & Hall & Hx & ->). eexists. split; [done|]. by exists tt.
Qed.

Lemma validate_patch_object current patch changes :
  validate_patch uuid_parses current patch = Ok changes -> exists object, patch = JObject object.
Proof. destruct patch; try discriminate. eauto. Qed.

Lemma change_of_Some current kv c :
  change_of current kv = Some c ->
  c = mkConfigChange kv.1 (current !! kv.1) kv.2 /\
  forall o, current !! kv.1 = Some o -> json_eqb o kv.2 = false.
Proof.
  unfold change_of.
  destruct (match current !! kv.1 with Some o => json_eqb o kv.2 | None => false end) eqn:E;
    [discriminate|]. intros [= <-]. split; [done|]. intros o Ho. by rewrite Ho in E.
Qed.

Lemma change_keys_NoDup current object :
  NoDup object.*1 -> NoDup (map cc_key (omap (change_of current) object)).
Proof.
  induction object as [|kv object IH]; intros Hnd; cbn; [constructor|].
  cbn in Hnd. apply NoDup_cons in Hnd as [Hk Hnd]. specialize (IH Hnd).
  destruct (change_of current kv) as [c|] eqn:E; [|done]. cbn. constructor; [|done].
  apply change_of_Some in E as [-> _]. cbn. intros Hin. apply Hk.
  apply list_elem_of_fmap in Hin as (c' & Heq & Hin).
  apply list_elem_of_omap in Hin as (kv' & Hin & [-> _]%change_of_Some).
  rewrite Heq. cbn. apply list_elem_of_fmap. eauto.
Qed.

(** Committing an accepted patch keeps the documented ranges and the order of
    the limits. *)
Lemma accepted_patch_config_ok current patch changes :
  (forall object, patch = JObject object -> NoDup object.*1) ->
  config_ok uuid_parses current -> validate_patch uuid_parses current patch = Ok changes ->
  config_ok uuid_parses (apply_rows current changes).
Proof.
  intros Hnd [Hdoc _] Hv. destruct (validate_patch_object _ _ _ Hv) as [object ->].
  specialize (Hnd _ eq_refl). apply validate_patch_Ok in Hv as (_ & Hall & Hord & ->). split.
  - intros k v Hk. apply apply_rows_split in Hk as [Hk|(c & Hin & <- & <-)]; [by apply Hdoc|].
    apply list_elem_of_omap in Hin as ([k v] & Hin & [-> _]%change_of_Some).
    rewrite Forall_forall in Hall. by eapply accepted_documented, Hall.
  - assert (Heq : snap_equiv (apply_rows current (omap (change_of current) object))
                    (prospective_of current object)) by (intros k; by apply apply_rows_lookup).
    unfold limits_ordered in *.
    by repeat setoid_rewrite (prior_i64_equiv _ _ _ Heq).
Qed.
End Validation.

(** *** Where the checks cannot panic *)

Lemma as_i64_no_panic v : as_i64 v <> Panic.
Proof. unfold as_i64. by destruct (as_i64_opt v). Qed.

Lemma bounded_no_panic v lo hi : bounded v lo hi <> Panic.
Proof. unfold bounded. by case_if. Qed.

Lemma mul_delta_no_panic p n f s : mul_delta p n f s <> Panic.
Proof. unfold mul_delta. destruct p; [|done]. by repeat case_if. Qed.

Lemma within_2x_no_panic p n : within_2x p n <> Panic.
Proof. unfold within_2x. destruct p; [|done]. by case_if. Qed.

Lemma max_delta_no_panic p n d :
  (forall q, p = Some q -> in_ty I64 (n - q) /\ imin I64 < n - q) -> max_delta p n d <> Panic.
Proof.
  intros H. unfold max_delta. destruct p as [q|]; [|done]. destruct (H q eq_refl) as [Hd Hm].
  rewrite arith_in by done. cbn [mbind outcome_bind]. rewrite arith_in by ty.
  cbn [mbind outcome_bind]. by case_if.
Qed.

Lemma range_no_panic (rest : Z -> outcome string unit) lo hi v :
  (forall n, lo <= n <= hi -> rest n <> Panic) ->
  (n ← as_i64 v; _ ← bounded n lo hi; rest n) <> Panic.
Proof.
  intros H Hp. apply bind_Panic in Hp as [Hp|(n & _ & Hp)]; [by apply as_i64_no_panic in Hp|].
  apply bind_Panic in Hp as [Hp|([] & Hb & Hp)]; [by apply bounded_no_panic in Hp|].
  apply bounded_Ok in Hb. by eapply H.
Qed.

Lemma range_only_no_panic lo hi v : (n ← as_i64 v; bounded n lo hi) <> Panic.
Proof.
  intros Hp. apply bind_Panic in Hp as [Hp|(n & _ & Hp)]; [by apply as_i64_no_panic in Hp|].
  by apply bounded_no_panic in Hp.
Qed.

Lemma range_prior s k lo hi q :
  (forall p, s !! k = Some p -> doc_ok (DRange lo hi) p) -> prior_i64 s k = Some q -> lo <= q <= hi.
Proof.
  intros H. unfold prior_i64. destruct (s !! k) as [p|]; [|discriminate]. cbn.
  destruct (H p eq_refl) as (n & -> & Hn). cbn. by intros [-> _]%checked_Some.
Qed.

Lemma delta_range_no_panic k lo hi d v s :
  (forall p, s !! k = Some p -> doc_ok (DRange lo hi) p) ->
  0 <= lo -> hi <= imax I64 ->
  (n ← as_i64 v; _ ← bounded n lo hi; max_delta (prior_i64 s k) n d) <> Panic.
Proof.
  intros Hdoc Hlo Hhi. apply range_no_panic. intros n Hn. apply max_delta_no_panic.
  intros q Hq. pose proof (range_prior _ _ _ _ _ Hdoc Hq). cbn in Hhi.
  unfold in_ty. cbn [imin imax]. lia.
Qed.

Lemma foldM_no_panic {A} (f : unit -> A -> outcome string unit) (P : A -> Prop) l :
  Forall P l -> (forall x, P x -> f tt x <> Panic) -> foldM f tt l <> Panic.
Proof.
  intros Hl Hf. induction Hl as [|x l Hx _ IH]; cbn; [done|].
  specialize (Hf x Hx). destruct (f tt x) as [[]| |]; done.
Qed.

Lemma as_i64_array_no_panic n v : as_i64_array n v <> Panic.
Proof.
  unfold as_i64_array. destruct (as_array_opt v) as [arr|]; [|done]. cbn. case_if; [done|].
  enough (G : forall out : list Z, foldM (fun out item =>
     z ← ok_or (as_i64_opt item) "expected integer entries"; Ok (out ++ [z])) out arr
     <> @Panic string _) by apply G.
  clear. induction arr as [|x arr IH]; intros out; cbn; [done|].
  destruct (as_i64_opt x); cbn; [apply IH|done].
Qed.

(** The loops over a prior vector and a new one, both without negative
    entries. *)
Lemma Forall_combine {A B} (P : A -> Prop) (Q : B -> Prop) l k :
  Forall P l -> Forall Q k -> Forall (fun xy => P xy.1 /\ Q xy.2) (combine l k).
Proof.
  intros Hl. revert k. induction Hl as [|x l Hx _ IH]; intros [|y k] Hk; cbn; [constructor..|].
  apply Forall_cons in Hk as [Hy Hk]. constructor; [done|]. by apply IH.
Qed.

Definition i64_nonneg (z : Z) : Prop := in_ty I64 z /\ 0 <= z.

#[local] Instance map_JInt_inj : Inj eq eq (map JInt).
Proof.
  intros l. induction l as [|x l IH]; intros [|y k]; cbn; try done.
  intros [= -> H]. f_equal. by apply IH.
Qed.

Lemma check_discounts_total k v s :
  (forall p, s !! "fee_discount_bp_by_tier" = Some p -> doc_ok DDiscounts p) ->
  check_discounts k v s <> Panic.
Proof.
  intros Hdoc Hp. unfold check_discounts in Hp.
  apply bind_Panic in Hp as [Hp|(arr & Ha & Hp)]; [by apply as_i64_array_no_panic in Hp|].
  apply bind_Panic in Hp as [Hp|([] & Hb & Hp)].
  { revert Hp. apply (foldM_no_panic _ (fun _ => True)); [by apply Forall_forall|].
    intros x _. apply bounded_no_panic. }
  apply bind_Panic in Hp as [Hp|([] & _ & Hp)];
    [unfold monotone_non_decreasing in Hp; by destruct (any_descent arr)|].
  destruct (s !! "fee_discount_bp_by_tier") as [p|]; [|done].
  destruct (as_i64_array 5 p) as [prior| |] eqn:Ep; [|done..].
  revert Hp. apply (foldM_no_panic _ (fun pn => i64_nonneg pn.1 /\ i64_nonneg pn.2)).
  - apply as_i64_array_Ok in Ha as (-> & _ & Ha), Ep as (-> & _ & Hp).
    destruct (Hdoc _ eq_refl) as (arr' & Heq & _ & _ & Hnn). injection Heq as Heq.
    apply (inj (map JInt)) in Heq. subst arr'.
    apply Forall_combine; apply Forall_and; split; [done..| |].
    + exact Ha.
    + apply (foldM_ind _ (fun seen _ => Forall (fun d => 0 <= d) seen)) in Hb; [done|done|].
      intros seen x _ [] [] _ Hseen Hx. apply bounded_Ok in Hx. apply Forall_app. split; [done|].
      constructor; [lia|done].
  - intros [q n] [[Hq1 Hq2] [Hn1 Hn2]]. apply max_delta_no_panic. intros ? [= <-].
    unfold in_ty in *. cbn [imin imax fst snd] in *. lia.
Qed.

Lemma check_tier_thresholds_total v s :
  delta_safe "rep_tier_thresholds_micro" v s ->
  check_tier_thresholds "rep_tier_thresholds_micro" v s <> Panic.
Proof.
  intros [Hs _] Hp. specialize (Hs eq_refl). unfold check_tier_thresholds in Hp.
  apply bind_Panic in Hp as [Hp|(arr & Ha & Hp)]; [by apply as_i64_array_no_panic in Hp|].
  apply bind_Panic in Hp as [Hp|([] & _ & Hp)];
    [unfold monotone_non_decreasing in Hp; by destruct (any_descent arr)|].
  destruct (s !! "rep_tier_thresholds_micro") as [p|] eqn:Es; [|done].
  destruct (as_i64_array 5 p) as [prior| |] eqn:Ep; [|done..].
  apply as_i64_array_Ok in Ha as (-> & _ & Ha), Ep as (-> & _ & Hp').
  pose proof (Hs _ arr (or_introl eq_refl) eq_refl) as Hn.
  pose proof (Hs _ prior (or_intror eq_refl) eq_refl) as Hn'.
  revert Hp. apply (foldM_no_panic _ (fun pn => i64_nonneg pn.1 /\ i64_nonneg pn.2)).
  - apply Forall_combine; by apply Forall_and.
  - intros [q n] [[Hq1 Hq2] [Hn1 Hn2]]. cbn [fst snd] in *. unfold in_ty in *. cbn [imin imax] in *.
    rewrite !arith_in by (unfold in_ty; cbn [imin imax]; lia). cbn [mbind outcome_bind].
    rewrite !arith_in by (unfold in_ty; cbn [imin imax]; lia). cbn [mbind outcome_bind]. by case_if.
Qed.

Lemma check_region_version_total v s :
  delta_safe "region_allowset_version" v s ->
  check_region_version "region_allowset_version" v s <> Panic.
Proof.
  intros [_ Hs] Hp. specialize (Hs eq_refl). unfold check_region_version, prior_i64 in Hp.
  apply bind_Panic in Hp as [Hp|(n & _ & Hp)]; [by apply as_i64_no_panic in Hp|].
  destruct (n <? 1); [done|]. destruct (s !! "region_allowset_version") as [w|]; [|done].
  cbn in Hp. destruct (as_i64_opt w) as [p|] eqn:E; [|done].
  apply as_i64_opt_Some in E as [-> Hp']. destruct (n =? p); [done|].
  rewrite arith_in in Hp; [cbn in Hp; by destruct (n =? p + 1)|].
  assert (p <> imax I64) by congruence. unfold in_ty in *. cbn [imin imax] in *. lia.
Qed.

Lemma check_position_caps_total k v s : check_position_caps k v s <> Panic.
Proof.
  intros Hp. unfold check_position_caps, monotone_non_decreasing in Hp.
  apply bind_Panic in Hp as [Hp|(arr & _ & Hp)]; [by apply as_i64_array_no_panic in Hp|].
  apply bind_Panic in Hp as [Hp|([] & _ & Hp)]; [|by destruct (any_descent arr)].
  revert Hp. apply (foldM_no_panic _ (fun _ => True)); [by apply Forall_forall|].
  intros x _. by case_if.
Qed.

Lemma check_seed_total k v s : check_seed k v s <> Panic.
Proof.
  intros Hp. unfold check_seed in Hp.
  apply bind_Panic in Hp as [Hp|(n & _ & Hp)]; [by apply as_i64_no_panic in Hp|].
  destruct (n <=? 0); [done|]. by apply within_2x_no_panic in Hp.
Qed.

Lemma check_min_votes_floor_total k v s : check_min_votes_floor k v s <> Panic.
Proof.
  intros Hp. unfold check_min_votes_floor in Hp.
  apply bind_Panic in Hp as [Hp|(n & _ & Hp)]; [by apply as_i64_no_panic in Hp|].
  by destruct (n <? PUBLISHED_MIN_VOTES_FLOOR).
Qed.

Lemma check_integrity_total k v s : check_integrity_ppm k v s <> Panic.
Proof.
  intros Hp. unfold check_integrity_ppm in Hp.
  apply bind_Panic in Hp as [Hp|(n & _ & Hp)]; [by apply as_i64_no_panic in Hp|].
  destruct (List.find _ INTEGRITY_DEFAULTS) as [[name published]|] eqn:E; [|done].
  apply find_some in E as [E _]. cbn in E.
  repeat (destruct E as [[= <- <-]|E]; [by apply bounded_no_panic in Hp|]). done.
Qed.

Lemma check_bool_total k v s : check_bool k v s <> Panic.
Proof. by destruct v. Qed.

Lemma check_bonus_structure_total k v s : check_bonus_structure k v s <> Panic.
Proof. unfold check_bonus_structure. destruct (as_str_opt v); [by case_if|done]. Qed.

Lemma check_region_allowset_total k v s : check_region_allowset k v s <> Panic.
Proof. unfold check_region_allowset. destruct v as [| | | | |[|]|]; try done. cbn. by case_if. Qed.

Lemma check_fee_override_total k v s : check_fee_override k v s <> Panic.
Proof.
  unfold check_fee_override. case_if; [done|]. destruct (as_object_opt v) as [[|[f w] [|]]|]; try done.
  case_if; [|done]. destruct (as_i64_opt w); [apply bounded_no_panic|done].
Qed.

Create HintDb catalog_total.
#[local] Hint Resolve check_position_caps_total check_seed_total check_min_votes_floor_total
  check_integrity_total check_bool_total check_bonus_structure_total check_region_allowset_total
  check_fee_override_total range_only_no_panic : catalog_total.

Ltac rule_never_panics :=
  split; [reflexivity|]; intros ? ? ? Hk Hdoc Hsafe;
  cbn [rule_check rule_key rule_pattern snd] in *;
  first [ solve [eauto with catalog_total nocore]
        | apply range_only_no_panic
        | apply range_no_panic; intros; first [apply mul_delta_no_panic | apply within_2x_no_panic]
        | pose proof (Hk eq_refl); subst;
          first [ by apply check_tier_thresholds_total
                | by apply check_region_version_total
                | by apply check_discounts_total
                | apply (delta_range_no_panic _ _ _ _ _ _ Hdoc); cbn; lia ] ].

Lemma catalog_total : Forall2 rule_total CATALOG DOCUMENTED.
Proof. repeat (apply Forall2_cons; split; [rule_never_panics|]). constructor. Qed.

(** *** A key has one catalog row *)

Lemma documented_names_distinct : NoDup DOCUMENTED.*1.
Proof. apply (bool_decide_unpack _). vm_compute. exact I. Qed.

Definition no_clash (name name' : string) : bool :=
  bool_decide (name = name') ||
  match strip_prefix name name', strip_prefix name' name with None, None => true | _, _ => false end.

Lemma patterns_apart : forall d d', d ∈ DOCUMENTED -> d' ∈ DOCUMENTED -> is_pattern d.1 = true ->
  no_clash d.1 d'.1 = true.
Proof.
  assert (H : forallb (fun d => forallb (fun d' => negb (is_pattern d.1) || no_clash d.1 d'.1)
             DOCUMENTED) DOCUMENTED = true) by (vm_compute; reflexivity).
  intros d d' Hd Hd' Hp. rewrite forallb_forall in H. apply list_elem_of_In in Hd, Hd'.
  specialize (H d Hd). rewrite forallb_forall in H. specialize (H d' Hd'). by rewrite Hp in H.
Qed.

Lemma common_prefix a b x y :
  (a +:+ x)%string = (b +:+ y)%string ->
  (exists t, strip_prefix a b = Some t) \/ (exists t, strip_prefix b a = Some t).
Proof.
  revert b. induction a as [|c a IH]; intros b H; [left; by eexists|].
  destruct b as [|c' b]; [right; by eexists|]. cbn in H. injection H as <- H.
  cbn. rewrite !Ascii.eqb_refl. by apply IH.
Qed.

Lemma str_app_nil s : (s +:+ "")%string = s.
Proof. induction s as [|c s IH]; [done|]. exact (f_equal (String c) IH). Qed.

Lemma names_unique up k d d' : d ∈ DOCUMENTED -> d' ∈ DOCUMENTED ->
  names up d.1 k -> names up d'.1 k -> d = d'.
Proof.
  intros Hd Hd' Hn Hn'.
  assert (Heq : d.1 = d'.1).
  { assert (Hpre : forall n, names up n k -> exists x, k = (n +:+ x)%string).
    { intros n. unfold names. destruct (is_pattern n); [intros (x & -> & _); eauto|].
      intros ->. exists "". by rewrite str_app_nil. }
    destruct (Hpre _ Hn) as [x Hx], (Hpre _ Hn') as [y Hy].
    assert (Hc := common_prefix d.1 d'.1 x y ltac:(congruence)).
    assert (Hclash : no_clash d.1 d'.1 = true \/ d.1 = d'.1).
    { destruct (is_pattern d.1) eqn:Ep; [left; by apply patterns_apart|].
      destruct (is_pattern d'.1) eqn:Ep'.
      - pose proof (patterns_apart _ _ Hd' Hd Ep') as H. left. unfold no_clash in *.
        rewrite (bool_decide_ext _ (d'.1 = d.1)) by (split; congruence).
        by destruct (strip_prefix d.1 d'.1), (strip_prefix d'.1 d.1).
      - right. unfold names in Hn, Hn'. rewrite Ep in Hn. rewrite Ep' in Hn'. congruence. }
    destruct Hclash as [H|H]; [|done]. unfold no_clash in H.
    case_bool_decide as E; [done|]. destruct Hc as [[t Ht]|[t Ht]]; rewrite Ht in H.
    - discriminate.
    - by destruct (strip_prefix d.1 d'.1). }
  destruct (proj1 (list_elem_of_lookup _ _) Hd) as [i Hi].
  destruct (proj1 (list_elem_of_lookup _ _) Hd') as [j Hj].
  assert (i = j) as ->.
  { eapply (NoDup_lookup _ _ _ d.1 documented_names_distinct).
    - by rewrite list_lookup_fmap, Hi.
    - by rewrite list_lookup_fmap, Hj, Heq. }
  congruence.
Qed.

Lemma delta_view_own current pro k : delta_view current pro k !! k = current !! k.
Proof.
  unfold delta_view. destruct (current !! k) eqn:E; [apply lookup_insert_eq|apply lookup_delete_eq].
Qed.

Lemma validate_key_no_panic up current pro changes kv :
  config_ok up current -> delta_safe kv.1 kv.2 current ->
  validate_key up current pro changes kv <> Panic.
Proof.
  destruct kv as [k v]. intros [Hdoc _] Hsafe Hp. cbn [fst snd] in *. unfold validate_key in Hp.
  destruct (rule_for up k) as [r|] eqn:Hr; [|discriminate].
  apply bind_Panic in Hp as [Hp|(r' & [= <-] & Hp)]; [discriminate|].
  apply bind_Panic in Hp as [Hp|(_ & _ & Hp)]; [|revert Hp; cbn; by case_if].
  apply map_err_Panic in Hp.
  destruct (rule_for_documented _ _ _ Hr) as (name & d & Hin & Hn & [[Hk Hpat] _] & Htot).
  destruct (Htot _ catalog_total) as [_ Htot']. revert Hp. apply Htot'.
  - by eapply names_key.
  - intros p Hpv. rewrite delta_view_own in Hpv.
    destruct (Hdoc _ _ Hpv) as (name' & d' & Hin' & Hn' & Hok).
    by pose proof (names_unique up k (name, d) (name', d') Hin Hin' Hn Hn') as [= -> ->].
  - unfold delta_safe. by rewrite !delta_view_own.
Qed.

Lemma withdraw_chain_no_panic a b c d e f g h : withdraw_chain a b c d e f g h <> Panic.
Proof.
  unfold withdraw_chain. destruct a; [|done]. destruct b; [|done]. destruct c; [|done].
  destruct d; [|done]. destruct e; [|done]. destruct f; [|done]. destruct g; [|done].
  destruct h; [|done]. by repeat case_if.
Qed.

Lemma cross_keys_no_panic s : check_p7_cross_keys s <> Panic.
Proof.
  unfold check_p7_cross_keys. intros Hp. apply bind_Panic in Hp as [Hp|([] & _ & Hp)].
  - by apply withdraw_chain_no_panic in Hp.
  - unfold structuring_chain in Hp. destruct (prior_i64 s "aml_structuring_floor_micro"); [|done].
    destruct (prior_i64 s "aml_structuring_threshold_micro"); [|done]. revert Hp. by case_if.
Qed.

(** *** What the checks accept, exactly *)

Lemma prior_i64_Some s k p : prior_i64 s k = Some p <-> s !! k = Some (JInt p) /\ in_ty I64 p.
Proof.
  unfold prior_i64. destruct (s !! k) as [w|]; cbn; [|naive_solver]. rewrite as_i64_opt_Some. naive_solver.
Qed.

Lemma int_step_prior s k n R :
  int_step (s !! k) (JInt n) R <-> forall p, prior_i64 s k = Some p -> R p n.
Proof.
  unfold int_step. setoid_rewrite prior_i64_Some. split; [naive_solver|]. intros Hr p m Hp Ht [= <-]. by apply Hr.
Qed.

Lemma delta_Ok (e : string) p n d : d <= imax I64 ->
  (x ← arith I64 (n - p); a ← arith I64 (Z.abs x); if a >? d then Err e else Ok tt) = Ok tt <-> Z.abs (n - p) <= d.
Proof.
  intros Hd. split.
  - intros (x & [-> _]%arith_Ok & Hr)%bind_Ok. apply bind_Ok in Hr as (y & [-> _]%arith_Ok & Hr).
    rewrite Z.gtb_ltb in Hr. destruct (Z.ltb_spec d (Z.abs (n - p))); [done|lia].
  - intros Hr. cbn in Hd. rewrite arith_in by ty. cbn. rewrite arith_in by ty. cbn.
    rewrite Z.gtb_ltb. destruct (Z.ltb_spec d (Z.abs (n - p))); [lia|done].
Qed.

Lemma max_delta_Ok o n d :
  d <= imax I64 -> max_delta o n d = Ok tt <-> forall p, o = Some p -> Z.abs (n - p) <= d.
Proof. intros Hd. destruct o as [p|]; cbn; [|naive_solver]. rewrite delta_Ok by done. naive_solver. Qed.

Lemma within_2x_Ok o n :
  n <= imax I64 -> within_2x o n = Ok tt <-> forall p, o = Some p -> 0 < p -> p / 2 <= n <= 2 * p.
Proof.
  intros Hn. destruct o as [p|]; cbn; [|naive_solver]. rewrite !Z.gtb_ltb.
  destruct (Z.ltb_spec 0 p); cbn; [|split; [naive_solver lia|done]].
  rewrite Z.quot_div_nonneg by lia. unfold saturate. cbn [imin imax] in *. rewrite Z.max_r by lia.
  destruct (Z.ltb_spec (Z.min (p * 2) 9223372036854775807) n), (Z.ltb_spec n (p / 2)); cbn;
    (split; [naive_solver lia|]); intros Hr; try done; specialize (Hr p eq_refl ltac:(done)); lia.
Qed.

Lemma mul_delta_Ok o n f seed :
  in_ty I64 n -> 1 <= f -> mul_delta o n f seed = Ok tt <->
  forall p, o = Some p -> n <> 0 -> (p = 0 -> n <= seed) /\ (0 < p -> n <= f * p /\ (1 < f -> p / f <= n)).
Proof.
  intros [_ Hn] Hf. cbn [imax] in Hn. destruct o as [p|]; cbn; [|naive_solver]. rewrite !Z.gtb_ltb.
  destruct (Z.eqb_spec p 0) as [->|Hp], (Z.eqb_spec n 0) as [->|Hn0]; try (split; [naive_solver|done]).
  - destruct (Z.ltb_spec seed n); (split; [|done || naive_solver lia]).
    + done.
    + intros _ q [= <-] _. split; [lia|lia].
  - destruct (Z.ltb_spec 0 p); cbn; [|split; [naive_solver lia|done]].
    rewrite Z.quot_div_nonneg by lia. unfold saturate. cbn [imin imax].
    assert (0 < p * f) by nia. rewrite Z.max_r by lia.
    destruct (Z.ltb_spec (Z.min (p * f) 9223372036854775807) n); cbn.
    { split; [done|]. intros Hr. destruct (Hr p eq_refl Hn0) as [_ Hb]. specialize (Hb ltac:(done)). lia. }
    destruct (Z.ltb_spec 1 f), (Z.ltb_spec n (p / f)); cbn.
    { split; [done|]. intros Hr. destruct (Hr p eq_refl Hn0) as [_ Hb]. destruct (Hb ltac:(done)); lia. }
    all: split; [|done]; intros _ q [= <-] _; split; [lia|]; intros _; split; lia.
Qed.

(** A checked integer in a range, with a further check. *)
Lemma range_exact (rest : Z -> outcome string unit) lo hi v (P : Z -> Prop) :
  in_ty I64 lo -> in_ty I64 hi -> (forall n, lo <= n <= hi -> rest n = Ok tt <-> P n) ->
  (n ← as_i64 v; _ ← bounded n lo hi; rest n) = Ok tt <->
  doc_ok (DRange lo hi) v /\ forall n, v = JInt n -> P n.
Proof.
  intros [Hlo _] [_ Hhi] HP. cbn [imin imax] in *. split.
  - intros (n & [-> _]%as_i64_Ok & Hr)%bind_Ok. apply bind_Ok in Hr as ([] & Hb%bounded_Ok & Hr).
    split; [by eexists|]. intros m [= <-]. by apply HP.
  - intros [(n & -> & Hn) Hp]. rewrite (proj2 (as_i64_Ok (JInt n) n)) by (split; [done|ty]). cbn [mbind outcome_bind].
    rewrite (proj2 (bounded_Ok n lo hi tt)) by done. cbn [mbind outcome_bind]. by apply HP; [|apply Hp].
Qed.

Lemma range_only_exact lo hi v prior fee :
  in_ty I64 lo -> in_ty I64 hi ->
  (n ← as_i64 v; bounded n lo hi) = Ok tt <-> doc_ok (DRange lo hi) v /\ step_ok MAny prior fee v.
Proof.
  intros [Hlo _] [_ Hhi]. cbn [imin imax] in *. split.
  - intros (n & [-> _]%as_i64_Ok & Hr%bounded_Ok)%bind_Ok. split; [by eexists|done].
  - intros [(n & -> & Hn) _]. rewrite (proj2 (as_i64_Ok (JInt n) n)) by (split; [done|ty]).
    by apply bounded_Ok.
Qed.

(** The integer steps of a value that is an integer. *)
Lemma int_step_all prior v R : int_step prior v R <-> forall n, v = JInt n -> int_step prior (JInt n) R.
Proof.
  split; [by intros Hr n ->|]. intros Hr p n Hp Ht ->. by eapply (Hr n eq_refl).
Qed.

Lemma range_delta_exact s k lo hi d v fee :
  in_ty I64 lo -> in_ty I64 hi -> d <= imax I64 ->
  (n ← as_i64 v; _ ← bounded n lo hi; max_delta (prior_i64 s k) n d) = Ok tt <->
  doc_ok (DRange lo hi) v /\ step_ok (MDelta d) (s !! k) fee v.
Proof.
  intros Hlo Hhi Hd. cbn [step_ok]. rewrite int_step_all. apply range_exact; [done..|]. intros n Hn.
  rewrite int_step_prior. by apply max_delta_Ok.
Qed.

Lemma range_double_exact s k lo hi v fee :
  in_ty I64 lo -> in_ty I64 hi ->
  (n ← as_i64 v; _ ← bounded n lo hi; within_2x (prior_i64 s k) n) = Ok tt <->
  doc_ok (DRange lo hi) v /\ step_ok MDouble (s !! k) fee v.
Proof.
  intros Hlo Hhi. cbn [step_ok]. rewrite int_step_all. apply range_exact; [done..|]. intros n Hn.
  rewrite int_step_prior. apply within_2x_Ok. destruct Hhi as [_ Hhi]. cbn in *. lia.
Qed.

Lemma range_times_exact s k lo hi f seed v fee :
  in_ty I64 lo -> in_ty I64 hi -> 1 <= f ->
  (n ← as_i64 v; _ ← bounded n lo hi; mul_delta (prior_i64 s k) n f seed) = Ok tt <->
  doc_ok (DRange lo hi) v /\ step_ok (MTimes f seed) (s !! k) fee v.
Proof.
  intros Hlo Hhi Hf. cbn [step_ok]. rewrite int_step_all. apply range_exact; [done..|]. intros n Hn.
  rewrite int_step_prior. apply mul_delta_Ok; [|done]. destruct Hlo, Hhi. split; lia.
Qed.

Lemma check_seed_exact k v s fee :
  check_seed k v s = Ok tt <-> doc_ok (DAtLeast 1) v /\ step_ok MDouble (s !! k) fee v.
Proof.
  cbn [step_ok]. rewrite int_step_all. split.
  - intros (n & [-> [_ Hn]]%as_i64_Ok & Hr)%bind_Ok. destruct (Z.leb_spec n 0); [done|].
    split; [exists n; split; [done|cbn in *; lia]|]. intros m [= <-]. rewrite int_step_prior. by apply within_2x_Ok.
  - intros [(n & -> & Hn) Hp]. unfold check_seed.
    rewrite (proj2 (as_i64_Ok (JInt n) n)) by (split; [done|split; cbn in *; lia]). cbn [mbind outcome_bind].
    destruct (Z.leb_spec n 0); [lia|]. apply within_2x_Ok; [lia|]. apply (int_step_prior s k n (fun p n => 0 < p -> p / 2 <= n <= 2 * p)). by apply Hp.
Qed.

Lemma check_min_votes_floor_exact k v s prior fee :
  check_min_votes_floor k v s = Ok tt <-> doc_ok (DAtLeast 3) v /\ step_ok MAny prior fee v.
Proof.
  split; [intros Hr; split; [by eapply check_min_votes_floor_doc|done]|]. intros [(n & -> & Hn) _].
  unfold check_min_votes_floor. rewrite (proj2 (as_i64_Ok (JInt n) n)) by (split; [done|split; cbn in *; lia]).
  cbn [mbind outcome_bind]. by destruct (Z.ltb_spec n PUBLISHED_MIN_VOTES_FLOOR); [unfold PUBLISHED_MIN_VOTES_FLOOR in *; lia|].
Qed.

Lemma check_bool_exact k v s prior fee : check_bool k v s = Ok tt <-> doc_ok DBoolean v /\ step_ok MAny prior fee v.
Proof. split; [intros Hr; split; [by eapply check_bool_doc|done]|]. by intros [[b ->] _]. Qed.

Lemma check_bonus_structure_exact k v s prior fee :
  check_bonus_structure k v s = Ok tt <-> doc_ok DStructure v /\ step_ok MAny prior fee v.
Proof. split; [intros Hr; split; [by eapply check_bonus_structure_doc|done]|]. by intros [[->| ->] _]. Qed.

Lemma check_region_allowset_exact k v s prior fee :
  check_region_allowset k v s = Ok tt <-> doc_ok DRegions v /\ step_ok MAny prior fee v.
Proof.
  split; [intros Hr; split; [by eapply check_region_allowset_doc|done]|]. intros [(l & -> & Hne & Hl) _].
  unfold check_region_allowset. cbn [as_array_opt ok_or mbind outcome_bind]. destruct l as [|i l]; [done|].
  assert (E : forallb (fun item => match as_str_opt item with Some _ => true | None => false end) (i :: l) = true); [|by rewrite E].
  apply forallb_forall. intros x Hx%list_elem_of_In. rewrite Forall_forall in Hl. by destruct (Hl x Hx) as [t ->].
Qed.

Lemma check_fee_override_exact k v s prior fee :
  check_fee_override k v s = Ok tt <-> doc_ok DFeeOverride v /\ step_ok MAny prior fee v.
Proof.
  split; [intros Hr; split; [by eapply check_fee_override_doc|done]|]. intros [[->|(n & -> & Hn)] _]; [done|].
  unfold check_fee_override. cbn [as_str_opt as_object_opt as_i64_opt].
  rewrite bool_decide_eq_false_2, bool_decide_eq_true_2, checked_in by (done || ty). by apply bounded_Ok.
Qed.

Lemma check_integrity_exact k published lo hi v s prior fee :
  List.find (fun d => bool_decide (d.1 = k)) INTEGRITY_DEFAULTS = Some (k, published) ->
  lo = Z.quot (published * 4) 5 -> hi = Z.quot (published * 6) 5 -> 0 <= published <= 1000000000 ->
  check_integrity_ppm k v s = Ok tt <-> doc_ok (DRange lo hi) v /\ step_ok MAny prior fee v.
Proof.
  intros Hf Hlo Hhi Hp. split; [intros Hr; split; [by eapply check_integrity_doc|done]|]. intros [(n & -> & Hn) _].
  assert (0 <= lo /\ hi <= 2000000000) as [H1 H2].
  { rewrite Hlo, Hhi, (Z.quot_div_nonneg (published * 4) 5), (Z.quot_div_nonneg (published * 6) 5) by lia.
    split; [apply Z.div_pos; lia|apply Z.div_le_upper_bound; lia]. }
  unfold check_integrity_ppm. rewrite (proj2 (as_i64_Ok (JInt n) n)) by (split; [done|ty]). cbn [mbind outcome_bind].
  rewrite Hf. rewrite !arith_in by ty. cbn [mbind outcome_bind]. apply bounded_Ok. by rewrite <- Hlo, <- Hhi.
Qed.

Lemma check_region_version_exact v s fee :
  check_region_version "region_allowset_version" v s = Ok tt <->
  doc_ok (DAtLeast 1) v /\ step_ok MNext (s !! "region_allowset_version") fee v.
Proof.
  cbn [step_ok]. rewrite int_step_all. unfold check_region_version. split.
  - intros (n & [-> [_ Hn]]%as_i64_Ok & Hr)%bind_Ok. destruct (Z.ltb_spec n 1); [done|].
    split; [exists n; split; [done|cbn in *; lia]|]. intros m [= <-]. rewrite int_step_prior. intros p Hp.
    rewrite Hp in Hr. destruct (Z.eqb_spec n p); [by left|]. apply bind_Ok in Hr as (q & [-> _]%arith_Ok & Hr).
    destruct (Z.eqb_spec n (p + 1)); [by right|done].
  - intros [(n & -> & Hn) Hp]. rewrite (proj2 (as_i64_Ok (JInt n) n)) by (split; [done|split; cbn in *; lia]).
    cbn [mbind outcome_bind]. destruct (Z.ltb_spec n 1); [lia|]. specialize (Hp n eq_refl).
    rewrite int_step_prior in Hp. destruct (prior_i64 s "region_allowset_version") as [p|] eqn:Ep; [|done].
    destruct (Z.eqb_spec n p); [done|]. destruct (Hp p eq_refl) as [| ->]; [done|].
    apply prior_i64_Some in Ep as [_ [Hp1 _]]. cbn [imin imax] in *. rewrite arith_in by ty. cbn. by rewrite Z.eqb_refl.
Qed.

Lemma then_Ok (m n : outcome string unit) : (_ ← m; n) = Ok tt <-> m = Ok tt /\ n = Ok tt.
Proof. rewrite bind_Ok. split; [by intros ([] & ? & ?)|]. intros []. by exists tt. Qed.

(** A loop that only checks its items, and one over two vectors. *)
Lemma foldM_checks {A} (f : A -> outcome string unit) l :
  foldM (fun _ x => f x) tt l = Ok tt <-> Forall (fun x => f x = Ok tt) l.
Proof.
  induction l as [|x l IH]; [done|]. cbn [foldM]. rewrite Forall_cons, <- IH.
  destruct (f x) as [[]| |]; cbn; naive_solver.
Qed.

Lemma Forall_combine_iff {A B} (P : A * B -> Prop) l k :
  length l = length k -> Forall P (combine l k) <-> Forall2 (fun x y => P (x, y)) l k.
Proof.
  revert k. induction l as [|x l IH]; intros [|y k] Hl; try done. cbn [combine].
  rewrite Forall_cons, Forall2_cons, IH by (injection Hl; done). done.
Qed.

Lemma Forall2_within {A B} (P : A -> Prop) (Q : B -> Prop) (R S : A -> B -> Prop) l k :
  Forall P l -> Forall Q k -> Forall2 R l k -> (forall x y, P x -> Q y -> R x y -> S x y) -> Forall2 S l k.
Proof.
  intros Hl Hk Hr Hi. induction Hr as [|x y l k Hxy _ IH]; [done|].
  apply Forall_cons in Hl as [], Hk as []. constructor; auto.
Qed.

Lemma monotone_Ok arr : monotone_non_decreasing arr = Ok tt <-> ascending arr.
Proof. unfold monotone_non_decreasing. rewrite <- any_descent_ascending. by destruct (any_descent arr). Qed.

(** A vector of five compared entry by entry with the committed one. *)
Lemma prior_vector_exact (f : Z -> Z -> outcome string unit) (R : Z -> Z -> Prop) prior arr :
  length arr = 5%nat -> Forall (in_ty I64) arr ->
  (forall p n, in_ty I64 p -> in_ty I64 n -> f p n = Ok tt <-> R p n) ->
  match prior with
  | Some p => match as_i64_array 5 p with
              | Ok old => foldM (fun _ pn => f pn.1 pn.2) tt (combine old arr)
              | _ => Ok tt
              end
  | None => Ok tt
  end = Ok tt <-> ints_step prior arr R.
Proof.
  intros Hl Hty Hf. unfold ints_step. destruct prior as [p|]; [|naive_solver]. split.
  - intros Hr old [= ->] Hlo Ho. rewrite (proj2 (as_i64_array_Ok 5 _ old)) in Hr by done.
    rewrite foldM_checks, Forall_combine_iff in Hr by congruence.
    eapply Forall2_within; [exact Ho|exact Hty|exact Hr|]. intros p n Hp Hn. by apply Hf.
  - intros Hr. destruct (as_i64_array 5 p) as [old| |] eqn:E; [|done..].
    apply as_i64_array_Ok in E as (-> & Hlo & Ho). specialize (Hr old eq_refl Hlo Ho).
    rewrite foldM_checks, Forall_combine_iff by congruence.
    eapply Forall2_within; [exact Ho|exact Hty|exact Hr|]. intros p n Hp Hn. by apply Hf.
Qed.

(** What a check of a vector of five accepts. *)
Lemma vector_exact (rest : list Z -> outcome string unit) v (P Q : list Z -> Prop) :
  (forall arr, P arr -> Q arr -> Forall (in_ty I64) arr) ->
  (forall arr, length arr = 5%nat -> Forall (in_ty I64) arr -> rest arr = Ok tt <-> (ascending arr /\ P arr) /\ Q arr) ->
  (arr ← as_i64_array 5 v; rest arr) = Ok tt <->
  five_ints v P /\ forall arr, v = JArray (map JInt arr) -> Q arr.
Proof.
  intros Hty Hrest. unfold five_ints. split.
  - intros (arr & (-> & Hl & Ha)%as_i64_array_Ok & Hr)%bind_Ok. apply Hrest in Hr as [[Hasc HP] HQ]; [|done..].
    split; [by exists arr|]. intros arr' Heq. injection Heq as Heq. apply (inj (map JInt)) in Heq. by subst.
  - intros [(arr & -> & Hl & Hasc & HP) HQ]. specialize (HQ arr eq_refl). assert (Ha : Forall (in_ty I64) arr) by auto.
    rewrite (proj2 (as_i64_array_Ok 5 _ arr)) by done. cbn [mbind outcome_bind]. by apply Hrest.
Qed.

Lemma trade_fee_ty s : in_ty I64 (trade_fee s).
Proof.
  unfold trade_fee. destruct (prior_i64 s "trade_fee_bps") as [p|] eqn:E; [|cbn; ty].
  by apply prior_i64_Some in E as [_ E].
Qed.

Lemma check_discounts_exact k v s :
  check_discounts k v s = Ok tt <->
  doc_ok DDiscounts v /\ step_ok MDiscounts (s !! "fee_discount_bp_by_tier") (trade_fee s) v.
Proof.
  cbn [doc_ok step_ok]. unfold check_discounts. fold (trade_fee s).
  apply (vector_exact _ v (Forall (fun d => 0 <= d)) (fun arr => Forall (fun d => d <= trade_fee s) arr /\
    ints_step (s !! "fee_discount_bp_by_tier") arr (fun p n => Z.abs (n - p) <= 10))).
  - intros arr Hlo [Hhi _]. pose proof (trade_fee_ty s) as [_ Ht]. cbn in Ht. rewrite Forall_forall in *.
    intros x Hx. specialize (Hlo x Hx). specialize (Hhi x Hx). ty.
  - intros arr Hl Ha. set (tail := match s !! "fee_discount_bp_by_tier" with Some _ => _ | None => _ end).
    assert (Htail : tail = Ok tt <-> ints_step (s !! "fee_discount_bp_by_tier") arr (fun p n => Z.abs (n - p) <= 10)).
    { apply (prior_vector_exact (fun p n => max_delta (Some p) n 10)); [done..|]. intros p n _ _.
      rewrite max_delta_Ok by (cbn; lia). naive_solver. }
    clearbody tail. rewrite <- Htail, then_Ok, foldM_checks, then_Ok, monotone_Ok.
    setoid_rewrite bounded_Ok. rewrite Forall_and. tauto.
Qed.

Lemma check_tier_thresholds_exact k v s :
  check_tier_thresholds k v s = Ok tt <->
  doc_ok DThresholds v /\ step_ok MThresholds (s !! "rep_tier_thresholds_micro") (trade_fee s) v.
Proof.
  cbn [doc_ok step_ok]. unfold check_tier_thresholds.
  apply (vector_exact _ v (fun _ => True) (fun arr => Forall (in_ty I64) arr /\
    ints_step (s !! "rep_tier_thresholds_micro") arr (fun p n => Z.abs (n - p) <= Z.quot p 10))).
  - by intros arr _ [].
  - intros arr Hl Ha. set (tail := match s !! "rep_tier_thresholds_micro" with Some _ => _ | None => _ end).
    assert (Htail : tail = Ok tt <-> ints_step (s !! "rep_tier_thresholds_micro") arr (fun p n => Z.abs (n - p) <= Z.quot p 10)).
    { apply (prior_vector_exact (fun p n => d ← arith I64 (n - p); a ← arith I64 (Z.abs d);
        if a >? Z.quot p 10 then Err "threshold moves more than 10% in one proposal" else Ok tt)); [done..|].
      intros p n [_ Hp] _. cbn [imax] in Hp. pose proof (Z.quot_rem' p 10). pose proof (Z.rem_bound_abs p 10).
      apply delta_Ok. cbn. lia. }
    clearbody tail. rewrite <- Htail, then_Ok, monotone_Ok. tauto.
Qed.

Lemma check_position_caps_exact k v s prior fee :
  check_position_caps k v s = Ok tt <-> doc_ok DCaps v /\ step_ok MInts prior fee v.
Proof.
  cbn [doc_ok step_ok]. unfold check_position_caps.
  apply (vector_exact _ v (Forall2 (fun floor cap => floor <= cap) PUBLISHED_POSITION_CAPS) (Forall (in_ty I64))).
  - done.
  - intros arr Hl Ha. rewrite then_Ok, monotone_Ok, foldM_checks, Forall_combine_iff by done.
    assert (Hc : Forall2 (fun x y => (if x <? y then Err "cap below the published tier table" else Ok tt) = @Ok string _ tt)
                   arr PUBLISHED_POSITION_CAPS <-> Forall2 (fun x y => y <= x) arr PUBLISHED_POSITION_CAPS)
      by (split; intros Hr; (eapply Forall2_impl; [exact Hr|]); intros x y; cbn; destruct (Z.ltb_spec x y); naive_solver lia).
    cbn [fst snd]. rewrite Hc. pose proof (Forall2_flip (fun floor cap : Z => floor <= cap) PUBLISHED_POSITION_CAPS arr) as Hf.
    unfold flip in Hf. tauto.
Qed.

(** Every check of the catalog accepts exactly what its two rows say. *)
Definition rule_exact (r : CatalogRule) (d : string * Doc) : Prop :=
  forall k v s, (rule_pattern r = false -> k = rule_key r) ->
    rule_check r k v s = Ok tt <->
    doc_ok d.2 v /\ step_ok (limit_of d.1) (s !! k) (trade_fee s) v.

Create HintDb catalog_exact.
#[local] Hint Resolve check_seed_exact check_min_votes_floor_exact check_bool_exact
  check_bonus_structure_exact check_region_allowset_exact check_fee_override_exact
  check_region_version_exact check_discounts_exact check_tier_thresholds_exact
  check_position_caps_exact : catalog_exact.

Ltac rule_accepts :=
  intros k ? ? Hk; cbn [rule_check rule_key rule_pattern fst snd] in *;
  match goal with |- context [limit_of ?n] =>
    let m := eval vm_compute in (limit_of n) in change (limit_of n) with m end;
  first [ solve [eauto with catalog_exact nocore]
        | apply range_only_exact; ty
        | pose proof (Hk eq_refl); subst k;
          first [ solve [eauto with catalog_exact nocore]
                | apply range_delta_exact; ty
                | apply range_double_exact; ty
                | apply range_times_exact; ty
                | eapply check_integrity_exact; [reflexivity..|lia] ] ].

Lemma catalog_exact : Forall2 rule_exact CATALOG DOCUMENTED.
Proof. repeat (apply Forall2_cons; split; [rule_accepts|]). constructor. Qed.

Lemma rule_matches_named up r name k :
  rule_key r = name -> rule_pattern r = is_pattern name -> names up name k -> rule_matches up k r = true.
Proof.
  unfold rule_matches, names. intros -> ->. destruct (is_pattern name).
  - intros (id & -> & Hid). by rewrite (proj2 (strip_prefix_Some name _ id)).
  - intros ->. by rewrite bool_decide_eq_true_2.
Qed.

Lemma rule_for_named up k name d : (name, d) ∈ DOCUMENTED -> names up name k -> exists r, rule_for up k = Some r.
Proof.
  intros [i Hi]%list_elem_of_lookup Hn.
  destruct (Forall2_lookup_r _ _ _ _ _ catalog_documented Hi) as (r & Hr & [[Hk Hp] _]). cbn [fst] in *.
  destruct (rule_for up k) as [r'|] eqn:E; [by exists r'|exfalso]. unfold rule_for in E.
  assert (Hin : r ∈ CATALOG) by (by eapply list_elem_of_lookup_2). apply list_elem_of_In in Hin.
  pose proof (find_none _ _ E r Hin) as Hm. by rewrite (rule_matches_named up r name k) in Hm.
Qed.

(** Another key's check reads the trade fee of the prospective snapshot. *)
Lemma delta_view_fee current pro k : k <> "trade_fee_bps" -> trade_fee (delta_view current pro k) = trade_fee pro.
Proof.
  intros Hk. unfold trade_fee, prior_i64, delta_view.
  destruct (current !! k); [by rewrite lookup_insert_ne|by rewrite lookup_delete_ne].
Qed.

(** The acceptance of one key of a patch, in the words of the tables. *)
Lemma key_accepted_exact up current pro k v :
  key_accepted up current pro (k, v) <->
  exists name d, (name, d) ∈ DOCUMENTED /\ names up name k /\ doc_ok d v /\
    step_ok (limit_of name) (current !! k) (trade_fee pro) v.
Proof.
  assert (Hview : forall r name d, (name, d) ∈ DOCUMENTED -> names up name k -> rule_documented r (name, d) -> rule_exact r (name, d) ->
    rule_check r k v (delta_view current pro k) = Ok tt <->
    doc_ok d v /\ step_ok (limit_of name) (current !! k) (trade_fee pro) v).
  { intros r name d Hin Hn [[Hk Hp] _] He. rewrite (He k v) by (by eapply names_key). cbn [fst snd]. rewrite delta_view_own.
    destruct (decide (k = "trade_fee_bps")) as [->|Hne]; [|by rewrite delta_view_fee].
    assert (Hfee : ("trade_fee_bps", DRange 10 200) ∈ DOCUMENTED) by (apply elem_of_cons; by left).
    pose proof (names_unique up "trade_fee_bps" (name, d) _ Hin Hfee Hn eq_refl) as [= -> ->]. done. }
  unfold key_accepted. cbn [fst snd]. split.
  - intros (r & Hr & Hc). destruct (rule_for_documented _ _ _ Hr) as (name & d & Hin & Hn & Hdoc & Hall).
    exists name, d. split; [done|]. split; [done|]. by apply (Hview r name d Hin Hn Hdoc (Hall _ catalog_exact)).
  - intros (name & d & Hin & Hn & Hok). destruct (rule_for_named _ _ _ _ Hin Hn) as [r Hr]. exists r. split; [done|].
    destruct (rule_for_documented _ _ _ Hr) as (name' & d' & Hin' & Hn' & Hdoc & Hall).
    pose proof (names_unique up k (name, d) (name', d') Hin Hin' Hn Hn') as [= -> ->].
    by apply (Hview r name' d' Hin' Hn' Hdoc (Hall _ catalog_exact)).
Qed.

(** ** Properties *)

(** C32: A patch is accepted exactly when it is a non-empty object, each of its
    keys is named by a row of the tables [DOCUMENTED] and [LIMITS], its value is
    in the range of that row and within the per-apply limit of the key's
    committed value (discounts also within the trade fee that holds after the
    patch), and the limits of the resulting snapshot are ordered.  The tables
    are written out here, not read off the checks.  The change rows are then
    precisely the keys whose value differs, once each, with the committed value
    as [old], and committing them gives the validated snapshot. *)
Theorem validate_patch_exact (uuid_parses : string -> bool) (current : Snapshot)
    (object : list (string * Value)) (Hkeys : NoDup object.*1) :
  let prospective := list_to_map object ∪ current in
  (forall changes,
     validate_patch uuid_parses current (JObject object) = Ok changes <->
     object <> [] /\
     (forall k v, (k, v) ∈ object -> exists name d, (name, d) ∈ DOCUMENTED /\ names uuid_parses name k /\
        doc_ok d v /\ step_ok (limit_of name) (current !! k) (trade_fee prospective) v) /\
     limits_ordered prospective /\
     changes = omap (change_of current) object) /\
  let rows := omap (change_of current) object in
  NoDup (map cc_key rows) /\
  (forall c, c ∈ rows -> (cc_key c, cc_new c) ∈ object /\ cc_old c = current !! cc_key c /\
     forall o, cc_old c = Some o -> json_eqb o (cc_new c) = false) /\
  snap_equiv (apply_rows current rows) prospective.
Proof.
  intros prospective. assert (Hpro : prospective_of current object = prospective)
    by (by apply prospective_union).
  split; [|split; [by apply change_keys_NoDup|split]].
  - intros changes. rewrite validate_patch_Ok, Hpro, Forall_forall.
    split; intros (? & Hall & ? & ?); (split; [done|]); (split; [|done]).
    + intros k v Hin. apply key_accepted_exact. exact (Hall (k, v) Hin).
    + intros [k v] Hin. apply key_accepted_exact. by apply Hall.
  - intros c Hc. apply list_elem_of_omap in Hc as ([k v] & Hin & [-> Hne]%change_of_Some). done.
  - intros k. rewrite <- Hpro. by apply apply_rows_lookup.
Qed.

(** The shipped configuration: the catalog seeds of the migrations. *)
Definition shipped : list (string * Value) :=
  [ ("trade_fee_bps", JInt 100); ("min_fee_bps", JInt 10)
  ; ("discount_flip_window_secs", JInt 3600)
  ; ("fee_discount_bp_by_tier", JArray (map JInt [0; 0; 10; 20; 30]))
  ; ("position_cap_micro_by_tier", JArray (map JInt PUBLISHED_POSITION_CAPS))
  ; ("rep_tier_thresholds_micro", JArray (map JInt [0; 200000; 400000; 600000; 800000]))
  ; ("daily_slots", JInt 2); ("trading_paused", JBool false) ] ++ phase7_seed.

Definition shipped_snapshot : Snapshot := apply_rows ∅ (omap (change_of ∅) shipped).

Definition demo_uuid (s : string) : bool := (String.length s =? 36)%nat.

Definition demo_patch : list (string * Value) :=
  [ ("daily_slots", JInt 2); ("trade_fee_bps", JInt 115); ("withdraw_max_micro", JInt 900000000) ].

Lemma config_ok_empty up : config_ok up ∅.
Proof. split; [intros k v H; by rewrite lookup_empty in H|split; intros; discriminate]. Qed.

Lemma shipped_ok : config_ok demo_uuid shipped_snapshot.
Proof.
  apply (accepted_patch_config_ok demo_uuid ∅ (JObject shipped)).
  - intros object [= <-]. apply (bool_decide_unpack _). vm_compute. exact I.
  - apply config_ok_empty.
  - vm_compute. reflexivity.
Qed.

Lemma validate_patch_exact_witness :
  NoDup demo_patch.*1 /\
  validate_patch demo_uuid shipped_snapshot (JObject demo_patch) =
    Ok [ mkConfigChange "trade_fee_bps" (Some (JInt 100)) (JInt 115)
       ; mkConfigChange "withdraw_max_micro" (Some (JInt 1000000000)) (JInt 900000000) ] /\
  limits_ordered (list_to_map demo_patch ∪ shipped_snapshot) /\
  snap_equiv (apply_rows shipped_snapshot (omap (change_of shipped_snapshot) demo_patch))
    (list_to_map demo_patch ∪ shipped_snapshot).
Proof.
  assert (H : NoDup demo_patch.*1) by (apply (bool_decide_unpack _); vm_compute; exact I).
  assert (Hok : validate_patch demo_uuid shipped_snapshot (JObject demo_patch) =
    Ok [ mkConfigChange "trade_fee_bps" (Some (JInt 100)) (JInt 115)
       ; mkConfigChange "withdraw_max_micro" (Some (JInt 1000000000)) (JInt 900000000) ]) by (vm_compute; reflexivity).
  destruct (validate_patch_exact demo_uuid shipped_snapshot demo_patch H) as (Hiff & _ & _ & Heq).
  destruct (proj1 (Hiff _) Hok) as (_ & _ & Hlim & _).
  split; [exact H|]. split; [exact Hok|]. split; [exact Hlim|exact Heq].
Defined.

(** C33: Validation is total on a documented configuration: with tier thresholds
    that are not negative and a region version below [i64::MAX], no arithmetic
    of any of the seventy-three checks leaves its type.  The condition on the
    thresholds is needed: against the shipped first threshold, zero, an entry
    of [i64::MIN] overflows the absolute value of the ten-per-cent rule. *)
Theorem validate_patch_total (uuid_parses : string -> bool) (current : Snapshot) (patch : Value)
    (Hok : config_ok uuid_parses current)
    (Hsafe : forall object k v, patch = JObject object -> (k, v) ∈ object -> delta_safe k v current) :
  validate_patch uuid_parses current patch <> Panic /\
  validate_patch demo_uuid shipped_snapshot
    (JObject [("rep_tier_thresholds_micro",
               JArray (map JInt [imin I64; 200000; 400000; 600000; 800000]))]) = Panic.
Proof.
  split; [|vm_compute; reflexivity]. intros Hp. destruct patch as [| | | | | |object]; try discriminate. unfold validate_patch in Hp.
  cbn [as_object_opt ok_or mbind outcome_bind] in Hp. destruct object as [|kv object]; [done|].
  remember (kv :: object) as obj. clear kv object Heqobj.
  apply bind_Panic in Hp as [Hp|(changes & _ & Hp)].
  - assert (Hs : Forall (fun kv => delta_safe kv.1 kv.2 current) obj)
      by (apply Forall_forall; intros [k v] Hin; by eapply Hsafe).
    revert Hp. clear Hsafe. generalize (prospective_of current obj) as pro.
    generalize (@nil ConfigChange) as acc.
    induction Hs as [|kv obj Hkv _ IH]; intros acc pro; cbn [foldM]; [done|]. intros Hp.
    apply bind_Panic in Hp as [Hp|(acc' & _ & Hp)]; [|by eapply IH].
    by apply validate_key_no_panic in Hp.
  - apply bind_Panic in Hp as [Hp|(_ & _ & Hp)]; [|done].
    apply map_err_Panic in Hp. by apply cross_keys_no_panic in Hp.
Qed.

Lemma validate_patch_total_witness :
  config_ok demo_uuid shipped_snapshot /\
  validate_patch demo_uuid shipped_snapshot (JObject demo_patch) <> Panic.
Proof.
  split; [apply shipped_ok|]. apply (validate_patch_total demo_uuid); [apply shipped_ok|].
  intros object k v [= <-] Hin. unfold demo_patch in Hin.
  repeat (apply elem_of_cons in Hin as [[= -> ->]|Hin]; [split; discriminate|]).
  by apply elem_of_nil in Hin.
Defined.

Lemma kyc_tier_never_raised (k : string) (snap : Snapshot) (p n : Z) :
  prior_i64 snap k = Some p -> 0 < p <= 2 -> 0 <= n <= 2 ->
  check_kyc_tier k (JInt n) snap = Ok tt <-> n <= p.
Proof.
  intros Hp Hr Hn. unfold check_kyc_tier, as_i64, mul_delta, saturate. cbn [as_i64_opt imin imax].
  rewrite checked_in by ty. cbn [ok_or mbind outcome_bind]. rewrite Hp.
  rewrite (proj2 (bounded_Ok n 0 2 tt) Hn). cbn [mbind outcome_bind].
  destruct (Z.eqb_spec p 0); [lia|]. destruct (Z.eqb_spec n 0); [split; [lia|done]|].
  rewrite Z.min_l, Z.max_r by lia. rewrite Z.mul_1_r, !Z.gtb_ltb.
  destruct (Z.ltb_spec 0 p); [|lia]. destruct (Z.ltb_spec p n); cbn; [split; [done|lia]|].
  split; [lia|done].
Qed.

Lemma fee_cut_strands_discounts :
  exists current patch changes,
    config_ok demo_uuid current /\
    validate_patch demo_uuid current patch = Ok changes /\
    forall discounts, current !! "fee_discount_bp_by_tier" = Some discounts ->
    validate_patch demo_uuid current (JObject [("fee_discount_bp_by_tier", discounts)]) = Ok [] /\
    validate_patch demo_uuid (apply_rows current changes)
      (JObject [("fee_discount_bp_by_tier", discounts)]) =
      Err (App.ConfigInvalid "fee_discount_bp_by_tier" "out of bounds").
Proof.
  set (start := [("trade_fee_bps", JInt 40);
                 ("fee_discount_bp_by_tier", JArray (map JInt [0; 0; 10; 20; 30]))]).
  set (current := apply_rows ∅ (omap (change_of ∅) start)).
  exists current, (JObject [("trade_fee_bps", JInt 20)]),
    [mkConfigChange "trade_fee_bps" (Some (JInt 40)) (JInt 20)].
  split; [|split; [vm_compute; reflexivity|]].
  - apply (accepted_patch_config_ok demo_uuid ∅ (JObject start)).
    + intros object [= <-]. apply (bool_decide_unpack _). vm_compute. exact I.
    + apply config_ok_empty.
    + vm_compute. reflexivity.
  - intros discounts Hd. assert (discounts = JArray (map JInt [0; 0; 10; 20; 30])) as ->
      by (vm_compute in Hd; vm_compute; congruence).
    split; vm_compute; reflexivity.
Qed.

(** Two documented limits the validator does not enforce.  A KYC tier above
    zero is never raised and may be lowered to zero in one step, because the
    multiplicative limit with factor one is an upper bound; and a patch that
    lowers the trade fee alone is accepted although the committed discount
    vector no longer validates after it. *)
Theorem limits_not_enforced :
  (forall k snap p n, prior_i64 snap k = Some p -> 0 < p <= 2 -> 0 <= n <= 2 ->
     check_kyc_tier k (JInt n) snap = Ok tt <-> n <= p) /\
  exists current patch changes,
    config_ok demo_uuid current /\
    validate_patch demo_uuid current patch = Ok changes /\
    forall discounts, current !! "fee_discount_bp_by_tier" = Some discounts ->
    validate_patch demo_uuid current (JObject [("fee_discount_bp_by_tier", discounts)]) = Ok [] /\
    validate_patch demo_uuid (apply_rows current changes)
      (JObject [("fee_discount_bp_by_tier", discounts)]) =
      Err (App.ConfigInvalid "fee_discount_bp_by_tier" "out of bounds").
Proof. split; [apply kyc_tier_never_raised|apply fee_cut_strands_discounts]. Qed.
