(* ===== verification/Fences.v ===== *)
(** * Fences: pause fences, request fingerprints and preview staleness

    [crates/application/src/ops/config.rs], second part, with the fee override
    of [money/mod.rs] and the reputation policy of [model.rs] that the
    staleness probe reads.  A trade or vote carries a canonical fingerprint
    under its idempotency key; a pause writer takes exclusive fences in a
    canonical order; and a trade that was previewed under an older
    configuration is refused exactly when a relevant input changed.  The text
    of a UUID (crate [uuid]), the JSON printer (crate [serde_json]) and SHA-256
    (crate [sha2]) are parameters. *)

From S2P Require Import Prelude Amm Ledger Resolution Economy Chars Errors Json Config.
#[local] Open Scope string_scope.
#[local] Open Scope list_scope.
#[local] Open Scope Z_scope.

Definition MarketId := N.
Definition UserId := N.

Inductive TradeAction := Buy | Sell.

#[export] Instance TradeAction_eq_dec : EqDecision TradeAction.
Proof. solve_decision. Defined.

(** ** The typed fee override *)

Inductive FeeBpsOverride :=
| Inherit
| Override (bps : Z).

Definition override_parse (value : option Value) : outcome StoreError FeeBpsOverride :=
  match value with
  | None => Ok Inherit
  | Some value =>
      if bool_decide (as_str_opt value = Some "inherit") then Ok Inherit
      else match as_object_opt value with
      | Some [(k, w)] =>
          if bool_decide (k = "override") then
            match as_u64_opt w with
            | Some bps =>
                if (10 <=? bps) && (bps <=? 200) then Ok (Override bps)
                else Err (Store.Invariant "invalid fee override")
            | None => Err (Store.Invariant "invalid fee override")
            end
          else Err (Store.Invariant "invalid fee override")
      | _ => Err (Store.Invariant "invalid fee override")
      end
  end.

Definition override_base_bps (o : FeeBpsOverride) (pool_fee_bps : Z) : Z :=
  match o with Inherit => pool_fee_bps | Override bps => bps end.

(** ** Reputation policy *)

Record RepConfig := mkRepConfig {
  rep_half_life : HalfLife;
  tier_thresholds_micro : list Z;
  position_cap_micro_by_tier : list Z;
  fee_discount_bp_by_tier : list Z;
  rep_min_fee_bps : Z;
  rep_score_min_pot_micro : Z;
  discount_flip_window_secs : Z;
  leaderboard_min_scored : Z }.

(** [windows(2).any(|pair| p(pair[0], pair[1]))] *)
Fixpoint any_pair (p : Z -> Z -> bool) (l : list Z) : bool :=
  match l with
  | a :: (b :: _) as rest => p a b || any_pair p rest
  | _ => false
  end.

Definition rep_config_validate (c : RepConfig) : outcome string RepConfig :=
  if existsb (fun v => negb ((0 <=? v) && (v <=? 1000000))) (tier_thresholds_micro c) ||
     any_pair (fun a b => a >=? b) (tier_thresholds_micro c)
  then Err "tier thresholds must be strictly ascending in 0..=1,000,000"
  else if existsb (fun cap => cap <? 0) (position_cap_micro_by_tier c) ||
          any_pair (fun a b => a >? b) (position_cap_micro_by_tier c)
  then Err "position caps must be nonnegative and nondecreasing"
  else if existsb (fun d => d >? 10000) (fee_discount_bp_by_tier c) || (rep_min_fee_bps c >? 10000)
  then Err "fees and discounts must not exceed 10,000 bps"
  else if rep_score_min_pot_micro c <? 0
  then Err "reputation quality-floor pot must be nonnegative"
  else if leaderboard_min_scored c =? 0 then Err "leaderboard minimum must be at least one"
  else Ok c.

(** ** Text *)

Definition ascii_lowercase (s : str) : str :=
  map (fun c => if (65 <=? c) && (c <=? 90) then c + 32 else c) s.

(** [Display] of an [i64]. *)
Definition show_i64 (n : Z) : str := if n <? 0 then 45 :: show_u64 (- n) else show_u64 n.

Definition debug_side (s : Side) : str := match s with Yes => lit "Yes" | No => lit "No" end.

Definition debug_action (a : TradeAction) : str :=
  match a with Buy => lit "Buy" | Sell => lit "Sell" end.

(** What [uuid::Uuid]'s [Display] promises: the hyphenated lower-case form,
    one text per identifier. *)
Class UuidText := {
  uuid_text : N -> string;
  uuid_text_inj : Inj eq eq (fun u => lit (uuid_text u));
  uuid_text_plain : forall u, Forall (fun c => c <> 58 /\ ~ 65 <= c <= 90) (lit (uuid_text u)) }.

Section Requests.
Context `{UuidText}.

Definition fee_override_key (market : MarketId) : string :=
  "fee_bps_override:" +:+ uuid_text market.

Definition FENCE_CLASS : Z := 4.

Definition trading_global_fence : string := "trading-global".

Definition trading_market_fence (market : MarketId) : string :=
  "trading-market:" +:+ uuid_text market.

Definition voting_market_fence (market : MarketId) : string :=
  "voting-market:" +:+ uuid_text market.

Definition trade_fingerprint (market : MarketId) (user : UserId) (side : Side)
    (action : TradeAction) (amount_micro : Z) (expected_config_version : option Z) : str :=
  let version := match expected_config_version with None => lit "-" | Some v => show_i64 v end in
  ascii_lowercase
    (lit "trade:" ++ lit (uuid_text market) ++ lit ":" ++ lit (uuid_text user) ++ lit ":" ++
     debug_side side ++ lit ":" ++ debug_action action ++ lit ":" ++ show_i64 amount_micro ++
     lit ":" ++ version).

Definition vote_fingerprint (market : MarketId) (user : UserId) (side : Side)
    (crowd_guess_pct : Z) : str :=
  ascii_lowercase
    (lit "vote:" ++ lit (uuid_text market) ++ lit ":" ++ lit (uuid_text user) ++ lit ":" ++
     debug_side side ++ lit ":" ++ show_u64 crowd_guess_pct).
End Requests.

Definition validate_replay_fingerprint (stored : option str) (expected : str) :
    outcome AppError unit :=
  match stored with
  | Some s => if bool_decide (s <> expected) then Err App.IdempotencyConflict else Ok tt
  | None => Ok tt
  end.

(** ** Exclusive fences of a patch *)

(** [Vec::dedup]: consecutive duplicates removed. *)
Fixpoint dedup (l : list string) : list string :=
  match l with
  | a :: (b :: _) as rest => if bool_decide (a = b) then dedup rest else a :: dedup rest
  | _ => l
  end.

Definition str_le (a b : string) : bool := negb (str_lt b a).

Definition fence_scan (acc : bool * list string) (key : string) : bool * list string :=
  let '(global, scoped) := acc in
  if bool_decide (key = "trading_paused") then (true, scoped)
  else match strip_prefix "market_paused:" key with
  | Some id => (global, scoped ++ ["trading-market:" +:+ id])
  | None =>
      match strip_prefix "voting_paused:" key with
      | Some id => (global, scoped ++ ["voting-market:" +:+ id])
      | None => (global, scoped)
      end
  end.

Definition exclusive_fences_for_patch (keys : list string) : list string :=
  let '(global, scoped) := fold_left fence_scan keys (false, []) in
  let scoped := dedup (sort_by str_le scoped) in
  (if global then [trading_global_fence] else []) ++ scoped.

Definition pause_in_force (value : option Value) : bool :=
  default false (value ≫= as_bool_opt).

(** ** Canonical JSON and hashes *)

Fixpoint canon (v : Value) : Value :=
  match v with
  | JObject m =>
      JObject (btree_collect ((fix go m := match m with
        | [] => []
        | (k, v) :: m => (k, canon v) :: go m
        end) m))
  | JArray items => JArray (map canon items)
  | other => other
  end.

Section Hashing.
(** [serde_json]'s [to_string] and [sha2]'s digest of a byte string. *)
Context (to_string : Value -> string) (sha256 : string -> list Z).

Definition canonical_json (v : Value) : string := to_string (canon v).

Definition hex_char (n : Z) : Ascii.ascii :=
  Ascii.ascii_of_N (Z.to_N (if n <? 10 then 48 + n else 87 + n)).

Fixpoint hex_of (bytes : list Z) : string :=
  match bytes with
  | [] => ""
  | b :: bytes => String (hex_char (b / 16)) (String (hex_char (b mod 16)) (hex_of bytes))
  end.

Definition patch_hash (patch : Value) : string := hex_of (sha256 (canonical_json patch)).
End Hashing.

(** ** Preview staleness *)

Record StalenessContext := mkStaleness {
  sc_user_tier : Z;
  sc_pool_fee_bps : Z;
  sc_active_fee_override : FeeBpsOverride;
  sc_rep : RepConfig;
  sc_action : TradeAction;
  sc_secs_since_last_buy : option Z;
  sc_market : option MarketId }.

Definition value_at_preview (changes : list ConfigChange) (key : string) : option Value :=
  (fun c => default JNull (cc_old c)) <$> List.find (fun c => bool_decide (cc_key c = key)) changes.

Definition value_now (changes : list ConfigChange) (key : string) : option Value :=
  cc_new <$> List.find (fun c => bool_decide (cc_key c = key)) (rev changes).

Definition changed (changes : list ConfigChange) (key : string) : bool :=
  existsb (fun c => bool_decide (cc_key c = key)) changes.

(** [tier_entry]: the entry of a five-entry vector, or the fallback. *)
Definition tier_entry (tier : nat) (v : option Value) (fallback : Z) : Z :=
  match v with
  | Some value =>
      match as_i64_array 5 value with
      | Ok arr => nth tier arr 0
      | _ => fallback
      end
  | None => fallback
  end.

Definition scalar (v : option Value) (fallback : Z) : Z := default fallback (v ≫= as_i64_opt).

Definition flips (ctx : StalenessContext) (window : Z) : bool :=
  bool_decide (sc_action ctx = Sell) && negb (window =? 0) &&
  match sc_secs_since_last_buy ctx with Some secs => secs <? window | None => false end.

Definition drift_fee (base min_fee discount : Z) (flip : bool) : outcome Empty_set Z :=
  if flip then Ok base
  else d ← arith I64 (base - discount); Ok (Z.max d min_fee).

(** The key of the market's override; empty without a market. *)
Definition override_key_of `{UuidText} (ctx : StalenessContext) : string :=
  match sc_market ctx with Some m => fee_override_key m | None => "" end.

Definition preview_relevant_drift `{UuidText} (changes : list ConfigChange)
    (ctx : StalenessContext) : outcome Empty_set bool :=
  match changes with
  | [] => Ok false
  | _ =>
      let tier := Z.to_nat (Z.min (sc_user_tier ctx) 4) in
      let rep := sc_rep ctx in
      let cap_before := tier_entry tier (value_at_preview changes "position_cap_micro_by_tier")
                          (nth tier (position_cap_micro_by_tier rep) 0) in
      let cap_after := tier_entry tier (value_now changes "position_cap_micro_by_tier") cap_before in
      if changed changes "position_cap_micro_by_tier" && negb (cap_before =? cap_after)
      then Ok true
      else
      let min_fee_before := scalar (value_at_preview changes "min_fee_bps") (rep_min_fee_bps rep) in
      let min_fee_after := scalar (value_now changes "min_fee_bps") min_fee_before in
      let discount_before := tier_entry tier (value_at_preview changes "fee_discount_bp_by_tier")
                               (nth tier (fee_discount_bp_by_tier rep) 0) in
      let discount_after := tier_entry tier (value_now changes "fee_discount_bp_by_tier")
                              discount_before in
      let window_before := scalar (value_at_preview changes "discount_flip_window_secs")
                             (saturate I64 (discount_flip_window_secs rep)) in
      let window_after := scalar (value_now changes "discount_flip_window_secs") window_before in
      let override_key := override_key_of ctx in
      let override_changed := negb (bool_decide (override_key = "")) && changed changes override_key in
      let overrides :=
        if override_changed then
          (override_parse (value_at_preview changes override_key),
           override_parse (value_now changes override_key))
        else (Ok (sc_active_fee_override ctx), Ok (sc_active_fee_override ctx)) in
      match overrides with
      | (Ok override_before, Ok override_after) =>
          let base_before := override_base_bps override_before (sc_pool_fee_bps ctx) in
          let base_after := override_base_bps override_after (sc_pool_fee_bps ctx) in
          fee_before ← drift_fee base_before min_fee_before discount_before (flips ctx window_before);
          fee_after ← drift_fee base_after min_fee_after discount_after (flips ctx window_after);
          Ok (negb (fee_before =? fee_after))
      | _ => Ok true
      end
  end.

(** ** Lemmas: the fence order *)

Lemma str_le_total a b : str_le a b = true \/ str_le b a = true.
Proof.
  unfold str_le. rewrite !negb_true_iff.
  destruct (str_lt_total a b) as [H|[->|H]]; rewrite ?str_lt_irrefl; auto.
  - left. destruct (str_lt b a) eqn:E; [|done].
    pose proof (str_lt_trans a b a H E) as Hc. by rewrite str_lt_irrefl in Hc.
  - right. destruct (str_lt a b) eqn:E; [|done].
    pose proof (str_lt_trans a b a E H) as Hc. by rewrite str_lt_irrefl in Hc.
Qed.

Lemma str_le_cases a b : str_le a b = true -> a = b \/ str_lt a b = true.
Proof.
  unfold str_le. rewrite negb_true_iff. destruct (str_lt_total a b) as [|[|Hc]]; auto. congruence.
Qed.

Lemma str_lt_le a b c : str_lt a b = true -> str_le b c = true -> str_lt a c = true.
Proof. intros Hab [<-|Hbc]%str_le_cases; [done|]. exact (str_lt_trans _ _ _ Hab Hbc). Qed.

Lemma str_lt_str_le a b : str_lt a b = true -> str_le a b = true.
Proof.
  intros H. unfold str_le. destruct (str_lt b a) eqn:E; [|done].
  pose proof (str_lt_trans a b a H E) as Hc. by rewrite str_lt_irrefl in Hc.
Qed.

Lemma str_le_trans a b c : str_le a b = true -> str_le b c = true -> str_le a c = true.
Proof.
  intros [<-|Hab]%str_le_cases Hbc; [done|]. by eapply str_lt_str_le, str_lt_le.
Qed.

Lemma sort_strings_sorted l : StronglySorted (fun a b => str_le a b = true) (sort_by str_le l).
Proof. apply sort_by_sorted; [exact str_le_trans|exact str_le_total]. Qed.

Lemma elem_of_dedup x l : x ∈ dedup l <-> x ∈ l.
Proof.
  induction l as [|a [|b rest] IH]; [done..|].
  change (dedup (a :: b :: rest)) with
    (if bool_decide (a = b) then dedup (b :: rest) else a :: dedup (b :: rest)).
  case_bool_decide as E.
  - subst b. rewrite IH. rewrite !elem_of_cons. naive_solver.
  - rewrite elem_of_cons, IH. by rewrite (elem_of_cons (b :: rest)).
Qed.

Lemma dedup_strict l : StronglySorted (fun a b => str_le a b = true) l ->
  StronglySorted (fun a b => str_lt a b = true) (dedup l).
Proof.
  induction l as [|a [|b rest] IH]; intros Hs; [constructor|repeat constructor|].
  apply StronglySorted_inv in Hs as [Hs Ha]. specialize (IH Hs).
  change (dedup (a :: b :: rest)) with
    (if bool_decide (a = b) then dedup (b :: rest) else a :: dedup (b :: rest)).
  case_bool_decide as E; [done|]. constructor; [done|].
  apply Forall_cons in Ha as [Hab Ha]. apply str_le_cases in Hab as [?|Hab]; [done|].
  apply Forall_forall. intros y Hy. apply elem_of_dedup, elem_of_cons in Hy as [->|Hy]; [done|].
  apply StronglySorted_inv in Hs as [_ Hb]. rewrite Forall_forall in Hb.
  eapply str_lt_le; [exact Hab|by apply Hb].
Qed.

Definition fence_of (key f : string) : Prop :=
  (exists id, key = "market_paused:" +:+ id /\ f = "trading-market:" +:+ id) \/
  (exists id, key = "voting_paused:" +:+ id /\ f = "voting-market:" +:+ id).

Lemma fence_scan_step g sc key :
  let '(g', sc') := fence_scan (g, sc) key in
  (g' = true <-> g = true \/ key = "trading_paused") /\
  (forall f, f ∈ sc' <-> f ∈ sc \/ fence_of key f).
Proof.
  unfold fence_scan, fence_of.
  destruct (bool_decide_reflect (key = "trading_paused")) as [->|Hne]; [naive_solver|].
  destruct (strip_prefix "market_paused:" key) as [id|] eqn:E1.
  { apply strip_prefix_Some in E1 as ->. split; [naive_solver|]. intros f.
    rewrite elem_of_app, list_elem_of_singleton. split; [naive_solver|].
    intros [?|[(i & Hi & ->)|(i & Hi & ->)]]; [by left| |discriminate Hi].
    right. f_equal. by injection Hi. }
  destruct (strip_prefix "voting_paused:" key) as [id|] eqn:E2.
  { apply strip_prefix_Some in E2 as ->. split; [naive_solver|]. intros f.
    rewrite elem_of_app, list_elem_of_singleton. split; [naive_solver|].
    intros [?|[(i & Hi & ->)|(i & Hi & ->)]]; [by left|discriminate Hi|].
    right. f_equal. by injection Hi. }
  split; [naive_solver|]. intros f. split; [by left|]. intros [?|[(i & Hi & _)|(i & Hi & _)]]; [done| |];
    apply strip_prefix_Some in Hi; congruence.
Qed.

Lemma fence_scan_all keys g sc :
  let '(g', sc') := fold_left fence_scan keys (g, sc) in
  (g' = true <-> g = true \/ "trading_paused" ∈ keys) /\
  (forall f, f ∈ sc' <-> f ∈ sc \/ exists key, key ∈ keys /\ fence_of key f).
Proof.
  revert g sc. induction keys as [|key keys IH]; intros g sc; cbn [fold_left].
  - setoid_rewrite elem_of_nil. naive_solver.
  - pose proof (fence_scan_step g sc key) as Hs. destruct (fence_scan (g, sc) key) as [g1 sc1].
    specialize (IH g1 sc1). destruct (fold_left fence_scan keys (g1, sc1)) as [g2 sc2].
    destruct Hs as [Hg Hf], IH as [IHg IHf]. setoid_rewrite elem_of_cons. split.
    + rewrite IHg, Hg. naive_solver.
    + intros f. rewrite IHf, Hf. naive_solver.
Qed.

Lemma scoped_after_global key f : fence_of key f -> str_lt trading_global_fence f = true.
Proof. by intros [(id & _ & ->)|(id & _ & ->)]. Qed.

(** ** Lemmas: fingerprints are read back *)

Definition plain (s : str) : Prop := Forall (fun c => c <> 58 /\ ~ 65 <= c <= 90) s.

Lemma lowercase_app s t :
  ascii_lowercase (s ++ t) = ascii_lowercase s ++ ascii_lowercase t.
Proof. apply map_app. Qed.

Lemma lowercase_plain s : plain s -> ascii_lowercase s = s.
Proof.
  induction 1 as [|c s [_ Hc] _ IH]; [done|]. unfold ascii_lowercase in *. cbn [map].
  rewrite IH. f_equal. destruct (Z.leb_spec 65 c), (Z.leb_spec c 90); cbn; lia.
Qed.

Lemma show_u64_plain n : plain (show_u64 n).
Proof.
  unfold plain, show_u64. eapply Forall_impl; [apply digits_fuel_digits|].
  intros c Hc. unfold is_digit in Hc. bool_hyps. lia.
Qed.

Lemma show_i64_plain n : plain (show_i64 n).
Proof.
  unfold show_i64. case_if; [constructor; [lia|]|]; apply show_u64_plain.
Qed.

Lemma show_u64_inj a b : in_ty U64 a -> in_ty U64 b -> show_u64 a = show_u64 b -> a = b.
Proof. intros Ha Hb H. rewrite <- (show_u64_read a Ha), <- (show_u64_read b Hb). by rewrite H. Qed.

Lemma show_u64_no_minus n s : show_u64 n <> 45 :: s.
Proof.
  intros H. pose proof (digits_fuel_digits 20 n) as Hd. unfold show_u64 in H. rewrite H in Hd.
  apply Forall_cons in Hd as [Hd _]. discriminate.
Qed.

Lemma show_i64_inj a b : in_ty I64 a -> in_ty I64 b -> show_i64 a = show_i64 b -> a = b.
Proof.
  unfold show_i64. intros Ha Hb. destruct (Z.ltb_spec a 0), (Z.ltb_spec b 0).
  - intros [= H']. apply show_u64_inj in H'; [lia|ty|ty].
  - intros H'. symmetry in H'. by apply show_u64_no_minus in H'.
  - intros H'. by apply show_u64_no_minus in H'.
  - apply show_u64_inj; ty.
Qed.

Lemma show_i64_not_dash a : in_ty I64 a -> show_i64 a <> lit "-".
Proof.
  intros Ha. unfold show_i64. case_if; [|apply show_u64_no_minus]. bool_hyps. intros [= H].
  pose proof (show_u64_read (- a) ltac:(ty)) as Hr. rewrite H in Hr. cbn in Hr. lia.
Qed.

(** Fields separated by a colon none of them contains. *)
Lemma field_inj a b s t : plain a -> plain b -> a ++ 58 :: s = b ++ 58 :: t -> a = b /\ s = t.
Proof.
  intros Ha. revert b. induction Ha as [|x a [Hx _] _ IH]; intros [|y b] Hb; cbn.
  - by intros [= ->].
  - intros [= <- _]. apply Forall_cons in Hb as [[]]. done.
  - intros [= -> _]. done.
  - intros [= -> H]. apply Forall_cons in Hb as [_ Hb]. by destruct (IH b Hb H) as [-> ->].
Qed.

#[local] Instance plain_dec s : Decision (plain s).
Proof. unfold plain. apply _. Defined.

Ltac plain_literal := apply (bool_decide_unpack _); vm_compute; exact I.

Definition version_text (v : option Z) : str :=
  match v with None => lit "-" | Some v => show_i64 v end.

Lemma version_text_plain v : plain (version_text v).
Proof.
  destruct v; [apply show_i64_plain|]. plain_literal.
Qed.

Lemma version_text_inj v w :
  (forall z, v = Some z -> in_ty I64 z) -> (forall z, w = Some z -> in_ty I64 z) ->
  version_text v = version_text w -> v = w.
Proof.
  intros Hv Hw. destruct v as [a|], w as [b|]; cbn [version_text]; [|..|done].
  - intros E. f_equal. apply show_i64_inj; auto.
  - intros E. by apply show_i64_not_dash in E; auto.
  - intros E. symmetry in E. by apply show_i64_not_dash in E; auto.
Qed.

Definition side_text (s : Side) : str := match s with Yes => lit "yes" | No => lit "no" end.

Definition action_text (a : TradeAction) : str :=
  match a with Buy => lit "buy" | Sell => lit "sell" end.

Lemma side_text_plain s : plain (side_text s).
Proof. destruct s; plain_literal. Qed.

Lemma action_text_plain a : plain (action_text a).
Proof. destruct a; plain_literal. Qed.

#[local] Instance side_text_inj : Inj eq eq side_text.
Proof. intros [] [] H; [done|discriminate H..|done]. Qed.

#[local] Instance action_text_inj : Inj eq eq action_text.
Proof. intros [] [] H; [done|discriminate H..|done]. Qed.

Section FingerprintText.
Context `{UuidText}.

Lemma trade_fingerprint_fields m u s a n v :
  trade_fingerprint m u s a n v =
  lit "trade" ++ 58 :: lit (uuid_text m) ++ 58 :: lit (uuid_text u) ++ 58 :: side_text s ++
  58 :: action_text a ++ 58 :: show_i64 n ++ 58 :: version_text v.
Proof.
  unfold trade_fingerprint. rewrite !lowercase_app.
  rewrite !(lowercase_plain (lit (uuid_text _))) by apply uuid_text_plain.
  rewrite (lowercase_plain (show_i64 n)) by apply show_i64_plain.
  rewrite (lowercase_plain (match v with None => _ | Some _ => _ end))
    by apply (version_text_plain v).
  by destruct s, a.
Qed.

Lemma vote_fingerprint_fields m u s g :
  vote_fingerprint m u s g =
  lit "vote" ++ 58 :: lit (uuid_text m) ++ 58 :: lit (uuid_text u) ++ 58 :: side_text s ++
  58 :: show_u64 g.
Proof.
  unfold vote_fingerprint. rewrite !lowercase_app.
  rewrite !(lowercase_plain (lit (uuid_text _))) by apply uuid_text_plain.
  rewrite (lowercase_plain (show_u64 g)) by apply show_u64_plain.
  by destruct s.
Qed.
End FingerprintText.

(** ** Specification and lemmas: staleness against the snapshots themselves *)

(** [changes] is the history that starts at [s]. *)
Fixpoint history (s : Snapshot) (changes : list ConfigChange) : Prop :=
  match changes with
  | [] => True
  | c :: rest => cc_old c = s !! cc_key c /\ history (<[cc_key c := cc_new c]> s) rest
  end.

Section Staleness.
Context `{UuidText} (ctx : StalenessContext).
Implicit Types (s : Snapshot) (changes : list ConfigChange).

Definition tier_index : nat := Z.to_nat (Z.min (sc_user_tier ctx) 4).

(** What the request would be priced and capped with under a snapshot, the
    running policy standing in for an absent key. *)
Definition cap_in s : Z :=
  tier_entry tier_index (s !! "position_cap_micro_by_tier")
    (nth tier_index (position_cap_micro_by_tier (sc_rep ctx)) 0).

Definition min_fee_in s : Z := scalar (s !! "min_fee_bps") (rep_min_fee_bps (sc_rep ctx)).

Definition discount_in s : Z :=
  tier_entry tier_index (s !! "fee_discount_bp_by_tier")
    (nth tier_index (fee_discount_bp_by_tier (sc_rep ctx)) 0).

Definition window_in s : Z :=
  scalar (s !! "discount_flip_window_secs")
    (saturate I64 (discount_flip_window_secs (sc_rep ctx))).

Definition override_in s : outcome StoreError FeeBpsOverride :=
  match sc_market ctx with
  | Some m => override_parse (s !! fee_override_key m)
  | None => Ok (sc_active_fee_override ctx)
  end.

Definition fee_in s (o : FeeBpsOverride) : Z :=
  if flips ctx (window_in s) then override_base_bps o (sc_pool_fee_bps ctx)
  else Z.max (override_base_bps o (sc_pool_fee_bps ctx) - discount_in s) (min_fee_in s).

(** The override key appears for the first time. *)
Definition override_created s changes : bool :=
  match sc_market ctx with
  | Some m => changed changes (fee_override_key m) &&
              match s !! fee_override_key m with None => true | Some _ => false end
  | None => false
  end.

(** The values the probe reads have their documented types. *)
Definition typed s : Prop :=
  (forall k v, k = "position_cap_micro_by_tier" \/ k = "fee_discount_bp_by_tier" ->
     s !! k = Some v -> exists arr, as_i64_array 5 v = Ok arr) /\
  (forall k v, k = "min_fee_bps" \/ k = "discount_flip_window_secs" ->
     s !! k = Some v -> exists n, as_i64_opt v = Some n).

(** The running policy is the one of the snapshot. *)
Definition runs_with s : Prop :=
  min_fee_in s = rep_min_fee_bps (sc_rep ctx) /\
  discount_in s = nth tier_index (fee_discount_bp_by_tier (sc_rep ctx)) 0 /\
  window_in s = saturate I64 (discount_flip_window_secs (sc_rep ctx)).

Lemma unchanged_lookup s changes key :
  changed changes key = false ->
  value_at_preview changes key = None /\ value_now changes key = None /\
  apply_rows s changes !! key = s !! key.
Proof.
  intros Hc. assert (Hf : Forall (fun c => bool_decide (cc_key c = key) = false) changes).
  { apply Forall_forall. intros c Hin. destruct (bool_decide (cc_key c = key)) eqn:E; [|done].
    enough (changed changes key = true) by congruence. apply existsb_exists.
    exists c. by rewrite <- list_elem_of_In. }
  assert (Hnone : forall l, Forall (fun c => bool_decide (cc_key c = key) = false) l ->
    List.find (fun c => bool_decide (cc_key c = key)) l = None).
  { intros l. induction 1 as [|c l Hc' _ IH]; cbn; [done|]. by rewrite Hc'. }
  split; [|split].
  - unfold value_at_preview. by rewrite Hnone.
  - unfold value_now. rewrite Hnone; [done|]. by apply Forall_rev.
  - unfold apply_rows. clear Hc Hnone. revert s.
    induction Hf as [|c l Hc _ IH]; intros s; cbn; [done|]. rewrite IH.
    apply lookup_insert_ne. by apply bool_decide_eq_false in Hc.
Qed.

Lemma changed_cons c rest key :
  changed (c :: rest) key = bool_decide (cc_key c = key) || changed rest key.
Proof. done. Qed.

Lemma changed_preview s changes key :
  history s changes -> changed changes key = true ->
  value_at_preview changes key = Some (default JNull (s !! key)).
Proof.
  unfold value_at_preview. revert s. induction changes as [|c rest IH]; intros s Hh Hc; [done|].
  destruct Hh as [Hold Hh]. rewrite changed_cons in Hc. cbn [List.find].
  destruct (bool_decide_reflect (cc_key c = key)) as [<-|Hne]; cbn in Hc |- *.
  - by rewrite Hold.
  - rewrite (IH _ Hh Hc). by rewrite lookup_insert_ne.
Qed.

Lemma changed_now s changes key :
  changed changes key = true -> exists v,
  value_now changes key = Some v /\ apply_rows s changes !! key = Some v.
Proof.
  unfold value_now, apply_rows. induction changes as [|c rest IH] using rev_ind; [done|].
  unfold changed. rewrite existsb_app, rev_app_distr, fold_left_app. cbn.
  rewrite orb_false_r. destruct (bool_decide_reflect (cc_key c = key)) as [<-|Hne]; cbn.
  - intros _. exists (cc_new c). split; [done|]. apply lookup_insert_eq.
  - rewrite orb_false_r. intros Hc. destruct (IH Hc) as (v & Hv & Hs). exists v.
    by rewrite lookup_insert_ne.
Qed.

Lemma tier_entry_typed v fb fb' :
  (exists arr, as_i64_array 5 v = Ok arr) ->
  tier_entry tier_index (Some v) fb = tier_entry tier_index (Some v) fb'.
Proof. intros [arr E]. cbn. by rewrite E. Qed.

Lemma scalar_typed v fb fb' :
  (exists n, as_i64_opt v = Some n) -> scalar (Some v) fb = scalar (Some v) fb'.
Proof. intros [n E]. unfold scalar. cbn. by rewrite E. Qed.

(** A vector key: the code's two readings are those of the two snapshots. *)
Lemma tier_readings s changes key fb :
  history s changes ->
  (forall v, apply_rows s changes !! key = Some v -> exists arr, as_i64_array 5 v = Ok arr) ->
  (changed changes key = false -> tier_entry tier_index (s !! key) fb = fb) ->
  let before := tier_entry tier_index (value_at_preview changes key) fb in
  before = tier_entry tier_index (s !! key) fb /\
  tier_entry tier_index (value_now changes key) before =
    tier_entry tier_index (apply_rows s changes !! key) fb.
Proof.
  intros Hh Ht Hu. destruct (changed changes key) eqn:Hc.
  - rewrite (changed_preview _ _ _ Hh Hc). destruct (changed_now s _ _ Hc) as (v & -> & Hv).
    rewrite Hv. cbn zeta. split; [by destruct (s !! key)|]. by apply tier_entry_typed, Ht.
  - destruct (unchanged_lookup s _ _ Hc) as (-> & -> & ->). cbn zeta. by rewrite Hu.
Qed.

Lemma scalar_readings s changes key fb :
  history s changes ->
  (forall v, apply_rows s changes !! key = Some v -> exists n, as_i64_opt v = Some n) ->
  (changed changes key = false -> scalar (s !! key) fb = fb) ->
  let before := scalar (value_at_preview changes key) fb in
  before = scalar (s !! key) fb /\
  scalar (value_now changes key) before = scalar (apply_rows s changes !! key) fb.
Proof.
  intros Hh Ht Hu. destruct (changed changes key) eqn:Hc.
  - rewrite (changed_preview _ _ _ Hh Hc). destruct (changed_now s _ _ Hc) as (v & -> & Hv).
    rewrite Hv. cbn zeta. split; [by destruct (s !! key)|]. by apply scalar_typed, Ht.
  - destruct (unchanged_lookup s _ _ Hc) as (-> & -> & ->). cbn zeta. by rewrite Hu.
Qed.

(** The cap test of the code is the comparison of the two caps. *)
Lemma cap_test s changes :
  history s changes -> typed (apply_rows s changes) ->
  let fb := nth tier_index (position_cap_micro_by_tier (sc_rep ctx)) 0 in
  let before := tier_entry tier_index (value_at_preview changes "position_cap_micro_by_tier") fb in
  let after := tier_entry tier_index (value_now changes "position_cap_micro_by_tier") before in
  changed changes "position_cap_micro_by_tier" && negb (before =? after) =
    negb (cap_in s =? cap_in (apply_rows s changes)).
Proof.
  intros Hh [Ht _]. cbn zeta. unfold cap_in.
  destruct (changed changes "position_cap_micro_by_tier") eqn:Hc.
  - destruct (tier_readings s changes "position_cap_micro_by_tier"
      (nth tier_index (position_cap_micro_by_tier (sc_rep ctx)) 0) Hh) as [-> ->];
      [intros v Hv; by eapply Ht; [left|]|by rewrite Hc|done].
  - destruct (unchanged_lookup s _ _ Hc) as (_ & _ & ->). by rewrite Z.eqb_refl.
Qed.
End Staleness.

Section DriftExact.
Context `{UuidText} (ctx : StalenessContext) (s : Snapshot) (changes : list ConfigChange).
Hypothesis (Hhist : history s changes) (Htyped : typed (apply_rows s changes)).
Hypothesis (Hruns : runs_with ctx s).
Let now := apply_rows s changes.

Lemma min_fee_readings :
  let before := scalar (value_at_preview changes "min_fee_bps") (rep_min_fee_bps (sc_rep ctx)) in
  before = min_fee_in ctx s /\ scalar (value_now changes "min_fee_bps") before = min_fee_in ctx now.
Proof.
  apply scalar_readings; [exact Hhist| |intros _; apply Hruns].
  intros v Hv. eapply (proj2 Htyped); [|exact Hv]. by left.
Qed.

Lemma window_readings :
  let before := scalar (value_at_preview changes "discount_flip_window_secs")
                  (saturate I64 (discount_flip_window_secs (sc_rep ctx))) in
  before = window_in ctx s /\
  scalar (value_now changes "discount_flip_window_secs") before = window_in ctx now.
Proof.
  apply scalar_readings; [exact Hhist| |intros _; apply Hruns].
  intros v Hv. eapply (proj2 Htyped); [|exact Hv]. by right.
Qed.

Lemma discount_readings :
  let before := tier_entry (tier_index ctx) (value_at_preview changes "fee_discount_bp_by_tier")
                  (nth (tier_index ctx) (fee_discount_bp_by_tier (sc_rep ctx)) 0) in
  before = discount_in ctx s /\
  tier_entry (tier_index ctx) (value_now changes "fee_discount_bp_by_tier") before =
    discount_in ctx now.
Proof.
  apply tier_readings; [exact Hhist| |intros _; apply Hruns].
  intros v Hv. eapply (proj1 Htyped); [|exact Hv]. by right.
Qed.

(** The two overrides the code compares, and the case it refuses to. *)
Lemma override_readings o0 o1 :
  override_in ctx s = Ok o0 -> override_in ctx now = Ok o1 -> sc_active_fee_override ctx = o1 ->
  let key := override_key_of ctx in
  let pair := if negb (bool_decide (key = "")) && changed changes key
              then (override_parse (value_at_preview changes key),
                    override_parse (value_now changes key))
              else (Ok (sc_active_fee_override ctx), Ok (sc_active_fee_override ctx)) in
  if override_created ctx s changes
  then exists e, pair.1 = Err e
  else pair = (Ok o0, Ok o1).
Proof.
  unfold override_in, override_created, override_key_of. intros H0 H1 Ha. cbn zeta.
  destruct (sc_market ctx) as [m|]; [|rewrite bool_decide_eq_true_2 by done; cbn; congruence].
  rewrite (bool_decide_eq_false_2 (fee_override_key m = "")) by (intros Hn; discriminate Hn).
  cbn [negb andb]. destruct (changed changes (fee_override_key m)) eqn:Hc; cbn [andb].
  - rewrite (changed_preview _ _ _ Hhist Hc).
    destruct (changed_now s _ _ Hc) as (v & -> & Hv). unfold now in H1. rewrite Hv in H1.
    destruct (s !! fee_override_key m) as [w|]; [change (default JNull (Some w)) with w; by rewrite H0, H1|]. by eexists.
  - destruct (unchanged_lookup s _ _ Hc) as (_ & _ & Hsame). unfold now in H1.
    rewrite Hsame in H1. congruence.
Qed.

Lemma drift_fee_Ok base min_fee discount flip :
  in_ty U16 base -> 0 <= discount <= imax I64 ->
  drift_fee base min_fee discount flip =
    Ok (if flip then base else Z.max (base - discount) min_fee).
Proof.
  intros Hb Hd. unfold drift_fee. destruct flip; [done|]. rewrite arith_in; [done|]. ty.
Qed.

Lemma override_base_u16 o v pool :
  in_ty U16 pool -> override_parse v = Ok o -> in_ty U16 (override_base_bps o pool).
Proof.
  intros Hp. unfold override_parse. destruct v as [v|]; [|by intros [= <-]].
  case_if; [by intros [= <-]|]. destruct (as_object_opt v) as [[|[k w] [|]]|]; try done.
  case_if; [|done]. destruct (as_u64_opt w); [|done]. case_if; [|done].
  intros [= <-]. bool_hyps. cbn. ty.
Qed.
End DriftExact.

(** ** Properties *)

(** The exclusive fences of a patch are precisely those of its pause keys,
    each once, and always in the same total order (ascending by name, the
    global fence first), so two pause writers that share fences take them in
    the same order. *)
Theorem exclusive_fences_canonical (keys : list string) :
  let fences := exclusive_fences_for_patch keys in
  StronglySorted (fun a b => str_lt a b = true) fences /\
  forall f, f ∈ fences <->
    f = trading_global_fence /\ "trading_paused" ∈ keys \/
    exists key, key ∈ keys /\ fence_of key f.
Proof.
  cbn zeta. unfold exclusive_fences_for_patch. pose proof (fence_scan_all keys false []) as Hs.
  destruct (fold_left fence_scan keys (false, [])) as [global scoped]. destruct Hs as [Hg Hf].
  assert (Hmem : forall f, f ∈ dedup (sort_by str_le scoped) <-> exists key, key ∈ keys /\ fence_of key f).
  { intros f. rewrite elem_of_dedup, sort_by_perm, Hf, elem_of_nil. naive_solver. }
  pose proof (dedup_strict _ (sort_strings_sorted scoped)) as Hsort. destruct global.
  - destruct Hg as [Hg _]. destruct (Hg eq_refl) as [?|Hp]; [done|]. split.
    + constructor; [done|]. apply Forall_forall. intros f Hin. apply Hmem in Hin as (key & _ & Hk).
      by eapply scoped_after_global.
    + intros f. cbn [app]. rewrite elem_of_cons, Hmem. naive_solver.
  - split; [done|]. intros f. cbn [app]. rewrite Hmem. destruct Hg as [_ Hg]. naive_solver.
Qed.

(** A request fingerprint determines the request: two trades with the same
    fingerprint agree in market, user, side, action, amount and expected
    configuration version, two votes agree in all their fields, and a trade is
    never taken for a vote; so a replay is accepted only for the request that
    was stored. *)
Theorem fingerprints_identify_requests `{UuidText} (m m' u u' : N) (s s' : Side)
    (a a' : TradeAction) (n n' g g' : Z) (v v' : option Z)
    (Hn : in_ty I64 n /\ in_ty I64 n') (Hg : in_ty U8 g /\ in_ty U8 g')
    (Hv : forall z, v = Some z \/ v' = Some z -> in_ty I64 z) :
  (validate_replay_fingerprint (Some (trade_fingerprint m u s a n v))
     (trade_fingerprint m' u' s' a' n' v') = Ok tt <->
   (m, u, s, a, n, v) = (m', u', s', a', n', v')) /\
  (validate_replay_fingerprint (Some (vote_fingerprint m u s g)) (vote_fingerprint m' u' s' g')
     = Ok tt <-> (m, u, s, g) = (m', u', s', g')) /\
  trade_fingerprint m u s a n v <> vote_fingerprint m' u' s' g'.
Proof.
  assert (Hrep : forall f f', validate_replay_fingerprint (Some f) f' = Ok tt <-> f = f').
  { intros f f'. unfold validate_replay_fingerprint. destruct (decide (f = f')) as [->|Hne].
    - by rewrite bool_decide_eq_false_2 by auto.
    - rewrite bool_decide_eq_true_2 by done. split; [discriminate|done]. }
  rewrite !Hrep, !trade_fingerprint_fields, !vote_fingerprint_fields.
  destruct Hn as [Hn Hn'], Hg as [Hg Hg']. split; [|split].
  - split; [|by intros [= -> -> -> -> -> ->]]. intros E. apply field_inj in E as [_ E]; [|plain_literal..].
    apply field_inj in E as [E1 E]; [|apply uuid_text_plain..].
    apply field_inj in E as [E2 E]; [|apply uuid_text_plain..].
    apply field_inj in E as [E3 E]; [|apply side_text_plain..].
    apply field_inj in E as [E4 E]; [|apply action_text_plain..].
    apply field_inj in E as [E5 E]; [|apply show_i64_plain..].
    apply version_text_inj in E; [|auto..]. apply show_i64_inj in E5; [|done..].
    apply uuid_text_inj in E1, E2. apply side_text_inj in E3. apply action_text_inj in E4. congruence.
  - split; [|by intros [= -> -> -> ->]]. intros E. apply field_inj in E as [_ E]; [|plain_literal..].
    apply field_inj in E as [E1 E]; [|apply uuid_text_plain..].
    apply field_inj in E as [E2 E]; [|apply uuid_text_plain..].
    apply field_inj in E as [E3 E]; [|apply side_text_plain..].
    apply show_u64_inj in E; [|ty..].
    apply uuid_text_inj in E1, E2. apply side_text_inj in E3. congruence.
  - intros E. discriminate E.
Qed.

(** An identifier text with the promised laws, for the examples. *)
Fixpoint unary_text (n : nat) : string :=
  match n with O => "" | S n => String (Ascii.ascii_of_N 97) (unary_text n) end.

Lemma unary_length n : length (lit (unary_text n)) = n.
Proof. induction n as [|n IH]; [done|]. exact (f_equal S IH). Qed.

Lemma unary_plain n : plain (lit (unary_text n)).
Proof.
  induction n as [|n IH]; [constructor|]. constructor; [|exact IH]. cbn. lia.
Qed.

#[export, program] Instance demo_uuid_text : UuidText := {| uuid_text := fun u => unary_text (N.to_nat u) |}.
Next Obligation.
  intros a b E. apply (f_equal length) in E. rewrite !unary_length in E. by apply N2Nat.inj.
Qed.
Next Obligation. intros u. apply unary_plain. Qed.

Lemma fingerprints_identify_requests_witness :
  validate_replay_fingerprint (Some (trade_fingerprint 1%N 2%N Yes Buy 500 (Some 7)))
    (trade_fingerprint 1%N 2%N Yes Buy 500 None) = Err App.IdempotencyConflict /\
  trade_fingerprint 1%N 2%N Yes Buy 500 (Some 7) <> vote_fingerprint 1%N 2%N Yes 60.
Proof.
  split; [vm_compute; reflexivity|].
  apply (fingerprints_identify_requests 1%N 1%N 2%N 2%N Yes Yes Buy Buy 500 500 60 60 (Some 7) (Some 7)).
  - unfold in_ty; cbn; lia.
  - unfold in_ty; cbn; lia.
  - intros z [[= <-]|[= <-]]; unfold in_ty; cbn; lia.
Defined.

(** The staleness probe is exact: along a history from the previewed
    snapshot to the current one it reports drift precisely when the user's
    position cap differs, the effective fee of this request differs, or the
    market's fee override was created meanwhile; a change of any other key
    never refuses a previewed trade, and no arithmetic overflows. *)
Theorem drift_exact `{UuidText} (ctx : StalenessContext) (s : Snapshot)
    (changes : list ConfigChange) (o0 o1 : FeeBpsOverride)
    (Hhist : history s changes) (Htyped : typed (apply_rows s changes))
    (Hruns : runs_with ctx s)
    (H0 : override_in ctx s = Ok o0) (H1 : override_in ctx (apply_rows s changes) = Ok o1)
    (Hact : sc_active_fee_override ctx = o1)
    (Hpool : in_ty U16 (override_base_bps o0 (sc_pool_fee_bps ctx)) /\
             in_ty U16 (override_base_bps o1 (sc_pool_fee_bps ctx)))
    (Hdisc : 0 <= discount_in ctx s <= imax I64 /\
             0 <= discount_in ctx (apply_rows s changes) <= imax I64) :
  let now := apply_rows s changes in
  preview_relevant_drift changes ctx =
    Ok (override_created ctx s changes || negb (cap_in ctx s =? cap_in ctx now) ||
        negb (fee_in ctx s o0 =? fee_in ctx now o1)).
Proof.
  cbn zeta. destruct changes as [|c rest] eqn:Ec.
  { cbn in H1. assert (o0 = o1) as -> by (cbn in H1; congruence).
    cbn [preview_relevant_drift apply_rows fold_left]. rewrite !Z.eqb_refl.
    unfold override_created. by destruct (sc_market ctx). }
  rewrite <- Ec in *. destruct Hpool as [Hp0 Hp1], Hdisc as [Hd0 Hd1].
  assert (Hne : preview_relevant_drift changes ctx = preview_relevant_drift (c :: rest) ctx)
    by by rewrite Ec.
  rewrite Hne. unfold preview_relevant_drift. rewrite <- Ec. fold (tier_index ctx).
  rewrite (cap_test ctx s changes Hhist Htyped).
  destruct (min_fee_readings ctx s changes Hhist Htyped Hruns) as [-> ->].
  destruct (discount_readings ctx s changes Hhist Htyped Hruns) as [-> ->].
  destruct (window_readings ctx s changes Hhist Htyped Hruns) as [-> ->].
  pose proof (override_readings ctx s changes Hhist o0 o1 H0 H1 Hact) as Ho. cbn zeta in Ho.
  destruct (negb (cap_in ctx s =? cap_in ctx (apply_rows s changes))); [by rewrite orb_true_r|].
  rewrite orb_false_r. destruct (override_created ctx s changes).
  - destruct Ho as [e Ho]. revert Ho. by case_if; intros; simplify_eq/=; case_match.
  - rewrite Ho. rewrite !drift_fee_Ok by done. done.
Qed.

Definition demo_rep : RepConfig :=
  mkRepConfig H20 [200000; 400000; 600000; 800000] PUBLISHED_POSITION_CAPS [0; 0; 10; 20; 30]
    10 50000000 3600 1.

Definition demo_ctx : StalenessContext := mkStaleness 3 100 Inherit demo_rep Buy None (Some 1%N).

Definition demo_changes : list ConfigChange :=
  [ mkConfigChange "trade_fee_bps" (Some (JInt 100)) (JInt 115)
  ; mkConfigChange "fee_discount_bp_by_tier" (Some (JArray (map JInt [0; 0; 10; 20; 30])))
      (JArray (map JInt [0; 0; 10; 25; 30])) ].

Lemma drift_exact_witness :
  preview_relevant_drift demo_changes demo_ctx =
    Ok (override_created demo_ctx shipped_snapshot demo_changes ||
        negb (cap_in demo_ctx shipped_snapshot =?
              cap_in demo_ctx (apply_rows shipped_snapshot demo_changes)) ||
        negb (fee_in demo_ctx shipped_snapshot Inherit =?
              fee_in demo_ctx (apply_rows shipped_snapshot demo_changes) Inherit)) /\
  preview_relevant_drift demo_changes demo_ctx = Ok true /\
  preview_relevant_drift (take 1 demo_changes) demo_ctx = Ok false.
Proof.
  split; [|split; vm_compute; reflexivity].
  apply (drift_exact demo_ctx shipped_snapshot demo_changes Inherit Inherit).
  - vm_compute. auto.
  - split; intros k v [-> | ->] Hv; vm_compute in Hv; injection Hv as <-; eexists; vm_compute; reflexivity.
  - vm_compute. auto.
  - vm_compute. reflexivity.
  - vm_compute. reflexivity.
  - reflexivity.
  - split; unfold in_ty; cbn; lia.
  - assert (Hd : discount_in demo_ctx shipped_snapshot = 20) by (vm_compute; reflexivity).
    assert (Hd' : discount_in demo_ctx (apply_rows shipped_snapshot demo_changes) = 25)
      by (vm_compute; reflexivity).
    rewrite Hd, Hd'. cbn. lia.
Defined.
