(* ===== verification/ConfigStore.v ===== *)
(** * ConfigStore: generation-serialised configuration writes and proposals

    The write side of the configuration: [ops/set_config.rs] (direct writes and
    the shared apply core), [ops/proposals.rs] (two-phase proposals) and the
    Postgres transaction behind them, [pg/ops_config_tx.rs] with the tables of
    [migrations/0008_ops.sql].  A use case maps a database to its answer and the
    committed database; an error rolls the transaction back, except that
    confirming an expired proposal commits the expiry and then refuses.  The
    generation row is locked by every writer, so writers are serial and a run
    is a sequence of use cases.  Times are integers; the parser and printer of
    UUIDs, the JSON printer and SHA-256 are parameters, and a generated
    identifier is an argument. *)

From S2P Require Import Prelude Amm Ledger Resolution Economy Chars Errors Json Config Fences.
#[local] Open Scope string_scope.
#[local] Open Scope list_scope.
#[local] Open Scope Z_scope.

Inductive AdminContext :=
| Machine
| Admin (token_digest : string) (role : AdminRole).

Record AdminAction := mkAdminAction {
  aa_role : AdminRole; aa_digest : string; aa_action : string; aa_subject : string;
  aa_before : option Value; aa_after : option Value; aa_reason : option string }.

Record Event := mkEvent {
  ev_type : string; ev_aggregate_type : string; ev_aggregate_id : N; ev_payload : Value }.

Inductive ProposalStatus := Pending | Confirmed | Rejected | Expired.

#[export] Instance ProposalStatus_eq_dec : EqDecision ProposalStatus.
Proof. solve_decision. Defined.

Record ConfigProposal := mkProposal {
  cp_id : N;
  cp_idempotency_key : string;
  cp_patch : Value;
  cp_patch_hash : string;
  cp_base_generation : Z;
  cp_proposer_token_id : string;
  cp_proposer_role : AdminRole;
  cp_reason : string;
  cp_status : ProposalStatus;
  cp_expires_at : Z;
  cp_confirmer_token_id : option string;
  cp_resulting_generation : option Z }.

(** A row of [config_changes]. *)
Record ChangeRow := mkChangeRow {
  cr_generation : Z; cr_change : ConfigChange; cr_changed_by : string }.

Record OpsDb := mkOpsDb {
  db_generation : Z;
  db_generations : list (Z * string);
  db_entries : gmap string Value;
  db_changes : list ChangeRow;
  db_proposals : list ConfigProposal;
  db_audit : list AdminAction;
  db_outbox : list Event;
  (** [tally_hidden_at] and [closes_at] of the markets. *)
  db_markets : gmap N (Z * Z) }.

(** ** The transaction, [pg/ops_config_tx.rs] *)

Definition lock_generation (db : OpsDb) : Z := db_generation db.

Definition config_entries (db : OpsDb) : list ConfigEntry :=
  map (fun kv => mkConfigEntry kv.1 kv.2)
    (sort_by (fun a b => str_le a.1 b.1) (map_to_list (db_entries db))).

(** Insert a change row, primary key (generation, key), and upsert the entry. *)
Definition apply_change (generation : Z) (applied_by : string) (db : OpsDb) (c : ConfigChange) :
    outcome StoreError OpsDb :=
  if existsb (fun r => (cr_generation r =? generation) &&
                       bool_decide (cc_key (cr_change r) = cc_key c)) (db_changes db)
  then Err (Store.Integrity "config_changes_pkey")
  else Ok (mkOpsDb (db_generation db) (db_generations db)
             (<[cc_key c := cc_new c]> (db_entries db))
             (db_changes db ++ [mkChangeRow generation c applied_by])
             (db_proposals db) (db_audit db) (db_outbox db) (db_markets db)).

Definition apply_changes (generation : Z) (changes : list ConfigChange) (applied_by : string)
    (db : OpsDb) : outcome StoreError OpsDb :=
  if existsb (fun g => g.1 =? generation) (db_generations db)
  then Err (Store.Integrity "config_generations_pkey") else
  db ← foldM (apply_change generation applied_by)
         (mkOpsDb (db_generation db) (db_generations db ++ [(generation, applied_by)])
            (db_entries db) (db_changes db) (db_proposals db) (db_audit db) (db_outbox db)
            (db_markets db)) changes;
  Ok (mkOpsDb generation (db_generations db) (db_entries db) (db_changes db) (db_proposals db)
        (db_audit db) (db_outbox db) (db_markets db)).

Definition insert_proposal (p : ConfigProposal) (db : OpsDb) : outcome StoreError OpsDb :=
  if existsb (fun q => bool_decide (cp_idempotency_key q = cp_idempotency_key p) ||
                       (cp_id q =? cp_id p)%N) (db_proposals db)
  then Err (Store.Conflict "config proposal idempotency key")
  else Ok (mkOpsDb (db_generation db) (db_generations db) (db_entries db) (db_changes db)
             (db_proposals db ++ [mkProposal (cp_id p) (cp_idempotency_key p) (cp_patch p)
                (cp_patch_hash p) (cp_base_generation p) (cp_proposer_token_id p)
                (cp_proposer_role p) (cp_reason p) (cp_status p) (cp_expires_at p) None None])
             (db_audit db) (db_outbox db) (db_markets db)).

Definition proposal_for_update (id : N) (db : OpsDb) : outcome StoreError ConfigProposal :=
  ok_or (List.find (fun p => (cp_id p =? id)%N) (db_proposals db)) (Store.NotFound "config proposal").

Definition proposal_by_idempotency_key (key : string) (db : OpsDb) : option ConfigProposal :=
  List.find (fun p => bool_decide (cp_idempotency_key p = key)) (db_proposals db).

(** The [update], with the row's check that the two principals differ and the
    reference of the resulting generation. *)
Definition save_proposal (p : ConfigProposal) (db : OpsDb) : outcome StoreError OpsDb :=
  if existsb (fun q => (cp_id q =? cp_id p)%N &&
                       bool_decide (cp_confirmer_token_id p = Some (cp_proposer_token_id q)))
       (db_proposals db)
  then Err (Store.Integrity "config_change_proposals_check") else
  if match cp_resulting_generation p with
     | Some g => negb (existsb (fun h => h.1 =? g) (db_generations db))
     | None => false
     end
  then Err (Store.Integrity "config_change_proposals_resulting_generation_fkey")
  else Ok (mkOpsDb (db_generation db) (db_generations db) (db_entries db) (db_changes db)
             (map (fun q => if (cp_id q =? cp_id p)%N then
                mkProposal (cp_id q) (cp_idempotency_key q) (cp_patch q) (cp_patch_hash q)
                  (cp_base_generation q) (cp_proposer_token_id q) (cp_proposer_role q)
                  (cp_reason q) (cp_status p) (cp_expires_at q) (cp_confirmer_token_id p)
                  (cp_resulting_generation p) else q) (db_proposals db))
             (db_audit db) (db_outbox db) (db_markets db)).

Definition changes_in_generation (generation : Z) (db : OpsDb) : list ConfigChange :=
  sort_by (fun a b => str_le (cc_key a) (cc_key b))
    (map cr_change (List.filter (fun r => cr_generation r =? generation) (db_changes db))).

Definition market_times (market : N) (db : OpsDb) : option (Z * Z) := db_markets db !! market.

Definition audit_insert (a : AdminAction) (db : OpsDb) : OpsDb :=
  mkOpsDb (db_generation db) (db_generations db) (db_entries db) (db_changes db)
    (db_proposals db) (db_audit db ++ [a]) (db_outbox db) (db_markets db).

Definition outbox_append (e : Event) (db : OpsDb) : OpsDb :=
  mkOpsDb (db_generation db) (db_generations db) (db_entries db) (db_changes db)
    (db_proposals db) (db_audit db) (db_outbox db ++ [e]) (db_markets db).

Definition fence_config_value (key : string) (db : OpsDb) : option Value := db_entries db !! key.

(** Rows of [config_changes] ordered by generation, then key in the order
    [collate] of the database. *)
Definition row_le (collate : string -> string -> bool) (a b : ChangeRow) : bool :=
  (cr_generation a <? cr_generation b) ||
  ((cr_generation a =? cr_generation b) &&
   collate (cc_key (cr_change a)) (cc_key (cr_change b))).

(** The least generation on record, one when there is none. *)
Definition watermark (db : OpsDb) : Z :=
  match db_generations db with
  | [] => 1
  | g :: rest => fold_left (fun m h => Z.min m h.1) rest g.1
  end.

Definition fence_changes_since (collate : string -> string -> bool) (generation : Z) (db : OpsDb) :
    outcome StoreError (Z * option (list ConfigChange)) :=
  let current := db_generation db in
  next ← arith I64 (generation + 1);
  if next <? watermark db then Ok (current, None)
  else Ok (current, Some (map cr_change (sort_by (row_le collate)
             (List.filter (fun r => generation <? cr_generation r) (db_changes db))))).

(** ** Use cases *)

Record AppliedPatch := mkApplied {
  ap_generation : Z; ap_changed_keys : list string; ap_before : Value; ap_after : Value }.

Record SetConfigCmd := mkSetConfig {
  set_actor : AdminContext; set_patch : Value; set_reason : string; set_idempotency_key : string;
  set_expected_base_generation : option Z }.

Record CreateProposalCmd := mkCreate {
  new_actor : AdminContext; new_patch : option Value; new_revert_of_generation : option Z;
  new_reason : string; new_idempotency_key : string }.

Record SettleProposalCmd := mkSettle {
  sp_actor : AdminContext; sp_id : N; sp_reason : option string }.

Definition DEFAULT_TTL_SECS : Z := 900.

Definition patch_keys (patch : Value) : outcome AppError (list string) :=
  object ← ok_or (as_object_opt patch) (App.ConfigInvalid "patch" "patch must be a JSON object");
  match object with
  | [] => Err (App.ConfigInvalid "patch" "patch must not be empty")
  | _ => Ok (sort_by str_le object.*1)
  end.

(** [Vec::join] with a comma. *)
Fixpoint join_comma (l : list string) : string :=
  match l with
  | [] => ""
  | [s] => s
  | s :: l => s +:+ "," +:+ join_comma l
  end.

(** A transaction that returns the answer of the use case and the database to
    commit; an error drops it. *)
Definition in_tx {A} (db : OpsDb) (m : outcome AppError (outcome AppError A * OpsDb)) :
    outcome AppError A * OpsDb :=
  match m with
  | Ok (answer, db') => (answer, db')
  | Err e => (Err e, db)
  | Panic => (Panic, db)
  end.

Section UseCases.
Context `{UuidText} (uuid_parse : string -> option N).
Context (to_string : Value -> string) (sha256 : string -> list Z).

Definition uuid_ok (s : string) : bool := match uuid_parse s with Some _ => true | None => false end.

Definition market_of (suffix : string) : outcome AppError N :=
  ok_or (uuid_parse suffix) (App.ConfigInvalid suffix "pause key requires a market UUID suffix").

(** One key of [enforce_pause_timing]. *)
Definition pause_timing (db : OpsDb) (now : Z) (kv : string * Value) : outcome AppError unit :=
  match strip_prefix "market_paused:" kv.1 with
  | Some id =>
      market ← market_of id;
      row ← ok_or (market_times market db) (App.Store (Store.NotFound "market"));
      let resuming := negb (pause_in_force (Some kv.2)) in
      if resuming && (now >? row.1) && (now <=? row.2)
      then Err (App.ProposalConflict "trading resume is forbidden inside the hidden window")
      else Ok tt
  | None =>
      match strip_prefix "voting_paused:" kv.1 with
      | Some id =>
          market ← market_of id;
          row ← ok_or (market_times market db) (App.Store (Store.NotFound "market"));
          let setting := pause_in_force (Some kv.2) in
          if setting && (now >=? row.1)
          then Err (App.ProposalConflict
                      "a voting pause cannot be written once the hidden window began")
          else Ok tt
      | None => Ok tt
      end
  end.

Definition enforce_pause_timing (db : OpsDb) (now : Z) (patch : Value) : outcome AppError unit :=
  object ← ok_or (as_object_opt patch)
             (App.ConfigInvalid "patch" "config patch must be a JSON object");
  foldM (fun _ kv => pause_timing db now kv) tt object.

(** The public frame of one change, if it is a pause. *)
Definition pause_frame (c : ConfigChange) : list Event :=
  let paused := pause_in_force (Some (cc_new c)) in
  if bool_decide (cc_key c = "trading_paused") then
    [mkEvent (if paused then "TradingPaused" else "TradingResumed") "config" 0
       (JObject [("scope", JString "global")])]
  else match strip_prefix "market_paused:" (cc_key c) with
  | Some id =>
      match uuid_parse id with
      | Some market => [mkEvent (if paused then "TradingPaused" else "TradingResumed") "market"
                          market (JObject [("market_id", JString id)])]
      | None => []
      end
  | None =>
      match strip_prefix "voting_paused:" (cc_key c) with
      | Some id =>
          match uuid_parse id with
          | Some market => [mkEvent (if paused then "MarketVotingPaused" else "MarketVotingResumed")
                              "market" market (JObject [("market_id", JString id)])]
          | None => []
          end
      | None => []
      end
  end.

Definition pause_frames (changes : list ConfigChange) : list Event := concat (map pause_frame changes).

Definition apply_patch_in_tx (db : OpsDb) (now : Z) (applied_by : string) (patch : Value)
    (expected_base_generation : option Z) : outcome AppError (AppliedPatch * OpsDb) :=
  keys ← patch_keys patch;
  let base := lock_generation db in
  if match expected_base_generation with Some e => negb (e =? base) | None => false end
  then Err (App.StaleConfig (default 0 expected_base_generation) base) else
  let snapshot := snapshot_of (config_entries db) in
  changes ← validate_patch uuid_ok snapshot patch;
  _ ← enforce_pause_timing db now patch;
  let before := fold_left (fun m c => btree_insert (cc_key c) (default JNull (cc_old c)) m)
                  changes [] in
  let after := fold_left (fun m c => btree_insert (cc_key c) (cc_new c) m) changes [] in
  '(generation, db) ←
    match changes with
    | [] => Ok (base, db)
    | _ =>
        next ← arith I64 (base + 1);
        db ← store (apply_changes next changes applied_by db);
        let db := fold_left (fun db e => outbox_append e db) (pause_frames changes) db in
        let db := outbox_append (mkEvent "ConfigChanged" "config" 0
                    (JObject [ ("generation", JInt next)
                             ; ("keys", JArray (map (fun c => JString (cc_key c)) changes)) ])) db in
        Ok (next, db)
    end;
  Ok (mkApplied generation (map cc_key changes) (JObject before) (JObject after), db).

(** The guard of one key of a direct write. *)
Definition direct_guard (role : AdminRole) (key : string) : outcome AppError unit :=
  if bool_decide (is_Some (rule_for uuid_ok key)) then
    if is_sensitive uuid_ok key
    then Err (App.AdminForbidden "sensitive keys require the two-phase proposal flow")
    else if negb (role_may_write uuid_ok role key)
    then Err (App.AdminForbidden "role does not write this config key")
    else Ok tt
  else Err (App.ConfigInvalid key "unknown config key").

Definition set_config (now : Z) (cmd : SetConfigCmd) (db : OpsDb) :
    outcome AppError (Z * list string) * OpsDb :=
  in_tx db
    (match set_actor cmd with
     | Machine => Err (App.AdminForbidden "config writes require an admin actor")
     | Admin token_digest role =>
         keys ← patch_keys (set_patch cmd);
         _ ← foldM (fun _ key => direct_guard role key) tt keys;
         '(applied, db) ← apply_patch_in_tx db now token_digest (set_patch cmd)
                            (set_expected_base_generation cmd);
         Ok (Ok (ap_generation applied, ap_changed_keys applied),
             audit_insert (mkAdminAction role token_digest "set_config"
               ("config:" +:+ join_comma (ap_changed_keys applied)) (Some (ap_before applied))
               (Some (ap_after applied)) (Some (set_reason cmd))) db)
     end).

Definition role_may_propose (role : AdminRole) (key : string) : bool :=
  match rule_write <$> rule_for uuid_ok key with
  | Some (TwoPhase listed | Direct listed) =>
      bool_decide (role = listed) || bool_decide (role = Superadmin)
  | None => false
  end.

Definition is_pause_key (key : string) : bool :=
  bool_decide (key = "trading_paused") ||
  bool_decide (is_Some (strip_prefix "market_paused:" key)) ||
  bool_decide (is_Some (strip_prefix "voting_paused:" key)).

Definition revert_patch_from_changes (changes : list ConfigChange) : outcome AppError Value :=
  match changes with
  | [] => Err (App.Store (Store.NotFound "config generation"))
  | _ =>
      object ← foldM (fun object c =>
        if is_pause_key (cc_key c) then Ok object
        else match cc_old c with
        | None => Err (App.ConfigInvalid (cc_key c) "cannot revert a key's creation")
        | Some old => Ok (btree_insert (cc_key c) old object)
        end) [] changes;
      match object with
      | [] => Err (App.ConfigInvalid "patch"
                     "generation contains only pause changes; nothing to revert")
      | _ => Ok (JObject object)
      end
  end.

Definition propose_guard (role : AdminRole) (message key : string) : outcome AppError unit :=
  if role_may_propose role key then Ok tt else Err (App.AdminForbidden message).

(** The patch a proposal is made of: the given one, all of whose keys are
    sensitive, or the reversal of a generation. *)
Definition proposal_patch (cmd : CreateProposalCmd) (db : OpsDb) : outcome AppError Value :=
  match new_patch cmd, new_revert_of_generation cmd with
  | Some patch, None =>
      keys ← patch_keys patch;
      _ ← foldM (fun _ key => if is_sensitive uuid_ok key then Ok tt
             else Err (App.ConfigInvalid key "non-sensitive keys apply directly through SetConfig"))
            tt keys;
      Ok patch
  | None, Some generation => revert_patch_from_changes (changes_in_generation generation db)
  | _, _ => Err (App.ConfigInvalid "patch"
                   "exactly one of patch or revert_of_generation is required")
  end.

Definition create_proposal (fresh : N) (now : Z) (cmd : CreateProposalCmd) (db : OpsDb) :
    outcome AppError ConfigProposal * OpsDb :=
  in_tx db
    (match new_actor cmd with
     | Machine => Err (App.AdminForbidden "config proposals require an admin actor")
     | Admin token_digest role =>
         patch ← proposal_patch cmd db;
         keys ← patch_keys patch;
         _ ← foldM (fun _ => propose_guard role "role does not propose changes to this config key")
               tt keys;
         let base := lock_generation db in
         let snapshot := snapshot_of (config_entries db) in
         _ ← validate_patch uuid_ok snapshot patch;
         let hash := patch_hash to_string sha256 patch in
         match proposal_by_idempotency_key (new_idempotency_key cmd) db with
         | Some existing =>
             if bool_decide (cp_patch_hash existing = hash) then Ok (Ok existing, db)
             else Err (App.ProposalConflict "idempotency key was reused with a different patch")
         | None =>
             let ttl := scalar (snapshot !! "proposal_ttl_secs") DEFAULT_TTL_SECS in
             let proposal := mkProposal fresh (new_idempotency_key cmd) patch hash base token_digest
                               role (new_reason cmd) Pending (now + ttl) None None in
             db ← store (insert_proposal proposal db);
             Ok (Ok proposal,
                 audit_insert (mkAdminAction role token_digest "propose_config"
                   ("config_proposal:" +:+ uuid_text fresh) None (Some patch)
                   (Some (new_reason cmd))) db)
         end
     end).

Definition settle_audit (role : AdminRole) (digest : string) (p : ConfigProposal)
    (action : string) (reason : option string) : AdminAction :=
  mkAdminAction role digest action ("config_proposal:" +:+ uuid_text (cp_id p)) None
    (Some (cp_patch p)) reason.

Definition with_status (p : ConfigProposal) (s : ProposalStatus) : ConfigProposal :=
  mkProposal (cp_id p) (cp_idempotency_key p) (cp_patch p) (cp_patch_hash p)
    (cp_base_generation p) (cp_proposer_token_id p) (cp_proposer_role p) (cp_reason p) s
    (cp_expires_at p) (cp_confirmer_token_id p) (cp_resulting_generation p).

Definition with_confirmation (p : ConfigProposal) (by_token : string) (generation : Z) :
    ConfigProposal :=
  mkProposal (cp_id p) (cp_idempotency_key p) (cp_patch p) (cp_patch_hash p)
    (cp_base_generation p) (cp_proposer_token_id p) (cp_proposer_role p) (cp_reason p) Confirmed
    (cp_expires_at p) (Some by_token) (Some generation).

(** The conflict a validation failure becomes at confirmation. *)
Definition moved_base (e : AppError) : AppError :=
  match e with
  | App.ConfigInvalid _ _ => App.ProposalConflict "the base generation moved incompatibly"
  | other => other
  end.

Definition confirm_proposal (now : Z) (cmd : SettleProposalCmd) (db : OpsDb) :
    outcome AppError ConfigProposal * OpsDb :=
  in_tx db
    (match sp_actor cmd with
     | Machine => Err (App.AdminForbidden "config proposals require an admin actor")
     | Admin token_digest role =>
         proposal ← store (proposal_for_update (sp_id cmd) db);
         if negb (bool_decide (cp_status proposal = Pending))
         then Err (App.ProposalConflict "proposal is already settled") else
         if now >=? cp_expires_at proposal then
           let proposal := with_status proposal Expired in
           db ← store (save_proposal proposal db);
           Ok (Err (App.ProposalConflict "proposal has expired"),
               audit_insert (settle_audit role token_digest proposal "expire_config_proposal" None) db)
         else if bool_decide (token_digest = cp_proposer_token_id proposal)
         then Err (App.AdminForbidden "confirmation requires a principal distinct from the proposer")
         else
         keys ← patch_keys (cp_patch proposal);
         _ ← foldM (fun _ => propose_guard role "role does not confirm changes to this config key")
               tt keys;
         '(applied, db) ← map_err moved_base
                            (apply_patch_in_tx db now token_digest (cp_patch proposal) None);
         let proposal := with_confirmation proposal token_digest (ap_generation applied) in
         db ← store (save_proposal proposal db);
         Ok (Ok proposal,
             audit_insert (settle_audit role token_digest proposal "confirm_config_proposal"
                             (sp_reason cmd)) db)
     end).

Definition reject_proposal (now : Z) (cmd : SettleProposalCmd) (db : OpsDb) :
    outcome AppError ConfigProposal * OpsDb :=
  in_tx db
    (match sp_actor cmd with
     | Machine => Err (App.AdminForbidden "config proposals require an admin actor")
     | Admin token_digest role =>
         proposal ← store (proposal_for_update (sp_id cmd) db);
         if negb (bool_decide (cp_status proposal = Pending))
         then Err (App.ProposalConflict "proposal is already settled") else
         let '(status, action) :=
           if now >=? cp_expires_at proposal then (Expired, "expire_config_proposal")
           else (Rejected, "reject_config_proposal") in
         let proposal := with_status proposal status in
         db ← store (save_proposal proposal db);
         Ok (Ok proposal,
             audit_insert (settle_audit role token_digest proposal action (sp_reason cmd)) db)
     end).
End UseCases.

(** ** Specification *)

(** The keys of a JSON object are distinct: it is a [BTreeMap]. *)
Definition patch_wf (patch : Value) : Prop :=
  forall object, patch = JObject object -> NoDup object.*1.

Section Runs.
Context `{UuidText} (uuid_parse : string -> option N).
Context (to_string : Value -> string) (sha256 : string -> list Z).

(** One use case, whatever its answer. *)
Inductive ops_step : OpsDb -> OpsDb -> Prop :=
| step_set now cmd db :
    patch_wf (set_patch cmd) -> ops_step db (set_config uuid_parse now cmd db).2
| step_create fresh now cmd db :
    (forall patch, new_patch cmd = Some patch -> patch_wf patch) ->
    ops_step db (create_proposal uuid_parse to_string sha256 fresh now cmd db).2
| step_confirm now cmd db : ops_step db (confirm_proposal uuid_parse now cmd db).2
| step_reject now cmd db : ops_step db (reject_proposal now cmd db).2.

Inductive ops_run : OpsDb -> OpsDb -> Prop :=
| run_nil db : ops_run db db
| run_step db db' db'' : ops_run db db' -> ops_step db' db'' -> ops_run db db''.

(** A database the migrations or earlier runs leave. *)
Record ops_wf (db : OpsDb) : Prop := {
  wf_headers : Forall (fun g => g.1 <= db_generation db) (db_generations db);
  wf_rows : Forall (fun r => cr_generation r <= db_generation db) (db_changes db);
  wf_patches : Forall (fun p => patch_wf (cp_patch p)) (db_proposals db);
  wf_ids : NoDup (map cp_id (db_proposals db));
  wf_roles : Forall (fun p => forall object k v, cp_patch p = JObject object -> (k, v) ∈ object ->
               role_may_propose uuid_parse (cp_proposer_role p) k = true) (db_proposals db) }.

(** Both principals of a sensitive change, with their roles: that of the
    proposer is in the proposal, that of the confirmer in the audit log. *)
Definition dual_controlled (db : OpsDb) (r : ChangeRow) : Prop :=
  exists p, p ∈ db_proposals db /\ cp_status p = Confirmed /\
    cp_resulting_generation p = Some (cr_generation r) /\
    cp_confirmer_token_id p = Some (cr_changed_by r) /\
    cp_proposer_token_id p <> cr_changed_by r /\
    role_may_propose uuid_parse (cp_proposer_role p) (cc_key (cr_change r)) = true /\
    (exists role reason,
       settle_audit role (cr_changed_by r) p "confirm_config_proposal" reason ∈ db_audit db /\
       role_may_propose uuid_parse role (cc_key (cr_change r)) = true) /\
    exists object, cp_patch p = JObject object /\
      (cc_key (cr_change r), cc_new (cr_change r)) ∈ object.
End Runs.

(** ** Lemmas: one transaction *)

Lemma snapshot_of_entries db : snapshot_of (config_entries db) = db_entries db.
Proof.
  unfold snapshot_of, config_entries.
  set (l := sort_by _ _). assert (Hperm : l ≡ₚ map_to_list (db_entries db)) by apply sort_by_perm.
  transitivity (prospective_of ∅ l).
  - unfold prospective_of. generalize (∅ : Snapshot). clear. induction l as [|kv l IH]; intros m; [done|].
    apply IH.
  - assert (Hnd : NoDup l.*1) by (rewrite Hperm; apply NoDup_fst_map_to_list).
    rewrite prospective_union by done. rewrite (right_id_L ∅ (∪)).
    rewrite (list_to_map_proper _ _ Hnd Hperm). apply list_to_map_to_list.
Qed.

(** What a committed patch does to the tables. *)
Definition rows_of (generation : Z) (by_token : string) (changes : list ConfigChange) : list ChangeRow :=
  map (fun c => mkChangeRow generation c by_token) changes.

Lemma apply_change_loop generation by_token changes db db' :
  foldM (apply_change generation by_token) db changes = Ok db' ->
  db' = mkOpsDb (db_generation db) (db_generations db) (apply_rows (db_entries db) changes)
          (db_changes db ++ rows_of generation by_token changes) (db_proposals db) (db_audit db)
          (db_outbox db) (db_markets db).
Proof.
  revert db. induction changes as [|c changes IH]; intros db; cbn [foldM].
  - intros [= <-]. cbn. rewrite app_nil_r. by destruct db.
  - intros Hr. apply bind_Ok in Hr as (db1 & H1 & Hr). unfold apply_change in H1.
    destruct (existsb _ (db_changes db)); [discriminate|]. injection H1 as <-.
    apply IH in Hr as ->. cbn. by rewrite <- app_assoc.
Qed.

Lemma apply_changes_effect generation changes by_token db db' :
  apply_changes generation changes by_token db = Ok db' ->
  db' = mkOpsDb generation (db_generations db ++ [(generation, by_token)])
          (apply_rows (db_entries db) changes)
          (db_changes db ++ rows_of generation by_token changes) (db_proposals db) (db_audit db)
          (db_outbox db) (db_markets db).
Proof.
  unfold apply_changes. destruct (existsb _ (db_generations db)); [discriminate|]. intros Hr.
  apply bind_Ok in Hr as (db1 & H1 & [= <-]). apply apply_change_loop in H1 as ->. done.
Qed.

Lemma outbox_appends events db :
  fold_left (fun db e => outbox_append e db) events db =
  mkOpsDb (db_generation db) (db_generations db) (db_entries db) (db_changes db)
    (db_proposals db) (db_audit db) (db_outbox db ++ events) (db_markets db).
Proof.
  revert db. induction events as [|e events IH]; intros db; cbn [fold_left].
  - rewrite app_nil_r. by destruct db.
  - rewrite IH. cbn. by rewrite <- app_assoc.
Qed.

(** The tables a patch touches, compared with the state before. *)
Record patched (uuid_ok : string -> bool) (db db' : OpsDb) (by_token : string) (patch : Value)
    (changes : list ConfigChange) : Prop := {
  pd_valid : validate_patch uuid_ok (db_entries db) patch = Ok changes;
  pd_generation : db_generation db' = db_generation db + (if bool_decide (changes = []) then 0 else 1);
  pd_headers : Forall (fun g => g.1 <= db_generation db) (db_generations db) ->
               Forall (fun g => g.1 <= db_generation db') (db_generations db');
  pd_log : exists more, db_generations db' = db_generations db ++ more;
  pd_entries : db_entries db' = apply_rows (db_entries db) changes;
  pd_rows : db_changes db' = db_changes db ++ rows_of (db_generation db') by_token changes;
  pd_proposals : db_proposals db' = db_proposals db;
  pd_audit : db_audit db' = db_audit db }.

Lemma apply_patch_effect uuid_parse db now by_token patch expected applied db' :
  apply_patch_in_tx uuid_parse db now by_token patch expected = Ok (applied, db') ->
  exists changes, patched (uuid_ok uuid_parse) db db' by_token patch changes /\
    ap_generation applied = db_generation db' /\ ap_changed_keys applied = map cc_key changes.
Proof.
  unfold apply_patch_in_tx, lock_generation. rewrite snapshot_of_entries. intros Hr.
  apply bind_Ok in Hr as (keys & _ & Hr).
  destruct (match expected with Some e => _ | None => false end); [discriminate|].
  apply bind_Ok in Hr as (changes & Hv & Hr). apply bind_Ok in Hr as ([] & _ & Hr).
  apply bind_Ok in Hr as ([generation db1] & H1 & [= <- <-]). exists changes.
  destruct changes as [|c changes].
  - injection H1 as <- <-. split; [|done]. split; try done; cbn.
    + lia.
    + exists []. by rewrite app_nil_r.
    + by rewrite app_nil_r.
  - apply bind_Ok in H1 as (next & Hn & H1). apply arith_Ok in Hn as [-> _].
    apply bind_Ok in H1 as (db2 & H2 & H1). apply store_Ok, apply_changes_effect in H2 as ->.
    rewrite outbox_appends in H1. unfold outbox_append in H1. cbn in H1. injection H1 as <- <-.
    split; [|done]. split; try done; cbn.
    + intros Hh. apply Forall_app. split; [|repeat constructor; cbn; lia].
      eapply Forall_impl; [exact Hh|]. cbn. intros; lia.
    + by eexists.
Qed.

(** The generation a patch leaves is on record. *)
Lemma apply_patch_header uuid_parse db now by_token patch expected applied db' :
  apply_patch_in_tx uuid_parse db now by_token patch expected = Ok (applied, db') ->
  (exists h, h ∈ db_generations db /\ h.1 = db_generation db) ->
  exists h, h ∈ db_generations db' /\ h.1 = db_generation db'.
Proof.
  unfold apply_patch_in_tx, lock_generation. rewrite snapshot_of_entries. intros Hr Hh.
  apply bind_Ok in Hr as (keys & _ & Hr).
  destruct (match expected with Some e => _ | None => false end); [discriminate|].
  apply bind_Ok in Hr as (changes & _ & Hr). apply bind_Ok in Hr as ([] & _ & Hr).
  apply bind_Ok in Hr as ([generation db1] & H1 & [= <- <-]).
  destruct changes as [|c changes]; [by injection H1 as <- <-|].
  apply bind_Ok in H1 as (next & Hn & H1). apply arith_Ok in Hn as [-> _].
  apply bind_Ok in H1 as (db2 & H2 & H1). apply store_Ok, apply_changes_effect in H2 as ->.
  rewrite outbox_appends in H1. unfold outbox_append in H1. cbn in H1. injection H1 as <- <-.
  exists (db_generation db + 1, by_token). cbn. split; [|done]. apply elem_of_app. right. left.
Qed.

Lemma history_app s l k : history s (l ++ k) <-> history s l /\ history (apply_rows s l) k.
Proof.
  revert s. induction l as [|c l IH]; intros s; cbn; [naive_solver|]. rewrite IH.
  unfold apply_rows. cbn. naive_solver.
Qed.

Lemma distinct_history s changes :
  NoDup (map cc_key changes) -> (forall c, c ∈ changes -> cc_old c = s !! cc_key c) ->
  history s changes.
Proof.
  revert s. induction changes as [|c changes IH]; intros s Hnd Hold; [done|].
  cbn in Hnd. apply NoDup_cons in Hnd as [Hc Hnd]. split; [apply Hold; left|].
  apply IH; [done|]. intros c' Hin. rewrite lookup_insert_ne; [apply Hold; by right|].
  intros Heq. apply Hc. rewrite Heq. by apply list_elem_of_fmap_2.
Qed.

Lemma accepted_history uuid_ok s patch changes :
  patch_wf patch -> validate_patch uuid_ok s patch = Ok changes -> history s changes.
Proof.
  intros Hwf Hv. destruct (validate_patch_object _ _ _ _ Hv) as [object ->].
  specialize (Hwf _ eq_refl). apply validate_patch_Ok in Hv as (_ & _ & _ & ->).
  apply distinct_history; [by apply change_keys_NoDup|].
  intros c Hin. by apply list_elem_of_omap in Hin as (kv & _ & [-> _]%change_of_Some).
Qed.

(** ** Lemmas: every use case advances the history *)

Lemma foldM_unit_all {E A} (f : A -> outcome E unit) l :
  foldM (fun _ x => f x) tt l = Ok tt -> forall x, x ∈ l -> f x = Ok tt.
Proof.
  induction l as [|a l IH]; cbn; intros Hr x Hx; [by apply elem_of_nil in Hx|].
  apply bind_Ok in Hr as ([] & Ha & Hr). apply elem_of_cons in Hx as [->|Hx]; auto.
Qed.

Lemma patch_keys_Ok patch keys :
  patch_keys patch = Ok keys ->
  exists object, patch = JObject object /\ forall k, k ∈ keys <-> k ∈ object.*1.
Proof.
  unfold patch_keys. intros Hr. apply bind_Ok in Hr as (object & Ho & Hr). apply ok_or_Ok in Ho.
  destruct patch; try discriminate. injection Ho as ->. exists object. split; [done|].
  destruct object as [|kv object]; [discriminate|]. intros k.
  assert (Hk : keys = sort_by str_le (kv :: object).*1) by congruence.
  by rewrite Hk, sort_by_perm.
Qed.

Section Steps.
Context `{UuidText} (uuid_parse : string -> option N).
Context (to_string : Value -> string) (sha256 : string -> list Z).
Let up := uuid_ok uuid_parse.

(** Settled proposals and audit rows stay. *)
Record log_kept (db db' : OpsDb) : Prop := {
  lk_settled : forall p, p ∈ db_proposals db -> cp_status p <> Pending -> p ∈ db_proposals db';
  lk_audit : exists more, db_audit db' = db_audit db ++ more }.

Lemma log_kept_refl db : log_kept db db.
Proof. split; [done|]. exists []. by rewrite app_nil_r. Qed.

Record advances (db db' : OpsDb) (by_token : string) (changes : list ConfigChange) : Prop := {
  adv_generation : db_generation db' = db_generation db + (if bool_decide (changes = []) then 0 else 1);
  adv_headers : exists more, db_generations db' = db_generations db ++ more;
  adv_rows : db_changes db' = db_changes db ++ rows_of (db_generation db') by_token changes;
  adv_entries : db_entries db' = apply_rows (db_entries db) changes;
  adv_history : history (db_entries db) changes;
  adv_keys : NoDup (map cc_key changes);
  adv_ok : config_ok up (db_entries db) -> config_ok up (db_entries db');
  adv_dual : forall c, c ∈ changes -> is_sensitive up (cc_key c) = true ->
    dual_controlled uuid_parse db' (mkChangeRow (db_generation db') c by_token);
  adv_kept : log_kept db db' }.

(** A step that leaves the configuration tables alone. *)
Lemma advances_still db db' :
  db_generation db' = db_generation db -> db_generations db' = db_generations db ->
  db_changes db' = db_changes db -> db_entries db' = db_entries db ->
  log_kept db db' ->
  advances db db' "" [].
Proof.
  intros Hg Hh Hc He Hp. split; try done.
  - rewrite Hg. rewrite bool_decide_eq_true_2 by done. lia.
  - exists []. by rewrite Hh, app_nil_r.
  - by rewrite Hc, app_nil_r.
  - constructor.
  - by rewrite He.
  - intros c Hin. by apply elem_of_nil in Hin.
Qed.

Lemma ops_wf_refl db db' :
  db_generation db' = db_generation db -> db_generations db' = db_generations db ->
  db_changes db' = db_changes db -> db_proposals db' = db_proposals db ->
  ops_wf uuid_parse db -> ops_wf uuid_parse db'.
Proof. intros Hg Hh Hc Hp []. split; by rewrite ?Hg, ?Hh, ?Hc, ?Hp. Qed.

Lemma patched_wf db db' by_token patch changes :
  patched up db db' by_token patch changes -> ops_wf uuid_parse db -> ops_wf uuid_parse db'.
Proof.
  intros [Hv Hg Hh _ He Hr Hp _] [Wh Wr Wp Wi Wo]. split; try by rewrite Hp.
  - by apply Hh.
  - rewrite Hr. apply Forall_app. split.
    + eapply Forall_impl; [exact Wr|]. cbn. intros r Hle. rewrite Hg. case_bool_decide; lia.
    + apply Forall_forall. intros r Hin. unfold rows_of in Hin.
      apply list_elem_of_fmap in Hin as (c & -> & _). done.
Qed.

Lemma patched_change_in_patch db db' by_token patch changes c :
  patched up db db' by_token patch changes -> c ∈ changes ->
  exists object, patch = JObject object /\ (cc_key c, cc_new c) ∈ object.
Proof.
  intros [Hv _ _ _ _ _ _ _] Hin. destruct (validate_patch_object _ _ _ _ Hv) as [object ->].
  apply validate_patch_Ok in Hv as (_ & _ & _ & ->). exists object. split; [done|].
  by apply list_elem_of_omap in Hin as ([k v] & Hin & [-> _]%change_of_Some).
Qed.

(** A patched database advances the history; what is left to show is the
    control of its sensitive changes and that settled proposals stay. *)
Lemma patched_advances db db1 db' by_token patch changes :
  patch_wf patch -> patched up db db1 by_token patch changes ->
  db_generation db' = db_generation db1 -> db_generations db' = db_generations db1 ->
  db_changes db' = db_changes db1 -> db_entries db' = db_entries db1 ->
  (forall c, c ∈ changes -> is_sensitive up (cc_key c) = true ->
     dual_controlled uuid_parse db' (mkChangeRow (db_generation db') c by_token)) ->
  log_kept db db' -> advances db db' by_token changes.
Proof.
  intros Hwf Hp Hg Hh Hc He Hd Hs. destruct Hp as [Hv Pg _ Pl Pe Pr _ _].
  split; try done; rewrite ?Hg, ?Hh, ?Hc, ?He; try done.
  - by eapply accepted_history.
  - destruct (validate_patch_object _ _ _ _ Hv) as [object ->]. specialize (Hwf _ eq_refl).
    apply validate_patch_Ok in Hv as (_ & _ & _ & ->). by apply change_keys_NoDup.
  - intros Hok. rewrite Pe. by eapply accepted_patch_config_ok.
Qed.

Lemma set_config_advances now cmd db :
  patch_wf (set_patch cmd) -> ops_wf uuid_parse db ->
  let db' := (set_config uuid_parse now cmd db).2 in
  ops_wf uuid_parse db' /\ exists by_token changes, advances db db' by_token changes.
Proof.
  intros Hwf Hdb. cbn zeta. unfold set_config, in_tx.
  destruct (match set_actor cmd with Machine => _ | Admin _ _ => _ end) as [[answer db'] | e |] eqn:Hm;
    cbn [snd]; [|split; [done|]; exists "", []; apply advances_still; [done..|apply log_kept_refl]..].
  destruct (set_actor cmd) as [|token role]; [discriminate|].
  apply bind_Ok in Hm as (keys & Hk & Hm). apply bind_Ok in Hm as ([] & Hg & Hm).
  apply bind_Ok in Hm as ([applied db1] & Ha & [= _ <-]).
  destruct (apply_patch_effect _ _ _ _ _ _ _ _ Ha) as (changes & Hp & _ & _).
  split; [eapply ops_wf_refl; [..|by eapply patched_wf]; done|]. exists token, changes.
  eapply patched_advances; try done;
    [|split; cbn; [intros p Hin _; by rewrite (pd_proposals _ _ _ _ _ _ Hp)|rewrite (pd_audit _ _ _ _ _ _ Hp); by eexists]].
  intros c Hin Hs. destruct (patched_change_in_patch _ _ _ _ _ _ Hp Hin) as (object & Hpatch & Hkv).
  destruct (patch_keys_Ok _ _ Hk) as (object' & Hpatch' & Hkeys).
  assert (Hin' : cc_key c ∈ keys).
  { apply Hkeys. rewrite Hpatch in Hpatch'. injection Hpatch' as <-.
    change (cc_key c) with (cc_key c, cc_new c).1. by apply list_elem_of_fmap_2. }
  pose proof (foldM_unit_all _ _ Hg _ Hin') as Hgd. unfold direct_guard in Hgd.
  fold up in Hgd. rewrite Hs in Hgd. by case_bool_decide.
Qed.

(** The row an update of a proposal leaves. *)
Definition settled_row (q p : ConfigProposal) : ConfigProposal :=
  mkProposal (cp_id q) (cp_idempotency_key q) (cp_patch q) (cp_patch_hash q)
    (cp_base_generation q) (cp_proposer_token_id q) (cp_proposer_role q) (cp_reason q)
    (cp_status p) (cp_expires_at q) (cp_confirmer_token_id p) (cp_resulting_generation p).

Lemma save_proposal_effect p db db' :
  save_proposal p db = Ok db' ->
  db' = mkOpsDb (db_generation db) (db_generations db) (db_entries db) (db_changes db)
          (map (fun q => if (cp_id q =? cp_id p)%N then settled_row q p else q) (db_proposals db))
          (db_audit db) (db_outbox db) (db_markets db).
Proof.
  unfold save_proposal. destruct (existsb _ (db_proposals db)); [discriminate|].
  destruct (match cp_resulting_generation p with Some g => _ | None => false end); [discriminate|].
  by intros [= <-].
Qed.

Lemma save_proposal_wf p db db' :
  save_proposal p db = Ok db' -> ops_wf uuid_parse db -> ops_wf uuid_parse db'.
Proof.
  intros Hs%save_proposal_effect [Wh Wr Wp Wi Wo]. subst db'. split; cbn; try done.
  - apply Forall_map. eapply Forall_impl; [exact Wp|]. intros q Hq. cbn. by case_if.
  - rewrite map_map. rewrite (map_ext _ cp_id); [done|]. intros q. by case_if.
  - apply Forall_map. eapply Forall_impl; [exact Wo|]. intros q Hq. cbn. by case_if.
Qed.

Lemma save_keeps_others p q db db' :
  save_proposal p db = Ok db' -> q ∈ db_proposals db -> cp_id q <> cp_id p -> q ∈ db_proposals db'.
Proof.
  intros Hs%save_proposal_effect Hq Hne. subst db'. cbn. apply list_elem_of_fmap. exists q.
  split; [|done]. by rewrite (proj2 (N.eqb_neq _ _) Hne).
Qed.

Lemma save_updates p q db db' :
  save_proposal p db = Ok db' -> q ∈ db_proposals db -> cp_id q = cp_id p ->
  settled_row q p ∈ db_proposals db'.
Proof.
  intros Hs%save_proposal_effect Hq He. subst db'. cbn. apply list_elem_of_fmap. exists q.
  split; [|done]. by rewrite (proj2 (N.eqb_eq _ _) He).
Qed.

Lemma proposal_found id db p :
  proposal_for_update id db = Ok p -> p ∈ db_proposals db /\ cp_id p = id.
Proof.
  unfold proposal_for_update. intros Hf. apply ok_or_Ok, find_some in Hf as [Hin Hid].
  split; [by apply list_elem_of_In|]. by apply N.eqb_eq.
Qed.

(** Identifiers are unique, so a settled proposal is not the pending one. *)
Lemma settled_is_other db p q :
  ops_wf uuid_parse db -> p ∈ db_proposals db -> q ∈ db_proposals db ->
  cp_status p = Pending -> cp_status q <> Pending -> cp_id q <> cp_id p.
Proof.
  intros Hwf Hp Hq Hps Hqs Heq. destruct (proj1 (list_elem_of_lookup _ _) Hp) as [i Hi].
  destruct (proj1 (list_elem_of_lookup _ _) Hq) as [j Hj].
  assert (i = j) as ->.
  { eapply (NoDup_lookup (map cp_id (db_proposals db))); [apply Hwf| |].
    - by rewrite list_lookup_fmap, Hi.
    - rewrite list_lookup_fmap, Hj. cbn. by rewrite Heq. }
  congruence.
Qed.

Lemma revert_patch_wf changes patch :
  revert_patch_from_changes changes = Ok patch -> patch_wf patch.
Proof.
  unfold revert_patch_from_changes. destruct changes as [|c changes]; [discriminate|]. intros Hr.
  apply bind_Ok in Hr as (object & Ho & Hr).
  apply (foldM_ind _ (fun _ object => keys_sorted object)) in Ho; [|constructor|].
  - intros o ->. destruct object; [discriminate|]. injection Hr as <-. by apply keys_sorted_NoDup.
  - intros _ x _ acc acc' _ Hacc Hx. destruct (is_pause_key (cc_key x)); [by injection Hx as <-|].
    destruct (cc_old x); [|discriminate]. injection Hx as <-. by apply btree_insert_sorted.
Qed.

Lemma proposal_patch_wf cmd db patch :
  (forall patch, new_patch cmd = Some patch -> patch_wf patch) ->
  proposal_patch uuid_parse cmd db = Ok patch -> patch_wf patch.
Proof.
  unfold proposal_patch. intros Hnew. destruct (new_patch cmd) as [given|], (new_revert_of_generation cmd);
    try discriminate.
  - intros Hr. apply bind_Ok in Hr as (keys & _ & Hr). apply bind_Ok in Hr as ([] & _ & [= <-]).
    by apply Hnew.
  - apply revert_patch_wf.
Qed.

(** A role that passed the guard may propose every key of the patch. *)
Lemma guarded_role patch keys role message object k v :
  patch_keys patch = Ok keys ->
  foldM (fun _ => propose_guard uuid_parse role message) tt keys = Ok tt ->
  patch = JObject object -> (k, v) ∈ object -> role_may_propose uuid_parse role k = true.
Proof.
  intros Hk Hg -> Hkv. destruct (patch_keys_Ok _ _ Hk) as (object' & [= <-] & Hkeys).
  assert (Hin : k ∈ keys) by (apply Hkeys; change k with (k, v).1; by apply list_elem_of_fmap_2).
  pose proof (foldM_unit_all _ _ Hg _ Hin) as Hgd. unfold propose_guard in Hgd.
  by destruct (role_may_propose uuid_parse role k).
Qed.

Lemma create_proposal_advances fresh now cmd db :
  (forall patch, new_patch cmd = Some patch -> patch_wf patch) -> ops_wf uuid_parse db ->
  let db' := (create_proposal uuid_parse to_string sha256 fresh now cmd db).2 in
  ops_wf uuid_parse db' /\ exists by_token changes, advances db db' by_token changes.
Proof.
  intros Hnew Hdb. cbn zeta. unfold create_proposal, in_tx.
  destruct (match new_actor cmd with Machine => _ | Admin _ _ => _ end) as [[answer db'] | e |] eqn:Hm;
    cbn [snd]; [|split; [done|]; exists "", []; apply advances_still; [done..|apply log_kept_refl]..].
  destruct (new_actor cmd) as [|token role]; [discriminate|].
  apply bind_Ok in Hm as (patch & Hpatch & Hm). apply bind_Ok in Hm as (keys & Hk & Hm).
  apply bind_Ok in Hm as ([] & Hg & Hm). apply bind_Ok in Hm as (changes & _ & Hm).
  destruct (proposal_by_idempotency_key (new_idempotency_key cmd) db) as [existing|].
  { case_bool_decide; [|discriminate]. injection Hm as _ <-.
    split; [done|]. exists "", []. apply advances_still; [done..|apply log_kept_refl]. }
  apply bind_Ok in Hm as (db1 & Hi & [= _ <-]). apply store_Ok in Hi. unfold insert_proposal in Hi.
  destruct (existsb _ (db_proposals db)) eqn:He; [discriminate|]. injection Hi as <-. split.
  - destruct Hdb as [Wh Wr Wp Wi Wo]. split; cbn; try done.
    + apply Forall_app. split; [done|]. constructor; [|constructor]. by eapply proposal_patch_wf.
    + rewrite map_app. apply NoDup_app. split; [done|].
      split; [|repeat constructor; apply not_elem_of_nil].
      intros id Hid Hf. cbn in Hf. apply list_elem_of_singleton in Hf as ->.
      apply list_elem_of_fmap in Hid as (q & -> & Hq).
      rewrite (proj2 (existsb_exists _ _)) in He; [discriminate|]. exists q.
      split; [by apply list_elem_of_In|]. cbn. by rewrite N.eqb_refl, orb_true_r.
    + apply Forall_app. split; [done|]. constructor; [|constructor]. cbn.
      intros object k v Hp Hkv. by eapply guarded_role.
  - exists "", []. apply advances_still; try done. split; cbn; [intros p Hp _; apply elem_of_app; by left|by eexists].
Qed.

(** Settling a pending proposal without touching the configuration. *)
Lemma settle_advances p p' id db db1 db' :
  ops_wf uuid_parse db -> proposal_for_update id db = Ok p -> cp_status p = Pending ->
  cp_id p' = cp_id p -> save_proposal p' db = Ok db1 ->
  db_generation db' = db_generation db1 -> db_generations db' = db_generations db1 ->
  db_changes db' = db_changes db1 -> db_entries db' = db_entries db1 ->
  db_proposals db' = db_proposals db1 -> (exists more, db_audit db' = db_audit db1 ++ more) ->
  ops_wf uuid_parse db' /\ exists by_token changes, advances db db' by_token changes.
Proof.
  intros Hdb Hf Hs Hid Hsave Hg Hh Hc He Hp [more Ha]. apply proposal_found in Hf as [Hin _].
  split; [eapply ops_wf_refl; [..|by eapply save_proposal_wf]; done|]. exists "", [].
  pose proof (save_proposal_effect _ _ _ Hsave) as Heff.
  apply advances_still.
  - by rewrite Hg, Heff.
  - by rewrite Hh, Heff.
  - by rewrite Hc, Heff.
  - by rewrite He, Heff.
  - split; [|exists more; by rewrite Ha, Heff]. intros q Hq Hqs. rewrite Hp. eapply save_keeps_others; [done..|].
    rewrite Hid. by eapply settled_is_other.
Qed.

Lemma reject_proposal_advances now cmd db :
  ops_wf uuid_parse db ->
  let db' := (reject_proposal now cmd db).2 in
  ops_wf uuid_parse db' /\ exists by_token changes, advances db db' by_token changes.
Proof.
  intros Hdb. cbn zeta. unfold reject_proposal, in_tx.
  destruct (match sp_actor cmd with Machine => _ | Admin _ _ => _ end) as [[answer db'] | e |] eqn:Hm;
    cbn [snd]; [|split; [done|]; exists "", []; apply advances_still; [done..|apply log_kept_refl]..].
  destruct (sp_actor cmd) as [|token role]; [discriminate|].
  apply bind_Ok in Hm as (p & Hf & Hm). apply store_Ok in Hf.
  destruct (bool_decide_reflect (cp_status p = Pending)) as [Hs|]; [|discriminate]. cbn [negb] in Hm.
  destruct (now >=? cp_expires_at p);
    apply bind_Ok in Hm as (db1 & Hsave & [= _ <-]); apply store_Ok in Hsave;
    (eapply (settle_advances p (with_status p _) (sp_id cmd) db db1); try done; cbn; by eexists).
Qed.

Lemma confirm_controls p by_token role reason generation db1 db2 c object :
  ops_wf uuid_parse db1 -> p ∈ db_proposals db1 -> by_token <> cp_proposer_token_id p ->
  role_may_propose uuid_parse role (cc_key c) = true ->
  save_proposal (with_confirmation p by_token generation) db1 = Ok db2 ->
  cp_patch p = JObject object -> (cc_key c, cc_new c) ∈ object ->
  dual_controlled uuid_parse
    (audit_insert (settle_audit role by_token (with_confirmation p by_token generation) "confirm_config_proposal" reason) db2)
    (mkChangeRow generation c by_token).
Proof.
  intros Hwf Hp Hne Hrole Hsave Hpatch Hin.
  exists (settled_row p (with_confirmation p by_token generation)). cbn [db_proposals audit_insert].
  split; [by eapply save_updates|]. cbn. split; [done|]. split; [done|]. split; [done|].
  split; [congruence|]. pose proof (wf_roles _ _ Hwf) as Hr. rewrite Forall_forall in Hr.
  split; [by eapply Hr|]. split; [|eauto]. exists role, reason. split; [|done]. apply elem_of_app. right. by left.
Qed.

Lemma confirm_proposal_advances now cmd db :
  ops_wf uuid_parse db ->
  let db' := (confirm_proposal uuid_parse now cmd db).2 in
  ops_wf uuid_parse db' /\ exists by_token changes, advances db db' by_token changes.
Proof.
  intros Hdb. cbn zeta. unfold confirm_proposal, in_tx.
  destruct (match sp_actor cmd with Machine => _ | Admin _ _ => _ end) as [[answer db'] | e |] eqn:Hm;
    cbn [snd]; [|split; [done|]; exists "", []; apply advances_still; [done..|apply log_kept_refl]..].
  destruct (sp_actor cmd) as [|token role]; [discriminate|].
  apply bind_Ok in Hm as (p & Hf & Hm). apply store_Ok in Hf.
  destruct (bool_decide_reflect (cp_status p = Pending)) as [Hs|]; [|discriminate]. cbn [negb] in Hm.
  destruct (now >=? cp_expires_at p).
  { apply bind_Ok in Hm as (db1 & Hsave & [= _ <-]); apply store_Ok in Hsave.
    eapply (settle_advances p (with_status p _) (sp_id cmd) db db1); try done. cbn. by eexists. }
  destruct (bool_decide_reflect (token = cp_proposer_token_id p)) as [|Hne]; [discriminate|].
  apply bind_Ok in Hm as (keys & Hk & Hm). apply bind_Ok in Hm as ([] & Hguard & Hm).
  apply bind_Ok in Hm as ([applied db1] & Ha & Hm). apply map_err_Ok in Ha.
  apply bind_Ok in Hm as (db2 & Hsave & [= _ <-]). apply store_Ok in Hsave.
  destruct (apply_patch_effect _ _ _ _ _ _ _ _ Ha) as (changes & Hp & Hgen & _).
  pose proof (patched_wf _ _ _ _ _ Hp Hdb) as Hdb1. apply proposal_found in Hf as [Hin _].
  assert (Hin1 : p ∈ db_proposals db1) by by rewrite (pd_proposals _ _ _ _ _ _ Hp).
  split; [eapply ops_wf_refl; [..|by eapply save_proposal_wf]; done|]. exists token, changes.
  pose proof (save_proposal_effect _ _ _ Hsave) as Heff.
  assert (Hwfp : patch_wf (cp_patch p)).
  { pose proof (wf_patches _ _ Hdb) as Hw. rewrite Forall_forall in Hw. by apply Hw. }
  eapply (patched_advances db db1); try done; try (cbn; by rewrite Heff).
  - intros c Hc _. destruct (patched_change_in_patch _ _ _ _ _ _ Hp Hc) as (object & Hpatch & Hkv).
    assert (Hg2 : db_generation db2 = ap_generation applied) by (rewrite Heff; cbn; by rewrite Hgen).
    cbn [db_generation audit_insert]. rewrite Hg2. eapply (confirm_controls p token role _ _ db1 db2); try done.
    eapply guarded_role; [exact Hk|exact Hguard|exact Hpatch|exact Hkv].
  - split; [|cbn; rewrite Heff; cbn; rewrite (pd_audit _ _ _ _ _ _ Hp); by eexists].
    intros q Hq Hqs. cbn. eapply save_keeps_others; [done| |].
    + by rewrite (pd_proposals _ _ _ _ _ _ Hp).
    + cbn. eapply (settled_is_other db); done.
Qed.

Lemma step_advances db db' :
  ops_wf uuid_parse db -> ops_step uuid_parse to_string sha256 db db' ->
  ops_wf uuid_parse db' /\ exists by_token changes, advances db db' by_token changes.
Proof.
  intros Hwf Hs. destruct Hs.
  - by apply set_config_advances.
  - by apply create_proposal_advances.
  - by apply confirm_proposal_advances.
  - by apply reject_proposal_advances.
Qed.

(** What a run from [db0] has done by [db]. *)
Record ran (db0 db : OpsDb) (rows : list ChangeRow) : Prop := {
  ran_headers : exists more, db_generations db = db_generations db0 ++ more;
  ran_rows : db_changes db = db_changes db0 ++ rows;
  ran_entries : db_entries db = apply_rows (db_entries db0) (map cr_change rows);
  ran_history : history (db_entries db0) (map cr_change rows);
  ran_above : Forall (fun r => db_generation db0 < cr_generation r <= db_generation db) rows;
  ran_sorted : StronglySorted (fun a b => cr_generation a <= cr_generation b) rows;
  ran_unique : NoDup (map (fun r => (cr_generation r, cc_key (cr_change r))) rows);
  ran_generation : db_generation db0 <= db_generation db;
  ran_ok : config_ok up (db_entries db0) -> config_ok up (db_entries db);
  ran_dual : forall r, r ∈ rows -> is_sensitive up (cc_key (cr_change r)) = true ->
    dual_controlled uuid_parse db r }.

Lemma dual_controlled_kept db db' r :
  log_kept db db' -> dual_controlled uuid_parse db r -> dual_controlled uuid_parse db' r.
Proof.
  intros [Hs [more Ha]] (p & Hp & Hc & Hg & Ht & Hd & Hr & (role & reason & Hin & Hrole) & Ho). exists p.
  split; [apply Hs; [done|by rewrite Hc]|]. split_and!; try done. exists role, reason. split; [|done].
  rewrite Ha. apply elem_of_app. by left.
Qed.

Lemma ran_step db0 db db' by_token changes rows :
  ran db0 db rows -> advances db db' by_token changes ->
  ran db0 db' (rows ++ rows_of (db_generation db') by_token changes).
Proof.
  intros [[h Hh] Rr Re Rh Ra Rs Ru Rg Ro Rd] [Ag [h' Ah] Ar Ae Ahist Ak Aok Ad As].
  assert (Hchanges : map cr_change (rows ++ rows_of (db_generation db') by_token changes) =
                     map cr_change rows ++ changes).
  { rewrite map_app. f_equal. unfold rows_of. rewrite map_map. apply map_id. }
  assert (Hle : db_generation db <= db_generation db') by (rewrite Ag; case_bool_decide; lia).
  assert (Hnew : Forall (fun r => db_generation db < cr_generation r /\
                    cr_generation r = db_generation db') (rows_of (db_generation db') by_token changes)).
  { apply Forall_forall. intros r Hin. unfold rows_of in Hin.
    apply list_elem_of_fmap in Hin as (c & -> & Hc). cbn. split; [|done]. rewrite Ag.
    case_bool_decide as E; [|lia]. subst changes. by apply elem_of_nil in Hc. }
  split.
  - exists (h ++ h'). by rewrite Ah, Hh, <- app_assoc.
  - by rewrite Ar, Rr, <- app_assoc.
  - rewrite Hchanges, Ae, Re. unfold apply_rows. by rewrite fold_left_app.
  - rewrite Hchanges. apply history_app. split; [done|]. by rewrite <- Re.
  - apply Forall_app. split; (eapply Forall_impl; [eassumption|]); cbn; intros r Hr; lia.
  - apply StronglySorted_app. split; [|split]; [|done|].
    + intros a b Ha Hb. rewrite Forall_forall in Ra, Hnew.
      specialize (Ra a Ha). specialize (Hnew b Hb). lia.
    + clear -Hnew. induction Hnew as [|r l [_ Hr] Hl IH]; constructor; [done|].
      eapply Forall_impl; [exact Hl|]. cbn. intros r' [_ Hr']. lia.
  - rewrite map_app. apply NoDup_app. split; [done|]. split.
    + intros x Hx Hx'. apply list_elem_of_fmap in Hx as (a & -> & Ha), Hx' as (b & [= Hg _] & Hb).
      rewrite Forall_forall in Ra, Hnew. specialize (Ra a Ha). specialize (Hnew b Hb). lia.
    + unfold rows_of. rewrite map_map. cbn.
      rewrite <- (map_map cc_key (fun k => (db_generation db', k))). by apply (NoDup_fmap_2 _).
  - lia.
  - auto.
  - intros r Hr Hsens. apply elem_of_app in Hr as [Hr|Hr].
    + eapply dual_controlled_kept; [exact As|by apply Rd].
    + unfold rows_of in Hr. apply list_elem_of_fmap in Hr as (c & -> & Hc). by apply Ad.
Qed.

Lemma ran_refl db : ran db db [].
Proof.
  split; try done; try constructor; rewrite ?app_nil_r; try done.
  - exists []. by rewrite app_nil_r.
  - intros r Hr. by apply elem_of_nil in Hr.
Qed.

Lemma run_ran db0 db :
  ops_wf uuid_parse db0 -> ops_run uuid_parse to_string sha256 db0 db ->
  ops_wf uuid_parse db /\ exists rows, ran db0 db rows.
Proof.
  intros Hwf Hrun. induction Hrun as [|db db' db'' Hrun IH Hstep].
  - split; [done|]. exists []. apply ran_refl.
  - destruct (IH Hwf) as [Hwf' [rows Hran]].
    destruct (step_advances _ _ Hwf' Hstep) as (Hwf'' & by_token & changes & Hadv).
    split; [done|]. eexists. by eapply ran_step.
Qed.
End Steps.

(** ** Lemmas: the order of the change rows *)

Fixpoint key_history (o : option Value) (changes : list ConfigChange) : Prop :=
  match changes with
  | [] => True
  | c :: rest => cc_old c = o /\ key_history (Some (cc_new c)) rest
  end.

Fixpoint key_final (o : option Value) (changes : list ConfigChange) : option Value :=
  match changes with
  | [] => o
  | c :: rest => key_final (Some (cc_new c)) rest
  end.

Definition on_key (k : string) (c : ConfigChange) : bool := bool_decide (cc_key c = k).

Lemma history_by_key s changes :
  history s changes <-> forall k, key_history (s !! k) (List.filter (on_key k) changes).
Proof.
  revert s. induction changes as [|c rest IH]; intros s; cbn [history List.filter]; [done|].
  rewrite IH. split.
  - intros [Hold Hrest] k. specialize (Hrest k). unfold on_key at 1.
    case_bool_decide as E; [subst k|by rewrite lookup_insert_ne in Hrest].
    split; [done|]. by rewrite lookup_insert_eq in Hrest.
  - intros Hall. split.
    + specialize (Hall (cc_key c)). unfold on_key at 1 in Hall.
      rewrite bool_decide_eq_true_2 in Hall by done. by destruct Hall.
    + intros k. specialize (Hall k). unfold on_key at 1 in Hall.
      case_bool_decide as E; [subst k; rewrite lookup_insert_eq|by rewrite lookup_insert_ne].
      by destruct Hall.
Qed.

Lemma apply_rows_by_key s changes k :
  apply_rows s changes !! k = key_final (s !! k) (List.filter (on_key k) changes).
Proof.
  unfold apply_rows. revert s. induction changes as [|c rest IH]; intros s; [done|].
  cbn [fold_left List.filter]. rewrite IH. unfold on_key at 2.
  case_bool_decide as E; [subst k; by rewrite lookup_insert_eq|by rewrite lookup_insert_ne].
Qed.

(** Histories that agree key by key agree. *)
Lemma same_history s l l' :
  (forall k, List.filter (on_key k) l' = List.filter (on_key k) l) ->
  (history s l -> history s l') /\ apply_rows s l' = apply_rows s l.
Proof.
  intros Heq. split.
  - rewrite !history_by_key. intros Hh k. by rewrite Heq.
  - apply map_eq. intros k. by rewrite !apply_rows_by_key, Heq.
Qed.

Section Collation.
Context (collate : string -> string -> bool).
Hypothesis collate_total : forall a b, collate a b = true \/ collate b a = true.
Hypothesis collate_trans : forall a b c, collate a b = true -> collate b c = true -> collate a c = true.

Lemma row_le_total a b : row_le collate a b = true \/ row_le collate b a = true.
Proof.
  unfold row_le. destruct (Z.ltb_spec (cr_generation a) (cr_generation b)); [by left|].
  destruct (Z.ltb_spec (cr_generation b) (cr_generation a)); [by right|].
  assert (cr_generation a = cr_generation b) as -> by lia. rewrite Z.eqb_refl. cbn.
  apply collate_total.
Qed.

Lemma row_le_trans a b c :
  row_le collate a b = true -> row_le collate b c = true -> row_le collate a c = true.
Proof.
  unfold row_le. rewrite !orb_true_iff, !andb_true_iff, !Z.ltb_lt, !Z.eqb_eq.
  intros [H1|[H1 H1']] [H2|[H2 H2']]; [left; lia..|]. right. split; [lia|]. by eapply collate_trans.
Qed.

Lemma sort_rows_sorted l : StronglySorted (fun a b => row_le collate a b = true) (sort_by (row_le collate) l).
Proof. apply sort_by_sorted; [exact row_le_trans|exact row_le_total]. Qed.

Lemma StronglySorted_filter {A} (R : A -> A -> Prop) (P : A -> bool) l :
  StronglySorted R l -> StronglySorted R (List.filter P l).
Proof.
  induction 1 as [|x l _ IH Hx]; cbn; [constructor|]. destruct (P x); [|done].
  constructor; [done|]. apply Forall_forall. intros y Hy. rewrite Forall_forall in Hx.
  apply Hx. apply list_elem_of_In, filter_In in Hy as [Hy _]. by apply list_elem_of_In.
Qed.

Lemma filter_perm {A} (P : A -> bool) l k : l ≡ₚ k -> List.filter P l ≡ₚ List.filter P k.
Proof.
  induction 1 as [|x l k _ IH|x y l|l k m _ IH1 _ IH2]; cbn.
  - done.
  - destruct (P x); by rewrite ?IH.
  - destruct (P x), (P y); try done. constructor.
  - by rewrite IH1.
Qed.

(** Sorting the rows of a log keeps the sequence of every key. *)
Lemma sort_rows_by_key rows k :
  StronglySorted (fun a b => cr_generation a <= cr_generation b) rows ->
  NoDup (map (fun r => (cr_generation r, cc_key (cr_change r))) rows) ->
  List.filter (on_key k) (map cr_change (sort_by (row_le collate) rows)) =
  List.filter (on_key k) (map cr_change rows).
Proof.
  intros Hs Hu.
  assert (Hmap : forall l, List.filter (on_key k) (map cr_change l) =
                 map cr_change (List.filter (fun r => on_key k (cr_change r)) l)).
  { induction l as [|r l IH]; cbn; [done|]. destruct (on_key k (cr_change r)); cbn; by rewrite IH. }
  rewrite !Hmap. f_equal.
  apply (StronglySorted_unique_strong (fun a b => cr_generation a <= cr_generation b)).
  - intros a b Ha Hb Hab Hba. apply list_elem_of_In, filter_In in Ha as [Ha Hka], Hb as [Hb Hkb].
    apply list_elem_of_In in Ha, Hb. rewrite sort_by_perm in Ha.
    apply bool_decide_eq_true in Hka, Hkb.
    destruct (proj1 (list_elem_of_lookup _ _) Ha) as [i Hi].
    destruct (proj1 (list_elem_of_lookup _ _) Hb) as [j Hj].
    assert (i = j) as ->; [|congruence]. eapply (NoDup_lookup _ _ _ _ Hu).
    + by rewrite list_lookup_fmap, Hi.
    + rewrite list_lookup_fmap, Hj. cbn. by rewrite Hka, Hkb, (Z.le_antisymm _ _ Hab Hba).
  - apply StronglySorted_filter. pose proof (sort_rows_sorted rows) as Hsort.
    induction Hsort as [|x l _ IH Hx]; constructor; [done|].
    eapply Forall_impl; [exact Hx|]. cbn. intros y Hy. unfold row_le in Hy.
    apply orb_true_iff in Hy as [Hy|Hy]; [apply Z.ltb_lt in Hy; lia|].
    apply andb_true_iff in Hy as [Hy _]. apply Z.eqb_eq in Hy. lia.
  - by apply StronglySorted_filter.
  - apply filter_perm, sort_by_perm.
Qed.

Lemma watermark_le g rest db : db_generations db = g :: rest -> watermark db <= g.1.
Proof.
  intros Hg. unfold watermark. rewrite Hg. generalize (g.1) as m. clear Hg.
  induction rest as [|h rest IH]; intros m; cbn; [lia|]. specialize (IH (Z.min m h.1)). lia.
Qed.
End Collation.

(** ** Lemmas: a confirmation that succeeds *)

Section Progress.
Context `{UuidText} (uuid_parse : string -> option N).
Let up := uuid_ok uuid_parse.

Lemma apply_change_loop_Ok generation by_token changes db :
  Forall (fun r => cr_generation r < generation) (db_changes db) ->
  NoDup (map cc_key changes) ->
  exists db', foldM (apply_change generation by_token) db changes = Ok db'.
Proof.
  intros Hlt Hnd.
  enough (G : Forall (fun r => cr_generation r < generation \/ cc_key (cr_change r) ∉ map cc_key changes)
                (db_changes db) -> exists db', foldM (apply_change generation by_token) db changes = Ok db').
  { apply G. eapply Forall_impl; [exact Hlt|]. auto. }
  clear Hlt. revert db. induction changes as [|c changes IH]; intros db Hrows; cbn [foldM]; [eauto|].
  cbn in Hnd. apply NoDup_cons in Hnd as [Hc Hnd].
  destruct (apply_change generation by_token db c) as [db1|e|] eqn:Ha; unfold apply_change in Ha;
    destruct (existsb _ (db_changes db)) eqn:E; try discriminate.
  2: { exfalso. apply existsb_exists in E as (r & Hin & Hr). apply list_elem_of_In in Hin.
    rewrite Forall_forall in Hrows. specialize (Hrows r Hin).
    apply andb_true_iff in Hr as [Hg Hk]. apply Z.eqb_eq in Hg. apply bool_decide_eq_true in Hk.
    destruct Hrows as [?|Hrows]; [lia|]. apply Hrows. rewrite Hk. cbn. left. }
  injection Ha as <-. cbn [mbind outcome_bind]. apply IH; [done|]. cbn [db_changes].
  apply Forall_app. split.
  - eapply Forall_impl; [exact Hrows|]. cbn. intros r [Hr|Hr]; [by left|]. right.
    intros Hin. apply Hr. by right.
  - constructor; [|constructor]. by right.
Qed.

Lemma apply_changes_Ok db changes by_token :
  ops_wf uuid_parse db -> NoDup (map cc_key changes) ->
  exists db', apply_changes (db_generation db + 1) changes by_token db = Ok db'.
Proof.
  intros [Wh Wr _ _ _] Hnd. unfold apply_changes. destruct (existsb _ (db_generations db)) eqn:E.
  - exfalso. apply existsb_exists in E as (g & Hin & Hg). apply list_elem_of_In in Hin.
    rewrite Forall_forall in Wh. specialize (Wh g Hin). apply Z.eqb_eq in Hg. lia.
  - match goal with |- context [foldM (apply_change ?g by_token) ?d changes] =>
      destruct (apply_change_loop_Ok g by_token changes d) as [db1 ->] end; [|done|by eexists].
    cbn. eapply Forall_impl; [exact Wr|]. cbn. intros; lia.
Qed.

Lemma apply_patch_Ok db now by_token patch changes :
  ops_wf uuid_parse db -> patch_wf patch -> db_generation db < imax I64 -> 0 <= db_generation db ->
  validate_patch up (db_entries db) patch = Ok changes ->
  enforce_pause_timing uuid_parse db now patch = Ok tt ->
  exists applied db', apply_patch_in_tx uuid_parse db now by_token patch None = Ok (applied, db').
Proof.
  intros Hwf Hp Hmax Hmin Hv Ht. unfold apply_patch_in_tx. rewrite snapshot_of_entries.
  destruct (validate_patch_object _ _ _ _ Hv) as [object ->].
  destruct object as [|kv object]; [discriminate|]. cbn [patch_keys as_object_opt ok_or mbind outcome_bind].
  fold up. rewrite Hv. cbn [mbind outcome_bind]. rewrite Ht. cbn [mbind outcome_bind].
  destruct changes as [|c changes]; [by do 2 eexists|]. unfold lock_generation.
  rewrite (arith_in I64 (db_generation db + 1)) by (cbn in Hmax; ty). cbn [mbind outcome_bind].
  assert (Hnd : NoDup (map cc_key (c :: changes))).
  { specialize (Hp _ eq_refl). apply validate_patch_Ok in Hv as (_ & _ & _ & ->).
    by apply change_keys_NoDup. }
  destruct (apply_changes_Ok db (c :: changes) by_token Hwf Hnd) as [db1 ->].
  by do 2 eexists.
Qed.

Lemma find_unique db p :
  ops_wf uuid_parse db -> p ∈ db_proposals db -> proposal_for_update (cp_id p) db = Ok p.
Proof.
  intros Hwf Hin. unfold proposal_for_update.
  destruct (List.find _ (db_proposals db)) as [q|] eqn:E.
  - apply find_some in E as [Hq Hid]. apply N.eqb_eq in Hid. apply list_elem_of_In in Hq. cbn. f_equal.
    destruct (proj1 (list_elem_of_lookup _ _) Hin) as [i Hi].
    destruct (proj1 (list_elem_of_lookup _ _) Hq) as [j Hj].
    assert (i = j) as ->; [|congruence].
    eapply (NoDup_lookup (map cp_id (db_proposals db))); [apply Hwf|by rewrite list_lookup_fmap, Hi|].
    rewrite list_lookup_fmap, Hj. cbn. by rewrite Hid.
  - exfalso. apply list_elem_of_In in Hin. pose proof (find_none _ _ E p Hin) as Hn. cbn in Hn.
    by rewrite N.eqb_refl in Hn.
Qed.

Lemma save_proposal_Ok p p' db :
  ops_wf uuid_parse db -> p ∈ db_proposals db -> cp_id p' = cp_id p ->
  cp_confirmer_token_id p' <> Some (cp_proposer_token_id p) ->
  (forall g, cp_resulting_generation p' = Some g -> exists h, h ∈ db_generations db /\ h.1 = g) ->
  exists db', save_proposal p' db = Ok db'.
Proof.
  intros Hwf Hin Hid Hne Hg. unfold save_proposal.
  destruct (existsb _ (db_proposals db)) eqn:E.
  - exfalso. apply existsb_exists in E as (q & Hq & Hc). apply andb_true_iff in Hc as [Hc1 Hc2].
    apply N.eqb_eq in Hc1. apply bool_decide_eq_true in Hc2. apply list_elem_of_In in Hq.
    pose proof (find_unique db p Hwf Hin) as Hf1. pose proof (find_unique db q Hwf Hq) as Hf2.
    rewrite Hc1, Hid, Hf1 in Hf2. injection Hf2 as <-. done.
  - destruct (cp_resulting_generation p') as [g|]; [|by eexists].
    destruct (Hg g eq_refl) as (h & Hh & <-).
    rewrite (proj2 (existsb_exists _ _)); [by eexists|]. exists h.
    split; [by apply list_elem_of_In|]. apply Z.eqb_refl.
Qed.
Lemma foldM_unit_Ok {E A} (f : A -> outcome E unit) l :
  (forall x, x ∈ l -> f x = Ok tt) -> foldM (fun _ x => f x) tt l = Ok tt.
Proof.
  induction l as [|a l IH]; intros Hf; cbn; [done|]. rewrite (Hf a) by left. cbn.
  apply IH. intros x Hx. apply Hf. by right.
Qed.

(** A settled proposal answers every further command with an error and
    changes nothing. *)
Lemma settled_final db p now cmd :
  ops_wf uuid_parse db -> p ∈ db_proposals db -> cp_status p <> Pending -> sp_id cmd = cp_id p ->
  (exists e, confirm_proposal uuid_parse now cmd db = (Err e, db)) /\
  (exists e, reject_proposal now cmd db = (Err e, db)).
Proof.
  intros Hwf Hin Hs Hid. pose proof (find_unique db p Hwf Hin) as Hf.
  unfold confirm_proposal, reject_proposal. destruct (sp_actor cmd) as [|token role]; [split; by eexists|].
  rewrite Hid, Hf. cbn [store map_err mbind outcome_bind].
  rewrite (bool_decide_eq_false_2 _ Hs). cbn [negb]. split; by eexists.
Qed.

Lemma reject_Ok db p now cmd token role :
  ops_wf uuid_parse db -> p ∈ db_proposals db -> cp_status p = Pending -> sp_id cmd = cp_id p ->
  sp_actor cmd = Admin token role ->
  cp_confirmer_token_id p = None -> cp_resulting_generation p = None ->
  exists db', reject_proposal now cmd db =
    (Ok (with_status p (if now >=? cp_expires_at p then Expired else Rejected)), db').
Proof.
  intros Hwf Hin Hs Hid Ha Hc Hr. pose proof (find_unique db p Hwf Hin) as Hf.
  unfold reject_proposal. rewrite Ha, Hid, Hf. cbn [store map_err mbind outcome_bind].
  rewrite (bool_decide_eq_true_2 _ Hs). cbn [negb].
  destruct (now >=? cp_expires_at p);
    match goal with |- context [save_proposal ?q db] =>
      destruct (save_proposal_Ok p q db Hwf Hin) as [db1 ->] end; cbn;
    rewrite ?Hc, ?Hr; try done; by eexists.
Qed.

(** The confirmation of a pending proposal whose patch still validates. *)
Lemma confirm_Ok db p now token role reason changes :
  ops_wf uuid_parse db -> p ∈ db_proposals db -> cp_status p = Pending -> now < cp_expires_at p ->
  token <> cp_proposer_token_id p ->
  (forall object k v, cp_patch p = JObject object -> (k, v) ∈ object ->
     role_may_propose uuid_parse role k = true) ->
  validate_patch up (db_entries db) (cp_patch p) = Ok changes ->
  enforce_pause_timing uuid_parse db now (cp_patch p) = Ok tt ->
  0 <= db_generation db < imax I64 -> (exists h, h ∈ db_generations db /\ h.1 = db_generation db) ->
  exists db', confirm_proposal uuid_parse now (mkSettle (Admin token role) (cp_id p) reason) db =
    (Ok (with_confirmation p token (db_generation db')), db') /\
    db_entries db' = apply_rows (db_entries db) changes /\
    (exists a, db_audit db' = db_audit db ++ [a]) /\
    settled_row p (with_confirmation p token (db_generation db')) ∈ db_proposals db'.
Proof.
  intros Hwf Hin Hs Hnow Hne Hrole Hv Ht [Hmin Hmax] Hh.
  pose proof (find_unique db p Hwf Hin) as Hf.
  assert (Hpw : patch_wf (cp_patch p)).
  { pose proof (wf_patches _ _ Hwf) as Hw. rewrite Forall_forall in Hw. by apply Hw. }
  destruct (apply_patch_Ok db now token _ _ Hwf Hpw Hmax Hmin Hv Ht) as (applied & db1 & Ha).
  destruct (apply_patch_effect _ _ _ _ _ _ _ _ Ha) as (changes' & Hp & Hg & _).
  assert (changes' = changes) as -> by (pose proof (pd_valid _ _ _ _ _ _ Hp); unfold up in Hv; congruence).
  pose proof (patched_wf _ _ _ _ _ _ Hp Hwf) as Hwf1.
  assert (Hin1 : p ∈ db_proposals db1) by by rewrite (pd_proposals _ _ _ _ _ _ Hp).
  destruct (save_proposal_Ok p (with_confirmation p token (ap_generation applied)) db1)
    as [db2 Hsave]; try done.
  { cbn. congruence. }
  { cbn. intros g [= <-]. rewrite Hg. by apply (apply_patch_header _ _ _ _ _ _ _ _ Ha). }
  pose proof (save_proposal_effect _ _ _ Hsave) as Heff.
  exists (audit_insert (settle_audit role token (with_confirmation p token (ap_generation applied))
            "confirm_config_proposal" reason) db2).
  split; [|split; [|split]].
  - unfold confirm_proposal. cbn [sp_actor sp_id sp_reason]. rewrite Hf.
    cbn [store map_err mbind outcome_bind]. rewrite (bool_decide_eq_true_2 _ Hs). cbn [negb].
    destruct (Z.geb_spec now (cp_expires_at p)); [lia|]. rewrite (bool_decide_eq_false_2 _ Hne).
    destruct (validate_patch_object _ _ _ _ Hv) as [object Ho].
    destruct (patch_keys (cp_patch p)) as [keys|e|] eqn:Hk.
    2,3: rewrite Ho in Hk, Hv; destruct object; discriminate.
    cbn [mbind outcome_bind]. rewrite foldM_unit_Ok.
    + cbn [mbind outcome_bind]. rewrite Ha. cbn [map_err mbind outcome_bind]. rewrite Hsave.
      cbn. f_equal. f_equal. rewrite Heff. cbn. by rewrite Hg.
    + intros k Hin'. unfold propose_guard. destruct (patch_keys_Ok _ _ Hk) as (o & Ho' & Hkeys).
      apply Hkeys in Hin'. apply list_elem_of_fmap in Hin'. destruct Hin' as ([k' v] & Hk' & Hkv).
      cbn in Hk'. subst k'. by rewrite (Hrole _ _ _ Ho' Hkv).
  - cbn. rewrite Heff. cbn. apply (pd_entries _ _ _ _ _ _ Hp).
  - eexists. cbn. rewrite Heff. cbn. by rewrite (pd_audit _ _ _ _ _ _ Hp).
  - cbn. replace (db_generation db2) with (ap_generation applied) by (rewrite Heff; cbn; by rewrite Hg).
    by eapply save_updates.
Qed.
End Progress.

(** ** Properties *)

Section Theorems.
Context `{UuidText} (uuid_parse : string -> option N).
Context (to_string : Value -> string) (sha256 : string -> list Z).

(** C34: Separation of duties: along any run of direct writes, proposals,
    confirmations and rejections, every committed change of a sensitive key
    belongs to a confirmed proposal whose patch contains that value and whose
    resulting generation is that of the change.  Two principals made it: the
    proposer, whose role may propose the key, and another one, who confirmed the
    proposal and made the change, and whose role, as the audit row of the
    confirmation records it, may propose the key too. *)
Theorem sensitive_changes_dual_controlled (db0 db : OpsDb) (r : ChangeRow)
    (Hwf : ops_wf uuid_parse db0) (Hrun : ops_run uuid_parse to_string sha256 db0 db)
    (Hin : r ∈ db_changes db) (Hnew : r ∉ db_changes db0)
    (Hsens : is_sensitive (uuid_ok uuid_parse) (cc_key (cr_change r)) = true) :
  dual_controlled uuid_parse db r.
Proof.
  destruct (run_ran uuid_parse to_string sha256 db0 db Hwf Hrun) as [_ [rows Hran]].
  apply (ran_dual _ _ _ _ Hran); [|done]. rewrite (ran_rows _ _ _ _ Hran) in Hin.
  apply elem_of_app in Hin as [?|?]; done.
Qed.

(** The change log is the configuration: after any run the rows newer than
    the starting generation, in the order the staleness probe reads them, form
    a history from the old entries to the current ones, one row per key and
    generation; and a configuration that was as documented with ordered limits
    still is. *)
Theorem change_log_replays (collate : string -> string -> bool) (db0 db : OpsDb)
    (Hct : forall a b, collate a b = true \/ collate b a = true)
    (Hctr : forall a b c, collate a b = true -> collate b c = true -> collate a c = true)
    (Hwf : ops_wf uuid_parse db0) (Hhead : db_generations db0 <> [])
    (Hgen : in_ty I64 (db_generation db0 + 1))
    (Hrun : ops_run uuid_parse to_string sha256 db0 db) :
  exists changes,
    fence_changes_since collate (db_generation db0) db = Ok (db_generation db, Some changes) /\
    history (db_entries db0) changes /\
    apply_rows (db_entries db0) changes = db_entries db /\
    (config_ok (uuid_ok uuid_parse) (db_entries db0) -> config_ok (uuid_ok uuid_parse) (db_entries db)).
Proof.
  destruct (run_ran uuid_parse to_string sha256 db0 db Hwf Hrun) as [_ [rows Hran]].
  destruct Hran as [[more Hh] Rr Re Rh Ra Rs Ru _ Ro _].
  destruct (same_history (db_entries db0) (map cr_change rows)
              (map cr_change (sort_by (row_le collate) rows))) as [Hh' He'].
  { intros k. by apply sort_rows_by_key. }
  exists (map cr_change (sort_by (row_le collate) rows)).
  split; [|split; [by apply Hh'|split; [by rewrite He'|done]]].
  unfold fence_changes_since. rewrite arith_in by done. cbn [mbind outcome_bind].
  destruct (db_generations db0) as [|g rest] eqn:Eg; [done|].
  pose proof (watermark_le g (rest ++ more) db ltac:(by rewrite Hh)) as Hw.
  pose proof (wf_headers _ _ Hwf) as Hle. rewrite Eg in Hle. apply Forall_cons in Hle as [Hle _].
  destruct (Z.ltb_spec (db_generation db0 + 1) (watermark db)); [lia|]. do 5 f_equal.
  rewrite Rr, List.filter_app. replace (List.filter _ (db_changes db0)) with (@nil ChangeRow).
  - cbn. clear -Ra. induction Ra as [|r rows Hr _ IH]; cbn; [done|].
    destruct (Z.ltb_spec (db_generation db0) (cr_generation r)); [|lia]. by f_equal.
  - pose proof (wf_rows _ _ Hwf) as Hrows. clear -Hrows.
    induction Hrows as [|r l Hr _ IH]; cbn; [done|].
    destruct (Z.ltb_spec (db_generation db0) (cr_generation r)); [lia|done].
Qed.

(** A pending proposal can be settled and is settled once.  Before its
    expiry a principal other than the proposer whose role covers the keys
    confirms it whenever the patch still validates against the current
    configuration; the entries are then those of the patch, the proposal is
    confirmed with the new generation and exactly one audit row is written.
    Any administrator can reject it at any time, and afterwards every further
    command on it is refused and changes nothing. *)
Theorem pending_proposal_settles (db : OpsDb) (p : ConfigProposal) (now : Z) (token : string)
    (role : AdminRole) (reason : option string) (changes : list ConfigChange)
    (Hwf : ops_wf uuid_parse db) (Hin : p ∈ db_proposals db) (Hs : cp_status p = Pending)
    (Hfresh : cp_confirmer_token_id p = None /\ cp_resulting_generation p = None)
    (Hnow : now < cp_expires_at p) (Hne : token <> cp_proposer_token_id p)
    (Hrole : forall object k v, cp_patch p = JObject object -> (k, v) ∈ object ->
               role_may_propose uuid_parse role k = true)
    (Hv : validate_patch (uuid_ok uuid_parse) (db_entries db) (cp_patch p) = Ok changes)
    (Ht : enforce_pause_timing uuid_parse db now (cp_patch p) = Ok tt)
    (Hg : 0 <= db_generation db < imax I64)
    (Hh : exists h, h ∈ db_generations db /\ h.1 = db_generation db) :
  let cmd := mkSettle (Admin token role) (cp_id p) reason in
  (exists db',
     confirm_proposal uuid_parse now cmd db =
       (Ok (with_confirmation p token (db_generation db')), db') /\
     db_entries db' = apply_rows (db_entries db) changes /\
     (exists a, db_audit db' = db_audit db ++ [a]) /\
     forall now' cmd', sp_id cmd' = cp_id p ->
       (exists e, confirm_proposal uuid_parse now' cmd' db' = (Err e, db')) /\
       (exists e, reject_proposal now' cmd' db' = (Err e, db'))) /\
  (forall now', exists db', reject_proposal now' cmd db =
     (Ok (with_status p (if now' >=? cp_expires_at p then Expired else Rejected)), db')).
Proof.
  cbn zeta. destruct Hfresh as [Hc Hr]. split.
  - destruct (confirm_Ok uuid_parse db p now token role reason changes) as (db' & Hconf & He & Ha & Hrow);
      try done.
    exists db'. do 3 (split; [done|]). intros now' cmd' Hid.
    destruct (confirm_proposal_advances uuid_parse now (mkSettle (Admin token role) (cp_id p) reason)
                db Hwf) as [Hwf' _]. rewrite Hconf in Hwf'. cbn [snd] in Hwf'.
    by apply (settled_final uuid_parse db' _ now' cmd' Hwf' Hrow).
  - intros now'. by eapply reject_Ok.
Qed.
End Theorems.

(** ** Witnesses: a fee move proposed by one principal, confirmed by another *)

Definition demo_parse (s : string) : option N :=
  if (String.length s =? 36)%nat then Some 1%N else None.

Definition demo_print (v : Value) : string := match v with JObject _ => "object" | _ => "value" end.

Definition demo_sha (s : string) : list Z := [Z.of_nat (String.length s)].

Definition demo_db0 : OpsDb :=
  mkOpsDb 1 [(1, "migration:0008")] shipped_snapshot [] [] [] [] ∅.

Definition demo_move : Value := JObject [("trade_fee_bps", JInt 115)].

Definition demo_create : CreateProposalCmd :=
  mkCreate (Admin "finance-1" Finance) (Some demo_move) None "fee move" "p-1".

Definition demo_confirm : SettleProposalCmd := mkSettle (Admin "finance-2" Finance) 7 None.

Definition demo_db1 : OpsDb :=
  (create_proposal demo_parse demo_print demo_sha 7 100 demo_create demo_db0).2.

Definition demo_db2 : OpsDb := (confirm_proposal demo_parse 200 demo_confirm demo_db1).2.

Definition demo_row : ChangeRow :=
  mkChangeRow 2 (mkConfigChange "trade_fee_bps" (Some (JInt 100)) (JInt 115)) "finance-2".

Lemma demo_wf : ops_wf demo_parse demo_db0.
Proof.
  split; cbn; [|apply Forall_nil_2..|apply NoDup_nil_2|apply Forall_nil_2].
  apply Forall_singleton. cbn. lia.
Qed.

Lemma demo_run1 : ops_run demo_parse demo_print demo_sha demo_db0 demo_db1.
Proof.
  eapply run_step; [apply run_nil|]. apply step_create. intros patch [= <-] object [= <-].
  apply (bool_decide_unpack _). vm_compute. exact I.
Qed.

Lemma demo_run : ops_run demo_parse demo_print demo_sha demo_db0 demo_db2.
Proof. eapply run_step; [apply demo_run1|]. apply step_confirm. Qed.

Lemma sensitive_changes_dual_controlled_witness :
  demo_row ∈ db_changes demo_db2 /\ dual_controlled demo_parse demo_db2 demo_row.
Proof.
  assert (Hin : demo_row ∈ db_changes demo_db2).
  { assert (E : db_changes demo_db2 = [demo_row]) by (vm_compute; reflexivity).
    rewrite E. left. }
  split; [exact Hin|].
  apply (sensitive_changes_dual_controlled demo_parse demo_print demo_sha demo_db0 demo_db2 demo_row).
  - apply demo_wf.
  - apply demo_run.
  - exact Hin.
  - apply not_elem_of_nil.
  - vm_compute. reflexivity.
Defined.

Lemma change_log_replays_witness :
  exists changes,
    fence_changes_since str_le (db_generation demo_db0) demo_db2 =
      Ok (db_generation demo_db2, Some changes) /\
    history (db_entries demo_db0) changes /\
    apply_rows (db_entries demo_db0) changes = db_entries demo_db2 /\
    (config_ok (uuid_ok demo_parse) (db_entries demo_db0) ->
     config_ok (uuid_ok demo_parse) (db_entries demo_db2)).
Proof.
  apply (change_log_replays demo_parse demo_print demo_sha str_le demo_db0 demo_db2).
  - apply str_le_total.
  - apply str_le_trans.
  - apply demo_wf.
  - discriminate.
  - unfold in_ty; cbn; lia.
  - apply demo_run.
Defined.

Definition demo_proposal : ConfigProposal :=
  mkProposal 7 "p-1" demo_move (patch_hash demo_print demo_sha demo_move) 1 "finance-1" Finance
    "fee move" Pending 1000 None None.

Lemma pending_proposal_settles_witness :
  exists db', confirm_proposal demo_parse 200 demo_confirm demo_db1 =
    (Ok (with_confirmation demo_proposal "finance-2" (db_generation db')), db').
Proof.
  destruct (pending_proposal_settles demo_parse demo_db1 demo_proposal 200 "finance-2" Finance None
              [mkConfigChange "trade_fee_bps" (Some (JInt 100)) (JInt 115)]) as [(db' & Hc & _) _].
  - eapply run_ran; [apply demo_wf|apply demo_run1].
  - assert (E : db_proposals demo_db1 = [demo_proposal]) by (vm_compute; reflexivity).
    rewrite E. left.
  - reflexivity.
  - split; reflexivity.
  - cbn. lia.
  - discriminate.
  - intros object k v [= <-] Hkv. apply list_elem_of_singleton in Hkv as [= -> ->].
    vm_compute. reflexivity.
  - vm_compute. reflexivity.
  - vm_compute. reflexivity.
  - assert (E : db_generation demo_db1 = 1) by (vm_compute; reflexivity). rewrite E. cbn. lia.
  - exists (1, "migration:0008"). assert (E : db_generations demo_db1 = [(1, "migration:0008")])
      by (vm_compute; reflexivity). rewrite E. split; [left|vm_compute; reflexivity].
  - exists db'. exact Hc.
Defined.
