(* ===== verification/Compliance.v ===== *)
(** * Compliance: the money gate, self-exclusion and dual-controlled statuses

    [application/src/money/enforcement.rs] (the gate every trade, vote, deposit
    and grant passes), [money/admin.rs] (the second gate, the egress split and
    the proposal algebra), [money/statuses.rs] (ban, unban and shadow),
    [money/self_exclusion.rs] (exclusions, deposit limits, flag clearing and
    frozen-funds licenses) and the tables behind them, [pg/compliance_tx.rs]
    and the compliance reads of [pg/credit_tx.rs].  Rows of a table are listed
    in an arbitrary physical order, which also decides ties of an [order by];
    times are integers; SHA-256 is a parameter and generated identifiers are
    arguments.  A use case maps the tables to its answer and the committed
    tables; a refused one leaves them. *)

From S2P Require Import Prelude Amm Ledger Resolution Economy Chars Errors Json Config Fences ConfigStore.
#[local] Open Scope string_scope.
#[local] Open Scope list_scope.
#[local] Open Scope Z_scope.

(** ** Vocabulary *)

Inductive MoneyMutation := PlaceTrade | CastVote | DepositAdmit | CreditGrant.

#[export] Instance MoneyMutation_eq_dec : EqDecision MoneyMutation.
Proof. solve_decision. Defined.

(** [UserMoneyStatus] of the gate and [UserStatus] of the model have the same
    constructors. *)
Inductive UserStatus := Active | ShadowLimited | Banned.

#[export] Instance UserStatus_eq_dec : EqDecision UserStatus.
Proof. solve_decision. Defined.

(** [UserMoneyStatus::parse]. *)
Definition money_status_parse (value : string) : UserStatus :=
  if bool_decide (value = "banned") then Banned
  else if bool_decide (value = "shadow_limited") then ShadowLimited
  else Active.

Definition status_name (s : UserStatus) : string :=
  match s with Active => "active" | ShadowLimited => "shadow_limited" | Banned => "banned" end.

Definition parse_user_status (raw : string) : outcome StoreError UserStatus :=
  if bool_decide (raw = "active") then Ok Active
  else if bool_decide (raw = "shadow_limited") then Ok ShadowLimited
  else if bool_decide (raw = "banned") then Ok Banned
  else Err (Store.Invariant "unknown user status").

Definition PUBLISHED_TIER0_CAP_MICRO : Z := 25000000.

Record ShadowCaps := mkShadowCaps { trade_cap_micro : Z; deposit_cap_micro : Z }.

Definition homogeneous_cap_exceeded (cap_micro : Z) : Z * Z := (cap_micro, 0).

Inductive ScreenVerdict :=
| Clear (checked_at expires_at : Z) (policy_version : string)
| Hit
| Indeterminate.

Definition allows_progress (verdict : ScreenVerdict) (now : Z) : bool :=
  match verdict with
  | Clear _ expires_at _ => expires_at >? now
  | Hit | Indeterminate => false
  end.

Definition needs_rescreen (verdict : ScreenVerdict) (now : Z) : bool :=
  match verdict with
  | Clear _ expires_at _ => expires_at <=? now
  | Indeterminate => true
  | Hit => false
  end.

Definition screen_from_row (verdict : string) (checked expires : option Z) (policy : option string) :
    ScreenVerdict :=
  if bool_decide (verdict = "hit") then Hit
  else if bool_decide (verdict = "clear") then
    match checked, expires, policy with
    | Some checked_at, Some expires_at, Some policy_version =>
        Clear checked_at expires_at policy_version
    | _, _, _ => Indeterminate
    end
  else Indeterminate.

Record SelfExclusion := mkExclusion {
  se_id : N; se_user : N; se_starts_at : Z; se_cooling_off_until : Z; se_lifted_at : option Z }.

Definition is_active (e : SelfExclusion) (now : Z) : bool :=
  negb (bool_decide (is_Some (se_lifted_at e))) && (now >=? se_starts_at e).

Definition cooling_off_elapsed (e : SelfExclusion) (now : Z) : bool :=
  now >=? se_cooling_off_until e.

Record UserDepositLimit := mkLimit {
  dl_user : N; dl_limit_micro : Z; dl_pending_limit_micro : option Z;
  dl_pending_effective_at : option Z; dl_updated_at : Z }.

Definition DEPOSIT_LIMIT_RAISE_DELAY : Z := 86400.
Definition PROPOSAL_CONFIRM_WINDOW : Z := 900.
Definition BAN_DELAY : Z := 900.
Definition FROZEN_FUNDS_DELAY : Z := 86400.

Definition effective_deposit_limit (limit : UserDepositLimit) (now : Z) : Z :=
  match dl_pending_limit_micro limit, dl_pending_effective_at limit with
  | Some pending, Some at_ => if now >=? at_ then pending else dl_limit_micro limit
  | _, _ => dl_limit_micro limit
  end.

Definition deposit_limit_after_write (current : option UserDepositLimit) (requested now : Z)
    (user : N) : UserDepositLimit :=
  let immediate := mkLimit user requested None None now in
  match (fun row => effective_deposit_limit row now) <$> current with
  | Some have =>
      if requested >? have
      then mkLimit user have (Some requested) (Some (now + DEPOSIT_LIMIT_RAISE_DELAY)) now
      else immediate
  | None => immediate
  end.

Inductive AmlKind := Structuring | DepositVelocity | WithdrawVelocity | SanctionsHit.

Definition aml_kind_str (k : AmlKind) : string :=
  match k with
  | Structuring => "structuring"
  | DepositVelocity => "deposit_velocity"
  | WithdrawVelocity => "withdraw_velocity"
  | SanctionsHit => "sanctions_hit"
  end.

Definition aml_kind_parse (raw : string) : outcome StoreError AmlKind :=
  if bool_decide (raw = "structuring") then Ok Structuring
  else if bool_decide (raw = "deposit_velocity") then Ok DepositVelocity
  else if bool_decide (raw = "withdraw_velocity") then Ok WithdrawVelocity
  else if bool_decide (raw = "sanctions_hit") then Ok SanctionsHit
  else Err (Store.Invariant "unknown aml rule").

Record AmlFlag := mkFlag {
  fl_id : N; fl_user : N; fl_rule : AmlKind; fl_window_label : string; fl_evidence : Value;
  fl_open : bool; fl_at : Z }.

Record FrozenFundsLicense := mkLicense {
  lic_id : N; lic_user : N; lic_dest : string; lic_amount_micro : Z }.

Record MoneyProposal := mkMoneyProposal {
  mp_id : N; mp_kind : string; mp_subject_id : N; mp_payload_hash : string;
  mp_proposer_token_id : string; mp_confirmer_token_id : option string; mp_reason : string;
  mp_status : ProposalStatus; mp_confirm_not_before : Z; mp_expires_at : Z;
  mp_replay_key : string; mp_created_at : Z }.

Record ComplianceDecision := mkDecision {
  cd_id : N; cd_subject_type : string; cd_subject_id : N; cd_kind : string; cd_actor : string;
  cd_at : Z; cd_payload : Value }.

(** ** The tables *)

Record UserRow := mkUser { u_handle : string; u_status : string; u_kyc_tier : Z }.

Record ScreeningRow := mkScreening {
  sr_id : N; sr_user : option N; sr_context : string; sr_verdict : string; sr_checked_at : Z;
  sr_expires_at : option Z; sr_policy_version : option string }.

Record FlagRow := mkFlagRow {
  fr_id : N; fr_user : N; fr_rule : string; fr_window_label : string; fr_evidence : Value;
  fr_status : string; fr_at : Z }.

Record ComplianceDb := mkCompliance {
  co_users : gmap N UserRow;
  co_screenings : list ScreeningRow;
  co_exclusions : list SelfExclusion;
  co_limits : gmap N UserDepositLimit;
  co_flags : list FlagRow;
  co_proposals : list MoneyProposal;
  co_decisions : list ComplianceDecision;
  co_audit : list AdminAction }.

(** [order by key desc limit 1]. *)
Fixpoint latest {A} (key : A -> Z) (l : list A) : option A :=
  match l with
  | [] => None
  | x :: l =>
      match latest key l with
      | Some y => if key x <? key y then Some y else Some x
      | None => Some x
      end
  end.

(** ** The reads of the gate *)

Definition user_status (db : ComplianceDb) (user : N) : outcome StoreError string :=
  ok_or (u_status <$> co_users db !! user) (Store.NotFound "user").

Definition user_kyc_tier (db : ComplianceDb) (user : N) : outcome StoreError Z :=
  ok_or (u_kyc_tier <$> co_users db !! user) (Store.NotFound "user").

Definition latest_screen (db : ComplianceDb) (user : N) (context : string) : option ScreeningRow :=
  latest sr_checked_at
    (List.filter (fun r => bool_decide (sr_user r = Some user) && bool_decide (sr_context r = context))
       (co_screenings db)).

Definition fresh_clear (db : ComplianceDb) (user : N) (context : string) (now : Z) : bool :=
  match latest_screen db user context with
  | None => false
  | Some row =>
      allows_progress
        (screen_from_row (sr_verdict row) (Some (sr_checked_at row)) (sr_expires_at row)
           (sr_policy_version row)) now
  end.

Definition active_self_exclusion (db : ComplianceDb) (user : N) : option SelfExclusion :=
  latest se_starts_at
    (List.filter (fun e => bool_decide (se_user e = user) && bool_decide (se_lifted_at e = None))
       (co_exclusions db)).

(** [self_excluded]: the same row, by its cooling-off. *)
Definition self_excluded (db : ComplianceDb) (user : N) (now : Z) : bool :=
  match active_self_exclusion db user with
  | Some e => se_cooling_off_until e >? now
  | None => false
  end.

(** [db_now] is the database clock, the start of the transaction. *)
Definition deposit_limit_micro (db : ComplianceDb) (db_now : Z) (user : N) : option Z :=
  (fun row =>
     match dl_pending_limit_micro row, dl_pending_effective_at row with
     | Some pending, Some at_ => if at_ <=? db_now then pending else dl_limit_micro row
     | _, _ => dl_limit_micro row
     end) <$> co_limits db !! user.

Definition required_config_flag (entries : gmap string Value) (key : string) : outcome StoreError bool :=
  match entries !! key with
  | None => Err (Store.Invariant "required money config missing")
  | Some value => ok_or (as_bool_opt value) (Store.Invariant "required money config malformed")
  end.

Definition config_i64 (entries : gmap string Value) (key : string) : option Z :=
  entries !! key ≫= as_i64_opt.

Definition required_i64 (entries : gmap string Value) (key : string) : outcome StoreError Z :=
  ok_or (config_i64 entries key) (Store.Invariant "required money config missing or malformed").

(** ** The gate *)

Record MoneyGateSnapshot := mkGate {
  mg_status : UserStatus; mg_self_excluded : bool; mg_kyc_tier : Z; mg_required_kyc_tier : Z;
  mg_geo_clear : bool; mg_sanctions_clear : bool; mg_deposit_limit_micro : option Z;
  mg_deposits_paused : bool; mg_shadow_trade_cap_micro : Z; mg_shadow_deposit_cap_micro : Z }.

Definition gate_snapshot (db : ComplianceDb) (entries : gmap string Value) (db_now : Z)
    (user : N) (now : Z) : outcome StoreError MoneyGateSnapshot :=
  status ← user_status db user;
  let status := money_status_parse status in
  let excluded := self_excluded db user now in
  kyc_tier ← user_kyc_tier db user;
  required ← required_i64 entries "deposit_kyc_tier";
  let geo_clear := fresh_clear db user "geo" now in
  let sanctions_clear := fresh_clear db user "sanctions" now in
  let limit := deposit_limit_micro db db_now user in
  paused ← required_config_flag entries "pause_deposits";
  trade_cap ← required_i64 entries "shadow_trade_cap_micro";
  deposit_cap ← required_i64 entries "shadow_deposit_cap_micro";
  Ok (mkGate status excluded kyc_tier required geo_clear sanctions_clear limit paused trade_cap
        deposit_cap).

Definition shadow_refusal (cap_micro : Z) : AppError :=
  let '(cap_micro, tier) := homogeneous_cap_exceeded cap_micro in
  App.PositionCapExceeded cap_micro tier.

Definition decide_money_mutation (snap : MoneyGateSnapshot) (kind : MoneyMutation)
    (amount_micro : Z) : outcome AppError unit :=
  if bool_decide (mg_status snap = Banned) && negb (bool_decide (kind = DepositAdmit))
  then Err (App.MoneyForbidden "user banned") else
  if mg_self_excluded snap then Err (App.MoneyForbidden "self-excluded") else
  match kind with
  | DepositAdmit =>
      if mg_deposits_paused snap then Err App.DepositsPaused else
      if mg_kyc_tier snap <? mg_required_kyc_tier snap then Err (App.ComplianceHold "kyc") else
      if negb (mg_geo_clear snap) then Err (App.ComplianceHold "geo") else
      if negb (mg_sanctions_clear snap) then Err (App.ComplianceHold "sanctions") else
      if match mg_deposit_limit_micro snap with
         | Some limit => amount_micro >? limit
         | None => false
         end
      then Err (App.ComplianceHold "deposit_limit") else
      if bool_decide (mg_status snap = ShadowLimited) &&
         (amount_micro >? mg_shadow_deposit_cap_micro snap)
      then Err (shadow_refusal (mg_shadow_deposit_cap_micro snap)) else Ok tt
  | PlaceTrade =>
      if mg_kyc_tier snap <? mg_required_kyc_tier snap then Err (App.MoneyForbidden "kyc") else
      if negb (mg_geo_clear snap) then Err (App.MoneyForbidden "geo") else
      if negb (mg_sanctions_clear snap) then Err (App.MoneyForbidden "sanctions") else
      if bool_decide (mg_status snap = ShadowLimited) &&
         (amount_micro >? mg_shadow_trade_cap_micro snap)
      then Err (shadow_refusal (mg_shadow_trade_cap_micro snap)) else Ok tt
  | CastVote =>
      if negb (mg_geo_clear snap) then Err (App.MoneyForbidden "geo") else Ok tt
  | CreditGrant =>
      if negb (bool_decide (mg_status snap = Active)) then Err (App.MoneyForbidden "status")
      else Ok tt
  end.

Definition enforce_money_mutation (db : ComplianceDb) (entries : gmap string Value) (db_now : Z)
    (user : N) (kind : MoneyMutation) (amount_micro now : Z) : outcome AppError unit :=
  snap ← store (gate_snapshot db entries db_now user now);
  decide_money_mutation snap kind amount_micro.

(** ** The second gate, [money/admin.rs] *)

Inductive GateMutation :=
| SignupGrant
| DepositAdmission (amount_micro : Z)
| GateTrade (amount_micro : Z)
| GateVote
| WithdrawRequest (dest : string) (amount_micro : Z)
| SendWithdrawal (dest : string)
| FirstTrade (amount_micro : Z).

Inductive RefuseCode :=
| AccountNotPermitted
| ExclusionRefusal
| NotEligible
| CapExceeded (cap_micro tier : Z)
| DepositLimit
| FreezeCounselOnly
| SettledDestOnly.

Inductive GateDecision := Allow | AllowWithReview | Refuse (code : RefuseCode).

Inductive EgressDisposition :=
| FreezeCounselLicenseOnly | SourceLockedRefund | SettledOnly | Ordinary.

Record UserComplianceSnapshot := mkSnap {
  us_status : UserStatus; us_kyc_tier : Z; us_kyc : ScreenVerdict; us_sanctions : ScreenVerdict;
  us_geo : ScreenVerdict; us_self_exclusion : option SelfExclusion; us_open_aml : bool;
  us_deposit_limit_micro : option Z; us_settled_dests : list string; us_required_kyc_tier : Z;
  us_shadow : ShadowCaps }.

Definition kyc_meets (have need : Z) : bool :=
  (have >=? need) && ((0 <=? have) && (have <=? 2)) && ((0 <=? need) && (need <=? 2)).

Definition is_hit (v : ScreenVerdict) : bool := match v with Hit => true | _ => false end.

Definition egress_disposition (status : UserStatus) (sanctions : ScreenVerdict)
    (excluded admission_refused screens_clear : bool) : EgressDisposition :=
  if bool_decide (status = Banned) || is_hit sanctions then FreezeCounselLicenseOnly
  else if admission_refused && screens_clear then SourceLockedRefund
  else if excluded && screens_clear then SettledOnly
  else Ordinary.

Definition enforce_self_excluded (mutation : GateMutation) (snap : UserComplianceSnapshot) :
    GateDecision :=
  match mutation with
  | WithdrawRequest dest _ | SendWithdrawal dest =>
      if existsb (fun known => bool_decide (known = dest)) (us_settled_dests snap)
      then AllowWithReview else Refuse SettledDestOnly
  | _ => Refuse ExclusionRefusal
  end.

Definition enforce_amount (amount_micro : Z) (snap : UserComplianceSnapshot) (deposit : bool) :
    GateDecision :=
  if deposit && match us_deposit_limit_micro snap with
                | Some limit => amount_micro >? limit
                | None => false
                end
  then Refuse DepositLimit else
  if bool_decide (us_status snap = ShadowLimited) then
    let cap := if deposit then deposit_cap_micro (us_shadow snap)
               else trade_cap_micro (us_shadow snap) in
    if amount_micro >? cap then
      let '(cap_micro, tier) := homogeneous_cap_exceeded cap in Refuse (CapExceeded cap_micro tier)
    else Allow
  else Allow.

Definition enforce (mutation : GateMutation) (snap : UserComplianceSnapshot) (now : Z) :
    GateDecision :=
  if bool_decide (us_status snap = Banned) then Refuse AccountNotPermitted else
  if match us_self_exclusion snap with Some ex => is_active ex now | None => false end
  then enforce_self_excluded mutation snap else
  if negb (allows_progress (us_geo snap) now) || negb (allows_progress (us_kyc snap) now)
  then Refuse NotEligible else
  if is_hit (us_sanctions snap) then Refuse AccountNotPermitted else
  if negb (allows_progress (us_sanctions snap) now) then Refuse NotEligible else
  if negb (kyc_meets (us_kyc_tier snap) (us_required_kyc_tier snap)) then Refuse NotEligible else
  match mutation with
  | SignupGrant | GateVote => Allow
  | DepositAdmission amount_micro => enforce_amount amount_micro snap true
  | GateTrade amount_micro | FirstTrade amount_micro => enforce_amount amount_micro snap false
  | WithdrawRequest _ _ =>
      if us_open_aml snap || bool_decide (us_status snap = ShadowLimited)
      then AllowWithReview else Allow
  | SendWithdrawal _ => if us_open_aml snap then Refuse NotEligible else Allow
  end.

Definition refuse_to_app_error (code : RefuseCode) : AppError :=
  match code with
  | AccountNotPermitted | FreezeCounselOnly => App.MoneyForbidden "account is not permitted"
  | ExclusionRefusal | SettledDestOnly => App.MoneyForbidden "self-exclusion is in effect"
  | NotEligible | DepositLimit => App.MoneyForbidden "not eligible"
  | CapExceeded cap_micro tier => App.PositionCapExceeded cap_micro tier
  end.

(** ** The administrative transaction, [pg/compliance_tx.rs] *)

Definition lock_user (db : ComplianceDb) (user : N) : outcome StoreError UserRow :=
  ok_or (co_users db !! user) (Store.NotFound "user").

Definition set_user_status (user : N) (status : UserStatus) (db : ComplianceDb) : ComplianceDb :=
  mkCompliance
    (alter (fun u => mkUser (u_handle u) (status_name status) (u_kyc_tier u)) user (co_users db))
    (co_screenings db) (co_exclusions db) (co_limits db) (co_flags db) (co_proposals db)
    (co_decisions db) (co_audit db).

Definition insert_self_exclusion (e : SelfExclusion) (db : ComplianceDb) :
    outcome StoreError ComplianceDb :=
  if existsb (fun r => (se_id r =? se_id e)%N) (co_exclusions db)
  then Err (Store.Integrity "self_exclusions_pkey")
  else Ok (mkCompliance (co_users db) (co_screenings db) (co_exclusions db ++ [e]) (co_limits db)
             (co_flags db) (co_proposals db) (co_decisions db) (co_audit db)).

Definition get_self_exclusion (id : N) (db : ComplianceDb) : outcome StoreError SelfExclusion :=
  ok_or (List.find (fun e => (se_id e =? id)%N) (co_exclusions db))
    (Store.NotFound "self exclusion").

Definition lift_self_exclusion (id : N) (at_ : Z) (db : ComplianceDb) :
    outcome StoreError (SelfExclusion * ComplianceDb) :=
  let db := mkCompliance (co_users db) (co_screenings db)
    (map (fun e => if (se_id e =? id)%N
       then mkExclusion (se_id e) (se_user e) (se_starts_at e) (se_cooling_off_until e) (Some at_)
       else e) (co_exclusions db))
    (co_limits db) (co_flags db) (co_proposals db) (co_decisions db) (co_audit db) in
  e ← get_self_exclusion id db;
  Ok (e, db).

Definition get_deposit_limit (user : N) (db : ComplianceDb) : option UserDepositLimit :=
  co_limits db !! user.

(** With the row's check that the limit is not negative. *)
Definition upsert_deposit_limit (limit : UserDepositLimit) (db : ComplianceDb) :
    outcome StoreError ComplianceDb :=
  if dl_limit_micro limit <? 0 then Err (Store.Integrity "user_deposit_limits_limit_micro_check")
  else Ok (mkCompliance (co_users db) (co_screenings db) (co_exclusions db)
             (<[dl_user limit := limit]> (co_limits db)) (co_flags db) (co_proposals db)
             (co_decisions db) (co_audit db)).

Definition flag_from_row (r : FlagRow) : outcome StoreError AmlFlag :=
  rule ← aml_kind_parse (fr_rule r);
  Ok (mkFlag (fr_id r) (fr_user r) rule (fr_window_label r) (fr_evidence r)
        (bool_decide (fr_status r = "open")) (fr_at r)).

Definition get_aml_flag (id : N) (db : ComplianceDb) : outcome StoreError AmlFlag :=
  r ← ok_or (List.find (fun r => (fr_id r =? id)%N) (co_flags db)) (Store.NotFound "aml flag");
  flag_from_row r.

Definition clear_aml_flag (id : N) (db : ComplianceDb) :
    outcome StoreError (AmlFlag * ComplianceDb) :=
  let db := mkCompliance (co_users db) (co_screenings db) (co_exclusions db) (co_limits db)
    (map (fun r => if (fr_id r =? id)%N
       then mkFlagRow (fr_id r) (fr_user r) (fr_rule r) (fr_window_label r) (fr_evidence r)
              "cleared" (fr_at r)
       else r) (co_flags db))
    (co_proposals db) (co_decisions db) (co_audit db) in
  f ← get_aml_flag id db;
  Ok (f, db).

Definition insert_decision (d : ComplianceDecision) (db : ComplianceDb) :
    outcome StoreError ComplianceDb :=
  if existsb (fun r => (cd_id r =? cd_id d)%N) (co_decisions db)
  then Err (Store.Integrity "compliance_decisions_pkey")
  else Ok (mkCompliance (co_users db) (co_screenings db) (co_exclusions db) (co_limits db)
             (co_flags db) (co_proposals db) (co_decisions db ++ [d]) (co_audit db)).

(** [at] is the database clock. *)
Definition insert_frozen_license (l : FrozenFundsLicense) (db_now : Z) (db : ComplianceDb) :
    outcome StoreError ComplianceDb :=
  insert_decision (mkDecision (lic_id l) "frozen_license" (lic_user l) "frozen_funds_license"
    "finance" db_now
    (JObject [("amount_micro", JInt (lic_amount_micro l)); ("dest", JString (lic_dest l))])) db.

Definition get_frozen_license (id : N) (db : ComplianceDb) : outcome StoreError FrozenFundsLicense :=
  d ← ok_or (List.find (fun d => (cd_id d =? id)%N &&
                                 bool_decide (cd_kind d = "frozen_funds_license")) (co_decisions db))
        (Store.NotFound "frozen license");
  let get k := as_object_opt (cd_payload d) ≫= field_get k in
  Ok (mkLicense (cd_id d) (cd_subject_id d) (default "" (get "dest" ≫= as_str_opt))
        (default 0 (get "amount_micro" ≫= as_i64_opt))).

(** The insert with the primary key, the unique replay key and the index that
    allows one pending proposal per kind and subject. *)
Definition proposal_insert (p : MoneyProposal) (db : ComplianceDb) :
    outcome StoreError ComplianceDb :=
  if existsb (fun q => (mp_id q =? mp_id p)%N || bool_decide (mp_replay_key q = mp_replay_key p) ||
       (bool_decide (mp_status q = Pending) && bool_decide (mp_status p = Pending) &&
        bool_decide (mp_kind q = mp_kind p) && (mp_subject_id q =? mp_subject_id p)%N))
       (co_proposals db)
  then Err (Store.Conflict "proposal replay")
  else Ok (mkCompliance (co_users db) (co_screenings db) (co_exclusions db) (co_limits db)
             (co_flags db) (co_proposals db ++ [p]) (co_decisions db) (co_audit db)).

Definition proposal_by_replay (key : string) (db : ComplianceDb) : option MoneyProposal :=
  List.find (fun p => bool_decide (mp_replay_key p = key)) (co_proposals db).

Definition proposal_by_id (id : N) (db : ComplianceDb) : outcome StoreError MoneyProposal :=
  ok_or (List.find (fun p => (mp_id p =? id)%N) (co_proposals db)) (Store.NotFound "proposal").

(** The compare-and-set on [pending], under the row's check that the two
    principals differ, and the row read back. *)
Definition proposal_confirm (id : N) (confirmer : string) (db : ComplianceDb) :
    outcome StoreError (MoneyProposal * ComplianceDb) :=
  if existsb (fun p => (mp_id p =? id)%N && bool_decide (mp_status p = Pending) &&
                       bool_decide (mp_proposer_token_id p = confirmer)) (co_proposals db)
  then Err (Store.Integrity "money_command_proposals_check1") else
  let db := mkCompliance (co_users db) (co_screenings db) (co_exclusions db) (co_limits db)
    (co_flags db)
    (map (fun p => if (mp_id p =? id)%N && bool_decide (mp_status p = Pending)
       then mkMoneyProposal (mp_id p) (mp_kind p) (mp_subject_id p) (mp_payload_hash p)
              (mp_proposer_token_id p) (Some confirmer) (mp_reason p) Confirmed
              (mp_confirm_not_before p) (mp_expires_at p) (mp_replay_key p) (mp_created_at p)
       else p) (co_proposals db))
    (co_decisions db) (co_audit db) in
  p ← proposal_by_id id db;
  Ok (p, db).

Definition admin_audit (a : AdminAction) (db : ComplianceDb) : ComplianceDb :=
  mkCompliance (co_users db) (co_screenings db) (co_exclusions db) (co_limits db) (co_flags db)
    (co_proposals db) (co_decisions db) (co_audit db ++ [a]).

(** ** Command helpers *)

Definition require_admin (actor : AdminContext) : outcome AppError (string * AdminRole) :=
  match actor with
  | Admin token_digest role => Ok (token_digest, role)
  | Machine => Err (App.AdminForbidden "compliance commands require an admin actor")
  end.

Definition require_role (role : AdminRole) (allowed : list AdminRole) : outcome AppError unit :=
  if bool_decide (role ∈ allowed) then Ok tt
  else Err (App.AdminForbidden "role is not permitted for this compliance command").

Definition require_distinct_tokens (proposer confirmer : string) : outcome AppError unit :=
  if bool_decide (proposer = confirmer)
  then Err (App.AdminForbidden "confirmer token must be distinct from proposer") else Ok tt.

Definition new_proposal (fresh : N) (kind : string) (subject : N) (hash proposer reason replay : string)
    (delay now : Z) : MoneyProposal :=
  mkMoneyProposal fresh kind subject hash proposer None reason Pending (now + delay)
    (now + delay + PROPOSAL_CONFIRM_WINDOW) replay now.

(** The characters of a UTF-8 string. *)
Fixpoint utf8_chars (bytes : list Z) : str :=
  match bytes with
  | [] => []
  | a :: rest =>
      if a <? 128 then a :: utf8_chars rest else
      match rest with
      | [] => []
      | b :: rest =>
          if a <? 224 then ((a - 192) * 64 + (b - 128)) :: utf8_chars rest else
          match rest with
          | [] => []
          | c :: rest =>
              if a <? 240 then ((a - 224) * 4096 + (b - 128) * 64 + (c - 128)) :: utf8_chars rest
              else match rest with
              | [] => []
              | d :: rest =>
                  ((a - 240) * 262144 + (b - 128) * 4096 + (c - 128) * 64 + (d - 128))
                    :: utf8_chars rest
              end
          end
      end
  end.

(** [text.trim().is_empty()]. *)
Definition blank (text : string) : bool := is_empty (trim (utf8_chars (lit text))).

Definition require_reason (reason : string) : outcome AppError unit :=
  if blank reason then Err (App.AdminForbidden "reason is required") else Ok tt.

(** A use case: an error drops the transaction. *)
Definition atomic {D A} (db : D) (m : outcome AppError (A * D)) : outcome AppError A * D :=
  match m with
  | Ok (a, db') => (Ok a, db')
  | Err e => (Err e, db)
  | Panic => (Panic, db)
  end.

Definition text_of (s : str) : string :=
  String.string_of_list_ascii (map (fun c => Ascii.ascii_of_N (Z.to_N c)) s).

Section Commands.
Context `{UuidText} (to_string : Value -> string) (sha256 : string -> list Z).

Definition payload_hash (bytes : string) : string := hex_of (sha256 bytes).

Definition status_replay_key (kind : string) (user : N) (epoch : Z) : string :=
  kind +:+ ":" +:+ uuid_text user +:+ ":" +:+ text_of (show_i64 epoch).

(** *** [statuses.rs] *)

Definition status_payload (target : UserStatus) : Value :=
  JObject [("target", JString (status_name target))].

Definition propose_status (fresh : N) (actor : AdminContext) (user : N) (target : UserStatus)
    (reason : string) (epoch now : Z) (db : ComplianceDb) :
    outcome AppError MoneyProposal * ComplianceDb :=
  atomic db (
    '(digest, role) ← require_admin actor;
    _ ← require_role role [Ops];
    _ ← require_reason reason;
    kind ← match target with
           | Banned => Ok "ban_user"
           | Active => Ok "unban_user"
           | ShadowLimited => Err (App.AdminForbidden "shadow-limit is a single-ops command")
           end;
    let replay := status_replay_key "user_status" user epoch in
    let hash := payload_hash (to_string (status_payload target)) in
    _ ← store (lock_user db user);
    match proposal_by_replay replay db with
    | Some existing =>
        if bool_decide (mp_payload_hash existing = hash) then Ok (existing, db)
        else Err (App.ProposalConflict "replay key was reused with a different payload")
    | None =>
        let p := new_proposal fresh kind user hash digest reason replay BAN_DELAY now in
        db ← store (proposal_insert p db);
        Ok (p, admin_audit (mkAdminAction role digest ("propose_" +:+ kind)
                 ("user:" +:+ uuid_text user) None (Some (status_payload target)) (Some reason)) db)
    end).

Definition confirm_status (actor : AdminContext) (id : N) (now : Z) (db : ComplianceDb) :
    outcome AppError UserStatus * ComplianceDb :=
  atomic db (
    '(digest, role) ← require_admin actor;
    _ ← require_role role [Superadmin];
    p ← store (proposal_by_id id db);
    _ ← require_distinct_tokens (mp_proposer_token_id p) digest;
    if negb (bool_decide (mp_status p = Pending))
    then Err (App.ProposalConflict "proposal is not pending") else
    if now <? mp_confirm_not_before p
    then Err (App.ProposalConflict "confirm_not_before has not elapsed") else
    if now >? mp_expires_at p then Err (App.ProposalConflict "proposal expired") else
    target ← (if bool_decide (mp_kind p = "ban_user") then Ok Banned
              else if bool_decide (mp_kind p = "unban_user") then Ok Active
              else Err (App.ProposalConflict "not a status proposal"));
    _ ← store (lock_user db (mp_subject_id p));
    '(confirmed, db) ← store (proposal_confirm id digest db);
    let db := set_user_status (mp_subject_id p) target db in
    Ok (target, admin_audit (mkAdminAction role digest ("confirm_" +:+ mp_kind confirmed)
          ("user:" +:+ uuid_text (mp_subject_id p)) None
          (Some (JObject [("status", JString (status_name target))])) (Some (mp_reason p))) db)).

Definition set_shadow (actor : AdminContext) (user : N) (shadow : bool) (reason : string)
    (db : ComplianceDb) : outcome AppError UserStatus * ComplianceDb :=
  atomic db (
    '(digest, role) ← require_admin actor;
    _ ← require_role role [Ops];
    _ ← require_reason reason;
    let target := if shadow then ShadowLimited else Active in
    before ← store (lock_user db user);
    let db := set_user_status user target db in
    Ok (target, admin_audit (mkAdminAction role digest (if shadow then "shadow_limit" else "unshadow")
          ("user:" +:+ uuid_text user)
          (Some (JObject [("status", JString (u_status before))]))
          (Some (JObject [("status", JString (status_name target))])) (Some reason)) db)).

(** *** [self_exclusion.rs] *)

Definition start_self_exclusion (fresh_exclusion fresh_decision : N) (user : N) (cooling_off now : Z)
    (db : ComplianceDb) : outcome AppError SelfExclusion * ComplianceDb :=
  atomic db (
    if cooling_off <=? 0 then Err (App.AdminForbidden "cooling-off must be positive") else
    _ ← store (lock_user db user);
    if bool_decide (is_Some (active_self_exclusion db user))
    then Err (App.AdminForbidden "self-exclusion is already active") else
    let e := mkExclusion fresh_exclusion user now (now + cooling_off) None in
    db ← store (insert_self_exclusion e db);
    db ← store (insert_decision (mkDecision fresh_decision "self_exclusion" (se_id e) "start" "user"
           now (JObject [("cooling_off_until", JInt (se_cooling_off_until e))])) db);
    Ok (e, db)).

Definition lift_replay_key (id : N) : string := "lift_self_exclusion:" +:+ uuid_text id.

Definition propose_lift (fresh : N) (actor : AdminContext) (exclusion_id : N) (reason : string)
    (now : Z) (db : ComplianceDb) : outcome AppError MoneyProposal * ComplianceDb :=
  atomic db (
    '(digest, role) ← require_admin actor;
    _ ← require_role role [Finance];
    _ ← require_reason reason;
    e ← store (get_self_exclusion exclusion_id db);
    if negb (cooling_off_elapsed e now)
    then Err (App.ProposalConflict "cooling-off has not elapsed") else
    if bool_decide (is_Some (se_lifted_at e)) then Err (App.ProposalConflict "already lifted") else
    let replay := lift_replay_key (se_id e) in
    match proposal_by_replay replay db with
    | Some existing => Ok (existing, db)
    | None =>
        let p := new_proposal fresh "lift_self_exclusion" (se_id e) (payload_hash replay) digest
                   reason replay 0 now in
        db ← store (proposal_insert p db);
        Ok (p, admin_audit (mkAdminAction role digest "propose_lift_self_exclusion"
                 ("self_exclusion:" +:+ uuid_text (se_id e)) None None (Some reason)) db)
    end).

Definition confirm_lift (actor : AdminContext) (id : N) (now : Z) (db : ComplianceDb) :
    outcome AppError SelfExclusion * ComplianceDb :=
  atomic db (
    '(digest, role) ← require_admin actor;
    _ ← require_role role [Superadmin];
    p ← store (proposal_by_id id db);
    _ ← require_distinct_tokens (mp_proposer_token_id p) digest;
    if negb (bool_decide (mp_kind p = "lift_self_exclusion"))
    then Err (App.ProposalConflict "not a lift proposal") else
    if negb (bool_decide (mp_status p = Pending))
    then Err (App.ProposalConflict "proposal is not pending") else
    if (now <? mp_confirm_not_before p) || (now >? mp_expires_at p)
    then Err (App.ProposalConflict "proposal not confirmable") else
    e ← store (get_self_exclusion (mp_subject_id p) db);
    if negb (cooling_off_elapsed e now)
    then Err (App.ProposalConflict "cooling-off has not elapsed") else
    '(_, db) ← store (proposal_confirm id digest db);
    '(lifted, db) ← store (lift_self_exclusion (se_id e) now db);
    Ok (lifted, admin_audit (mkAdminAction role digest "confirm_lift_self_exclusion"
          ("self_exclusion:" +:+ uuid_text (se_id e)) None
          (Some (JObject [("lifted_at", JInt now)])) (Some (mp_reason p))) db)).

Definition set_deposit_limit (user : N) (requested now : Z) (db : ComplianceDb) :
    outcome AppError UserDepositLimit * ComplianceDb :=
  atomic db (
    if requested <? 0 then Err (App.AdminForbidden "limit must be non-negative") else
    _ ← store (lock_user db user);
    let next := deposit_limit_after_write (get_deposit_limit user db) requested now user in
    db ← store (upsert_deposit_limit next db);
    Ok (next, db)).

Definition propose_clear_flag (fresh : N) (actor : AdminContext) (flag_id : N) (reason : string)
    (now : Z) (db : ComplianceDb) : outcome AppError MoneyProposal * ComplianceDb :=
  atomic db (
    '(digest, role) ← require_admin actor;
    _ ← require_role role [Finance];
    _ ← require_reason reason;
    f ← store (get_aml_flag flag_id db);
    if negb (fl_open f) then Err (App.ProposalConflict "flag is not open") else
    let replay := "clear_aml:" +:+ uuid_text (fl_id f) in
    match proposal_by_replay replay db with
    | Some existing => Ok (existing, db)
    | None =>
        let p := new_proposal fresh "clear_aml" (fl_id f) (payload_hash replay) digest reason
                   replay 0 now in
        db ← store (proposal_insert p db);
        Ok (p, admin_audit (mkAdminAction role digest "propose_clear_aml"
                 ("aml:" +:+ uuid_text (fl_id f)) None None (Some reason)) db)
    end).

Definition confirm_clear_flag (actor : AdminContext) (id : N) (now : Z) (db : ComplianceDb) :
    outcome AppError AmlFlag * ComplianceDb :=
  atomic db (
    '(digest, role) ← require_admin actor;
    _ ← require_role role [Superadmin];
    p ← store (proposal_by_id id db);
    _ ← require_distinct_tokens (mp_proposer_token_id p) digest;
    if negb (bool_decide (mp_kind p = "clear_aml")) || negb (bool_decide (mp_status p = Pending))
    then Err (App.ProposalConflict "not a pending clear") else
    if (now <? mp_confirm_not_before p) || (now >? mp_expires_at p)
    then Err (App.ProposalConflict "proposal not confirmable") else
    '(_, db) ← store (proposal_confirm id digest db);
    '(cleared, db) ← store (clear_aml_flag (mp_subject_id p) db);
    Ok (cleared, admin_audit (mkAdminAction role digest "confirm_clear_aml"
          ("aml:" +:+ uuid_text (mp_subject_id p)) None
          (Some (JObject [("open", JBool false)])) (Some (mp_reason p))) db)).

Definition propose_frozen_license (fresh : N) (actor : AdminContext) (license : FrozenFundsLicense)
    (reason : string) (now db_now : Z) (db : ComplianceDb) :
    outcome AppError MoneyProposal * ComplianceDb :=
  atomic db (
    '(digest, role) ← require_admin actor;
    _ ← require_role role [Finance];
    if blank reason || blank (lic_dest license)
    then Err (App.AdminForbidden "reason and counsel-shaped dest are required") else
    if lic_amount_micro license <=? 0 then Err (App.AdminForbidden "amount must be positive") else
    _ ← store (lock_user db (lic_user license));
    db ← store (insert_frozen_license license db_now db);
    let replay := "frozen_funds_license:" +:+ uuid_text (lic_id license) in
    let p := new_proposal fresh "frozen_funds_license" (lic_id license)
               (payload_hash (lic_dest license)) digest reason replay FROZEN_FUNDS_DELAY now in
    db ← store (proposal_insert p db);
    Ok (p, admin_audit (mkAdminAction role digest "propose_frozen_funds_license"
             ("license:" +:+ uuid_text (lic_id license)) None
             (Some (JObject [("dest", JString (lic_dest license))])) (Some reason)) db)).

Definition confirm_frozen_license (actor : AdminContext) (id : N) (now : Z) (db : ComplianceDb) :
    outcome AppError FrozenFundsLicense * ComplianceDb :=
  atomic db (
    '(digest, role) ← require_admin actor;
    _ ← require_role role [Superadmin];
    p ← store (proposal_by_id id db);
    _ ← require_distinct_tokens (mp_proposer_token_id p) digest;
    if negb (bool_decide (mp_kind p = "frozen_funds_license")) ||
       negb (bool_decide (mp_status p = Pending))
    then Err (App.ProposalConflict "not a pending license") else
    if (now <? mp_confirm_not_before p) || (now >? mp_expires_at p)
    then Err (App.ProposalConflict "proposal not confirmable") else
    '(_, db) ← store (proposal_confirm id digest db);
    license ← store (get_frozen_license (mp_subject_id p) db);
    Ok (license, admin_audit (mkAdminAction role digest "confirm_frozen_funds_license"
          ("license:" +:+ uuid_text (lic_id license)) None
          (Some (JObject [("dest", JString (lic_dest license))])) (Some (mp_reason p))) db)).
End Commands.

(** ** Specification *)

(** What the tables must hold for a trade to pass the gate: an unbanned user
    with no running cooling-off, the configured tier, a latest geo and a latest
    sanctions screening that are both clear and unexpired, every policy row
    present and typed, and the shadow cap respected. *)
Definition screened (db : ComplianceDb) (user : N) (context : string) (now : Z) : Prop :=
  exists row expires policy, latest_screen db user context = Some row /\
    sr_verdict row = "clear" /\ sr_expires_at row = Some expires /\ now < expires /\
    sr_policy_version row = Some policy.

Definition trade_permitted (db : ComplianceDb) (entries : gmap string Value) (user : N)
    (amount now : Z) : Prop :=
  exists u tier paused trade_cap deposit_cap,
    co_users db !! user = Some u /\ u_status u <> "banned" /\
    (forall e, active_self_exclusion db user = Some e -> se_cooling_off_until e <= now) /\
    config_i64 entries "deposit_kyc_tier" = Some tier /\ tier <= u_kyc_tier u /\
    screened db user "geo" now /\ screened db user "sanctions" now /\
    entries !! "pause_deposits" = Some (JBool paused) /\
    config_i64 entries "shadow_trade_cap_micro" = Some trade_cap /\
    config_i64 entries "shadow_deposit_cap_micro" = Some deposit_cap /\
    (u_status u = "shadow_limited" -> amount <= trade_cap).

Definition status_of (db : ComplianceDb) (user : N) : option string := u_status <$> co_users db !! user.

Section Runs.
Context `{UuidText} (to_string : Value -> string) (sha256 : string -> list Z).

(** One use case at time [now], whatever its answer. *)
Inductive comp_step (now : Z) : ComplianceDb -> ComplianceDb -> Prop :=
| cs_propose_status fresh actor user target reason epoch db :
    comp_step now db (propose_status to_string sha256 fresh actor user target reason epoch now db).2
| cs_confirm_status actor id db : comp_step now db (confirm_status actor id now db).2
| cs_set_shadow actor user shadow reason db :
    comp_step now db (set_shadow actor user shadow reason db).2
| cs_start f1 f2 user cooling_off db :
    comp_step now db (start_self_exclusion f1 f2 user cooling_off now db).2
| cs_propose_lift fresh actor id reason db :
    comp_step now db (propose_lift sha256 fresh actor id reason now db).2
| cs_confirm_lift actor id db : comp_step now db (confirm_lift actor id now db).2
| cs_limit user requested db : comp_step now db (set_deposit_limit user requested now db).2
| cs_propose_clear fresh actor id reason db :
    comp_step now db (propose_clear_flag sha256 fresh actor id reason now db).2
| cs_confirm_clear actor id db : comp_step now db (confirm_clear_flag actor id now db).2
| cs_propose_license fresh actor license reason db_now db :
    comp_step now db (propose_frozen_license sha256 fresh actor license reason now db_now db).2
| cs_confirm_license actor id db : comp_step now db (confirm_frozen_license actor id now db).2.

(** A run all of whose steps happen at [t] or later. *)
Inductive comp_run (t : Z) : ComplianceDb -> ComplianceDb -> Prop :=
| comp_refl db : comp_run t db db
| comp_next now db db' db'' :
    comp_run t db db' -> t <= now -> comp_step now db' db'' -> comp_run t db db''.

Record proposals_wf (l : list MoneyProposal) : Prop := {
  pw_proposal_ids : NoDup (map mp_id l);
  pw_replay : NoDup (map mp_replay_key l);
  pw_pending : forall p q, p ∈ l -> q ∈ l -> mp_status p = Pending -> mp_status q = Pending ->
    mp_kind p = mp_kind q -> mp_subject_id p = mp_subject_id q -> p = q;
  pw_lift : forall p, p ∈ l -> mp_kind p = "lift_self_exclusion" ->
    mp_replay_key p = lift_replay_key (mp_subject_id p);
  pw_delay : forall p, p ∈ l -> mp_kind p = "ban_user" \/ mp_kind p = "unban_user" ->
    mp_confirm_not_before p = mp_created_at p + BAN_DELAY;
  pw_window : forall p, p ∈ l ->
    mp_expires_at p = mp_confirm_not_before p + PROPOSAL_CONFIRM_WINDOW }.

Record exclusions_wf (l : list SelfExclusion) : Prop := {
  ew_ids : NoDup (map se_id l);
  ew_one_active : forall e e', e ∈ l -> e' ∈ l -> se_lifted_at e = None -> se_lifted_at e' = None ->
    se_user e = se_user e' -> e = e' }.

Definition comp_wf (db : ComplianceDb) : Prop :=
  proposals_wf (co_proposals db) /\ exclusions_wf (co_exclusions db).

(** ** Lemmas: what a step does to the tables *)

Definition confirmed (p : MoneyProposal) (by_token : string) : MoneyProposal :=
  mkMoneyProposal (mp_id p) (mp_kind p) (mp_subject_id p) (mp_payload_hash p)
    (mp_proposer_token_id p) (Some by_token) (mp_reason p) Confirmed
    (mp_confirm_not_before p) (mp_expires_at p) (mp_replay_key p) (mp_created_at p).

Definition lifted (e : SelfExclusion) (at_ : Z) : SelfExclusion :=
  mkExclusion (se_id e) (se_user e) (se_starts_at e) (se_cooling_off_until e) (Some at_).

(** A confirmation inside its window by a second principal. *)
Record confirmation (now : Z) (db db' : ComplianceDb) (p : MoneyProposal) (by_token : string) : Prop := {
  cf_found : proposal_by_id (mp_id p) db = Ok p;
  cf_pending : mp_status p = Pending;
  cf_distinct : mp_proposer_token_id p <> by_token;
  cf_window : mp_confirm_not_before p <= now <= mp_expires_at p;
  cf_table : co_proposals db' =
    map (fun q => if (mp_id q =? mp_id p)%N && bool_decide (mp_status q = Pending)
                  then confirmed q by_token else q) (co_proposals db) }.

Inductive effect (now : Z) (db db' : ComplianceDb) : Prop :=
| eff_none :
    co_users db' = co_users db -> co_exclusions db' = co_exclusions db ->
    co_proposals db' = co_proposals db -> effect now db db'
| eff_new p :
    co_users db' = co_users db -> co_exclusions db' = co_exclusions db ->
    co_proposals db' = co_proposals db ++ [p] -> mp_status p = Pending ->
    Forall (fun q => mp_id q <> mp_id p /\ mp_replay_key q <> mp_replay_key p /\
      ~ (mp_status q = Pending /\ mp_kind q = mp_kind p /\ mp_subject_id q = mp_subject_id p))
      (co_proposals db) ->
    mp_expires_at p = mp_confirm_not_before p + PROPOSAL_CONFIRM_WINDOW ->
    (mp_kind p = "ban_user" \/ mp_kind p = "unban_user" ->
       mp_confirm_not_before p = mp_created_at p + BAN_DELAY) ->
    (mp_kind p = "lift_self_exclusion" -> mp_replay_key p = lift_replay_key (mp_subject_id p)) ->
    effect now db db'
| eff_status p by_token target :
    confirmation now db db' p by_token ->
    (target = Banned /\ mp_kind p = "ban_user" \/ target = Active /\ mp_kind p = "unban_user") ->
    co_users db' = co_users (set_user_status (mp_subject_id p) target db) ->
    co_exclusions db' = co_exclusions db ->
    (exists a, co_audit db' = co_audit db ++ [a] /\ aa_digest a = by_token /\ aa_role a = Superadmin /\
       aa_subject a = "user:" +:+ uuid_text (mp_subject_id p)) -> effect now db db'
| eff_lift p by_token e :
    confirmation now db db' p by_token -> mp_kind p = "lift_self_exclusion" ->
    get_self_exclusion (mp_subject_id p) db = Ok e -> se_cooling_off_until e <= now ->
    co_users db' = co_users db ->
    co_exclusions db' = map (fun x => if (se_id x =? se_id e)%N then lifted x now else x)
                          (co_exclusions db) -> effect now db db'
| eff_other p by_token :
    confirmation now db db' p by_token -> mp_kind p = "clear_aml" \/ mp_kind p = "frozen_funds_license" ->
    co_users db' = co_users db -> co_exclusions db' = co_exclusions db -> effect now db db'
| eff_shadow user target by_token :
    target <> Banned -> co_users db' = co_users (set_user_status user target db) ->
    co_exclusions db' = co_exclusions db -> co_proposals db' = co_proposals db ->
    (exists a, co_audit db' = co_audit db ++ [a] /\ aa_digest a = by_token /\ aa_role a = Ops) ->
    effect now db db'
| eff_start e :
    co_users db' = co_users db -> co_proposals db' = co_proposals db ->
    co_exclusions db' = co_exclusions db ++ [e] -> se_lifted_at e = None ->
    active_self_exclusion db (se_user e) = None ->
    Forall (fun x => se_id x <> se_id e) (co_exclusions db) -> effect now db db'.
End Runs.

(** [inv_tx H] takes a committed use case apart. *)
Ltac inv_tx H :=
  repeat first
    [ let a := fresh "v" in let Ha := fresh "Hr" in
      apply bind_Ok in H; destruct H as (a & Ha & H);
      match type of a with (_ * _)%type => destruct a as [? ?] | unit => destruct a | _ => idtac end
    | match type of H with
      | (let _ := _ in _) = Ok _ => cbv zeta in H
      | (if ?c then Err _ else _) = Ok _ => let Hc := fresh "Hc" in destruct c eqn:Hc; [discriminate H|]
      | match proposal_by_replay ?k ?d with _ => _ end = Ok _ =>
          let Hc := fresh "Hc" in destruct (proposal_by_replay k d) eqn:Hc
      end ].

Ltac tx_hyps :=
  repeat match goal with
  | H : store _ = Ok _ |- _ => apply store_Ok in H
  | H : bool_decide _ = true |- _ => apply bool_decide_eq_true in H
  | H : bool_decide _ = false |- _ => apply bool_decide_eq_false in H
  | H : (_ >? _) = false |- _ => rewrite Z.gtb_ltb in H
  | H : (_ >=? _) = true |- _ => rewrite Z.geb_leb in H
  | _ => progress bool_hyps
  end.

Lemma atomic_cases {D A} (db : D) (m : outcome AppError (A * D)) (P : D -> Prop) :
  P db -> (forall a db', m = Ok (a, db') -> P db') -> P (atomic db m).2.
Proof. intros H1 H2. destruct m as [[a db']|e|]; cbn; [by eapply H2|done|done]. Qed.

Lemma atomic_refused {D A} (db db' : D) (m : outcome AppError (A * D)) answer :
  atomic db m = (answer, db') -> (forall a, answer <> Ok a) -> db' = db.
Proof. destruct m as [[a d]|e|]; cbn; intros [= <- <-] Hn; [by destruct (Hn a)|done|done]. Qed.

Lemma atomic_answer {D A} (db db' : D) (m : outcome AppError (A * D)) a :
  atomic db m = (Ok a, db') -> m = Ok (a, db').
Proof. by destruct m as [[]| |]; intros [= -> ->]. Qed.

Lemma pair_run {A B} (x : A * B) a : x.1 = a -> x = (a, x.2).
Proof. intros <-. apply surjective_pairing. Qed.

Lemma require_distinct_Ok p c : require_distinct_tokens p c = Ok tt -> p <> c.
Proof. unfold require_distinct_tokens. by case_bool_decide. Qed.

Lemma require_admin_Ok actor d r : require_admin actor = Ok (d, r) -> actor = Admin d r.
Proof. destruct actor; cbn; [done|by intros [= -> ->]]. Qed.

Lemma require_role_Ok role allowed : require_role role allowed = Ok tt -> role ∈ allowed.
Proof. unfold require_role. by case_bool_decide. Qed.

Lemma proposal_insert_Ok p db db' :
  proposal_insert p db = Ok db' -> mp_status p = Pending ->
  db' = mkCompliance (co_users db) (co_screenings db) (co_exclusions db) (co_limits db)
          (co_flags db) (co_proposals db ++ [p]) (co_decisions db) (co_audit db) /\
  Forall (fun q => mp_id q <> mp_id p /\ mp_replay_key q <> mp_replay_key p /\
    ~ (mp_status q = Pending /\ mp_kind q = mp_kind p /\ mp_subject_id q = mp_subject_id p))
    (co_proposals db).
Proof.
  unfold proposal_insert. intros Hi Hp. destruct (existsb _ _) eqn:E; [discriminate|].
  injection Hi as <-. split; [done|]. apply not_true_iff_false in E.
  apply Forall_forall. intros q Hq. rewrite existsb_exists in E. split_and!; [intros Hx..|].
  - apply E. exists q. split; [by apply list_elem_of_In|]. by rewrite Hx, N.eqb_refl.
  - apply E. exists q. split; [by apply list_elem_of_In|].
    rewrite (bool_decide_eq_true_2 _ Hx). by rewrite orb_true_r.
  - intros (H1 & H2 & H3). apply E. exists q. split; [by apply list_elem_of_In|].
    apply orb_true_iff. right.
    by rewrite (bool_decide_eq_true_2 _ H1), (bool_decide_eq_true_2 _ Hp), (bool_decide_eq_true_2 _ H2),
      H3, N.eqb_refl.
Qed.

Lemma proposal_confirm_Ok id c db q db' :
  proposal_confirm id c db = Ok (q, db') ->
  db' = mkCompliance (co_users db) (co_screenings db) (co_exclusions db) (co_limits db) (co_flags db)
    (map (fun p => if (mp_id p =? id)%N && bool_decide (mp_status p = Pending)
                   then confirmed p c else p) (co_proposals db))
    (co_decisions db) (co_audit db) /\
  proposal_by_id id db' = Ok q.
Proof.
  unfold proposal_confirm. destruct (existsb _ _); [discriminate|]. intros Hr.
  apply bind_Ok in Hr as (p & Hp & [= <- <-]). done.
Qed.

Lemma proposal_by_id_Ok id db p : proposal_by_id id db = Ok p -> p ∈ co_proposals db /\ mp_id p = id.
Proof.
  intros Hp%ok_or_Ok. apply find_some in Hp as [Hi He%N.eqb_eq]. split; [by apply list_elem_of_In|done].
Qed.

(** What every confirming use case establishes. *)
Lemma confirmation_intro now db db1 db' id c p q :
  proposal_by_id id db = Ok p -> require_distinct_tokens (mp_proposer_token_id p) c = Ok tt ->
  mp_status p = Pending -> mp_confirm_not_before p <= now -> now <= mp_expires_at p ->
  proposal_confirm id c db = Ok (q, db1) -> co_proposals db' = co_proposals db1 ->
  confirmation now db db' p c.
Proof.
  intros Hf Hd Hs H1 H2 Hc Ht. pose proof (proposal_by_id_Ok _ _ _ Hf) as [_ Hid].
  apply proposal_confirm_Ok in Hc as [-> _]. split; try done.
  - by rewrite Hid.
  - by apply require_distinct_Ok.
  - by rewrite Ht, Hid.
Qed.

(** Every proposing use case inserts a pending proposal with the matrix delay. *)
Lemma new_effect `{UuidText} now db db0 db1 db' fresh kind subject hash proposer reason replay delay :
  proposal_insert (new_proposal fresh kind subject hash proposer reason replay delay now) db0 = Ok db1 ->
  co_users db0 = co_users db -> co_exclusions db0 = co_exclusions db ->
  co_proposals db0 = co_proposals db ->
  (kind = "ban_user" \/ kind = "unban_user" -> delay = BAN_DELAY) ->
  (kind = "lift_self_exclusion" -> replay = lift_replay_key subject) ->
  co_users db' = co_users db1 -> co_exclusions db' = co_exclusions db1 ->
  co_proposals db' = co_proposals db1 -> effect now db db'.
Proof.
  intros Hi E1 E2 E3 Hd Hl H1 H2 H3. apply proposal_insert_Ok in Hi as [-> Hf]; [|done].
  cbn in *. rewrite E1 in H1. rewrite E2 in H2. rewrite E3 in H3, Hf.
  eapply eff_new; [exact H1|exact H2|exact H3|done|exact Hf|done| |exact Hl].
  cbn. intros Hk. by rewrite (Hd Hk).
Qed.

Section StepEffect.
Context `{UuidText} (to_string : Value -> string) (sha256 : string -> list Z).

Lemma propose_status_effect fresh actor user target reason epoch now db :
  effect now db (propose_status to_string sha256 fresh actor user target reason epoch now db).2.
Proof.
  apply (atomic_cases _ _ (effect now db)); [by constructor|]. intros a db' Hr. inv_tx Hr.
  - case_bool_decide; [injection Hr as <- <-; by constructor|discriminate].
  - injection Hr as <- <-. eapply new_effect; [eapply store_Ok; eassumption|done..| |done|done|done].
    destruct target; congruence.
Qed.

Lemma confirm_status_effect actor id now db : effect now db (confirm_status actor id now db).2.
Proof.
  apply (atomic_cases _ _ (effect now db)); [by constructor|]. intros a db' Hr. inv_tx Hr.
  injection Hr as <- <-. tx_hyps. apply require_role_Ok, list_elem_of_singleton in Hr1 as ->.
  eapply eff_status; [by eapply confirmation_intro|..].
  - repeat case_bool_decide; try discriminate; naive_solver.
  - apply proposal_confirm_Ok in Hr6 as [-> _]. done.
  - apply proposal_confirm_Ok in Hr6 as [-> _]. done.
  - apply proposal_confirm_Ok in Hr6 as [-> _]. by eexists.
Qed.

Lemma set_shadow_effect actor user shadow reason now db :
  effect now db (set_shadow actor user shadow reason db).2.
Proof.
  apply (atomic_cases _ _ (effect now db)); [by constructor|]. intros a db' Hr. inv_tx Hr.
  injection Hr as <- <-. apply require_role_Ok, list_elem_of_singleton in Hr1 as ->.
  eapply (eff_shadow _ _ _ user); [|done|done|done|by eexists; split_and!]. by destruct shadow.
Qed.

Lemma start_effect f1 f2 user cooling_off now db :
  effect now db (start_self_exclusion f1 f2 user cooling_off now db).2.
Proof.
  apply (atomic_cases _ _ (effect now db)); [by constructor|]. intros a db' Hr. inv_tx Hr.
  injection Hr as <- <-. tx_hyps. unfold insert_self_exclusion in Hr1.
  destruct (existsb _ _) eqn:E in Hr1; [discriminate|]. injection Hr1 as <-.
  unfold insert_decision in Hr2. destruct (existsb _ _) in Hr2; [discriminate|]. injection Hr2 as <-.
  apply (eff_start _ _ _ (mkExclusion f1 user now (now + cooling_off) None)); try done.
  - cbn. by apply eq_None_not_Some.
  - apply Forall_forall. intros x Hx Heq. apply not_true_iff_false in E. apply E, existsb_exists.
    exists x. rewrite Heq, N.eqb_refl. split; [by apply list_elem_of_In|done].
Qed.

Lemma propose_lift_effect fresh actor id reason now db :
  effect now db (propose_lift sha256 fresh actor id reason now db).2.
Proof.
  apply (atomic_cases _ _ (effect now db)); [by constructor|]. intros a db' Hr. inv_tx Hr.
  - injection Hr as <- <-. by constructor.
  - injection Hr as <- <-. tx_hyps. eapply new_effect; [eassumption|naive_solver..].
Qed.

Lemma confirm_lift_effect actor id now db : effect now db (confirm_lift actor id now db).2.
Proof.
  apply (atomic_cases _ _ (effect now db)); [by constructor|]. intros a db' Hr. inv_tx Hr.
  injection Hr as <- <-. tx_hyps. unfold cooling_off_elapsed in *. unfold lift_self_exclusion in Hr6.
  apply bind_Ok in Hr6 as (e & He & [= <- <-]). pose proof Hr5 as [-> _]%proposal_confirm_Ok.
  eapply eff_lift; [by eapply confirmation_intro|done|exact Hr4|lia|done..].
Qed.

Lemma limit_effect user requested now db : effect now db (set_deposit_limit user requested now db).2.
Proof.
  apply (atomic_cases _ _ (effect now db)); [by constructor|]. intros a db' Hr. inv_tx Hr.
  injection Hr as <- <-. tx_hyps. unfold upsert_deposit_limit in *.
  destruct (_ <? 0); [discriminate|]. injection Hr1 as <-. by constructor.
Qed.

Lemma propose_clear_effect fresh actor id reason now db :
  effect now db (propose_clear_flag sha256 fresh actor id reason now db).2.
Proof.
  apply (atomic_cases _ _ (effect now db)); [by constructor|]. intros a db' Hr. inv_tx Hr.
  - injection Hr as <- <-. by constructor.
  - injection Hr as <- <-. tx_hyps. eapply new_effect; [eassumption|naive_solver..].
Qed.

Lemma confirm_clear_effect actor id now db : effect now db (confirm_clear_flag actor id now db).2.
Proof.
  apply (atomic_cases _ _ (effect now db)); [by constructor|]. intros a db' Hr. inv_tx Hr.
  injection Hr as <- <-. tx_hyps. unfold clear_aml_flag in *.
  apply bind_Ok in Hr5 as (f & _ & [= <- <-]). pose proof Hr4 as [-> _]%proposal_confirm_Ok.
  eapply eff_other; [by eapply confirmation_intro|by left|done..].
Qed.

Lemma propose_license_effect fresh actor license reason db_now now db :
  effect now db (propose_frozen_license sha256 fresh actor license reason now db_now db).2.
Proof.
  apply (atomic_cases _ _ (effect now db)); [by constructor|]. intros a db' Hr. inv_tx Hr.
  injection Hr as <- <-. tx_hyps. unfold insert_frozen_license, insert_decision in *.
  destruct (existsb _ _) in Hr3; [discriminate|]. injection Hr3 as <-.
  eapply new_effect; [eassumption|naive_solver..].
Qed.

Lemma confirm_license_effect actor id now db : effect now db (confirm_frozen_license actor id now db).2.
Proof.
  apply (atomic_cases _ _ (effect now db)); [by constructor|]. intros a db' Hr. inv_tx Hr.
  injection Hr as <- <-. tx_hyps. pose proof Hr4 as [-> _]%proposal_confirm_Ok.
  eapply eff_other; [by eapply confirmation_intro|by right|done..].
Qed.

Lemma step_effect now db db' : comp_step to_string sha256 now db db' -> effect now db db'.
Proof.
  destruct 1; eauto using propose_status_effect, confirm_status_effect, set_shadow_effect,
    start_effect, propose_lift_effect, confirm_lift_effect, limit_effect, propose_clear_effect,
    confirm_clear_effect, propose_license_effect, confirm_license_effect.
Qed.
End StepEffect.

(** ** Lemmas: the invariant *)

Lemma latest_None {A} (key : A -> Z) l : latest key l = None <-> l = [].
Proof.
  destruct l as [|x l]; cbn; [done|]. split; [|done].
  destruct (latest key l); [by case_if|done].
Qed.

Lemma latest_elem {A} (key : A -> Z) l x : latest key l = Some x -> x ∈ l.
Proof.
  induction l as [|y l IH]; cbn; [done|]. destruct (latest key l) as [z|].
  - case_if; intros [= <-]; [right; by apply IH|left].
  - intros [= <-]. left.
Qed.

Lemma active_elem db user e :
  active_self_exclusion db user = Some e ->
  e ∈ co_exclusions db /\ se_user e = user /\ se_lifted_at e = None.
Proof.
  intros He%latest_elem. apply list_elem_of_In, filter_In in He as [Hi Hb].
  apply andb_true_iff in Hb as [H1%bool_decide_eq_true H2%bool_decide_eq_true].
  split; [by apply list_elem_of_In|done].
Qed.

Lemma active_None db user :
  active_self_exclusion db user = None ->
  forall e, e ∈ co_exclusions db -> se_user e = user -> se_lifted_at e <> None.
Proof.
  intros He%latest_None e Hi Hu Hl. assert (Hin : e ∈ @nil SelfExclusion); [|by apply elem_of_nil in Hin].
  rewrite <- He. apply list_elem_of_In, filter_In. split; [by apply list_elem_of_In|].
  by rewrite !bool_decide_eq_true_2.
Qed.

(** Of the unlifted exclusions of a user there is one, and it is the active one. *)
Lemma active_unique db e :
  exclusions_wf (co_exclusions db) -> e ∈ co_exclusions db -> se_lifted_at e = None ->
  active_self_exclusion db (se_user e) = Some e.
Proof.
  intros Hw Hi Hl. destruct (active_self_exclusion db (se_user e)) as [e'|] eqn:E.
  - apply active_elem in E as (Hi' & Hu & Hl'). f_equal. by apply (ew_one_active _ Hw).
  - by destruct (active_None _ _ E e).
Qed.

Section WfLemmas.
Context `{UuidText}.

Lemma proposals_snoc l p :
  proposals_wf l -> mp_status p = Pending ->
  Forall (fun q => mp_id q <> mp_id p /\ mp_replay_key q <> mp_replay_key p /\
    ~ (mp_status q = Pending /\ mp_kind q = mp_kind p /\ mp_subject_id q = mp_subject_id p)) l ->
  mp_expires_at p = mp_confirm_not_before p + PROPOSAL_CONFIRM_WINDOW ->
  (mp_kind p = "ban_user" \/ mp_kind p = "unban_user" ->
     mp_confirm_not_before p = mp_created_at p + BAN_DELAY) ->
  (mp_kind p = "lift_self_exclusion" -> mp_replay_key p = lift_replay_key (mp_subject_id p)) ->
  proposals_wf (l ++ [p]).
Proof.
  intros [H1 H2 H3 H4 H5 H6] Hp Hf He Hd Hl. rewrite Forall_forall in Hf.
  assert (Hsnoc : forall q, q ∈ l ++ [p] -> q ∈ l \/ q = p).
  { intros q. rewrite elem_of_app, list_elem_of_singleton. done. }
  split.
  - rewrite map_app. apply NoDup_app. split_and!; [done| |apply NoDup_singleton].
    intros x (q & -> & Hq)%list_elem_of_fmap Heq%list_elem_of_singleton. by destruct (Hf q Hq).
  - rewrite map_app. apply NoDup_app. split_and!; [done| |apply NoDup_singleton].
    intros x (q & -> & Hq)%list_elem_of_fmap Heq%list_elem_of_singleton. by destruct (Hf q Hq) as (_ & ? & _).
  - intros q r [Hq| ->]%Hsnoc [Hr| ->]%Hsnoc ???? ; [by apply H3| | |done]; exfalso.
    + destruct (Hf q Hq) as (_ & _ & Hn). by apply Hn.
    + destruct (Hf r Hr) as (_ & _ & Hn). by apply Hn.
  - intros q [Hq| ->]%Hsnoc; [by apply H4|done].
  - intros q [Hq| ->]%Hsnoc; [by apply H5|done].
  - intros q [Hq| ->]%Hsnoc; [by apply H6|done].
Qed.

Lemma proposals_confirmed l id c :
  proposals_wf l ->
  proposals_wf (map (fun q => if (mp_id q =? id)%N && bool_decide (mp_status q = Pending)
                              then confirmed q c else q) l).
Proof.
  intros [H1 H2 H3 H4 H5 H6]. set (f := fun q => _).
  assert (Hf : forall q, f q = q \/ f q = confirmed q c) by (intros q; unfold f; case_if; auto).
  assert (Hm : forall {B} (g : MoneyProposal -> B), (forall q, g (confirmed q c) = g q) ->
    map g (map f l) = map g l).
  { intros B g Hg. rewrite map_map. apply map_ext. intros q. by destruct (Hf q) as [-> | ->]. }
  assert (Hin : forall q, q ∈ map f l -> exists r, r ∈ l /\ q = f r).
  { intros q (r & -> & Hr)%list_elem_of_fmap. by exists r. }
  split.
  - by rewrite Hm.
  - by rewrite Hm.
  - intros p q (p' & Hp & ->)%Hin (q' & Hq & ->)%Hin.
    destruct (Hf p') as [-> | ->], (Hf q') as [-> | ->]; try done. by apply H3.
  - intros q (r & Hr & ->)%Hin. destruct (Hf r) as [-> | ->]; by apply (H4 r).
  - intros q (r & Hr & ->)%Hin. destruct (Hf r) as [-> | ->]; by apply (H5 r).
  - intros q (r & Hr & ->)%Hin. destruct (Hf r) as [-> | ->]; by apply (H6 r).
Qed.

Lemma exclusions_lifted l id at_ :
  exclusions_wf l -> exclusions_wf (map (fun x => if (se_id x =? id)%N then lifted x at_ else x) l).
Proof.
  intros [H1 H2]. split.
  - rewrite map_map. rewrite (map_ext _ se_id); [done|]. intros x. by case_if.
  - intros e e' (x & -> & Hx)%list_elem_of_fmap (y & -> & Hy)%list_elem_of_fmap.
    repeat case_if; cbn; try done. by apply H2.
Qed.

Lemma effect_wf now db db' : comp_wf db -> effect now db db' -> comp_wf db'.
Proof.
  intros [Hp Hx] []; unfold comp_wf.
  - by rewrite H1, H2.
  - rewrite H1, H2. split; [by apply proposals_snoc|done].
  - rewrite (cf_table _ _ _ _ _ H0), H3. split; [by apply proposals_confirmed|done].
  - rewrite (cf_table _ _ _ _ _ H0), H5. split; [by apply proposals_confirmed|by apply exclusions_lifted].
  - rewrite (cf_table _ _ _ _ _ H0), H3. split; [by apply proposals_confirmed|done].
  - by rewrite H2, H3.
  - rewrite H1, H2. split; [done|]. destruct Hx as [X1 X2]. rewrite Forall_forall in H5. split.
    + rewrite map_app. apply NoDup_app. split_and!; [done| |apply NoDup_singleton].
      intros i (x & -> & Hi)%list_elem_of_fmap Heq%list_elem_of_singleton. by destruct (H5 x Hi).
    + pose proof (active_None _ _ H4) as Hn.
      intros x y [Hi|Hi%list_elem_of_singleton]%elem_of_app [Hj|Hj%list_elem_of_singleton]%elem_of_app;
        intros; subst; [by apply X2|by destruct (Hn x)|by destruct (Hn y)|done].
Qed.
End WfLemmas.

Lemma run_wf `{UuidText} to_string sha256 t db db' :
  comp_wf db -> comp_run to_string sha256 t db db' -> comp_wf db'.
Proof. intros Hw. induction 1; [done|]. eauto using effect_wf, step_effect. Qed.

Lemma status_of_set user target db u :
  status_of (set_user_status user target db) u =
  if decide (u = user) then (fun _ => status_name target) <$> status_of db u else status_of db u.
Proof.
  unfold status_of, set_user_status. cbn. destruct (decide (u = user)) as [->|Hne].
  - rewrite lookup_alter_eq. by destruct (co_users db !! user).
  - by rewrite lookup_alter_ne.
Qed.

Lemma status_of_users db db' u : co_users db' = co_users db -> status_of db' u = status_of db u.
Proof. unfold status_of. by intros ->. Qed.

(** The confirmed proposal is in the table. *)
Lemma confirmation_elem now db db' p c :
  confirmation now db db' p c -> p ∈ co_proposals db /\ confirmed p c ∈ co_proposals db'.
Proof.
  intros [Hf Hp Hd Hw Ht]. apply proposal_by_id_Ok in Hf as [Hin _]. split; [done|].
  rewrite Ht. apply list_elem_of_fmap. exists p. split; [|done].
  by rewrite N.eqb_refl, bool_decide_eq_true_2.
Qed.

Lemma latest_key {A} (key : A -> Z) l x : latest key l = Some x -> forall y, y ∈ l -> key y <= key x.
Proof.
  revert x. induction l as [|z l IH]; intros x; cbn; [done|]. destruct (latest key l) as [w|] eqn:E.
  - specialize (IH w eq_refl). case_if; bool_hyps; intros [= <-] y [->|Hy]%elem_of_cons;
      try lia; specialize (IH y Hy); lia.
  - apply latest_None in E as ->. intros [= <-] y [->|Hy%elem_of_nil]%elem_of_cons; [lia|done].
Qed.

Lemma fresh_clear_iff db user context now :
  fresh_clear db user context now = true <-> screened db user context now.
Proof.
  unfold fresh_clear, screened. destruct (latest_screen db user context) as [row|]; [|naive_solver].
  unfold screen_from_row. split.
  - destruct (bool_decide (sr_verdict row = "hit")); [done|]. case_bool_decide as Hv; [|done].
    destruct (sr_expires_at row) as [x|] eqn:Hx; [|done].
    destruct (sr_policy_version row) as [v|] eqn:Hp; [|done]. cbn. rewrite Z.gtb_lt.
    intros Hlt. exists row, x, v. done.
  - intros (r & x & v & [= <-] & Hv & Hx & Hlt & Hp). rewrite Hv, Hx, Hp. cbn. by apply Z.gtb_lt.
Qed.

Lemma self_excluded_false db user now :
  self_excluded db user now = false <->
  forall e, active_self_exclusion db user = Some e -> se_cooling_off_until e <= now.
Proof.
  unfold self_excluded. destruct (active_self_exclusion db user) as [e|]; [|naive_solver].
  rewrite Z.gtb_ltb, Z.ltb_ge. naive_solver.
Qed.

Lemma required_flag_Ok entries key b :
  required_config_flag entries key = Ok b <-> entries !! key = Some (JBool b).
Proof.
  unfold required_config_flag. destruct (entries !! key) as [v|]; [|naive_solver].
  rewrite ok_or_Ok. destruct v; cbn; naive_solver.
Qed.

Lemma status_banned s : money_status_parse s = Banned <-> s = "banned".
Proof. unfold money_status_parse. repeat case_bool_decide; naive_solver. Qed.

Lemma status_shadow s : money_status_parse s = ShadowLimited <-> s = "shadow_limited".
Proof. unfold money_status_parse. repeat case_bool_decide; naive_solver. Qed.

(** The policy of a trade, on the snapshot. *)
Lemma decide_trade_Ok snap amount :
  decide_money_mutation snap PlaceTrade amount = Ok tt <->
  mg_status snap <> Banned /\ mg_self_excluded snap = false /\
  mg_required_kyc_tier snap <= mg_kyc_tier snap /\ mg_geo_clear snap = true /\
  mg_sanctions_clear snap = true /\
  (mg_status snap = ShadowLimited -> amount <= mg_shadow_trade_cap_micro snap).
Proof.
  unfold decide_money_mutation. rewrite (bool_decide_eq_false_2 (PlaceTrade = DepositAdmit)) by done.
  case_bool_decide as Hb; cbn [andb negb]; [naive_solver|].
  destruct (mg_self_excluded snap); [naive_solver|].
  destruct (Z.ltb_spec (mg_kyc_tier snap) (mg_required_kyc_tier snap)); [naive_solver lia|].
  destruct (mg_geo_clear snap); cbn [negb]; [|naive_solver].
  destruct (mg_sanctions_clear snap); cbn [negb]; [|naive_solver].
  rewrite Z.gtb_ltb. case_bool_decide as Hs; cbn [andb]; [|naive_solver].
  destruct (Z.ltb_spec (mg_shadow_trade_cap_micro snap) amount); [naive_solver lia|naive_solver].
Qed.

Lemma nodup_map_inj {A B} (f : A -> B) l x y :
  NoDup (map f l) -> x ∈ l -> y ∈ l -> f x = f y -> x = y.
Proof.
  intros Hnd [i Hi]%list_elem_of_lookup [j Hj]%list_elem_of_lookup E.
  assert (i = j) as <-; [|congruence].
  eapply NoDup_lookup; [exact Hnd| |]; rewrite list_lookup_fmap;
    [by rewrite Hi|rewrite Hj; cbn; by rewrite E].
Qed.

Section Expired.
Context `{UuidText} (t : Z) (p : MoneyProposal).
Hypothesis Hpending : mp_status p = Pending.
Hypothesis Hexpired : mp_expires_at p < t.

(** An expired proposal is not the one a later step confirms. *)
Lemma expired_not_confirmed now db db' q c :
  t <= now -> confirmation now db db' q c -> q <> p.
Proof. intros Ht [_ _ _ Hw _] ->. lia. Qed.

Lemma expired_stays now db db' :
  t <= now -> comp_wf db -> p ∈ co_proposals db -> effect now db db' -> p ∈ co_proposals db'.
Proof.
  intros Ht [Hp _] Hin He.
  assert (Hconf : forall q c, confirmation now db db' q c -> p ∈ co_proposals db').
  { intros q c Hc. pose proof (confirmation_elem _ _ _ _ _ Hc) as [Hq _].
    rewrite (cf_table _ _ _ _ _ Hc). apply list_elem_of_fmap. exists p. split; [|done].
    destruct (N.eqb_spec (mp_id p) (mp_id q)) as [E|]; [|done].
    destruct (expired_not_confirmed now db db' q c Ht Hc).
    by apply (nodup_map_inj mp_id _ _ _ (pw_proposal_ids _ Hp)). }
  destruct He as [? ? ->|? ? ? -> ? ? ? ?|? ? ? Hc|? ? ? Hc|? ? Hc|? ? ? ? ? ? ->|? ? -> ];
    try done; [apply elem_of_app; by left|by eapply Hconf..].
Qed.

Lemma expired_lift_stays now db db' e :
  t <= now -> comp_wf db -> p ∈ co_proposals db -> mp_kind p = "lift_self_exclusion" ->
  e ∈ co_exclusions db -> se_id e = mp_subject_id p -> effect now db db' -> e ∈ co_exclusions db'.
Proof.
  intros Ht [Hp _] Hin Hk Hi Hid He.
  destruct He as [? -> ?|? ? -> ? ? ? ? ? ?|? ? ? ? ? ? ->|q c x Hc Hkq Hx _ _ Htab|? ? ? ? ? ->
    |? ? ? ? ? -> ? ?|? ? ? -> ? ? ?]; try done; [|apply elem_of_app; by left].
  rewrite Htab. apply list_elem_of_fmap. exists e. split; [|done].
  destruct (N.eqb_spec (se_id e) (se_id x)) as [E|]; [|done].
  apply ok_or_Ok, find_some in Hx as [_ Hx%N.eqb_eq].
  destruct (expired_not_confirmed now db db' q c Ht Hc).
  pose proof (confirmation_elem _ _ _ _ _ Hc) as [Hq _].
  apply (nodup_map_inj mp_replay_key _ _ _ (pw_replay _ Hp)); [done..|].
  rewrite !(pw_lift _ Hp) by done. congruence.
Qed.

Lemma expired_ban_stays now db db' :
  t <= now -> comp_wf db -> p ∈ co_proposals db -> mp_kind p = "ban_user" ->
  status_of db (mp_subject_id p) <> Some "banned" -> effect now db db' ->
  status_of db' (mp_subject_id p) <> Some "banned".
Proof.
  intros Ht [Hp _] Hin Hk Hs He.
  destruct He as [Hu _ _|q Hu _ _ _ _ _ _ _|q c target Hc Hkq Hu _|q c e _ _ _ _ Hu _
    |q c _ _ Hu _|u target c Hne Hu _ _ _|e Hu _ _ _ _ _];
    rewrite (status_of_users _ _ _ Hu); try done; rewrite status_of_set; case_decide as Hd; try done.
  - destruct Hkq as [[-> Hkq]|[-> _]]; [|by destruct (status_of db _)].
    destruct (expired_not_confirmed now db db' q c Ht Hc).
    pose proof (confirmation_elem _ _ _ _ _ Hc) as [Hq _].
    apply (pw_pending _ Hp); [done..|by destruct Hc|done|congruence|congruence].
  - by destruct (status_of db _), target.
Qed.
End Expired.

Lemma trade_gate_iff (db : ComplianceDb) (entries : gmap string Value) (db_now : Z) (user : N)
    (amount now : Z) :
  enforce_money_mutation db entries db_now user PlaceTrade amount now = Ok tt <->
  trade_permitted db entries user amount now.
Proof.
  unfold enforce_money_mutation, trade_permitted, gate_snapshot, user_status, user_kyc_tier, required_i64.
  split.
  - intros (snap & Hs%store_Ok & Hd)%bind_Ok. apply decide_trade_Ok in Hd as (D1 & D2 & D3 & D4 & D5 & D6).
    inv_run Hs. apply required_flag_Ok in Hr2. injection Hs as <-. cbn in *.
    destruct (co_users db !! user) as [u|]; cbn in *; [|done]. simplify_eq.
    exists u, v1, v2, v3, v4. rewrite status_banned in D1. rewrite status_shadow in D6.
    rewrite <- self_excluded_false, <- !fresh_clear_iff. done.
  - intros (u & tier & paused & tcap & dcap & Hu & Hb & Hx & Ht & Hk & Hg & Hsn & Hp & Hc & Hd & Hsh).
    rewrite Hu, Ht, Hc, Hd. apply self_excluded_false in Hx. apply fresh_clear_iff in Hg, Hsn.
    apply required_flag_Ok in Hp. rewrite Hp. cbn [fmap option_fmap option_map ok_or mbind outcome_bind store map_err].
    apply decide_trade_Ok. cbn. by rewrite status_banned, status_shadow.
Qed.

(** The tables with another table of exclusions. *)
Definition set_exclusions (l : list SelfExclusion) (db : ComplianceDb) : ComplianceDb :=
  mkCompliance (co_users db) (co_screenings db) l (co_limits db) (co_flags db) (co_proposals db) (co_decisions db)
    (co_audit db).

(** An exclusion whose cooling-off has passed changes nothing for the gate. *)
Lemma lapsed_exclusion_gate db entries db_now user amount now e :
  active_self_exclusion db user = Some e -> se_cooling_off_until e <= now ->
  enforce_money_mutation db entries db_now user PlaceTrade amount now =
  enforce_money_mutation (set_exclusions [] db) entries db_now user PlaceTrade amount now.
Proof.
  intros He Hc. assert (E : self_excluded db user now = self_excluded (set_exclusions [] db) user now).
  { unfold self_excluded. rewrite He. cbn. rewrite Z.gtb_ltb. by apply Z.ltb_ge. }
  unfold enforce_money_mutation, gate_snapshot. by rewrite E.
Qed.

(** ** Properties *)

(** C35: the gate of a trade fails closed, exactly, but for lapsed exclusions.
    It passes precisely when the tables positively hold every fact it needs (an
    unbanned user without a running cooling-off, the configured identity tier, a
    clear and unexpired latest geo and sanctions screening, typed policy rows,
    the shadow cap), so a missing row, a missing policy or an aged screening
    refuses.  A self-exclusion stops a trade only while its cooling-off runs:
    one that was never lifted counts like none from that moment on, and whatever
    else holds, the gate answers as if the table of exclusions were empty. *)
Theorem trade_gate_exact (db : ComplianceDb) (entries : gmap string Value) (db_now : Z) (user : N)
    (amount now : Z) :
  (enforce_money_mutation db entries db_now user PlaceTrade amount now = Ok tt <->
   trade_permitted db entries user amount now) /\
  (forall e, active_self_exclusion db user = Some e -> se_cooling_off_until e <= now ->
     enforce_money_mutation db entries db_now user PlaceTrade amount now =
     enforce_money_mutation (set_exclusions [] db) entries db_now user PlaceTrade amount now).
Proof. split; [apply trade_gate_iff|apply lapsed_exclusion_gate]. Qed.

(** Ana excluded herself at 0 until 50 and never lifted it; at 100 the gate lets
    her trade. *)
Definition demo_lapsed_comp : ComplianceDb :=
  mkCompliance {[ 7%N := mkUser "ana" "active" 2 ]}
    [mkScreening 1 (Some 7%N) "geo" "clear" 0 (Some 1000) (Some "v1");
     mkScreening 2 (Some 7%N) "sanctions" "clear" 0 (Some 1000) (Some "v1")] [mkExclusion 1 7 0 50 None] ∅ [] [] [] [].
Definition demo_gate_config : gmap string Value :=
  <["deposit_kyc_tier" := JInt 1]> (<["pause_deposits" := JBool false]>
  (<["shadow_trade_cap_micro" := JInt 25]> {[ "shadow_deposit_cap_micro" := JInt 25 ]})).

Lemma trade_gate_exact_witness :
  is_Some (active_self_exclusion demo_lapsed_comp 7) /\
  trade_permitted demo_lapsed_comp demo_gate_config 7 10 100 /\
  enforce_money_mutation demo_lapsed_comp demo_gate_config 100 7 PlaceTrade 10 49 <> Ok tt.
Proof.
  split; [vm_compute; by eexists|]. split; [|vm_compute; discriminate].
  refine (proj1 (proj1 (trade_gate_exact demo_lapsed_comp demo_gate_config 100 7 10 100)) _). vm_compute. reflexivity.
Defined.

(** C36: a ban takes two principals, the second a superadmin.  In every state
    reached by the commands, a command that makes a user banned, or that ends a
    ban, is one of two.  It is the confirmation, by a token other than the
    proposer's and of the superadmin role (the only new row of the audit log
    records token, role and user), of a pending ban or unban proposal about that
    user, between fifteen and thirty minutes after it was proposed; or it ends
    the ban and is a single-principal shadow command of the operations role. *)
Theorem bans_are_dual_controlled `{UuidText} (to_string : Value -> string)
    (sha256 : string -> list Z) (t now : Z) (db0 db db' : ComplianceDb) (user : N) :
  comp_wf db0 -> comp_run to_string sha256 t db0 db -> comp_step to_string sha256 now db db' ->
  (status_of db user = Some "banned" <-> status_of db' user = Some "banned") \/
  (exists p c, p ∈ co_proposals db /\ mp_status p = Pending /\ mp_subject_id p = user /\
    mp_kind p = (if bool_decide (status_of db' user = Some "banned") then "ban_user" else "unban_user") /\
    mp_proposer_token_id p <> c /\ mp_created_at p + 900 <= now <= mp_created_at p + 1800 /\
    confirmed p c ∈ co_proposals db' /\
    exists a, co_audit db' = co_audit db ++ [a] /\ aa_digest a = c /\ aa_role a = Superadmin /\
      aa_subject a = "user:" +:+ uuid_text user) \/
  (status_of db' user <> Some "banned" /\
   exists a, co_audit db' = co_audit db ++ [a] /\ aa_role a = Ops).
Proof.
  intros Hw Hrun Hstep. apply run_wf in Hrun as [Hp _]; [|done]. apply step_effect in Hstep.
  destruct Hstep as [Hu _ _|p Hu _ _ _ _ _ _ _|p c target Hc Hk Hu _ Haud|p c e _ _ _ _ Hu _
    |p c _ _ Hu _|u target c Ht Hu _ _ (a & Ha & _ & Hr)|e Hu _ _ _ _ _];
    try (left; by rewrite (status_of_users _ _ _ Hu)).
  - assert (Hs : status_of db' user = status_of (set_user_status (mp_subject_id p) target db) user)
      by by apply status_of_users.
    rewrite status_of_set in Hs. destruct (decide (user = mp_subject_id p)) as [->|]; [|left; by rewrite Hs].
    pose proof (confirmation_elem _ _ _ _ _ Hc) as [Hin Hin'].
    destruct Hc as [_ Hpe Hd Hwin _]. rewrite (pw_window _ Hp) in Hwin by done.
    rewrite (pw_delay _ Hp) in Hwin by naive_solver. unfold BAN_DELAY, PROPOSAL_CONFIRM_WINDOW in Hwin.
    destruct (status_of db (mp_subject_id p)) as [st|] eqn:Eo; cbn in Hs.
    + right. left. exists p, c. split_and!; try done; [|lia..]. rewrite Hs. by destruct Hk as [[-> ->]|[-> ->]].
    + left. by rewrite Hs.
  - assert (Hs : status_of db' user = status_of (set_user_status u target db) user)
      by by apply status_of_users.
    rewrite status_of_set in Hs. destruct (decide (user = u)) as [->|]; [|left; by rewrite Hs].
    right. right. split; [|by exists a]. rewrite Hs. by destruct (status_of db u), target.
Qed.

Definition demo_users : ComplianceDb :=
  mkCompliance (<[7%N := mkUser "ana" "active" 2]> ∅) [] [] ∅ [] [] [] [].

Lemma demo_users_wf `{UuidText} : comp_wf demo_users.
Proof. split; split; cbn; try constructor; intros ?; by intros ?%elem_of_nil || intros ? ?%elem_of_nil. Qed.

Definition demo_ban : ComplianceDb :=
  (propose_status demo_print demo_sha 1 (Admin "ops-1" Ops) 7 Banned "fraud" 1 0 demo_users).2.

Definition demo_banned : ComplianceDb := (confirm_status (Admin "super-1" Superadmin) 1 900 demo_ban).2.

Lemma bans_are_dual_controlled_witness :
  status_of demo_ban 7 = Some "active" /\ status_of demo_banned 7 = Some "banned" /\
  ((status_of demo_ban 7 = Some "banned" <-> status_of demo_banned 7 = Some "banned") \/
   (exists p c, p ∈ co_proposals demo_ban /\ mp_status p = Pending /\ mp_subject_id p = 7%N /\
     mp_kind p = (if bool_decide (status_of demo_banned 7 = Some "banned") then "ban_user" else "unban_user") /\
     mp_proposer_token_id p <> c /\ mp_created_at p + 900 <= 900 <= mp_created_at p + 1800 /\
     confirmed p c ∈ co_proposals demo_banned /\
     exists a, co_audit demo_banned = co_audit demo_ban ++ [a] /\ aa_digest a = c /\ aa_role a = Superadmin /\
       aa_subject a = "user:" +:+ uuid_text 7) \/
   (status_of demo_banned 7 <> Some "banned" /\
    exists a, co_audit demo_banned = co_audit demo_ban ++ [a] /\ aa_role a = Ops)).
Proof.
  split; [vm_compute; reflexivity|]. split; [vm_compute; reflexivity|].
  apply (bans_are_dual_controlled demo_print demo_sha 0 900 demo_users demo_ban demo_banned 7).
  - apply demo_users_wf.
  - eapply (comp_next _ _ _ 0); [apply comp_refl|lia|apply cs_propose_status].
  - apply cs_confirm_status.
Defined.

(** one operations principal alone lifts a ban: on every banned user the
    single-principal command [unshadow] with any non-blank reason succeeds and
    leaves the user active, whatever proposals exist, although lifting a ban is
    a dual-controlled command of the matrix. *)
Theorem unshadow_lifts_a_ban `{UuidText} (db : ComplianceDb) (user : N) (token reason : string) :
  status_of db user = Some "banned" -> blank reason = false ->
  exists db', set_shadow (Admin token Ops) user false reason db = (Ok Active, db') /\
    status_of db' user = Some "active" /\ co_proposals db' = co_proposals db.
Proof.
  unfold status_of at 1. intros Hs Hb. destruct (co_users db !! user) as [u|] eqn:Hu; [|done].
  unfold set_shadow, require_reason, lock_user. cbn. rewrite Hb, Hu. cbn.
  eexists. split; [done|]. split; [|done].
  etransitivity; [by apply (status_of_users (set_user_status user Active db))|].
  rewrite status_of_set, decide_True by done. unfold status_of. by rewrite Hu.
Qed.

Lemma unshadow_lifts_a_ban_witness :
  exists db', set_shadow (Admin "ops-1" Ops) 7 false "oops" demo_banned = (Ok Active, db') /\
    status_of db' 7 = Some "active" /\ co_proposals db' = co_proposals demo_banned.
Proof. apply unshadow_lifts_a_ban; vm_compute; reflexivity. Defined.

(** a dual-control proposal whose confirmation window passes unused wedges
    its command for good: under every later sequence of commands the row stays
    pending, so an exclusion whose lift proposal expired is never lifted, and a
    user whose ban proposal expired is never banned. *)
Theorem expired_proposals_block_forever `{UuidText} (to_string : Value -> string)
    (sha256 : string -> list Z) (t : Z) (db db' : ComplianceDb) (p : MoneyProposal) :
  comp_wf db -> p ∈ co_proposals db -> mp_status p = Pending -> mp_expires_at p < t ->
  comp_run to_string sha256 t db db' ->
  p ∈ co_proposals db' /\
  (mp_kind p = "lift_self_exclusion" -> forall e, e ∈ co_exclusions db ->
     se_id e = mp_subject_id p -> e ∈ co_exclusions db') /\
  (mp_kind p = "ban_user" -> status_of db (mp_subject_id p) <> Some "banned" ->
     status_of db' (mp_subject_id p) <> Some "banned").
Proof.
  intros Hw Hin Hp He Hrun. induction Hrun as [db|now db db1 db2 Hrun IH Ht Hs]; [done|].
  destruct (IH Hw Hin) as (H1 & H2 & H3). apply step_effect in Hs. apply run_wf in Hrun; [|done].
  split_and!.
  - by eapply expired_stays.
  - intros Hk e Hi Hid. eapply expired_lift_stays; eauto.
  - intros Hk Hs'. eapply expired_ban_stays; eauto.
Qed.

Lemma expired_proposals_block_forever_witness :
  status_of demo_ban 7 <> Some "banned" /\
  status_of (propose_status demo_print demo_sha 2 (Admin "ops-2" Ops) 7 Banned "again" 2 1801 demo_ban).2 7
    <> Some "banned".
Proof.
  split; [vm_compute; discriminate|].
  assert (Hin : exists p, co_proposals demo_ban = [p] /\ mp_status p = Pending /\ mp_expires_at p < 1801 /\
            mp_kind p = "ban_user" /\ mp_subject_id p = 7%N).
  { eexists. split; [vm_compute; reflexivity|]. cbn. split_and!; reflexivity || lia. }
  destruct Hin as (p & Hl & Hp & He & Hk & Hsub).
  destruct (expired_proposals_block_forever demo_print demo_sha 1801 demo_ban
    (propose_status demo_print demo_sha 2 (Admin "ops-2" Ops) 7 Banned "again" 2 1801 demo_ban).2 p)
    as (_ & _ & Hban).
  - eapply (effect_wf 0); [apply demo_users_wf|]. eapply step_effect, cs_propose_status.
  - rewrite Hl. left.
  - exact Hp.
  - exact He.
  - eapply comp_next; [apply comp_refl| |apply cs_propose_status]. lia.
  - rewrite Hsub in Hban. apply Hban; [exact Hk|]. vm_compute. discriminate.
Defined.

(** A self-exclusion that nobody lifted stays on record, and starting
    another is refused because it is active; but the gate of trades, deposits
    and grants honours it only until its cooling-off ends, so from that moment
    the exclusion blocks nothing although no lift was proposed or confirmed. *)
Theorem exclusion_lapses_at_the_gate `{UuidText} (db : ComplianceDb) (e : SelfExclusion)
    (f1 f2 : N) (cooling_off now : Z) :
  comp_wf db -> e ∈ co_exclusions db -> se_lifted_at e = None ->
  is_Some (co_users db !! se_user e) -> 0 < cooling_off ->
  start_self_exclusion f1 f2 (se_user e) cooling_off now db =
    (Err (App.AdminForbidden "self-exclusion is already active"), db) /\
  (self_excluded db (se_user e) now = true <-> now < se_cooling_off_until e).
Proof.
  intros [_ Hx] Hi Hl [u Hu] Hc. pose proof (active_unique db e Hx Hi Hl) as Ha. split.
  - unfold start_self_exclusion, lock_user. rewrite (proj2 (Z.leb_gt cooling_off 0)) by lia.
    rewrite Hu. cbn [ok_or store map_err mbind outcome_bind]. by rewrite Ha, bool_decide_eq_true_2.
  - unfold self_excluded. rewrite Ha. apply Z.gtb_lt.
Qed.

Definition demo_excluded : ComplianceDb := (start_self_exclusion 3 4 7 86400 0 demo_users).2.

Lemma exclusion_lapses_at_the_gate_witness :
  start_self_exclusion 5 6 7 60 86400 demo_excluded =
    (Err (App.AdminForbidden "self-exclusion is already active"), demo_excluded) /\
  (self_excluded demo_excluded 7 86400 = true <-> 86400 < 86400).
Proof.
  apply (exclusion_lapses_at_the_gate demo_excluded (mkExclusion 3 7 0 86400 None) 5 6 60 86400).
  - eapply (effect_wf 0); [apply demo_users_wf|]. eapply start_effect.
  - assert (E : co_exclusions demo_excluded = [mkExclusion 3 7 0 86400 None]) by (vm_compute; reflexivity).
    rewrite E. left.
  - reflexivity.
  - vm_compute. eexists. reflexivity.
  - lia.
Defined.

(** a user's own deposit limit drops at once and rises a day late: after a
    limit is set the gate reads, at every later moment, the requested limit,
    except that a raise over the limit in force shows the old one until 24
    hours have passed. *)
Theorem deposit_limit_raise_waits (db : ComplianceDb) (user : N) (requested now : Z) :
  is_Some (co_users db !! user) -> 0 <= requested ->
  (forall row, co_limits db !! user = Some row -> 0 <= effective_deposit_limit row now) ->
  exists next db', set_deposit_limit user requested now db = (Ok next, db') /\
    forall t, now <= t ->
      deposit_limit_micro db' t user =
      Some (match co_limits db !! user with
            | Some row =>
                let have := effective_deposit_limit row now in
                if (have <? requested) && (t <? now + 86400) then have else requested
            | None => requested
            end).
Proof.
  intros [u Hu] Hr Hrow. unfold set_deposit_limit, lock_user, get_deposit_limit, deposit_limit_after_write.
  rewrite (proj2 (Z.ltb_ge requested 0)), Hu by lia. cbn [ok_or store map_err mbind outcome_bind].
  unfold upsert_deposit_limit, deposit_limit_micro, DEPOSIT_LIMIT_RAISE_DELAY.
  destruct (co_limits db !! user) as [row|] eqn:El; cbn [fmap option_fmap option_map].
  - specialize (Hrow row eq_refl). set (have := effective_deposit_limit row now) in *.
    rewrite Z.gtb_ltb. destruct (Z.ltb_spec have requested); cbn [dl_limit_micro dl_user andb].
    + rewrite (proj2 (Z.ltb_ge have 0)) by lia. eexists _, _. split; [done|]. intros t Ht. cbn.
      rewrite lookup_insert_eq. cbn. f_equal.
      destruct (Z.leb_spec (now + 86400) t), (Z.ltb_spec t (now + 86400)); lia || done.
    + rewrite (proj2 (Z.ltb_ge requested 0)) by lia. eexists _, _. split; [done|]. intros t Ht. cbn.
      by rewrite lookup_insert_eq.
  - cbn [dl_limit_micro dl_user]. rewrite (proj2 (Z.ltb_ge requested 0)) by lia.
    eexists _, _. split; [done|]. intros t Ht. cbn. by rewrite lookup_insert_eq.
Qed.

Definition demo_limited : ComplianceDb := (set_deposit_limit 7 100 0 demo_users).2.

Lemma deposit_limit_raise_waits_witness :
  deposit_limit_micro (set_deposit_limit 7 500 10 demo_limited).2 86409 7 = Some 100 /\
  exists next db', set_deposit_limit 7 500 10 demo_limited = (Ok next, db') /\
    forall t, 10 <= t ->
      deposit_limit_micro db' t 7 =
      Some (match co_limits demo_limited !! 7%N with
            | Some row =>
                let have := effective_deposit_limit row 10 in
                if (have <? 500) && (t <? 10 + 86400) then have else 500
            | None => 500
            end).
Proof.
  split; [vm_compute; reflexivity|]. apply (deposit_limit_raise_waits demo_limited 7 500 10).
  - vm_compute. eexists. reflexivity.
  - lia.
  - intros row. assert (E : co_limits demo_limited !! 7%N = Some (mkLimit 7 100 None None 0))
      by (vm_compute; reflexivity). rewrite E. intros [= <-]. vm_compute. discriminate.
Defined.

(** The two gates look at the same user. *)
Definition same_user (snap : UserComplianceSnapshot) (g : MoneyGateSnapshot) (now : Z) : Prop :=
  mg_status g = us_status snap /\
  (mg_self_excluded g = true -> exists e, us_self_exclusion snap = Some e /\ is_active e now = true) /\
  mg_kyc_tier g = us_kyc_tier snap /\ mg_required_kyc_tier g = us_required_kyc_tier snap /\
  mg_geo_clear g = allows_progress (us_geo snap) now /\
  mg_sanctions_clear g = allows_progress (us_sanctions snap) now /\
  mg_deposit_limit_micro g = us_deposit_limit_micro snap /\
  mg_shadow_trade_cap_micro g = trade_cap_micro (us_shadow snap) /\
  mg_shadow_deposit_cap_micro g = deposit_cap_micro (us_shadow snap).

(** What an [Allow] of the second gate establishes for any amount. *)
Lemma enforce_Allow mutation snap now (deposit : bool) amount :
  mutation = (if deposit then DepositAdmission amount else GateTrade amount) ->
  enforce mutation snap now = Allow ->
  us_status snap <> Banned /\
  (forall e, us_self_exclusion snap = Some e -> is_active e now = false) /\
  allows_progress (us_geo snap) now = true /\ allows_progress (us_sanctions snap) now = true /\
  us_required_kyc_tier snap <= us_kyc_tier snap /\ enforce_amount amount snap deposit = Allow.
Proof.
  intros Hm. unfold enforce. case_bool_decide as Hb; [done|].
  set (excluded := match us_self_exclusion snap with Some ex => is_active ex now | None => false end).
  destruct excluded eqn:Hx; [rewrite Hm; by destruct deposit|].
  destruct (allows_progress (us_geo snap) now), (allows_progress (us_kyc snap) now); cbn; try done.
  destruct (is_hit (us_sanctions snap)); [done|].
  destruct (allows_progress (us_sanctions snap) now); cbn; [|done].
  destruct (kyc_meets (us_kyc_tier snap) (us_required_kyc_tier snap)) eqn:Hk; cbn; [|done].
  unfold kyc_meets in Hk. rewrite Z.geb_leb in Hk. bool_hyps.
  intros He. split_and!; [done| |done|done|lia|].
  - intros e Hse. unfold excluded in Hx. by rewrite Hse in Hx.
  - subst. by destruct deposit.
Qed.

(** the standalone compliance gate is at least as strict as the one on the
    transaction path: when both see the same user and the standalone gate
    allows a trade, or a deposit while deposits are not paused, without
    review, the transaction gate lets it through, so the two never disagree in
    the permissive direction of the standalone gate. *)
Theorem standalone_gate_is_stricter (snap : UserComplianceSnapshot) (g : MoneyGateSnapshot)
    (amount now : Z) :
  same_user snap g now ->
  (enforce (GateTrade amount) snap now = Allow -> decide_money_mutation g PlaceTrade amount = Ok tt) /\
  (mg_deposits_paused g = false -> enforce (DepositAdmission amount) snap now = Allow ->
   decide_money_mutation g DepositAdmit amount = Ok tt).
Proof.
  intros (H1 & H2 & H3 & H4 & H5 & H6 & H7 & H8 & H9).
  assert (Hexcl : (forall e, us_self_exclusion snap = Some e -> is_active e now = false) ->
            mg_self_excluded g = false).
  { intros Hx. destruct (mg_self_excluded g); [|done]. destruct (H2 eq_refl) as (e & He & Ha).
    apply Hx in He. congruence. }
  split; [intros He|intros Hp He].
  - destruct (enforce_Allow _ snap now false amount eq_refl He) as (E1 & E2 & E3 & E4 & E5 & E6).
    apply decide_trade_Ok. rewrite H1, H3, H4, H5, H6, H8. split_and!; try done; [by apply Hexcl|].
    intros Hs. unfold enforce_amount in E6. cbn in E6. rewrite bool_decide_eq_true_2, Z.gtb_ltb in E6 by done.
    destruct (Z.ltb_spec (trade_cap_micro (us_shadow snap)) amount); [done|lia].
  - destruct (enforce_Allow _ snap now true amount eq_refl He) as (E1 & E2 & E3 & E4 & E5 & E6).
    unfold decide_money_mutation. rewrite (bool_decide_eq_true_2 (DepositAdmit = DepositAdmit)) by done.
    rewrite andb_false_r, (Hexcl E2), Hp, H3, H4, H5, H6, E3, E4, H7, H1, H9, !Z.gtb_ltb.
    rewrite (proj2 (Z.ltb_ge (us_kyc_tier snap) (us_required_kyc_tier snap))) by lia. cbn [negb].
    unfold enforce_amount in E6. cbn [andb] in E6.
    destruct (us_deposit_limit_micro snap) as [limit|]; rewrite ?Z.gtb_ltb in *;
      [destruct (limit <? amount); [done|]|]; destruct (bool_decide (us_status snap = ShadowLimited));
      cbn [andb]; try done; rewrite ?Z.gtb_ltb in E6;
      by destruct (deposit_cap_micro (us_shadow snap) <? amount).
Qed.

Lemma standalone_gate_is_stricter_witness :
  let clear := Clear 0 100 "v1" in
  let snap := mkSnap Active 2 clear clear clear None false None [] 1 (mkShadowCaps 25 25) in
  let g := mkGate Active false 2 1 true true None false 25 25 in
  enforce (GateTrade 500) snap 10 = Allow /\ decide_money_mutation g PlaceTrade 500 = Ok tt.
Proof.
  cbn zeta. split; [vm_compute; reflexivity|].
  apply (proj1 (standalone_gate_is_stricter
    (mkSnap Active 2 (Clear 0 100 "v1") (Clear 0 100 "v1") (Clear 0 100 "v1") None false None [] 1
      (mkShadowCaps 25 25)) (mkGate Active false 2 1 true true None false 25 25) 500 10
    ltac:(unfold same_user; cbn; split_and!; reflexivity || discriminate))).
  vm_compute. reflexivity.
Defined.
