(* ===== verification/Collect.v ===== *)
(** * Collect: credit conversion and receivable collection

    The lazy money work that precedes a trade: [convert_then_collect] of
    [pg/credit_tx.rs] turns every fully earned credit lot of the user into cash
    (two ledger transactions per lot), then [auto_collect] of
    [ops/receivable_collection.rs] takes what the user owes out of the cash
    balance, oldest receivable first.  The receivable rows and their append-only
    movements are those of [pg/unwind_tx.rs].  Identifiers drawn by the code
    come from the supply [fresh]. *)

From S2P Require Import Prelude Amm Ledger Resolution Economy Chars Errors Credits PgLedger Json Config Fences ConfigStore.
#[local] Open Scope string_scope.
#[local] Open Scope list_scope.
#[local] Open Scope Z_scope.

Record Receivable := mkReceivable {
  rv_id : N; rv_market : N; rv_user : N; rv_origin_reversal_txn : N; rv_opened_micro : Z;
  rv_created_at : Z }.

Inductive ReceivableMovementKind := Opened | Collected | WrittenOff.

#[export] Instance ReceivableMovementKind_eq_dec : EqDecision ReceivableMovementKind.
Proof. solve_decision. Defined.

Record ReceivableMovement := mkMovement {
  mv_id : N; mv_receivable : N; mv_kind : ReceivableMovementKind; mv_amount_micro : Z;
  mv_actor : string; mv_cash_txn : option N; mv_idempotency_key : string }.

(** The ledger, the credit tables, the receivables with their movements, and
    the audit rows a movement is anchored to. *)
Record Funds := mkFunds {
  fu_ledger : PgLedger; fu_credits : CreditDb; fu_receivables : list Receivable;
  fu_movements : list ReceivableMovement; fu_audit : list AdminAction }.

Definition set_ledger (l : PgLedger) (f : Funds) : Funds :=
  mkFunds l (fu_credits f) (fu_receivables f) (fu_movements f) (fu_audit f).

Definition set_credits (c : CreditDb) (f : Funds) : Funds :=
  mkFunds (fu_ledger f) c (fu_receivables f) (fu_movements f) (fu_audit f).

(** ** Reads and writes of the transaction *)

(** [order by granted_at, id]. *)
Definition lot_le (a b : CreditLotRow) : bool :=
  (granted_at a <? granted_at b) ||
  ((granted_at a =? granted_at b) && (lot_row_id a <=? lot_row_id b)%N).

Definition lots_for_user (db : CreditDb) (user : N) : list CreditLotRow :=
  sort_by lot_le
    (List.filter (fun r => (lot_user r =? user)%N) (map snd (map_to_list (db_lots db)))).

(** [order by split_seq, id]. *)
Definition allocation_le (a b : AllocationFact) : bool :=
  (split_seq a <? split_seq b) ||
  ((split_seq a =? split_seq b) && (fact_id a <=? fact_id b)%N).

Definition allocations_for_lot (db : CreditDb) (lot : N) : list AllocationFact :=
  sort_by allocation_le (List.filter (fun f => (lot_id f =? lot)%N) (db_facts db)).

Definition mark_lot_converted (lot : N) (at_ : Z) (db : CreditDb) : outcome StoreError CreditDb :=
  match db_lots db !! lot with
  | Some r =>
      if bool_decide (converted_at r = None) then
        Ok {| db_trades := db_trades db;
              db_lots := <[lot := {| lot_row_id := lot_row_id r; lot_user := lot_user r;
                 lot_source := lot_source r; lot_amount := lot_amount r; granted_at := granted_at r;
                 grant_class := grant_class r; policy_version := policy_version r;
                 converted_at := Some at_ |}]> (db_lots db);
              db_facts := db_facts db |}
      else Err (Store.Conflict "credit lot conversion")
  | None => Err (Store.Conflict "credit lot conversion")
  end.

Definition account_balance (db : PgLedger) (a : N) : outcome StoreError Z := bigint (entry_sum db a).

(** [opened_micro] less what was collected or written off. *)
Definition outstanding_micro (f : Funds) (r : Receivable) : Z :=
  rv_opened_micro r -
  zsum (map (fun m => if (mv_receivable m =? rv_id r)%N &&
                         bool_decide (mv_kind m = Collected \/ mv_kind m = WrittenOff)
                      then mv_amount_micro m else 0) (fu_movements f)).

Definition receivable_le (a b : Receivable) : bool :=
  (rv_created_at a <? rv_created_at b) ||
  ((rv_created_at a =? rv_created_at b) && (rv_id a <=? rv_id b)%N).

(** The rows with something outstanding, oldest first. *)
Definition open_receivables_for_user (f : Funds) (user : N) :
    outcome StoreError (list (Receivable * Z)) :=
  rows ← foldM (fun acc r => o ← bigint (outstanding_micro f r); Ok (acc ++ [(r, o)])) []
           (sort_by receivable_le
              (List.filter (fun r => (rv_user r =? user)%N) (fu_receivables f)));
  Ok (List.filter (fun ro => ro.2 >? 0) rows).

Section Collection.
Context `{UuidText} `{HashMapOrder}.

(** An audit row about the receivable, or about its market. *)
Definition audit_anchor (f : Funds) (receivable : N) : bool :=
  existsb (fun a => bool_decide (aa_subject a = "receivable:" +:+ uuid_text receivable)) (fu_audit f) ||
  existsb (fun r => (rv_id r =? receivable)%N &&
    existsb (fun a => bool_decide (aa_subject a = "market:" +:+ uuid_text (rv_market r))) (fu_audit f))
    (fu_receivables f).

(** The insert under the table's constraints: a positive amount, the anchor
    ([not null]), the reference to the receivable, the primary key; a used
    idempotency key inserts nothing and is refused. *)
Definition insert_receivable_movement (m : ReceivableMovement) (f : Funds) : outcome StoreError Funds :=
  if negb (audit_anchor f (mv_receivable m)) then Err (Store.Integrity "audit_id not null") else
  if mv_amount_micro m <=? 0 then Err (Store.Integrity "amount_micro check") else
  if existsb (fun x => bool_decide (mv_idempotency_key x = mv_idempotency_key m)) (fu_movements f)
  then Err (Store.Conflict "receivable movement key") else
  if existsb (fun x => (mv_id x =? mv_id m)%N) (fu_movements f)
  then Err (Store.Integrity "receivable_movements_pkey") else
  if negb (existsb (fun r => (rv_id r =? mv_receivable m)%N) (fu_receivables f))
  then Err (Store.Integrity "receivable_id foreign key") else
  Ok (mkFunds (fu_ledger f) (fu_credits f) (fu_receivables f) (fu_movements f ++ [m]) (fu_audit f)).

(** The loop that spreads the collected amount over the open receivables. *)
Fixpoint collect_loop (fresh : nat -> N) (i : nat) (key actor : string) (cash_txn : N)
    (rows : list (Receivable * Z)) (remaining : Z) (f : Funds) : outcome AppError Funds :=
  match rows with
  | [] => Ok f
  | (r, outstanding) :: rows =>
      if remaining =? 0 then Ok f else
      let take := Z.min remaining outstanding in
      remaining ← arith I64 (remaining - take);
      f ← store (insert_receivable_movement
            (mkMovement (fresh i) (rv_id r) Collected take actor (Some cash_txn)
               ("recv-collect:" +:+ key +:+ ":" +:+ uuid_text (rv_id r))) f);
      collect_loop fresh (S i) key actor cash_txn rows remaining f
  end.

Definition auto_collect (fresh : nat -> N) (user : N) (key actor : string) (f : Funds) :
    outcome AppError (Z * Funds) :=
  open ← store (open_receivables_for_user f user);
  owed ← foldM (fun sum ro => ok_or (checked I64 (sum + ro.2)) App.Overflow) 0 open;
  if owed =? 0 then Ok (0, f) else
  '(led, user_account) ← store (account (fresh 0%nat) (fu_ledger f) (Ref.User user) Usdc);
  balance ← store (account_balance led user_account);
  let collect := Z.min owed (Z.max balance 0) in
  if collect =? 0 then Ok (0, set_ledger led f) else
  '(led, house) ← store (account (fresh 1%nat) led Ref.House Usdc);
  neg ← arith I64 (- collect);
  '(led, cash_txn) ← store (ledger_apply (fresh 2%nat) led Reversal ("recv-collect:" +:+ key)
     [{| e_account := user_account; e_amount := neg |}; {| e_account := house; e_amount := collect |}]);
  f ← collect_loop fresh 3 key actor cash_txn open collect (set_ledger led f);
  Ok (collect, f).

Record CreditConversionTxn := mkConversion {
  cv_lot_id : N; cv_retire_txn : N; cv_pay_txn : N; cv_replayed : bool }.

Record ConvertCollectReceipt := mkConvertReceipt {
  rc_converted_micro : Z; rc_collected_micro : Z; rc_lots_converted : Z;
  rc_conversion_txns : list CreditConversionTxn }.

(** The two transactions of one ready lot; six identifiers are drawn. *)
Definition convert_lot (fresh : nat -> N) (i : nat) (now : Z) (owner : N) (lot : CreditLotRow)
    (f : Funds) : outcome AppError (N * N * Funds) :=
  let convert_key := "credit-convert:" +:+ uuid_text (lot_row_id lot) in
  let pay_key := "credit-convert-pay:" +:+ uuid_text (lot_row_id lot) in
  '(led, user_credit) ← store (account (fresh i) (fu_ledger f) (Ref.User owner) UsdcCredit);
  '(led, house_credit) ← store (account (fresh (i + 1)%nat) led Ref.House UsdcCredit);
  '(led, reserve) ← store (account (fresh (i + 2)%nat) led Ref.BonusReserve Usdc);
  '(led, user_cash) ← store (account (fresh (i + 3)%nat) led (Ref.User owner) Usdc);
  neg ← arith I64 (- lot_amount lot);
  '(led, retire_txn) ← store (ledger_apply (fresh (i + 4)%nat) led CreditConvert convert_key
     [{| e_account := user_credit; e_amount := neg |};
      {| e_account := house_credit; e_amount := lot_amount lot |}]);
  '(led, pay_txn) ← store (ledger_apply (fresh (i + 5)%nat) led CreditConvert pay_key
     [{| e_account := reserve; e_amount := neg |};
      {| e_account := user_cash; e_amount := lot_amount lot |}]);
  credits ← store (mark_lot_converted (lot_row_id lot) now (fu_credits f));
  Ok (retire_txn, pay_txn, set_credits credits (set_ledger led f)).

Fixpoint convert_loop (fresh : nat -> N) (i : nat) (now : Z) (owner : N)
    (lots : list CreditLotRow) (r : ConvertCollectReceipt) (f : Funds) :
    outcome AppError (ConvertCollectReceipt * Funds) :=
  match lots with
  | [] => Ok (r, f)
  | lot :: lots =>
      match txn_by_key (fu_ledger f) ("credit-convert:" +:+ uuid_text (lot_row_id lot)),
            txn_by_key (fu_ledger f) ("credit-convert-pay:" +:+ uuid_text (lot_row_id lot)) with
      | Some retire_txn, Some pay_txn =>
          convert_loop fresh i now owner lots
            (mkConvertReceipt (rc_converted_micro r) (rc_collected_micro r) (rc_lots_converted r)
               (rc_conversion_txns r ++ [mkConversion (lot_row_id lot) retire_txn pay_txn true])) f
      | None, None =>
          let facts := allocations_for_lot (fu_credits f) (lot_row_id lot) in
          ready ← lot_ready_to_convert lot facts;
          if negb ready then convert_loop fresh i now owner lots r f else
          '(retire_txn, pay_txn, f) ← convert_lot fresh i now owner lot f;
          converted ← arith I64 (rc_converted_micro r + lot_amount lot);
          count ← arith U32 (rc_lots_converted r + 1);
          convert_loop fresh (i + 6)%nat now owner lots
            (mkConvertReceipt converted (rc_collected_micro r) count
               (rc_conversion_txns r ++ [mkConversion (lot_row_id lot) retire_txn pay_txn false])) f
      | _, _ => Err (App.Store (Store.Invariant "credit conversion has only one ledger transaction"))
      end
  end.

Definition convert_then_collect (fresh : nat -> N) (user : N) (now : Z) (key : string) (f : Funds) :
    outcome AppError (ConvertCollectReceipt * Funds) :=
  let lots := lots_for_user (fu_credits f) user in
  '(r, f) ← convert_loop fresh 0 now user lots (mkConvertReceipt 0 0 0 []) f;
  '(collected, f) ← auto_collect (fun n => fresh (6 * length lots + n)%nat) user key
                      ("machine:convert:" +:+ key) f;
  Ok (mkConvertReceipt (rc_converted_micro r) collected (rc_lots_converted r) (rc_conversion_txns r), f).
End Collection.

(** ** Specification *)

(** The balance of an owner's account; nothing before it is opened. *)
Definition holding (led : PgLedger) (ty : OwnerType) (oid : option N) (c : Currency) : Z :=
  match List.find (is_account ty oid c) (pg_accounts led) with
  | Some r => entry_sum led (acct_id r)
  | None => 0
  end.

Definition escrow_of (led : PgLedger) (market : N) : Z := holding led Escrow (Some market) Usdc.

Definition cash_of (led : PgLedger) (user : N) : Z := holding led User (Some user) Usdc.

(** What a user owes over all receivables. *)
Definition owed_by (f : Funds) (user : N) : Z :=
  zsum (map (fun r => Z.max 0 (outstanding_micro f r))
         (List.filter (fun r => (rv_user r =? user)%N) (fu_receivables f))).

Record funds_wf (f : Funds) : Prop := {
  fw_ledger : pg_wf (fu_ledger f);
  fw_lots : forall l r, db_lots (fu_credits f) !! l = Some r -> in_ty I64 (lot_amount r) }.

(** ** Lemmas: escrow accounts under ledger writes *)

Lemma entry_sum_opened fresh db ty oid c a : entry_sum (pg_opened fresh db ty oid c) a = entry_sum db a.
Proof. done. Qed.

Lemma holding_opened fresh led ty oid c ty' oid' c' :
  pg_wf led -> fresh ∉ map acct_id (pg_accounts led) ->
  holding (pg_opened fresh led ty oid c) ty' oid' c' = holding led ty' oid' c'.
Proof.
  intros Hwf Hf. unfold holding. cbn [pg_opened pg_accounts]. rewrite find_app.
  destruct (List.find _ (pg_accounts led)) as [r|] eqn:E; [done|]. cbn. case_if; [|done]. cbn.
  change (entry_sum led fresh = 0). apply entry_sum_unknown; [done|].
  apply find_none_by. apply Forall_forall. intros r Hr. apply bool_decide_eq_false_2. intros E'.
  apply Hf. rewrite <- E'. by apply list_elem_of_fmap_2.
Qed.

(** [account] returns a row of the requested owner and moves no money. *)
Lemma account_Ok fresh led owner c led' a :
  pg_wf led -> account fresh led owner c = Ok (led', a) ->
  pg_wf led' /\ (forall ty oid c, holding led' ty oid c = holding led ty oid c) /\
  (exists extra, pg_accounts led' = pg_accounts led ++ extra) /\
  exists r, find_account led' a = Some r /\ is_account (owner_parts owner).1 (owner_parts owner).2 c r = true.
Proof.
  intros Hwf Ha. pose proof (account_wf _ _ _ _ _ _ Hwf Ha) as Hwf'. split; [done|].
  unfold account in Ha. destruct (owner_parts owner) as [ty oid].
  apply bind_Ok in Ha as (db & Hdb & Ha). apply bind_Ok in Ha as (r & Hr & [= -> <-]).
  apply ok_or_Ok, find_by in Hr as [Hr1 Hr2].
  assert (Hcases : led' = led \/
    fresh ∉ map acct_id (pg_accounts led) /\ led' = pg_opened fresh led ty oid c).
  { destruct (existsb (conflicts ty oid c) (pg_accounts led)); [injection Hdb as <-; by left|].
    destruct (existsb _ (pg_accounts led)) eqn:Hx in Hdb; [discriminate|]. injection Hdb as <-. right.
    split; [|done]. intros (x & -> & Hx')%list_elem_of_fmap. apply not_true_iff_false in Hx. apply Hx.
    apply existsb_exists. exists x. split; [by apply list_elem_of_In|by apply bool_decide_eq_true_2]. }
  split_and!.
  - intros ty' oid' c'. destruct Hcases as [->|[Hf ->]]; [done|by apply holding_opened].
  - destruct Hcases as [->|[Hf ->]]; [exists []; by rewrite app_nil_r|by eexists].
  - exists r. split; [|done]. apply find_account_Some; [apply pw_ids, Hwf'|done].
Qed.

(** An accepted transaction adds its entries to the accounts it names. *)
Lemma apply_holding `{HashMapOrder} fresh led kind key entries led' id :
  pg_wf led -> Forall (fun e => in_ty I64 (e_amount e)) entries -> zlen entries <= 9223372036854775808 ->
  ledger_apply fresh led kind key entries = Ok (led', id) ->
  pg_wf led' /\ pg_accounts led' = pg_accounts led /\
  forall ty oid c, holding led' ty oid c = holding led ty oid c +
    match List.find (is_account ty oid c) (pg_accounts led) with
    | Some r => moved entries (acct_id r)
    | None => 0
    end.
Proof.
  intros Hwf Hty Hlen Ha. split; [by eapply pg_step_wf; [|eapply pg_apply]|].
  apply ledger_apply_Ok in Ha as (_ & _ & _ & _ & _ & ->); [|done..]. split; [done|]. intros ty oid c.
  unfold holding. cbn [pg_posted pg_accounts].
  destruct (List.find _ _) as [r|]; [|lia]. apply entry_sum_posted.
Qed.

(** The owner classes that collecting and converting never touch. *)
Definition fixed_class (ty : OwnerType) : bool :=
  match ty with Escrow | Withheld | DepositSuspense | External => true | _ => false end.

(** The classes no posting outside trading, settlement, withdrawals and
    deposits touches. *)
Definition escrowed (ty : OwnerType) : bool :=
  match ty with Escrow | Withheld | DepositSuspense => true | _ => false end.

(** The escrows of the markets alone. *)
Definition escrow_class (ty : OwnerType) : bool := match ty with Escrow => true | _ => false end.

(** The owners that only withdrawals and deposits touch. *)
Definition reserved (o : OwnerRef) : bool :=
  match o with Ref.Withheld | Ref.DepositSuspense => true | _ => false end.

Lemma reserved_escrowed o : reserved o = true -> escrowed (owner_parts o).1 = true.
Proof. by destruct o. Qed.

Lemma reserved_fixed o : reserved o = true -> fixed_class (owner_parts o).1 = true.
Proof. by destruct o. Qed.

Section Untouched.
Context (P : OwnerType -> bool).

(** The account is of a class outside [P]. *)
Definition outside (led : PgLedger) (a : N) : Prop :=
  exists r, find_account led a = Some r /\ P (acct_type r) = false.

(** A ledger change that opens accounts and moves money only between accounts
    outside [P]. *)
Record quiet_on (led led' : PgLedger) : Prop := {
  qt_wf : pg_wf led';
  qt_holding : forall o c, P (owner_parts o).1 = true ->
    holding led' (owner_parts o).1 (owner_parts o).2 c = holding led (owner_parts o).1 (owner_parts o).2 c;
  qt_accounts : exists extra, pg_accounts led' = pg_accounts led ++ extra;
  qt_log : exists extra, pg_txns led' = pg_txns led ++ extra }.

Lemma outside_mono led led' a extra :
  pg_wf led -> pg_wf led' -> pg_accounts led' = pg_accounts led ++ extra ->
  outside led a -> outside led' a.
Proof.
  intros Hwf Hwf' E (r & Hr & Ht). exists r. split; [|done].
  apply find_account_Some in Hr as [Hi Hid]; [|apply pw_ids, Hwf].
  apply find_account_Some; [apply pw_ids, Hwf'|]. rewrite E. split; [|done].
  apply elem_of_app. by left.
Qed.

Lemma apply_keeps `{HashMapOrder} fresh led kind key entries led' id :
  pg_wf led -> Forall (fun e => in_ty I64 (e_amount e)) entries -> zlen entries <= 9223372036854775808 ->
  Forall (fun e => outside led (e_account e)) entries ->
  ledger_apply fresh led kind key entries = Ok (led', id) ->
  pg_wf led' /\ pg_accounts led' = pg_accounts led /\
  forall ty oid c, P ty = true -> holding led' ty oid c = holding led ty oid c.
Proof.
  intros Hwf Hty Hlen Hne Ha. destruct (apply_holding _ _ _ _ _ _ _ Hwf Hty Hlen Ha) as (H1 & H2 & H3).
  split_and!; [done..|]. intros ty oid c Hp. rewrite H3.
  destruct (List.find _ _) as [r|] eqn:E; [|lia]. apply find_by in E as [Hi Hr].
  unfold moved. rewrite zsum_none; [lia|]. intros e He. rewrite Forall_forall in Hne.
  destruct (Hne e He) as (r' & Hr' & Ht). rewrite bool_decide_eq_false_2; [done|]. intros E.
  apply find_account_Some in Hr' as [Hi' Hid]; [|apply pw_ids, Hwf].
  assert (r' = r) as -> by (apply (acct_id_inj led); [apply pw_ids, Hwf|done..|congruence]).
  unfold is_account in Hr. apply andb_true_iff in Hr as [[Hr%bool_decide_eq_true _]%andb_true_iff _]. congruence.
Qed.

Lemma account_txns fresh led owner c led' a :
  account fresh led owner c = Ok (led', a) -> pg_txns led' = pg_txns led.
Proof.
  unfold account. destruct (owner_parts owner) as [ty oid]. intros (d & Hd & Hr)%bind_Ok.
  apply bind_Ok in Hr as (r & _ & [= -> _]).
  destruct (existsb (conflicts ty oid c) (pg_accounts led)); [by injection Hd as <-|].
  destruct (existsb _ _) in Hd; [discriminate|]. by injection Hd as <-.
Qed.

Lemma quiet_refl led : pg_wf led -> quiet_on led led.
Proof. intros Hwf. split; try done; exists []; by rewrite app_nil_r. Qed.

Lemma quiet_trans led1 led2 led3 : quiet_on led1 led2 -> quiet_on led2 led3 -> quiet_on led1 led3.
Proof.
  intros [W1 E1 [x1 A1] [y1 T1]] [W2 E2 [x2 A2] [y2 T2]]. split; [done| | |].
  - intros o c Hp. by rewrite E2, E1.
  - exists (x1 ++ x2). by rewrite A2, A1, app_assoc.
  - exists (y1 ++ y2). by rewrite T2, T1, app_assoc.
Qed.

Lemma quiet_txns led led' t : quiet_on led led' -> t ∈ map txn_id (pg_txns led) -> t ∈ map txn_id (pg_txns led').
Proof. intros [_ _ _ [x ->]] Ht. rewrite map_app. apply elem_of_app. by left. Qed.

(** A used idempotency key stays used. *)
Lemma quiet_key led led' key id : quiet_on led led' -> txn_by_key led key = Some id -> txn_by_key led' key = Some id.
Proof.
  unfold txn_by_key. intros [_ _ _ [x ->]] (r & Hr & ->)%fmap_Some. by rewrite find_app, Hr.
Qed.

Lemma outside_quiet led led' a : pg_wf led -> quiet_on led led' -> outside led a -> outside led' a.
Proof. intros Hwf [W _ [x A] _]. by apply (outside_mono led led' a x). Qed.

Lemma account_quiet fresh led owner c led' a :
  pg_wf led -> account fresh led owner c = Ok (led', a) -> P (owner_parts owner).1 = false ->
  quiet_on led led' /\ outside led' a.
Proof.
  intros Hwf Ha Ho. destruct (account_Ok _ _ _ _ _ _ Hwf Ha) as (H1 & H2 & H3 & r & H4 & H5). split.
  - split; [done|intros o c' _; apply H2|done|]. exists []. by rewrite app_nil_r, (account_txns _ _ _ _ _ _ Ha).
  - exists r. split; [done|]. unfold is_account in H5.
    apply andb_true_iff in H5 as [[H5%bool_decide_eq_true _]%andb_true_iff _]. congruence.
Qed.

Lemma apply_quiet `{HashMapOrder} fresh led kind key a b x y led' id :
  pg_wf led -> in_ty I64 x -> in_ty I64 y -> outside led a -> outside led b ->
  ledger_apply fresh led kind key
    [{| e_account := a; e_amount := x |}; {| e_account := b; e_amount := y |}] = Ok (led', id) ->
  quiet_on led led'.
Proof.
  intros Hwf Hx Hy Ha Hb Hr.
  assert (T : exists extra, pg_txns led' = pg_txns led ++ extra).
  { apply ledger_apply_Ok in Hr as (_ & _ & _ & _ & -> & ->);
      [|done|by rewrite !Forall_cons|unfold zlen; cbn; lia]. by eexists. }
  apply apply_keeps in Hr as (W & A & E);
    [|done|by rewrite !Forall_cons|unfold zlen; cbn; lia|by rewrite !Forall_cons].
  split; [done|intros o c; apply E|exists []; by rewrite app_nil_r|done].
Qed.
End Untouched.

Notation quiet := (quiet_on escrowed).

Lemma quiet_weaken (P Q : OwnerType -> bool) led led' :
  (forall ty, Q ty = true -> P ty = true) -> quiet_on P led led' -> quiet_on Q led led'.
Proof. intros H [W E A T]. split; [done| |done..]. intros o c Hq. by apply E, H. Qed.

Lemma fixed_quiet led led' : quiet_on fixed_class led led' -> quiet led led'.
Proof. apply quiet_weaken. by intros []. Qed.

Lemma qt_escrow P led led' : quiet_on P led led' -> P Escrow = true -> forall m, escrow_of led' m = escrow_of led m.
Proof. intros Q Hp m. by apply (qt_holding P _ _ Q (Ref.MarketEscrow m)). Qed.

Section CollectionLemmas.
Context `{UuidText} `{HashMapOrder}.

Lemma convert_lot_Ok fresh i now owner lot f t1 t2 f' :
  pg_wf (fu_ledger f) -> in_ty I64 (lot_amount lot) ->
  convert_lot fresh i now owner lot f = Ok (t1, t2, f') ->
  quiet_on fixed_class (fu_ledger f) (fu_ledger f') /\
  mark_lot_converted (lot_row_id lot) now (fu_credits f) = Ok (fu_credits f') /\
  f' = set_credits (fu_credits f') (set_ledger (fu_ledger f') f).
Proof.
  intros W0 Hty Hr. unfold convert_lot in Hr. cbv zeta in Hr.
  apply bind_Ok in Hr as ([l1 a1] & H1%store_Ok & Hr). apply bind_Ok in Hr as ([l2 a2] & H2%store_Ok & Hr).
  apply bind_Ok in Hr as ([l3 a3] & H3%store_Ok & Hr). apply bind_Ok in Hr as ([l4 a4] & H4%store_Ok & Hr).
  apply bind_Ok in Hr as (neg & [-> Hneg]%arith_Ok & Hr).
  apply bind_Ok in Hr as ([l5 x1] & H5%store_Ok & Hr). apply bind_Ok in Hr as ([l6 x2] & H6%store_Ok & Hr).
  apply bind_Ok in Hr as (c & Hc%store_Ok & [= <- <- <-]). cbn.
  apply (account_quiet fixed_class) in H1 as [Q1 N1]; [|done..]. pose proof (qt_wf _ _ _ Q1) as W1.
  apply (account_quiet fixed_class) in H2 as [Q2 N2]; [|done..]. pose proof (qt_wf _ _ _ Q2) as W2.
  apply (account_quiet fixed_class) in H3 as [Q3 N3]; [|done..]. pose proof (qt_wf _ _ _ Q3) as W3.
  apply (account_quiet fixed_class) in H4 as [Q4 N4]; [|done..]. pose proof (qt_wf _ _ _ Q4) as W4.
  assert (Q5 : quiet_on fixed_class l4 l5).
  { eapply (apply_quiet fixed_class); [exact W4|exact Hneg|exact Hty| | |exact H5]; eauto 6 using outside_quiet. }
  pose proof (qt_wf _ _ _ Q5) as W5.
  assert (Q6 : quiet_on fixed_class l5 l6).
  { eapply (apply_quiet fixed_class); [exact W5|exact Hneg|exact Hty| | |exact H6]; eauto 6 using outside_quiet. }
  split_and!; [by eauto 7 using quiet_trans|done|done].
Qed.

Lemma mark_lot_Ok lot at_ db db' :
  mark_lot_converted lot at_ db = Ok db' ->
  db_trades db' = db_trades db /\ db_facts db' = db_facts db /\
  forall l r, db_lots db' !! l = Some r ->
    exists r0, db_lots db !! l = Some r0 /\ lot_amount r = lot_amount r0 /\ lot_row_id r = lot_row_id r0 /\
      lot_user r = lot_user r0.
Proof.
  unfold mark_lot_converted. destruct (db_lots db !! lot) as [r0|] eqn:E; [|done].
  case_bool_decide; [|done]. intros [= <-]. cbn. split_and!; [done..|]. intros l r.
  destruct (decide (l = lot)) as [->|]; [|rewrite lookup_insert_ne by done; naive_solver].
  rewrite lookup_insert_eq. intros [= <-]. by exists r0.
Qed.

(** What the lazy money work leaves alone. *)
Record calm (f f' : Funds) : Prop := {
  cm_fixed : quiet_on fixed_class (fu_ledger f) (fu_ledger f');
  cm_trades : db_trades (fu_credits f') = db_trades (fu_credits f);
  cm_facts : db_facts (fu_credits f') = db_facts (fu_credits f);
  cm_receivables : fu_receivables f' = fu_receivables f;
  cm_lots : forall l r, db_lots (fu_credits f') !! l = Some r ->
    exists r0, db_lots (fu_credits f) !! l = Some r0 /\ lot_amount r = lot_amount r0 /\
      lot_row_id r = lot_row_id r0 /\ lot_user r = lot_user r0;
  cm_wf : funds_wf f' }.

Lemma calm_refl f : funds_wf f -> calm f f.
Proof. intros Hf. split; try done; [apply quiet_refl, fw_ledger, Hf|]. intros l r Hr. by exists r. Qed.

Lemma calm_trans f g h : calm f g -> calm g h -> calm f h.
Proof.
  intros [Q1 T1 F1 R1 L1 W1] [Q2 T2 F2 R2 L2 W2]. split; [by eapply quiet_trans|congruence..| |done].
  intros l r (r1 & Hr1 & -> & -> & ->)%L2. by apply L1.
Qed.

Lemma convert_lot_calm fresh i now owner lot f t1 t2 f' :
  funds_wf f -> in_ty I64 (lot_amount lot) ->
  convert_lot fresh i now owner lot f = Ok (t1, t2, f') -> calm f f'.
Proof.
  intros Hf Hty Hr. destruct (convert_lot_Ok _ _ _ _ _ _ _ _ _ (fw_ledger _ Hf) Hty Hr) as (Q & M & E).
  apply mark_lot_Ok in M as (M1 & M2 & M3). split; [done..| |done|].
  - by rewrite E.
  - split; [apply Q|]. intros l r (r0 & Hr0 & -> & _)%M3. by eapply fw_lots.
Qed.

Lemma convert_loop_calm fresh lots i now owner r f r' f' :
  Forall (fun lot => in_ty I64 (lot_amount lot)) lots -> funds_wf f ->
  convert_loop fresh i now owner lots r f = Ok (r', f') -> calm f f'.
Proof.
  revert i r f. induction lots as [|lot lots IH]; intros i r f Hl Hf; cbn [convert_loop].
  { intros [= <- <-]. by apply calm_refl. }
  apply Forall_cons in Hl as [H1 Hl].
  destruct (txn_by_key _ _) as [x|], (txn_by_key _ _) as [y|]; try done; [by eapply IH|].
  intros (ready & _ & Hr)%bind_Ok. destruct ready; cbn [negb] in Hr; [|by eapply IH].
  apply bind_Ok in Hr as ([[t1 t2] f1] & Hc & Hr). apply convert_lot_calm in Hc as Q; [|done..].
  apply bind_Ok in Hr as (? & _ & Hr). apply bind_Ok in Hr as (? & _ & Hr).
  eapply calm_trans; [exact Q|]. eapply IH; [done| |exact Hr]. apply Q.
Qed.

Lemma funds_wf_ext f f' :
  funds_wf f -> fu_ledger f' = fu_ledger f -> fu_credits f' = fu_credits f -> funds_wf f'.
Proof. intros [W L] E1 E2. split; [by rewrite E1|by rewrite E2]. Qed.

Lemma insert_movement_Ok m f f' :
  insert_receivable_movement m f = Ok f' ->
  f' = mkFunds (fu_ledger f) (fu_credits f) (fu_receivables f) (fu_movements f ++ [m]) (fu_audit f) /\
  0 < mv_amount_micro m.
Proof.
  unfold insert_receivable_movement. repeat (case_if; [discriminate|]). intros [= <-]. bool_hyps. done.
Qed.

Lemma collect_loop_calm fresh i key actor txn rows remaining f f' :
  funds_wf f -> collect_loop fresh i key actor txn rows remaining f = Ok f' -> calm f f'.
Proof.
  revert i remaining f. induction rows as [|[r o] rows IH]; intros i remaining f Hf; cbn [collect_loop].
  { intros [= <-]. by apply calm_refl. }
  case_if; [intros [= <-]; by apply calm_refl|]. intros (rem & _ & Hr)%bind_Ok.
  apply bind_Ok in Hr as (f1 & [-> _]%store_Ok%insert_movement_Ok & Hr).
  eapply calm_trans; [|eapply IH; [|exact Hr]]; [|by apply (funds_wf_ext f)].
  split; try done; [exact (quiet_refl _ _ (fw_ledger _ Hf))|intros l r' Hl; by exists r'|by apply (funds_wf_ext f)].
Qed.

Lemma set_ledger_calm f led : funds_wf f -> quiet_on fixed_class (fu_ledger f) led -> calm f (set_ledger led f).
Proof.
  intros Hf Q. split; try done; [intros l r Hl; by exists r|]. split; [apply Q|apply Hf].
Qed.

Lemma checked_sum_range rows s s' :
  in_ty I64 s -> foldM (fun sum (ro : Receivable * Z) => ok_or (checked I64 (sum + ro.2)) App.Overflow) s rows
    = Ok s' -> in_ty I64 s'.
Proof.
  revert s. induction rows as [|ro rows IH]; intros s Hs; cbn [foldM]; [by intros [= <-]|].
  intros (x & [-> Hx]%ok_or_Ok%checked_Some & Hr)%bind_Ok. by eapply IH.
Qed.

Lemma auto_collect_calm fresh user key actor f c f' :
  funds_wf f -> auto_collect fresh user key actor f = Ok (c, f') -> calm f f'.
Proof.
  intros Hf Hr. pose proof (fw_ledger _ Hf) as W0. unfold auto_collect in Hr.
  apply bind_Ok in Hr as (open & _ & Hr). apply bind_Ok in Hr as (owed & Ho & Hr).
  apply checked_sum_range in Ho; [|ty].
  destruct (owed =? 0); [injection Hr as <- <-; by apply calm_refl|].
  apply bind_Ok in Hr as ([l1 a1] & H1%store_Ok & Hr). apply (account_quiet fixed_class) in H1 as [Q1 N1]; [|done..].
  pose proof (qt_wf _ _ _ Q1) as W1. apply bind_Ok in Hr as (bal & _ & Hr). cbv zeta in Hr.
  set (collect := Z.min owed (Z.max bal 0)) in *.
  destruct (Z.eqb_spec collect 0) as [|Hc]; [injection Hr as <- <-; by apply set_ledger_calm|].
  apply bind_Ok in Hr as ([l2 a2] & H2%store_Ok & Hr). apply (account_quiet fixed_class) in H2 as [Q2 N2]; [|done..].
  pose proof (qt_wf _ _ _ Q2) as W2. apply bind_Ok in Hr as (neg & [-> Hneg]%arith_Ok & Hr).
  apply bind_Ok in Hr as ([l3 txn] & H3%store_Ok & Hr).
  assert (Q3 : quiet_on fixed_class l2 l3).
  { eapply (apply_quiet fixed_class); [exact W2|exact Hneg| | | |exact H3]; [subst collect; ty|..];
      eauto using outside_quiet. }
  apply bind_Ok in Hr as (f1 & Hl & [= <- <-]).
  assert (C : calm f (set_ledger l3 f)) by (apply set_ledger_calm; eauto using quiet_trans).
  eapply calm_trans; [exact C|]. eapply collect_loop_calm; [|exact Hl]. apply C.
Qed.

Lemma lots_for_user_amounts f user :
  funds_wf f -> Forall (fun lot => in_ty I64 (lot_amount lot)) (lots_for_user (fu_credits f) user).
Proof.
  intros Hf. apply Forall_forall. intros lot Hl. unfold lots_for_user in Hl. rewrite sort_by_perm in Hl.
  apply list_elem_of_In, filter_In in Hl as [Hi _]. apply list_elem_of_In, list_elem_of_fmap in Hi as ([l r] & -> & Hi).
  apply elem_of_map_to_list in Hi. by eapply fw_lots.
Qed.

(** The lazy money work touches no escrow, allocation or receivable row. *)
Lemma convert_then_collect_calm fresh user now key f r f' :
  funds_wf f -> convert_then_collect fresh user now key f = Ok (r, f') -> calm f f'.
Proof.
  intros Hf Hr. unfold convert_then_collect in Hr. cbv zeta in Hr.
  apply bind_Ok in Hr as ([r1 f1] & H1 & Hr). apply bind_Ok in Hr as ([c f2] & H2 & [= <- <-]).
  apply convert_loop_calm in H1 as C1; [|by apply lots_for_user_amounts|done].
  eapply calm_trans; [exact C1|]. eapply auto_collect_calm; [|exact H2]. apply C1.
Qed.
End CollectionLemmas.

Lemma cm_quiet f f' : calm f f' -> quiet (fu_ledger f) (fu_ledger f').
Proof. intros C. apply fixed_quiet, C. Qed.

(** ** Lemmas: what a collection takes from whom *)

Fixpoint takes (rows : list (Receivable * Z)) (remaining : Z) : list (N * Z) :=
  match rows with
  | [] => []
  | (r, o) :: rows =>
      if remaining =? 0 then []
      else (rv_id r, Z.min remaining o) :: takes rows (remaining - Z.min remaining o)
  end.

Definition taken (l : list (N * Z)) (id : N) : Z :=
  zsum (map (fun t => if (t.1 =? id)%N then t.2 else 0) l).

Lemma outstanding_snoc f m r :
  mv_kind m = Collected ->
  outstanding_micro (mkFunds (fu_ledger f) (fu_credits f) (fu_receivables f) (fu_movements f ++ [m]) (fu_audit f)) r =
  outstanding_micro f r - (if (mv_receivable m =? rv_id r)%N then mv_amount_micro m else 0).
Proof.
  intros Hk. unfold outstanding_micro. cbn [fu_movements]. rewrite map_app, zsum_app. cbn.
  rewrite (bool_decide_eq_true_2 (mv_kind m = Collected \/ _)) by by left.
  rewrite andb_true_r. lia.
Qed.

Lemma collect_loop_takes `{UuidText} fresh i key actor txn rows remaining f f' :
  collect_loop fresh i key actor txn rows remaining f = Ok f' ->
  fu_ledger f' = fu_ledger f /\ fu_receivables f' = fu_receivables f /\
  forall r, outstanding_micro f' r = outstanding_micro f r - taken (takes rows remaining) (rv_id r).
Proof.
  revert i remaining f. induction rows as [|[r0 o] rows IH]; intros i remaining f; cbn [collect_loop takes].
  { intros [= <-]. split_and!; [done..|]. intros r. unfold taken. cbn. lia. }
  destruct (remaining =? 0).
  { intros [= <-]. split_and!; [done..|]. intros r. unfold taken. cbn. lia. }
  intros (rem & [-> _]%arith_Ok & Hr)%bind_Ok.
  apply bind_Ok in Hr as (f1 & [-> _]%store_Ok%insert_movement_Ok & Hr).
  apply IH in Hr as (H1 & H2 & H3). split_and!; [done..|]. intros r.
  rewrite H3, outstanding_snoc by done. unfold taken. cbn. lia.
Qed.

Definition open_rows (f : Funds) (l : list Receivable) : list (Receivable * Z) :=
  List.filter (fun ro => ro.2 >? 0) (map (fun r => (r, outstanding_micro f r)) l).

Lemma taken_foreign f l remaining id : id ∉ map rv_id l -> taken (takes (open_rows f l) remaining) id = 0.
Proof.
  revert remaining. induction l as [|r l IH]; intros remaining Hn; [done|].
  cbn in Hn. apply not_elem_of_cons in Hn as [Hr Hn].
  unfold open_rows in *. cbn. case_if; [|by apply IH]. cbn. destruct (remaining =? 0); [done|].
  unfold taken in *. cbn. rewrite (proj2 (N.eqb_neq _ _)) by congruence. rewrite IH by done. done.
Qed.

(** Spreading an amount over the open rows takes the lesser of it and the
    total, and never more than a row owes. *)
Lemma takes_total f l remaining :
  NoDup (map rv_id l) -> 0 <= remaining ->
  zsum (map (fun r => Z.max 0 (outstanding_micro f r - taken (takes (open_rows f l) remaining) (rv_id r))) l) =
  zsum (map (fun r => Z.max 0 (outstanding_micro f r)) l) -
  Z.min remaining (zsum (map (fun r => Z.max 0 (outstanding_micro f r)) l)).
Proof.
  revert remaining. induction l as [|r l IH]; intros remaining Hnd H0; [cbn; lia|].
  cbn in Hnd. apply NoDup_cons in Hnd as [Hn Hnd]. set (S l := zsum (map (fun r => Z.max 0 (outstanding_micro f r)) l)).
  assert (HS : 0 <= S l) by (apply zsum_nonneg, Forall_map, Forall_forall; intros; lia).
  destruct (outstanding_micro f r >? 0) eqn:Ho; rewrite Z.gtb_ltb in Ho.
  - apply Z.ltb_lt in Ho. destruct (Z.eqb_spec remaining 0) as [->|Hr].
    { assert (E : takes (open_rows f (r :: l)) 0 = []).
      { by destruct (open_rows f (r :: l)) as [|[? ?] ?]. }
      rewrite E. change (taken [] _) with 0. cbn [map zsum].
      rewrite (map_ext _ (fun r => Z.max 0 (outstanding_micro f r))) by (intros; f_equal; unfold taken; cbn; lia).
      fold (S l). unfold taken. cbn. lia. }
    assert (E : takes (open_rows f (r :: l)) remaining =
      (rv_id r, Z.min remaining (outstanding_micro f r)) ::
      takes (open_rows f l) (remaining - Z.min remaining (outstanding_micro f r))).
    { unfold open_rows. cbn. rewrite Z.gtb_ltb, (proj2 (Z.ltb_lt _ _) Ho). cbn.
      by rewrite (proj2 (Z.eqb_neq remaining 0)). }
    rewrite E. set (take := Z.min remaining (outstanding_micro f r)) in *. set (rest := takes _ _).
    cbn [map zsum]. fold (S l).
    assert (E1 : taken ((rv_id r, take) :: rest) (rv_id r) = take).
    { unfold taken. cbn. rewrite N.eqb_refl. fold (taken rest (rv_id r)). subst rest.
      rewrite taken_foreign by done. lia. }
    rewrite E1. rewrite (map_ext_in _ (fun r => Z.max 0 (outstanding_micro f r - taken rest (rv_id r)))).
    2:{ intros x Hx%list_elem_of_In. unfold taken. cbn. rewrite (proj2 (N.eqb_neq (rv_id r) (rv_id x))); [done|].
        intros Heq. apply Hn. rewrite Heq. by apply list_elem_of_fmap_2. }
    subst rest. rewrite IH by (done || lia). fold (S l). lia.
  - apply Z.ltb_ge in Ho. assert (E : open_rows f (r :: l) = open_rows f l).
    { unfold open_rows. cbn. by rewrite Z.gtb_ltb, (proj2 (Z.ltb_ge _ _) Ho). }
    rewrite E. cbn [map zsum]. rewrite taken_foreign by done. rewrite IH by done. fold (S l). lia.
Qed.

Lemma is_account_unique led ty oid c r r' :
  pg_wf led -> r ∈ pg_accounts led -> r' ∈ pg_accounts led ->
  is_account ty oid c r = true -> is_account ty oid c r' = true -> r = r'.
Proof.
  intros Hwf Hr Hr' H1 H2. apply (pw_unique _ Hwf); [done..|]. apply is_account_conflicts.
  unfold is_account in *. rewrite !andb_true_iff, !bool_decide_eq_true in *.
  destruct H1 as [[-> ->] ->]. done.
Qed.

Lemma find_row led ty oid c r :
  pg_wf led -> r ∈ pg_accounts led -> is_account ty oid c r = true ->
  List.find (is_account ty oid c) (pg_accounts led) = Some r.
Proof.
  intros Hwf Hr Hi. destruct (List.find _ _) as [r'|] eqn:E.
  - apply find_by in E as [H1 H2]. f_equal. by eapply is_account_unique.
  - apply find_none_by in E. rewrite Forall_forall in E. by rewrite E in Hi.
Qed.

(** The row behind an account id that [account] returned, in any later ledger. *)
Lemma account_row fresh led owner c led' a :
  pg_wf led -> account fresh led owner c = Ok (led', a) ->
  exists r, acct_id r = a /\ acct_type r = (owner_parts owner).1 /\
    is_account (owner_parts owner).1 (owner_parts owner).2 c r = true /\ r ∈ pg_accounts led'.
Proof.
  intros Hwf Ha. destruct (account_Ok _ _ _ _ _ _ Hwf Ha) as (W & _ & _ & r & H4 & H5).
  apply find_account_Some in H4 as [Hi Hid]; [|apply pw_ids, W]. exists r. split_and!; try done.
  unfold is_account in H5. by apply andb_true_iff in H5 as [[H5%bool_decide_eq_true _]%andb_true_iff _].
Qed.

Lemma holding_row led ty oid c r :
  pg_wf led -> r ∈ pg_accounts led -> is_account ty oid c r = true ->
  holding led ty oid c = entry_sum led (acct_id r).
Proof. intros Hwf Hr Hi. unfold holding. by rewrite (find_row _ _ _ _ r). Qed.

Lemma open_rows_Ok f user rows :
  open_receivables_for_user f user = Ok rows ->
  rows = open_rows f (sort_by receivable_le
           (List.filter (fun r => (rv_user r =? user)%N) (fu_receivables f))).
Proof.
  unfold open_receivables_for_user. generalize (sort_by receivable_le
    (List.filter (fun r => (rv_user r =? user)%N) (fu_receivables f))). intros l.
  intros (all & Ha & [= <-])%bind_Ok. unfold open_rows. f_equal. revert all Ha.
  enough (G : forall acc all,
    foldM (fun acc r => o ← bigint (outstanding_micro f r); Ok (acc ++ [(r, o)])) acc l = Ok all ->
    all = acc ++ map (fun r => (r, outstanding_micro f r)) l) by (intros all Ha; by apply G in Ha).
  induction l as [|r l IH]; intros acc all; cbn [foldM map]; [intros [= <-]; by rewrite app_nil_r|].
  intros (a & (o & Ho & [= <-])%bind_Ok & Hr)%bind_Ok. apply IH in Hr as ->.
  apply ok_or_Ok, checked_Some in Ho as [-> _]. by rewrite <- app_assoc.
Qed.

Lemma owed_sum f l s s' :
  foldM (fun sum (ro : Receivable * Z) => ok_or (checked I64 (sum + ro.2)) App.Overflow) s (open_rows f l) = Ok s' ->
  s' = s + zsum (map (fun r => Z.max 0 (outstanding_micro f r)) l).
Proof.
  revert s. induction l as [|r l IH]; intros s; [cbn; intros [= <-]; lia|].
  unfold open_rows. cbn. rewrite Z.gtb_ltb. destruct (Z.ltb_spec 0 (outstanding_micro f r)).
  - cbn [foldM]. intros (x & [-> _]%ok_or_Ok%checked_Some & Hr)%bind_Ok. apply IH in Hr. cbn in Hr. lia.
  - intros Hr. apply IH in Hr. lia.
Qed.

Lemma filter_ids (P : Receivable -> bool) l : NoDup (map rv_id l) -> NoDup (map rv_id (List.filter P l)).
Proof. intros Hnd. eapply sublist_NoDup; [exact Hnd|apply sublist_map_filter]. Qed.

(** ** Lemmas: oldest first *)

Lemma takes_open_cons f x l remaining :
  takes (open_rows f (x :: l)) remaining =
  if outstanding_micro f x >? 0 then
    if remaining =? 0 then []
    else (rv_id x, Z.min remaining (outstanding_micro f x)) ::
         takes (open_rows f l) (remaining - Z.min remaining (outstanding_micro f x))
  else takes (open_rows f l) remaining.
Proof. unfold open_rows. cbn. by destruct (_ >? 0). Qed.

Lemma taken_cons id v l x : taken ((id, v) :: l) x = (if (id =? x)%N then v else 0) + taken l x.
Proof. done. Qed.

Lemma takes_zero rows : takes rows 0 = [].
Proof. by destruct rows as [|[]]. Qed.

(** A row never gives more than it owes. *)
Lemma taken_bounds f l remaining r :
  NoDup (map rv_id l) -> 0 <= remaining -> r ∈ l ->
  0 <= taken (takes (open_rows f l) remaining) (rv_id r) <= Z.max 0 (outstanding_micro f r).
Proof.
  revert remaining. induction l as [|x l IH]; intros remaining Hnd H0 Hr; [by apply elem_of_nil in Hr|].
  cbn in Hnd. apply NoDup_cons in Hnd as [Hn Hnd]. rewrite takes_open_cons, Z.gtb_ltb.
  destruct (Z.ltb_spec 0 (outstanding_micro f x)).
  - destruct (Z.eqb_spec remaining 0); [cbn; lia|]. rewrite taken_cons. destruct (N.eqb_spec (rv_id x) (rv_id r)) as [E|E].
    + rewrite <- E, taken_foreign by done. apply elem_of_cons in Hr as [->|Hr]; [lia|].
      destruct Hn. rewrite E. by apply list_elem_of_fmap_2.
    + apply elem_of_cons in Hr as [->|Hr]; [done|]. apply IH; [done|lia|done].
  - apply elem_of_cons in Hr as [->|Hr]; [rewrite taken_foreign by done; lia|by apply IH].
Qed.

(** No row gives anything while an earlier one still owes. *)
Lemma taken_in_order f l1 l2 remaining old new :
  NoDup (map rv_id (l1 ++ old :: l2)) -> 0 <= remaining -> new ∈ l2 ->
  taken (takes (open_rows f (l1 ++ old :: l2)) remaining) (rv_id new) <> 0 ->
  taken (takes (open_rows f (l1 ++ old :: l2)) remaining) (rv_id old) = Z.max 0 (outstanding_micro f old).
Proof.
  revert remaining. induction l1 as [|x l1 IH]; intros remaining Hnd H0 Hnew; cbn in Hnd;
    apply NoDup_cons in Hnd as [Hn Hnd]; cbn [app]; rewrite takes_open_cons, Z.gtb_ltb.
  - assert (E : rv_id old <> rv_id new) by (intros E; apply Hn; rewrite E; by apply list_elem_of_fmap_2).
    destruct (Z.ltb_spec 0 (outstanding_micro f old)).
    + destruct (Z.eqb_spec remaining 0); [done|]. rewrite !taken_cons, N.eqb_refl, (proj2 (N.eqb_neq _ _) E).
      rewrite (taken_foreign f l2 _ (rv_id old)) by done. intros Hne.
      destruct (Z.le_gt_cases (outstanding_micro f old) remaining); [lia|]. exfalso. apply Hne.
      by rewrite Z.min_l, Z.sub_diag, takes_zero by lia.
    + intros _. rewrite taken_foreign by done. lia.
  - rewrite map_app in Hn. cbn in Hn. apply not_elem_of_app in Hn as [_ [Ho Hl2]%not_elem_of_cons].
    assert (E : rv_id x <> rv_id new) by (intros E; apply Hl2; rewrite E; by apply list_elem_of_fmap_2).
    destruct (Z.ltb_spec 0 (outstanding_micro f x)); [|by apply IH].
    destruct (Z.eqb_spec remaining 0); [done|]. rewrite !taken_cons, (proj2 (N.eqb_neq _ _) Ho), (proj2 (N.eqb_neq _ _) E).
    apply IH; [done|lia|done].
Qed.

Lemma receivable_le_trans : Transitive (fun a b => receivable_le a b = true).
Proof.
  intros a b c. unfold receivable_le. rewrite !orb_true_iff, !andb_true_iff, !Z.ltb_lt, !Z.eqb_eq, !N.leb_le. lia.
Qed.

Lemma receivable_le_total a b : receivable_le a b = true \/ receivable_le b a = true.
Proof. unfold receivable_le. rewrite !orb_true_iff, !andb_true_iff, !Z.ltb_lt, !Z.eqb_eq, !N.leb_le. lia. Qed.

Lemma receivable_le_antisym a b : receivable_le a b = true -> receivable_le b a = true -> rv_id a = rv_id b.
Proof. unfold receivable_le. rewrite !orb_true_iff, !andb_true_iff, !Z.ltb_lt, !Z.eqb_eq, !N.leb_le. lia. Qed.

(** The sorted rows around an older and a newer one. *)
Lemma sorted_split l old new :
  NoDup (map rv_id l) -> old ∈ l -> new ∈ l -> old <> new -> receivable_le old new = true ->
  exists l1 l2, sort_by receivable_le l = l1 ++ old :: l2 /\ new ∈ l2.
Proof.
  intros Hnd Ho Hw Hne Hle. pose proof (sort_by_perm receivable_le l) as Hp.
  pose proof (sort_by_sorted receivable_le receivable_le_trans receivable_le_total l) as Hs.
  rewrite <- Hp in Ho, Hw. apply list_elem_of_split in Ho as (l1 & l2 & E). exists l1, l2. split; [done|].
  rewrite E in Hw, Hs. apply elem_of_app in Hw as [Hw|[<-|Hw]%elem_of_cons]; [|done|done]. exfalso.
  apply StronglySorted_app in Hs as (Hs & _ & _). specialize (Hs new old Hw).
  assert (Ei : rv_id old = rv_id new).
  { apply receivable_le_antisym; [done|]. apply Hs, elem_of_cons. by left. }
  apply Hne. apply list_elem_of_lookup in Hw as [j Hj].
  assert (Hn2 : NoDup (map rv_id (l1 ++ old :: l2))) by by rewrite <- E, (Permutation_map rv_id Hp).
  rewrite map_app in Hn2. apply NoDup_app in Hn2 as (_ & Hn2 & _). exfalso.
  apply (Hn2 (rv_id new)); [apply list_elem_of_fmap_2, list_elem_of_lookup; eauto|]. rewrite <- Ei. cbn. apply elem_of_cons. by left.
Qed.

(** Collecting an amount fills the receivables in the order of their age. *)
Lemma collected_in_order `{UuidText} fresh i key actor txn user collect led f f' :
  NoDup (map rv_id (fu_receivables f)) -> 0 <= collect ->
  collect_loop fresh i key actor txn
    (open_rows f (sort_by receivable_le
       (List.filter (fun r => (rv_user r =? user)%N) (fu_receivables f)))) collect (set_ledger led f) = Ok f' ->
  forall old, old ∈ fu_receivables f -> rv_user old = user ->
    (0 <= outstanding_micro f old - outstanding_micro f' old <= Z.max 0 (outstanding_micro f old)) /\
    forall new, new ∈ fu_receivables f -> rv_user new = user -> old <> new -> receivable_le old new = true ->
      outstanding_micro f' new <> outstanding_micro f new -> outstanding_micro f' old <= 0.
Proof.
  intros Hnd Hc Hl old Ho Huo. apply collect_loop_takes in Hl as (_ & _ & Hr).
  change (outstanding_micro (set_ledger led f)) with (outstanding_micro f) in Hr.
  set (mine := List.filter _ _) in *.
  assert (Hm : NoDup (map rv_id mine)) by by apply filter_ids.
  assert (Hin : forall r, r ∈ fu_receivables f -> rv_user r = user -> r ∈ mine).
  { intros r Hi Hu. apply list_elem_of_In, filter_In. split; [by apply list_elem_of_In|by apply N.eqb_eq]. }
  assert (Hs : NoDup (map rv_id (sort_by receivable_le mine))) by by rewrite (Permutation_map rv_id (sort_by_perm _ _)).
  split.
  - pose proof (taken_bounds f _ collect old Hs Hc ltac:(rewrite sort_by_perm; by apply Hin)) as B. rewrite Hr. lia.
  - intros new Hn Hun Hne Hle. rewrite !Hr. intros Ht.
    destruct (sorted_split mine old new) as (l1 & l2 & E & H2); [by auto..|]. rewrite E in *.
    rewrite (taken_in_order f l1 l2 collect old new); [lia|done|done|done|lia].
Qed.

(** The debts after the loop. *)
Lemma collected_debts `{UuidText} fresh i key actor txn user collect led f f' :
  NoDup (map rv_id (fu_receivables f)) -> 0 <= collect <= owed_by f user ->
  collect_loop fresh i key actor txn
    (open_rows f (sort_by receivable_le
       (List.filter (fun r => (rv_user r =? user)%N) (fu_receivables f)))) collect (set_ledger led f) = Ok f' ->
  owed_by f' user = owed_by f user - collect /\
  (forall other, other <> user -> owed_by f' other = owed_by f other).
Proof.
  intros Hnd Hc Hl. apply collect_loop_takes in Hl as (_ & Hr & Ho). cbn in Hr.
  set (mine := List.filter _ _) in *. set (l := sort_by receivable_le mine) in *.
  assert (Hp : l ≡ₚ mine) by apply sort_by_perm.
  assert (Hid : NoDup (map rv_id l)).
  { rewrite (Permutation_map rv_id Hp). by apply filter_ids. }
  split.
  - pose proof (takes_total f l collect Hid ltac:(lia)) as Ht.
    rewrite !(zsum_perm _ _ (Permutation_map _ Hp)) in Ht. unfold owed_by in Hc |- *. rewrite Hr. fold mine in Hc |- *.
    rewrite (map_ext (fun r => Z.max 0 (outstanding_micro f' r)) _ (fun r => f_equal (Z.max 0) (Ho r))).
    change (outstanding_micro (set_ledger led f)) with (outstanding_micro f). lia.
  - intros other Hne. unfold owed_by. rewrite Hr. f_equal. apply map_ext_in.
    intros r [Hi Hu%N.eqb_eq]%filter_In. rewrite Ho.
    change (outstanding_micro (set_ledger led f)) with (outstanding_micro f).
    rewrite taken_foreign; [f_equal; lia|]. rewrite (Permutation_map rv_id Hp).
    intros (x & Hx & Hm)%list_elem_of_fmap. apply list_elem_of_In, filter_In in Hm as [Hm Hux%N.eqb_eq].
    assert (r = x); [|congruence].
    apply list_elem_of_In, list_elem_of_lookup in Hi as [j Hj], Hm as [k Hk].
    assert (j = k) as <-; [|congruence].
    eapply NoDup_lookup; [exact Hnd| |]; rewrite list_lookup_fmap; [by rewrite Hj|rewrite Hk; cbn; by rewrite Hx].
Qed.
