(* ===== verification/Postings.v ===== *)
(** * Postings: what ledger writes do to the balances of owners

    The use cases open accounts by owner and post entries to the ids they get
    back.  This file states the effect of both on the balance [held] of every
    owner, so that a use case's proof names owners and amounts and never
    account rows.  With it, the exact effect of [auto_collect] on the ledger and
    on the receivables. *)

From S2P Require Import Prelude Amm Ledger Resolution Economy Chars Errors Credits PgLedger Json Config Fences ConfigStore Collect.
#[local] Open Scope string_scope.
#[local] Open Scope list_scope.
#[local] Open Scope Z_scope.

#[export] Instance OwnerRef_eq_dec : EqDecision OwnerRef.
Proof. solve_decision. Defined.

(** The balance of an owner in a currency. *)
Definition held (led : PgLedger) (o : OwnerRef) (c : Currency) : Z :=
  holding led (owner_parts o).1 (owner_parts o).2 c.

(** The account id [a] is the owner's. *)
Definition owns (led : PgLedger) (a : N) (o : OwnerRef) (c : Currency) : Prop :=
  exists r, r ∈ pg_accounts led /\ acct_id r = a /\ is_account (owner_parts o).1 (owner_parts o).2 c r = true.

(** A later ledger: no account or transaction is lost. *)
Record extends (led led' : PgLedger) : Prop := {
  xt_wf : pg_wf led';
  xt_accounts : exists extra, pg_accounts led' = pg_accounts led ++ extra;
  xt_txns : exists extra, pg_txns led' = pg_txns led ++ extra }.

Record Posting := mkPosting { ps_account : N; ps_owner : OwnerRef; ps_currency : Currency; ps_amount : Z }.

Definition entry_of (p : Posting) : Entry := {| e_account := ps_account p; e_amount := ps_amount p |}.

Definition posted_to (o : OwnerRef) (c : Currency) (ps : list Posting) : Z :=
  zsum (map (fun p => if bool_decide ((ps_owner p, ps_currency p) = (o, c)) then ps_amount p else 0) ps).

Lemma escrow_held led m : escrow_of led m = held led (Ref.MarketEscrow m) Usdc.
Proof. done. Qed.

Lemma owner_parts_inj o o' : owner_parts o = owner_parts o' -> o = o'.
Proof. destruct o, o'; cbn; congruence. Qed.

Lemma is_account_eq ty oid c ty' oid' c' r :
  is_account ty oid c r = true -> is_account ty' oid' c' r = true -> (ty, oid, c) = (ty', oid', c').
Proof.
  unfold is_account. rewrite !andb_true_iff, !bool_decide_eq_true. intros [[<- <-] <-] [[<- <-] <-]. done.
Qed.

Lemma extends_refl led : pg_wf led -> extends led led.
Proof. intros W. split; [done| |]; exists []; by rewrite app_nil_r. Qed.

Lemma extends_trans a b c : extends a b -> extends b c -> extends a c.
Proof.
  intros [_ [x A] [t T]] [W [y B] [u U]]. split; [done| |].
  - exists (x ++ y). by rewrite B, A, app_assoc.
  - exists (t ++ u). by rewrite U, T, app_assoc.
Qed.

Lemma owns_extends led led' a o c : extends led led' -> owns led a o c -> owns led' a o c.
Proof.
  intros [_ [x A] _] (r & Hr & Hid & Hi). exists r. split_and!; [|done..]. rewrite A. apply elem_of_app. by left.
Qed.

Lemma owns_unique led a o c o' c' :
  pg_wf led -> owns led a o c -> owns led a o' c' -> o = o' /\ c = c'.
Proof.
  intros W (r & Hr & <- & Hi) (r' & Hr' & Hid & Hi').
  assert (r' = r) as -> by (apply (acct_id_inj led); [apply pw_ids, W|done..]).
  pose proof (is_account_eq _ _ _ _ _ _ _ Hi Hi') as E. split; [apply owner_parts_inj|]; [|congruence].
  destruct (owner_parts o), (owner_parts o'). cbn in E. congruence.
Qed.

(** An owner has one account per currency. *)
Lemma owns_id led a a' o c : pg_wf led -> owns led a o c -> owns led a' o c -> a = a'.
Proof.
  intros W (r & Hr & <- & Hi) (r' & Hr' & <- & Hi'). f_equal. by eapply is_account_unique.
Qed.

Lemma held_owns led a o c : pg_wf led -> owns led a o c -> held led o c = entry_sum led a.
Proof. intros W (r & Hr & <- & Hi). by apply holding_row. Qed.

(** Opening an account, or finding it, moves no money. *)
Lemma account_held fresh led o c led' a :
  pg_wf led -> account fresh led o c = Ok (led', a) ->
  extends led led' /\ owns led' a o c /\ forall o' c', held led' o' c' = held led o' c'.
Proof.
  intros W Ha. destruct (account_Ok _ _ _ _ _ _ W Ha) as (W' & H1 & H2 & r & H3 & H4).
  apply find_account_Some in H3 as [Hi Hid]; [|apply pw_ids, W']. split_and!.
  - split; [done..|]. exists []. by rewrite app_nil_r, (account_txns _ _ _ _ _ _ Ha).
  - by exists r.
  - intros o' c'. apply H1.
Qed.

(** The amount an owner's account receives from a list of postings. *)
Lemma moved_posted led ps o c r :
  pg_wf led -> Forall (fun p => owns led (ps_account p) (ps_owner p) (ps_currency p)) ps ->
  r ∈ pg_accounts led -> is_account (owner_parts o).1 (owner_parts o).2 c r = true ->
  moved (map entry_of ps) (acct_id r) = posted_to o c ps.
Proof.
  intros W Hps Hr Hi. unfold moved, posted_to. rewrite map_map. f_equal. apply map_ext_in.
  intros p Hp%list_elem_of_In. rewrite Forall_forall in Hps. specialize (Hps p Hp). cbn [entry_of e_account e_amount].
  assert (Ho : owns led (acct_id r) o c) by by exists r.
  destruct (decide ((ps_owner p, ps_currency p) = (o, c))) as [[= <- <-]|Hne].
  - rewrite !bool_decide_eq_true_2; [done|done|]. by eapply owns_id.
  - rewrite !bool_decide_eq_false_2; [done|done|]. intros E. rewrite E in Hps.
    destruct (owns_unique _ _ _ _ _ _ W Hps Ho). congruence.
Qed.

Lemma posted_to_none led ps o c :
  Forall (fun p => owns led (ps_account p) (ps_owner p) (ps_currency p)) ps ->
  List.find (is_account (owner_parts o).1 (owner_parts o).2 c) (pg_accounts led) = None -> posted_to o c ps = 0.
Proof.
  intros Hps Hf. unfold posted_to. apply zsum_none. intros p Hp. rewrite Forall_forall in Hps.
  rewrite bool_decide_eq_false_2; [done|]. intros [= <- <-]. destruct (Hps p Hp) as (r & Hr & _ & Hi).
  apply find_none_by in Hf. rewrite Forall_forall in Hf. by rewrite Hf in Hi.
Qed.

(** An accepted transaction gives each owner what it posts to them. *)
Lemma apply_held `{HashMapOrder} fresh led kind key ps led' id :
  pg_wf led -> Forall (fun p => owns led (ps_account p) (ps_owner p) (ps_currency p)) ps ->
  Forall (fun p => in_ty I64 (ps_amount p)) ps -> zlen ps <= 9223372036854775808 ->
  ledger_apply fresh led kind key (map entry_of ps) = Ok (led', id) ->
  extends led led' /\ (forall o c, held led' o c = held led o c + posted_to o c ps).
Proof.
  intros W Hps Hty Hlen Ha.
  assert (Hty' : Forall (fun e => in_ty I64 (e_amount e)) (map entry_of ps)) by by apply Forall_fmap.
  assert (Hlen' : zlen (map entry_of ps) <= 9223372036854775808) by (unfold zlen in *; by rewrite length_map).
  destruct (apply_holding _ _ _ _ _ _ _ W Hty' Hlen' Ha) as (W' & A & E). split.
  - apply ledger_apply_Ok in Ha as (_ & _ & _ & _ & _ & ->); [|done..]. split; [done|exists []; cbn; by rewrite app_nil_r|].
    by eexists.
  - intros o c. unfold held. rewrite E. f_equal. destruct (List.find _ _) as [r|] eqn:Ef.
    + apply find_by in Ef as [Hr Hi]. by apply (moved_posted led).
    + symmetry. by apply (posted_to_none led).
Qed.

(** The transaction of an accepted posting is found under its key. *)
Lemma apply_recorded `{HashMapOrder} fresh led kind key entries led' id :
  pg_wf led -> Forall (fun e => in_ty I64 (e_amount e)) entries -> zlen entries <= 9223372036854775808 ->
  ledger_apply fresh led kind key entries = Ok (led', id) ->
  id ∉ map txn_id (pg_txns led) /\ map txn_id (pg_txns led') = map txn_id (pg_txns led) ++ [id] /\
  txn_by_key led' key = Some id.
Proof.
  intros W Hty Hlen Ha. apply ledger_apply_Ok in Ha as (_ & _ & Hk & Hf & -> & ->); [|done..].
  split_and!; [done|unfold pg_posted; cbn; by rewrite map_app|].
  unfold txn_by_key, pg_posted. cbn [pg_txns]. rewrite find_app.
  destruct (List.find _ (pg_txns led)) as [x|] eqn:Ef; [|cbn; by rewrite String.eqb_refl].
  apply find_by in Ef as [Hx Hxk%String.eqb_eq]. destruct Hk. rewrite <- Hxk. by apply list_elem_of_fmap_2.
Qed.

Lemma apply_log `{HashMapOrder} fresh led kind key entries led' id :
  ledger_apply fresh led kind key entries = Ok (led', id) -> exists extra, pg_txns led' = pg_txns led ++ extra.
Proof.
  unfold ledger_apply. intros (? & _ & Hr)%bind_Ok. apply bind_Ok in Hr as (? & _ & Hr). destruct (negb _) in Hr; [done|].
  apply bind_Ok in Hr as (? & _ & Hr). apply bind_Ok in Hr as (? & _ & Hr).
  destruct (existsb _ _) in Hr; [done|]. injection Hr as <- _. by eexists.
Qed.

(** A key is used once. *)
Lemma apply_key_new `{HashMapOrder} fresh led kind key entries led' id :
  ledger_apply fresh led kind key entries = Ok (led', id) -> txn_by_key led key = None.
Proof.
  unfold ledger_apply. intros (? & _ & Hr)%bind_Ok. apply bind_Ok in Hr as (? & _ & Hr). destruct (negb _) in Hr; [done|].
  apply bind_Ok in Hr as (? & _ & Hr). apply bind_Ok in Hr as (? & _ & Hr).
  destruct (existsb _ _) eqn:E in Hr; [done|]. unfold txn_by_key. destruct (List.find _ _) as [t|] eqn:Ef; [|done].
  apply find_by in Ef as [Ht Hk]. apply existsb_false in E. rewrite Forall_forall in E.
  specialize (E t Ht). cbn in E. by rewrite Hk in E.
Qed.

Create HintDb ledger.
#[export] Hint Resolve owns_extends extends_trans extends_refl xt_wf : ledger.

(** The side conditions of [apply_held] on a literal list of postings. *)
Ltac posting_side :=
  rewrite ?Forall_cons, ?Forall_nil; cbn [ps_account ps_owner ps_currency ps_amount];
  repeat match goal with |- _ /\ _ => split end; try (assumption || done || by eauto 9 with ledger).

(** Evaluates what literal postings give an owner. *)
Ltac posted_simpl :=
  unfold posted_to; cbn [map zsum ps_owner ps_currency ps_amount];
  repeat (case_bool_decide; simplify_eq).

(** ** The cash of a collection *)

(** What the transfer of a collection posts. *)
Definition collection (user : N) (amount : Z) (user_account house : N) : list Posting :=
  [mkPosting user_account (Ref.User user) Usdc (- amount); mkPosting house Ref.House Usdc amount].

Lemma transfer_held `{HashMapOrder} fresh led led1 led2 led3 user f1 f2 a1 a2 collect kind key txn :
  pg_wf led -> account f1 led (Ref.User user) Usdc = Ok (led1, a1) ->
  account f2 led1 Ref.House Usdc = Ok (led2, a2) -> in_ty I64 collect -> in_ty I64 (- collect) ->
  ledger_apply fresh led2 kind key
    [{| e_account := a1; e_amount := - collect |}; {| e_account := a2; e_amount := collect |}] = Ok (led3, txn) ->
  forall o c, held led3 o c = held led o c + posted_to o c (collection user collect a1 a2).
Proof.
  intros W0 H1 H2 Hc Hn H3. apply account_held in H1 as (X1 & O1 & E1); [|done].
  apply account_held in H2 as (X2 & O2 & E2); [|apply X1].
  apply (apply_held _ _ _ _ (collection user collect a1 a2)) in H3 as (_ & E3);
    [|apply X2|unfold collection; posting_side..|unfold zlen; cbn; lia].
  intros o c. by rewrite E3, E2, E1.
Qed.

(** ** Properties *)

(** C37: collection takes exactly what is owed and available, gives it to the
    house and settles the oldest debts first.  When [auto_collect] succeeds it
    collects [c], the lesser of the user's outstanding receivables and the
    user's cash.  In the ledger the user's cash falls by [c], the cash of the
    house rises by [c], and every other balance of every owner stays.  The
    user's outstanding total falls by [c] and no other user's debt moves; no
    receivable gives more than it owes, and one gives something only when every
    older receivable of the user (by creation time, then id) is settled. *)
Theorem auto_collect_exact `{UuidText} `{HashMapOrder} (fresh : nat -> N) (user : N)
    (key actor : string) (f f' : Funds) (c : Z) :
  funds_wf f -> NoDup (map rv_id (fu_receivables f)) ->
  auto_collect fresh user key actor f = Ok (c, f') ->
  c = Z.min (owed_by f user) (Z.max (held (fu_ledger f) (Ref.User user) Usdc) 0) /\
  held (fu_ledger f') (Ref.User user) Usdc = held (fu_ledger f) (Ref.User user) Usdc - c /\
  held (fu_ledger f') Ref.House Usdc = held (fu_ledger f) Ref.House Usdc + c /\
  (forall o cur, (o, cur) <> (Ref.User user, Usdc) -> (o, cur) <> (Ref.House, Usdc) ->
     held (fu_ledger f') o cur = held (fu_ledger f) o cur) /\
  owed_by f' user = owed_by f user - c /\
  (forall other, other <> user -> owed_by f' other = owed_by f other) /\
  (forall old, old ∈ fu_receivables f -> rv_user old = user ->
     (0 <= outstanding_micro f old - outstanding_micro f' old <= Z.max 0 (outstanding_micro f old)) /\
     forall new, new ∈ fu_receivables f -> rv_user new = user -> old <> new -> receivable_le old new = true ->
       outstanding_micro f' new <> outstanding_micro f new -> outstanding_micro f' old <= 0).
Proof.
  intros Hf Hnd Hr. pose proof (fw_ledger _ Hf) as W0. unfold auto_collect in Hr.
  apply bind_Ok in Hr as (open & Hopen%store_Ok%open_rows_Ok & Hr). subst open.
  apply bind_Ok in Hr as (owed & Ho & Hr).
  assert (Hty : in_ty I64 owed) by (eapply checked_sum_range; [|exact Ho]; ty). apply owed_sum in Ho.
  assert (Howed : owed = owed_by f user).
  { rewrite Ho. unfold owed_by. rewrite (zsum_perm _ _ (Permutation_map _ (sort_by_perm _ _))). lia. }
  assert (Hpos : 0 <= owed_by f user) by (apply zsum_nonneg, Forall_map, Forall_forall; intros; lia).
  destruct (Z.eqb_spec owed 0) as [E0|E0].
  { injection Hr as <- <-. split_and!; try lia; try done. intros old _ _. split; [lia|done]. }
  apply bind_Ok in Hr as ([l1 a1] & H1%store_Ok & Hr). apply bind_Ok in Hr as (bal & Hb & Hr).
  apply store_Ok, ok_or_Ok, checked_Some in Hb as [-> Hb]. cbv zeta in Hr.
  set (collect := Z.min owed (Z.max (entry_sum l1 a1) 0)) in *.
  destruct (account_held _ _ _ _ _ _ W0 H1) as (X1 & O1 & E1).
  assert (Hbal : entry_sum l1 a1 = held (fu_ledger f) (Ref.User user) Usdc).
  { rewrite <- E1. symmetry. by apply held_owns; [apply X1|]. }
  destruct (Z.eqb_spec collect 0) as [Ec|Ec].
  { injection Hr as <- <-. cbn [fu_ledger set_ledger]. split_and!; try (rewrite ?E1; lia); try done.
    - change (owed_by (set_ledger l1 f) user) with (owed_by f user). lia.
    - intros old _ _. change (outstanding_micro (set_ledger l1 f)) with (outstanding_micro f). split; [lia|done]. }
  apply bind_Ok in Hr as ([l2 a2] & H2%store_Ok & Hr). apply bind_Ok in Hr as (neg & [-> Hneg]%arith_Ok & Hr).
  apply bind_Ok in Hr as ([l3 txn] & H3%store_Ok & Hr). apply bind_Ok in Hr as (f1 & Hl & [= <- <-]).
  assert (Hct : in_ty I64 collect) by (subst collect; ty).
  pose proof (transfer_held _ _ _ _ _ _ _ _ _ _ _ _ _ _ W0 H1 H2 Hct Hneg H3) as C1.
  pose proof (collect_loop_takes _ _ _ _ _ _ _ _ _ Hl) as (L & _ & _). cbn in L.
  assert (Hc0 : 0 <= collect) by lia. pose proof (collected_in_order _ _ _ _ _ _ _ _ _ _ Hnd Hc0 Hl) as D3.
  apply collected_debts in Hl as [D1 D2]; [|done|lia].
  split_and!; try done; [lia|..]; rewrite ?L; intros; rewrite ?C1; unfold collection; posted_simpl; try lia; done.
Qed.

(** A user with ten dollars who owes four and eight on two receivables. *)
Definition demo_funds : Funds :=
  mkFunds
    {| pg_accounts :=
         [ {| acct_id := 1; acct_type := User; acct_owner := Some 7%N; acct_currency := Usdc |};
           {| acct_id := 2; acct_type := External; acct_owner := None; acct_currency := Usdc |} ];
       pg_txns := [{| txn_id := 1; txn_kind := Deposit; txn_key := "dep" |}];
       pg_entries := [ {| entry_txn := 1; entry_account := 1; entry_amount := 10 |};
                       {| entry_txn := 1; entry_account := 2; entry_amount := -10 |} ] |}
    {| db_trades := ∅; db_lots := ∅; db_facts := [] |}
    [mkReceivable 21 31 7 41 8 200; mkReceivable 20 30 7 40 4 100] []
    [mkAdminAction Superadmin "s" "unwind" ("market:" +:+ uuid_text 30) None None None;
     mkAdminAction Superadmin "s" "unwind" ("market:" +:+ uuid_text 31) None None None].

Lemma demo_funds_wf : funds_wf demo_funds.
Proof.
  split; [|by intros l r]. apply (pg_reachable_wf (H := canonical_order)).
  set (l1 := pg_opened 1 pg_empty User (Some 7%N) Usdc).
  set (l2 := pg_opened 2 l1 External None Usdc).
  eapply rtc_l; [apply (pg_account (H := canonical_order) 1 _ l1 (Ref.User 7) Usdc 1); vm_compute; reflexivity|].
  eapply rtc_l; [apply (pg_account (H := canonical_order) 2 _ l2 Ref.External Usdc 2); vm_compute; reflexivity|].
  eapply rtc_l; [|apply rtc_refl].
  apply (pg_apply (H := canonical_order) 1 l2 _ Deposit "dep"
    [{| e_account := 1%N; e_amount := 10 |}; {| e_account := 2%N; e_amount := -10 |}] 1).
  - apply (bool_decide_unpack _). vm_compute. exact I.
  - vm_compute. discriminate.
  - vm_compute. reflexivity.
Qed.

Lemma auto_collect_exact_witness :
  exists f', auto_collect (H0 := canonical_order) (fun n => N.of_nat (100 + n)) 7 "k" "machine" demo_funds
               = Ok (10, f') /\ owed_by f' 7 = 2 /\ held (fu_ledger f') Ref.House Usdc = 10 /\
  outstanding_micro f' (mkReceivable 20 30 7 40 4 100) <= 0.
Proof.
  eexists. split; [vm_compute; reflexivity|].
  match goal with |- owed_by ?f' 7 = _ /\ _ =>
    destruct (auto_collect_exact (H0 := canonical_order) (fun n => N.of_nat (100 + n)) 7 "k" "machine"
      demo_funds f' 10) as (_ & _ & Hh & _ & D & _ & Ho)
  end.
  - apply demo_funds_wf.
  - apply (bool_decide_unpack _). vm_compute. exact I.
  - vm_compute. reflexivity.
  - split_and!; [rewrite D; vm_compute; reflexivity|rewrite Hh; vm_compute; reflexivity|].
    destruct (Ho (mkReceivable 20 30 7 40 4 100)) as [_ Hold];
      [cbn; set_solver|reflexivity|].
    apply (Hold (mkReceivable 21 31 7 41 8 200));
      [cbn; set_solver|reflexivity|discriminate|reflexivity|vm_compute; discriminate].
Defined.
