(* ===== verification/Book.v ===== *)
(** * Book: the market tables and their transaction

    The tables behind trading, voting and resolution, the row decoders of
    [pg/rows.rs] and the reads and writes of the Postgres transaction in
    [pg/trade_tx.rs] that the use cases share.  A [Db] is one consistent state
    of all tables; a use case reads it, computes, and commits a new one or
    leaves it.  Times are whole seconds; [db_now] is the database clock of a
    transaction.  The specification at the end is the accounting of complete
    sets that trading keeps and settlement needs. *)

From S2P Require Import Prelude Money Amm Ledger Market Resolution Economy Integrity Chars Errors Credits PgLedger Json Config Fences ConfigStore Compliance Collect Postings.
#[local] Open Scope string_scope.
#[local] Open Scope list_scope.
#[local] Open Scope Z_scope.

(** ** Tables *)

(** A row of [markets], less its texts. *)
Record MarketRecord := mkMarketRecord {
  ma_status : string; ma_min_votes : Z; ma_vote_seq : Z; ma_opens_at : option Z; ma_closes_at : option Z;
  ma_tally_hidden_at : option Z; ma_curator_flagged_at : option Z; ma_integrity_due_at : option Z;
  ma_lp_pnl : option Z; ma_settled_at : option Z; ma_collateral_at_close : option Z }.

Record OutcomeRow := mkOutcome {
  oc_id : N; oc_market : N; oc_idx : Z; oc_final_vote_bps : option Z; oc_redemption : option Z }.

Record PoolRecord := mkPoolRecord { pl_fee_bps : Z; pl_seeded : Z }.

Record PositionRow := mkPosition {
  po_user : N; po_outcome : N; po_shares : Z; po_cost : Z; po_realized_pnl : Z }.

Record TradeRow := mkTrade {
  tr_id : N; tr_user : N; tr_market : N; tr_outcome : N; tr_run : option N;
  tr_pending_action : option N; tr_txn : N; tr_side : string; tr_collateral : Z; tr_shares : Z;
  tr_fee : Z; tr_seq : Z; tr_created_at : Z }.

(** [std::net::IpAddr]; the column is [inet]. *)
Inductive IpAddr := V4 (bits : N) | V6 (bits : N).

#[export] Instance IpAddr_eq_dec : EqDecision IpAddr.
Proof. solve_decision. Defined.

Record VoteRow := mkVote {
  vo_id : N; vo_user : N; vo_market : N; vo_outcome : N; vo_guess : Z; vo_seq : Z; vo_key : string;
  vo_created_at : Z; vo_cast_ip : option IpAddr; vo_device : option string }.

Record LifecycleCommand := mkLifecycle {
  lc_market : N; lc_event : MarketEvent; lc_resulting_state : MarketState }.

(** [pools] by market, [pool_reserves] by outcome, [positions] by user and
    outcome, [reputation] as points and tier, [vote_scores] by vote,
    [integrity_reports] as the verdict of each market, [lifecycle_commands] by
    key, [user_channels] as pairs, [users.created_at], and the slugs of
    [markets]. *)
Record Book := mkBook {
  bk_markets : gmap N MarketRecord; bk_outcomes : list OutcomeRow; bk_pools : gmap N PoolRecord;
  bk_reserves : gmap N Z; bk_positions : gmap (N * N) PositionRow; bk_trades : list TradeRow;
  bk_votes : list VoteRow; bk_reputation : gmap N (Z * Z); bk_scores : gmap N VoteScore;
  bk_reports : gmap N string; bk_lifecycle : gmap string LifecycleCommand;
  bk_channels : gset (N * string); bk_created : gmap N Z; bk_slugs : gset string }.

Definition set_markets (x : gmap N MarketRecord) (b : Book) : Book :=
  mkBook x (bk_outcomes b) (bk_pools b) (bk_reserves b) (bk_positions b) (bk_trades b) (bk_votes
  b) (bk_reputation b) (bk_scores b) (bk_reports b) (bk_lifecycle b) (bk_channels b) (bk_created
  b) (bk_slugs b).
Definition set_outcomes (x : list OutcomeRow) (b : Book) : Book :=
  mkBook (bk_markets b) x (bk_pools b) (bk_reserves b) (bk_positions b) (bk_trades b) (bk_votes b)
  (bk_reputation b) (bk_scores b) (bk_reports b) (bk_lifecycle b) (bk_channels b) (bk_created b)
  (bk_slugs b).
Definition set_pools (x : gmap N PoolRecord) (b : Book) : Book :=
  mkBook (bk_markets b) (bk_outcomes b) x (bk_reserves b) (bk_positions b) (bk_trades b) (bk_votes
  b) (bk_reputation b) (bk_scores b) (bk_reports b) (bk_lifecycle b) (bk_channels b) (bk_created
  b) (bk_slugs b).
Definition set_reserves (x : gmap N Z) (b : Book) : Book :=
  mkBook (bk_markets b) (bk_outcomes b) (bk_pools b) x (bk_positions b) (bk_trades b) (bk_votes b)
  (bk_reputation b) (bk_scores b) (bk_reports b) (bk_lifecycle b) (bk_channels b) (bk_created b)
  (bk_slugs b).
Definition set_positions (x : gmap (N * N) PositionRow) (b : Book) : Book :=
  mkBook (bk_markets b) (bk_outcomes b) (bk_pools b) (bk_reserves b) x (bk_trades b) (bk_votes b)
  (bk_reputation b) (bk_scores b) (bk_reports b) (bk_lifecycle b) (bk_channels b) (bk_created b)
  (bk_slugs b).
Definition set_trades (x : list TradeRow) (b : Book) : Book :=
  mkBook (bk_markets b) (bk_outcomes b) (bk_pools b) (bk_reserves b) (bk_positions b) x (bk_votes
  b) (bk_reputation b) (bk_scores b) (bk_reports b) (bk_lifecycle b) (bk_channels b) (bk_created
  b) (bk_slugs b).
Definition set_votes (x : list VoteRow) (b : Book) : Book :=
  mkBook (bk_markets b) (bk_outcomes b) (bk_pools b) (bk_reserves b) (bk_positions b) (bk_trades
  b) x (bk_reputation b) (bk_scores b) (bk_reports b) (bk_lifecycle b) (bk_channels b) (bk_created
  b) (bk_slugs b).
Definition set_reputation (x : gmap N (Z * Z)) (b : Book) : Book :=
  mkBook (bk_markets b) (bk_outcomes b) (bk_pools b) (bk_reserves b) (bk_positions b) (bk_trades
  b) (bk_votes b) x (bk_scores b) (bk_reports b) (bk_lifecycle b) (bk_channels b) (bk_created b)
  (bk_slugs b).
Definition set_scores (x : gmap N VoteScore) (b : Book) : Book :=
  mkBook (bk_markets b) (bk_outcomes b) (bk_pools b) (bk_reserves b) (bk_positions b) (bk_trades
  b) (bk_votes b) (bk_reputation b) x (bk_reports b) (bk_lifecycle b) (bk_channels b) (bk_created
  b) (bk_slugs b).
Definition set_reports (x : gmap N string) (b : Book) : Book :=
  mkBook (bk_markets b) (bk_outcomes b) (bk_pools b) (bk_reserves b) (bk_positions b) (bk_trades
  b) (bk_votes b) (bk_reputation b) (bk_scores b) x (bk_lifecycle b) (bk_channels b) (bk_created
  b) (bk_slugs b).
Definition set_lifecycle (x : gmap string LifecycleCommand) (b : Book) : Book :=
  mkBook (bk_markets b) (bk_outcomes b) (bk_pools b) (bk_reserves b) (bk_positions b) (bk_trades
  b) (bk_votes b) (bk_reputation b) (bk_scores b) (bk_reports b) x (bk_channels b) (bk_created b)
  (bk_slugs b).
Definition set_slugs (x : gset string) (b : Book) : Book :=
  mkBook (bk_markets b) (bk_outcomes b) (bk_pools b) (bk_reserves b) (bk_positions b) (bk_trades
  b) (bk_votes b) (bk_reputation b) (bk_scores b) (bk_reports b) (bk_lifecycle b) (bk_channels b)
  (bk_created b) x.

Inductive RealizationSource := SellSource | SettlementSource | VoidSource.

Record RealizationFact := mkRealization {
  re_user : N; re_market : N; re_outcome : N; re_source : RealizationSource;
  re_realized_delta : Z; re_payout : Z; re_txn : N; re_created_at : Z }.

Record BindRow := mkBind { rb_id : N; rb_referrer : N; rb_referee : N; rb_key : string }.

(** [referral_codes] as user and code, [referral_binds], the users with a
    verified row in [phone_verifications], and the idempotency keys of
    [credit_grant_lots]. *)
Record ReferralDb := mkReferralDb {
  rf_codes : list (N * string); rf_binds : list BindRow; rf_phones : gset N; rf_lot_keys : gmap string N }.

(** All tables. *)
Record Db := mkDb {
  td_funds : Funds; td_ops : OpsDb; td_comp : ComplianceDb; td_book : Book;
  td_fingerprints : gmap string str; td_realizations : list RealizationFact; td_referrals : ReferralDb }.

Definition set_funds (f : Funds) (db : Db) : Db :=
  mkDb f (td_ops db) (td_comp db) (td_book db) (td_fingerprints db) (td_realizations db)
    (td_referrals db).
Definition set_book (b : Book) (db : Db) : Db :=
  mkDb (td_funds db) (td_ops db) (td_comp db) b (td_fingerprints db) (td_realizations db)
    (td_referrals db).
Definition set_referrals (r : ReferralDb) (db : Db) : Db :=
  mkDb (td_funds db) (td_ops db) (td_comp db) (td_book db) (td_fingerprints db) (td_realizations db) r.
Definition set_comp (c : ComplianceDb) (db : Db) : Db :=
  mkDb (td_funds db) (td_ops db) c (td_book db) (td_fingerprints db) (td_realizations db)
    (td_referrals db).
Definition set_ops (o : OpsDb) (db : Db) : Db :=
  mkDb (td_funds db) o (td_comp db) (td_book db) (td_fingerprints db) (td_realizations db)
    (td_referrals db).

(** [OffsetDateTime] arithmetic panics outside the years -9999 to 9999. *)
Definition datetime {E} (z : Z) : outcome E Z :=
  if (-377705116800 <=? z) && (z <=? 253402300799) then Ok z else Panic.

(** ** Rows, [pg/rows.rs] *)

Record MarketRow := mkMarketRow {
  mk_id : N; mk_state : MarketState; mk_min_votes : Z; mk_opens_at : Z; mk_closes_at : Z;
  mk_tally_hidden_at : Z; mk_yes_outcome : N; mk_no_outcome : N;
  mk_curator_flagged_at : option Z; mk_integrity_due_at : option Z }.

Definition market_state (value : string) : outcome StoreError MarketState :=
  if bool_decide (value = "draft") then Ok Draft
  else if bool_decide (value = "scheduled") then Ok Scheduled
  else if bool_decide (value = "live") then Ok Live
  else if bool_decide (value = "closing") then Ok Closing
  else if bool_decide (value = "closed") then Ok Closed
  else if bool_decide (value = "resolving") then Ok Resolving
  else if bool_decide (value = "resolved") then Ok Resolved
  else if bool_decide (value = "paid") then Ok Paid
  else if bool_decide (value = "voided") then Ok Voided
  else Err (Store.Invariant "unknown market status").

Definition market_state_name (s : MarketState) : string :=
  match s with
  | Draft => "draft" | Scheduled => "scheduled" | Live => "live" | Closing => "closing"
  | Closed => "closed" | Resolving => "resolving" | Resolved => "resolved" | Paid => "paid"
  | Voided => "voided"
  end.

(** The outcome of a market with an index, [unique (market_id, idx)]. *)
Definition outcome_of (b : Book) (market : N) (idx : Z) : option N :=
  oc_id <$> List.find (fun o => (oc_market o =? market)%N && (oc_idx o =? idx)) (bk_outcomes b).

Definition market_from_row (id : N) (r : MarketRecord) (yes no : N) : outcome StoreError MarketRow :=
  closes ← ok_or (ma_closes_at r) (Store.Invariant "market has no closes_at");
  hidden ← ok_or (ma_tally_hidden_at r) (Store.Invariant "market has no tally_hidden_at");
  state ← market_state (ma_status r);
  opens ← ok_or (ma_opens_at r) (Store.Invariant "market has no opens_at");
  Ok (mkMarketRow id state (ma_min_votes r) opens closes hidden yes no (ma_curator_flagged_at r)
        (ma_integrity_due_at r)).

Definition action_name (a : TradeAction) : string := match a with Buy => "buy" | Sell => "sell" end.

Definition action_parse (value : string) : outcome StoreError TradeAction :=
  if bool_decide (value = "buy") then Ok Buy
  else if bool_decide (value = "sell") then Ok Sell
  else Err (Store.Invariant "unknown trade action").

Definition side_from_idx (idx : Z) : outcome StoreError Side :=
  if idx =? 0 then Ok Yes else if idx =? 1 then Ok No
  else Err (Store.Invariant "unknown outcome index").

Definition side_idx (side : Side) : Z := match side with Yes => 0 | No => 1 end.

(** ** The transaction, [pg/trade_tx.rs] *)

Definition market_for_update (b : Book) (market : N) : outcome StoreError MarketRow :=
  match bk_markets b !! market, outcome_of b market 0, outcome_of b market 1 with
  | Some r, Some yes, Some no => market_from_row market r yes no
  | _, _, _ => Err (Store.NotFound "market")
  end.

Definition user_voted (b : Book) (user market : N) : bool :=
  existsb (fun v => (vo_user v =? user)%N && (vo_market v =? market)%N) (bk_votes b).

Record Tally := mkTally { yes_votes : Z; no_votes : Z }.

(** The outcome row a vote joins with. *)
Definition vote_outcome (b : Book) (v : VoteRow) : option OutcomeRow :=
  List.find (fun o => (oc_id o =? vo_outcome v)%N && (oc_market o =? vo_market v)%N) (bk_outcomes b).

Definition votes_with (b : Book) (market : N) (idx : Z) : Z :=
  zlen (List.filter (fun v => (vo_market v =? market)%N &&
                              bool_decide ((oc_idx <$> vote_outcome b v) = Some idx)) (bk_votes b)).

Definition tally (b : Book) (market : N) : Tally := mkTally (votes_with b market 0) (votes_with b market 1).

Definition votes_count_since (b : Book) (user : N) (since : Z) : outcome StoreError Z :=
  ok_or (checked U32 (zlen (List.filter (fun v => (vo_user v =? user)%N && (since <=? vo_created_at v))
                              (bk_votes b))))
    (Store.Invariant "vote count overflow").

Definition user_created_at (b : Book) (user : N) : outcome StoreError Z :=
  ok_or (bk_created b !! user) (Store.NotFound "user").

Definition user_has_channel (b : Book) (user : N) (channel : string) : bool :=
  bool_decide ((user, channel) ∈ bk_channels b).

(** [pool_from_row] over the joined rows. *)
Definition pool_for_update (b : Book) (market : N) : outcome StoreError Pool :=
  match bk_pools b !! market, outcome_of b market 0 ≫= (bk_reserves b !!.),
        outcome_of b market 1 ≫= (bk_reserves b !!.) with
  | Some p, Some yes, Some no =>
      fee ← ok_or (checked U16 (pl_fee_bps p)) (Store.Invariant "invalid pool fee");
      map_err (fun _ => Store.Invariant "invalid pool reserves") (pool_new yes no fee)
  | _, _, _ => Err (Store.NotFound "pool")
  end.

(** Both reserve rows are updated, under the check that they are not negative. *)
Definition save_reserves (market : N) (pool : Pool) (b : Book) : outcome StoreError Book :=
  if (p_yes pool <? 0) || (p_no pool <? 0)
  then Err (Store.Integrity "pool_reserves_reserve_micro_shares_check") else
  match outcome_of b market 0, outcome_of b market 1 with
  | Some yes, Some no =>
      if bool_decide (is_Some (bk_reserves b !! yes)) && bool_decide (is_Some (bk_reserves b !! no))
      then Ok (set_reserves (<[no := p_no pool]> (<[yes := p_yes pool]> (bk_reserves b))) b)
      else Err (Store.Invariant "pool does not have exactly two reserves")
  | _, _ => Err (Store.Invariant "pool does not have exactly two reserves")
  end.

Definition position_for_update (b : Book) (user out : N) : option PositionRow :=
  bk_positions b !! (user, out).

Definition save_position (p : PositionRow) (b : Book) : outcome StoreError Book :=
  if po_shares p <? 0 then Err (Store.Integrity "positions_shares_micro_check")
  else Ok (set_positions (<[(po_user p, po_outcome p) := p]> (bk_positions b)) b).

Definition user_rep (b : Book) (user : N) : outcome StoreError (Z * Z) :=
  r ← ok_or (bk_reputation b !! user) (Store.NotFound "reputation");
  tier ← ok_or (checked U8 r.2) (Store.Invariant "invalid reputation tier");
  Ok (r.1, tier).

Definition max_list (l : list Z) : option Z :=
  match l with [] => None | x :: l => Some (fold_left Z.max l x) end.

Definition last_buy_at (b : Book) (user out : N) : option Z :=
  max_list (map tr_created_at
    (List.filter (fun t => (tr_user t =? user)%N && (tr_outcome t =? out)%N &&
                           bool_decide (tr_side t = "buy")) (bk_trades b))).

(** [sum(cost_micro)::bigint] over the user's positions in the market. *)
Definition market_position_cost (b : Book) (user market : N) : outcome StoreError Z :=
  bigint (msum (fun k p => if (k.1 =? user)%N &&
                              existsb (fun o => (oc_id o =? k.2)%N && (oc_market o =? market)%N) (bk_outcomes b)
                           then po_cost p else 0) (bk_positions b)).

Record NewTrade := mkNewTrade {
  nt_market : N; nt_user : N; nt_outcome : N; nt_side : Side; nt_action : TradeAction;
  nt_shares : Z; nt_gross : Z; nt_fee : Z; nt_avg_price_micro : Z; nt_ledger_txn : N;
  nt_run_id : option N; nt_pending_action_id : option N }.

Record InsertedTrade := mkInserted { it_id : N; it_trade_seq : Z; it_created_at : Z }.

(** The insert under the table's checks and unique keys; [fresh] is the id.  The
    projection of [trades] that the credit guards read grows with the table. *)
Definition insert_trade (fresh : N) (db_now : Z) (t : NewTrade) (db : Db) :
    outcome StoreError (InsertedTrade * Db) :=
  let b := td_book db in
  idx ← ok_or (oc_idx <$> List.find (fun o => (oc_id o =? nt_outcome t)%N &&
                                              (oc_market o =? nt_market t)%N) (bk_outcomes b))
          (Store.NotFound "outcome");
  side ← side_from_idx idx;
  if negb (bool_decide (side = nt_side t))
  then Err (Store.Invariant "trade side does not match outcome") else
  let seqs := map tr_seq (List.filter (fun r => (tr_market r =? nt_market t)%N) (bk_trades b)) in
  seq ← bigint (default 0 (max_list seqs) + 1);
  if (nt_gross t <=? 0) || (nt_shares t <=? 0) || (nt_fee t <? 0)
  then Err (Store.Integrity "trades check") else
  if existsb (fun r => (tr_id r =? fresh)%N ||
       bool_decide (is_Some (nt_pending_action_id t) /\ tr_pending_action r = nt_pending_action_id t))
       (bk_trades b)
  then Err (Store.Integrity "trades unique key") else
  let row := mkTrade fresh (nt_user t) (nt_market t) (nt_outcome t) (nt_run_id t)
               (nt_pending_action_id t) (nt_ledger_txn t) (action_name (nt_action t)) (nt_gross t)
               (nt_shares t) (nt_fee t) seq db_now in
  let credits := fu_credits (td_funds db) in
  Ok (mkInserted fresh seq db_now,
      set_funds (set_credits {| db_trades := <[fresh := (nt_fee t, nt_market t)]> (db_trades credits);
                                db_lots := db_lots credits; db_facts := db_facts credits |} (td_funds db))
        (set_book (set_trades (bk_trades b ++ [row]) b) db)).

Record TradeReceipt := mkReceipt {
  rt_trade_id : N; rt_ledger_txn : N; rt_side : Side; rt_action : TradeAction; rt_shares : Z;
  rt_gross : Z; rt_fee : Z; rt_avg_price_micro : Z; rt_replayed : bool }.

Definition trade_receipt (t : TradeRow) (idx : Z) : outcome StoreError TradeReceipt :=
  scaled ← ok_or (checked I128 (tr_collateral t * 1000000))
             (Store.Invariant "trade average price overflow");
  avg ← sdiv I128 scaled (tr_shares t);
  side ← side_from_idx idx;
  action ← action_parse (tr_side t);
  avg ← ok_or (checked I64 avg) (Store.Invariant "trade average price overflow");
  Ok (mkReceipt (tr_id t) (tr_txn t) side action (tr_shares t) (tr_collateral t) (tr_fee t) avg false).

(** The trade of a ledger transaction, joined with its outcome. *)
Definition trade_by_ledger_txn (b : Book) (txn : N) : outcome StoreError (option TradeReceipt) :=
  match List.find (fun t => (tr_txn t =? txn)%N &&
          existsb (fun o => (oc_id o =? tr_outcome t)%N && (oc_market o =? tr_market t)%N) (bk_outcomes b))
          (bk_trades b) with
  | None => Ok None
  | Some t =>
      match List.find (fun o => (oc_id o =? tr_outcome t)%N && (oc_market o =? tr_market t)%N)
              (bk_outcomes b) with
      | None => Ok None
      | Some o => r ← trade_receipt t (oc_idx o); Ok (Some r)
      end
  end.

Definition handle (db : Db) (user : N) : outcome StoreError string :=
  ok_or (u_handle <$> co_users (td_comp db) !! user) (Store.NotFound "user").

(** Under the check on the payout; [on conflict do nothing]. *)
Definition insert_realization (r : RealizationFact) (db : Db) : outcome StoreError Db :=
  if re_payout r <? 0 then Err (Store.Integrity "realizations_payout_micro_check") else
  Ok (if existsb (fun x => (re_txn x =? re_txn r)%N && (re_user x =? re_user r)%N &&
                           (re_outcome x =? re_outcome r)%N) (td_realizations db)
      then db
      else mkDb (td_funds db) (td_ops db) (td_comp db) (td_book db) (td_fingerprints db)
             (td_realizations db ++ [r]) (td_referrals db)).

Definition save_request_fingerprint (key : string) (fingerprint : str) (db : Db) : Db :=
  match td_fingerprints db !! key with
  | Some _ => db
  | None => mkDb (td_funds db) (td_ops db) (td_comp db) (td_book db)
              (<[key := fingerprint]> (td_fingerprints db)) (td_realizations db) (td_referrals db)
  end.

(** The account id of an owner, as the settlement queries join it. *)
Definition find_owner (led : PgLedger) (o : OwnerRef) (c : Currency) : option N :=
  acct_id <$> List.find (is_account (owner_parts o).1 (owner_parts o).2 c) (pg_accounts led).

(** ** Specification *)

(** The shares of an outcome over all holders. *)
Definition held_shares (b : Book) (out : N) : Z :=
  msum (fun k p => if (k.2 =? out)%N then po_shares p else 0) (bk_positions b).

(** Complete-set accounting of one market: what the holders of a side and the
    pool have of it is what the escrow holds in cash. *)
Definition balanced (db : Db) (market : N) : Prop :=
  forall yes no ry rn,
    outcome_of (td_book db) market 0 = Some yes -> outcome_of (td_book db) market 1 = Some no ->
    bk_reserves (td_book db) !! yes = Some ry -> bk_reserves (td_book db) !! no = Some rn ->
    held_shares (td_book db) yes + ry = escrow_of (fu_ledger (td_funds db)) market /\
    held_shares (td_book db) no + rn = escrow_of (fu_ledger (td_funds db)) market.

Record book_wf (b : Book) : Prop := {
  bw_outcomes : NoDup (map oc_id (bk_outcomes b));
  bw_slots : NoDup (map (fun o => (oc_market o, oc_idx o)) (bk_outcomes b));
  bw_reserves : forall out r, bk_reserves b !! out = Some r -> 0 < r;
  bw_positions : forall k p, bk_positions b !! k = Some p ->
    k = (po_user p, po_outcome p) /\ 0 <= po_shares p;
  bw_known : forall k p, bk_positions b !! k = Some p -> k.2 ∈ map oc_id (bk_outcomes b) }.

Record db_wf (db : Db) : Prop := {
  tw_funds : funds_wf (td_funds db);
  tw_book : book_wf (td_book db);
  tw_txns : Forall (fun t => tr_txn t ∈ map txn_id (pg_txns (fu_ledger (td_funds db))))
              (bk_trades (td_book db));
  (** Who has a position has a cash account. *)
  tw_banked : forall k p, bk_positions (td_book db) !! k = Some p ->
    is_Some (find_owner (fu_ledger (td_funds db)) (Ref.User k.1) Usdc) }.

(** ** Lemmas *)

Lemma pool_for_update_Ok b market pool :
  pool_for_update b market = Ok pool ->
  pool_wf pool /\ in_ty U16 (p_fee pool) /\
  exists yes no, outcome_of b market 0 = Some yes /\ outcome_of b market 1 = Some no /\
    bk_reserves b !! yes = Some (p_yes pool) /\ bk_reserves b !! no = Some (p_no pool).
Proof.
  unfold pool_for_update. destruct (bk_pools b !! market) as [fee|]; [|done].
  destruct (outcome_of b market 0) as [yes|]; cbn [mbind option_bind]; [|done].
  destruct (bk_reserves b !! yes) as [ry|] eqn:Ey; [|done].
  destruct (outcome_of b market 1) as [no|]; cbn [mbind option_bind]; [|done].
  destruct (bk_reserves b !! no) as [rn|] eqn:En; [|done].
  intros (f & [-> Hf]%ok_or_Ok%checked_Some & Hp%map_err_Ok)%bind_Ok. unfold pool_new in Hp.
  destruct (_ || _) eqn:C1 in Hp; [discriminate|]. destruct (_ || _) eqn:C2 in Hp; [discriminate|].
  injection Hp as <-. bool_hyps. split_and!; [split_and!; cbn; ty|done|]. by exists yes, no.
Qed.

Lemma outcome_of_elem b m i x :
  outcome_of b m i = Some x -> exists o, o ∈ bk_outcomes b /\ oc_id o = x /\ oc_market o = m /\ oc_idx o = i.
Proof.
  unfold outcome_of. intros (o & Ho & ->)%fmap_Some. apply find_by in Ho as [Hi Hb].
  apply andb_true_iff in Hb as [H1%N.eqb_eq H2%Z.eqb_eq]. by exists o.
Qed.

Lemma outcome_of_inj b m m' i j x :
  book_wf b -> outcome_of b m i = Some x -> outcome_of b m' j = Some x -> m = m' /\ i = j.
Proof.
  intros Hw (o & Ho & Ex & <- & <-)%outcome_of_elem (o' & Ho' & Ex' & <- & <-)%outcome_of_elem.
  assert (o = o') as ->; [|done]. apply (nodup_map_inj oc_id _ _ _ (bw_outcomes _ Hw)); congruence.
Qed.

Lemma market_for_update_Ok b market m :
  market_for_update b market = Ok m ->
  outcome_of b market 0 = Some (mk_yes_outcome m) /\ outcome_of b market 1 = Some (mk_no_outcome m).
Proof.
  unfold market_for_update. destruct (bk_markets b !! market) as [r|]; [|done].
  destruct (outcome_of b market 0) as [yes|]; [|done]. destruct (outcome_of b market 1) as [no|]; [|done].
  unfold market_from_row. intros Hr. inv_run Hr. by injection Hr as <-.
Qed.

Lemma held_saved b b' user out p :
  bk_positions b' = <[(user, out) := p]> (bk_positions b) ->
  forall o, held_shares b' o = held_shares b o +
    (if (out =? o)%N then po_shares p - default 0 (po_shares <$> bk_positions b !! (user, out)) else 0).
Proof.
  intros E o. unfold held_shares. rewrite E. destruct (bk_positions b !! (user, out)) as [q|] eqn:El.
  - rewrite (msum_insert _ _ _ q) by done. cbn. destruct (out =? o)%N; lia.
  - rewrite msum_insert_new by done. cbn. destruct (out =? o)%N; lia.
Qed.

(** Accounts are never lost. *)
Lemma find_owner_app led led' extra o c :
  pg_accounts led' = pg_accounts led ++ extra -> is_Some (find_owner led o c) -> is_Some (find_owner led' o c).
Proof. intros E (a & (r & Hr & _)%fmap_Some). unfold find_owner. rewrite E, find_app, Hr. by eexists. Qed.

Lemma owns_find_owner led a o c : owns led a o c -> is_Some (find_owner led o c).
Proof.
  intros (r & Hr & _ & Hi). unfold find_owner. destruct (List.find _ _) as [x|] eqn:Ef; [by eexists|].
  apply find_none_by in Ef. rewrite Forall_forall in Ef. by rewrite Ef in Hi.
Qed.

(** A quiet ledger keeps every account. *)
Lemma quiet_find_owner led led' o c : quiet led led' -> is_Some (find_owner led o c) -> is_Some (find_owner led' o c).
Proof. intros [_ _ [x A] _]. by eapply find_owner_app. Qed.

(** ** A small market *)

(** Market 10 with outcomes 11 and 12, seeded with a thousand dollars, user
    7, who voted, passed every screening and holds ten dollars, and user 8, who
    may vote. *)
Definition demo_market_ledger : PgLedger :=
  {| pg_accounts :=
       [ {| acct_id := 1; acct_type := External; acct_owner := None; acct_currency := Usdc |};
         {| acct_id := 2; acct_type := User; acct_owner := Some 7%N; acct_currency := Usdc |};
         {| acct_id := 3; acct_type := Escrow; acct_owner := Some 10%N; acct_currency := Usdc |} ];
     pg_txns := [{| txn_id := 1; txn_kind := Seed; txn_key := "seed" |}];
     pg_entries := [ {| entry_txn := 1; entry_account := 1; entry_amount := -1010000000 |};
                     {| entry_txn := 1; entry_account := 2; entry_amount := 10000000 |};
                     {| entry_txn := 1; entry_account := 3; entry_amount := 1000000000 |} ] |}.

Definition demo_gate_entries : gmap string Value :=
  <["deposit_kyc_tier" := JInt 1]> (<["pause_deposits" := JBool false]>
  (<["shadow_trade_cap_micro" := JInt 25000000]> (<["shadow_deposit_cap_micro" := JInt 25000000]> ∅))).

Definition demo_market_db : Db :=
  mkDb
    (mkFunds demo_market_ledger {| db_trades := ∅; db_lots := ∅; db_facts := [] |} [] [] [])
    (mkOpsDb 1 [(1, "migration:0008")] demo_gate_entries [] [] [] [] ∅)
    (mkCompliance (<[8%N := mkUser "bo" "active" 0]> {[ 7%N := mkUser "ana" "active" 2 ]})
       [mkScreening 1 (Some 7%N) "geo" "clear" 0 (Some 1000) (Some "v1");
        mkScreening 2 (Some 7%N) "sanctions" "clear" 0 (Some 1000) (Some "v1");
        mkScreening 3 (Some 8%N) "geo" "clear" 0 (Some 1000) (Some "v1")] [] ∅ [] [] [] [])
    (mkBook {[ 10%N := mkMarketRecord "live" 1 1 (Some 0) (Some 900) (Some 800) None None None None None ]}
       [mkOutcome 11 10 0 None None; mkOutcome 12 10 1 None None] {[ 10%N := mkPoolRecord 100 1000000000 ]}
       (<[11%N := 1000000000]> {[ 12%N := 1000000000 ]}) ∅ []
       [mkVote 50 7 10 11 60 1 "v-1" 10 None None] (<[8%N := (0, 0)]> {[ 7%N := (0, 0) ]}) ∅ ∅ ∅
       {[ (7%N, "imessage"); (8%N, "imessage") ]} (<[8%N := 0]> {[ 7%N := 0 ]}) {[ "demo" ]})
    ∅ [] (mkReferralDb [] [] ∅ ∅).

Lemma demo_market_ledger_wf : pg_wf demo_market_ledger.
Proof.
  apply (pg_reachable_wf (H := canonical_order)).
  set (l1 := pg_opened 1 pg_empty External None Usdc).
  set (l2 := pg_opened 2 l1 User (Some 7%N) Usdc).
  set (l3 := pg_opened 3 l2 Escrow (Some 10%N) Usdc).
  eapply rtc_l; [apply (pg_account (H := canonical_order) 1 _ l1 Ref.External Usdc 1); vm_compute; reflexivity|].
  eapply rtc_l; [apply (pg_account (H := canonical_order) 2 _ l2 (Ref.User 7) Usdc 2); vm_compute; reflexivity|].
  eapply rtc_l; [apply (pg_account (H := canonical_order) 3 _ l3 (Ref.MarketEscrow 10) Usdc 3); vm_compute; reflexivity|].
  eapply rtc_l; [|apply rtc_refl].
  apply (pg_apply (H := canonical_order) 1 l3 _ Seed "seed"
    [{| e_account := 1%N; e_amount := -1010000000 |}; {| e_account := 2%N; e_amount := 10000000 |};
     {| e_account := 3%N; e_amount := 1000000000 |}] 1).
  - apply (bool_decide_unpack _). vm_compute. exact I.
  - vm_compute. discriminate.
  - vm_compute. reflexivity.
Qed.

Lemma demo_market_wf : db_wf demo_market_db.
Proof.
  split; [split; [apply demo_market_ledger_wf|by intros l r]| |constructor|by intros k p].
  split; [apply (bool_decide_unpack _); vm_compute; exact I..| |by intros k p|by intros k p].
  intros out r. cbn. intros [[<- <-]|[_ [_ <-]%lookup_singleton_Some]]%lookup_insert_Some; done.
Qed.

Lemma demo_market_balanced m : balanced demo_market_db m.
Proof.
  intros y n ry rn Hy Hn. destruct (decide (m = 10%N)) as [->|Hm].
  - vm_compute in Hy, Hn. injection Hy as <-. injection Hn as <-. vm_compute. intros [= <-] [= <-]. done.
  - exfalso. apply outcome_of_elem in Hy as (o & Ho & _ & Hom & Hi). apply Hm. rewrite <- Hom.
    cbn in Ho. by repeat (apply elem_of_cons in Ho as [->|Ho]; [done|]); apply elem_of_nil in Ho.
Qed.
