(* ===== verification/Vote.v ===== *)
(** * Vote: casting a vote

    [application/src/cast_vote.rs] over [pg/vote_tx.rs]: the guess check, the
    idempotent replay, the lazy money work and the gate, the checks under the
    market row lock (state, closing time, phone channel, velocity, account age
    near the close), the pause fence, the allocation of the public vote number
    and the insert.  A vote number is shown only while the tally is public. *)

From S2P Require Import Prelude Amm Ledger Market Resolution Economy Integrity Chars Errors Credits PgLedger Json Config Fences ConfigStore Compliance Collect Book.
#[local] Open Scope string_scope.
#[local] Open Scope list_scope.
#[local] Open Scope Z_scope.

(** ** The transaction, [pg/vote_tx.rs] *)

Record NewVote := mkNewVote {
  nv_market : N; nv_user : N; nv_side : Side; nv_guess : Z; nv_seq : Z; nv_key : string;
  nv_created_at : Z; nv_cast_ip : option IpAddr; nv_device : option string }.

Record VoteReceipt := mkVoteReceipt {
  vr_vote_id : N; vr_market : N; vr_user : N; vr_side : Side; vr_guess : Z; vr_seq : option Z;
  vr_replayed : bool }.

Definition set_vote_seq (n : Z) (r : MarketRecord) : MarketRecord :=
  mkMarketRecord (ma_status r) (ma_min_votes r) n (ma_opens_at r) (ma_closes_at r) (ma_tally_hidden_at r)
    (ma_curator_flagged_at r) (ma_integrity_due_at r) (ma_lp_pnl r) (ma_settled_at r)
    (ma_collateral_at_close r).

Definition allocate_vote_seq (market : N) (b : Book) : outcome StoreError (Z * Book) :=
  r ← ok_or (bk_markets b !! market) (Store.NotFound "market");
  n ← bigint (ma_vote_seq r + 1);
  Ok (n, set_markets (<[market := set_vote_seq n r]> (bk_markets b)) b).

(** The unique keys of [votes]: the id, one vote per user and market, the
    number within the market and the idempotency key. *)
Definition vote_conflict (fresh : N) (v : NewVote) (r : VoteRow) : bool :=
  (vo_id r =? fresh)%N ||
  ((vo_user r =? nv_user v)%N && (vo_market r =? nv_market v)%N) ||
  ((vo_market r =? nv_market v)%N && (vo_seq r =? nv_seq v)) ||
  bool_decide (vo_key r = nv_key v).

Definition insert_vote (fresh : N) (v : NewVote) (b : Book) : outcome StoreError (N * Book) :=
  out ← ok_or (outcome_of b (nv_market v) (side_idx (nv_side v))) (Store.NotFound "outcome");
  if (nv_guess v <? 0) || (100 <? nv_guess v) then Err (Store.Integrity "votes_crowd_guess_pct_check") else
  if existsb (vote_conflict fresh v) (bk_votes b) then Err (Store.Conflict "vote") else
  Ok (fresh, set_votes (bk_votes b ++ [mkVote fresh (nv_user v) (nv_market v) out (nv_guess v) (nv_seq v)
                                         (nv_key v) (nv_created_at v) (nv_cast_ip v) (nv_device v)]) b).

(** The statuses in which the tally is public again. *)
Definition terminal_status (status : string) : bool :=
  bool_decide (status = "resolved") || bool_decide (status = "paid") || bool_decide (status = "voided").

Definition vote_by_key (key : string) (now : Z) (b : Book) : outcome StoreError (option VoteReceipt) :=
  match List.find (fun v => bool_decide (vo_key v = key)) (bk_votes b) with
  | None => Ok None
  | Some v =>
      match vote_outcome b v, bk_markets b !! vo_market v with
      | Some o, Some m =>
          side ← side_from_idx (oc_idx o);
          guess ← ok_or (checked U8 (vo_guess v)) (Store.Invariant "invalid crowd guess");
          hidden ← ok_or (ma_tally_hidden_at m) (Store.Backend "unexpected null");
          Ok (Some (mkVoteReceipt (vo_id v) (vo_market v) (vo_user v) side guess
                      (if terminal_status (ma_status m) || (now <? hidden) then Some (vo_seq v) else None)
                      false))
      | _, _ => Ok None
      end
  end.

(** ** The use case *)

Record VoteIntegrityConfig := mkVoteConfig {
  vc_max_votes_per_window : Z; vc_window_secs : Z; vc_near_close_secs : Z; vc_min_account_age_secs : Z }.

Record CastVoteCmd := mkCastVote {
  cv_market : N; cv_user : N; cv_side : Side; cv_guess : Z; cv_key : string;
  cv_cast_ip : option IpAddr; cv_device : option string }.

Definition map_vote_write_error (e : StoreError) : AppError :=
  match e with
  | Store.Conflict "vote" => App.AlreadyVoted
  | other => App.Store other
  end.

Section CastVote.
Context `{UuidText} `{HashMapOrder}.
(** The [VoteIntegrityConfig] the service runs with. *)
Context (config : VoteIntegrityConfig).

(** The checks of the voter, under the market row lock. *)
Definition check_voter (cmd : CastVoteCmd) (m : MarketRow) (now : Z) (b : Book) : outcome AppError unit :=
  if negb (user_has_channel b (cv_user cmd) "imessage") then Err App.PhoneVerificationRequired else
  window ← ok_or (checked I64 (vc_window_secs config)) App.Overflow;
  count ← store (votes_count_since b (cv_user cmd) (now - window));
  if count >=? vc_max_votes_per_window config then Err App.VoteVelocityExceeded else
  near_close ← ok_or (checked I64 (vc_near_close_secs config)) App.Overflow;
  min_age ← ok_or (checked I64 (vc_min_account_age_secs config)) App.Overflow;
  if now >=? mk_closes_at m - near_close then
    created ← store (user_created_at b (cv_user cmd));
    if now - created <? min_age then Err App.AccountTooYoungNearClose else Ok tt
  else Ok tt.

(** The state and closing checks. *)
Definition voting_open (m : MarketRow) (now : Z) : outcome AppError unit :=
  match mk_state m with
  | Live | Closing => if now >=? mk_closes_at m then Err App.VotingClosed else Ok tt
  | _ => Err App.MarketNotOpen
  end.

(** The pause, void once the hidden window starts. *)
Definition check_vote_pause (cmd : CastVoteCmd) (m : MarketRow) (now : Z) (ops : OpsDb) :
    outcome AppError unit :=
  if (now <? mk_tally_hidden_at m) &&
     pause_in_force (fence_config_value ("voting_paused:" +:+ uuid_text (cv_market cmd)) ops)
  then Err App.VotingPaused else Ok tt.

Definition vote_cast_event (cmd : CastVoteCmd) : Event :=
  mkEvent "VoteCast" "market" (cv_market cmd) (JObject [("market_id", JString (uuid_text (cv_market cmd)))]).

(** [CastVote::execute]; [fresh] is the id of the vote, [fresh_lazy] those of
    the lazy money work. *)
Definition cast_vote (fresh : N) (fresh_lazy : nat -> N) (db_now now : Z) (cmd : CastVoteCmd) (db : Db) :
    outcome AppError VoteReceipt * Db :=
  atomic db (
    if 100 <? cv_guess cmd then Err App.InvalidCrowdGuess else
    let fingerprint := vote_fingerprint (cv_market cmd) (cv_user cmd) (cv_side cmd) (cv_guess cmd) in
    found ← store (vote_by_key (cv_key cmd) now (td_book db));
    match found with
    | Some r =>
        _ ← validate_replay_fingerprint (td_fingerprints db !! cv_key cmd) fingerprint;
        Ok (mkVoteReceipt (vr_vote_id r) (vr_market r) (vr_user r) (vr_side r) (vr_guess r) (vr_seq r) true, db)
    | None =>
        '(_, funds) ← convert_then_collect fresh_lazy (cv_user cmd) now (cv_key cmd) (td_funds db);
        let db := set_funds funds db in
        _ ← enforce_money_mutation (td_comp db) (db_entries (td_ops db)) db_now (cv_user cmd) CastVote 0 now;
        m ← store (market_for_update (td_book db) (cv_market cmd));
        _ ← voting_open m now;
        _ ← check_voter cmd m now (td_book db);
        _ ← check_vote_pause cmd m now (td_ops db);
        let db := save_request_fingerprint (cv_key cmd) fingerprint db in
        '(seq, b) ← store (allocate_vote_seq (cv_market cmd) (td_book db));
        '(vote_id, b) ← map_err map_vote_write_error
           (insert_vote fresh (mkNewVote (cv_market cmd) (cv_user cmd) (cv_side cmd) (cv_guess cmd) seq
                                 (cv_key cmd) now (cv_cast_ip cmd) (cv_device cmd)) b);
        let db := set_book b db in
        let db := set_ops (outbox_append (vote_cast_event cmd) (td_ops db)) db in
        Ok (mkVoteReceipt vote_id (cv_market cmd) (cv_user cmd) (cv_side cmd) (cv_guess cmd)
              (if (now <? mk_tally_hidden_at m) ||
                  match mk_state m with Resolved | Paid | Voided => true | _ => false end
               then Some seq else None) false, db)
    end).
End CastVote.

(** ** Specification *)

Definition votes_of (b : Book) (market : N) : list VoteRow :=
  List.filter (fun v => (vo_market v =? market)%N) (bk_votes b).

(** The ballot of a consistent book: public numbers run from 1 without a gap in
    the order of casting, a user votes once per market, keys are unique and
    every vote joins with a side of its market. *)
Record votes_wf (b : Book) : Prop := {
  vw_numbered : forall m r, bk_markets b !! m = Some r ->
    0 <= ma_vote_seq r /\ map vo_seq (votes_of b m) = seqZ 1 (ma_vote_seq r);
  vw_once : NoDup (map (fun v => (vo_user v, vo_market v)) (bk_votes b));
  vw_keys : NoDup (map vo_key (bk_votes b));
  vw_rows : Forall (fun v => 0 <= vo_guess v <= 100 /\ is_Some (bk_markets b !! vo_market v) /\
    exists o side, vote_outcome b v = Some o /\ side_from_idx (oc_idx o) = Ok side) (bk_votes b) }.

(** ** Lemmas *)

Lemma outcome_join b m i x :
  NoDup (map oc_id (bk_outcomes b)) -> outcome_of b m i = Some x ->
  exists o, List.find (fun o => (oc_id o =? x)%N && (oc_market o =? m)%N) (bk_outcomes b) = Some o /\
    oc_idx o = i.
Proof.
  intros Hn (o & Ho & <- & <- & <-)%outcome_of_elem.
  destruct (List.find _ _) as [o'|] eqn:Ef.
  - exists o'. split; [done|]. apply find_by in Ef as [Ho' Hb].
    apply andb_true_iff in Hb as [H1%N.eqb_eq _].
    by rewrite (nodup_map_inj oc_id (bk_outcomes b) o' o Hn Ho' Ho H1).
  - exfalso. apply find_none_by in Ef. rewrite Forall_forall in Ef. pose proof (Ef o Ho) as Hf. cbn in Hf. by rewrite !N.eqb_refl in Hf.
Qed.

Lemma side_from_idx_side s : side_from_idx (side_idx s) = Ok s.
Proof. by destruct s. Qed.

Lemma votes_of_snoc b v m :
  votes_of (set_votes (bk_votes b ++ [v]) b) m = votes_of b m ++ (if (vo_market v =? m)%N then [v] else []).
Proof. unfold votes_of. cbn. rewrite List.filter_app. cbn. by destruct (vo_market v =? m)%N. Qed.

(** Votes with index 0 and index 1 are all votes of a consistent book. *)
Lemma tally_total b m :
  votes_wf b -> yes_votes (tally b m) + no_votes (tally b m) = zlen (votes_of b m).
Proof.
  intros Hw. cbn. unfold votes_with, votes_of, zlen.
  pose proof (vw_rows _ Hw) as Hr. induction (bk_votes b) as [|v l IH]; [done|].
  apply Forall_cons in Hr as [(_ & _ & o & side & Ho & Hs) Hr]. cbn.
  destruct (vo_market v =? m)%N; cbn [andb]; [|by apply IH]. rewrite Ho. cbn.
  assert (Hi : oc_idx o = 0 \/ oc_idx o = 1).
  { unfold side_from_idx in Hs. destruct (Z.eqb_spec (oc_idx o) 0); [auto|].
    destruct (Z.eqb_spec (oc_idx o) 1); [auto|done]. }
  specialize (IH Hr). destruct Hi as [-> | ->]; cbn [length]; repeat case_bool_decide; simplify_eq; cbn [length]; lia.
Qed.

Section Cast.
Context `{UuidText} `{HashMapOrder} (config : VoteIntegrityConfig).

(** What an accepted vote that is not a replay satisfied and left. *)
Record voted (fresh : N) (fresh_lazy : nat -> N) (db_now now : Z) (cmd : CastVoteCmd) (db db' : Db)
    (r : VoteReceipt) (funds : Funds) (m : MarketRow) (rec : MarketRecord) (out : N) : Prop := {
  vt_guess : cv_guess cmd <= 100 /\ 0 <= cv_guess cmd;
  vt_lazy : exists cr, convert_then_collect fresh_lazy (cv_user cmd) now (cv_key cmd) (td_funds db) = Ok (cr, funds);
  vt_gate : enforce_money_mutation (td_comp db) (db_entries (td_ops db)) db_now (cv_user cmd) CastVote 0 now = Ok tt;
  vt_market : market_for_update (td_book db) (cv_market cmd) = Ok m;
  vt_open : voting_open m now = Ok tt;
  vt_voter : check_voter config cmd m now (td_book db) = Ok tt;
  vt_pause : check_vote_pause cmd m now (td_ops db) = Ok tt;
  vt_rec : bk_markets (td_book db) !! cv_market cmd = Some rec;
  vt_out : outcome_of (td_book db) (cv_market cmd) (side_idx (cv_side cmd)) = Some out;
  vt_unique : existsb (vote_conflict fresh (mkNewVote (cv_market cmd) (cv_user cmd) (cv_side cmd) (cv_guess cmd)
    (ma_vote_seq rec + 1) (cv_key cmd) now (cv_cast_ip cmd) (cv_device cmd))) (bk_votes (td_book db)) = false;
  vt_db : db' = mkDb funds (outbox_append (vote_cast_event cmd) (td_ops db)) (td_comp db)
    (set_votes (bk_votes (td_book db) ++
       [mkVote fresh (cv_user cmd) (cv_market cmd) out (cv_guess cmd) (ma_vote_seq rec + 1) (cv_key cmd) now
          (cv_cast_ip cmd) (cv_device cmd)])
      (set_markets (<[cv_market cmd := set_vote_seq (ma_vote_seq rec + 1) rec]> (bk_markets (td_book db)))
         (td_book db)))
    (td_fingerprints (save_request_fingerprint (cv_key cmd)
       (vote_fingerprint (cv_market cmd) (cv_user cmd) (cv_side cmd) (cv_guess cmd)) db)) (td_realizations db) (td_referrals db);
  vt_receipt : r = mkVoteReceipt fresh (cv_market cmd) (cv_user cmd) (cv_side cmd) (cv_guess cmd)
    (if now <? mk_tally_hidden_at m then Some (ma_vote_seq rec + 1) else None) false }.

Lemma cast_vote_Ok fresh fresh_lazy db_now now cmd db r db' :
  cast_vote config fresh fresh_lazy db_now now cmd db = (Ok r, db') ->
  (exists r0, vote_by_key (cv_key cmd) now (td_book db) = Ok (Some r0) /\ db' = db /\
     r = mkVoteReceipt (vr_vote_id r0) (vr_market r0) (vr_user r0) (vr_side r0) (vr_guess r0) (vr_seq r0) true) \/
  exists funds m rec out, voted fresh fresh_lazy db_now now cmd db db' r funds m rec out.
Proof.
  unfold cast_vote. intros Hr.
  match type of Hr with atomic _ ?m = _ => destruct m as [[a db1]|e|] eqn:E end; cbn in Hr; [|done..].
  injection Hr as -> ->. destruct (100 <? cv_guess cmd) eqn:Hg in E; [discriminate|]. apply Z.ltb_ge in Hg.
  cbv zeta in E. apply bind_Ok in E as (found & Hf%store_Ok & E). destruct found as [r0|]; [left|right].
  { apply bind_Ok in E as ([] & _ & [= <- <-]). by exists r0. }
  apply bind_Ok in E as ([cr funds] & H1 & E). apply bind_Ok in E as ([] & H2 & E).
  apply bind_Ok in E as (m & H3%store_Ok & E). apply bind_Ok in E as ([] & H4 & E).
  apply bind_Ok in E as ([] & H5 & E). apply bind_Ok in E as ([] & H6 & E).
  apply bind_Ok in E as ([seq b1] & H7%store_Ok & E). apply bind_Ok in E as ([vid b2] & H8%map_err_Ok & [= <- <-]).
  cbn [set_funds td_book td_comp td_ops td_funds] in *.
  assert (Hsave : forall f, td_book (save_request_fingerprint (cv_key cmd) f (set_funds funds db)) = td_book db).
  { intros f. unfold save_request_fingerprint. by destruct (_ !! _). }
  rewrite Hsave in H7. unfold allocate_vote_seq in H7. apply bind_Ok in H7 as (rec & Hrec%ok_or_Ok & H7).
  apply bind_Ok in H7 as (n & Hn & [= <- <-]). apply ok_or_Ok, checked_Some in Hn as [-> _].
  unfold insert_vote in H8. cbn [nv_market nv_side nv_guess nv_user nv_seq nv_key nv_created_at nv_cast_ip nv_device] in H8.
  apply bind_Ok in H8 as (out & Hout%ok_or_Ok & H8). destruct (_ || _) eqn:Hg2 in H8; [discriminate|].
  destruct (existsb _ _) eqn:Hc in H8; [discriminate|]. injection H8 as <- <-.
  apply orb_false_iff in Hg2 as [Hg2%Z.ltb_ge _].
  exists funds, m, rec, out. split; try done.
  - by exists cr.
  - unfold save_request_fingerprint. cbn [set_funds td_fingerprints]. by destruct (td_fingerprints db !! cv_key cmd).
  - unfold voting_open in H4. destruct (mk_state m); try discriminate; by rewrite orb_false_r.
Qed.

Lemma vote_conflict_false fresh v l :
  existsb (vote_conflict fresh v) l = false ->
  (nv_user v, nv_market v) ∉ map (fun r => (vo_user r, vo_market r)) l /\ nv_key v ∉ map vo_key l.
Proof.
  intros Hc. assert (Hall : Forall (fun r => vote_conflict fresh v r = false) l).
  { apply Forall_forall. intros r Hr. destruct (vote_conflict fresh v r) eqn:E; [|done].
    assert (existsb (vote_conflict fresh v) l = true); [|congruence].
    apply existsb_exists. exists r. split; [by apply list_elem_of_In|done]. }
  rewrite Forall_forall in Hall.
  split; intros (r & E & Hr)%list_elem_of_fmap; specialize (Hall r Hr); unfold vote_conflict in Hall;
    repeat (apply orb_false_iff in Hall as [Hall ?]).
  - injection E as E1 E2. rewrite <- E1, <- E2 in *. by rewrite !N.eqb_refl in *.
  - by apply bool_decide_eq_false in H1.
Qed.
Lemma terminal_status_state status :
  terminal_status status = true ->
  exists s, market_state status = Ok s /\ (s = Resolved \/ s = Paid \/ s = Voided).
Proof.
  unfold terminal_status. rewrite !orb_true_iff, !bool_decide_eq_true.
  intros [[->| ->]| ->]; eexists; (split; [vm_compute; reflexivity|auto]).
Qed.

(** The book a vote leaves. *)
Lemma voted_votes_wf fresh fresh_lazy db_now now cmd db db' r funds m rec out :
  book_wf (td_book db) -> votes_wf (td_book db) ->
  voted fresh fresh_lazy db_now now cmd db db' r funds m rec out -> votes_wf (td_book db').
Proof.
  intros Hb [Wn Wo Wk Wr] [Hg _ _ _ _ _ _ Hrec Hout Hu -> _]. apply vote_conflict_false in Hu as [U1 U2].
  cbn [nv_user nv_market nv_key] in U1, U2. cbn [td_book].
  destruct (outcome_join _ _ _ _ (bw_outcomes _ Hb) Hout) as (o & Ho & Hi).
  split; cbn [set_votes set_markets bk_votes bk_markets bk_outcomes].
  - intros mk r0. unfold votes_of. cbn [set_votes set_markets bk_votes]. rewrite List.filter_app, map_app. cbn [List.filter vo_market].
    destruct (N.eqb_spec (cv_market cmd) mk) as [<-|Hne].
    + rewrite lookup_insert_eq. intros [= <-]. destruct (Wn _ _ Hrec) as [W0 W1].
      cbn [set_vote_seq ma_vote_seq map vo_seq]. split; [lia|]. unfold votes_of in W1.
      rewrite W1, seqZ_app by lia. f_equal.
      rewrite (seqZ_cons _ 1) by lia. f_equal. lia.
    + rewrite lookup_insert_ne by done. intros Hr. rewrite app_nil_r. by apply Wn.
  - rewrite map_app. apply NoDup_app. split_and!; [done| |repeat constructor; set_solver].
    intros x Hx ->%list_elem_of_singleton. done.
  - rewrite map_app. apply NoDup_app. split_and!; [done| |repeat constructor; set_solver].
    intros x Hx ->%list_elem_of_singleton. done.
  - assert (Hsome : forall k, is_Some (bk_markets (td_book db) !! k) ->
      is_Some (<[cv_market cmd := set_vote_seq (ma_vote_seq rec + 1) rec]> (bk_markets (td_book db)) !! k)).
    { intros k Hk. destruct (decide (cv_market cmd = k)) as [->|]; [by rewrite lookup_insert_eq|].
      by rewrite lookup_insert_ne. }
    apply Forall_app. split.
    + eapply Forall_impl; [exact Wr|]. cbn. intros v (V1 & V2 & V3). split_and!; [lia..| |done]. by apply Hsome.
    + repeat constructor; [apply Hg..|cbn; by rewrite lookup_insert_eq|].
      exists o, (cv_side cmd). split; [done|]. rewrite Hi. apply side_from_idx_side.
Qed.

Definition as_vote_replay (m : MarketRow) (now seq : Z) (r : VoteReceipt) : VoteReceipt :=
  mkVoteReceipt (vr_vote_id r) (vr_market r) (vr_user r) (vr_side r) (vr_guess r)
    (if now <? mk_tally_hidden_at m then Some seq else None) true.

(** A new vote reads back by its key. *)
Lemma voted_by_key fresh fresh_lazy db_now now cmd db db' r funds m rec out now' :
  book_wf (td_book db) ->
  voted fresh fresh_lazy db_now now cmd db db' r funds m rec out ->
  vote_by_key (cv_key cmd) now' (td_book db') =
    Ok (Some (mkVoteReceipt fresh (cv_market cmd) (cv_user cmd) (cv_side cmd) (cv_guess cmd)
      (if now' <? mk_tally_hidden_at m then Some (ma_vote_seq rec + 1) else None) false)).
Proof.
  intros Hb [Hg _ _ Hm Hopen _ _ Hrec Hout Hu -> _]. apply vote_conflict_false in Hu as [_ U2].
  destruct (outcome_join _ _ _ _ (bw_outcomes _ Hb) Hout) as (o & Ho & Hi). cbn [nv_key] in U2.
  unfold vote_by_key. cbn [td_book set_votes set_markets bk_votes bk_markets]. rewrite find_app.
  destruct (List.find _ (bk_votes (td_book db))) as [v|] eqn:Ef.
  { exfalso. apply find_by in Ef as [Hv Hk%bool_decide_eq_true]. apply U2. rewrite <- Hk.
    apply list_elem_of_fmap. by exists v. }
  cbn [List.find vo_key]. rewrite bool_decide_eq_true_2 by done. unfold vote_outcome.
  cbn [set_votes set_markets bk_outcomes vo_outcome vo_market vo_guess vo_id vo_user vo_seq].
  rewrite Ho, lookup_insert_eq, Hi, side_from_idx_side. cbn [mbind outcome_bind].
  rewrite checked_in by ty. cbn [ok_or mbind outcome_bind set_vote_seq ma_tally_hidden_at ma_status].
  unfold market_for_update in Hm. rewrite Hrec in Hm. destruct (outcome_of _ _ 0); [|done].
  destruct (outcome_of _ _ 1); [|done]. unfold market_from_row in Hm.
  apply bind_Ok in Hm as (cl & _ & Hm). apply bind_Ok in Hm as (hid & ->%ok_or_Ok & Hm).
  apply bind_Ok in Hm as (st & Hst & Hm). apply bind_Ok in Hm as (op & _ & [= <-]).
  cbn [ok_or mbind outcome_bind mk_tally_hidden_at]. unfold voting_open in Hopen. cbn [mk_state] in Hopen.
  destruct (terminal_status (ma_status rec)) eqn:Ht; [exfalso|done].
  apply terminal_status_state in Ht as (s & Hs & Hd). rewrite Hs in Hst. injection Hst as ->.
  destruct Hd as [->|[->| ->]]; done.
Qed.

Lemma voted_wf fresh fresh_lazy db_now now cmd db db' r funds m rec out :
  db_wf db -> voted fresh fresh_lazy db_now now cmd db db' r funds m rec out ->
  db_wf db' /\ calm (td_funds db) (td_funds db').
Proof.
  intros [Wf Wb Wt Wk] [_ [cr Hl] _ _ _ _ _ _ _ _ -> _]. apply convert_then_collect_calm in Hl as C; [|done].
  split; [|done]. split; [apply C|by destruct Wb| |].
  - cbn. eapply Forall_impl; [exact Wt|]. cbn. intros t. apply (quiet_txns _ _ _ _ (cm_quiet _ _ C)).
  - cbn. intros k p Hp. eapply quiet_find_owner; [apply (cm_quiet _ _ C)|by eapply Wk].
Qed.

(** Any sequence of vote requests, accepted or refused. *)
Inductive vote_run : Db -> Db -> Prop :=
| vote_refl db : vote_run db db
| vote_next fresh fresh_lazy db_now now cmd db db' :
    vote_run db db' -> vote_run db (cast_vote config fresh fresh_lazy db_now now cmd db').2.

Lemma cast_vote_keeps fresh fresh_lazy db_now now cmd db :
  db_wf db -> votes_wf (td_book db) ->
  let db' := (cast_vote config fresh fresh_lazy db_now now cmd db).2 in
  db_wf db' /\ votes_wf (td_book db') /\ bk_votes (td_book db) `prefix_of` bk_votes (td_book db').
Proof.
  intros W V. destruct (cast_vote _ _ _ _ _ _ _) as [[r|e|] db2] eqn:E; cbn.
  - apply cast_vote_Ok in E as [(r0 & _ & -> & _)|(funds & m & rec & out & X)]; [done|].
    destruct (voted_wf _ _ _ _ _ _ _ _ _ _ _ _ W X) as [W' _]. split_and!; [done| |].
    + eapply voted_votes_wf; [apply W|done..].
    + rewrite (vt_db _ _ _ _ _ _ _ _ _ _ _ _ X). cbn. by eexists.
  - by apply atomic_refused in E as ->.
  - by apply atomic_refused in E as ->.
Qed.
End Cast.

(** ** Properties *)

(** C28: the ballot is kept exactly.  Starting from a consistent ballot, after
    any sequence of vote requests no vote is lost or changed, nobody has two
    votes in a market, and the public numbers of each market are 1, 2, ... in
    the order of casting, as many as the tally counts. *)
Theorem votes_are_numbered `{UuidText} `{HashMapOrder} (config : VoteIntegrityConfig) (db db' : Db) :
  db_wf db -> votes_wf (td_book db) -> vote_run config db db' ->
  bk_votes (td_book db) `prefix_of` bk_votes (td_book db') /\
  NoDup (map (fun v => (vo_user v, vo_market v)) (bk_votes (td_book db'))) /\
  forall m rec, bk_markets (td_book db') !! m = Some rec ->
    map vo_seq (votes_of (td_book db') m) = seqZ 1 (ma_vote_seq rec) /\
    yes_votes (tally (td_book db') m) + no_votes (tally (td_book db') m) = ma_vote_seq rec.
Proof.
  intros W V Hrun.
  assert (db_wf db' /\ votes_wf (td_book db') /\ bk_votes (td_book db) `prefix_of` bk_votes (td_book db'))
    as (_ & V' & P).
  { induction Hrun as [db|fresh fl dn n cmd db db1 Hrun IH]; [done|]. destruct (IH W V) as (W1 & V1 & P1).
    destruct (cast_vote_keeps config fresh fl dn n cmd db1 W1 V1) as (W2 & V2 & P2).
    split_and!; [done..|]. by etrans. }
  split_and!; [done|apply V'|]. intros m rec Hr. destruct (vw_numbered _ V' _ _ Hr) as [H0' E].
  split; [done|]. rewrite tally_total by done. unfold zlen. rewrite <- (length_map vo_seq), E, length_seqZ. lia.
Qed.

(** What a vote receipt tells.  Re-issuing an accepted vote on the tables
    it left, at any time, answers with the same vote, marked as replayed, and
    changes nothing; and neither the first answer nor the replay shows the
    public number once the tally is hidden. *)
Theorem vote_replays `{UuidText} `{HashMapOrder} (config : VoteIntegrityConfig) (fresh : N)
    (fresh_lazy : nat -> N) (db_now now : Z) (cmd : CastVoteCmd) (db db' : Db) (r : VoteReceipt) :
  db_wf db -> td_fingerprints db !! cv_key cmd = None ->
  cast_vote config fresh fresh_lazy db_now now cmd db = (Ok r, db') -> vr_replayed r = false ->
  exists m seq, market_for_update (td_book db) (cv_market cmd) = Ok m /\
    vr_seq r = (if now <? mk_tally_hidden_at m then Some seq else None) /\
    forall fresh' fresh_lazy' db_now' now',
      cast_vote config fresh' fresh_lazy' db_now' now' cmd db' = (Ok (as_vote_replay m now' seq r), db').
Proof.
  intros W Hfp E Hr. apply cast_vote_Ok in E as [(r0 & _ & _ & ->)|(funds & m & rec & out & X)]; [done|].
  exists m, (ma_vote_seq rec + 1). pose proof (vt_receipt _ _ _ _ _ _ _ _ _ _ _ _ _ X) as Er.
  split_and!; [apply X|by rewrite Er|]. intros fresh' fl' dn' n'.
  unfold cast_vote. rewrite (proj2 (Z.ltb_ge 100 (cv_guess cmd))) by apply X. cbv zeta.
  rewrite (voted_by_key _ _ _ _ _ _ _ _ _ _ _ _ _ n' (tw_book _ W) X). cbn [store map_err mbind outcome_bind].
  assert (Hstored : td_fingerprints db' !! cv_key cmd =
    Some (vote_fingerprint (cv_market cmd) (cv_user cmd) (cv_side cmd) (cv_guess cmd))).
  { rewrite (vt_db _ _ _ _ _ _ _ _ _ _ _ _ _ X). cbn [td_fingerprints]. unfold save_request_fingerprint.
    rewrite Hfp. cbn. by rewrite lookup_insert_eq. }
  rewrite Hstored. cbn [validate_replay_fingerprint]. rewrite bool_decide_eq_false_2 by naive_solver.
  cbn [mbind outcome_bind atomic]. by rewrite Er.
Qed.

(** Every accepted vote was allowed: the market was live or closing and
    not past its closing time, the voter has a phone channel, fewer votes than
    the limit in the window and, near the close, an account old enough; no
    pause was in force while the tally was public; and the voter had not voted
    on the market. *)
Theorem accepted_vote_was_permitted `{UuidText} `{HashMapOrder} (config : VoteIntegrityConfig) (fresh : N)
    (fresh_lazy : nat -> N) (db_now now : Z) (cmd : CastVoteCmd) (db db' : Db) (r : VoteReceipt) :
  cast_vote config fresh fresh_lazy db_now now cmd db = (Ok r, db') -> vr_replayed r = false ->
  exists m, market_for_update (td_book db) (cv_market cmd) = Ok m /\
    (mk_state m = Live \/ mk_state m = Closing) /\ now < mk_closes_at m /\
    user_has_channel (td_book db) (cv_user cmd) "imessage" = true /\
    zlen (List.filter (fun v => (vo_user v =? cv_user cmd)%N && (now - vc_window_secs config <=? vo_created_at v))
            (bk_votes (td_book db))) < vc_max_votes_per_window config /\
    (mk_closes_at m - vc_near_close_secs config <= now -> exists created,
       bk_created (td_book db) !! cv_user cmd = Some created /\ vc_min_account_age_secs config <= now - created) /\
    (now < mk_tally_hidden_at m ->
       pause_in_force (fence_config_value ("voting_paused:" +:+ uuid_text (cv_market cmd)) (td_ops db)) = false) /\
    user_voted (td_book db) (cv_user cmd) (cv_market cmd) = false.
Proof.
  intros E Hr. apply cast_vote_Ok in E as [(r0 & _ & _ & ->)|(funds & m & rec & out & X)]; [done|].
  destruct X as [_ _ _ Hm Hopen Hvoter Hpause _ _ Hu _ _]. exists m. split; [done|].
  assert (Ho : (mk_state m = Live \/ mk_state m = Closing) /\ now < mk_closes_at m).
  { unfold voting_open in Hopen. destruct (mk_state m); try discriminate;
      destruct (now >=? mk_closes_at m) eqn:G in Hopen; try discriminate;
      rewrite Z.geb_leb in G; apply Z.leb_gt in G; auto. }
  destruct Ho as [Ho1 Ho2]. unfold check_voter in Hvoter.
  destruct (user_has_channel _ _ _); [|discriminate]. cbn [negb] in Hvoter.
  apply bind_Ok in Hvoter as (w & [-> _]%ok_or_Ok%checked_Some & Hv).
  apply bind_Ok in Hv as (c & Hc%store_Ok & Hv). apply ok_or_Ok, checked_Some in Hc as [-> _].
  destruct (_ >=? _) eqn:G1 in Hv; [discriminate|]. rewrite Z.geb_leb in G1. apply Z.leb_gt in G1.
  apply bind_Ok in Hv as (nc & [-> _]%ok_or_Ok%checked_Some & Hv).
  apply bind_Ok in Hv as (ma & [-> _]%ok_or_Ok%checked_Some & Hv).
  split_and!; try done.
  - intros Hnear. rewrite Z.geb_leb, (proj2 (Z.leb_le _ _)) in Hv by done.
    apply bind_Ok in Hv as (cr & Hcr%store_Ok%ok_or_Ok & Hv). exists cr. split; [done|].
    destruct (_ <? _) eqn:G2 in Hv; [discriminate|]. by apply Z.ltb_ge in G2.
  - intros Hp. unfold check_vote_pause in Hpause. rewrite (proj2 (Z.ltb_lt _ _)) in Hpause by done.
    cbn [andb] in Hpause. by destruct (pause_in_force _).
  - destruct (user_voted _ _ _) eqn:Ev; [exfalso|done]. apply vote_conflict_false in Hu as [Hu _]. apply Hu.
    apply existsb_exists in Ev as (v & Hv1 & [Hv2%N.eqb_eq Hv3%N.eqb_eq]%andb_true_iff).
    apply list_elem_of_fmap. exists v. cbn. split; [by rewrite Hv2, Hv3|by apply list_elem_of_In].
Qed.

(** User 8 votes on the small market. *)
Definition demo_config : VoteIntegrityConfig := mkVoteConfig 30 3600 600 100.
Definition demo_vote : CastVoteCmd := mkCastVote 10 8 No 40 "v-2" None None.
Definition demo_cast (now : Z) (db : Db) : outcome AppError VoteReceipt * Db :=
  cast_vote (H0 := canonical_order) demo_config 51 (fun n => N.of_nat (300 + n)) now now demo_vote db.

Lemma demo_votes_wf : votes_wf (td_book demo_market_db).
Proof.
  split.
  - intros m r Hr. cbn in Hr. apply lookup_singleton_Some in Hr as [<- <-]. done.
  - repeat constructor; set_solver.
  - repeat constructor; set_solver.
  - constructor; [|constructor]. split_and!; cbn; [lia..|by eexists|].
    exists (mkOutcome 11 10 0 None None), Yes. by vm_compute.
Qed.

Lemma votes_are_numbered_witness :
  map vo_seq (votes_of (td_book (demo_cast 500 demo_market_db).2) 10) = [1; 2] /\
  no_votes (tally (td_book (demo_cast 500 demo_market_db).2) 10) = 1.
Proof.
  split; [|vm_compute; reflexivity].
  destruct (votes_are_numbered (H0 := canonical_order) demo_config demo_market_db (demo_cast 500 demo_market_db).2)
    as (_ & _ & Hn).
  - apply demo_market_wf.
  - apply demo_votes_wf.
  - apply vote_next, vote_refl.
  - destruct (Hn 10%N (mkMarketRecord "live" 1 2 (Some 0) (Some 900) (Some 800) None None None None None))
      as [Hs _]; [vm_compute; reflexivity|]. exact Hs.
Defined.

Definition demo_voted : Db := (demo_cast 500 demo_market_db).2.

Lemma demo_cast_ok :
  demo_cast 500 demo_market_db = (Ok (mkVoteReceipt 51 10 8 No 40 (Some 2) false), demo_voted).
Proof. vm_compute. reflexivity. Qed.

(** The replay while the tally is hidden does not show the number. *)
Lemma vote_replays_witness :
  (demo_cast 850 demo_voted).1 = Ok (mkVoteReceipt 51 10 8 No 40 None true).
Proof.
  destruct (vote_replays (H0 := canonical_order) demo_config 51 (fun n => N.of_nat (300 + n)) 500 500 demo_vote
    demo_market_db demo_voted (mkVoteReceipt 51 10 8 No 40 (Some 2) false)
    demo_market_wf eq_refl demo_cast_ok eq_refl) as (m & seq & Hm & _ & Hr).
  unfold demo_cast. rewrite Hr. vm_compute in Hm. injection Hm as <-. reflexivity.
Defined.

Lemma accepted_vote_was_permitted_witness : user_voted (td_book demo_market_db) 8 10 = false.
Proof.
  destruct (accepted_vote_was_permitted (H0 := canonical_order) demo_config 51 (fun n => N.of_nat (300 + n)) 500 500
    demo_vote demo_market_db demo_voted (mkVoteReceipt 51 10 8 No 40 (Some 2) false) demo_cast_ok eq_refl)
    as (m & _ & _ & _ & _ & _ & _ & _ & Hv).
  exact Hv.
Defined.
