(* ===== verification/Trade.v ===== *)
(** * Trade: placing a trade

    [application/src/place_trade.rs] over the Postgres transaction of
    [pg/trade_tx.rs] and [pg/rows.rs]: the idempotent replay, the lazy money
    work, the compliance gate, the market and vote checks under the row lock,
    the quote against the locked pool, the position cap, the pause and
    staleness fences, and the writes.  The headline theorem is the book
    invariant: for every market, the shares held on each side plus the pool's
    reserve of that side equal the escrowed cash.  Times are whole seconds;
    [db_now] is the database clock of the transaction. *)

From S2P Require Import Prelude Money Amm Ledger Market Resolution Economy Chars Errors Credits PgLedger Json Config Fences ConfigStore Compliance Collect Postings Book.
#[local] Open Scope string_scope.
#[local] Open Scope list_scope.
#[local] Open Scope Z_scope.

(** ** The use case *)

Record PlaceTradeCmd := mkPlaceTrade {
  pt_market : N; pt_user : N; pt_side : Side; pt_action : TradeAction; pt_amount_micro : Z;
  pt_idempotency_key : string; pt_run_id : option N; pt_pending_action_id : option N;
  pt_expected_config_version : option Z }.

Record QuotedLegs := mkLegs {
  ql_shares : Z; ql_gross : Z; ql_fee : Z; ql_avg_price_micro : Z; ql_pool_after : Pool;
  ql_user_delta : Z; ql_escrow_delta : Z; ql_fee_delta : Z; ql_position : PositionRow;
  ql_realized_delta : option Z }.

(** [preview_trade.rs]. *)
Definition avg_price_micro (gross shares : Z) : outcome AppError Z :=
  if shares <=? 0 then Err App.Overflow else
  scaled ← arith I128 (gross * 1000000);
  avg ← sdiv I128 scaled shares;
  ok_or (checked I64 avg) App.Overflow.

Definition quote_legs (cmd : PlaceTradeCmd) (pool : Pool) (out : N) (held : option PositionRow)
    (fee : Z) : outcome AppError QuotedLegs :=
  let position := default (mkPosition (pt_user cmd) out 0 0 0) held in
  match pt_action cmd with
  | Buy =>
      let gross := pt_amount_micro cmd in
      q ← map_err App.Amm (quote_buy pool (pt_side cmd) gross fee);
      net ← ok_or (checked I64 (gross - bq_fee q)) App.Overflow;
      shares ← ok_or (checked I64 (po_shares position + bq_shares_out q)) App.Overflow;
      cost ← ok_or (checked I64 (po_cost position + gross)) App.Overflow;
      neg ← arith I64 (- gross);
      Ok (mkLegs (bq_shares_out q) gross (bq_fee q) (bq_avg_price q)
            (bq_pool_after q) neg net (bq_fee q)
            (mkPosition (po_user position) (po_outcome position) shares cost (po_realized_pnl position))
            None)
  | Sell =>
      let shares := pt_amount_micro cmd in
      if (po_shares position <? shares) || (shares <=? 0) then Err App.InsufficientShares else
      q ← map_err App.Amm (quote_sell pool (pt_side cmd) shares fee);
      proceeds ← ok_or (checked I64 (sq_collateral_out q + sq_fee q)) App.Overflow;
      product ← arith I128 (po_cost position * shares);
      relieved ← sdiv I128 product (po_shares position);
      relieved ← ok_or (checked I64 relieved) App.Overflow;
      pnl ← ok_or (checked I64 (sq_collateral_out q - relieved)) App.Overflow;
      realized ← ok_or (checked I64 (po_realized_pnl position + pnl)) App.Overflow;
      left ← arith I64 (po_shares position - shares);
      cost ← ok_or (checked I64 (po_cost position - relieved)) App.Overflow;
      avg ← avg_price_micro proceeds shares;
      neg ← arith I64 (- proceeds);
      Ok (mkLegs shares proceeds (sq_fee q) avg (sq_pool_after q) (sq_collateral_out q) neg (sq_fee q)
            (mkPosition (po_user position) (po_outcome position) left cost realized) (Some pnl))
  end.

Section PlaceTrade.
Context `{UuidText} `{HashMapOrder} (collate : string -> string -> bool).
(** The [RepConfig] the service runs with. *)
Context (rep_config : RepConfig).
(** The JSON of an [OffsetDateTime], crate [time]. *)
Context (time_json : Z -> Value).

Definition trade_placed_event (cmd : PlaceTradeCmd) (user_handle : string) (inserted : InsertedTrade)
    (legs : QuotedLegs) : Event :=
  mkEvent "TradePlaced" "market" (pt_market cmd)
    (JObject [ ("action", JString (text_of (ascii_lowercase (debug_action (pt_action cmd)))))
             ; ("collateral_micro", JInt (ql_gross legs))
             ; ("created_at", time_json (it_created_at inserted))
             ; ("fee_micro", JInt (ql_fee legs))
             ; ("handle", JString user_handle)
             ; ("market_id", JString (uuid_text (pt_market cmd)))
             ; ("shares_micro", JInt (ql_shares legs))
             ; ("side", JString (text_of (ascii_lowercase (debug_side (pt_side cmd)))))
             ; ("trade_id", JString (uuid_text (it_id inserted)))
             ; ("trade_seq", JInt (it_trade_seq inserted))
             ; ("user_id", JString (uuid_text (pt_user cmd))) ]).

(** The state check under the market row lock. *)
Definition market_open (m : MarketRow) (now : Z) : outcome AppError unit :=
  match mk_state m with
  | Closing => Err App.TradingFrozen
  | Live => if now >=? mk_tally_hidden_at m then Err App.TradingFrozen else Ok tt
  | _ => Err App.MarketNotOpen
  end.

(** A sell within the flip window of the user's last buy of the outcome. *)
Definition is_flip (cmd : PlaceTradeCmd) (last_buy : option Z) (now : Z) : bool :=
  bool_decide (pt_action cmd = Sell) && negb (discount_flip_window_secs rep_config =? 0) &&
  match last_buy with
  | Some last => now - last <? saturate I64 (discount_flip_window_secs rep_config)
  | None => false
  end.

(** The position cap of a buy. *)
Definition check_cap (cmd : PlaceTradeCmd) (b : Book) (user_tier : Z) : outcome AppError unit :=
  match pt_action cmd with
  | Sell => Ok tt
  | Buy =>
      current ← store (market_position_cost b (pt_user cmd) (pt_market cmd));
      match position_cap_micro_by_tier rep_config !! Z.to_nat (Z.min user_tier 4) with
      | None => Panic
      | Some cap =>
          projected ← ok_or (checked I64 (current + pt_amount_micro cmd)) App.Overflow;
          if projected >? cap then Err (App.PositionCapExceeded cap user_tier) else Ok tt
      end
  end.

(** The pauses read under the fences. *)
Definition check_pauses (cmd : PlaceTradeCmd) (ops : OpsDb) : outcome AppError unit :=
  if pause_in_force (fence_config_value "trading_paused" ops) ||
     pause_in_force (fence_config_value ("market_paused:" +:+ uuid_text (pt_market cmd)) ops)
  then Err App.TradingPaused else
  if pause_in_force (fence_config_value ("voting_paused:" +:+ uuid_text (pt_market cmd)) ops)
  then Err App.VotingPaused else Ok tt.

Definition check_stale (cmd : PlaceTradeCmd) (expected : Z) (ops : OpsDb) (ctx : StalenessContext) :
    outcome AppError unit :=
  '(current, changes) ← store (fence_changes_since collate expected ops);
  stale ← (match changes with
           | None => Ok true
           | Some changes => lift_total (preview_relevant_drift changes ctx)
           end);
  if stale : bool then Err (App.StaleConfig expected current) else Ok tt.

(** The replay of a used key: the stored receipt, or a conflict. *)
Definition replay_trade (cmd : PlaceTradeCmd) (fingerprint : str) (txn : N) (db : Db) :
    outcome AppError TradeReceipt :=
  _ ← validate_replay_fingerprint (td_fingerprints db !! pt_idempotency_key cmd) fingerprint;
  found ← store (trade_by_ledger_txn (td_book db) txn);
  r ← ok_or found (App.Store (Store.Invariant "idempotency key exists without a trade row"));
  Ok (mkReceipt (rt_trade_id r) (rt_ledger_txn r) (rt_side r) (rt_action r) (rt_shares r)
        (rt_gross r) (rt_fee r) (rt_avg_price_micro r) true).

(** The facts of the user's lots, lot by lot. *)
Definition facts_of_lots (c : CreditDb) (lots : list CreditLotRow) : list AllocationFact :=
  concat (map (fun lot => allocations_for_lot c (lot_row_id lot)) lots).

(** The fee of the trade, allocated to the user's lots. *)
Definition allocate_fee (fresh : nat -> N) (fee : Z) (user trade : N) (db : Db) :
    outcome AppError Db :=
  if fee >? 0 then
    let credits := fu_credits (td_funds db) in
    let lots := lots_for_user credits user in
    planned ← map_err (fun _ => App.Store (Store.Invariant "credit allocation algebra"))
      (plan_trade_allocations fresh lots (facts_of_lots credits lots) trade fee);
    credits ← foldM (fun c fact => store (insert_allocation c fact)) credits planned;
    Ok (set_funds (set_credits credits (td_funds db)) db)
  else Ok db.

(** The ledger entries; zero legs are omitted. *)
Definition trade_entries (user_acct escrow_acct : N) (fees_acct : option N) (legs : QuotedLegs) :
    list Entry :=
  [{| e_account := user_acct; e_amount := ql_user_delta legs |};
   {| e_account := escrow_acct; e_amount := ql_escrow_delta legs |}] ++
  match fees_acct with
  | Some fees => [{| e_account := fees; e_amount := ql_fee_delta legs |}]
  | None => []
  end.

(** The accounts and the ledger transaction of the trade. *)
Definition post_trade (fresh : nat -> N) (cmd : PlaceTradeCmd) (legs : QuotedLegs) (led : PgLedger) :
    outcome AppError (N * PgLedger) :=
  '(led, user_acct) ← store (account (fresh 0%nat) led (Ref.User (pt_user cmd)) Usdc);
  '(led, escrow_acct) ← store (account (fresh 1%nat) led (Ref.MarketEscrow (pt_market cmd)) Usdc);
  '(fees, led) ← (if ql_fee_delta legs =? 0 then Ok (None, led)
                  else '(led, fees) ← store (account (fresh 2%nat) led Ref.Fees Usdc); Ok (Some fees, led));
  '(led, txn) ← store (ledger_apply (fresh 3%nat) led Trade (pt_idempotency_key cmd)
                   (trade_entries user_acct escrow_acct fees legs));
  Ok (txn, led).

(** The rows the trade leaves besides the ledger. *)
Definition record_trade (fresh fresh_alloc : nat -> N) (db_now now : Z) (cmd : PlaceTradeCmd) (out : N)
    (legs : QuotedLegs) (txn : N) (db : Db) : outcome AppError (TradeReceipt * Db) :=
  db ← (match ql_realized_delta legs with
        | Some delta => store (insert_realization (mkRealization (pt_user cmd) (pt_market cmd) out SellSource
                          delta (ql_user_delta legs) txn now) db)
        | None => Ok db
        end);
  b ← store (save_reserves (pt_market cmd) (ql_pool_after legs) (td_book db));
  b ← store (save_position (ql_position legs) b);
  user_handle ← store (handle db (pt_user cmd));
  '(inserted, db) ← store (insert_trade (fresh 4%nat) db_now
     (mkNewTrade (pt_market cmd) (pt_user cmd) out (pt_side cmd) (pt_action cmd) (ql_shares legs)
        (ql_gross legs) (ql_fee legs) (ql_avg_price_micro legs) txn (pt_run_id cmd)
        (pt_pending_action_id cmd)) (set_book b db));
  let db := set_ops (outbox_append (trade_placed_event cmd user_handle inserted legs) (td_ops db)) db in
  db ← allocate_fee fresh_alloc (ql_fee legs) (pt_user cmd) (it_id inserted) db;
  Ok (mkReceipt (it_id inserted) txn (pt_side cmd) (pt_action cmd) (ql_shares legs) (ql_gross legs)
        (ql_fee legs) (ql_avg_price_micro legs) false, db).

(** [PlaceTrade::execute].  [fresh] supplies the ids of the accounts, the
    transaction and the trade, [fresh_lazy] those of the lazy money work and
    [fresh_alloc] those of the allocations. *)
Definition place_trade (fresh fresh_lazy fresh_alloc : nat -> N) (db_now now : Z) (cmd : PlaceTradeCmd)
    (db : Db) : outcome AppError TradeReceipt * Db :=
  atomic db (
    expected ← ok_or (pt_expected_config_version cmd) App.ExpectedConfigVersionRequired;
    let fingerprint := trade_fingerprint (pt_market cmd) (pt_user cmd) (pt_side cmd) (pt_action cmd)
                         (pt_amount_micro cmd) (pt_expected_config_version cmd) in
    match txn_by_key (fu_ledger (td_funds db)) (pt_idempotency_key cmd) with
    | Some txn => r ← replay_trade cmd fingerprint txn db; Ok (r, db)
    | None =>
        '(_, funds) ← convert_then_collect fresh_lazy (pt_user cmd) now (pt_idempotency_key cmd) (td_funds db);
        let db := set_funds funds db in
        _ ← enforce_money_mutation (td_comp db) (db_entries (td_ops db)) db_now (pt_user cmd) PlaceTrade
              (pt_amount_micro cmd) now;
        rep ← store (user_rep (td_book db) (pt_user cmd));
        market ← store (market_for_update (td_book db) (pt_market cmd));
        _ ← market_open market now;
        if negb (user_voted (td_book db) (pt_user cmd) (pt_market cmd)) then Err App.VoteRequired else
        pool ← store (pool_for_update (td_book db) (pt_market cmd));
        let out := match pt_side cmd with Yes => mk_yes_outcome market | No => mk_no_outcome market end in
        let last_buy := last_buy_at (td_book db) (pt_user cmd) out in
        override ← store (override_parse (fence_config_value (fee_override_key (pt_market cmd)) (td_ops db)));
        fee ← lift_total (effective_fee
          {| base_bps := override_base_bps override (p_fee pool); tier := rep.2;
             discount_bp_by_tier := fee_discount_bp_by_tier rep_config;
             min_fee_bps := rep_min_fee_bps rep_config;
             is_flip_within_window := is_flip cmd last_buy now |});
        _ ← check_cap cmd (td_book db) rep.2;
        let held := position_for_update (td_book db) (pt_user cmd) out in
        _ ← check_pauses cmd (td_ops db);
        _ ← check_stale cmd expected (td_ops db)
              (mkStaleness rep.2 (p_fee pool) override rep_config (pt_action cmd)
                 ((fun last => now - last) <$> last_buy) (Some (pt_market cmd)));
        let db := save_request_fingerprint (pt_idempotency_key cmd) fingerprint db in
        legs ← quote_legs cmd pool out held fee;
        '(txn, led) ← post_trade fresh cmd legs (fu_ledger (td_funds db));
        record_trade fresh fresh_alloc db_now now cmd out legs txn
          (set_funds (set_ledger led (td_funds db)) db)
    end).
End PlaceTrade.

(** ** Specification *)

Definition rep_typed (c : RepConfig) : Prop :=
  Forall (in_ty U16) (fee_discount_bp_by_tier c) /\ in_ty U16 (rep_min_fee_bps c).

(** ** Lemmas: the quote *)

Record legs_facts (cmd : PlaceTradeCmd) (pool : Pool) (out : N) (held : option PositionRow)
    (legs : QuotedLegs) : Prop := {
  lf_wf : pool_wf (ql_pool_after legs);
  lf_near : near (ql_pool_after legs) (pt_side cmd) + po_shares (ql_position legs) =
    near pool (pt_side cmd) + default 0 (po_shares <$> held) + ql_escrow_delta legs;
  lf_far : far (ql_pool_after legs) (pt_side cmd) = far pool (pt_side cmd) + ql_escrow_delta legs;
  lf_sum : ql_user_delta legs + ql_escrow_delta legs + ql_fee_delta legs = 0;
  lf_key : (po_user (ql_position legs), po_outcome (ql_position legs)) =
    default (pt_user cmd, out) ((fun p => (po_user p, po_outcome p)) <$> held);
  lf_position : 0 <= po_shares (ql_position legs);
  lf_typed : in_ty I64 (ql_user_delta legs) /\ in_ty I64 (ql_escrow_delta legs) /\
    in_ty I64 (ql_fee_delta legs);
  lf_fee : ql_fee_delta legs = ql_fee legs /\ 0 <= ql_fee legs;
  lf_gross : 0 < ql_gross legs <= MAX_AMOUNT /\ 0 < ql_shares legs;
  lf_avg : in_ty I64 (ql_avg_price_micro legs) /\
    ql_avg_price_micro legs = ql_gross legs * 1000000 / ql_shares legs }.

Lemma quote_buy_avg p side collateral fee q :
  pool_wf p -> in_ty I64 collateral -> in_ty U16 fee -> quote_buy p side collateral fee = Ok q ->
  bq_avg_price q = collateral * 1000000 / bq_shares_out q /\ in_ty I64 (bq_avg_price q) /\
  in_ty I64 (bq_fee q).
Proof.
  intros Hp Hc Hf Hq. pose proof (quote_buy_facts _ _ _ _ _ Hp Hc Hf Hq) as Hb.
  split_and!.
  - rewrite quote_buy_refines in Hq by done. unfold buy_spec in Hq. cbv zeta in Hq.
    inv_run Hq. by injection Hq as <-.
  - unfold quote_buy in Hq. inv_run Hq. destruct side; inv_run Hq; by injection Hq as <-.
  - destruct Hb as [H1 _ H2 _ _ _ _ _ _]. unfold MAX_AMOUNT in *. ty.
Qed.

Ltac legs_cbn :=
  cbn [ql_shares ql_gross ql_fee ql_avg_price_micro ql_pool_after ql_user_delta ql_escrow_delta
       ql_fee_delta ql_position ql_realized_delta po_user po_outcome po_shares po_cost po_realized_pnl].

Lemma quote_legs_facts cmd pool out held fee legs :
  pool_wf pool -> in_ty I64 (pt_amount_micro cmd) -> in_ty U16 fee ->
  (forall p, held = Some p -> 0 <= po_shares p) ->
  quote_legs cmd pool out held fee = Ok legs -> legs_facts cmd pool out held legs.
Proof.
  intros Hp Ha Hf Hh Hq. unfold quote_legs in Hq. cbv zeta in Hq.
  set (pos := default (mkPosition (pt_user cmd) out 0 0 0) held) in *.
  assert (Hsh : po_shares pos = default 0 (po_shares <$> held)) by by destruct held.
  assert (Hkey : (po_user pos, po_outcome pos) =
    default (pt_user cmd, out) ((fun p => (po_user p, po_outcome p)) <$> held)) by by destruct held.
  assert (H0 : 0 <= po_shares pos) by (destruct held; cbn; [by apply Hh|lia]).
  destruct (pt_action cmd).
  - apply bind_Ok in Hq as (q & Hq1%map_err_Ok & Hq).
    pose proof (quote_buy_facts _ _ _ _ _ Hp Ha Hf Hq1) as [B1 B2 B3 B4 B5 B6 B7 B8 B9].
    destruct (quote_buy_avg _ _ _ _ _ Hp Ha Hf Hq1) as (A1 & A2 & A3).
    inv_run Hq. injection Hq as <-. split; legs_cbn; rewrite <- ?Hsh, <- ?Hkey; try done; lia.
  - destruct (_ || _) eqn:Hc; [discriminate|]. bool_hyps.
    apply bind_Ok in Hq as (q & Hq1%map_err_Ok & Hq).
    pose proof (quote_sell_facts _ _ _ _ _ Hp Ha Hf Hq1) as [S1 S2 S3 S4 S5 S6 S7 S8 S9 S10 S11].
    inv_run Hq. injection Hq as <-. unfold avg_price_micro in Hr7.
    split; legs_cbn; rewrite <- ?Hsh, <- ?Hkey; try done; try lia.
    + unfold MAX_AMOUNT in *. split_and!; [ty|done|ty].
    + destruct (_ <=? 0) in Hr7; [discriminate|].
      apply bind_Ok in Hr7 as (x & [-> _]%arith_Ok & Hr7).
      apply bind_Ok in Hr7 as (y & (_ & -> & _)%sdiv_Ok & [-> Hy]%ok_or_Ok%checked_Some).
      rewrite quot_div_nonneg in * by lia. done.
Qed.

(** ** Lemmas: the ledger of a trade *)

Section PostTrade.
Context `{UuidText} `{HashMapOrder}.

(** What a posted trade leaves in the ledger. *)
Record trade_posted (cmd : PlaceTradeCmd) (legs : QuotedLegs) (txn : N) (led led' : PgLedger) : Prop := {
  tp_extends : extends led led';
  tp_user : exists a, owns led' a (Ref.User (pt_user cmd)) Usdc;
  tp_escrow : forall m, escrow_of led' m =
    escrow_of led m + (if (m =? pt_market cmd)%N then ql_escrow_delta legs else 0);
  tp_new : txn ∉ map txn_id (pg_txns led);
  tp_txns : map txn_id (pg_txns led') = map txn_id (pg_txns led) ++ [txn];
  tp_key : txn_by_key led' (pt_idempotency_key cmd) = Some txn;
  tp_reserved : forall o, reserved o = true -> held led' o Usdc = held led o Usdc }.

Definition trade_postings (cmd : PlaceTradeCmd) (user_acct escrow_acct : N) (fees : option N) (legs : QuotedLegs) :
    list Posting :=
  [mkPosting user_acct (Ref.User (pt_user cmd)) Usdc (ql_user_delta legs);
   mkPosting escrow_acct (Ref.MarketEscrow (pt_market cmd)) Usdc (ql_escrow_delta legs)] ++
  match fees with Some a => [mkPosting a Ref.Fees Usdc (ql_fee_delta legs)] | None => [] end.

Lemma trade_posted_to cmd u e fees legs m :
  posted_to (Ref.MarketEscrow m) Usdc (trade_postings cmd u e fees legs) =
  if (m =? pt_market cmd)%N then ql_escrow_delta legs else 0.
Proof. unfold trade_postings. destruct fees, (N.eqb_spec m (pt_market cmd)) as [->|]; cbn [app]; posted_simpl; lia. Qed.

Lemma post_trade_posted fresh cmd legs led txn led' :
  pg_wf led -> in_ty I64 (ql_user_delta legs) -> in_ty I64 (ql_escrow_delta legs) ->
  in_ty I64 (ql_fee_delta legs) ->
  post_trade fresh cmd legs led = Ok (txn, led') -> trade_posted cmd legs txn led led'.
Proof.
  intros W0 T1 T2 T3 Hr. unfold post_trade in Hr.
  apply bind_Ok in Hr as ([l1 a1] & H1%store_Ok & Hr). apply bind_Ok in Hr as ([l2 a2] & H2%store_Ok & Hr).
  apply bind_Ok in Hr as ([fees l3] & H3 & Hr). apply bind_Ok in Hr as ([l4 t] & H4%store_Ok & [= <- <-]).
  apply account_txns in H1 as N1, H2 as N2.
  apply account_held in H1 as (X1 & O1 & E1); [|done]. apply account_held in H2 as (X2 & O2 & E2); [|apply X1].
  assert (H3' : extends l2 l3 /\ pg_txns l3 = pg_txns l2 /\ (forall o c, held l3 o c = held l2 o c) /\ match fees with Some a => owns l3 a Ref.Fees Usdc | None => True end).
  { destruct (ql_fee_delta legs =? 0); [injection H3 as <- <-; split_and!; eauto with ledger|].
    apply bind_Ok in H3 as ([l a3] & H3%store_Ok & [= <- <-]). apply account_txns in H3 as N3.
    apply account_held in H3 as (X3 & O3 & E3); [done|apply X2]. }
  destruct H3' as (X3 & N3 & E3 & Hf). pose proof (xt_wf _ _ X3) as W3.
  assert (Hps : trade_entries a1 a2 fees legs = map entry_of (trade_postings cmd a1 a2 fees legs)) by by destruct fees.
  rewrite Hps in H4. apply apply_recorded in H4 as R; [|done| |].
  2:{ unfold trade_postings. destruct fees; cbn [app map]; rewrite !Forall_cons; done. }
  2:{ unfold trade_postings, zlen. destruct fees; cbn; lia. }
  apply apply_held in H4 as (X4 & E4); [|done|unfold trade_postings; destruct fees; cbn [app]; posting_side..|].
  2:{ unfold trade_postings, zlen. destruct fees; cbn; lia. }
  destruct R as (R1 & R2 & R3). rewrite N3, N2, N1 in R1, R2. split; try done.
  - eauto with ledger.
  - exists a1. eauto with ledger.
  - intros m. rewrite !escrow_held. by rewrite E4, E3, E2, E1, trade_posted_to.
  - intros o Ho. rewrite E4, E3, E2, E1. unfold trade_postings. destruct o; try done; destruct fees; cbn [app]; posted_simpl; lia.
Qed.
End PostTrade.

Section RecordTrade.
Context `{UuidText} `{HashMapOrder} (time_json : Z -> Value).

Record recorded (fresh4 : N) (db_now : Z) (cmd : PlaceTradeCmd) (out : N) (legs : QuotedLegs) (txn : N)
    (db db' : Db) (r : TradeReceipt) : Prop := {
  rd_ledger : fu_ledger (td_funds db') = fu_ledger (td_funds db);
  rd_lots : db_lots (fu_credits (td_funds db')) = db_lots (fu_credits (td_funds db));
  rd_outcomes : bk_outcomes (td_book db') = bk_outcomes (td_book db);
  rd_reserves : exists yes no,
    outcome_of (td_book db) (pt_market cmd) 0 = Some yes /\
    outcome_of (td_book db) (pt_market cmd) 1 = Some no /\
    bk_reserves (td_book db') = <[no := p_no (ql_pool_after legs)]>
      (<[yes := p_yes (ql_pool_after legs)]> (bk_reserves (td_book db)));
  rd_positions : bk_positions (td_book db') =
    <[(po_user (ql_position legs), po_outcome (ql_position legs)) := ql_position legs]>
      (bk_positions (td_book db));
  rd_trades : exists seq, bk_trades (td_book db') = bk_trades (td_book db) ++
    [mkTrade fresh4 (pt_user cmd) (pt_market cmd) out (pt_run_id cmd) (pt_pending_action_id cmd) txn
       (action_name (pt_action cmd)) (ql_gross legs) (ql_shares legs) (ql_fee legs) seq db_now];
  rd_side : exists o,
    List.find (fun o => (oc_id o =? out)%N && (oc_market o =? pt_market cmd)%N) (bk_outcomes (td_book db)) = Some o /\
    side_from_idx (oc_idx o) = Ok (pt_side cmd);
  rd_fingerprints : td_fingerprints db' = td_fingerprints db;
  rd_receipt : r = mkReceipt fresh4 txn (pt_side cmd) (pt_action cmd) (ql_shares legs) (ql_gross legs)
    (ql_fee legs) (ql_avg_price_micro legs) false;
  rd_markets : bk_markets (td_book db') = bk_markets (td_book db);
  rd_reports : bk_reports (td_book db') = bk_reports (td_book db) }.

Lemma insert_allocation_lots c fact c' : insert_allocation c fact = Ok c' -> db_lots c' = db_lots c.
Proof.
  unfold insert_allocation. destruct (List.find _ _) as [x|].
  - destruct (same_allocation x fact); [by intros [= <-]|done].
  - intros (? & _ & Hi)%bind_Ok. unfold insert_row in Hi.
    repeat match type of Hi with (if ?b then _ else _) = _ => destruct b; [discriminate|] end.
    by injection Hi as <-.
Qed.

Lemma allocate_fee_Ok fresh fee user trade db db' :
  allocate_fee fresh fee user trade db = Ok db' ->
  exists c, db' = set_funds (set_credits c (td_funds db)) db /\ db_lots c = db_lots (fu_credits (td_funds db)).
Proof.
  unfold allocate_fee. destruct (fee >? 0).
  - intros (planned & _ & Hr)%bind_Ok. apply bind_Ok in Hr as (c & Hc & [= <-]). exists c. split; [done|].
    revert Hc. generalize (fu_credits (td_funds db)). induction planned as [|x l IH]; intros c0; cbn [foldM].
    + by intros [= <-].
    + intros (c1 & H1%store_Ok & Hr)%bind_Ok. rewrite (IH _ Hr). by eapply insert_allocation_lots.
  - intros [= <-]. exists (fu_credits (td_funds db)). split; [|done]. by destruct db as [[] ? ? ? ? ? ?].
Qed.

Lemma record_trade_Ok fresh fresh_alloc db_now now cmd out legs txn db r db' :
  record_trade time_json fresh fresh_alloc db_now now cmd out legs txn db = Ok (r, db') ->
  recorded (fresh 4%nat) db_now cmd out legs txn db db' r.
Proof.
  unfold record_trade. intros (db1 & H1 & Hr)%bind_Ok.
  assert (E1 : exists l, db1 = mkDb (td_funds db) (td_ops db) (td_comp db) (td_book db) (td_fingerprints db) l (td_referrals db)).
  { destruct (ql_realized_delta legs).
    - apply store_Ok in H1. unfold insert_realization in H1. destruct (_ <? 0); [discriminate|].
      injection H1 as <-. destruct (existsb _ _); [exists (td_realizations db); by destruct db|by eexists].
    - injection H1 as <-. exists (td_realizations db). by destruct db. }
  destruct E1 as [l ->]. cbn [td_book td_comp td_ops td_funds] in Hr.
  apply bind_Ok in Hr as (b1 & H2%store_Ok & Hr). apply bind_Ok in Hr as (b2 & H3%store_Ok & Hr).
  apply bind_Ok in Hr as (h & _ & Hr). apply bind_Ok in Hr as ([ins db2] & H4%store_Ok & Hr).
  apply bind_Ok in Hr as (db3 & H5 & [= <- <-]).
  unfold save_reserves in H2. destruct (_ || _) in H2; [discriminate|].
  destruct (outcome_of (td_book db) (pt_market cmd) 0) as [yes|] eqn:Ey; [|discriminate].
  destruct (outcome_of (td_book db) (pt_market cmd) 1) as [no|] eqn:En; [|discriminate].
  destruct (_ && _) in H2; [|discriminate]. injection H2 as <-.
  unfold save_position in H3. destruct (_ <? 0) in H3; [discriminate|]. injection H3 as <-.
  unfold insert_trade in H4. cbn [td_book set_book bk_outcomes nt_outcome nt_market nt_side] in H4. cbv zeta in H4.
  apply bind_Ok in H4 as (idx & Hidx%ok_or_Ok & H4). apply bind_Ok in H4 as (side & Hside & H4).
  destruct (negb _) eqn:Hs in H4; [discriminate|]. apply negb_false_iff, bool_decide_eq_true in Hs as ->.
  apply bind_Ok in H4 as (seq & _ & H4). destruct (_ || _) in H4; [discriminate|].
  destruct (existsb _ _) in H4; [discriminate|]. injection H4 as <- <-.
  apply allocate_fee_Ok in H5 as (c & -> & Hlots). apply fmap_Some in Hidx as (o & Ho & ->).
  split; cbn in *; try done.
  - by exists yes, no.
  - by exists seq.
  - by exists o.
Qed.
End RecordTrade.

(** ** Lemmas: the use case *)

Section Execute.
Context `{UuidText} `{HashMapOrder} (collate : string -> string -> bool) (rep_config : RepConfig)
  (time_json : Z -> Value).
Hypothesis Hrep : rep_typed rep_config.

Lemma effective_fee_u16 ctx fee :
  in_ty U16 (base_bps ctx) -> Forall (in_ty U16) (discount_bp_by_tier ctx) -> in_ty U16 (min_fee_bps ctx) ->
  effective_fee ctx = Ok fee -> in_ty U16 fee.
Proof.
  intros Hb Hd Hm. unfold effective_fee. destruct (is_flip_within_window ctx); [by intros [= <-]|].
  destruct (_ !! _) as [d|] eqn:E; [|done]. intros [= <-]. rewrite Forall_lookup in Hd.
  apply Hd in E. ty.
Qed.

Record executed (fresh fresh_lazy fresh_alloc : nat -> N) (db_now now : Z) (cmd : PlaceTradeCmd)
    (db db' : Db) (r : TradeReceipt) (funds : Funds) (pool : Pool) (out : N) (fee : Z)
    (legs : QuotedLegs) (txn : N) (led : PgLedger) : Prop := {
  ex_version : is_Some (pt_expected_config_version cmd);
  ex_new : txn_by_key (fu_ledger (td_funds db)) (pt_idempotency_key cmd) = None;
  ex_lazy : exists cr, convert_then_collect fresh_lazy (pt_user cmd) now (pt_idempotency_key cmd) (td_funds db)
              = Ok (cr, funds);
  ex_gate : enforce_money_mutation (td_comp db) (db_entries (td_ops db)) db_now (pt_user cmd) PlaceTrade
              (pt_amount_micro cmd) now = Ok tt;
  ex_market : exists m, market_for_update (td_book db) (pt_market cmd) = Ok m /\ market_open m now = Ok tt /\
              out = match pt_side cmd with Yes => mk_yes_outcome m | No => mk_no_outcome m end;
  ex_voted : user_voted (td_book db) (pt_user cmd) (pt_market cmd) = true;
  ex_pool : pool_for_update (td_book db) (pt_market cmd) = Ok pool;
  ex_fee : in_ty U16 fee;
  ex_cap : exists rep, user_rep (td_book db) (pt_user cmd) = Ok rep /\
              check_cap rep_config cmd (td_book db) rep.2 = Ok tt;
  ex_pauses : check_pauses cmd (td_ops db) = Ok tt;
  ex_legs : quote_legs cmd pool out (position_for_update (td_book db) (pt_user cmd) out) fee = Ok legs;
  ex_post : post_trade fresh cmd legs (fu_ledger funds) = Ok (txn, led);
  ex_record : record_trade time_json fresh fresh_alloc db_now now cmd out legs txn
    (mkDb (set_ledger led funds) (td_ops db) (td_comp db) (td_book db)
       (td_fingerprints (save_request_fingerprint (pt_idempotency_key cmd)
          (trade_fingerprint (pt_market cmd) (pt_user cmd) (pt_side cmd) (pt_action cmd)
             (pt_amount_micro cmd) (pt_expected_config_version cmd)) db)) (td_realizations db) (td_referrals db)) = Ok (r, db') }.

Lemma place_trade_Ok fresh fresh_lazy fresh_alloc db_now now cmd db r db' :
  place_trade collate rep_config time_json fresh fresh_lazy fresh_alloc db_now now cmd db = (Ok r, db') ->
  (exists txn, txn_by_key (fu_ledger (td_funds db)) (pt_idempotency_key cmd) = Some txn /\ db' = db /\
     rt_replayed r = true) \/
  exists funds pool out fee legs txn led,
    executed fresh fresh_lazy fresh_alloc db_now now cmd db db' r funds pool out fee legs txn led.
Proof.
  unfold place_trade. intros Hr.
  match type of Hr with atomic _ ?m = _ => destruct m as [[a db1]|e|] eqn:E end; cbn in Hr; [|done..].
  injection Hr as -> ->. apply bind_Ok in E as (expected & Hx%ok_or_Ok & E). cbv zeta in E.
  destruct (txn_by_key _ _) as [txn|] eqn:Hk; [left|right].
  { apply bind_Ok in E as (r0 & Hr & [= -> ->]). exists txn. split_and!; [done..|].
    unfold replay_trade in Hr. apply bind_Ok in Hr as (? & _ & Hr). apply bind_Ok in Hr as (? & _ & Hr).
    apply bind_Ok in Hr as (? & _ & Hr). by injection Hr as <-. }
  apply bind_Ok in E as ([cr funds] & H1 & E). apply bind_Ok in E as ([] & H2 & E).
  apply bind_Ok in E as (rep & H3%store_Ok & E). apply bind_Ok in E as (m & H4%store_Ok & E).
  apply bind_Ok in E as ([] & H5 & E). destruct (negb _) eqn:H6 in E; [discriminate|].
  apply negb_false_iff in H6. apply bind_Ok in E as (pool & H7%store_Ok & E).
  apply bind_Ok in E as (o & H8%store_Ok & E). apply bind_Ok in E as (fee & H9%lift_total_Ok & E).
  apply bind_Ok in E as ([] & H10 & E). apply bind_Ok in E as ([] & H11 & E).
  apply bind_Ok in E as ([] & H12 & E). apply bind_Ok in E as (legs & H13 & E).
  apply bind_Ok in E as ([txn led] & H14 & E). cbn [set_funds td_book td_comp td_ops td_funds] in *.
  exists funds, pool, (match pt_side cmd with Yes => mk_yes_outcome m | No => mk_no_outcome m end), fee, legs, txn, led.
  assert (Hfunds : td_funds (save_request_fingerprint (pt_idempotency_key cmd)
    (trade_fingerprint (pt_market cmd) (pt_user cmd) (pt_side cmd) (pt_action cmd)
      (pt_amount_micro cmd) (pt_expected_config_version cmd)) (set_funds funds db)) = funds).
  { unfold save_request_fingerprint. by destruct (_ !! _). }
  split; try done.
  - by exists cr.
  - by exists m.
  - destruct (pool_for_update_Ok _ _ _ H7) as (_ & Hpf & _).
    eapply effective_fee_u16; [| | |exact H9]; cbn; [|apply Hrep..].
    by eapply override_base_u16.
  - by exists rep.
  - by rewrite Hfunds in H14.
  - rewrite <- E. f_equal. unfold save_request_fingerprint. cbn [set_funds td_fingerprints].
    by destruct (td_fingerprints db !! pt_idempotency_key cmd).
Qed.

(** What an executed trade does to the book and the escrows. *)
Record moved_book (cmd : PlaceTradeCmd) (db db' : Db) (pool after : Pool) (yes no out : N)
    (delta shares : Z) : Prop := {
  mb_yes : outcome_of (td_book db) (pt_market cmd) 0 = Some yes;
  mb_no : outcome_of (td_book db) (pt_market cmd) 1 = Some no;
  mb_out : out = match pt_side cmd with Yes => yes | No => no end;
  mb_before : bk_reserves (td_book db) !! yes = Some (p_yes pool) /\
              bk_reserves (td_book db) !! no = Some (p_no pool);
  mb_outcomes : bk_outcomes (td_book db') = bk_outcomes (td_book db);
  mb_reserves : bk_reserves (td_book db') = <[no := p_no after]> (<[yes := p_yes after]> (bk_reserves (td_book db)));
  mb_near : near after (pt_side cmd) + shares = near pool (pt_side cmd) + delta;
  mb_far : far after (pt_side cmd) = far pool (pt_side cmd) + delta;
  mb_held : forall o, held_shares (td_book db') o = held_shares (td_book db) o + (if (out =? o)%N then shares else 0);
  mb_escrow : forall m, escrow_of (fu_ledger (td_funds db')) m =
    escrow_of (fu_ledger (td_funds db)) m + (if (m =? pt_market cmd)%N then delta else 0);
  mb_reserved : forall o, reserved o = true -> held (fu_ledger (td_funds db')) o Usdc = held (fu_ledger (td_funds db)) o Usdc }.

Lemma moved_book_balanced cmd db db' pool after yes no out delta shares :
  book_wf (td_book db) -> moved_book cmd db db' pool after yes no out delta shares ->
  forall m, balanced db m -> balanced db' m.
Proof.
  intros Hw [Y N O [B1 B2] OC R NE FA HS E _] m Hb y n ry rn Hy Hn Hry Hrn.
  assert (Hof : forall i, outcome_of (td_book db') m i = outcome_of (td_book db) m i)
    by (intros i; unfold outcome_of; by rewrite OC).
  rewrite Hof in Hy, Hn. rewrite R in Hry, Hrn.
  assert (Hyn : yes <> no) by (intros ->; by destruct (outcome_of_inj _ _ _ _ _ _ Hw Y N)).
  rewrite !HS, E. destruct (N.eqb_spec m (pt_market cmd)) as [->|Hm].
  - assert (y = yes) as -> by congruence. assert (n = no) as -> by congruence.
    rewrite lookup_insert_ne, lookup_insert_eq in Hry by done. rewrite lookup_insert_eq in Hrn.
    injection Hry as <-. injection Hrn as <-.
    destruct (Hb yes no _ _ Y N B1 B2) as [Q1 Q2].
    destruct (pt_side cmd); subst out; cbn in NE, FA; rewrite N.eqb_refl.
    + rewrite (proj2 (N.eqb_neq yes no)) by done. lia.
    + rewrite (proj2 (N.eqb_neq no yes)) by done. lia.
  - assert (Hd : forall i x j z, outcome_of (td_book db) m i = Some x ->
      outcome_of (td_book db) (pt_market cmd) j = Some z -> z <> x).
    { intros i x j z Hx Hz ->. by destruct (outcome_of_inj _ _ _ _ _ _ Hw Hx Hz). }
    rewrite !lookup_insert_ne in Hry, Hrn by eauto.
    destruct (Hb y n ry rn Hy Hn Hry Hrn) as [Q1 Q2].
    rewrite (proj2 (N.eqb_neq out y)), (proj2 (N.eqb_neq out n)); [lia|..];
      subst out; destruct (pt_side cmd); eauto.
Qed.

Lemma executed_moves fresh fresh_lazy fresh_alloc db_now now cmd db db' r funds pool out fee legs txn led :
  db_wf db -> in_ty I64 (pt_amount_micro cmd) ->
  executed fresh fresh_lazy fresh_alloc db_now now cmd db db' r funds pool out fee legs txn led ->
  legs_facts cmd pool out (position_for_update (td_book db) (pt_user cmd) out) legs /\
  calm (td_funds db) funds /\
  (exists yes no, moved_book cmd db db' pool (ql_pool_after legs) yes no out (ql_escrow_delta legs)
     (po_shares (ql_position legs) -
      default 0 (po_shares <$> bk_positions (td_book db) !! (pt_user cmd, out)))) /\
  db_wf db' /\ bk_markets (td_book db') = bk_markets (td_book db) /\ bk_reports (td_book db') = bk_reports (td_book db) /\
  (exists extra, pg_txns (fu_ledger (td_funds db')) = pg_txns (fu_ledger (td_funds db)) ++ extra) /\
  db_lots (fu_credits (td_funds db')) = db_lots (fu_credits funds).
Proof.
  intros [Wf Wb Wt Wk] Ha [_ _ [cr Hlazy] _ (m & Hm & _ & Hout) _ Hpool Hfee _ _ Hlegs Hpost Hrec].
  apply convert_then_collect_calm in Hlazy as C; [|done]. pose proof (cm_wf _ _ C) as Wc.
  destruct (pool_for_update_Ok _ _ _ Hpool) as (Pw & _ & yes & no & Hy & Hn & Ry & Rn).
  assert (L : legs_facts cmd pool out (position_for_update (td_book db) (pt_user cmd) out) legs).
  { eapply quote_legs_facts; try done. intros p Hp. by apply (bw_positions _ Wb) in Hp as [_ ?]. }
  destruct (lf_typed _ _ _ _ _ L) as (T1 & T2 & T3). pose proof (fw_ledger _ Wc) as W0.
  destruct (post_trade_posted _ _ _ _ _ _ W0 T1 T2 T3 Hpost) as [E0 O1 E1 _ X1 _ EW].
  apply record_trade_Ok in Hrec as [R1 R2 R3 (yes' & no' & Hy' & Hn' & R4) R5 [seq R6] _ _ _ R7 R8].
  cbn [td_book td_funds fu_ledger fu_credits set_ledger] in *.
  assert (yes' = yes) as -> by congruence. assert (no' = no) as -> by congruence.
  destruct (market_for_update_Ok _ _ _ Hm) as [M1 M2].
  assert (Hkey : (po_user (ql_position legs), po_outcome (ql_position legs)) = (pt_user cmd, out)).
  { rewrite (lf_key _ _ _ _ _ L). unfold position_for_update.
    destruct (bk_positions (td_book db) !! (pt_user cmd, out)) as [p|] eqn:Ep; [|done].
    apply (bw_positions _ Wb) in Ep as [-> _]. done. }
  rewrite Hkey in R5. split_and!; [done..| | |done|done| |done].
  - exists yes, no. split; try done.
    + subst out. destruct (pt_side cmd); congruence.
    + pose proof (lf_near _ _ _ _ _ L) as Hnear. unfold position_for_update in Hnear. lia.
    + apply L.
    + by apply held_saved.
    + intros x. rewrite R1, E1. by rewrite (qt_escrow _ _ _ (cm_quiet _ _ C) eq_refl).
    + intros o Ho. rewrite R1, EW by done. by apply (qt_holding _ _ _ (cm_quiet _ _ C) o Usdc), reserved_escrowed.
  - split.
    + split; [rewrite R1; apply E0|]. intros l r0. rewrite R2. apply (fw_lots _ Wc).
    + split; [rewrite R3; apply Wb..| | |].
      * intros o r0. rewrite R4. destruct (lf_wf _ _ _ _ _ L) as (Hy1 & Hn1 & _).
        intros [[_ <-]|[_ [[_ <-]|[_ Hr0]]%lookup_insert_Some]]%lookup_insert_Some; [lia..|]. by eapply Wb.
      * intros k p. rewrite R5. intros [[<- <-]|[_ Hp]]%lookup_insert_Some; [|by apply Wb].
        split; [exact (eq_sym Hkey)|apply L].
      * intros k p. rewrite R3, R5. intros [[<- _]|[_ Hp]]%lookup_insert_Some; [|by eapply Wb]. cbn.
        subst out. destruct (outcome_of_elem _ _ _ _ Hy) as (oy & Hoy & Iy & _),
          (outcome_of_elem _ _ _ _ Hn) as (on & Hon & In' & _).
        destruct (pt_side cmd); [replace (mk_yes_outcome m) with (oc_id oy) by congruence|
          replace (mk_no_outcome m) with (oc_id on) by congruence]; by apply list_elem_of_fmap_2.
    + rewrite R1, R6, X1. apply Forall_app. split.
      * eapply Forall_impl; [exact Wt|]. cbn. intros t Ht. apply elem_of_app. left.
        by apply (quiet_txns _ _ _ _ (cm_quiet _ _ C)).
      * constructor; [|constructor]. cbn. apply elem_of_app. right. left.
    + rewrite R1. intros k p. rewrite R5. intros [[<- _]|[_ Hp]]%lookup_insert_Some.
      * destruct O1 as [a Ha1]. by eapply owns_find_owner.
      * destruct E0 as [_ [x Hx] _]. eapply find_owner_app; [exact Hx|].
        eapply quiet_find_owner; [apply (cm_quiet _ _ C)|by eapply Wk].
  - rewrite R1. destruct E0 as [_ _ [x Hx]], (cm_quiet _ _ C) as [_ _ _ [z Hz]]. exists (z ++ x). by rewrite Hx, Hz, app_assoc.
Qed.

Definition as_replay (r : TradeReceipt) : TradeReceipt :=
  mkReceipt (rt_trade_id r) (rt_ledger_txn r) (rt_side r) (rt_action r) (rt_shares r) (rt_gross r)
    (rt_fee r) (rt_avg_price_micro r) true.

(** The row of an executed trade reads back as its receipt. *)
Lemma recorded_receipt fresh4 db_now cmd pool held out legs txn db db' r :
  legs_facts cmd pool out held legs -> recorded fresh4 db_now cmd out legs txn db db' r ->
  Forall (fun t => tr_txn t <> txn) (bk_trades (td_book db)) ->
  trade_by_ledger_txn (td_book db') txn = Ok (Some r).
Proof.
  intros L [_ _ R3 _ _ [seq R6] (o & Ho & Hside) _ -> _ _] Hnew.
  unfold trade_by_ledger_txn. rewrite R3, R6, find_app.
  destruct (List.find _ (bk_trades (td_book db))) as [t|] eqn:Ef.
  { apply find_by in Ef as [Ht [Hx%N.eqb_eq _]%andb_true_iff]. rewrite Forall_forall in Hnew. by destruct (Hnew t). }
  assert (Hex : existsb (fun o => (oc_id o =? out)%N && (oc_market o =? pt_market cmd)%N) (bk_outcomes (td_book db)) = true).
  { apply find_some in Ho as [Hi Hb]. apply existsb_exists. by exists o. }
  cbn [List.find tr_txn tr_outcome tr_market]. rewrite N.eqb_refl, Hex. cbn [andb].
  cbn [tr_outcome tr_market]. rewrite Ho. unfold trade_receipt. cbn [tr_collateral tr_shares tr_side tr_id tr_txn tr_fee].
  destruct (lf_gross _ _ _ _ _ L) as [G1 G2], (lf_avg _ _ _ _ _ L) as [A1 A2]. unfold MAX_AMOUNT in G1.
  assert (Hq : Z.quot (ql_gross legs * 1000000) (ql_shares legs) = ql_avg_price_micro legs)
    by (rewrite quot_div_nonneg by lia; done).
  rewrite checked_in by ty. cbn [ok_or mbind outcome_bind].
  rewrite sdiv_in by (rewrite ?Hq; ty). rewrite Hq, Hside. cbn [mbind outcome_bind].
  assert (Hact : action_parse (action_name (pt_action cmd)) = Ok (pt_action cmd)) by by destruct (pt_action cmd).
  rewrite Hact. cbn [mbind outcome_bind]. by rewrite checked_in.
Qed.

(** The ledger keeps the transaction under the key of the command. *)
Lemma executed_key fresh fresh_lazy fresh_alloc db_now now cmd db db' r funds pool out fee legs txn led :
  db_wf db -> in_ty I64 (pt_amount_micro cmd) ->
  executed fresh fresh_lazy fresh_alloc db_now now cmd db db' r funds pool out fee legs txn led ->
  txn_by_key (fu_ledger (td_funds db')) (pt_idempotency_key cmd) = Some txn.
Proof.
  intros W Ha X. destruct (executed_moves _ _ _ _ _ _ _ _ _ _ _ _ _ _ _ _ W Ha X) as (L & C & _).
  destruct X as [_ _ _ _ _ _ _ _ _ _ _ Hpost Hrec]. destruct (lf_typed _ _ _ _ _ L) as (T1 & T2 & T3).
  destruct (post_trade_posted _ _ _ _ _ _ (fw_ledger _ (cm_wf _ _ C)) T1 T2 T3 Hpost) as [_ _ _ _ _ K].
  apply record_trade_Ok in Hrec as R. by rewrite (rd_ledger _ _ _ _ _ _ _ _ _ R).
Qed.

(** The fingerprint of a command. *)
Definition fingerprint_of (cmd : PlaceTradeCmd) : str :=
  trade_fingerprint (pt_market cmd) (pt_user cmd) (pt_side cmd) (pt_action cmd) (pt_amount_micro cmd)
    (pt_expected_config_version cmd).

(** The traces an accepted trade leaves: the key in the ledger, the trade row and
    a fingerprint under the key. *)
Record traced (cmd : PlaceTradeCmd) (txn : N) (r : TradeReceipt) (stored : str) (db : Db) : Prop := {
  tc_version : is_Some (pt_expected_config_version cmd);
  tc_key : txn_by_key (fu_ledger (td_funds db)) (pt_idempotency_key cmd) = Some txn;
  tc_row : trade_by_ledger_txn (td_book db) txn = Ok (Some r);
  tc_stored : td_fingerprints db !! pt_idempotency_key cmd = Some stored }.

(** The row of an executed trade is new to the table. *)
Lemma executed_row fresh fresh_lazy fresh_alloc db_now now cmd db db' r funds pool out fee legs txn led :
  db_wf db -> in_ty I64 (pt_amount_micro cmd) ->
  executed fresh fresh_lazy fresh_alloc db_now now cmd db db' r funds pool out fee legs txn led ->
  trade_by_ledger_txn (td_book db') txn = Ok (Some r) /\
  bk_outcomes (td_book db') = bk_outcomes (td_book db) /\
  (exists extra, bk_trades (td_book db') = bk_trades (td_book db) ++ extra) /\
  td_fingerprints db' = td_fingerprints (save_request_fingerprint (pt_idempotency_key cmd) (fingerprint_of cmd) db).
Proof.
  intros W Ha X. destruct (executed_moves _ _ _ _ _ _ _ _ _ _ _ _ _ _ _ _ W Ha X) as (L & C & _ & _).
  destruct X as [_ _ _ _ _ _ _ _ _ _ _ Hpost Hrec].
  destruct (lf_typed _ _ _ _ _ L) as (T1 & T2 & T3). pose proof (fw_ledger _ (cm_wf _ _ C)) as W0.
  destruct (post_trade_posted _ _ _ _ _ _ W0 T1 T2 T3 Hpost) as [_ _ _ X0 _ _].
  apply record_trade_Ok in Hrec as R. split_and!; [|apply R|destruct (rd_trades _ _ _ _ _ _ _ _ _ R) as [seq E]; by eexists|apply R].
  apply (recorded_receipt _ _ _ _ _ _ _ _ _ _ _ L) in R; [done|].
  cbn. eapply Forall_impl; [exact (tw_txns _ W)|]. cbn. intros t Ht <-. apply X0.
  by apply (quiet_txns _ _ _ _ (cm_quiet _ _ C)).
Qed.

Lemma executed_traced fresh fresh_lazy fresh_alloc db_now now cmd db db' r funds pool out fee legs txn led :
  db_wf db -> in_ty I64 (pt_amount_micro cmd) ->
  executed fresh fresh_lazy fresh_alloc db_now now cmd db db' r funds pool out fee legs txn led ->
  traced cmd txn r (default (fingerprint_of cmd) (td_fingerprints db !! pt_idempotency_key cmd)) db'.
Proof.
  intros W Ha X. destruct (executed_row _ _ _ _ _ _ _ _ _ _ _ _ _ _ _ _ W Ha X) as (Hr & _ & _ & Hf).
  split; [apply X|by eapply executed_key|done|]. rewrite Hf. unfold save_request_fingerprint.
  destruct (td_fingerprints db !! _) as [v|] eqn:E; [done|]. cbn. by rewrite lookup_insert_eq.
Qed.

(** What the traces answer to the same command. *)
Lemma traced_replays cmd txn r stored fresh fresh_lazy fresh_alloc db_now now db :
  traced cmd txn r stored db ->
  place_trade collate rep_config time_json fresh fresh_lazy fresh_alloc db_now now cmd db =
    (if bool_decide (stored = fingerprint_of cmd) then Ok (as_replay r) else Err App.IdempotencyConflict, db).
Proof.
  intros [[v Hv] Hk Hr Hf]. unfold place_trade. rewrite Hv. cbn [ok_or mbind outcome_bind]. rewrite Hk.
  unfold replay_trade. rewrite Hf. cbn [validate_replay_fingerprint]. unfold fingerprint_of. rewrite Hv.
  destruct (decide (stored = trade_fingerprint (pt_market cmd) (pt_user cmd) (pt_side cmd) (pt_action cmd)
    (pt_amount_micro cmd) (Some v))) as [->|Hne].
  - rewrite bool_decide_eq_false_2, bool_decide_eq_true_2 by naive_solver. cbn [mbind outcome_bind]. by rewrite Hr.
  - by rewrite bool_decide_eq_true_2, bool_decide_eq_false_2 by naive_solver.
Qed.

Lemma trade_by_ledger_txn_app b b' txn r extra :
  bk_outcomes b' = bk_outcomes b -> bk_trades b' = bk_trades b ++ extra ->
  trade_by_ledger_txn b txn = Ok (Some r) -> trade_by_ledger_txn b' txn = Ok (Some r).
Proof.
  intros Eo Et. unfold trade_by_ledger_txn. rewrite Eo, Et, find_app. by destruct (List.find _ (bk_trades b)).
Qed.

(** The traces outlast every later trade request. *)
Lemma traced_kept cmd txn r stored fresh fresh_lazy fresh_alloc db_now now other db :
  db_wf db -> in_ty I64 (pt_amount_micro other) -> traced cmd txn r stored db ->
  let db' := (place_trade collate rep_config time_json fresh fresh_lazy fresh_alloc db_now now other db).2 in
  db_wf db' /\ traced cmd txn r stored db'.
Proof.
  intros W Ha T. destruct (place_trade _ _ _ _ _ _ _ _ _ _) as [[a|e|] db'] eqn:E; cbn;
    [|by apply atomic_refused in E as ->..].
  apply place_trade_Ok in E as [(txn' & _ & -> & _)|(funds & pool & out & fee & legs & txn' & led & X)]; [done|].
  destruct (executed_moves _ _ _ _ _ _ _ _ _ _ _ _ _ _ _ _ W Ha X) as (_ & _ & _ & W' & _ & _ & [x Hx] & _).
  destruct (executed_row _ _ _ _ _ _ _ _ _ _ _ _ _ _ _ _ W Ha X) as (_ & Ho & [y Hy] & Hf). split; [done|].
  destruct T as [V K R S]. split; [done| |by eapply trade_by_ledger_txn_app|].
  - unfold txn_by_key in *. rewrite Hx. apply fmap_Some in K as (t & Ht & ->). by rewrite find_app, Ht.
  - rewrite Hf. unfold save_request_fingerprint. destruct (td_fingerprints db !! pt_idempotency_key other) eqn:E; [done|].
    cbn. rewrite lookup_insert_ne; [done|]. intros Heq. rewrite Heq in E. congruence.
Qed.

(** Any sequence of trade requests, accepted or refused. *)
Inductive trade_run : Db -> Db -> Prop :=
| trade_refl db : trade_run db db
| trade_next fresh fresh_lazy fresh_alloc db_now now cmd db db' :
    trade_run db db' -> in_ty I64 (pt_amount_micro cmd) ->
    trade_run db (place_trade collate rep_config time_json fresh fresh_lazy fresh_alloc db_now now cmd db').2.

Lemma traced_run cmd txn r stored db db' :
  db_wf db -> trade_run db db' -> traced cmd txn r stored db -> db_wf db' /\ traced cmd txn r stored db'.
Proof.
  intros W Hrun. induction Hrun as [db|fresh fl fa dn n other db db1 _ IH Ha]; [done|]. intros T.
  destruct (IH W T) as [W1 T1]. by apply traced_kept.
Qed.
End Execute.

(** ** Properties *)

(** the book stays balanced.  Starting from tables in which, for every
    market, the shares held on each side plus the pool's reserve of that side
    equal the market's escrowed cash, every sequence of trade requests (buys
    and sells of both sides, with the credit conversions, collections and
    refusals along the way) leaves them so: whichever side wins, the escrow
    holds exactly one dollar for each of its shares. *)
Theorem book_stays_balanced `{UuidText} `{HashMapOrder} (collate : string -> string -> bool)
    (rep_config : RepConfig) (time_json : Z -> Value) (db db' : Db) :
  rep_typed rep_config -> db_wf db -> (forall m, balanced db m) ->
  trade_run collate rep_config time_json db db' ->
  db_wf db' /\ forall m, balanced db' m.
Proof.
  intros Hrep W B Hrun. induction Hrun as [db|fresh fl fa dn n cmd db db1 Hrun IH Ha]; [done|].
  destruct (IH W B) as [W1 B1].
  destruct (place_trade _ _ _ _ _ _ _ _ _ _) as [[r|e|] db2] eqn:E; cbn.
  - apply place_trade_Ok in E as [(txn & _ & -> & _)|(funds & pool & out & fee & legs & txn & led & X)]; [done| |done].
    destruct (executed_moves _ _ _ _ _ _ _ _ _ _ _ _ _ _ _ _ _ _ W1 Ha X) as (_ & _ & (yes & no & M) & W2 & _).
    split; [done|]. intros m. eapply moved_book_balanced; [apply W1|exact M|done].
  - apply atomic_refused in E as ->; done.
  - apply atomic_refused in E as ->; done.
Qed.

Definition demo_trade : PlaceTradeCmd := mkPlaceTrade 10 7 Yes Buy 5000000 "t-1" None None (Some 1).

Definition demo_place (cmd : PlaceTradeCmd) (db : Db) : outcome AppError TradeReceipt * Db :=
  place_trade (H0 := canonical_order) str_le demo_rep JInt (fun n => N.of_nat (200 + n))
    (fun n => N.of_nat (300 + n)) (fun n => N.of_nat (400 + n)) 500 500 cmd db.

Lemma demo_rep_typed : rep_typed demo_rep.
Proof. split; [repeat constructor; apply (bool_decide_unpack _); vm_compute; exact I|]. apply (bool_decide_unpack _). vm_compute. exact I. Qed.

Lemma book_stays_balanced_witness :
  (forall m, balanced (demo_place demo_trade demo_market_db).2 m) /\
  bk_positions (td_book (demo_place demo_trade demo_market_db).2) <> ∅.
Proof.
  split.
  - refine (proj2 (book_stays_balanced (H0 := canonical_order) str_le demo_rep JInt demo_market_db _
      demo_rep_typed demo_market_wf demo_market_balanced _)).
    apply trade_next; [apply trade_refl|]. apply (bool_decide_unpack _). vm_compute. exact I.
  - vm_compute. discriminate.
Defined.

(** C26: a trade is idempotent in its key.  Take an accepted trade that was not
    itself a replay, and any further trade requests after it.  Re-issuing the
    same command then changes no table, so no cash moves twice.  The answer is
    the receipt of the first execution, marked as replayed, when the key had no
    fingerprint before the trade or that of the trade itself.  Otherwise the
    answer is the idempotency conflict: the table of fingerprints is shared with
    votes and keeps its first row, so an accepted trade under a key that a vote
    has used cannot be replayed. *)
Theorem trade_replays `{UuidText} `{HashMapOrder} (collate : string -> string -> bool)
    (rep_config : RepConfig) (time_json : Z -> Value) (fresh fresh_lazy fresh_alloc : nat -> N)
    (db_now now : Z) (cmd : PlaceTradeCmd) (db db' later : Db) (r : TradeReceipt) :
  rep_typed rep_config -> db_wf db -> in_ty I64 (pt_amount_micro cmd) ->
  place_trade collate rep_config time_json fresh fresh_lazy fresh_alloc db_now now cmd db = (Ok r, db') ->
  rt_replayed r = false -> trade_run collate rep_config time_json db' later ->
  forall fresh' fresh_lazy' fresh_alloc' db_now' now',
    place_trade collate rep_config time_json fresh' fresh_lazy' fresh_alloc' db_now' now' cmd later =
      (match td_fingerprints db !! pt_idempotency_key cmd with
       | None => Ok (as_replay r)
       | Some stored => if bool_decide (stored = fingerprint_of cmd) then Ok (as_replay r) else Err App.IdempotencyConflict
       end, later).
Proof.
  intros Hrep W Ha E Hr Hrun fresh' fl' fa' dn' n'. apply place_trade_Ok in E
    as [(txn & _ & _ & Hr')|(funds & pool & out & fee & legs & txn & led & X)]; [congruence| |done].
  destruct (executed_moves _ _ _ _ _ _ _ _ _ _ _ _ _ _ _ _ _ _ W Ha X) as (_ & _ & _ & W' & _).
  pose proof (executed_traced _ _ _ _ _ _ _ _ _ _ _ _ _ _ _ _ _ _ W Ha X) as T.
  eapply traced_run in T as [_ T']; [|done|done|exact Hrun].
  erewrite traced_replays by exact T'.
  by destruct (td_fingerprints db !! _); [|rewrite bool_decide_eq_true_2].
Qed.

Definition demo_traded : Db := (demo_place demo_trade demo_market_db).2.
Definition demo_receipt : TradeReceipt := mkReceipt 204 203 Yes Buy 9875618 5000000 50000 506297 false.

Lemma demo_place_ok : demo_place demo_trade demo_market_db = (Ok demo_receipt, demo_traded).
Proof. vm_compute. reflexivity. Qed.

(** A second trade after the first, and the tables in which a vote has used the key. *)
Definition demo_second : PlaceTradeCmd := mkPlaceTrade 10 7 No Buy 1000000 "t-2" None None (Some 1).
Definition demo_later : Db := (demo_place demo_second demo_traded).2.
Definition demo_vote_key_db : Db :=
  save_request_fingerprint "t-1" (vote_fingerprint 10%N 7%N Yes 60) demo_market_db.

Lemma demo_vote_key_wf : db_wf demo_vote_key_db.
Proof. destruct demo_market_wf. by split. Qed.

Lemma trade_replays_witness :
  demo_place demo_trade demo_later = (Ok (as_replay demo_receipt), demo_later) /\
  (demo_place demo_trade (demo_place demo_trade demo_vote_key_db).2).1 = Err App.IdempotencyConflict.
Proof.
  assert (Ha : in_ty I64 (pt_amount_micro demo_trade)) by (apply (bool_decide_unpack _); vm_compute; exact I).
  split.
  - pose proof demo_place_ok as E. unfold demo_place in E.
    refine (trade_replays (H0 := canonical_order) str_le demo_rep JInt _ _ _ _ _ demo_trade demo_market_db demo_traded demo_later
      demo_receipt demo_rep_typed demo_market_wf Ha E eq_refl _ _ _ _ _ _).
    apply (trade_next (H0 := canonical_order)); [apply trade_refl|apply (bool_decide_unpack _); vm_compute; exact I].
  - assert (E : demo_place demo_trade demo_vote_key_db = (Ok demo_receipt, (demo_place demo_trade demo_vote_key_db).2)).
    { assert (Hr : (demo_place demo_trade demo_vote_key_db).1 = Ok demo_receipt) by (vm_compute; reflexivity).
      destruct (demo_place demo_trade demo_vote_key_db). cbn in *. by rewrite Hr. }
    unfold demo_place in E.
    pose proof (trade_replays (H0 := canonical_order) str_le demo_rep JInt _ _ _ _ _ demo_trade demo_vote_key_db _ _
      demo_receipt demo_rep_typed demo_vote_key_wf Ha E eq_refl (trade_refl _ _ _ _)) as Hr.
    unfold demo_place. rewrite Hr. vm_compute. reflexivity.
Defined.

(** every accepted trade was permitted: the money gate's conditions hold
    of the trader, the market was live and its tally not yet hidden, the
    trader has voted on it, no pause was in force under the fences, and a buy
    keeps the trader's cost in the market within the cap of their tier. *)
Theorem accepted_trade_was_permitted `{UuidText} `{HashMapOrder} (collate : string -> string -> bool)
    (rep_config : RepConfig) (time_json : Z -> Value) (fresh fresh_lazy fresh_alloc : nat -> N)
    (db_now now : Z) (cmd : PlaceTradeCmd) (db db' : Db) (r : TradeReceipt) :
  rep_typed rep_config ->
  place_trade collate rep_config time_json fresh fresh_lazy fresh_alloc db_now now cmd db = (Ok r, db') ->
  rt_replayed r = false ->
  trade_permitted (td_comp db) (db_entries (td_ops db)) (pt_user cmd) (pt_amount_micro cmd) now /\
  (exists m, market_for_update (td_book db) (pt_market cmd) = Ok m /\ mk_state m = Live /\
     now < mk_tally_hidden_at m) /\
  user_voted (td_book db) (pt_user cmd) (pt_market cmd) = true /\
  Forall (fun key => pause_in_force (fence_config_value key (td_ops db)) = false)
    ["trading_paused"; "market_paused:" +:+ uuid_text (pt_market cmd);
     "voting_paused:" +:+ uuid_text (pt_market cmd)] /\
  (pt_action cmd = Buy -> exists rep cost cap,
     user_rep (td_book db) (pt_user cmd) = Ok rep /\
     market_position_cost (td_book db) (pt_user cmd) (pt_market cmd) = Ok cost /\
     position_cap_micro_by_tier rep_config !! Z.to_nat (Z.min rep.2 4) = Some cap /\
     cost + pt_amount_micro cmd <= cap).
Proof.
  intros Hrep E Hr. apply place_trade_Ok in E
    as [(txn & _ & _ & Hr')|(funds & pool & out & fee & legs & txn & led & X)]; [congruence| |done].
  destruct X as [_ _ _ Hgate (m & Hm & Hopen & _) Hv _ _ (rep & Hrep' & Hcap) Hp _ _ _].
  split_and!.
  - by eapply trade_gate_iff.
  - exists m. split; [done|]. unfold market_open in Hopen. destruct (mk_state m); try done.
    destruct (now >=? mk_tally_hidden_at m) eqn:G in Hopen; [done|]. rewrite Z.geb_leb in G. apply Z.leb_gt in G. done.
  - done.
  - unfold check_pauses in Hp. destruct (_ || _) eqn:P1 in Hp; [done|].
    apply orb_false_iff in P1 as [P1 P2]. destruct (pause_in_force _) eqn:P3 in Hp; [done|].
    by repeat constructor.
  - intros Hbuy. unfold check_cap in Hcap. rewrite Hbuy in Hcap.
    apply bind_Ok in Hcap as (cost & Hc%store_Ok & Hcap).
    destruct (_ !! _) as [cap|] eqn:El in Hcap; [|done].
    apply bind_Ok in Hcap as (pr & [-> _]%ok_or_Ok%checked_Some & Hcap).
    destruct (_ >? _) eqn:G in Hcap; [done|]. exists rep, cost, cap. split_and!; try done.
    rewrite Z.gtb_ltb in G. apply Z.ltb_ge in G. lia.
Qed.

Lemma accepted_trade_was_permitted_witness : user_voted (td_book demo_market_db) 7 10 = true.
Proof.
  pose proof demo_place_ok as E. unfold demo_place in E.
  destruct (accepted_trade_was_permitted (H0 := canonical_order) str_le demo_rep JInt (fun n => N.of_nat (200 + n))
    (fun n => N.of_nat (300 + n)) (fun n => N.of_nat (400 + n)) 500 500 demo_trade demo_market_db demo_traded
    demo_receipt demo_rep_typed E eq_refl) as (_ & _ & Hv & _).
  exact Hv.
Defined.
