(* ===== verification/Referrals.v ===== *)
(** * Referrals: codes, binds and the paid-market grant

    [application/src/money/referrals.rs] and the grant command of
    [application/src/money/credits.rs] over the referral and credit queries of
    [pg/credit_tx.rs] and the hooks of [pg/resolve_tx.rs]: issuing a code,
    binding a referee to a referrer, and minting the two credit lots of a bind
    once the referee's first paid market qualifies, both as a command of its
    own and inside the transaction that pays a market; and [GrantCredit], the
    grant of one lot by command with its daily cap and reserve check.  The headline theorem is
    the solvency of the bonus reserve: real-money credit is granted only while
    the reserve covers every unconverted promise, and conversions keep it so. *)

From S2P Require Import Prelude Amm Ledger Market Resolution Economy Integrity Chars Errors Credits PgLedger Json Config Fences ConfigStore Compliance Collect Postings Book.
#[local] Open Scope string_scope.
#[local] Open Scope list_scope.
#[local] Open Scope Z_scope.

(** ** Queries, [pg/credit_tx.rs] *)

Definition referral_code_for_user (rf : ReferralDb) (user : N) : option string :=
  snd <$> List.find (fun uc => (uc.1 =? user)%N) (rf_codes rf).

Definition referral_code_owner (rf : ReferralDb) (code : string) : option N :=
  fst <$> List.find (fun uc => bool_decide (uc.2 = code)) (rf_codes rf).

Definition insert_referral_code (user : N) (code : string) (rf : ReferralDb) : outcome StoreError ReferralDb :=
  if existsb (fun uc => (uc.1 =? user)%N || bool_decide (uc.2 = code)) (rf_codes rf)
  then Err (Store.Conflict "referral code")
  else Ok (mkReferralDb (rf_codes rf ++ [(user, code)]) (rf_binds rf) (rf_phones rf) (rf_lot_keys rf)).

(** The unique keys of [referral_binds]: the id, the referee and the bind key. *)
Definition insert_referral_bind (fresh referrer referee : N) (key : string) (rf : ReferralDb) :
    outcome StoreError (N * ReferralDb) :=
  if existsb (fun b => (rb_id b =? fresh)%N || (rb_referee b =? referee)%N || bool_decide (rb_key b = key))
       (rf_binds rf)
  then Err (Store.Conflict "referral bind") else
  if (referrer =? referee)%N then Err (Store.Integrity "referral_binds_check") else
  Ok (fresh, mkReferralDb (rf_codes rf) (rf_binds rf ++ [mkBind fresh referrer referee key]) (rf_phones rf)
               (rf_lot_keys rf)).

Definition referral_bind_by_key (rf : ReferralDb) (key : string) : option N :=
  rb_id <$> List.find (fun b => bool_decide (rb_key b = key)) (rf_binds rf).

Definition referral_bind_parties (rf : ReferralDb) (bind : N) : option (N * N * string) :=
  (fun b => (rb_referrer b, rb_referee b, rb_key b)) <$> List.find (fun b => (rb_id b =? bind)%N) (rf_binds rf).

Definition referral_bind_for_referee (rf : ReferralDb) (referee : N) : option N :=
  rb_id <$> List.find (fun b => (rb_referee b =? referee)%N) (rf_binds rf).

Definition phone_verified (rf : ReferralDb) (user : N) : bool := bool_decide (user ∈ rf_phones rf).

(** Absent or not a boolean means off. *)
Definition config_flag (entries : gmap string Value) (key : string) : bool :=
  default false (entries !! key ≫= as_bool_opt).

Definition config_text (entries : gmap string Value) (key : string) : option string :=
  entries !! key ≫= as_str_opt.

(** [select distinct]. *)
Fixpoint distinct_ids (l : list N) : list N :=
  match l with
  | [] => []
  | x :: l => if bool_decide (x ∈ l) then distinct_ids l else x :: distinct_ids l
  end.

Record ReferralPaidMarket := mkPaidMarket { pm_market : N; pm_notional : Z }.

(** [order by settled_at nulls last, market_id]. *)
Definition settled_le (b : Book) (m m' : N) : bool :=
  match bk_markets b !! m ≫= ma_settled_at, bk_markets b !! m' ≫= ma_settled_at with
  | Some t, Some t' => (t <? t') || ((t =? t') && (m <=? m')%N)
  | Some _, None => true
  | None, Some _ => false
  | None, None => (m <=? m')%N
  end.

Definition first_paid_market_for_user (b : Book) (user : N) : outcome StoreError (option ReferralPaidMarket) :=
  let paid m := bool_decide ((ma_status <$> bk_markets b !! m) = Some "paid") in
  let mine := List.filter (fun t => (tr_user t =? user)%N && paid (tr_market t)) (bk_trades b) in
  match sort_by (settled_le b) (distinct_ids (map tr_market mine)) with
  | [] => Ok None
  | m :: _ =>
      notional ← bigint (zsum (map tr_collateral (List.filter (fun t => (tr_market t =? m)%N) mine)));
      Ok (Some (mkPaidMarket m notional))
  end.

Definition referral_referees_for_paid_market (b : Book) (rf : ReferralDb) (market : N) : list N :=
  sort_by N.leb (distinct_ids (map rb_referee
    (List.filter (fun x => existsb (fun t => (tr_user t =? rb_referee x)%N && (tr_market t =? market)%N)
                             (bk_trades b)) (rf_binds rf)))).

(** The insert under its primary key and the check on the amount. *)
Definition insert_credit_lot (lot : CreditLotRow) (c : CreditDb) : outcome StoreError CreditDb :=
  if lot_amount lot <=? 0 then Err (Store.Integrity "credit_grant_lots_amount_micro_check") else
  if bool_decide (is_Some (db_lots c !! lot_row_id lot)) then Err (Store.Integrity "credit_grant_lots_pkey") else
  Ok {| db_trades := db_trades c; db_lots := <[lot_row_id lot := lot]> (db_lots c); db_facts := db_facts c |}.

Definition lot_by_idempotency (c : CreditDb) (rf : ReferralDb) (key : string) : option CreditLotRow :=
  rf_lot_keys rf !! key ≫= (db_lots c !!.).

(** Sets the key of a lot that has none. *)
Definition remember_lot_idempotency (key : string) (lot : N) (c : CreditDb) (rf : ReferralDb) :
    outcome StoreError ReferralDb :=
  if bool_decide (is_Some (db_lots c !! lot)) &&
     negb (existsb (fun kl => (kl.2 =? lot)%N) (map_to_list (rf_lot_keys rf)))
  then
    if bool_decide (is_Some (rf_lot_keys rf !! key)) then Err (Store.Conflict "credit lot idempotency")
    else Ok (mkReferralDb (rf_codes rf) (rf_binds rf) (rf_phones rf) (<[key := lot]> (rf_lot_keys rf)))
  else Err (Store.Invariant "credit lot idempotency mapping missing").

(** The reserve's balance; its account is opened on the way. *)
Definition bonus_reserve_balance (fresh : N) (led : PgLedger) : outcome StoreError (PgLedger * Z) :=
  '(led, _) ← account fresh led Ref.BonusReserve Usdc;
  total ← bigint (zsum (map (fun a => entry_sum led (acct_id a))
    (List.filter (fun a => bool_decide (acct_type a = BonusReserve) && bool_decide (acct_currency a = Usdc))
       (pg_accounts led))));
  Ok (led, total).

Definition lots_sum (P : CreditLotRow -> bool) (c : CreditDb) : Z :=
  msum (fun _ lot => if P lot then lot_amount lot else 0) (db_lots c).

(** Real money promised by lots that were not converted. *)
Definition is_promise (lot : CreditLotRow) : bool :=
  bool_decide (grant_class lot = RealMoney) && bool_decide (converted_at lot = None).

Definition remaining_promise (c : CreditDb) : outcome StoreError Z := bigint (lots_sum is_promise c).

Definition bonus_minted_since (since : Z) (c : CreditDb) : outcome StoreError Z :=
  bigint (lots_sum (fun lot => since <=? granted_at lot) c).

(** ** Helpers of [referrals.rs] *)

Definition reconcile_bind_indexes (by_key by_referee : option N) : outcome StoreError (option N) :=
  match by_key, by_referee with
  | Some a, Some b => if (a =? b)%N then Ok (Some a) else Err (Store.Invariant "referral bind indexes disagree")
  | Some a, None => Ok (Some a)
  | None, b => Ok b
  end.

Definition require_bind_parties (parties : option (N * N * string)) : outcome StoreError (N * N * string) :=
  ok_or parties (Store.Invariant "referral bind index points to no row").

Definition referral_pair_matches (referrer referee expected_referrer expected_referee : N) : bool :=
  (referrer =? expected_referrer)%N && (referee =? expected_referee)%N && negb (referrer =? referee)%N.

Definition reject_reciprocal_bind (reverse_referrer reverse_referee referrer referee : N) :
    outcome AppError unit :=
  if (reverse_referrer =? referee)%N && (reverse_referee =? referrer)%N then Err App.ReferralIneligible
  else Ok tt.

Definition validated_referral_lots (referrer_lot referee_lot : option CreditLotRow) (referrer referee : N) :
    outcome StoreError (CreditLotRow * CreditLotRow) :=
  a ← ok_or referrer_lot (Store.Invariant "referral grant transaction has no referrer lot");
  b ← ok_or referee_lot (Store.Invariant "referral grant transaction has no referee lot");
  if negb (lot_user a =? referrer)%N || negb (lot_user b =? referee)%N
  then Err (Store.Invariant "referral grant lots name the wrong users") else Ok (a, b).

Record ReferralGrantPolicy := mkPolicy {
  rp_minimum_notional : Z; rp_referrer_amount : Z; rp_referee_amount : Z; rp_grant_class : GrantClass;
  rp_mint_cap : Z }.

Definition required_referral_policy (entries : gmap string Value) : outcome StoreError ReferralGrantPolicy :=
  minimum ← required_i64 entries "referral_min_notional_micro";
  referrer ← required_i64 entries "credit_referral_referrer_micro";
  referee ← required_i64 entries "credit_referral_referee_micro";
  class ← (match config_text entries "bonus_structure" with
           | Some text =>
               if bool_decide (text = "real_money") then Ok RealMoney
               else if bool_decide (text = "sweeps") then Ok Sweeps
               else Err (Store.Invariant "invalid persisted bonus structure")
           | None => Err (Store.Invariant "required money config missing or malformed")
           end);
  cap ← required_i64 entries "bonus_mint_daily_cap_micro";
  Ok (mkPolicy minimum referrer referee class cap).

Definition referral_operation_error (e : AppError) : StoreError :=
  match e with
  | App.Store e => e
  | _ => Store.Invariant "referral grant money operation failed"
  end.

(** [sort_unstable_by_key] of the pair. *)
Definition sorted_pair (a b : N) : list N := if (a <=? b)%N then [a; b] else [b; a].

(** ** The use cases *)

Record IssueReferralCodeCmd := mkIssueCode { ic_user : N; ic_key : string }.

Record ReferralCodeReceipt := mkCodeReceipt { cr_code : string; cr_replayed : bool }.

Record BindReferralCmd := mkBindReferral {
  br_referrer : N; br_referee : N; br_bind_key : string; br_key : string }.

Record BindReferralCodeCmd := mkBindReferralCode {
  bc_code : string; bc_referee : N; bc_bind_key : string; bc_key : string }.

Record BindReceipt := mkBindReceipt { bd_bind_id : N; bd_replayed : bool }.

Record GrantReferralCmd := mkGrantReferral { gr_referee : N; gr_paid_market : N; gr_granted_at : Z }.

Record GrantReferralReceipt := mkGrantReceipt {
  gt_bind_id : N; gt_txn : N; gt_referrer_lot : option N; gt_referee_lot : option N; gt_replayed : bool }.

Record GrantCreditCmd := mkGrantCredit {
  gc_user : N; gc_amount : Z; gc_source : string; gc_grant_class : GrantClass; gc_policy_version : string;
  gc_key : string; gc_granted_at : Z }.

Record GrantReceipt := mkGrantedReceipt { gi_lot : N; gi_txn : N; gi_replayed : bool }.

Section Referrals.
Context `{UuidText} `{HashMapOrder}.
(** [Uuid::simple]. *)
Context (uuid_simple : N -> string).

(** [IssueReferralCode::execute]; [fresh] is the identifier the code is made of. *)
Definition issue_referral_code (fresh : N) (cmd : IssueReferralCodeCmd) (db : Db) :
    outcome AppError ReferralCodeReceipt * Db :=
  atomic db (
    match referral_code_for_user (td_referrals db) (ic_user cmd) with
    | Some code => Ok (mkCodeReceipt code true, db)
    | None =>
        let code := "OP-" +:+ uuid_simple fresh in
        rf ← store (insert_referral_code (ic_user cmd) code (td_referrals db));
        let db := set_referrals rf db in
        Ok (mkCodeReceipt code false,
            set_ops (outbox_append (mkEvent "ReferralCodeIssued" "user" (ic_user cmd)
                       (JObject [("code", JString code)])) (td_ops db)) db)
    end).

(** The bind that either index names must be the requested one. *)
Definition existing_bind (cmd : BindReferralCmd) (rf : ReferralDb) (id : N) : outcome AppError BindReceipt :=
  '(referrer, referee, key) ← store (require_bind_parties (referral_bind_parties rf id));
  if (referrer =? br_referrer cmd)%N && (referee =? br_referee cmd)%N && bool_decide (key = br_bind_key cmd)
  then Ok (mkBindReceipt id true) else Err App.ReferralIneligible.

(** [BindReferral::execute]; [fresh] is the id of the bind. *)
Definition bind_referral (fresh : N) (cmd : BindReferralCmd) (db : Db) : outcome AppError BindReceipt * Db :=
  atomic db (
    if (br_referrer cmd =? br_referee cmd)%N then Err App.ReferralIneligible else
    let rf := td_referrals db in
    existing ← store (reconcile_bind_indexes (referral_bind_by_key rf (br_bind_key cmd))
                        (referral_bind_for_referee rf (br_referee cmd)));
    match existing with
    | Some id => r ← existing_bind cmd rf id; Ok (r, db)
    | None =>
        _ ← (match referral_bind_for_referee rf (br_referrer cmd) with
             | Some reverse =>
                 '(r1, r2, _) ← store (require_bind_parties (referral_bind_parties rf reverse));
                 reject_reciprocal_bind r1 r2 (br_referrer cmd) (br_referee cmd)
             | None => Ok tt
             end);
        if negb (phone_verified rf (br_referee cmd)) then Err App.ReferralIneligible else
        '(id, rf) ← store (insert_referral_bind fresh (br_referrer cmd) (br_referee cmd) (br_bind_key cmd) rf);
        let db := set_referrals rf db in
        Ok (mkBindReceipt id false,
            set_ops (outbox_append (mkEvent "ReferralBound" "user" (br_referee cmd)
                       (JObject [ ("bind_key", JString (br_bind_key cmd))
                                ; ("referrer", JString (uuid_text (br_referrer cmd))) ])) (td_ops db)) db)
    end).

(** [BindReferralCode::execute]. *)
Definition bind_referral_code (fresh : N) (cmd : BindReferralCodeCmd) (db : Db) :
    outcome AppError BindReceipt * Db :=
  match referral_code_owner (td_referrals db) (bc_code cmd) with
  | None => (Err App.ReferralIneligible, db)
  | Some referrer =>
      bind_referral fresh (mkBindReferral referrer (bc_referee cmd) (bc_bind_key cmd) (bc_key cmd)) db
  end.

(** The checks of the mint cap and of the reserve, which both grants make. *)
Inductive CapVerdict :=
| WithinCaps | OverMintCap | OverReserve (reserve promised : Z) | CapOverflow (what : string).

Definition grant_caps (fresh : N) (policy : ReferralGrantPolicy) (granted_at total : Z) (f : Funds) :
    outcome StoreError (CapVerdict * Funds) :=
  '(led, reserve) ← bonus_reserve_balance fresh (fu_ledger f);
  let f := set_ledger led f in
  minted ← bonus_minted_since (granted_at - 86400) (fu_credits f);
  match checked I64 (minted + total) with
  | None => Ok (CapOverflow "referral mint total overflow", f)
  | Some next_minted =>
      if (rp_mint_cap policy =? 0) || (next_minted >? rp_mint_cap policy) then Ok (OverMintCap, f) else
      match rp_grant_class policy with
      | Sweeps => Ok (WithinCaps, f)
      | RealMoney =>
          promised ← remaining_promise (fu_credits f);
          match checked I64 (promised + total) with
          | None => Ok (CapOverflow "referral promise total overflow", f)
          | Some next_promised =>
              Ok (if reserve <? next_promised then OverReserve reserve next_promised else WithinCaps, f)
          end
      end
  end.

Definition grant_key (bind : N) : string := "referral-grant:" +:+ uuid_text bind.
Definition referrer_lot_key (bind : N) : string := grant_key bind +:+ ":referrer".
Definition referee_lot_key (bind : N) : string := grant_key bind +:+ ":referee".
(** The announcement of one leg. *)
Definition credit_granted_event (bind user lot : N) (amount : Z) (leg : string) (class : GrantClass)
    (paid_market : N) : Event :=
  mkEvent "CreditGranted" "user" user
    (JObject [ ("amount_micro", JInt amount)
             ; ("grant_class", JString (grant_class_str class))
             ; ("lot_id", JString (uuid_text lot))
             ; ("paid_market", JString (uuid_text paid_market))
             ; ("source", JString ("referral:" +:+ uuid_text bind +:+ ":" +:+ leg)) ]).

Definition referral_lot (id user bind : N) (leg : string) (amount granted_at : Z) (class : GrantClass)
    (paid_market : N) : CreditLotRow :=
  {| lot_row_id := id; lot_user := user; lot_source := "referral:" +:+ uuid_text bind +:+ ":" +:+ leg;
     lot_amount := amount; granted_at := granted_at; grant_class := class;
     policy_version := "referral-paid:" +:+ uuid_text paid_market; converted_at := None |}.

(** The writes of a grant: one ledger transaction, two lots with their keys and
    two events; six identifiers are drawn. *)
Definition mint_pair (fresh : nat -> N) (bind referrer referee : N) (policy : ReferralGrantPolicy)
    (total granted_at : Z) (paid_market : N) (db : Db) : outcome StoreError (N * N * N * Db) :=
  let a := rp_referrer_amount policy in
  let b := rp_referee_amount policy in
  let class := rp_grant_class policy in
  let f := td_funds db in
  '(led, house) ← account (fresh 0%nat) (fu_ledger f) Ref.House UsdcCredit;
  '(led, referrer_account) ← account (fresh 1%nat) led (Ref.User referrer) UsdcCredit;
  '(led, referee_account) ← account (fresh 2%nat) led (Ref.User referee) UsdcCredit;
  neg ← arith I64 (- total);
  '(led, txn) ← ledger_apply (fresh 3%nat) led Ledger.CreditGrant (grant_key bind)
     [{| e_account := house; e_amount := neg |};
      {| e_account := referrer_account; e_amount := a |};
      {| e_account := referee_account; e_amount := b |}];
  c ← insert_credit_lot (referral_lot (fresh 4%nat) referrer bind "referrer" a granted_at class paid_market)
        (fu_credits f);
  rf ← remember_lot_idempotency (referrer_lot_key bind) (fresh 4%nat) c (td_referrals db);
  c ← insert_credit_lot (referral_lot (fresh 5%nat) referee bind "referee" b granted_at class paid_market) c;
  rf ← remember_lot_idempotency (referee_lot_key bind) (fresh 5%nat) c rf;
  let ops := outbox_append (credit_granted_event bind referrer (fresh 4%nat) a "referrer" class paid_market)
               (td_ops db) in
  let ops := outbox_append (credit_granted_event bind referee (fresh 5%nat) b "referee" class paid_market) ops in
  Ok (txn, fresh 4%nat, fresh 5%nat,
      set_ops ops (set_referrals rf (set_funds (set_credits c (set_ledger led f)) db))).

(** The gate and the lazy money work of one party inside a paid market's
    transaction; [false] when the gate refuses. *)
Definition prepare_party (fresh : nat -> N) (db_now granted_at : Z) (bind user : N) (db : Db) :
    outcome StoreError (bool * Db) :=
  match enforce_money_mutation (td_comp db) (db_entries (td_ops db)) db_now user CreditGrant 0 granted_at with
  | Ok _ =>
      '(_, f) ← map_err referral_operation_error
         (convert_then_collect fresh user granted_at
            ("referral-grant-lock:" +:+ uuid_text bind +:+ ":" +:+ uuid_text user) (td_funds db));
      Ok (true, set_funds f db)
  | Err (App.Store e) => Err e
  | Err _ => Ok (false, db)
  | Panic => Panic
  end.

Fixpoint prepare_parties (fresh : nat -> nat -> N) (i : nat) (db_now granted_at : Z) (bind : N)
    (users : list N) (db : Db) : outcome StoreError (bool * Db) :=
  match users with
  | [] => Ok (true, db)
  | user :: users =>
      '(ok, db) ← prepare_party (fresh i) db_now granted_at bind user db;
      if ok : bool then prepare_parties fresh (S i) db_now granted_at bind users db else Ok (false, db)
  end.

(** The part of the grant after the parties were prepared. *)
Definition grant_prepared (fresh : nat -> N) (policy : ReferralGrantPolicy) (bind referrer referee : N)
    (granted_at : Z) (paid_market : N) (db : Db) : outcome StoreError (bool * Db) :=
  paid ← first_paid_market_for_user (td_book db) referee;
  match paid with
  | None => Ok (false, db)
  | Some paid =>
      if negb (pm_market paid =? paid_market)%N || (pm_notional paid <? rp_minimum_notional policy)
      then Ok (false, db) else
      if (rp_referrer_amount policy <=? 0) || (rp_referee_amount policy <=? 0) then Ok (false, db) else
      total ← ok_or (checked I64 (rp_referrer_amount policy + rp_referee_amount policy))
                (Store.Invariant "referral grant total overflow");
      '(verdict, f) ← grant_caps (fresh 0%nat) policy granted_at total (td_funds db);
      let db := set_funds f db in
      match verdict with
      | CapOverflow what => Err (Store.Invariant what)
      | OverMintCap | OverReserve _ _ => Ok (false, db)
      | WithinCaps =>
          '(_, db) ← mint_pair (fun n => fresh (S n)) bind referrer referee policy total granted_at paid_market db;
          Ok (true, db)
      end
  end.

(** [grant_referral_on_paid_in_tx]; [fresh 0] and [fresh 1] supply the lazy
    work of the two parties, [fresh 2] the grant. *)
Definition grant_referral_on_paid_in_tx (fresh : nat -> nat -> N) (db_now granted_at : Z) (referee paid_market : N)
    (db : Db) : outcome StoreError (bool * Db) :=
  let rf := td_referrals db in
  match referral_bind_for_referee rf referee with
  | None => Ok (false, db)
  | Some bind =>
      '(referrer, bound_referee, _) ← require_bind_parties (referral_bind_parties rf bind);
      if negb (referral_pair_matches referrer bound_referee referrer referee) then Ok (false, db) else
      match txn_by_key (fu_ledger (td_funds db)) (grant_key bind) with
      | Some _ =>
          _ ← validated_referral_lots
                (lot_by_idempotency (fu_credits (td_funds db)) rf (referrer_lot_key bind))
                (lot_by_idempotency (fu_credits (td_funds db)) rf (referee_lot_key bind)) referrer referee;
          Ok (false, db)
      | None =>
          if negb (config_flag (db_entries (td_ops db)) "feature_referrals") || negb (phone_verified rf referee)
          then Ok (false, db) else
          policy ← required_referral_policy (db_entries (td_ops db));
          '(ok, db) ← prepare_parties fresh 0 db_now granted_at bind (sorted_pair referrer referee) db;
          if ok : bool then grant_prepared (fresh 2%nat) policy bind referrer referee granted_at paid_market db
          else Ok (false, db)
      end
  end.

(** [grant_referrals_on_paid] of [pg/resolve_tx.rs]. *)
Fixpoint grant_loop (fresh : nat -> nat -> nat -> N) (i : nat) (db_now granted_at : Z) (market : N)
    (referees : list N) (granted : Z) (db : Db) : outcome StoreError (Z * Db) :=
  match referees with
  | [] => Ok (granted, db)
  | referee :: referees =>
      '(ok, db) ← grant_referral_on_paid_in_tx (fresh i) db_now granted_at referee market db;
      granted ← (if ok : bool then ok_or (checked U32 (granted + 1)) (Store.Invariant "referral grant count overflow")
                 else Ok granted);
      grant_loop fresh (S i) db_now granted_at market referees granted db
  end.

Definition grant_referrals_on_paid (fresh : nat -> nat -> nat -> N) (db_now : Z) (market : N) (db : Db) :
    outcome StoreError (Z * Db) :=
  r ← ok_or (bk_markets (td_book db) !! market) (Store.NotFound "market");
  grant_loop fresh 0 db_now (default db_now (ma_settled_at r)) market
    (referral_referees_for_paid_market (td_book db) (td_referrals db) market) 0 db.

(** [referral_relevant_users]. *)
Definition referral_relevant_users (market : N) (db : Db) : outcome StoreError (list N) :=
  users ← foldM (fun users referee =>
      match referral_bind_for_referee (td_referrals db) referee with
      | None => Ok users
      | Some bind =>
          '(referrer, bound_referee, _) ← require_bind_parties (referral_bind_parties (td_referrals db) bind);
          if negb (bound_referee =? referee)%N || (referrer =? referee)%N then Ok users
          else Ok (users ++ [referrer; referee])
      end) [] (referral_referees_for_paid_market (td_book db) (td_referrals db) market);
  Ok (sort_by N.leb (distinct_ids users)).

(** The gate over both users, then the lazy work: the order of the command. *)
Fixpoint convert_parties (fresh : nat -> nat -> N) (i : nat) (granted_at : Z) (bind : N) (users : list N) (db : Db) :
    outcome AppError Db :=
  match users with
  | [] => Ok db
  | user :: users =>
      '(_, f) ← convert_then_collect (fresh i) user granted_at
                  ("referral-grant-lock:" +:+ uuid_text bind +:+ ":" +:+ uuid_text user) (td_funds db);
      convert_parties fresh (S i) granted_at bind users (set_funds f db)
  end.

(** [GrantReferral::execute]. *)
Definition grant_referral (fresh : nat -> nat -> N) (db_now : Z) (cmd : GrantReferralCmd) (db : Db) :
    outcome AppError GrantReferralReceipt * Db :=
  atomic db (
    let rf := td_referrals db in
    bind ← ok_or (referral_bind_for_referee rf (gr_referee cmd)) App.ReferralIneligible;
    '(referrer, referee, _) ← store (require_bind_parties (referral_bind_parties rf bind));
    if negb (referral_pair_matches referrer referee referrer (gr_referee cmd)) then Err App.ReferralIneligible else
    match txn_by_key (fu_ledger (td_funds db)) (grant_key bind) with
    | Some txn =>
        '(a, b) ← store (validated_referral_lots
           (lot_by_idempotency (fu_credits (td_funds db)) rf (referrer_lot_key bind))
           (lot_by_idempotency (fu_credits (td_funds db)) rf (referee_lot_key bind)) referrer referee);
        Ok (mkGrantReceipt bind txn (Some (lot_row_id a)) (Some (lot_row_id b)) true, db)
    | None =>
        if negb (config_flag (db_entries (td_ops db)) "feature_referrals") || negb (phone_verified rf referee)
        then Err App.ReferralIneligible else
        policy ← store (required_referral_policy (db_entries (td_ops db)));
        db ← convert_parties fresh 0 (gr_granted_at cmd) bind (sorted_pair referrer referee) db;
        _ ← foldM (fun _ user => enforce_money_mutation (td_comp db) (db_entries (td_ops db)) db_now user
                     CreditGrant 0 (gr_granted_at cmd)) tt (sorted_pair referrer referee);
        found ← store (first_paid_market_for_user (td_book db) referee);
        paid ← ok_or found App.ReferralIneligible;
        if negb (pm_market paid =? gr_paid_market cmd)%N || (pm_notional paid <? rp_minimum_notional policy)
        then Err App.ReferralIneligible else
        if (rp_referrer_amount policy <=? 0) || (rp_referee_amount policy <=? 0)
        then Err App.ReferralIneligible else
        total ← ok_or (checked I64 (rp_referrer_amount policy + rp_referee_amount policy)) App.Overflow;
        '(verdict, f) ← store (grant_caps (fresh 2%nat 0%nat) policy (gr_granted_at cmd) total (td_funds db));
        let db := set_funds f db in
        match verdict with
        | CapOverflow _ => Err App.Overflow
        | OverMintCap => Err (App.MoneyForbidden "bonus mint cap")
        | OverReserve reserve promised => Err (App.InsufficientBonusReserve reserve promised)
        | WithinCaps =>
            '(txn, a, b, db) ← store (mint_pair (fun n => fresh 2%nat (S n)) bind referrer referee policy total
                                        (gr_granted_at cmd) (gr_paid_market cmd) db);
            Ok (mkGrantReceipt bind txn (Some a) (Some b) false, db)
        end
    end).

(** ** Grants by command, [application/src/money/credits.rs] *)

(** The fields a replayed grant must repeat. *)
Definition same_grant (cmd : GrantCreditCmd) (lot : CreditLotRow) : bool :=
  (lot_user lot =? gc_user cmd)%N && (lot_amount lot =? gc_amount cmd) && bool_decide (lot_source lot = gc_source cmd) &&
  bool_decide (grant_class lot = gc_grant_class cmd) && bool_decide (policy_version lot = gc_policy_version cmd) &&
  (granted_at lot =? gc_granted_at cmd).

(** The daily mint cap, then, for real money, the reserve. *)
Definition check_grant_caps (entries : gmap string Value) (reserve : Z) (cmd : GrantCreditCmd) (c : CreditDb) :
    outcome AppError unit :=
  mint_cap ← store (required_i64 entries "bonus_mint_daily_cap_micro");
  minted ← store (bonus_minted_since (gc_granted_at cmd - 86400) c);
  next_minted ← ok_or (checked I64 (minted + gc_amount cmd)) App.Overflow;
  if (mint_cap =? 0) || (next_minted >? mint_cap) then Err (App.MoneyForbidden "bonus mint cap") else
  match gc_grant_class cmd with
  | Sweeps => Ok tt
  | RealMoney =>
      promised ← store (remaining_promise c);
      next ← ok_or (checked I64 (promised + gc_amount cmd)) App.Overflow;
      if reserve <? next then Err (App.InsufficientBonusReserve reserve next) else Ok tt
  end.

(** The writes of a grant: the ledger transaction, the lot with its key, the event. *)
Definition mint_credit (fresh : nat -> N) (cmd : GrantCreditCmd) (db : Db) : outcome AppError (GrantReceipt * Db) :=
  let f := td_funds db in
  '(led, house) ← store (account (fresh 0%nat) (fu_ledger f) Ref.House UsdcCredit);
  '(led, user) ← store (account (fresh 1%nat) led (Ref.User (gc_user cmd)) UsdcCredit);
  neg ← arith I64 (- gc_amount cmd);
  '(led, txn) ← store (ledger_apply (fresh 2%nat) led Ledger.CreditGrant (gc_key cmd)
     [{| e_account := house; e_amount := neg |}; {| e_account := user; e_amount := gc_amount cmd |}]);
  let lot := {| lot_row_id := fresh 3%nat; lot_user := gc_user cmd; lot_source := gc_source cmd;
                lot_amount := gc_amount cmd; granted_at := gc_granted_at cmd; grant_class := gc_grant_class cmd;
                policy_version := gc_policy_version cmd; converted_at := None |} in
  c ← store (insert_credit_lot lot (fu_credits f));
  rf ← store (remember_lot_idempotency (gc_key cmd) (fresh 3%nat) c (td_referrals db));
  let event := mkEvent "CreditGranted" "user" (gc_user cmd)
    (JObject [ ("amount_micro", JInt (gc_amount cmd)); ("grant_class", JString (grant_class_str (gc_grant_class cmd)))
             ; ("lot_id", JString (uuid_text (fresh 3%nat))); ("source", JString (gc_source cmd)) ]) in
  Ok (mkGrantedReceipt (fresh 3%nat) txn false,
      set_ops (outbox_append event (td_ops db)) (set_referrals rf (set_funds (set_credits c (set_ledger led f)) db))).

(** [GrantCredit::execute_as]; [fresh_lazy] supplies the lazy work. *)
Definition grant_credit (fresh fresh_lazy : nat -> N) (db_now : Z) (cmd : GrantCreditCmd) (db : Db) :
    outcome AppError GrantReceipt * Db :=
  atomic db (
    match txn_by_key (fu_ledger (td_funds db)) (gc_key cmd) with
    | Some txn =>
        lot ← store (ok_or (lot_by_idempotency (fu_credits (td_funds db)) (td_referrals db) (gc_key cmd))
                (Store.Invariant "credit grant transaction has no grant lot"));
        if same_grant cmd lot then Ok (mkGrantedReceipt (lot_row_id lot) txn true, db) else Err App.IdempotencyConflict
    | None =>
        '(_, f) ← convert_then_collect fresh_lazy (gc_user cmd) (gc_granted_at cmd)
                    ("credit-grant-lock:" +:+ gc_key cmd) (td_funds db);
        let db := set_funds f db in
        _ ← enforce_money_mutation (td_comp db) (db_entries (td_ops db)) db_now (gc_user cmd) CreditGrant
              (gc_amount cmd) (gc_granted_at cmd);
        '(led, reserve) ← store (bonus_reserve_balance (fresh 0%nat) (fu_ledger (td_funds db)));
        let db := set_funds (set_ledger led (td_funds db)) db in
        _ ← check_grant_caps (db_entries (td_ops db)) reserve cmd (fu_credits (td_funds db));
        mint_credit (fun n => fresh (S n)) cmd db
    end).
End Referrals.

(** ** Specification *)

Definition reserve_of (f : Funds) : Z := held (fu_ledger f) Ref.BonusReserve Usdc.

Definition promised (f : Funds) : Z := lots_sum is_promise (fu_credits f).

(** Every real-money credit not yet converted is covered by the reserve. *)
Definition solvent (f : Funds) : Prop := promised f <= reserve_of f.

Record lots_wf (f : Funds) : Prop := {
  lw_funds : funds_wf f;
  lw_keyed : forall l r, db_lots (fu_credits f) !! l = Some r -> lot_row_id r = l }.

(** ** Lemmas: the reserve under conversions and collections *)

Lemma posted_to_cons o c p ps :
  posted_to o c (p :: ps) = (if bool_decide ((ps_owner p, ps_currency p) = (o, c)) then ps_amount p else 0) + posted_to o c ps.
Proof. done. Qed.

Lemma mark_lot_promised l now c c' r :
  db_lots c !! l = Some r -> is_promise r = true -> mark_lot_converted l now c = Ok c' ->
  lots_sum is_promise c' = lots_sum is_promise c - lot_amount r /\
  (forall l' r', l' <> l -> db_lots c !! l' = Some r' -> db_lots c' !! l' = Some r').
Proof.
  intros Hl Hp. unfold mark_lot_converted. rewrite Hl. case_bool_decide; [|done]. intros [= <-]. cbn [db_lots].
  split; [|intros l' r' Hne Hr; by rewrite lookup_insert_ne].
  unfold lots_sum. cbn [db_lots]. rewrite (msum_insert _ _ _ r) by done.
  rewrite Hp. unfold is_promise. cbn [grant_class converted_at lot_amount].
  rewrite (bool_decide_eq_false_2 (Some now = None)) by done. rewrite andb_false_r. lia.
Qed.

Lemma filter_none {A} (P : A -> bool) l : (forall x, x ∈ l -> P x = false) -> List.filter P l = [].
Proof.
  induction l as [|x l IH]; intros Hp; [done|]. cbn. rewrite Hp by left. apply IH. intros y Hy. apply Hp. by right.
Qed.

Section Solvency.
Context `{UuidText} `{HashMapOrder}.

Lemma convert_lot_gap fresh i now owner lot f t1 t2 f' :
  funds_wf f -> db_lots (fu_credits f) !! lot_row_id lot = Some lot -> is_promise lot = true ->
  convert_lot fresh i now owner lot f = Ok (t1, t2, f') ->
  promised f' - reserve_of f' = promised f - reserve_of f /\
  (forall l r, l <> lot_row_id lot -> db_lots (fu_credits f) !! l = Some r -> db_lots (fu_credits f') !! l = Some r).
Proof.
  intros Hf Hl Hp Hr. pose proof (fw_ledger _ Hf) as W0. pose proof (fw_lots _ Hf _ _ Hl) as Hty.
  unfold convert_lot in Hr. cbv zeta in Hr.
  apply bind_Ok in Hr as ([l1 a1] & H1%store_Ok & Hr). apply bind_Ok in Hr as ([l2 a2] & H2%store_Ok & Hr).
  apply bind_Ok in Hr as ([l3 a3] & H3%store_Ok & Hr). apply bind_Ok in Hr as ([l4 a4] & H4%store_Ok & Hr).
  apply bind_Ok in Hr as (neg & [-> Hneg]%arith_Ok & Hr).
  apply bind_Ok in Hr as ([l5 x1] & H5%store_Ok & Hr). apply bind_Ok in Hr as ([l6 x2] & H6%store_Ok & Hr).
  apply bind_Ok in Hr as (c & Hc%store_Ok & [= <- <- <-]).
  apply account_held in H1 as (X1 & O1 & E1); [|done]. pose proof (xt_wf _ _ X1) as W1.
  apply account_held in H2 as (X2 & O2 & E2); [|done]. pose proof (xt_wf _ _ X2) as W2.
  apply account_held in H3 as (X3 & O3 & E3); [|done]. pose proof (xt_wf _ _ X3) as W3.
  apply account_held in H4 as (X4 & O4 & E4); [|done]. pose proof (xt_wf _ _ X4) as W4.
  apply (apply_held _ _ _ _ [mkPosting a1 (Ref.User owner) UsdcCredit (- lot_amount lot);
    mkPosting a2 Ref.House UsdcCredit (lot_amount lot)]) in H5 as [X5 E5];
    [|done|posting_side..|done].
  pose proof (xt_wf _ _ X5) as W5.
  apply (apply_held _ _ _ _ [mkPosting a3 Ref.BonusReserve Usdc (- lot_amount lot);
    mkPosting a4 (Ref.User owner) Usdc (lot_amount lot)]) in H6 as [X6 E6];
    [|done|posting_side..|done].
  destruct (mark_lot_promised _ _ _ _ _ Hl Hp Hc) as [Hs Hk]. split; [|done].
  unfold promised, reserve_of. cbn [set_credits set_ledger fu_credits fu_ledger].
  rewrite E6, E5, E4, E3, E2, E1, Hs. posted_simpl; lia.
Qed.
Lemma ready_is_promise (lot : CreditLotRow) facts :
  lot_ready_to_convert (E := AppError) lot facts = Ok true -> is_promise lot = true.
Proof.
  unfold lot_ready_to_convert, is_promise. destruct (converted_at lot) as [t|].
  { by rewrite (bool_decide_eq_true_2 (is_Some (Some t))) by eauto. }
  destruct (grant_class lot); [done|].
  rewrite (bool_decide_eq_true_2 (Sweeps <> RealMoney)) by done. by rewrite orb_true_r.
Qed.

Lemma convert_loop_gap fresh lots i now owner r f r' f' :
  NoDup (map lot_row_id lots) -> Forall (fun lot => db_lots (fu_credits f) !! lot_row_id lot = Some lot) lots ->
  funds_wf f -> convert_loop fresh i now owner lots r f = Ok (r', f') ->
  promised f' - reserve_of f' = promised f - reserve_of f.
Proof.
  revert i r f. induction lots as [|lot lots IH]; intros i r f Hn Hl Hf; cbn [convert_loop].
  { by intros [= <- <-]. }
  cbn [map] in Hn. apply NoDup_cons in Hn as [Hni Hn]. apply Forall_cons in Hl as [H1 Hl].
  destruct (txn_by_key _ _) as [x|], (txn_by_key _ _) as [y|]; try done; [by eapply IH|].
  intros (ready & Hrd & Hr)%bind_Ok. destruct ready; cbn [negb] in Hr; [|by eapply IH].
  apply ready_is_promise in Hrd.
  apply bind_Ok in Hr as ([[t1 t2] f1] & Hc & Hr). apply convert_lot_calm in Hc as Q; [|done|by eapply fw_lots].
  destruct (convert_lot_gap _ _ _ _ _ _ _ _ _ Hf H1 Hrd Hc) as [G K].
  apply bind_Ok in Hr as (? & _ & Hr). apply bind_Ok in Hr as (? & _ & Hr). rewrite <- G.
  eapply IH; [done| |apply Q|exact Hr]. rewrite Forall_forall in *. intros lot' Hl'. apply K; [|by apply Hl].
  intros E. apply Hni. rewrite <- E. by apply list_elem_of_fmap_2.
Qed.

Lemma auto_collect_gap fresh user key actor f c f' :
  funds_wf f -> auto_collect fresh user key actor f = Ok (c, f') ->
  fu_credits f' = fu_credits f /\ reserve_of f' = reserve_of f.
Proof.
  intros Hf Hr. pose proof (fw_ledger _ Hf) as W0. unfold auto_collect in Hr.
  apply bind_Ok in Hr as (open & _ & Hr). apply bind_Ok in Hr as (owed & Ho & Hr).
  apply checked_sum_range in Ho; [|ty]. destruct (owed =? 0); [by injection Hr as <- <-|].
  apply bind_Ok in Hr as ([l1 a1] & H1%store_Ok & Hr). apply account_held in H1 as (X1 & O1 & E1); [|done].
  apply bind_Ok in Hr as (bal & _ & Hr). cbv zeta in Hr. set (collect := Z.min owed (Z.max bal 0)) in *.
  destruct (Z.eqb_spec collect 0) as [|Hc]; [injection Hr as <- <-; split; [done|apply E1]|].
  apply bind_Ok in Hr as ([l2 a2] & H2%store_Ok & Hr). apply account_held in H2 as (X2 & O2 & E2); [|by eauto with ledger].
  apply bind_Ok in Hr as (neg & [-> Hneg]%arith_Ok & Hr).
  apply bind_Ok in Hr as ([l3 txn] & H3%store_Ok & Hr).
  apply (apply_held _ _ _ _ [mkPosting a1 (Ref.User user) Usdc (- collect); mkPosting a2 Ref.House Usdc collect])
    in H3 as [X3 E3]; [|by eauto with ledger|posting_side..|done].
  2:{ subst collect; ty. }
  apply bind_Ok in Hr as (f1 & Hl & [= <- <-]). unfold reserve_of.
  assert (Hloop : fu_ledger f1 = l3 /\ fu_credits f1 = fu_credits f).
  { revert Hl. generalize collect at 1. generalize 3%nat.
    assert (Hb : fu_ledger (set_ledger l3 f) = l3 /\ fu_credits (set_ledger l3 f) = fu_credits f) by done.
    revert Hb. generalize (set_ledger l3 f). induction open as [|[rv o] rows IH]; intros g Hg n rem; cbn [collect_loop].
    - by intros [= <-].
    - case_if; [by intros [= <-]|]. intros (rm & _ & Hr)%bind_Ok.
      apply bind_Ok in Hr as (g1 & [-> _]%store_Ok%insert_movement_Ok & Hr). eapply IH; [|exact Hr]. done. }
  destruct Hloop as [-> ->]. split; [done|]. rewrite E3, E2, E1. posted_simpl; lia.
Qed.
Lemma lots_for_user_rows f user :
  lots_wf f -> NoDup (map lot_row_id (lots_for_user (fu_credits f) user)) /\
  Forall (fun lot => db_lots (fu_credits f) !! lot_row_id lot = Some lot) (lots_for_user (fu_credits f) user).
Proof.
  intros [_ Hk]. unfold lots_for_user.
  assert (Hall : forall lot, lot ∈ map snd (map_to_list (db_lots (fu_credits f))) ->
    db_lots (fu_credits f) !! lot_row_id lot = Some lot).
  { intros lot ([l r] & -> & Hi)%list_elem_of_fmap. apply elem_of_map_to_list in Hi. cbn. by rewrite (Hk _ _ Hi). }
  split.
  - rewrite sort_by_perm. apply (sublist_NoDup _ (map lot_row_id (map snd (map_to_list (db_lots (fu_credits f)))))).
    + rewrite map_map. rewrite (map_ext_in _ fst); [apply NoDup_fst_map_to_list|].
      intros [l r] Hi%list_elem_of_In%elem_of_map_to_list. cbn. by apply Hk.
    + apply sublist_map_filter.
  - rewrite sort_by_perm. apply Forall_forall. intros lot Hl. apply Hall.
    apply list_elem_of_In, filter_In in Hl as [Hl _]. by apply list_elem_of_In.
Qed.

(** The lazy money work keeps the difference of promise and reserve. *)
Lemma lazy_work_gap fresh user now key f r f' :
  lots_wf f -> convert_then_collect fresh user now key f = Ok (r, f') ->
  lots_wf f' /\ promised f' - reserve_of f' = promised f - reserve_of f.
Proof.
  intros Hf Hr. pose proof (convert_then_collect_calm _ _ _ _ _ _ _ (lw_funds _ Hf) Hr) as C.
  destruct (lots_for_user_rows f user Hf) as [Hn Hrow]. unfold convert_then_collect in Hr. cbv zeta in Hr.
  apply bind_Ok in Hr as ([r1 f1] & H1 & Hr). apply bind_Ok in Hr as ([c f2] & H2 & [= <- <-]).
  pose proof (convert_loop_calm _ _ _ _ _ _ _ _ _ (lots_for_user_amounts _ _ (lw_funds _ Hf)) (lw_funds _ Hf) H1) as C1.
  apply convert_loop_gap in H1; [|done..|apply Hf].
  apply auto_collect_gap in H2 as [E1 E2]; [|apply C1]. split.
  - split; [apply C|]. intros l r (r0 & Hr0 & _ & -> & _)%(cm_lots _ _ C). by apply Hf.
  - unfold promised. rewrite E1, E2. apply H1.
Qed.

Lemma reserve_query fresh led led' z :
  pg_wf led -> bonus_reserve_balance fresh led = Ok (led', z) ->
  extends led led' /\ z = held led Ref.BonusReserve Usdc /\ forall o c, held led' o c = held led o c.
Proof.
  intros W Hr. unfold bonus_reserve_balance in Hr. apply bind_Ok in Hr as ([l a] & Ha & Hr). apply bind_Ok in Hr as (t & [-> _]%ok_or_Ok%checked_Some & [= <- <-]).
  apply account_held in Ha as (X & O & E); [|done]. split_and!; [done| |done].
  rewrite <- E, (held_owns l a) by (by eauto with ledger). pose proof (xt_wf _ _ X) as W'.
  destruct O as (r & Hr & <- & Hi).
  assert (Hone : forall x, x ∈ pg_accounts l ->
    bool_decide (acct_type x = BonusReserve) && bool_decide (acct_currency x = Usdc) = bool_decide (acct_id x = acct_id r)).
  { intros x Hx. unfold is_account in Hi. rewrite !andb_true_iff, !bool_decide_eq_true in Hi. destruct Hi as [[T1 T2] T3].
    destruct (decide (acct_id x = acct_id r)) as [Eid|Hne].
    - rewrite (bool_decide_eq_true_2 _ Eid). assert (x = r) as -> by (apply (acct_id_inj l); [apply pw_ids, W'|done..]).
      by rewrite T1, T3.
    - rewrite (bool_decide_eq_false_2 _ Hne). apply andb_false_iff.
      destruct (decide (acct_type x = BonusReserve)) as [Tx|]; [|left; by apply bool_decide_eq_false_2].
      destruct (decide (acct_currency x = Usdc)) as [Cx|]; [|right; by apply bool_decide_eq_false_2].
      exfalso. apply Hne. f_equal. apply (pw_unique _ W'); [done..|]. unfold conflicts.
      rewrite Tx, Cx in *. cbn in T1, T3. by rewrite T1, T3. }
  rewrite (List.filter_ext_in _ (fun x => bool_decide (acct_id x = acct_id r))).
  2:{ intros x Hx%list_elem_of_In. by apply Hone. }
  pose proof (pw_ids _ W') as Hnd. clear -Hr Hnd. induction (pg_accounts l) as [|x xs IH]; [by apply elem_of_nil in Hr|].
  cbn [map List.filter] in *. apply NoDup_cons in Hnd as [Hn Hnd]. case_bool_decide as Ex.
  - assert (Hnone : List.filter (fun y => bool_decide (acct_id y = acct_id r)) xs = []).
    { apply filter_none. intros y Hy. apply bool_decide_eq_false_2. intros Ey. apply Hn. rewrite Ex, <- Ey.
      by apply list_elem_of_fmap_2. }
    rewrite Hnone. cbn. rewrite Ex. lia.
  - apply IH; [|done]. apply elem_of_cons in Hr as [->|Hr]; done.
Qed.
(** What grants leave alone, and what they do to the reserve's coverage. *)
Record tame (f f' : Funds) : Prop := {
  tm_quiet : quiet (fu_ledger f) (fu_ledger f');
  tm_trades : db_trades (fu_credits f') = db_trades (fu_credits f);
  tm_facts : db_facts (fu_credits f') = db_facts (fu_credits f);
  tm_receivables : fu_receivables f' = fu_receivables f;
  tm_wf : lots_wf f';
  tm_solvent : solvent f -> solvent f' }.

Lemma tame_trans f g h : tame f g -> tame g h -> tame f h.
Proof. intros [Q1 T1 F1 R1 W1 S1] [Q2 T2 F2 R2 W2 S2]. split; [by eapply quiet_trans|congruence..|done|auto]. Qed.

Lemma tame_refl f : lots_wf f -> tame f f.
Proof. intros W. split; try done. apply quiet_refl, W. Qed.

Lemma lazy_work_tame fresh user now key f r f' :
  lots_wf f -> convert_then_collect fresh user now key f = Ok (r, f') -> tame f f'.
Proof.
  intros W Hr. pose proof (convert_then_collect_calm _ _ _ _ _ _ _ (lw_funds _ W) Hr) as C. pose proof C as [_ T F R _ _].
  apply lazy_work_gap in Hr as [W' G]; [|done]. split; [by apply cm_quiet|done..|]. unfold solvent. lia.
Qed.

(** Extending the ledger without touching an escrow is quiet. *)
Lemma extends_quiet led led' :
  extends led led' -> (forall o c, escrowed (owner_parts o).1 = true -> held led' o c = held led o c) ->
  quiet led led'.
Proof. intros [W A T] E. by split. Qed.

Lemma policy_typed entries p :
  required_referral_policy entries = Ok p -> in_ty I64 (rp_referrer_amount p) /\ in_ty I64 (rp_referee_amount p).
Proof.
  assert (Hc : forall key z, required_i64 entries key = Ok z -> in_ty I64 z).
  { intros key z Hz%ok_or_Ok. unfold config_i64 in Hz. destruct (entries !! key) as [v|]; [|done].
    cbn in Hz. by apply as_i64_opt_Some in Hz as [_ Hz]. }
  unfold required_referral_policy. intros (m & _ & Hr)%bind_Ok. apply bind_Ok in Hr as (a & Ha & Hr).
  apply bind_Ok in Hr as (b & Hb & Hr). apply bind_Ok in Hr as (cl & _ & Hr). apply bind_Ok in Hr as (cap & _ & [= <-]).
  cbn. eauto.
Qed.

Lemma insert_credit_lot_Ok lot c c' :
  insert_credit_lot lot c = Ok c' ->
  0 < lot_amount lot /\ db_lots c !! lot_row_id lot = None /\
  c' = {| db_trades := db_trades c; db_lots := <[lot_row_id lot := lot]> (db_lots c); db_facts := db_facts c |}.
Proof.
  unfold insert_credit_lot. destruct (Z.leb_spec (lot_amount lot) 0); [done|]. case_bool_decide as Hn; [done|].
  intros [= <-]. split_and!; [done| |done]. by apply eq_None_not_Some.
Qed.

Lemma remember_Ok key lot c rf rf' :
  remember_lot_idempotency key lot c rf = Ok rf' ->
  rf' = mkReferralDb (rf_codes rf) (rf_binds rf) (rf_phones rf) (<[key := lot]> (rf_lot_keys rf)).
Proof. unfold remember_lot_idempotency. repeat case_match; try done. by intros [= <-]. Qed.

Lemma mint_pair_Ok fresh bind referrer referee policy total at_ market db txn a b db' :
  lots_wf (td_funds db) -> in_ty I64 (rp_referrer_amount policy) -> in_ty I64 (rp_referee_amount policy) ->
  total = rp_referrer_amount policy + rp_referee_amount policy ->
  (rp_grant_class policy = RealMoney -> promised (td_funds db) + total <= reserve_of (td_funds db)) ->
  mint_pair fresh bind referrer referee policy total at_ market db = Ok (txn, a, b, db') ->
  tame (td_funds db) (td_funds db') /\ td_book db' = td_book db /\ td_comp db' = td_comp db /\
  db_entries (td_ops db') = db_entries (td_ops db) /\ td_realizations db' = td_realizations db.
Proof.
  intros W Ta Tb -> Hcov Hr. pose proof (fw_ledger _ (lw_funds _ W)) as W0. unfold mint_pair in Hr. cbv zeta in Hr.
  apply bind_Ok in Hr as ([l1 a1] & H1 & Hr). apply bind_Ok in Hr as ([l2 a2] & H2 & Hr).
  apply bind_Ok in Hr as ([l3 a3] & H3 & Hr). apply bind_Ok in Hr as (neg & [-> Hneg]%arith_Ok & Hr).
  apply bind_Ok in Hr as ([l4 t] & H4 & Hr). apply bind_Ok in Hr as (c1 & C1%insert_credit_lot_Ok & Hr).
  apply bind_Ok in Hr as (rf1 & _ & Hr). apply bind_Ok in Hr as (c2 & C2%insert_credit_lot_Ok & Hr).
  apply bind_Ok in Hr as (rf2 & _ & [= <- <- <- <-]).
  apply account_held in H1 as (X1 & O1 & E1); [|done]. apply account_held in H2 as (X2 & O2 & E2); [|by eauto with ledger].
  apply account_held in H3 as (X3 & O3 & E3); [|by eauto with ledger].
  apply (apply_held _ _ _ _ [mkPosting a1 Ref.House UsdcCredit (- (rp_referrer_amount policy + rp_referee_amount policy));
    mkPosting a2 (Ref.User referrer) UsdcCredit (rp_referrer_amount policy);
    mkPosting a3 (Ref.User referee) UsdcCredit (rp_referee_amount policy)]) in H4 as [X4 E4];
    [|by eauto with ledger|posting_side..|done].
  assert (X : extends (fu_ledger (td_funds db)) l4) by eauto 6 with ledger.
  assert (E : forall o, held l4 o Usdc = held (fu_ledger (td_funds db)) o Usdc).
  { intros o. rewrite E4, E3, E2, E1. posted_simpl; lia. }
  destruct C1 as (P1 & N1 & ->), C2 as (P2 & N2 & ->). split_and!; try done.
  split; cbn [set_ops set_referrals set_funds td_funds set_credits set_ledger fu_ledger fu_credits fu_receivables db_trades db_facts]; try done.
  - apply extends_quiet; [done|]. intros o c Ho. rewrite E4, E3, E2, E1. destruct o; try done; posted_simpl; lia.
  - split; [split; [apply X|]|]; cbn [set_credits set_ledger fu_ledger fu_credits db_lots]; intros l r.
    + rewrite !lookup_insert_Some. intros [[_ <-]|[_ [[_ <-]|[_ Hl]]]]; [done..|]. by eapply fw_lots; [apply W|].
    + rewrite !lookup_insert_Some. intros [[<- <-]|[_ [[<- <-]|[_ Hl]]]]; [done..|]. by apply W.
  - intros Hs. unfold solvent, promised, reserve_of in *. cbn [set_credits set_ledger fu_ledger fu_credits]. rewrite E.
    unfold lots_sum in *. cbn [db_lots] in *. rewrite !msum_insert_new by done.
    unfold is_promise at 1 2. cbn [referral_lot grant_class converted_at lot_amount].
    rewrite !andb_true_r. destruct (rp_grant_class policy); [specialize (Hcov eq_refl)|]; repeat case_bool_decide; (done || lia).
Qed.
Lemma grant_caps_Ok fresh policy at_ total f v f' :
  lots_wf f -> grant_caps fresh policy at_ total f = Ok (v, f') ->
  tame f f' /\ fu_credits f' = fu_credits f /\
  (v = WithinCaps ->
   lots_sum (fun lot => at_ - 86400 <=? granted_at lot) (fu_credits f) + total <= rp_mint_cap policy /\
   (rp_grant_class policy = RealMoney -> promised f' + total <= reserve_of f')).
Proof.
  intros W Hr. unfold grant_caps in Hr. apply bind_Ok in Hr as ([led z] & Hz & Hr). cbv zeta in Hr.
  apply reserve_query in Hz as (X & -> & E); [|apply W].
  assert (T : tame f (set_ledger led f)).
  { split; try done; [apply extends_quiet; [done|intros o c _; apply E]| |].
    - split; [split; [apply X|apply W]|apply W].
    - unfold solvent, promised, reserve_of. cbn [set_ledger fu_ledger fu_credits]. by rewrite E. }
  apply bind_Ok in Hr as (minted & [-> _]%ok_or_Ok%checked_Some & Hr). cbn [set_ledger fu_credits] in Hr.
  destruct (checked I64 (_ + total)) as [nm|] eqn:Hm; [apply checked_Some in Hm as [-> _]|by injection Hr as <- <-].
  destruct (_ || _) eqn:Hc in Hr; [by injection Hr as <- <-|]. apply orb_false_iff in Hc as [_ Hc].
  rewrite Z.gtb_ltb in Hc. apply Z.ltb_ge in Hc.
  destruct (rp_grant_class policy); [|by injection Hr as <- <-].
  apply bind_Ok in Hr as (p & [-> _]%ok_or_Ok%checked_Some & Hr).
  destruct (checked I64 (_ + total)) as [np|] eqn:Hp in Hr; [|by injection Hr as <- <-].
  apply checked_Some in Hp as [-> _]. injection Hr as <- <-. split_and!; [done..|].
  intros Hv. split; [done|]. intros _. unfold promised, reserve_of. cbn [set_ledger fu_ledger fu_credits]. rewrite E.
  destruct (Z.ltb_spec (held (fu_ledger f) Ref.BonusReserve Usdc) (lots_sum is_promise (fu_credits f) + total)); [done|].
  lia.
Qed.

(** What a grant inside another transaction leaves alone. *)
Record granted (db db' : Db) : Prop := {
  gd_tame : tame (td_funds db) (td_funds db');
  gd_book : td_book db' = td_book db;
  gd_comp : td_comp db' = td_comp db;
  gd_entries : db_entries (td_ops db') = db_entries (td_ops db);
  gd_realizations : td_realizations db' = td_realizations db }.

Lemma granted_refl db : lots_wf (td_funds db) -> granted db db.
Proof. intros W. split; try done. by apply tame_refl. Qed.

Lemma granted_trans a b c : granted a b -> granted b c -> granted a c.
Proof. intros [T1 B1 C1 E1 R1] [T2 B2 C2 E2 R2]. split; [by eapply tame_trans|congruence..]. Qed.

Lemma set_funds_granted f db : tame (td_funds db) f -> granted db (set_funds f db).
Proof. intros T. by split. Qed.

Lemma prepare_parties_granted fresh users i db_now at_ bind db ok db' :
  lots_wf (td_funds db) -> prepare_parties fresh i db_now at_ bind users db = Ok (ok, db') -> granted db db'.
Proof.
  revert i db. induction users as [|u users IH]; intros i db W; cbn [prepare_parties].
  { intros [= <- <-]. by apply granted_refl. }
  intros ([ok1 db1] & H1 & Hr)%bind_Ok. unfold prepare_party in H1.
  assert (G : granted db db1).
  { destruct (enforce_money_mutation _ _ _ _ _ _ _) as [[]|e|]; [|destruct e; try discriminate; injection H1 as <- <-; by apply granted_refl|done].
    apply bind_Ok in H1 as ([x f] & Hf%map_err_Ok & [= <- <-]). apply set_funds_granted. by eapply lazy_work_tame. }
  destruct ok1; [|injection Hr as <- <-; done]. eapply granted_trans; [exact G|]. eapply IH; [|exact Hr]. apply G.
Qed.

Lemma grant_prepared_granted fresh policy bind referrer referee at_ market db ok db' :
  lots_wf (td_funds db) -> in_ty I64 (rp_referrer_amount policy) -> in_ty I64 (rp_referee_amount policy) ->
  grant_prepared fresh policy bind referrer referee at_ market db = Ok (ok, db') -> granted db db'.
Proof.
  intros W Ta Tb Hr. unfold grant_prepared in Hr. apply bind_Ok in Hr as (paid & _ & Hr).
  destruct paid as [paid|]; [|injection Hr as <- <-; by apply granted_refl].
  destruct (_ || _) in Hr; [injection Hr as <- <-; by apply granted_refl|].
  destruct (_ || _) in Hr; [injection Hr as <- <-; by apply granted_refl|].
  apply bind_Ok in Hr as (total & [-> _]%ok_or_Ok%checked_Some & Hr).
  apply bind_Ok in Hr as ([v f] & Hv & Hr). apply grant_caps_Ok in Hv as (T & _ & Hw); [|done].
  apply set_funds_granted in T as G. cbv zeta in Hr.
  destruct v; try done; [|by injection Hr as <- <-..].
  apply bind_Ok in Hr as ([[[x y] z] db2] & Hm & [= <- <-]).
  apply mint_pair_Ok in Hm as (T2 & B & C & E & R); [|apply G|done..|apply Hw; done].
  eapply granted_trans; [exact G|]. by split.
Qed.

Lemma grant_in_tx_granted fresh db_now at_ referee market db ok db' :
  lots_wf (td_funds db) -> grant_referral_on_paid_in_tx fresh db_now at_ referee market db = Ok (ok, db') -> granted db db'.
Proof.
  intros W Hr. unfold grant_referral_on_paid_in_tx in Hr. cbv zeta in Hr.
  destruct (referral_bind_for_referee _ _) as [bind|]; [|injection Hr as <- <-; by apply granted_refl].
  apply bind_Ok in Hr as ([[referrer bound] key] & _ & Hr).
  destruct (negb _) in Hr; [injection Hr as <- <-; by apply granted_refl|].
  destruct (txn_by_key _ _); [apply bind_Ok in Hr as (? & _ & [= <- <-]); by apply granted_refl|].
  destruct (_ || _) in Hr; [injection Hr as <- <-; by apply granted_refl|].
  apply bind_Ok in Hr as (policy & [Ta Tb]%policy_typed & Hr). apply bind_Ok in Hr as ([ok1 db1] & H1 & Hr).
  apply prepare_parties_granted in H1 as G; [|done]. destruct ok1; [|by injection Hr as <- <-].
  eapply granted_trans; [exact G|]. eapply grant_prepared_granted; [apply G|exact Ta|exact Tb|exact Hr].
Qed.

Lemma grant_loop_granted fresh referees i db_now at_ market n db n' db' :
  lots_wf (td_funds db) -> grant_loop fresh i db_now at_ market referees n db = Ok (n', db') -> granted db db'.
Proof.
  revert i n db. induction referees as [|u l IH]; intros i n db W; cbn [grant_loop].
  { intros [= <- <-]. by apply granted_refl. }
  intros ([ok db1] & H1 & Hr)%bind_Ok. apply grant_in_tx_granted in H1 as G; [|done].
  apply bind_Ok in Hr as (n1 & _ & Hr). eapply granted_trans; [exact G|]. eapply IH; [|exact Hr]. apply G.
Qed.

Lemma grant_referrals_granted fresh db_now market db n db' :
  lots_wf (td_funds db) -> grant_referrals_on_paid fresh db_now market db = Ok (n, db') -> granted db db'.
Proof. intros W (r & _ & Hr)%bind_Ok. by eapply grant_loop_granted. Qed.

Lemma convert_parties_granted fresh users i at_ bind db db' :
  lots_wf (td_funds db) -> convert_parties fresh i at_ bind users db = Ok db' -> granted db db'.
Proof.
  revert i db. induction users as [|u users IH]; intros i db W; cbn [convert_parties].
  { intros [= <-]. by apply granted_refl. }
  intros ([x f] & Hf & Hr)%bind_Ok. apply lazy_work_tame, (set_funds_granted _ db) in Hf as G; [|done].
  eapply granted_trans; [exact G|]. eapply IH; [|exact Hr]. apply G.
Qed.

Lemma grant_referral_granted fresh db_now cmd db :
  lots_wf (td_funds db) -> granted db (grant_referral fresh db_now cmd db).2.
Proof.
  intros W. destruct (grant_referral fresh db_now cmd db) as [[r|e|] db'] eqn:E; cbn;
    [|apply atomic_refused in E as ->; [by apply granted_refl|done]..].
  unfold grant_referral in E.
  match type of E with atomic _ ?m = _ => destruct m as [[a db1]|e|] eqn:Hr end; cbn in E; [|done..].
  injection E as -> ->. cbv zeta in Hr. apply bind_Ok in Hr as (bind & _ & Hr).
  apply bind_Ok in Hr as ([[referrer referee] key] & _ & Hr). destruct (negb _) in Hr; [discriminate|].
  destruct (txn_by_key _ _).
  { apply bind_Ok in Hr as ([x y] & _ & [= <- <-]). by apply granted_refl. }
  destruct (_ || _) in Hr; [discriminate|]. apply bind_Ok in Hr as (policy & [Ta Tb]%store_Ok%policy_typed & Hr).
  apply bind_Ok in Hr as (db2 & G%convert_parties_granted & Hr); [|done]. apply bind_Ok in Hr as ([] & _ & Hr).
  apply bind_Ok in Hr as (found & _ & Hr). apply bind_Ok in Hr as (paid & _ & Hr).
  destruct (_ || _) in Hr; [discriminate|]. destruct (_ || _) in Hr; [discriminate|].
  apply bind_Ok in Hr as (total & [-> _]%ok_or_Ok%checked_Some & Hr).
  apply bind_Ok in Hr as ([v f] & Hv%store_Ok & Hr). apply grant_caps_Ok in Hv as (T & _ & Hw); [|apply G].
  apply set_funds_granted in T as G2. destruct v; try discriminate.
  apply bind_Ok in Hr as ([[[x y] z] db3] & Hm%store_Ok & [= <- <-]).
  apply mint_pair_Ok in Hm as (T2 & B & C & E & R); [|apply G2|done..|apply Hw; done].
  eapply granted_trans; [exact G|]. eapply granted_trans; [exact G2|]. by split.
Qed.

Lemma check_grant_caps_Ok entries reserve cmd c :
  check_grant_caps entries reserve cmd c = Ok tt ->
  (exists cap, required_i64 entries "bonus_mint_daily_cap_micro" = Ok cap /\
     lots_sum (fun lot => gc_granted_at cmd - 86400 <=? granted_at lot) c + gc_amount cmd <= cap) /\
  (gc_grant_class cmd = RealMoney -> lots_sum is_promise c + gc_amount cmd <= reserve).
Proof.
  unfold check_grant_caps. intros (cap & Hcap%store_Ok & Hr)%bind_Ok.
  apply bind_Ok in Hr as (minted & [-> _]%store_Ok%ok_or_Ok%checked_Some & Hr).
  apply bind_Ok in Hr as (nm & [-> _]%ok_or_Ok%checked_Some & Hr). destruct (_ || _) eqn:E in Hr; [done|].
  apply orb_false_iff in E as [_ E]. rewrite Z.gtb_ltb in E. apply Z.ltb_ge in E. split; [by exists cap|].
  intros Hc. rewrite Hc in Hr. apply bind_Ok in Hr as (pr & [-> _]%store_Ok%ok_or_Ok%checked_Some & Hr).
  apply bind_Ok in Hr as (np & [-> _]%ok_or_Ok%checked_Some & Hr). by destruct (Z.ltb_spec reserve (lots_sum is_promise c + gc_amount cmd)).
Qed.

Lemma mint_credit_granted fresh cmd db r db' :
  lots_wf (td_funds db) -> in_ty I64 (gc_amount cmd) ->
  (gc_grant_class cmd = RealMoney -> promised (td_funds db) + gc_amount cmd <= reserve_of (td_funds db)) ->
  mint_credit fresh cmd db = Ok (r, db') -> granted db db'.
Proof.
  intros W Ta Hcov Hr. pose proof (fw_ledger _ (lw_funds _ W)) as W0. unfold mint_credit in Hr. cbv zeta in Hr.
  apply bind_Ok in Hr as ([l1 a1] & H1%store_Ok & Hr). apply bind_Ok in Hr as ([l2 a2] & H2%store_Ok & Hr).
  apply bind_Ok in Hr as (neg & [-> Hneg]%arith_Ok & Hr). apply bind_Ok in Hr as ([l3 t] & H3%store_Ok & Hr).
  apply bind_Ok in Hr as (c1 & (_ & N1 & ->)%store_Ok%insert_credit_lot_Ok & Hr). apply bind_Ok in Hr as (rf & _ & [= <- <-]).
  apply account_held in H1 as (X1 & O1 & E1); [|done]. apply account_held in H2 as (X2 & O2 & E2); [|by eauto with ledger].
  apply (apply_held _ _ _ _ [mkPosting a1 Ref.House UsdcCredit (- gc_amount cmd);
    mkPosting a2 (Ref.User (gc_user cmd)) UsdcCredit (gc_amount cmd)]) in H3 as [X3 E3];
    [|by eauto with ledger|posting_side..|done].
  assert (X : extends (fu_ledger (td_funds db)) l3) by eauto 6 with ledger.
  split; [|done..]. split; cbn [set_ops set_referrals set_funds td_funds set_credits set_ledger fu_ledger fu_credits fu_receivables db_trades db_facts]; try done.
  - apply extends_quiet; [done|]. intros o c Ho. rewrite E3, E2, E1. destruct o; try done; posted_simpl; lia.
  - split; [split; [apply X|]|]; cbn [set_credits set_ledger fu_ledger fu_credits db_lots]; intros l r.
    + rewrite lookup_insert_Some. intros [[_ <-]|[_ Hl]]; [done|]. by eapply fw_lots; [apply W|].
    + rewrite lookup_insert_Some. intros [[<- <-]|[_ Hl]]; [done|]. by apply W.
  - intros Hs. unfold solvent, promised, reserve_of in *. cbn [set_credits set_ledger fu_ledger fu_credits].
    rewrite E3, E2, E1. unfold lots_sum in *. cbn [db_lots] in *. rewrite msum_insert_new by done.
    unfold is_promise at 1. cbn [grant_class converted_at lot_amount]. rewrite andb_true_r.
    destruct (gc_grant_class cmd); [specialize (Hcov eq_refl)|]; posted_simpl; repeat case_bool_decide; (done || lia).
Qed.

Lemma grant_credit_granted fresh fresh_lazy db_now cmd db :
  lots_wf (td_funds db) -> in_ty I64 (gc_amount cmd) -> granted db (grant_credit fresh fresh_lazy db_now cmd db).2.
Proof.
  intros W Ta. destruct (grant_credit fresh fresh_lazy db_now cmd db) as [[r|e|] db'] eqn:E; cbn;
    [|apply atomic_refused in E as ->; [by apply granted_refl|done]..].
  apply atomic_answer in E. destruct (txn_by_key _ _).
  { apply bind_Ok in E as (lot & _ & E). destruct (same_grant cmd lot); [|done]. injection E as <- <-. by apply granted_refl. }
  apply bind_Ok in E as ([x f] & Hf & E). apply lazy_work_tame, (set_funds_granted _ db) in Hf as G; [|done]. cbv zeta in E.
  apply bind_Ok in E as ([] & _ & E). apply bind_Ok in E as ([led z] & Hz%store_Ok & E).
  apply reserve_query in Hz as (X & -> & Eh); [|apply G]. apply bind_Ok in E as ([] & [_ Hcov]%check_grant_caps_Ok & E).
  eapply granted_trans; [exact G|].
  assert (T : tame (td_funds (set_funds f db)) (set_ledger led (td_funds (set_funds f db)))).
  { split; try done; [apply extends_quiet; [done|intros o c _; apply Eh]| |].
    - split; [split; [apply X|apply G]|apply G].
    - unfold solvent, promised, reserve_of. cbn [set_ledger fu_ledger fu_credits]. by rewrite Eh. }
  apply (set_funds_granted _ (set_funds f db)) in T as G2. eapply granted_trans; [exact G2|].
  eapply mint_credit_granted; [apply T|exact Ta| |exact E]. intros Hc. specialize (Hcov Hc).
  unfold promised, reserve_of. cbn [set_funds td_funds set_ledger fu_ledger fu_credits] in *. by rewrite Eh.
Qed.

Lemma str_app_inj_l (a x y : string) : a +:+ x = a +:+ y -> x = y.
Proof. induction a as [|ch a IH]; cbn; [done|]. intros [= E]. by apply IH. Qed.

Lemma lot_keys_differ bind : referrer_lot_key bind <> referee_lot_key bind.
Proof. by intros E%str_app_inj_l. Qed.

(** A minted pair is found again by its keys. *)
Lemma mint_pair_found fresh bind referrer referee policy total at_ market db txn a b db' :
  lots_wf (td_funds db) -> in_ty I64 (rp_referrer_amount policy) -> in_ty I64 (rp_referee_amount policy) ->
  mint_pair fresh bind referrer referee policy total at_ market db = Ok (txn, a, b, db') ->
  txn_by_key (fu_ledger (td_funds db')) (grant_key bind) = Some txn /\
  rf_binds (td_referrals db') = rf_binds (td_referrals db) /\
  exists la lb, validated_referral_lots
    (lot_by_idempotency (fu_credits (td_funds db')) (td_referrals db') (referrer_lot_key bind))
    (lot_by_idempotency (fu_credits (td_funds db')) (td_referrals db') (referee_lot_key bind)) referrer referee
    = Ok (la, lb) /\ lot_row_id la = a /\ lot_row_id lb = b.
Proof.
  intros W Ta Tb Hr. pose proof (fw_ledger _ (lw_funds _ W)) as W0. unfold mint_pair in Hr. cbv zeta in Hr.
  apply bind_Ok in Hr as ([l1 a1] & H1 & Hr). apply bind_Ok in Hr as ([l2 a2] & H2 & Hr).
  apply bind_Ok in Hr as ([l3 a3] & H3 & Hr). apply bind_Ok in Hr as (neg & [-> Hneg]%arith_Ok & Hr).
  apply bind_Ok in Hr as ([l4 t] & H4 & Hr). apply bind_Ok in Hr as (c1 & (_ & N1 & ->)%insert_credit_lot_Ok & Hr).
  apply bind_Ok in Hr as (rf1 & ->%remember_Ok & Hr). apply bind_Ok in Hr as (c2 & (_ & N2 & ->)%insert_credit_lot_Ok & Hr).
  apply bind_Ok in Hr as (rf2 & ->%remember_Ok & [= <- <- <- <-]).
  apply account_wf in H1; [|done]. apply account_wf in H2; [|done]. apply account_wf in H3; [|done].
  apply apply_recorded in H4 as (_ & _ & Ht); [|done|by rewrite !Forall_cons|done].
  cbn [set_ops set_referrals set_funds td_funds set_credits set_ledger fu_ledger fu_credits td_referrals rf_binds].
  split_and!; [done..|]. cbn [referral_lot lot_row_id db_lots] in N1, N2.
  assert (Hne : fresh 4%nat <> fresh 5%nat) by (intros E; rewrite E, lookup_insert_eq in N2; done).
  unfold lot_by_idempotency. cbn [rf_lot_keys db_lots referral_lot lot_row_id].
  rewrite (lookup_insert_ne _ (referee_lot_key bind)) by (symmetry; apply lot_keys_differ).
  rewrite !lookup_insert_eq. cbn [mbind option_bind]. rewrite lookup_insert_ne by done. rewrite !lookup_insert_eq.
  unfold validated_referral_lots. cbn [ok_or mbind outcome_bind referral_lot lot_user]. rewrite !N.eqb_refl. cbn.
  do 2 eexists. split; [done|]. done.
Qed.

Lemma convert_parties_referrals fresh users i at_ bind db db' :
  convert_parties fresh i at_ bind users db = Ok db' -> td_referrals db' = td_referrals db.
Proof.
  revert i db. induction users as [|u users IH]; intros i db; cbn [convert_parties]; [by intros [= <-]|].
  intros ([x f] & _ & Hr)%bind_Ok. by rewrite (IH _ _ Hr).
Qed.

(** What an executed grant command leaves to be found. *)
Lemma grant_referral_found fresh db_now cmd db r db' :
  lots_wf (td_funds db) -> grant_referral fresh db_now cmd db = (Ok r, db') -> gt_replayed r = false ->
  exists referrer referee key,
    referral_bind_for_referee (td_referrals db') (gr_referee cmd) = Some (gt_bind_id r) /\
    referral_bind_parties (td_referrals db') (gt_bind_id r) = Some (referrer, referee, key) /\
    referral_pair_matches referrer referee referrer (gr_referee cmd) = true /\
    txn_by_key (fu_ledger (td_funds db')) (grant_key (gt_bind_id r)) = Some (gt_txn r) /\
    exists la lb, validated_referral_lots
      (lot_by_idempotency (fu_credits (td_funds db')) (td_referrals db') (referrer_lot_key (gt_bind_id r)))
      (lot_by_idempotency (fu_credits (td_funds db')) (td_referrals db') (referee_lot_key (gt_bind_id r))) referrer referee
      = Ok (la, lb) /\ gt_referrer_lot r = Some (lot_row_id la) /\ gt_referee_lot r = Some (lot_row_id lb).
Proof.
  intros W E Hnew. unfold grant_referral in E.
  match type of E with atomic _ ?m = _ => destruct m as [[a db1]|e|] eqn:Hr end; cbn in E; [|done..].
  injection E as -> ->. cbv zeta in Hr. apply bind_Ok in Hr as (bind & Hb%ok_or_Ok & Hr).
  apply bind_Ok in Hr as ([[referrer referee] key] & Hp%store_Ok%ok_or_Ok & Hr).
  destruct (negb _) eqn:Hm in Hr; [discriminate|]. apply negb_false_iff in Hm.
  destruct (txn_by_key _ _). { apply bind_Ok in Hr as ([x y] & _ & [= <- <-]). done. }
  destruct (_ || _) in Hr; [discriminate|]. apply bind_Ok in Hr as (policy & [Ta Tb]%store_Ok%policy_typed & Hr).
  apply bind_Ok in Hr as (db2 & Hc & Hr). apply convert_parties_granted in Hc as G; [|done].
  apply convert_parties_referrals in Hc. apply bind_Ok in Hr as ([] & _ & Hr).
  apply bind_Ok in Hr as (found & _ & Hr). apply bind_Ok in Hr as (paid & _ & Hr).
  destruct (_ || _) in Hr; [discriminate|]. destruct (_ || _) in Hr; [discriminate|].
  apply bind_Ok in Hr as (total & _ & Hr). apply bind_Ok in Hr as ([v f] & Hv%store_Ok & Hr).
  apply grant_caps_Ok in Hv as (T & _ & _); [|apply G]. destruct v; try discriminate.
  apply bind_Ok in Hr as ([[[x y] z] db3] & Hmint%store_Ok & [= <- <-]).
  apply mint_pair_found in Hmint as (F1 & F2 & la & lb & F3 & <- & <-); [|apply T|done..].
  cbn [set_funds td_referrals] in F2. rewrite Hc in F2. exists referrer, referee, key. cbn.
  unfold referral_bind_for_referee, referral_bind_parties in *. rewrite F2.
  split_and!; [done..|]. by exists la, lb.
Qed.
End Solvency.

(** ** Properties *)

(** The commands and hooks that mint or convert credit. *)
Inductive credit_step `{UuidText} `{HashMapOrder} : Db -> Db -> Prop :=
| step_grant fresh db_now cmd db : credit_step db (grant_referral fresh db_now cmd db).2
| step_grant_credit fresh fresh_lazy db_now cmd db : in_ty I64 (gc_amount cmd) ->
    credit_step db (grant_credit fresh fresh_lazy db_now cmd db).2
| step_paid fresh db_now market db n db' :
    grant_referrals_on_paid fresh db_now market db = Ok (n, db') -> credit_step db db'
| step_lazy fresh user now key db r f :
    convert_then_collect fresh user now key (td_funds db) = Ok (r, f) -> credit_step db (set_funds f db).

Lemma credit_granted `{UuidText} `{HashMapOrder} db db' : lots_wf (td_funds db) -> credit_step db db' -> granted db db'.
Proof.
  intros W Hs. destruct Hs as [fresh dn cmd db|fresh fl dn cmd db Ha|fresh dn m db n db1 Hg|fresh u now key db r f Hf].
  - by apply grant_referral_granted.
  - by apply grant_credit_granted.
  - by eapply grant_referrals_granted.
  - apply set_funds_granted. by eapply lazy_work_tame.
Qed.

(** C29: the bonus reserve stays solvent.  From tables in which the reserve
    covers every unconverted real-money credit, any sequence of grants by
    command ([GrantCredit]), referral grants (by command or when markets are
    paid), credit conversions and collections leaves it so: each promised
    credit can be paid when earned. *)
Theorem reserve_covers_promises `{UuidText} `{HashMapOrder} (db db' : Db) :
  lots_wf (td_funds db) -> solvent (td_funds db) -> rtc credit_step db db' ->
  lots_wf (td_funds db') /\ solvent (td_funds db').
Proof.
  intros W S Hrun. induction Hrun as [db|db db1 db2 Hs Hrun IH]; [done|].
  pose proof (credit_granted _ _ W Hs) as G. apply IH; apply G; done.
Qed.

(** A referral pays once.  After a grant for a bind was executed, asking
    again for the same referee, for whatever market and at whatever time,
    answers with the same transaction and lots, marked as replayed, and
    changes no table; and the hook of a paid market passes the pair over. *)
Theorem referral_pays_once `{UuidText} `{HashMapOrder} (fresh : nat -> nat -> N) (db_now : Z)
    (cmd : GrantReferralCmd) (db db' : Db) (r : GrantReferralReceipt) :
  lots_wf (td_funds db) -> grant_referral fresh db_now cmd db = (Ok r, db') -> gt_replayed r = false ->
  forall fresh' db_now' market' at',
    grant_referral fresh' db_now' (mkGrantReferral (gr_referee cmd) market' at') db' =
      (Ok (mkGrantReceipt (gt_bind_id r) (gt_txn r) (gt_referrer_lot r) (gt_referee_lot r) true), db') /\
    grant_referral_on_paid_in_tx fresh' db_now' at' (gr_referee cmd) market' db' = Ok (false, db').
Proof.
  intros W E Hnew fresh' dn' m' at'.
  destruct (grant_referral_found _ _ _ _ _ _ W E Hnew)
    as (referrer & referee & key & F1 & F2 & F3 & F4 & la & lb & F5 & F6 & F7).
  assert (referee = gr_referee cmd) as ->.
  { unfold referral_pair_matches in F3. by apply andb_true_iff in F3 as [[_ F3%N.eqb_eq]%andb_true_iff _]. }
  split.
  - unfold grant_referral. cbn [gr_referee]. cbv zeta. rewrite F1. cbn [ok_or mbind outcome_bind]. rewrite F2.
    cbn [require_bind_parties ok_or store map_err mbind outcome_bind]. rewrite F3. cbn [negb]. rewrite F4, F5.
    cbn [store map_err mbind outcome_bind atomic]. by rewrite F6, F7.
  - unfold grant_referral_on_paid_in_tx. cbv zeta. rewrite F1, F2.
    cbn [require_bind_parties ok_or mbind outcome_bind]. rewrite F3. cbn [negb]. rewrite F4, F5. done.
Qed.

(** Users 7 and 8 of the small market, after it was paid: 8 referred 7, who
    bought five dollars there; the house has credit and the reserve cash. *)
Definition demo_credit_ledger : PgLedger :=
  {| pg_accounts :=
       [ {| acct_id := 1; acct_type := External; acct_owner := None; acct_currency := Usdc |};
         {| acct_id := 2; acct_type := External; acct_owner := None; acct_currency := UsdcCredit |};
         {| acct_id := 3; acct_type := BonusReserve; acct_owner := None; acct_currency := Usdc |};
         {| acct_id := 4; acct_type := House; acct_owner := None; acct_currency := UsdcCredit |} ];
     pg_txns := [{| txn_id := 1; txn_kind := Seed; txn_key := "seed" |}];
     pg_entries := [ {| entry_txn := 1; entry_account := 1; entry_amount := -50 |};
                     {| entry_txn := 1; entry_account := 3; entry_amount := 50 |};
                     {| entry_txn := 1; entry_account := 2; entry_amount := -50 |};
                     {| entry_txn := 1; entry_account := 4; entry_amount := 50 |} ] |}.

Definition demo_referral_entries : gmap string Value :=
  <["feature_referrals" := JBool true]> (<["referral_min_notional_micro" := JInt 3]>
  (<["credit_referral_referrer_micro" := JInt 20]> (<["credit_referral_referee_micro" := JInt 10]>
  (<["bonus_structure" := JString "real_money"]> (<["bonus_mint_daily_cap_micro" := JInt 100]> demo_gate_entries))))).

Definition demo_referral_db : Db :=
  let b := td_book demo_market_db in
  mkDb (mkFunds demo_credit_ledger {| db_trades := ∅; db_lots := ∅; db_facts := [] |} [] [] [])
    (mkOpsDb 1 [(1, "migration:0008")] demo_referral_entries [] [] [] [] ∅) (td_comp demo_market_db)
    (set_trades [mkTrade 60 7 10 11 None None 1 "buy" 5 9 0 1 100]
      (set_markets {[ 10%N := mkMarketRecord "paid" 1 1 (Some 0) (Some 900) (Some 800) None None None (Some 950) None ]} b))
    ∅ [] (mkReferralDb [] [mkBind 70 8 7 "bind"] {[ 7%N ]} ∅).

Lemma demo_referral_wf : lots_wf (td_funds demo_referral_db) /\ solvent (td_funds demo_referral_db).
Proof.
  split; [|vm_compute; discriminate]. split; [split|]; [|by intros l r..].
  apply (pg_reachable_wf (H := canonical_order)).
  set (l1 := pg_opened 1 pg_empty External None Usdc). set (l2 := pg_opened 2 l1 External None UsdcCredit).
  set (l3 := pg_opened 3 l2 BonusReserve None Usdc). set (l4 := pg_opened 4 l3 House None UsdcCredit).
  eapply rtc_l; [apply (pg_account (H := canonical_order) 1 _ l1 Ref.External Usdc 1); vm_compute; reflexivity|].
  eapply rtc_l; [apply (pg_account (H := canonical_order) 2 _ l2 Ref.External UsdcCredit 2); vm_compute; reflexivity|].
  eapply rtc_l; [apply (pg_account (H := canonical_order) 3 _ l3 Ref.BonusReserve Usdc 3); vm_compute; reflexivity|].
  eapply rtc_l; [apply (pg_account (H := canonical_order) 4 _ l4 Ref.House UsdcCredit 4); vm_compute; reflexivity|].
  eapply rtc_l; [|apply rtc_refl].
  apply (pg_apply (H := canonical_order) 1 l4 _ Seed "seed"
    [{| e_account := 1%N; e_amount := -50 |}; {| e_account := 3%N; e_amount := 50 |};
     {| e_account := 2%N; e_amount := -50 |}; {| e_account := 4%N; e_amount := 50 |}] 1).
  - apply (bool_decide_unpack _). vm_compute. exact I.
  - vm_compute. discriminate.
  - vm_compute. reflexivity.
Qed.

Definition demo_fresh (i n : nat) : N := N.of_nat (100 * (i + 1) + n).
Definition demo_grant : GrantReferralCmd := mkGrantReferral 7 10 960.
Definition demo_granted : Db := (grant_referral (H0 := canonical_order) demo_fresh 960 demo_grant demo_referral_db).2.

Lemma demo_grant_ok :
  grant_referral (H0 := canonical_order) demo_fresh 960 demo_grant demo_referral_db =
    (Ok (mkGrantReceipt 70 304 (Some 305%N) (Some 306%N) false), demo_granted).
Proof.
  unfold demo_granted. refine (pair_run (grant_referral (H0 := canonical_order) demo_fresh 960 demo_grant demo_referral_db)
    (Ok (mkGrantReceipt 70 304 (Some 305%N) (Some 306%N) false)) _). vm_compute. reflexivity.
Qed.

(** Then a sign-up credit by command, and the same again as a replay. *)
Definition demo_signup : GrantCreditCmd := mkGrantCredit 7 15 "signup" RealMoney "v1" "grant-1" 970.
Definition demo_fresh_grant (n : nat) : N := N.of_nat (500 + n).
Definition demo_signed_up : Db :=
  (grant_credit (H0 := canonical_order) demo_fresh_grant (demo_fresh 5) 970 demo_signup demo_granted).2.

(** The command answers, then replays. *)
Example demo_signup_answers :
  (grant_credit (H0 := canonical_order) demo_fresh_grant (demo_fresh 5) 970 demo_signup demo_granted).1 =
    Ok (mkGrantedReceipt 504 503 false) /\
  (grant_credit (H0 := canonical_order) demo_fresh_grant (demo_fresh 5) 970 demo_signup demo_signed_up).1 =
    Ok (mkGrantedReceipt 504 503 true).
Proof. split; vm_compute; reflexivity. Qed.

Lemma demo_signup_reached : rtc (credit_step (H0 := canonical_order)) demo_referral_db demo_signed_up.
Proof.
  unfold demo_signed_up, demo_granted. eapply rtc_l; [apply (step_grant (H0 := canonical_order))|].
  apply rtc_once, (step_grant_credit (H0 := canonical_order)). apply (bool_decide_unpack _). vm_compute. exact I.
Qed.

Lemma reserve_covers_promises_witness :
  promised (td_funds demo_signed_up) = 45 /\ solvent (td_funds demo_signed_up).
Proof.
  split; [vm_compute; reflexivity|].
  exact (proj2 (reserve_covers_promises (H0 := canonical_order) demo_referral_db demo_signed_up
    (proj1 demo_referral_wf) (proj2 demo_referral_wf) demo_signup_reached)).
Defined.

Lemma referral_pays_once_witness :
  (grant_referral (H0 := canonical_order) demo_fresh 999 (mkGrantReferral 7 10 999) demo_granted).1 =
    Ok (mkGrantReceipt 70 304 (Some 305%N) (Some 306%N) true).
Proof.
  destruct (referral_pays_once (H0 := canonical_order) demo_fresh 960 demo_grant demo_referral_db demo_granted
    (mkGrantReceipt 70 304 (Some 305%N) (Some 306%N) false) (proj1 demo_referral_wf) demo_grant_ok eq_refl
    demo_fresh 999 10%N 999) as [E _].
  cbn [gr_referee demo_grant] in E. by rewrite E.
Defined.
