(* ===== verification/Resolve.v ===== *)
(** * Resolve: paying a market

    [application/src/resolve_market.rs] over [pg/resolve_tx.rs]: the curator
    and review checks, the walk of the market's state, the payout hold, the
    decision from the tally, the settlement of all holdings against the escrow,
    the payout transaction, the collection of receivables from recipients, the
    closing of positions, vote scores and reputation, fee allocations and
    referral grants.  An attempt sees two states: [pre], at its first
    enumeration of the participants, and [db], under the market row lock;
    transactions that commit in between may add participants, and then the
    attempt is abandoned and retried.  The headline theorems: what the book
    invariant of trading provides is what settlement needs, so a balanced
    market never fails for incomplete holdings; and paying it empties its
    escrow into the holders' accounts to the last unit. *)

From S2P Require Import Prelude Money Amm Ledger Market Resolution Economy Integrity Chars Errors Credits PgLedger Json Config Fences ConfigStore Compliance Collect Postings Book Referrals.
#[local] Open Scope string_scope.
#[local] Open Scope list_scope.
#[local] Open Scope Z_scope.

(** ** Settlement queries, [pg/resolve_tx.rs] *)

Inductive HoldingOwner := HeldByUser (user : N) | HeldByPool.

Record HoldingRow := mkHolding {
  ho_account : N; ho_owner : HoldingOwner; ho_outcome : N; ho_side : Side; ho_shares : Z }.

(** A row of the union before its index is decoded. *)
Definition user_holding (b : Book) (led : PgLedger) (market : N) (p : PositionRow) :
    option (N * option N * N * Z * Z) :=
  o ← List.find (fun o => (oc_id o =? po_outcome p)%N && (oc_market o =? market)%N) (bk_outcomes b);
  a ← find_owner led (Ref.User (po_user p)) Usdc;
  if po_shares p >? 0 then Some (a, Some (po_user p), po_outcome p, oc_idx o, po_shares p) else None.

Definition pool_holding (b : Book) (pool_account : N) (market : N) (o : OutcomeRow) :
    option (N * option N * N * Z * Z) :=
  r ← bk_reserves b !! oc_id o;
  if (oc_market o =? market)%N && (r >? 0) then Some (pool_account, None, oc_id o, oc_idx o, r) else None.

(** [order by account_id, idx]. *)
Definition holding_le (x y : N * option N * N * Z * Z) : bool :=
  let '(a, _, _, i, _) := x in
  let '(a', _, _, i', _) := y in
  (a <? a')%N || ((a =? a')%N && (i <=? i')).

Definition holding_from_row (x : N * option N * N * Z * Z) : outcome StoreError HoldingRow :=
  let '(a, user, out, idx, shares) := x in
  side ← side_from_idx idx;
  Ok (mkHolding a (match user with Some u => HeldByUser u | None => HeldByPool end) out side shares).

Definition holding_rows (b : Book) (led : PgLedger) (pool_account market : N) :
    list (N * option N * N * Z * Z) :=
  sort_by holding_le
    (omap (fun kp : N * N * PositionRow => user_holding b led market kp.2) (map_to_list (bk_positions b)) ++
     omap (pool_holding b pool_account market) (bk_outcomes b)).

Definition holdings (b : Book) (led : PgLedger) (market : N) : outcome StoreError (list HoldingRow) :=
  pool_account ← ok_or (find_owner led (Ref.MarketPool market) Usdc) (Store.NotFound "market pool account");
  foldM (fun acc x => h ← holding_from_row x; Ok (acc ++ [h])) [] (holding_rows b led pool_account market).

Definition escrow_balance (led : PgLedger) (market : N) : outcome StoreError Z :=
  a ← ok_or (find_owner led (Ref.MarketEscrow market) Usdc) (Store.NotFound "market escrow account");
  bigint (entry_sum led a).

Definition write_outcome_resolution (id : N) (bps redemption : Z) (b : Book) : outcome StoreError Book :=
  if existsb (fun o => (oc_id o =? id)%N) (bk_outcomes b)
  then Ok (set_outcomes (map (fun o => if (oc_id o =? id)%N
             then mkOutcome (oc_id o) (oc_market o) (oc_idx o) (Some bps) (Some redemption) else o)
             (bk_outcomes b)) b)
  else Err (Store.NotFound "outcome").

Record VoteFact := mkVoteFact { vf_vote : N; vf_user : N; vf_side : Side; vf_guess : Z }.

(** Votes of the market joined with their outcomes, [order by seq]. *)
Definition vote_facts (b : Book) (market : N) : outcome StoreError (list VoteFact) :=
  foldM (fun acc v =>
      match vote_outcome b v with
      | None => Ok acc
      | Some o =>
          side ← side_from_idx (oc_idx o);
          guess ← ok_or (checked U8 (vo_guess v)) (Store.Invariant "invalid crowd guess");
          Ok (acc ++ [mkVoteFact (vo_id v) (vo_user v) side guess])
      end) []
    (sort_by (fun v v' => vo_seq v <=? vo_seq v')
       (List.filter (fun v => (vo_market v =? market)%N) (bk_votes b))).

Record VoteScoreUpdate := mkScoreUpdate { su_vote : N; su_score : VoteScore }.

(** The upsert of the batch. *)
Definition save_vote_scores (batch : list VoteScoreUpdate) (b : Book) : Book :=
  set_scores (fold_left (fun m u => <[su_vote u := su_score u]> m) batch (bk_scores b)) b.

Definition voter_ids (b : Book) (market : N) : list N :=
  map vo_user (List.filter (fun v => (vo_market v =? market)%N) (bk_votes b)).

Record ReputationRow := mkReputation { rr_user : N; rr_rep_micro : Z; rr_tier : Z }.

(** The rows of the sorted users; each must have one. *)
Definition reps_for_update (b : Book) (users : list N) : outcome StoreError (list ReputationRow) :=
  if negb (forallb (fun u => bool_decide (is_Some (bk_reputation b !! u))) users)
  then Err (Store.Invariant "voter without reputation row")
  else foldM (fun acc u =>
         r ← user_rep b u;
         Ok (acc ++ [mkReputation u r.1 r.2])) [] users.

(** Every row of the batch must update exactly one row. *)
Definition save_reps (batch : list ReputationRow) (b : Book) : outcome StoreError Book :=
  if forallb (fun r => bool_decide (is_Some (bk_reputation b !! rr_user r))) batch
  then Ok (set_reputation (fold_left (fun m r => <[rr_user r := (rr_rep_micro r, rr_tier r)]> m) batch
             (bk_reputation b)) b)
  else Err (Store.Invariant "reputation update cardinality").

(** [affected_one]. *)
Definition update_market (f : MarketRecord -> MarketRecord) (market : N) (b : Book) : outcome StoreError Book :=
  match bk_markets b !! market with
  | Some r => Ok (set_markets (<[market := f r]> (bk_markets b)) b)
  | None => Err (Store.NotFound "market")
  end.

Definition set_market_state (state : MarketState) : N -> Book -> outcome StoreError Book :=
  update_market (fun r => mkMarketRecord (market_state_name state) (ma_min_votes r) (ma_vote_seq r) (ma_opens_at r)
    (ma_closes_at r) (ma_tally_hidden_at r) (ma_curator_flagged_at r) (ma_integrity_due_at r) (ma_lp_pnl r)
    (ma_settled_at r) (ma_collateral_at_close r)).

Definition clear_curator_flag : N -> Book -> outcome StoreError Book :=
  update_market (fun r => mkMarketRecord (ma_status r) (ma_min_votes r) (ma_vote_seq r) (ma_opens_at r)
    (ma_closes_at r) (ma_tally_hidden_at r) None (ma_integrity_due_at r) (ma_lp_pnl r)
    (ma_settled_at r) (ma_collateral_at_close r)).

Definition set_integrity_due_at (due : option Z) : N -> Book -> outcome StoreError Book :=
  update_market (fun r => mkMarketRecord (ma_status r) (ma_min_votes r) (ma_vote_seq r) (ma_opens_at r)
    (ma_closes_at r) (ma_tally_hidden_at r) (ma_curator_flagged_at r) due (ma_lp_pnl r)
    (ma_settled_at r) (ma_collateral_at_close r)).

Definition set_lp_result (pnl settled : Z) : N -> Book -> outcome StoreError Book :=
  update_market (fun r => mkMarketRecord (ma_status r) (ma_min_votes r) (ma_vote_seq r) (ma_opens_at r)
    (ma_closes_at r) (ma_tally_hidden_at r) (ma_curator_flagged_at r) (ma_integrity_due_at r) (Some pnl)
    (Some settled) (ma_collateral_at_close r)).

Definition set_collateral_at_close (collateral : Z) : N -> Book -> outcome StoreError Book :=
  update_market (fun r => mkMarketRecord (ma_status r) (ma_min_votes r) (ma_vote_seq r) (ma_opens_at r)
    (ma_closes_at r) (ma_tally_hidden_at r) (ma_curator_flagged_at r) (ma_integrity_due_at r) (ma_lp_pnl r)
    (ma_settled_at r) (Some collateral)).

Definition open_interest (b : Book) (market : N) : outcome StoreError Z :=
  bigint (msum (fun k p => if existsb (fun o => (oc_id o =? k.2)%N && (oc_market o =? market)%N) (bk_outcomes b)
                           then po_cost p else 0) (bk_positions b)).

Definition parse_verdict (value : string) : outcome StoreError Verdict :=
  if bool_decide (value = "pass") then Ok Pass
  else if bool_decide (value = "flag") then Ok Flag
  else Err (Store.Invariant "unknown integrity verdict").

Definition integrity_report (b : Book) (market : N) : outcome StoreError (option Verdict) :=
  match bk_reports b !! market with
  | None => Ok None
  | Some value => v ← parse_verdict value; Ok (Some v)
  end.

Definition pool_seeded_micro (b : Book) (market : N) : outcome StoreError Z :=
  ok_or (pl_seeded <$> bk_pools b !! market) (Store.NotFound "pool").

Definition record_lifecycle_command (key : string) (c : LifecycleCommand) (b : Book) : outcome StoreError Book :=
  if bool_decide (is_Some (bk_lifecycle b !! key)) then Err (Store.Integrity "lifecycle_commands_pkey")
  else Ok (set_lifecycle (<[key := c]> (bk_lifecycle b)) b).

(** [Tally::total] and [Tally::actual_yes_bps]. *)
Definition tally_total_votes (t : Tally) : outcome AppError Z := arith I64 (yes_votes t + no_votes t).

Definition actual_yes_bps (t : Tally) : outcome AppError (option Z) :=
  total ← tally_total_votes t;
  if total =? 0 then Ok None else
  scaled ← arith I128 (yes_votes t * 10000);
  bps ← sdiv I128 scaled total;
  Ok (checked U16 bps).

(** ** The use case *)

Inductive CuratorDecision := ResolveAtTally | VoidDecision.

#[export] Instance CuratorDecision_eq_dec : EqDecision CuratorDecision.
Proof. solve_decision. Defined.

Record ResolveMarketCmd := mkResolve { rs_market : N; rs_override : option CuratorDecision }.

Inductive ResolveOutcome := Settled | HeldForReview (due_at : Z) | CuratorRequired | VoidedOutcome.

Record ResolveReceipt := mkResolveReceipt {
  ro_market : N; ro_outcome : ResolveOutcome; ro_final_yes_bps : option Z; ro_ledger_txn : option N;
  ro_replayed : bool }.

Record IntegritySweepConfig := mkSweepConfig {
  sw_payout_hold_threshold_micro : Z; sw_sweep_delay_secs : Z; sw_burst_window_secs : Z;
  sw_prior_horizon_windows : Z; sw_burst_multiplier_ppm : Z; sw_young_account_age_secs : Z;
  sw_young_account_share_max_ppm : Z; sw_subnet_share_max_ppm : Z; sw_device_share_max_ppm : Z;
  sw_min_votes_for_ratios : Z; sw_min_metadata_coverage_ppm : Z }.

(** [sort_unstable_by_key] and [dedup]. *)
Definition sorted_ids (l : list N) : list N := sort_by N.leb (distinct_ids l).

Definition settlement_entries (escrow_account fees_account : N) (s : Settlement) :
    outcome AppError (list Entry) :=
  '(entries, total) ← foldM (fun acc (ap : N * Z) =>
      total ← ok_or (checked I64 (acc.2 + ap.2)) App.Overflow;
      Ok (if negb (ap.2 =? 0) then (acc.1 ++ [{| e_account := ap.1; e_amount := ap.2 |}], total)
          else (acc.1, total))) ([], 0) (st_payouts s);
  let entries := if negb (st_dust s =? 0)
                 then entries ++ [{| e_account := fees_account; e_amount := st_dust s |}] else entries in
  total ← ok_or (checked I64 (total + st_dust s)) App.Overflow;
  if negb (total =? 0) then
    neg ← arith I64 (- total);
    Ok (entries ++ [{| e_account := escrow_account; e_amount := neg |}])
  else Ok entries.

Record ResolutionParticipants := mkParticipants { pa_voters : list N; pa_all : list N }.

Definition holder_of (h : HoldingRow) : option N :=
  match ho_owner h with HeldByUser u => Some u | HeldByPool => None end.

Definition resolution_participants (market : N) (db : Db) : outcome StoreError ResolutionParticipants :=
  let voters := sorted_ids (voter_ids (td_book db) market) in
  referral ← referral_relevant_users market db;
  held ← holdings (td_book db) (fu_ledger (td_funds db)) market;
  Ok (mkParticipants voters (sorted_ids (voters ++ referral ++ omap holder_of held))).

(** The curator and review checks. *)
Definition check_review (cmd : ResolveMarketCmd) (m : MarketRow) (b : Book) : outcome AppError unit :=
  if bool_decide (mk_state m = Resolving) then
    match mk_curator_flagged_at m with
    | Some _ => if bool_decide (rs_override cmd = None) then Err App.CuratorRequired else Ok tt
    | None =>
        if bool_decide (rs_override cmd <> None) then Err App.CuratorOverrideNotAllowed else
        report ← store (integrity_report b (rs_market cmd));
        match report with Some Pass => Ok tt | _ => Err App.UnderReview end
    end
  else if bool_decide (rs_override cmd <> None) then Err App.CuratorOverrideNotAllowed else Ok tt.

Definition illegal {A} (m : outcome TransitionError A) : outcome AppError A :=
  map_err (fun _ => App.IllegalTransition) m.

(** The walk into [Resolving]. *)
Definition enter_resolving (cmd : ResolveMarketCmd) (m : MarketRow) (b : Book) :
    outcome AppError (MarketState * Book) :=
  if bool_decide (mk_state m = Resolving) then Ok (Resolving, b) else
  next ← illegal (transition (mk_state m) StartIntegritySweep);
  b ← store (set_market_state next (rs_market cmd) b);
  Ok (next, b).

(** The D21 decision. *)
Definition decide_outcome (t : Tally) (min_votes interest oi_floor : Z) : outcome AppError (bool * Z) :=
  bps ← actual_yes_bps t;
  total ← tally_total_votes t;
  match bps with
  | Some bps =>
      if min_votes <=? total then Ok (false, bps) else
      if interest <? oi_floor then Ok (true, 5000) else Err App.NeedsCuratorDecision
  | None => if interest <? oi_floor then Ok (true, 5000) else Err App.NeedsCuratorDecision
  end.

Definition final_decision (cmd : ResolveMarketCmd) (t : Tally) (min_votes interest oi_floor : Z) :
    outcome AppError (bool * Z) :=
  match rs_override cmd with
  | Some ResolveAtTally =>
      found ← actual_yes_bps t;
      bps ← ok_or found App.NeedsCuratorDecision;
      Ok (false, bps)
  | Some VoidDecision => Ok (true, 5000)
  | None => decide_outcome t min_votes interest oi_floor
  end.

Definition settlement_input (held : list HoldingRow) : list (AccountId * Side * Z) :=
  map (fun h => (ho_account h, ho_side h, ho_shares h)) held.

(** The users a payout reaches. *)
Definition payout_users (held : list HoldingRow) (payouts : list (N * Z)) : list N :=
  sorted_ids (omap (fun hp : HoldingRow * (N * Z) =>
    match ho_owner hp.1 with
    | HeldByUser u => if hp.2.2 >? 0 then Some u else None
    | HeldByPool => None
    end) (combine held payouts)).

(** The identifiers one attempt draws: accounts and payout transaction, the
    collections by recipient, the fee allocations, and the referral grants. *)
Record ResolveIds := mkResolveIds {
  ri_main : nat -> N; ri_collect : nat -> nat -> N; ri_move : nat -> N; ri_grant : nat -> nat -> nat -> N }.

Definition debug_state (s : MarketState) : string :=
  match s with
  | Draft => "Draft" | Scheduled => "Scheduled" | Live => "Live" | Closing => "Closing" | Closed => "Closed"
  | Resolving => "Resolving" | Resolved => "Resolved" | Paid => "Paid" | Voided => "Voided"
  end.

Section ResolveMarket.
Context `{UuidText} `{HashMapOrder}.
(** [ResolveConfig], [RepConfig] and [IntegritySweepConfig]. *)
Context (oi_floor : Z) (rep_config : RepConfig) (sweep : IntegritySweepConfig).
(** The injected crash point. *)
Context (crash_point : outcome StoreError unit).
Context (actor : AdminContext).
(** The JSON of an [OffsetDateTime], crate [time]. *)
Context (time_json : Z -> Value).

Definition resolve_key (m : N) : string := "resolve:" +:+ uuid_text m.

Definition append_event (e : Event) (db : Db) : Db := set_ops (outbox_append e (td_ops db)) db.

(** The audit fact of an admin actor. *)
Definition audit_resolution (market : N) (before : MarketState) (after : Value) (db : Db) : Db :=
  match actor with
  | Machine => db
  | Admin digest role =>
      set_ops (audit_insert (mkAdminAction role digest "resolve_market" ("market:" +:+ uuid_text market)
        (Some (JObject [("state", JString (debug_state before))])) (Some after) None) (td_ops db)) db
  end.

(** A market at or above the hold threshold waits for its integrity sweep. *)
Definition hold_for_review (now : Z) (m : MarketRow) (resolving : MarketState) (db : Db) :
    outcome AppError (ResolveReceipt * Db) :=
  let market := mk_id m in
  delay ← ok_or (checked I64 (sw_sweep_delay_secs sweep)) App.Overflow;
  due ← datetime (now + delay);
  b ← store (set_integrity_due_at (Some due) market (td_book db));
  b ← store (record_lifecycle_command ("sweep:" +:+ uuid_text market)
               (mkLifecycle market StartIntegritySweep resolving) b);
  let db := append_event (mkEvent "MarketAdvanced" "market" market
     (JObject [("event", JString "StartIntegritySweep"); ("from", JString "Closed");
               ("integrity_due_at", time_json due); ("to", JString "Resolving")])) (set_book b db) in
  let db := audit_resolution market (mk_state m)
     (JObject [("integrity_due_at", time_json due); ("outcome", JString "held_for_review")]) db in
  Ok (mkResolveReceipt market (HeldForReview due) None None false, db).

(** The payout transaction. *)
Definition post_payout (fresh : nat -> N) (market : N) (s : Settlement) (led : PgLedger) :
    outcome AppError (N * PgLedger) :=
  '(led, escrow_acct) ← store (account (fresh 0%nat) led (Ref.MarketEscrow market) Usdc);
  '(led, fees_acct) ← store (account (fresh 1%nat) led Ref.Fees Usdc);
  entries ← settlement_entries escrow_acct fees_acct s;
  '(led, txn) ← store (ledger_apply (fresh 2%nat) led Payout (resolve_key market) entries);
  Ok (txn, led).

(** Receivables of the recipients, user by user. *)
Fixpoint collect_payouts (fresh : nat -> nat -> N) (i : nat) (market : N) (users : list N) (f : Funds) :
    outcome AppError Funds :=
  match users with
  | [] => Ok f
  | u :: rest =>
      '(_, f) ← auto_collect (fresh i) u ("payout:" +:+ uuid_text market +:+ ":" +:+ uuid_text u)
                  "machine:resolution" f;
      collect_payouts fresh (S i) market rest f
  end.

(** One holding of the closing loop; the pool's payouts are summed. *)
Definition close_holding (market : N) (voided : bool) (txn : N) (settled_at : Z) (acc : Z * Db)
    (hp : HoldingRow * (N * Z)) : outcome AppError (Z * Db) :=
  let '(pool_payout, db) := acc in
  let '(h, (_, payout)) := hp in
  match ho_owner h with
  | HeldByPool =>
      sum ← ok_or (checked I64 (pool_payout + payout)) App.Overflow;
      Ok (sum, db)
  | HeldByUser user =>
      p ← ok_or (position_for_update (td_book db) user (ho_outcome h))
            (App.Store (Store.Invariant "settled holding without position"));
      delta ← ok_or (checked I64 (payout - po_cost p)) App.Overflow;
      realized ← ok_or (checked I64 (po_realized_pnl p + delta)) App.Overflow;
      b ← store (save_position (mkPosition (po_user p) (po_outcome p) 0 0 realized) (td_book db));
      db ← store (insert_realization (mkRealization user market (ho_outcome h)
                    (if voided then VoidSource else SettlementSource) delta payout txn settled_at)
                    (set_book b db));
      Ok (pool_payout, db)
  end.

Definition close_holdings (market : N) (voided : bool) (txn : N) (settled_at : Z) (held : list HoldingRow)
    (payouts : list (N * Z)) (db : Db) : outcome AppError (Z * Db) :=
  foldM (close_holding market voided txn settled_at) (0, db) (combine held payouts).

(** Scores of the votes. *)
Definition score_facts (final_bps : Z) (facts : list VoteFact) : outcome AppError (list VoteScoreUpdate) :=
  foldM (fun acc f =>
      s ← map_err App.Scoring (score_vote (vf_side f) (vf_guess f) final_bps);
      Ok (acc ++ [mkScoreUpdate (vf_vote f) s])) [] facts.

Definition rep_updated_event (market : N) (row : ReputationRow) (rep tier : Z) : Event :=
  mkEvent "RepUpdated" "user" (rr_user row)
    (JObject [("market_id", JString (uuid_text market)); ("previous_tier", JInt (rr_tier row));
              ("rep_micro", JInt rep); ("tier", JInt tier); ("user_id", JString (uuid_text (rr_user row)))]).

(** The reputation each locked row moves to, and the events of changed tiers. *)
Definition updated_reps (market : N) (by_user : gmap N VoteScore) (rows : list ReputationRow) :
    outcome StoreError (list ReputationRow * list Event) :=
  foldM (fun acc row =>
      score ← ok_or (by_user !! rr_user row) (Store.Invariant "voter score missing");
      score_micro ← arith I64 (score_bp score * 100);
      rep ← map_err (fun _ => Store.Invariant "invalid reputation operand")
              (update_rep (rr_rep_micro row) score_micro (rep_half_life rep_config));
      tier ← lift_total (tier_for rep (tier_thresholds_micro rep_config));
      Ok (acc.1 ++ [mkReputation (rr_user row) rep tier],
          if tier =? rr_tier row then acc.2 else acc.2 ++ [rep_updated_event market row rep tier]))
    ([], []) rows.

(** Scores and reputation of a resolved market. *)
Definition score_voters (m : MarketRow) (t : Tally) (final_bps escrow : Z) (locked : list ReputationRow)
    (db : Db) : outcome AppError (list Event * Db) :=
  facts ← store (vote_facts (td_book db) (mk_id m));
  scores ← score_facts final_bps facts;
  let b := save_vote_scores scores (td_book db) in
  total ← tally_total_votes t;
  if (mk_min_votes m <=? total) && (rep_score_min_pot_micro rep_config <=? escrow) then
    let by_user := fold_left (fun acc fs => <[vf_user fs.1 := su_score fs.2]> acc) (combine facts scores) ∅ in
    '(updated, events) ← store (updated_reps (mk_id m) by_user locked);
    b ← store (save_reps updated b);
    Ok (events, set_book b db)
  else Ok ([], set_book b db).

(** The final state, and what only a paid market triggers. *)
Definition finish_state (ids : ResolveIds) (db_now : Z) (cmd : ResolveMarketCmd) (resolving : MarketState)
    (voided : bool) (db : Db) : outcome AppError (ResolveOutcome * Db) :=
  let market := rs_market cmd in
  if voided then
    let event := if bool_decide (rs_override cmd = Some VoidDecision) then VoidByAdmin else VoidLowParticipation in
    next ← illegal (transition resolving event);
    b ← store (set_market_state next market (td_book db));
    Ok (VoidedOutcome, set_book b db)
  else
    resolved ← illegal (transition resolving Resolve);
    b ← store (set_market_state resolved market (td_book db));
    paid ← illegal (transition resolved Pay);
    b ← store (set_market_state paid market b);
    '(credits, _) ← store (move_market_allocations (ri_move ids) (fu_credits (td_funds db)) market Finalized);
    let db := set_funds (set_credits credits (td_funds db)) (set_book b db) in
    '(_, db) ← store (grant_referrals_on_paid (ri_grant ids) db_now market db);
    Ok (Settled, db).

Definition market_event (market : N) (voided : bool) (final_bps : Z) (txn : N) (yes_redemption no_redemption : Z) : Event :=
  mkEvent (if voided then "MarketVoided" else "MarketResolved") "market" market
    (JObject [("final_vote_bps", JInt final_bps); ("ledger_txn", JString (uuid_text txn));
              ("redemption_no_micro", JInt no_redemption); ("redemption_yes_micro", JInt yes_redemption);
              ("voided", JBool voided)]).

(** Everything after the payout posting. *)
Definition settle_rows (ids : ResolveIds) (db_now now : Z) (cmd : ResolveMarketCmd) (m : MarketRow)
    (resolving : MarketState) (voided : bool) (final_bps escrow : Z) (t : Tally) (held : list HoldingRow)
    (s : Settlement) (txn : N) (locked : list ReputationRow) (db : Db) :
    outcome AppError (ResolveReceipt * Db) :=
  let market := rs_market cmd in
  funds ← collect_payouts (ri_collect ids) 0 market (payout_users held (st_payouts s)) (td_funds db);
  b ← store (set_collateral_at_close escrow market (td_book db));
  '(pool_payout, db) ← close_holdings market voided txn now held (st_payouts s) (set_book b (set_funds funds db));
  seeded ← store (pool_seeded_micro (td_book db) market);
  lp_pnl ← ok_or (checked I64 (pool_payout - seeded)) App.Overflow;
  b ← store (set_lp_result lp_pnl now market (td_book db));
  '(yes_redemption, no_redemption) ← map_err App.Resolution (redemptions final_bps);
  b ← store (write_outcome_resolution (mk_yes_outcome m) final_bps yes_redemption b);
  no_bps ← arith U16 (10000 - final_bps);
  b ← store (write_outcome_resolution (mk_no_outcome m) no_bps no_redemption b);
  let db := set_book b db in
  '(rep_events, db) ← (if voided then Ok ([], db) else score_voters m t final_bps escrow locked db);
  '(out, db) ← finish_state ids db_now cmd resolving voided db;
  b ← (if bool_decide (rs_override cmd = None) then Ok (td_book db)
       else store (clear_curator_flag market (td_book db)));
  let db := fold_left (fun db e => append_event e db)
              (rep_events ++ [market_event market voided final_bps txn yes_redemption no_redemption])
              (set_book b db) in
  let db := audit_resolution market (mk_state m)
              (JObject [("final_yes_bps", JInt final_bps); ("voided", JBool voided)]) db in
  Ok (mkResolveReceipt market out (Some final_bps) (Some txn) false, db).

(** The decision, the settlement and the payout of a market that is not held. *)
Definition settle_now (ids : ResolveIds) (db_now now : Z) (cmd : ResolveMarketCmd) (m : MarketRow)
    (resolving : MarketState) (escrow : Z) (locked : list ReputationRow) (db : Db) :
    outcome AppError (ResolveReceipt * Db) :=
  let market := rs_market cmd in
  let t := tally (td_book db) market in
  interest ← store (open_interest (td_book db) market);
  '(voided, final_bps) ← final_decision cmd t (mk_min_votes m) interest oi_floor;
  held ← store (holdings (td_book db) (fu_ledger (td_funds db)) market);
  s ← map_err App.Resolution (settle_market (settlement_input held) final_bps escrow);
  '(txn, led) ← post_payout (ri_main ids) market s (fu_ledger (td_funds db));
  _ ← store crash_point;
  settle_rows ids db_now now cmd m resolving voided final_bps escrow t held s txn locked
    (set_funds (set_ledger led (td_funds db)) db).

(** From the market row lock on. *)
Definition resolve_locked (ids : ResolveIds) (db_now now : Z) (cmd : ResolveMarketCmd) (m : MarketRow)
    (locked : list ReputationRow) (db : Db) : outcome AppError (ResolveReceipt * Db) :=
  _ ← check_review cmd m (td_book db);
  '(resolving, b) ← enter_resolving cmd m (td_book db);
  let db := set_book b db in
  escrow ← store (escrow_balance (fu_ledger (td_funds db)) (rs_market cmd));
  if bool_decide (mk_state m = Closed) && (sw_payout_hold_threshold_micro sweep <=? escrow)
  then hold_for_review now m resolving db
  else settle_now ids db_now now cmd m resolving escrow locked db.

Definition replay_receipt (market txn : N) (db : Db) : outcome AppError ResolveReceipt :=
  row ← store (market_for_update (td_book db) market);
  '(out, final_bps) ← (match mk_state row with
     | Voided => Ok (VoidedOutcome, 5000)
     | Paid =>
         found ← actual_yes_bps (tally (td_book db) market);
         bps ← ok_or found (App.Store (Store.Invariant "paid market without a tally"));
         Ok (Settled, bps)
     | _ => Err (App.Store (Store.Invariant "resolve key exists but market is not settled"))
     end);
  Ok (mkResolveReceipt market out (Some final_bps) (Some txn) true).

(** One attempt: [pre] is the state at its first reads, [db] the state under
    the participants' and the market's locks.  [None]: the participant set grew
    in between, and the transaction is dropped. *)
Definition resolve_attempt (ids : ResolveIds) (db_now now : Z) (cmd : ResolveMarketCmd) (pre db : Db) :
    outcome AppError (option (ResolveReceipt * Db)) :=
  let market := rs_market cmd in
  match txn_by_key (fu_ledger (td_funds pre)) (resolve_key market) with
  | Some txn => r ← replay_receipt market txn pre; Ok (Some (r, pre))
  | None =>
      prelock ← store (resolution_participants market pre);
      locked ← store (reps_for_update (td_book db) (pa_all prelock));
      m ← store (market_for_update (td_book db) market);
      postlock ← store (resolution_participants market db);
      if negb (forallb (fun u => existsb (N.eqb u) (pa_all prelock)) (pa_all postlock)) then Ok None else
      let locked := List.filter (fun row => existsb (N.eqb (rr_user row)) (pa_voters postlock)) locked in
      r ← resolve_locked ids db_now now cmd m locked db;
      Ok (Some r)
  end.

Definition RESOLUTION_PARTICIPANT_LOCK_ATTEMPTS : nat := 4.

(** The attempts, each on the states its reads meet. *)
Fixpoint resolve_attempts (n : nat) (ids : ResolveIds) (db_now now : Z) (cmd : ResolveMarketCmd)
    (states : nat -> Db * Db) : outcome AppError (ResolveReceipt * Db) :=
  match n with
  | O => Err (App.Store (Store.Invariant "resolution participant set did not stabilize"))
  | S k =>
      let '(pre, db) := states (RESOLUTION_PARTICIPANT_LOCK_ATTEMPTS - n)%nat in
      r ← resolve_attempt ids db_now now cmd pre db;
      match r with Some r => Ok r | None => resolve_attempts k ids db_now now cmd states end
  end.

(** [ResolveMarket::execute] on tables no other transaction changes meanwhile. *)
Definition resolve_market (ids : ResolveIds) (db_now now : Z) (cmd : ResolveMarketCmd) (db : Db) :
    outcome AppError ResolveReceipt * Db :=
  atomic db (resolve_attempts RESOLUTION_PARTICIPANT_LOCK_ATTEMPTS ids db_now now cmd (fun _ => (db, db))).
End ResolveMarket.
