(* ===== verification/Settlement.v ===== *)
(** * Settlement: what resolving a market does to the books

    Proofs about [Resolve.v].  Part one joins trading and settlement: on tables
    in which the book of a market is balanced, the holdings the settlement
    query returns are complete, so [settle_market] accepts them at every result
    and never reports [HoldingsIncomplete].  Part two follows the payout
    through all writes of the use case: the escrow of the market is emptied to
    the last unit, every position in it is closed, and nothing of any other
    market moves.  Part three is the replay. *)

From S2P Require Import Prelude Money Amm Ledger Market Resolution Economy Integrity Chars Errors Credits PgLedger Json Config Fences ConfigStore Compliance Collect Postings Book Trade Referrals Resolve.
#[local] Open Scope string_scope.
#[local] Open Scope list_scope.
#[local] Open Scope Z_scope.

(** ** Lemmas: the settlement query *)

Lemma zsum_omap {A B} (f : A -> option B) (g : B -> Z) l :
  zsum (map g (omap f l)) = zsum (map (fun x => from_option g 0 (f x)) l).
Proof. induction l as [|x l IH]; cbn; [done|]. destruct (f x); cbn; by rewrite IH. Qed.

(** In a list with distinct keys one element carries the whole sum. *)
Lemma zsum_at {A B} (key : A -> B) (f : A -> Z) l x :
  NoDup (map key l) -> x ∈ l -> (forall y, y ∈ l -> key y <> key x -> f y = 0) -> zsum (map f l) = f x.
Proof.
  intros Hn Hx Hf. apply list_elem_of_split in Hx as (l1 & l2 & ->).
  rewrite map_app in Hn. apply NoDup_app in Hn as (_ & Hd & [Hk _]%NoDup_cons).
  rewrite map_app, zsum_app. cbn. rewrite !zsum_none; [lia|..].
  - intros y Hy. apply Hf; [by rewrite elem_of_app, elem_of_cons; auto|]. intros E. apply Hk. rewrite <- E.
    by apply list_elem_of_fmap_2.
  - intros y Hy. apply Hf; [by rewrite elem_of_app; auto|]. intros E.
    apply (Hd (key y)); [by apply list_elem_of_fmap_2|]. rewrite E. left.
Qed.

Lemma Forall2_elem_l {A B} (R : A -> B -> Prop) l k x : Forall2 R l k -> x ∈ l -> exists y, y ∈ k /\ R x y.
Proof.
  induction 1 as [|a b l k Hab _ IH]; [by intros ?%elem_of_nil|].
  intros [->|Hx]%elem_of_cons; [exists b|destruct (IH Hx) as (y & ? & ?); exists y]; by rewrite elem_of_cons; auto.
Qed.

Lemma Forall2_elem_r {A B} (R : A -> B -> Prop) l k y : Forall2 R l k -> y ∈ k -> exists x, x ∈ l /\ R x y.
Proof. intros H%Forall2_flip Hy. by apply (Forall2_elem_l _ _ _ _ H). Qed.

(** A loop that appends one decoded value per row. *)
Lemma foldM_decode {E A B} (f : A -> outcome E B) l r acc :
  foldM (fun acc x => y ← f x; Ok (acc ++ [y])) acc l = Ok r ->
  exists out, r = acc ++ out /\ Forall2 (fun x y => f x = Ok y) l out.
Proof.
  revert acc. induction l as [|x l IH]; intros acc; cbn; [intros [= ->]; exists []; by rewrite app_nil_r|].
  intros (a & (y & Hy & [= <-])%bind_Ok & Hr)%bind_Ok. apply IH in Hr as (out & -> & Ho).
  exists (y :: out). rewrite <- app_assoc. by split; [|constructor].
Qed.

Definition row_shares (i : Z) (x : N * option N * N * Z * Z) : Z := if x.1.2 =? i then x.2 else 0.

Lemma side_idx_inv i side : side_from_idx i = Ok side <-> i = side_idx side.
Proof.
  unfold side_from_idx. destruct (Z.eqb_spec i 0) as [->|]; [split; [by intros [= <-]|by destruct side]|].
  destruct (Z.eqb_spec i 1) as [->|]; [split; [by intros [= <-]|by destruct side]|].
  split; [done|]. by intros ->; destruct side.
Qed.

Lemma presented_rows rows held side :
  Forall2 (fun x h => holding_from_row x = Ok h) rows held ->
  presented_on side (settlement_input held) = zsum (map (row_shares (side_idx side)) rows).
Proof.
  induction 1 as [|x h rows held Hx _ IH]; [done|]. cbn [settlement_input map]. rewrite presented_on_cons.
  unfold settlement_input in IH. rewrite IH. cbn [map zsum foldr]. f_equal.
  destruct x as [[[[a u] out] i] sh]. cbn in Hx. apply bind_Ok in Hx as (s & ->%side_idx_inv & [= <-]). cbn.
  unfold row_shares, h_side, h_shares. cbn. by destruct s, side.
Qed.

(** The outcome row of an index. *)
Lemma outcome_of_row b m i out o :
  book_wf b -> outcome_of b m i = Some out -> o ∈ bk_outcomes b -> oc_market o = m ->
  oc_idx o = i <-> oc_id o = out.
Proof.
  intros W (o' & Ho' & <- & <- & <-)%outcome_of_elem Ho Hm. split; intros E.
  - f_equal. apply (nodup_map_inj _ _ _ _ (bw_slots _ W)); congruence.
  - f_equal. by apply (nodup_map_inj _ _ _ _ (bw_outcomes _ W)).
Qed.

(** The rows of the users present what the positions of the outcome hold. *)
Lemma user_rows_sum b led m i out :
  book_wf b -> outcome_of b m i = Some out ->
  (forall k p, bk_positions b !! k = Some p -> is_Some (find_owner led (Ref.User k.1) Usdc)) ->
  zsum (map (row_shares i) (omap (fun kp : N * N * PositionRow => user_holding b led m kp.2)
                              (map_to_list (bk_positions b)))) = held_shares b out.
Proof.
  intros W Hout Hbank. rewrite zsum_omap.
  apply (msum_ext (fun _ p => from_option (row_shares i) 0 (user_holding b led m p))). intros k p Hp.
  destruct (bw_positions _ W _ _ Hp) as [-> Hs]. destruct (Hbank _ _ Hp) as [a Ha]. cbn [fst snd] in *.
  unfold user_holding. destruct (List.find _ _) as [o|] eqn:Ef; cbn [mbind option_bind from_option].
  - apply find_by in Ef as [Ho [Hid%N.eqb_eq Hm%N.eqb_eq]%andb_true_iff]. rewrite Ha. cbn.
    pose proof (outcome_of_row _ _ _ _ _ W Hout Ho Hm) as Hrow. rewrite Z.gtb_ltb.
    destruct (Z.ltb_spec 0 (po_shares p)) as [Hpos|]; cbn; [|case_if; lia]. unfold row_shares. cbn.
    destruct (Z.eqb_spec (oc_idx o) i), (N.eqb_spec (po_outcome p) out); try done; exfalso; naive_solver congruence.
  - destruct (N.eqb_spec (po_outcome p) out) as [E|]; [|done]. exfalso.
    apply find_none_by in Ef. rewrite Forall_forall in Ef.
    apply outcome_of_elem in Hout as (o & Ho & Hid & Hm & _). specialize (Ef o Ho). cbn in Ef.
    by rewrite Hid, Hm, E, !N.eqb_refl in Ef.
Qed.

(** The rows of the pool present its reserve of the outcome. *)
Lemma pool_rows_sum b acct m i out r :
  book_wf b -> outcome_of b m i = Some out -> bk_reserves b !! out = Some r ->
  zsum (map (row_shares i) (omap (pool_holding b acct m) (bk_outcomes b))) = r.
Proof.
  intros W Hout Hr. rewrite zsum_omap.
  pose proof (outcome_of_elem _ _ _ _ Hout) as (o & Ho & Hid & Hm & Hi).
  rewrite (zsum_at _ _ _ o (bw_slots _ W) Ho).
  - unfold pool_holding. rewrite Hid, Hr. cbn. rewrite Hm, N.eqb_refl. cbn [andb]. rewrite Z.gtb_ltb.
    apply (bw_reserves _ W) in Hr. destruct (Z.ltb_spec 0 r); cbn; [|lia]. unfold row_shares. cbn.
    by rewrite Hi, Z.eqb_refl.
  - intros y Hy Hne. unfold pool_holding. destruct (bk_reserves b !! oc_id y); cbn; [|done].
    destruct (N.eqb_spec (oc_market y) m) as [E|]; cbn; [|done]. destruct (_ >? 0); cbn; [|done].
    unfold row_shares. cbn. destruct (Z.eqb_spec (oc_idx y) i); [|done]. destruct Hne. congruence.
Qed.

(** What a holding stands for in the tables. *)
Definition holding_ok (b : Book) (led : PgLedger) (m : N) (h : HoldingRow) : Prop :=
  0 < ho_shares h /\ (exists o, o ∈ bk_outcomes b /\ oc_id o = ho_outcome h /\ oc_market o = m) /\
  match ho_owner h with
  | HeldByUser u => find_owner led (Ref.User u) Usdc = Some (ho_account h) /\
      exists p, bk_positions b !! (u, ho_outcome h) = Some p /\ po_shares p = ho_shares h
  | HeldByPool => find_owner led (Ref.MarketPool m) Usdc = Some (ho_account h)
  end.

Lemma holdings_Ok b led m held :
  holdings b led m = Ok held ->
  exists acct, find_owner led (Ref.MarketPool m) Usdc = Some acct /\
    Forall2 (fun x h => holding_from_row x = Ok h) (holding_rows b led acct m) held.
Proof.
  intros (acct & Ha%ok_or_Ok & Hr)%bind_Ok. apply foldM_decode in Hr as (out & -> & Hf). by exists acct.
Qed.

Lemma holdings_ok b led m held :
  book_wf b -> holdings b led m = Ok held -> Forall (holding_ok b led m) held.
Proof.
  intros W (acct & Ha & Hf)%holdings_Ok. apply Forall_forall. intros h Hh.
  destruct (Forall2_elem_r _ _ _ _ Hf Hh) as (x & Hx & Hdec). unfold holding_rows in Hx.
  rewrite sort_by_perm, elem_of_app, !list_elem_of_omap in Hx.
  destruct Hx as [([k p] & Hp%elem_of_map_to_list & Hx)|(o & Ho & Hx)].
  - cbn in Hx. unfold user_holding in Hx. destruct (List.find _ _) as [o|] eqn:Ef; [|done]. cbn in Hx.
    apply find_by in Ef as [Ho [Hid%N.eqb_eq Hm%N.eqb_eq]%andb_true_iff].
    destruct (find_owner led _ _) as [a|] eqn:Eo in Hx; [|done]. cbn in Hx.
    destruct (po_shares p >? 0) eqn:G; [|done]. injection Hx as <-. apply bind_Ok in Hdec as (s & _ & [= <-]).
    apply Z.gtb_lt in G. destruct (bw_positions _ W _ _ Hp) as [-> _]. unfold holding_ok. cbn. split_and!; eauto.
  - unfold pool_holding in Hx. destruct (bk_reserves b !! oc_id o) as [r|]; [|done]. cbn in Hx.
    destruct (_ && _) eqn:G in Hx; [|done]. apply andb_true_iff in G as [Hm%N.eqb_eq Hr%Z.gtb_lt].
    injection Hx as <-. apply bind_Ok in Hdec as (s & _ & [= <-]). unfold holding_ok. cbn. split_and!; eauto.
Qed.

(** Every open position in the market is among the holdings. *)
Lemma holdings_all b led m held u o p :
  book_wf b -> holdings b led m = Ok held ->
  (forall k p, bk_positions b !! k = Some p -> is_Some (find_owner led (Ref.User k.1) Usdc)) ->
  o ∈ bk_outcomes b -> oc_market o = m -> bk_positions b !! (u, oc_id o) = Some p -> 0 < po_shares p ->
  exists h, h ∈ held /\ ho_owner h = HeldByUser u /\ ho_outcome h = oc_id o.
Proof.
  intros W (acct & _ & Hf)%holdings_Ok Hbank Ho Hm Hp Hpos. destruct (Hbank _ _ Hp) as [a Ha].
  destruct (bw_positions _ W _ _ Hp) as [[= Hu Hi] _].
  assert (Hx : (a, Some u, oc_id o, oc_idx o, po_shares p) ∈ holding_rows b led acct m).
  { unfold holding_rows. rewrite sort_by_perm, elem_of_app. left. apply list_elem_of_omap.
    exists (u, oc_id o, p). split; [by apply elem_of_map_to_list|]. cbn. unfold user_holding. rewrite <- Hi, <- Hu.
    destruct (List.find _ _) as [o'|] eqn:Ef.
    - apply find_by in Ef as [Ho' [Hid%N.eqb_eq _]%andb_true_iff].
      assert (o' = o) as -> by by apply (nodup_map_inj _ _ _ _ (bw_outcomes _ W)). cbn in *. rewrite Ha. cbn.
      by rewrite (proj2 (Z.gtb_lt _ _)).
    - apply find_none_by in Ef. rewrite Forall_forall in Ef. specialize (Ef o Ho). cbn in Ef.
      by rewrite Hm, !N.eqb_refl in Ef. }
  destruct (Forall2_elem_l _ _ _ _ Hf Hx) as (h & Hh & Hdec). exists h. split; [done|].
  cbn in Hdec. by apply bind_Ok in Hdec as (s & _ & [= <-]).
Qed.

Lemma holdings_presented b led m held side out r :
  book_wf b -> holdings b led m = Ok held ->
  (forall k p, bk_positions b !! k = Some p -> is_Some (find_owner led (Ref.User k.1) Usdc)) ->
  outcome_of b m (side_idx side) = Some out -> bk_reserves b !! out = Some r ->
  presented_on side (settlement_input held) = held_shares b out + r.
Proof.
  intros W (acct & _ & Hf)%holdings_Ok Hbank Hout Hr. rewrite (presented_rows _ _ _ Hf). unfold holding_rows.
  rewrite (zsum_perm _ _ (Permutation_map _ (sort_by_perm _ _))), map_app, zsum_app.
  by rewrite (user_rows_sum _ _ _ _ out), (pool_rows_sum _ _ _ _ out r).
Qed.

Lemma presented_share side l h :
  Forall (fun h => 0 <= h_shares h) l -> h ∈ l -> h_side h = side -> h_shares h <= presented_on side l.
Proof.
  intros Hn Hh <-. induction Hn as [|x l Hx Hn IH]; [by apply elem_of_nil in Hh|]. rewrite presented_on_cons.
  pose proof (presented_bounds (h_side h) l) as Hb.
  assert (0 <= presented_on (h_side h) l) by (apply zsum_nonneg, Forall_map; eapply Forall_impl; [exact Hn|]; cbn; intros; case_bool_decide; lia).
  apply elem_of_cons in Hh as [->|Hh]; [rewrite bool_decide_eq_true_2 by done; lia|].
  specialize (IH Hh). case_bool_decide; lia.
Qed.

(** A balanced book is complete at settlement. *)
Lemma balanced_complete db m yes no ry rn held bps :
  db_wf db -> balanced db m ->
  outcome_of (td_book db) m 0 = Some yes -> outcome_of (td_book db) m 1 = Some no ->
  bk_reserves (td_book db) !! yes = Some ry -> bk_reserves (td_book db) !! no = Some rn ->
  holdings (td_book db) (fu_ledger (td_funds db)) m = Ok held -> zlen held <= 9223372036854775807 ->
  let escrow := escrow_of (fu_ledger (td_funds db)) m in
  in_ty I64 escrow -> 0 < escrow -> 0 <= bps <= 10000 ->
  settle_input (settlement_input held) bps escrow /\ book_complete (settlement_input held) bps escrow.
Proof.
  intros W B Hy Hn Hry Hrn Hh Hlen escrow He Hpos Hb. destruct (B _ _ _ _ Hy Hn Hry Hrn) as [B1 B2].
  pose proof (tw_book _ W) as Wb. pose proof (tw_banked _ W) as Wk.
  assert (Py : presented_on Yes (settlement_input held) = escrow)
    by (rewrite (holdings_presented _ _ _ _ Yes _ _ Wb Hh Wk Hy Hry); done).
  assert (Pn : presented_on No (settlement_input held) = escrow)
    by (rewrite (holdings_presented _ _ _ _ No _ _ Wb Hh Wk Hn Hrn); done).
  assert (Hnn : Forall (fun h => 0 <= h_shares h) (settlement_input held)).
  { apply Forall_fmap. eapply Forall_impl; [exact (holdings_ok _ _ _ _ Wb Hh)|]. intros h (Hs & _). cbn. lia. }
  split.
  - split_and!; [|unfold settlement_input, zlen in *; by rewrite length_map|ty|done].
    apply Forall_forall. intros h Hin. pose proof (proj1 (Forall_forall _ _) Hnn h Hin).
    assert (h_shares h <= escrow) by (destruct (h_side h) eqn:Es; [rewrite <- Py|rewrite <- Pn]; by apply presented_share).
    ty.
  - split_and!; [lia..| |done|done|done]. intros E. rewrite E in Py. cbn in Py. lia.
Qed.

(** ** Lemmas: the payout transaction *)

(** A [Vec] of holding rows, of 64 bytes at least, is within [isize::MAX] bytes. *)
Definition MAX_HOLDINGS : Z := 144115188075855872.

Definition holding_ref (m : N) (h : HoldingRow) : OwnerRef :=
  match ho_owner h with HeldByUser u => Ref.User u | HeldByPool => Ref.MarketPool m end.

Definition holding_input (h : HoldingRow) : AccountId * Side * Z := (ho_account h, ho_side h, ho_shares h).

Definition nonzero_leg (p : Posting) : bool := negb (ps_amount p =? 0).

Lemma nonzero_posted o c ps : posted_to o c (List.filter nonzero_leg ps) = posted_to o c ps.
Proof.
  unfold posted_to. induction ps as [|p ps IH]; [done|]. cbn [List.filter]. unfold nonzero_leg at 1.
  destruct (Z.eqb_spec (ps_amount p) 0) as [E|]; cbn; rewrite IH; [|done]. case_bool_decide; lia.
Qed.

Definition leg_entry (ap : N * Z) : Entry := {| e_account := ap.1; e_amount := ap.2 |}.

Definition legs_of (escrow_acct fees_acct : N) (s : Settlement) : list (N * Z) :=
  st_payouts s ++ [(fees_acct, st_dust s); (escrow_acct, - (zsum (map snd (st_payouts s)) + st_dust s))].

Lemma settlement_entries_Ok escrow_acct fees_acct s entries :
  settlement_entries escrow_acct fees_acct s = Ok entries ->
  entries = map leg_entry (List.filter (fun ap : N * Z => negb (ap.2 =? 0)) (legs_of escrow_acct fees_acct s)).
Proof.
  unfold settlement_entries, legs_of. intros ([es t] & Hf & Hr)%bind_Ok.
  apply (foldM_ind _ (fun l acc => acc = (map leg_entry (List.filter (fun ap : N * Z => negb (ap.2 =? 0)) l),
     zsum (map snd l)))) in Hf; [injection Hf as -> ->|done|].
  - apply bind_Ok in Hr as (total & [-> Ht]%ok_or_Ok%checked_Some & Hr). rewrite List.filter_app, map_app. cbn.
    destruct (Z.eqb_spec (st_dust s) 0) as [E|], (Z.eqb_spec (zsum (map snd (st_payouts s)) + st_dust s) 0) as [Z|];
      cbn in Hr |- *; rewrite ?(proj2 (Z.eqb_eq (- _) 0)) by lia; rewrite ?(proj2 (Z.eqb_neq (- _) 0)) by lia;
      try (apply bind_Ok in Hr as (neg & [-> _]%arith_Ok & Hr)); injection Hr as <-; cbn; rewrite <- ?app_assoc, ?app_nil_r; done.
  - intros done' x rest acc acc' _ -> Hs. apply bind_Ok in Hs as (t' & [-> _]%ok_or_Ok%checked_Some & [= <-]).
    rewrite List.filter_app, !map_app, zsum_app. cbn. destruct (x.2 =? 0); cbn; f_equal; rewrite ?app_nil_r; try done; lia.
Qed.

(** The payout as postings to owners. *)
Definition payout_postings (m : N) (held : list HoldingRow) (s : Settlement) (escrow_acct fees_acct : N) :
    list Posting :=
  map (fun hp : HoldingRow * (N * Z) => mkPosting hp.2.1 (holding_ref m hp.1) Usdc hp.2.2) (combine held (st_payouts s)) ++
  [mkPosting fees_acct Ref.Fees Usdc (st_dust s);
   mkPosting escrow_acct (Ref.MarketEscrow m) Usdc (- (zsum (map snd (st_payouts s)) + st_dust s))].

#[export] Instance HoldingOwner_eq_dec : EqDecision HoldingOwner.
Proof. solve_decision. Defined.

(** What the payouts give a user. *)
Definition paid_to (u : N) (held : list HoldingRow) (payouts : list (N * Z)) : Z :=
  zsum (map (fun hp : HoldingRow * (N * Z) => if bool_decide (ho_owner hp.1 = HeldByUser u) then hp.2.2 else 0)
          (combine held payouts)).

Lemma map_combine_snd {A B} (l : list A) (k : list B) : length l = length k -> map snd (combine l k) = k.
Proof. revert k. induction l as [|x l IH]; intros [|y k]; cbn; intros E; try done. f_equal. apply IH. lia. Qed.

Lemma map_combine_fst {A B} (l : list A) (k : list B) : length l = length k -> map fst (combine l k) = l.
Proof. revert k. induction l as [|x l IH]; intros [|y k]; cbn; intros E; try done. f_equal. apply IH. lia. Qed.

Lemma combine_elem {A B} (l : list A) (k : list B) x y : (x, y) ∈ combine l k -> x ∈ l /\ y ∈ k.
Proof. rewrite !list_elem_of_In. intros H. split; [by eapply in_combine_l|by eapply in_combine_r]. Qed.

(** Two lists with equal projections, paired. *)
Lemma combine_agree {A B C} (f : A -> C) (g : B -> C) l k x y :
  map g k = map f l -> (x, y) ∈ combine l k -> g y = f x.
Proof.
  revert k. induction l as [|a l IH]; intros [|b k]; cbn; intros E Hin; try by apply elem_of_nil in Hin.
  injection E as E1 E2. apply elem_of_cons in Hin as [[= -> ->]|Hin]; [done|by eapply IH].
Qed.

Lemma legs_postings m held s e f :
  length held = length (st_payouts s) ->
  map leg_entry (List.filter (fun ap : N * Z => negb (ap.2 =? 0)) (legs_of e f s)) =
  map entry_of (List.filter nonzero_leg (payout_postings m held s e f)).
Proof.
  intros Hl. unfold legs_of, payout_postings. rewrite <- (map_combine_snd held (st_payouts s) Hl) at 1.
  rewrite !List.filter_app, !map_app. f_equal.
  - induction (combine held (st_payouts s)) as [|[h [a z]] l IH]; [done|]. cbn. unfold nonzero_leg at 1. cbn.
    destruct (z =? 0); cbn; by rewrite IH.
  - cbn. unfold nonzero_leg. cbn. destruct (_ =? 0), (_ =? 0); done.
Qed.

Lemma payout_posted_escrow m held s e f m' :
  posted_to (Ref.MarketEscrow m') Usdc (payout_postings m held s e f) =
  if (m' =? m)%N then - (zsum (map snd (st_payouts s)) + st_dust s) else 0.
Proof.
  unfold posted_to, payout_postings. rewrite map_app, zsum_app, map_map, zsum_none.
  - cbn [map zsum foldr ps_owner ps_currency ps_amount]. destruct (N.eqb_spec m' m) as [->|Hm];
      repeat case_bool_decide; simplify_eq; lia.
  - intros [h [a z]] _. cbn. rewrite bool_decide_eq_false_2; [done|]. unfold holding_ref. by destruct (ho_owner h).
Qed.

Lemma payout_posted_user m held s e f u :
  posted_to (Ref.User u) Usdc (payout_postings m held s e f) = paid_to u held (st_payouts s).
Proof.
  unfold posted_to, payout_postings, paid_to. rewrite map_app, zsum_app, map_map. cbn. rewrite Z.add_0_r.
  f_equal. apply map_ext. intros [h [a z]]. cbn. unfold holding_ref.
  destruct (ho_owner h) as [v|]; repeat case_bool_decide; simplify_eq; done.
Qed.

Lemma payout_posted_reserved m held s e f o : reserved o = true -> posted_to o Usdc (payout_postings m held s e f) = 0.
Proof.
  intros Ho. destruct o; try done.
  all: unfold posted_to, payout_postings; rewrite map_app, zsum_app, map_map, zsum_none; [done|].
  all: intros [h [a z]] _; cbn; rewrite bool_decide_eq_false_2; [done|]; unfold holding_ref; by destruct (ho_owner h).
Qed.

(** A found owner owns the account. *)
Lemma find_owner_owns led o c a : find_owner led o c = Some a -> owns led a o c.
Proof. intros (r & Hr & ->)%fmap_Some. apply find_by in Hr as [Hr Hi]. by exists r. Qed.

Lemma holding_owns b led m h : holding_ok b led m h -> owns led (ho_account h) (holding_ref m h) Usdc.
Proof.
  intros (_ & _ & Ho). unfold holding_ref. destruct (ho_owner h); [destruct Ho as [Ho _]|]; by apply find_owner_owns.
Qed.

Lemma Forall_filter {A} (P : A -> Prop) (f : A -> bool) l : Forall P l -> Forall P (List.filter f l).
Proof. induction 1 as [|x l Hx _ IH]; cbn; [done|]. destruct (f x); [by constructor|done]. Qed.

(** The side conditions of the payout posting. *)
Lemma payout_postings_ok b m held s e f led l2 :
  extends led l2 -> owns l2 e (Ref.MarketEscrow m) Usdc -> owns l2 f Ref.Fees Usdc ->
  Forall (holding_ok b led m) held -> zlen held <= MAX_HOLDINGS -> map fst (st_payouts s) = map ho_account held ->
  Forall (fun ap => in_ty I64 (snd ap)) (st_payouts s) -> in_ty I64 (st_dust s) ->
  0 <= zsum (map snd (st_payouts s)) + st_dust s <= imax I64 ->
  let ps := List.filter nonzero_leg (payout_postings m held s e f) in
  Forall (fun p => owns l2 (ps_account p) (ps_owner p) (ps_currency p)) ps /\
  Forall (fun p => in_ty I64 (ps_amount p)) ps /\ zlen ps <= 9223372036854775808.
Proof.
  intros X Oe Of Hh Hlen Hacct Hty Hdust Htot ps. split_and!.
  - apply Forall_filter. unfold payout_postings. apply Forall_app. split; [|posting_side].
    apply Forall_fmap, Forall_forall. intros [h [a z]] Hin. cbn.
    pose proof (combine_agree _ _ _ _ _ _ Hacct Hin) as Ha. cbn in Ha. subst a.
    apply combine_elem in Hin as [Hin _]. eapply owns_extends; [done|]. eapply holding_owns.
    rewrite Forall_forall in Hh. by apply Hh.
  - apply Forall_filter. unfold payout_postings. apply Forall_app. split.
    + apply Forall_fmap, Forall_forall. intros [h [a z]] [_ Hz]%combine_elem. cbn.
      rewrite Forall_forall in Hty. apply (Hty _ Hz).
    + rewrite !Forall_cons. cbn. split_and!; [done|ty|done].
  - unfold ps, zlen in *. pose proof (filter_length_le nonzero_leg (payout_postings m held s e f)).
    unfold payout_postings in *. rewrite length_app, length_map, length_combine in *. unfold MAX_HOLDINGS in Hlen.
    cbn [length] in *. lia.
Qed.

Section Payout.
Context `{UuidText} `{HashMapOrder}.

Record paid_out (m : N) (held : list HoldingRow) (s : Settlement) (txn : N) (led led' : PgLedger) : Prop := {
  pd_extends : extends led led';
  pd_escrow : forall m', escrow_of led' m' =
    escrow_of led m' - (if (m' =? m)%N then zsum (map snd (st_payouts s)) + st_dust s else 0);
  pd_users : forall u, Postings.held led' (Ref.User u) Usdc =
    Postings.held led (Ref.User u) Usdc + paid_to u held (st_payouts s);
  pd_txns : map txn_id (pg_txns led') = map txn_id (pg_txns led) ++ [txn];
  pd_key : txn_by_key led' (resolve_key m) = Some txn;
  pd_fresh : txn_by_key led (resolve_key m) = None;
  pd_reserved : forall o, reserved o = true -> Postings.held led' o Usdc = Postings.held led o Usdc }.

Lemma post_payout_Ok fresh b m held s led txn led' :
  pg_wf led -> Forall (holding_ok b led m) held -> zlen held <= MAX_HOLDINGS ->
  map fst (st_payouts s) = map ho_account held -> Forall (fun ap => in_ty I64 (snd ap)) (st_payouts s) ->
  in_ty I64 (st_dust s) -> 0 <= zsum (map snd (st_payouts s)) + st_dust s <= imax I64 ->
  post_payout fresh m s led = Ok (txn, led') -> paid_out m held s txn led led'.
Proof.
  intros W Hh Hlen Hacct Hty Hdust Htot Hr. unfold post_payout in Hr.
  apply bind_Ok in Hr as ([l1 e] & H1%store_Ok & Hr). apply bind_Ok in Hr as ([l2 f] & H2%store_Ok & Hr).
  apply bind_Ok in Hr as (entries & ->%settlement_entries_Ok & Hr).
  apply bind_Ok in Hr as ([l3 t] & H3%store_Ok & [= <- <-]).
  assert (Hl : length held = length (st_payouts s)) by (rewrite <- (length_map ho_account), <- Hacct, length_map; done).
  apply account_txns in H1 as N1, H2 as N2.
  apply account_held in H1 as (X1 & O1 & E1); [|done]. apply account_held in H2 as (X2 & O2 & E2); [|apply X1].
  rewrite (legs_postings m held) in H3 by done. pose proof (xt_wf _ _ X2) as W2.
  assert (X : extends led l2) by eauto with ledger.
  destruct (payout_postings_ok b m held s e f led l2) as (Hown & Hamt & Hsz); [eauto with ledger..|].
  apply apply_key_new in H3 as K3. apply apply_recorded in H3 as R; [|done|by apply Forall_fmap|unfold zlen in *; by rewrite length_map].
  apply apply_held in H3 as (X3 & E3); [|done..]. destruct R as (R1 & R2 & R3). rewrite N2, N1 in R2. split; try done.
  - eauto with ledger.
  - intros m'. rewrite !escrow_held, E3, E2, E1, nonzero_posted, payout_posted_escrow. destruct (m' =? m)%N; lia.
  - intros u. by rewrite E3, E2, E1, nonzero_posted, payout_posted_user.
  - unfold txn_by_key in *. by rewrite N2, N1 in K3.
  - intros o Ho. by rewrite E3, E2, E1, nonzero_posted, payout_posted_reserved, Z.add_0_r.
Qed.
End Payout.

(** ** Lemmas: the rows a resolution writes *)

Definition outcome_slot (o : OutcomeRow) : N * N * Z := (oc_id o, oc_market o, oc_idx o).
Definition pos_view (p : PositionRow) : N * N * Z := (po_user p, po_outcome p, po_shares p).

(** A position after the holdings with the given keys were closed. *)
Definition closed_view (keys : list (N * N)) (k : N * N) (p : PositionRow) : N * N * Z :=
  (po_user p, po_outcome p, if bool_decide (k ∈ keys) then 0 else po_shares p).

Definition window_of (r : MarketRecord) : option Z * option Z * option Z :=
  (ma_opens_at r, ma_closes_at r, ma_tally_hidden_at r).

(** What settling market [m] may change of the book: its own row, the results
    of outcomes, scores and reputation, and the closed positions. *)
Record framed (m : N) (keys : list (N * N)) (b b' : Book) : Prop := {
  fr_slots : map outcome_slot (bk_outcomes b') = map outcome_slot (bk_outcomes b);
  fr_pools : bk_pools b' = bk_pools b;
  fr_reserves : bk_reserves b' = bk_reserves b;
  fr_trades : bk_trades b' = bk_trades b;
  fr_votes : bk_votes b' = bk_votes b;
  fr_positions : forall k, pos_view <$> bk_positions b' !! k = closed_view keys k <$> bk_positions b !! k;
  fr_times : forall x, window_of <$> bk_markets b' !! x = window_of <$> bk_markets b !! x;
  fr_markets : forall m', m' <> m -> bk_markets b' !! m' = bk_markets b !! m';
  fr_reports : bk_reports b' = bk_reports b }.

Lemma framed_refl m b : framed m [] b b.
Proof. by split. Qed.

Lemma framed_trans m k1 k2 a b c : framed m k1 a b -> framed m k2 b c -> framed m (k1 ++ k2) a c.
Proof.
  intros [S1 P1 R1 T1 V1 X1 C1 M1 Q1] [S2 P2 R2 T2 V2 X2 C2 M2 Q2]. split; try congruence.
  - intros k. rewrite X2. specialize (X1 k).
    destruct (bk_positions b !! k) as [q|], (bk_positions a !! k) as [p|]; cbn in *; try congruence.
    unfold pos_view, closed_view in *. injection X1 as E1 E2 E3. rewrite E1, E2, E3. do 2 f_equal.
    repeat case_bool_decide; rewrite ?elem_of_app in *; naive_solver.
  - intros m' Hm. rewrite M2, M1; done.
Qed.

Lemma framed_nil m keys a b c : framed m keys a b -> framed m [] b c -> framed m keys a c.
Proof. intros F1 F2. rewrite <- (app_nil_r keys). by eapply framed_trans. Qed.

Lemma framed_book m f b b' :
  (forall r, window_of (f r) = window_of r) -> update_market f m b = Ok b' ->
  framed m [] b b' /\ exists r, bk_markets b !! m = Some r /\ bk_markets b' !! m = Some (f r).
Proof.
  intros Hf. unfold update_market. destruct (bk_markets b !! m) as [r|] eqn:E; [|done]. intros [= <-].
  split; [|exists r; split; [done|]; cbn; apply lookup_insert_eq].
  split; try done; cbn; [|intros m' Hm; by rewrite lookup_insert_ne].
  intros x. destruct (decide (x = m)) as [->|]; [rewrite lookup_insert_eq, E; cbn; by rewrite Hf|by rewrite lookup_insert_ne].
Qed.

Lemma write_outcome_framed m id bps red b b' :
  write_outcome_resolution id bps red b = Ok b' -> framed m [] b b' /\ bk_markets b' = bk_markets b.
Proof.
  unfold write_outcome_resolution. destruct (existsb _ _); [|done]. intros [= <-]. split; [|done].
  split; try done. cbn. rewrite map_map. apply map_ext. intros o. by destruct (_ =? _)%N.
Qed.

Lemma save_position_Ok p b b' :
  save_position p b = Ok b' -> 0 <= po_shares p /\ b' = set_positions (<[(po_user p, po_outcome p) := p]> (bk_positions b)) b.
Proof. unfold save_position. destruct (Z.ltb_spec (po_shares p) 0); [done|]. by intros [= <-]. Qed.

(** Everything but the book and the realizations. *)
Record same_rest (db db' : Db) : Prop := {
  sr_funds : td_funds db' = td_funds db;
  sr_ops : td_ops db' = td_ops db;
  sr_comp : td_comp db' = td_comp db;
  sr_referrals : td_referrals db' = td_referrals db;
  sr_fingerprints : td_fingerprints db' = td_fingerprints db }.

Lemma insert_realization_Ok r db db' :
  insert_realization r db = Ok db' -> same_rest db db' /\ td_book db' = td_book db.
Proof. unfold insert_realization. destruct (_ <? 0); [done|]. intros [= <-]. destruct (existsb _ _); by split. Qed.

(** The keys of the positions a list of holdings closes. *)
Definition holding_key (h : HoldingRow) : option (N * N) :=
  match ho_owner h with HeldByUser u => Some (u, ho_outcome h) | HeldByPool => None end.

Definition closed_keys (held : list HoldingRow) : list (N * N) := omap holding_key held.

Lemma close_position_framed m u out p realized b b' :
  (forall k p, bk_positions b !! k = Some p -> k = (po_user p, po_outcome p)) ->
  bk_positions b !! (u, out) = Some p ->
  save_position (mkPosition (po_user p) (po_outcome p) 0 0 realized) b = Ok b' ->
  framed m [(u, out)] b b' /\ bk_markets b' = bk_markets b.
Proof.
  intros Hk Hp [_ ->]%save_position_Ok. cbn [po_user po_outcome]. split; [|done]. split; try done.
  intros k. cbn. rewrite <- (Hk _ _ Hp). destruct (decide (k = (u, out))) as [->|Hne].
  - rewrite lookup_insert_eq, Hp. cbn. unfold pos_view, closed_view. cbn.
    rewrite bool_decide_eq_true_2; [done|]. by apply list_elem_of_singleton.
  - rewrite lookup_insert_ne by done. destruct (bk_positions b !! k); [|done]. cbn. unfold pos_view, closed_view.
    rewrite bool_decide_eq_false_2; [done|]. by rewrite list_elem_of_singleton.
Qed.

Lemma framed_keyed m keys b b' :
  framed m keys b b' -> (forall k p, bk_positions b !! k = Some p -> k = (po_user p, po_outcome p)) ->
  forall k p, bk_positions b' !! k = Some p -> k = (po_user p, po_outcome p).
Proof.
  intros F Hk k p Hp. pose proof (fr_positions _ _ _ _ F k) as E. rewrite Hp in E.
  destruct (bk_positions b !! k) as [q|] eqn:Hq; [|done]. apply Hk in Hq. cbn in E.
  unfold pos_view, closed_view in E. congruence.
Qed.

Lemma same_rest_trans a b c : same_rest a b -> same_rest b c -> same_rest a c.
Proof. intros [] []. split; congruence. Qed.

(** The closing loop closes exactly the holdings' positions. *)
Lemma close_holdings_framed m voided txn at_ held payouts db pool db' :
  (forall k p, bk_positions (td_book db) !! k = Some p -> k = (po_user p, po_outcome p)) ->
  length held = length payouts ->
  close_holdings m voided txn at_ held payouts db = Ok (pool, db') ->
  same_rest db db' /\ framed m (closed_keys held) (td_book db) (td_book db') /\
  bk_markets (td_book db') = bk_markets (td_book db).
Proof.
  intros Hk Hl Hr. unfold close_holdings in Hr.
  apply (foldM_ind _ (fun l acc => same_rest db acc.2 /\
    framed m (closed_keys (map fst l)) (td_book db) (td_book acc.2) /\
    bk_markets (td_book acc.2) = bk_markets (td_book db))) in Hr.
  - cbn in Hr. by rewrite map_combine_fst in Hr.
  - split_and!; [done|apply framed_refl|done].
  - intros l [h [a z]] rest [sum d] [sum' d'] _ (S0 & F0 & M0) Hs. cbn in S0, F0, M0 |- *.
    unfold close_holding in Hs. rewrite map_app. unfold closed_keys. rewrite omap_app. cbn [map fst omap list_omap]. unfold holding_key at 2.
    destruct (ho_owner h) as [u|].
    + apply bind_Ok in Hs as (p & Hp%ok_or_Ok & Hs). apply bind_Ok in Hs as (delta & _ & Hs).
      apply bind_Ok in Hs as (rl & _ & Hs). apply bind_Ok in Hs as (b & Hb%store_Ok & Hs).
      apply bind_Ok in Hs as (d2 & [S2 B2]%store_Ok%insert_realization_Ok & [= <- <-]). cbn in B2.
      apply (close_position_framed m u (ho_outcome h)) in Hb as [F1 M1]; [|by eapply framed_keyed|done].
      rewrite B2. split_and!; [|by eapply framed_trans|congruence].
      eapply same_rest_trans; [exact S0|]. destruct S2. by split.
    + apply bind_Ok in Hs as (x & _ & [= <- <-]). by rewrite app_nil_r.
Qed.

Section Rows.
Context `{UuidText} `{HashMapOrder}.
Context (oi_floor : Z) (rep_config : RepConfig) (sweep : IntegritySweepConfig)
  (crash_point : outcome StoreError unit) (actor : AdminContext) (time_json : Z -> Value).

Lemma save_reps_framed m batch b b' :
  save_reps batch b = Ok b' -> framed m [] b b' /\ bk_markets b' = bk_markets b.
Proof. unfold save_reps. destruct (forallb _ _); [|done]. by intros [= <-]. Qed.

Lemma score_voters_framed k m t bps escrow locked db events db' :
  score_voters rep_config m t bps escrow locked db = Ok (events, db') ->
  db' = set_book (td_book db') db /\ framed k [] (td_book db) (td_book db') /\
  bk_markets (td_book db') = bk_markets (td_book db).
Proof.
  intros (facts & _ & Hr)%bind_Ok. apply bind_Ok in Hr as (scores & _ & Hr). apply bind_Ok in Hr as (total & _ & Hr).
  destruct (_ && _) in Hr; [|injection Hr as <- <-; by split_and!].
  apply bind_Ok in Hr as ([up ev] & _ & Hr). apply bind_Ok in Hr as (b & Hb%store_Ok & [= <- <-]).
  apply (save_reps_framed k) in Hb as [F M]. split_and!; [done| |done].
  eapply (framed_nil k [] _ (save_vote_scores scores (td_book db))); [by split|done].
Qed.

Lemma move_loop_lots fresh n kind rows c moved c' z :
  move_loop fresh n kind c rows moved = Ok (c', z) -> db_lots c' = db_lots c.
Proof.
  revert n c moved. induction rows as [|row rows IH]; intros n c moved; cbn [move_loop]; [by intros [= <- _]|].
  intros (key & _ & Hr)%bind_Ok. apply bind_Ok in Hr as (c1 & Hc & Hr). apply bind_Ok in Hr as (z1 & _ & Hr).
  apply IH in Hr. by rewrite Hr, (insert_allocation_lots _ _ _ Hc).
Qed.

(** What the last steps leave. *)
Record finished (market : N) (status : string) (db db' : Db) : Prop := {
  fi_frame : framed market [] (td_book db) (td_book db');
  fi_market : exists r r', bk_markets (td_book db) !! market = Some r /\
    bk_markets (td_book db') !! market = Some r' /\ ma_status r' = status /\
    ma_collateral_at_close r' = ma_collateral_at_close r;
  fi_quiet : quiet (fu_ledger (td_funds db)) (fu_ledger (td_funds db'));
  fi_lots : lots_wf (td_funds db') }.

Definition settled_status (voided : bool) : string := if voided then "voided" else "paid".

Lemma set_state_Ok s m b b' :
  set_market_state s m b = Ok b' ->
  framed m [] b b' /\ exists r r', bk_markets b !! m = Some r /\ bk_markets b' !! m = Some r' /\
    ma_status r' = market_state_name s /\ ma_collateral_at_close r' = ma_collateral_at_close r.
Proof. intros [F (r & Hr & Hr')]%framed_book; [|done]. split; [done|]. by exists r; eexists. Qed.

Lemma finish_state_Ok ids db_now cmd voided db out db' :
  lots_wf (td_funds db) -> finish_state ids db_now cmd Resolving voided db = Ok (out, db') ->
  out = (if voided then VoidedOutcome else Settled) /\ finished (rs_market cmd) (settled_status voided) db db'.
Proof.
  intros W. unfold finish_state. cbv zeta. destruct voided.
  - intros (next & Hn & Hr)%bind_Ok. apply bind_Ok in Hr as (b & Hb%store_Ok & [= <- <-]).
    assert (next = Voided) as -> by (case_bool_decide; by injection Hn as <-).
    apply set_state_Ok in Hb as [F M]. split; [done|]. split; [done|done|apply quiet_refl, W|done].
  - intros (resolved & [= <-] & Hr)%bind_Ok. apply bind_Ok in Hr as (b1 & H1%store_Ok & Hr).
    apply bind_Ok in Hr as (paid & [= <-] & Hr). apply bind_Ok in Hr as (b2 & H2%store_Ok & Hr).
    apply bind_Ok in Hr as ([c z] & Hc%store_Ok & Hr). apply bind_Ok in Hr as ([n d] & Hg%store_Ok & [= <- <-]).
    apply set_state_Ok in H1 as [F1 (r & r1 & M1 & M1' & _ & C1)].
    apply set_state_Ok in H2 as [F2 (r1' & r2 & M2 & M2' & S2 & C2)].
    unfold move_market_allocations in Hc. apply move_loop_lots in Hc as L.
    assert (W1 : lots_wf (set_credits c (td_funds db))).
    { destruct W as [[Wl Wa] Wk]. split; [split; [done|]|]; cbn; intros l r0; rewrite L; eauto. }
    apply grant_referrals_granted in Hg as G; [|done]. destruct (gd_tame _ _ G) as [Q _ _ _ Wt _].
    split; [done|]. split; [|exists r, r2| exact Q|done].
    + rewrite (gd_book _ _ G). eapply framed_nil; [exact F1|exact F2].
    + rewrite (gd_book _ _ G). cbn. split_and!; [done..|congruence].
Qed.

Lemma collect_payouts_calm fresh i m users f f' :
  funds_wf f -> collect_payouts fresh i m users f = Ok f' -> calm f f'.
Proof.
  revert i f. induction users as [|u users IH]; intros i f Hf; cbn [collect_payouts].
  { intros [= <-]. by apply calm_refl. }
  intros ([c g] & Hc & Hr)%bind_Ok. apply auto_collect_calm in Hc as C; [|done].
  eapply calm_trans; [exact C|]. eapply IH; [apply C|done].
Qed.

Lemma calm_lots f f' : lots_wf f -> calm f f' -> lots_wf f'.
Proof. intros W C. split; [apply C|]. intros l r (r0 & Hr0 & _ & -> & _)%(cm_lots _ _ C). by apply W. Qed.

(** The last writes only append to the outbox and the audit log. *)
Lemma ops_frame events market st v db :
  let db' := audit_resolution actor market st v (fold_left (fun db e => append_event e db) events db) in
  td_funds db' = td_funds db /\ td_book db' = td_book db.
Proof.
  cbv zeta. assert (Ha : forall d, td_funds (audit_resolution actor market st v d) = td_funds d /\
    td_book (audit_resolution actor market st v d) = td_book d) by (intros d; unfold audit_resolution; by destruct actor).
  rewrite (proj1 (Ha _)), (proj2 (Ha _)). clear Ha. revert db. induction events as [|e events IH]; intros db; [done|].
  cbn. by rewrite (proj1 (IH _)), (proj2 (IH _)).
Qed.

Lemma clear_flag_Ok cmd b b' :
  (if bool_decide (rs_override cmd = None) then Ok b else store (clear_curator_flag (rs_market cmd) b)) = Ok b' ->
  forall r, bk_markets b !! rs_market cmd = Some r ->
  framed (rs_market cmd) [] b b' /\ exists r', bk_markets b' !! rs_market cmd = Some r' /\
    ma_status r' = ma_status r /\ ma_collateral_at_close r' = ma_collateral_at_close r.
Proof.
  case_bool_decide; [intros [= <-] r Hr; split; [apply framed_refl|by exists r]|].
  intros Hu%store_Ok r Hr. apply framed_book in Hu as [F (r0 & M & M')]; [|done]. split; [done|]. eexists. split; [exact M'|].
  rewrite Hr in M. by injection M as <-.
Qed.

Record settled_rows (market : N) (voided : bool) (escrow : Z) (held : list HoldingRow) (db db' : Db) : Prop := {
  sd_frame : framed market (closed_keys held) (td_book db) (td_book db');
  sd_market : exists r, bk_markets (td_book db') !! market = Some r /\
    ma_status r = settled_status voided /\ ma_collateral_at_close r = Some escrow;
  sd_quiet : quiet (fu_ledger (td_funds db)) (fu_ledger (td_funds db'));
  sd_lots : lots_wf (td_funds db') }.

Definition settled_receipt (market : N) (voided : bool) (bps : Z) (txn : N) : ResolveReceipt :=
  mkResolveReceipt market (if voided then VoidedOutcome else Settled) (Some bps) (Some txn) false.

Lemma settle_rows_Ok ids db_now now cmd m voided bps escrow t held s txn locked db r db' :
  lots_wf (td_funds db) -> length held = length (st_payouts s) ->
  (forall k p, bk_positions (td_book db) !! k = Some p -> k = (po_user p, po_outcome p)) ->
  settle_rows rep_config actor ids db_now now cmd m Resolving voided bps escrow t held s txn locked db = Ok (r, db') ->
  r = settled_receipt (rs_market cmd) voided bps txn /\ settled_rows (rs_market cmd) voided escrow held db db'.
Proof.
  intros W Hl Hk Hr. unfold settle_rows in Hr. cbv zeta in Hr. set (k := rs_market cmd) in *.
  apply bind_Ok in Hr as (funds & Hc & Hr). apply collect_payouts_calm in Hc as C; [|apply W].
  apply bind_Ok in Hr as (b1 & H1%store_Ok & Hr). apply framed_book in H1 as [F1 (r1 & M1 & M1')]; [|done].
  apply bind_Ok in Hr as ([pool d2] & H2 & Hr).
  apply close_holdings_framed in H2 as (S2 & F2 & M2); [|by eapply framed_keyed|done]. cbn in F2, M2.
  apply bind_Ok in Hr as (seeded & _ & Hr). apply bind_Ok in Hr as (pnl & _ & Hr).
  apply bind_Ok in Hr as (b3 & H3%store_Ok & Hr). apply framed_book in H3 as [F3 (r3 & M3 & M3')]; [|done].
  apply bind_Ok in Hr as ([ry rn] & _ & Hr).
  apply bind_Ok in Hr as (b4 & H4%store_Ok & Hr). apply (write_outcome_framed k) in H4 as [F4 M4].
  apply bind_Ok in Hr as (nb & _ & Hr).
  apply bind_Ok in Hr as (b5 & H5%store_Ok & Hr). apply (write_outcome_framed k) in H5 as [F5 M5].
  apply bind_Ok in Hr as ([events d6] & H6 & Hr).
  assert (H6' : d6 = set_book (td_book d6) (set_book b5 d2) /\ framed k [] b5 (td_book d6) /\
    bk_markets (td_book d6) = bk_markets b5).
  { destruct voided; [injection H6 as <- <-; split_and!; [done|apply framed_refl|done]|].
    by apply (score_voters_framed k) in H6. }
  destruct H6' as (E6 & F6 & M6).
  assert (Wd : td_funds d6 = funds) by (rewrite E6; cbn; apply S2).
  apply bind_Ok in Hr as ([out d7] & H7 & Hr).
  apply finish_state_Ok in H7 as [-> [F7 (r6 & r7 & N6 & N7 & St & Co) Q7 L7]]; [|rewrite Wd; by eapply calm_lots].
  apply bind_Ok in Hr as (b8 & H8 & [= <- <-]). fold k in N6, N7.
  destruct (clear_flag_Ok cmd _ _ H8 _ N7) as [F8 (r8 & M8 & St8 & Co8)]. fold k in F8, M8.
  split; [done|].
  pose proof (ops_frame (events ++ [market_event k voided bps txn ry rn]) k (mk_state m)
    (JObject [("final_yes_bps", JInt bps); ("voided", JBool voided)]) (set_book b8 d7)) as [Of Ob].
  split; rewrite ?Of, ?Ob; cbn.
  - eapply framed_nil; [|exact F8]. eapply framed_nil; [|exact F7]. eapply framed_nil; [|exact F6].
    eapply framed_nil; [|exact F5]. eapply framed_nil; [|exact F4]. eapply framed_nil; [|exact F3].
    eapply (framed_trans _ [] _ _ _ _ F1 F2).
  - exists r8. split_and!; [done|congruence|]. rewrite Co8, Co.
    assert (Some r6 = Some (mkMarketRecord (ma_status r3) (ma_min_votes r3) (ma_vote_seq r3) (ma_opens_at r3)
      (ma_closes_at r3) (ma_tally_hidden_at r3) (ma_curator_flagged_at r3) (ma_integrity_due_at r3) (Some pnl)
      (Some now) (ma_collateral_at_close r3))) as [= ->] by congruence. cbn.
    rewrite M2, M1' in M3. injection M3 as <-. done.
  - eapply quiet_trans; [|exact Q7]. rewrite Wd. apply (cm_quiet _ _ C).
  - done.
Qed.
End Rows.

(** ** Lemmas: the book after the frame *)

(** Two maps that measure alike, key by key, have one sum. *)
Lemma msum_view {V V'} (f : N * N -> V -> Z) (g : N * N -> V' -> Z) (m : gmap (N * N) V) (m' : gmap (N * N) V') :
  (forall k, f k <$> m !! k = g k <$> m' !! k) -> msum f m = msum g m'.
Proof.
  intros E. trans (msum (fun _ z => z) (map_imap (fun k v => Some (f k v)) m)); [by rewrite msum_imap|].
  trans (msum (fun _ z => z) (map_imap (fun k v => Some (g k v)) m')); [|by rewrite msum_imap]. f_equal.
  apply map_eq. intros k. rewrite !map_lookup_imap. specialize (E k).
  by destruct (m !! k), (m' !! k).
Qed.

Lemma find_map {A B} (f : A -> B) (P : B -> bool) l : List.find P (map f l) = f <$> List.find (fun x => P (f x)) l.
Proof. induction l as [|x l IH]; cbn; [done|]. by destruct (P (f x)). Qed.

Section Framed.
Context (m : N) (keys : list (N * N)) (b b' : Book) (F : framed m keys b b').

Lemma framed_outcome_of x i : outcome_of b' x i = outcome_of b x i.
Proof.
  assert (E : forall c, outcome_of c x i = (fun s => s.1.1) <$>
    List.find (fun s : N * N * Z => (s.1.2 =? x)%N && (s.2 =? i)) (map outcome_slot (bk_outcomes c))).
  { intros c. unfold outcome_of. rewrite find_map, <- option_fmap_compose. done. }
  by rewrite !E, (fr_slots _ _ _ _ F).
Qed.

Lemma framed_votes_with x i : votes_with b' x i = votes_with b x i.
Proof.
  assert (E : forall c v, oc_idx <$> vote_outcome c v = (fun s => s.2) <$>
    List.find (fun s : N * N * Z => (s.1.1 =? vo_outcome v)%N && (s.1.2 =? vo_market v)%N) (map outcome_slot (bk_outcomes c))).
  { intros c v. unfold vote_outcome. rewrite find_map, <- option_fmap_compose. done. }
  unfold votes_with. rewrite (fr_votes _ _ _ _ F). f_equal. apply filter_ext. intros v.
  by rewrite !E, (fr_slots _ _ _ _ F).
Qed.

Lemma framed_tally x : tally b' x = tally b x.
Proof. unfold tally. by rewrite !framed_votes_with. Qed.

Lemma framed_held out :
  held_shares b' out = msum (fun k p => if (k.2 =? out)%N then (if bool_decide (k ∈ keys) then 0 else po_shares p) else 0)
                         (bk_positions b).
Proof.
  apply msum_view. intros k. pose proof (fr_positions _ _ _ _ F k) as E.
  destruct (bk_positions b' !! k) as [q|], (bk_positions b !! k) as [p|]; cbn in *; try congruence.
  unfold pos_view, closed_view in E. injection E as _ _ E. by rewrite E.
Qed.

Lemma framed_wf : book_wf b -> book_wf b'.
Proof.
  intros [O S R P K]. split.
  - replace (map oc_id (bk_outcomes b')) with (map (fun s => s.1.1) (map outcome_slot (bk_outcomes b'))) by by rewrite map_map.
    rewrite (fr_slots _ _ _ _ F), map_map. exact O.
  - replace (map _ (bk_outcomes b')) with (map (fun s : N * N * Z => (s.1.2, s.2)) (map outcome_slot (bk_outcomes b'))) by by rewrite map_map.
    rewrite (fr_slots _ _ _ _ F), map_map. exact S.
  - by rewrite (fr_reserves _ _ _ _ F).
  - intros k q Hq. pose proof (fr_positions _ _ _ _ F k) as E. rewrite Hq in E.
    destruct (bk_positions b !! k) as [p|] eqn:Hp; [|done]. destruct (P _ _ Hp) as [Hk Hs]. cbn in E.
    unfold pos_view, closed_view in E. injection E as E1 E2 E3. split; [congruence|]. rewrite E3. case_bool_decide; lia.
  - intros k q Hq. pose proof (fr_positions _ _ _ _ F k) as E. rewrite Hq in E.
    destruct (bk_positions b !! k) as [p|] eqn:Hp; [|done].
    replace (map oc_id (bk_outcomes b')) with (map (fun s => s.1.1) (map outcome_slot (bk_outcomes b'))) by by rewrite map_map.
    rewrite (fr_slots _ _ _ _ F), map_map. by eapply K.
Qed.

(** The positions stay those of the same users. *)
Lemma framed_positions k q : bk_positions b' !! k = Some q -> exists p, bk_positions b !! k = Some p.
Proof.
  intros Hq. pose proof (fr_positions _ _ _ _ F k) as E. rewrite Hq in E. destruct (bk_positions b !! k) as [p|]; [|done].
  by exists p.
Qed.

Lemma framed_slot o : o ∈ bk_outcomes b' -> exists o0, o0 ∈ bk_outcomes b /\ outcome_slot o0 = outcome_slot o.
Proof.
  intros Ho. assert (Hs : outcome_slot o ∈ map outcome_slot (bk_outcomes b)).
  { rewrite <- (fr_slots _ _ _ _ F). by apply list_elem_of_fmap_2. }
  apply list_elem_of_fmap in Hs as (o0 & -> & Ho0). by exists o0.
Qed.

(** Shares of outcomes none of whose positions were closed. *)
Lemma framed_held_same out : (forall u, (u, out) ∉ keys) -> held_shares b' out = held_shares b out.
Proof.
  intros Hk. rewrite framed_held. apply msum_ext. intros [u o] p _. cbn. destruct (N.eqb_spec o out) as [->|]; [|done].
  by rewrite bool_decide_eq_false_2.
Qed.
End Framed.

(** The keys closed belong to outcomes of the market. *)
Lemma closed_keys_market b led m held u out :
  Forall (holding_ok b led m) held -> (u, out) ∈ closed_keys held ->
  exists o, o ∈ bk_outcomes b /\ oc_id o = out /\ oc_market o = m.
Proof.
  intros Hh (h & Hin & Hk)%list_elem_of_omap. rewrite Forall_forall in Hh. destruct (Hh h Hin) as (_ & Ho & _).
  unfold holding_key in Hk. destruct (ho_owner h); [|done]. by injection Hk as _ <-.
Qed.

(** After closing all holdings nobody holds a share of the market. *)
Lemma closed_all b b' led m held o :
  book_wf b -> framed m (closed_keys held) b b' -> holdings b led m = Ok held ->
  (forall k p, bk_positions b !! k = Some p -> is_Some (find_owner led (Ref.User k.1) Usdc)) ->
  o ∈ bk_outcomes b -> oc_market o = m -> held_shares b' (oc_id o) = 0.
Proof.
  intros W F Hh Hbank Ho Hm. rewrite (framed_held _ _ _ _ F). unfold msum. apply zsum_none.
  intros [[u out] p] Hp%elem_of_map_to_list. cbn. destruct (N.eqb_spec out (oc_id o)) as [->|]; [|done].
  case_bool_decide as Hc; [done|]. destruct (bw_positions _ W _ _ Hp) as [_ Hs].
  destruct (decide (0 < po_shares p)); [exfalso|lia]. apply Hc.
  destruct (holdings_all _ _ _ _ _ _ _ W Hh Hbank Ho Hm Hp l) as (h & Hin & Hu & Hout).
  apply list_elem_of_omap. exists h. split; [done|]. unfold holding_key. by rewrite Hu, Hout.
Qed.

(** Balance of another market, from the frame. *)
Lemma framed_balanced db db' m keys m' :
  framed m keys (td_book db) (td_book db') -> 
  (forall u out i, outcome_of (td_book db) m' i = Some out -> (u, out) ∉ keys) ->
  escrow_of (fu_ledger (td_funds db')) m' = escrow_of (fu_ledger (td_funds db)) m' ->
  balanced db m' -> balanced db' m'.
Proof.
  intros F Hk E B y n ry rn. rewrite !(framed_outcome_of _ _ _ _ F), (fr_reserves _ _ _ _ F), E. intros Hy Hn Hry Hrn.
  rewrite !(framed_held_same _ _ _ _ F) by eauto. by apply B.
Qed.

(** ** Lemmas: one resolution *)

(** A market whose shares are backed by its escrow, on both sides. *)
Definition backed (db : Db) (m : N) : Prop :=
  exists yes no ry rn,
    outcome_of (td_book db) m 0 = Some yes /\ outcome_of (td_book db) m 1 = Some no /\
    bk_reserves (td_book db) !! yes = Some ry /\ bk_reserves (td_book db) !! no = Some rn /\
    held_shares (td_book db) yes + ry = escrow_of (fu_ledger (td_funds db)) m /\
    held_shares (td_book db) no + rn = escrow_of (fu_ledger (td_funds db)) m.

Lemma backed_balanced db m : backed db m -> balanced db m.
Proof.
  intros (yes & no & ry & rn & Hy & Hn & Ry & Rn & E1 & E2) y n a b Hy' Hn' Ha Hb. by simplify_eq.
Qed.

(** What an accepted settlement says of a backed market. *)
Record settled_facts (db : Db) (m : N) (held : list HoldingRow) (bps escrow : Z) (s : Settlement) : Prop := {
  sf_positive : 0 < escrow;
  sf_expected : s = expected_settlement (settlement_input held) bps escrow;
  sf_accounts : map fst (st_payouts s) = map ho_account held;
  sf_typed : Forall (fun ap => in_ty I64 (snd ap)) (st_payouts s);
  sf_dust : in_ty I64 (st_dust s);
  sf_total : zsum (map snd (st_payouts s)) + st_dust s = escrow }.

Lemma settle_positive db m held bps s :
  db_wf db -> backed db m -> holdings (td_book db) (fu_ledger (td_funds db)) m = Ok held ->
  let escrow := escrow_of (fu_ledger (td_funds db)) m in
  in_ty I64 escrow -> in_ty U16 bps -> settle_market (settlement_input held) bps escrow = Ok s -> 0 < escrow.
Proof.
  intros W (yes & no & ry & rn & Hy & Hn & Ry & Rn & E1 & E2) Hh escrow He Hb Hs.
  destruct (Z.lt_trichotomy escrow 0) as [Hneg|[Hz|]]; [exfalso|exfalso|done].
  - unfold settle_market in Hs. apply bind_Ok in Hs as ([a b] & _ & Hs).
    by rewrite (proj2 (Z.ltb_lt escrow 0) Hneg) in Hs.
  - destruct held as [|h held].
    + apply settle_only_complete in Hs as (_ & _ & Hne & _); [done|]. split_and!; try done.
    + pose proof (holdings_ok _ _ _ _ (tw_book _ W) Hh) as Hok.
      assert (Hnn : Forall (fun h => 0 <= h_shares h) (settlement_input (h :: held))).
      { apply Forall_fmap. eapply Forall_impl; [exact Hok|]. intros x (Hx & _). cbn. lia. }
      assert (Hle : h_shares (holding_input h) <= 0).
      { destruct (ho_side h) eqn:Es.
        - rewrite <- Hz. unfold escrow. rewrite <- E1.
          rewrite <- (holdings_presented _ _ _ _ Yes _ _ (tw_book _ W) Hh (tw_banked _ W) Hy Ry).
          apply presented_share; [done|left|done].
        - rewrite <- Hz. unfold escrow. rewrite <- E2.
          rewrite <- (holdings_presented _ _ _ _ No _ _ (tw_book _ W) Hh (tw_banked _ W) Hn Rn).
          apply presented_share; [done|left|done]. }
      apply Forall_cons in Hok as [(Hpos & _) _]. cbn in Hle. lia.
Qed.

Lemma settle_facts db m held bps s :
  db_wf db -> backed db m -> holdings (td_book db) (fu_ledger (td_funds db)) m = Ok held ->
  zlen held <= MAX_HOLDINGS ->
  let escrow := escrow_of (fu_ledger (td_funds db)) m in
  in_ty I64 escrow -> in_ty U16 bps -> settle_market (settlement_input held) bps escrow = Ok s ->
  settled_facts db m held bps escrow s.
Proof.
  intros W C Hh Hlen escrow He Hb Hs. pose proof (settle_positive _ _ _ _ _ W C Hh He Hb Hs) as Hpos. fold escrow in Hpos.
  pose proof (backed_balanced _ _ C) as B. destruct C as (yes & no & ry & rn & Hy & Hn & Ry & Rn & _).
  assert (Hbps : 0 <= bps <= 10000).
  { unfold settle_market, redemptions in Hs. destruct (Z.ltb_spec 10000 bps); [done|]. ty. }
  destruct (balanced_complete db m yes no ry rn held bps W B Hy Hn Ry Rn Hh) as [Hi Hc];
    [unfold MAX_HOLDINGS in Hlen; lia|done..|]. fold escrow in Hi, Hc.
  rewrite (settle_complete _ _ _ Hi Hc) in Hs. injection Hs as <-.
  destruct Hi as (Hty & _ & _ & _). destruct Hc as (_ & _ & Hne & Hnn & Py & Pn).
  pose proof (dust_bounds bps _ escrow Hbps Hnn Py Pn Hne) as Hd.
  assert (zlen (settlement_input held) <= MAX_HOLDINGS) by (unfold settlement_input, zlen in *; by rewrite length_map).
  split; [done|done|..]; cbn [expected_settlement st_payouts st_dust].
  - unfold settlement_input. by rewrite !map_map.
  - apply Forall_fmap, Forall_forall. intros h Hin. cbn. rewrite Forall_forall in Hty, Hnn.
    destruct (payout_bounds bps h Hbps (Hnn h Hin)). specialize (Hty h Hin). ty.
  - unfold MAX_HOLDINGS in *. ty.
  - rewrite map_map. change (paid_total bps (settlement_input held) + (escrow - paid_total bps (settlement_input held)) = escrow). lia.
Qed.

Lemma escrow_range led m : pg_wf led -> in_ty I64 (escrow_of led m).
Proof.
  intros W. unfold escrow_of, holding. destruct (List.find _ _) as [r|] eqn:Ef; [|ty].
  apply find_by in Ef as [Hr _]. apply (lw_range _ (pw_ledger _ W) (acct_id r) (pg_slot led r)).
  rewrite balances_lookup by apply W. by rewrite (proj2 (find_account_Some _ _ r (pw_ids _ W))) by done.
Qed.

(** A market with a pool has money to pay. *)
Lemma backed_positive db m : db_wf db -> backed db m -> 0 < escrow_of (fu_ledger (td_funds db)) m.
Proof.
  intros W (yes & no & ry & rn & _ & _ & Ry & _ & <- & _). apply (bw_reserves _ (tw_book _ W)) in Ry.
  assert (0 <= held_shares (td_book db) yes); [|lia]. unfold held_shares, msum. apply zsum_nonneg, Forall_forall.
  intros z ([k p] & -> & Hp%elem_of_map_to_list)%list_elem_of_fmap. cbn.
  destruct (_ =? _)%N; [|lia]. by apply (bw_positions _ (tw_book _ W)) in Hp as [_ ?].
Qed.

Lemma backed_settles db m held bps :
  db_wf db -> backed db m -> holdings (td_book db) (fu_ledger (td_funds db)) m = Ok held ->
  zlen held <= MAX_HOLDINGS -> 0 <= bps <= 10000 ->
  let escrow := escrow_of (fu_ledger (td_funds db)) m in
  settle_market (settlement_input held) bps escrow = Ok (expected_settlement (settlement_input held) bps escrow) /\
  zsum (map snd (st_payouts (expected_settlement (settlement_input held) bps escrow))) +
    st_dust (expected_settlement (settlement_input held) bps escrow) = escrow.
Proof.
  intros W C Hh Hlen Hb escrow. pose proof (backed_balanced _ _ C) as B. pose proof (backed_positive _ _ W C) as Hpos.
  pose proof (escrow_range _ m (fw_ledger _ (tw_funds _ W))) as Hty.
  pose proof C as (yes & no & ry & rn & Hy & Hn & Ry & Rn & E1 & E2).
  destruct (balanced_complete db m yes no ry rn held bps W B Hy Hn Ry Rn Hh) as [Hi Hc];
    [unfold MAX_HOLDINGS in Hlen; lia|done..|]. assert (Hs := settle_complete _ _ _ Hi Hc). split; [done|].
  apply (settle_facts db m held bps) in Hs; [apply Hs|done..|ty].
Qed.


Section Resolution.
Context `{UuidText} `{HashMapOrder}.
Context (oi_floor : Z) (rep_config : RepConfig) (sweep : IntegritySweepConfig)
  (crash_point : outcome StoreError unit) (actor : AdminContext) (time_json : Z -> Value).

Lemma enter_resolving_Ok cmd m b st b' :
  enter_resolving cmd m b = Ok (st, b') ->
  st = Resolving /\ framed (rs_market cmd) [] b b' /\ b' = set_markets (bk_markets b') b /\
  (mk_state m = Closed \/ mk_state m = Resolving) /\
  (mk_state m = Closed -> exists r, bk_markets b' !! rs_market cmd = Some r /\ ma_status r = "resolving").
Proof.
  unfold enter_resolving. case_bool_decide as E; [intros [= <- <-]; split_and!; [done|apply framed_refl|by destruct b|by right|congruence]|].
  intros (next & Hn & Hr)%bind_Ok. apply bind_Ok in Hr as (b1 & Hs%store_Ok & [= <- <-]).
  apply set_state_Ok in Hs as Hf. destruct Hf as [F (r & r' & _ & Hr' & St & _)].
  assert (next = Resolving) as -> by (destruct (mk_state m); try done; by injection Hn as <-).
  split_and!; [done|done| | |by exists r'].
  - unfold set_market_state, update_market in Hs. destruct (_ !! _); [|done]. by injection Hs as <-.
  - destruct (mk_state m); try done. by left.
Qed.

Lemma actual_yes_bps_U16 t bps : actual_yes_bps t = Ok (Some bps) -> in_ty U16 bps.
Proof.
  unfold actual_yes_bps. intros (total & _ & Hr)%bind_Ok. destruct (total =? 0); [done|].
  apply bind_Ok in Hr as (x & _ & Hr). apply bind_Ok in Hr as (y & _ & [= Hc]). by apply checked_Some in Hc as [-> Hc].
Qed.

(** A decision not to void is the tally's; a void is neutral. *)
Lemma final_decision_Ok cmd t min_votes interest voided bps :
  final_decision cmd t min_votes interest oi_floor = Ok (voided, bps) ->
  in_ty U16 bps /\ (if voided then bps = 5000 else actual_yes_bps t = Ok (Some bps)).
Proof.
  unfold final_decision, decide_outcome. destruct (rs_override cmd) as [[]|].
  - intros (f & Hf & Hr)%bind_Ok. apply bind_Ok in Hr as (b & ->%ok_or_Ok & [= <- <-]).
    split; [by eapply actual_yes_bps_U16|done].
  - intros [= <- <-]. split; [ty|done].
  - intros (f & Hf & Hr)%bind_Ok. apply bind_Ok in Hr as (total & _ & Hr). destruct f as [b|].
    + destruct (min_votes <=? total); [injection Hr as <- <-; split; [by eapply actual_yes_bps_U16|done]|].
      destruct (interest <? oi_floor); [|done]. injection Hr as <- <-. split; [ty|done].
    + destruct (interest <? oi_floor); [|done]. injection Hr as <- <-. split; [ty|done].
Qed.

(** The effect of a resolution that pays. *)
Record resolved (market : N) (voided : bool) (bps : Z) (txn : N) (db db' : Db) : Prop := {
  rv_frame : exists held, holdings (td_book db) (fu_ledger (td_funds db)) market = Ok held /\
    framed market (closed_keys held) (td_book db) (td_book db');
  rv_market : exists r, bk_markets (td_book db') !! market = Some r /\ ma_status r = settled_status voided /\
    ma_collateral_at_close r = Some (escrow_of (fu_ledger (td_funds db)) market);
  rv_escrow : forall m, escrow_of (fu_ledger (td_funds db')) m =
    if (m =? market)%N then 0 else escrow_of (fu_ledger (td_funds db)) m;
  rv_accounts : exists extra, pg_accounts (fu_ledger (td_funds db')) = pg_accounts (fu_ledger (td_funds db)) ++ extra;
  rv_log : exists extra, pg_txns (fu_ledger (td_funds db')) = pg_txns (fu_ledger (td_funds db)) ++ extra;
  rv_key : txn_by_key (fu_ledger (td_funds db')) (resolve_key market) = Some txn;
  rv_fresh : txn_by_key (fu_ledger (td_funds db)) (resolve_key market) = None;
  rv_decision : if voided then bps = 5000 else actual_yes_bps (tally (td_book db) market) = Ok (Some bps);
  rv_lots : lots_wf (td_funds db');
  rv_reserved : forall o, reserved o = true -> Postings.held (fu_ledger (td_funds db')) o Usdc =
    Postings.held (fu_ledger (td_funds db)) o Usdc }.

Lemma settle_now_Ok ids db_now now cmd m escrow locked db r db' :
  db_wf db -> lots_wf (td_funds db) -> backed db (rs_market cmd) ->
  (forall held, holdings (td_book db) (fu_ledger (td_funds db)) (rs_market cmd) = Ok held -> zlen held <= MAX_HOLDINGS) ->
  in_ty I64 escrow -> escrow = escrow_of (fu_ledger (td_funds db)) (rs_market cmd) ->
  settle_now oi_floor rep_config crash_point actor ids db_now now cmd m Resolving escrow locked db = Ok (r, db') ->
  exists voided bps txn, r = settled_receipt (rs_market cmd) voided bps txn /\
    resolved (rs_market cmd) voided bps txn db db'.
Proof.
  intros W Wl C Hlen Hty He Hr. unfold settle_now in Hr. cbv zeta in Hr. set (k := rs_market cmd) in *.
  apply bind_Ok in Hr as (interest & _ & Hr). apply bind_Ok in Hr as ([voided bps] & Hd & Hr).
  apply final_decision_Ok in Hd as [Hb Hdec].
  apply bind_Ok in Hr as (held & Hh%store_Ok & Hr). apply bind_Ok in Hr as (s & Hs%map_err_Ok & Hr).
  apply bind_Ok in Hr as ([txn led] & Hp & Hr). apply bind_Ok in Hr as ([] & _ & Hr).
  specialize (Hlen _ Hh). rewrite He in Hty, Hs. pose proof (settle_facts _ _ _ _ _ W C Hh Hlen Hty Hb Hs) as Fx.
  rewrite <- He in Fx. destruct Fx as [Hpos Hexp Hacc Htyp Hdust Htot].
  pose proof (holdings_ok _ _ _ _ (tw_book _ W) Hh) as Hok.
  apply (post_payout_Ok _ (td_book db) k held) in Hp as [X E U T K N HW]; [|apply W|done..|rewrite Htot; ty].
  apply settle_rows_Ok in Hr as [-> [F M Q L]].
  - exists voided, bps, txn. split; [done|]. cbn in F, Q. split; try done.
    + by exists held.
    + by rewrite <- He.
    + intros m'. rewrite (qt_escrow _ _ _ Q eq_refl), E, Htot. destruct (N.eqb_spec m' k) as [->|]; [rewrite He; lia|lia].
    + destruct X as [_ [x A] _], Q as [_ _ [y B] _]. exists (x ++ y). by rewrite B, A, app_assoc.
    + destruct X as [_ _ [x Hx]], Q as [_ _ _ [y Hy]]. exists (x ++ y). by rewrite Hy, Hx, app_assoc.
    + by apply (quiet_key _ _ _ _ _ Q).
    + intros o Ho. rewrite <- HW by done. by apply (qt_holding _ _ _ Q o Usdc), reserved_escrowed.
  - destruct Wl as [[_ Wa] Wk]. split; [split; [apply X|]|]; done.
  - by rewrite <- (length_map fst (st_payouts s)), Hacc, length_map.
  - intros key p Hk. by apply (bw_positions _ (tw_book _ W)) in Hk as [? _].
Qed.

(** Waiting for review changes the market's row only. *)
Record under_review (market : N) (db db' : Db) : Prop := {
  ur_frame : framed market [] (td_book db) (td_book db');
  ur_funds : td_funds db' = td_funds db;
  ur_row : exists r, bk_markets (td_book db') !! market = Some r /\ ma_status r = "resolving" }.

Lemma hold_for_review_Ok now m st db r db' :
  (exists row, bk_markets (td_book db) !! mk_id m = Some row /\ ma_status row = "resolving") ->
  hold_for_review sweep actor time_json now m st db = Ok (r, db') ->
  (exists due, r = mkResolveReceipt (mk_id m) (HeldForReview due) None None false) /\ under_review (mk_id m) db db'.
Proof.
  intros (row & Hrow & Hst) (delay & _ & Hr)%bind_Ok. apply bind_Ok in Hr as (due & _ & Hr).
  apply bind_Ok in Hr as (b1 & H1%store_Ok & Hr). apply framed_book in H1 as [F1 (r0 & M0 & M1)]; [|done].
  apply bind_Ok in Hr as (b2 & H2%store_Ok & [= <- <-]). split; [by eexists|].
  assert (F2 : framed (mk_id m) [] b1 b2 /\ bk_markets b2 = bk_markets b1).
  { unfold record_lifecycle_command in H2. case_bool_decide; [done|]. by injection H2 as <-. }
  destruct F2 as [F2 M2]. rewrite Hrow in M0. injection M0 as <-. unfold audit_resolution.
  destruct actor; (split; [by eapply framed_nil|done|cbn; rewrite M2, M1; by eexists]).
Qed.

Lemma market_for_update_id b k m : market_for_update b k = Ok m -> mk_id m = k.
Proof.
  unfold market_for_update. destruct (bk_markets b !! k) as [r|]; [|done].
  destruct (outcome_of b k 0); [|done]. destruct (outcome_of b k 1); [|done].
  unfold market_from_row. intros Hr. inv_run Hr. by injection Hr as <-.
Qed.

Definition bounded_holdings (db : Db) (market : N) : Prop :=
  forall held, holdings (td_book db) (fu_ledger (td_funds db)) market = Ok held -> zlen held <= MAX_HOLDINGS.

(** Entering [Resolving] keeps the tables well formed and the market backed. *)
Lemma entered_wf db b : b = set_markets (bk_markets b) (td_book db) -> db_wf db -> db_wf (set_book b db).
Proof.
  intros E [Wf Wb Wt Wk]. split; cbn; [done| |rewrite E; done|rewrite E; done].
  rewrite E. destruct Wb. by split.
Qed.

Lemma escrow_balance_Ok led m z : pg_wf led -> escrow_balance led m = Ok z -> z = escrow_of led m /\ in_ty I64 z.
Proof.
  intros W (a & Ha%ok_or_Ok & Hz)%bind_Ok. unfold bigint in Hz. apply ok_or_Ok, checked_Some in Hz as [-> Hty].
  rewrite escrow_held, (held_owns led a) by (done || by apply find_owner_owns). done.
Qed.

Lemma resolve_locked_Ok ids db_now now cmd m locked db r db' :
  db_wf db -> lots_wf (td_funds db) -> backed db (rs_market cmd) -> bounded_holdings db (rs_market cmd) ->
  mk_id m = rs_market cmd ->
  resolve_locked oi_floor rep_config sweep crash_point actor time_json ids db_now now cmd m locked db = Ok (r, db') ->
  ((exists due, r = mkResolveReceipt (rs_market cmd) (HeldForReview due) None None false) /\
     under_review (rs_market cmd) db db') \/
  exists voided bps txn, r = settled_receipt (rs_market cmd) voided bps txn /\
    resolved (rs_market cmd) voided bps txn db db'.
Proof.
  intros W Wl C Hlen Hid Hr. unfold resolve_locked in Hr. apply bind_Ok in Hr as ([] & _ & Hr).
  apply bind_Ok in Hr as ([st b1] & (-> & F1 & E1 & _ & Hst)%enter_resolving_Ok & Hr). cbn in Hr.
  apply bind_Ok in Hr as (escrow & He%store_Ok & Hr). apply escrow_balance_Ok in He as [He Hty]; [|apply W].
  destruct (_ && _) eqn:Hc in Hr.
  - left. apply andb_true_iff in Hc as [Hc%bool_decide_eq_true _].
    apply hold_for_review_Ok in Hr as [Hd [F2 U R2]]; [|cbn; rewrite Hid; auto]. rewrite Hid in Hd, F2, R2. split; [done|].
    cbn in F2, U. split; [by eapply framed_nil|done|done].
  - right. apply settle_now_Ok in Hr as (voided & bps & txn & -> & R); [|by apply entered_wf|done| | |done|done].
    + exists voided, bps, txn. split; [done|]. destruct R as [(held & Hh & F) M E A T K N D L HW]. cbn in *.
      split; try done.
      * exists held. split; [rewrite <- Hh, E1; done|]. by eapply (framed_trans _ []).
      * by rewrite <- (framed_tally _ _ _ _ F1).
    + destruct C as (yes & no & ry & rn & C). exists yes, no, ry, rn. cbn. rewrite E1. done.
    + intros held Hh. apply Hlen. rewrite <- Hh. cbn. rewrite E1. done.
Qed.

(** One attempt, whatever committed between its first reads and its locks. *)
Lemma resolve_attempt_Ok ids db_now now cmd pre db r db' :
  db_wf db -> lots_wf (td_funds db) -> backed db (rs_market cmd) -> bounded_holdings db (rs_market cmd) ->
  resolve_attempt oi_floor rep_config sweep crash_point actor time_json ids db_now now cmd pre db = Ok (Some (r, db')) ->
  (exists txn, txn_by_key (fu_ledger (td_funds pre)) (resolve_key (rs_market cmd)) = Some txn /\
     db' = pre /\ replay_receipt (rs_market cmd) txn pre = Ok r /\ ro_replayed r = true) \/
  (exists m, market_for_update (td_book db) (rs_market cmd) = Ok m) /\
  (((exists due, r = mkResolveReceipt (rs_market cmd) (HeldForReview due) None None false) /\
     under_review (rs_market cmd) db db') \/
   exists voided bps txn, r = settled_receipt (rs_market cmd) voided bps txn /\
     resolved (rs_market cmd) voided bps txn db db').
Proof.
  intros W Wl C Hlen Hr. unfold resolve_attempt in Hr. destruct (txn_by_key _ _) as [txn|] eqn:Ek.
  - apply bind_Ok in Hr as (r0 & Hr0 & [= <- <-]). left. exists txn. split_and!; [done..|].
    unfold replay_receipt in Hr0. apply bind_Ok in Hr0 as (row & _ & Hr0). apply bind_Ok in Hr0 as ([o b] & _ & [= <-]). done.
  - apply bind_Ok in Hr as (prelock & _ & Hr). apply bind_Ok in Hr as (reps & _ & Hr).
    apply bind_Ok in Hr as (m & Hm%store_Ok & Hr). apply bind_Ok in Hr as (postlock & _ & Hr).
    destruct (negb _) in Hr; [done|]. apply bind_Ok in Hr as ([r0 d0] & Hr & [= <- <-]). right.
    split; [by exists m|]. apply resolve_locked_Ok in Hr; try done. by eapply market_for_update_id.
Qed.
End Resolution.

(** ** Lemmas: invariants across a resolution *)

Section Invariants.
Context `{UuidText} `{HashMapOrder}.

Lemma resolved_wf market voided bps txn db db' :
  db_wf db -> resolved market voided bps txn db db' -> db_wf db'.
Proof.
  intros [Wf Wb Wt Wk] [(held & _ & F) _ _ [x A] [y T] _ _ _ L _]. split; [apply L|by eapply framed_wf| |].
  - rewrite (fr_trades _ _ _ _ F). eapply Forall_impl; [exact Wt|]. cbn. intros t Ht. rewrite T, map_app. apply elem_of_app. by left.
  - intros k q (p & Hp)%(framed_positions _ _ _ _ F). eapply find_owner_app; [exact A|by eapply Wk].
Qed.

Lemma framed_backed db db' m keys m' :
  framed m keys (td_book db) (td_book db') ->
  (forall u out i, outcome_of (td_book db) m' i = Some out -> (u, out) ∉ keys) ->
  escrow_of (fu_ledger (td_funds db')) m' = escrow_of (fu_ledger (td_funds db)) m' ->
  backed db m' -> backed db' m'.
Proof.
  intros F Hk E (yes & no & ry & rn & Hy & Hn & Ry & Rn & E1 & E2). exists yes, no, ry, rn.
  rewrite !(framed_outcome_of _ _ _ _ F), (fr_reserves _ _ _ _ F), E, !(framed_held_same _ _ _ _ F) by eauto. done.
Qed.

(** Paying one market leaves the cover of every other. *)
Lemma resolved_backed market voided bps txn db db' m :
  db_wf db -> resolved market voided bps txn db db' -> m <> market -> backed db m -> backed db' m.
Proof.
  intros W [(held & Hh & F) _ E _ _ _ _ _ _ _] Hm. eapply framed_backed; [exact F| |rewrite E; by rewrite (proj2 (N.eqb_neq m market))].
  intros u out i Ho Hk. pose proof (holdings_ok _ _ _ _ (tw_book _ W) Hh) as Hok.
  destruct (closed_keys_market _ _ _ _ _ _ Hok Hk) as (o & Hin & Hid & Hom).
  apply outcome_of_elem in Ho as (o' & Hin' & Hid' & Hom' & _). apply Hm. rewrite <- Hom, <- Hom'. f_equal.
  apply (nodup_map_inj _ _ _ _ (bw_outcomes _ (tw_book _ W))); congruence.
Qed.

Lemma resolved_closed market voided bps txn db db' o :
  db_wf db -> resolved market voided bps txn db db' -> o ∈ bk_outcomes (td_book db) -> oc_market o = market ->
  held_shares (td_book db') (oc_id o) = 0.
Proof. intros W [(held & Hh & F) _ _ _ _ _ _ _ _ _] Ho Hm. eapply closed_all; [apply W|done|done|apply W|done|done]. Qed.

Lemma framed_db_wf market db db' :
  db_wf db -> framed market [] (td_book db) (td_book db') -> td_funds db' = td_funds db -> db_wf db'.
Proof.
  intros [Wf Wb Wt Wk] F E. split; rewrite ?E; [done|by eapply framed_wf|by rewrite (fr_trades _ _ _ _ F)|].
  intros k q (p & Hp)%(framed_positions _ _ _ _ F). by eapply Wk.
Qed.

Lemma review_backed market db db' m : under_review market db db' -> backed db m -> backed db' m.
Proof. intros [F E _]. eapply framed_backed; [exact F|set_solver|by rewrite E]. Qed.

(** The row of a settled market still reads. *)
Lemma resolved_row market voided bps txn db db' m :
  resolved market voided bps txn db db' -> market_for_update (td_book db) market = Ok m ->
  exists m', market_for_update (td_book db') market = Ok m' /\ mk_state m' = (if voided then Voided else Paid).
Proof.
  intros [(held & _ & F) (r' & Hr' & Hst & _) _ _ _ _ _ _ _] Hm. unfold market_for_update in *.
  pose proof (fr_times _ _ _ _ F market) as Ht. rewrite Hr' in Ht |- *. rewrite !(framed_outcome_of _ _ _ _ F).
  destruct (bk_markets (td_book db) !! market) as [r|]; [|done]. cbn in Ht. unfold window_of in Ht. injection Ht as T1 T2 T3.
  destruct (outcome_of (td_book db) market 0); [|done]. destruct (outcome_of (td_book db) market 1); [|done]. unfold market_from_row in *. rewrite T1, T2, T3, Hst.
  destruct (ma_closes_at r), (ma_tally_hidden_at r), (ma_opens_at r); cbn [ok_or mbind outcome_bind] in *; try done;
    [|by destruct (market_state (ma_status r))].
  destruct voided; cbn; by eexists.
Qed.

(** A settled market answers every later request with its first receipt. *)
Definition replayed_receipt (r : ResolveReceipt) : ResolveReceipt :=
  mkResolveReceipt (ro_market r) (ro_outcome r) (ro_final_yes_bps r) (ro_ledger_txn r) true.

Lemma resolved_replays market voided bps txn db db' m :
  resolved market voided bps txn db db' -> market_for_update (td_book db) market = Ok m ->
  replay_receipt market txn db' = Ok (replayed_receipt (settled_receipt market voided bps txn)).
Proof.
  intros R Hm. destruct (resolved_row _ _ _ _ _ _ _ R Hm) as (m' & Hm' & Hst). unfold replay_receipt. rewrite Hm'. cbn.
  rewrite Hst. destruct R as [(held & _ & F) _ _ _ _ _ _ D _]. destruct voided; cbn; [by subst|].
  by rewrite (framed_tally _ _ _ _ F), D.
Qed.
End Invariants.

(** ** A market to settle *)

(** Market 10 closed with user 7 holding 300 of its 1000 sets on the yes side. *)
Definition demo_close_ledger : PgLedger := pg_opened 4 demo_market_ledger PoolOwner (Some 10%N) Usdc.

Definition demo_close_db : Db :=
  set_funds (set_ledger demo_close_ledger (td_funds demo_market_db))
    (set_book (set_reserves (<[11%N := 700000000]> {[ 12%N := 1000000000 ]})
      (set_positions {[ (7%N, 11%N) := mkPosition 7 11 300000000 120000000 0 ]}
        (set_markets {[ 10%N := mkMarketRecord "closed" 1 1 (Some 0) (Some 900) (Some 800) None None None None None ]}
          (td_book demo_market_db)))) demo_market_db).

Definition demo_sweep : IntegritySweepConfig := mkSweepConfig 100000000000 3600 60 10 1 1 1 1 1 1 1.
Definition demo_resolve_ids : ResolveIds :=
  mkResolveIds (fun n => N.of_nat (500 + n)) (fun i n => N.of_nat (600 + 10 * i + n)) (fun n => N.of_nat (700 + n))
    (fun i j n => N.of_nat (800 + 100 * i + 10 * j + n)).
Definition demo_resolve : ResolveMarketCmd := mkResolve 10 None.

Definition demo_attempt : outcome AppError (option (ResolveReceipt * Db)) :=
  resolve_attempt (H0 := canonical_order) 1 demo_rep demo_sweep (Ok tt) Machine JInt demo_resolve_ids 1000 1000 demo_resolve
    demo_close_db demo_close_db.

Definition demo_resolved_db : Db :=
  match demo_attempt with Ok (Some (_, d)) => d | _ => demo_close_db end.
Definition demo_resolve_receipt : ResolveReceipt := settled_receipt 10 false 10000 502.

Lemma demo_attempt_ok : demo_attempt = Ok (Some (demo_resolve_receipt, demo_resolved_db)).
Proof.
  assert (Hr : match demo_attempt with Ok (Some (r, _)) => Some r | _ => None end = Some demo_resolve_receipt)
    by (vm_compute; reflexivity).
  unfold demo_resolved_db. destruct demo_attempt as [[[r d]|]| |]; try done. by injection Hr as ->.
Qed.

Lemma demo_close_ledger_wf : pg_wf demo_close_ledger.
Proof.
  apply (account_wf 4 demo_market_ledger (Ref.MarketPool 10) Usdc _ 4); [apply demo_market_ledger_wf|].
  vm_compute. reflexivity.
Qed.

Lemma demo_close_wf : db_wf demo_close_db.
Proof.
  split; [split; [apply demo_close_ledger_wf|by intros l r]| |constructor|].
  - split; [apply (bool_decide_unpack _); vm_compute; exact I..| | |].
    + intros out r. cbn. intros [[<- <-]|[_ [_ <-]%lookup_singleton_Some]]%lookup_insert_Some; done.
    + intros k p. cbn. intros [<- <-]%lookup_singleton_Some. done.
    + intros k p. cbn. intros [<- <-]%lookup_singleton_Some. left.
  - intros k p. cbn [td_book set_funds set_book demo_close_db bk_positions set_reserves set_positions].
    intros [<- _]%lookup_singleton_Some. vm_compute. by eexists.
Qed.

Lemma demo_close_lots : lots_wf (td_funds demo_close_db).
Proof. split; [apply demo_close_wf|by intros l r]. Qed.

Lemma demo_close_backed : backed demo_close_db 10.
Proof. exists 11%N, 12%N, 700000000, 1000000000. vm_compute. split_and!; reflexivity. Qed.

Definition demo_held : list HoldingRow :=
  [mkHolding 2 (HeldByUser 7) 11 Yes 300000000; mkHolding 4 HeldByPool 11 Yes 700000000;
   mkHolding 4 HeldByPool 12 No 1000000000].

Lemma demo_holdings_ok :
  holdings (td_book demo_close_db) (fu_ledger (td_funds demo_close_db)) 10 = Ok demo_held.
Proof. vm_compute. reflexivity. Qed.

Lemma demo_close_bounded : bounded_holdings demo_close_db 10.
Proof. intros held. rewrite demo_holdings_ok. intros [= <-]. vm_compute. discriminate. Qed.

(** ** Properties *)

(** C27: resolving a market pays out its escrow to the last unit and touches no
    other market.  If an attempt to resolve a backed market writes a payout,
    whatever committed between its first reads and its locks, then afterwards
    the market's escrow is exactly zero, no user holds a share of any of its
    outcomes, its row says paid or voided and records the settled collateral,
    every other market's escrow is unchanged and every other backed market
    is still backed. *)
Theorem resolution_pays_the_escrow `{UuidText} `{HashMapOrder} (oi_floor : Z) (rep_config : RepConfig)
    (sweep : IntegritySweepConfig) (crash_point : outcome StoreError unit) (actor : AdminContext)
    (time_json : Z -> Value) (ids : ResolveIds) (db_now now : Z) (cmd : ResolveMarketCmd) (pre db db' : Db)
    (r : ResolveReceipt) :
  db_wf db -> lots_wf (td_funds db) -> backed db (rs_market cmd) -> bounded_holdings db (rs_market cmd) ->
  resolve_attempt oi_floor rep_config sweep crash_point actor time_json ids db_now now cmd pre db = Ok (Some (r, db')) ->
  ro_replayed r = false -> ro_ledger_txn r <> None ->
  db_wf db' /\ lots_wf (td_funds db') /\ escrow_of (fu_ledger (td_funds db')) (rs_market cmd) = 0 /\
  (forall o, o ∈ bk_outcomes (td_book db) -> oc_market o = rs_market cmd ->
     held_shares (td_book db') (oc_id o) = 0) /\
  (exists row, bk_markets (td_book db') !! rs_market cmd = Some row /\
     (ma_status row = "paid" \/ ma_status row = "voided") /\
     ma_collateral_at_close row = Some (escrow_of (fu_ledger (td_funds db)) (rs_market cmd))) /\
  (forall m, m <> rs_market cmd ->
     escrow_of (fu_ledger (td_funds db')) m = escrow_of (fu_ledger (td_funds db)) m /\
     (backed db m -> backed db' m)).
Proof.
  intros W L C Hb Hr Hnr Htxn. apply resolve_attempt_Ok in Hr as [(txn & _ & _ & _ & E)|[_ [[[due ->] _]|(v & bps & txn & -> & R)]]];
    [congruence|done| |done..].
  pose proof R as [_ (row & Hrow & Hst & Hco) E _ _ _ _ _ L']. split_and!; [by eapply resolved_wf|done| | | |].
  - rewrite E. by rewrite N.eqb_refl.
  - intros o. by eapply resolved_closed.
  - exists row. split_and!; [done| |done]. rewrite Hst. destruct v; auto.
  - intros m Hm. split; [rewrite E; by rewrite (proj2 (N.eqb_neq m _))|by eapply resolved_backed].
Qed.

Lemma resolution_pays_the_escrow_witness :
  escrow_of (fu_ledger (td_funds demo_resolved_db)) 10 = 0 /\ held_shares (td_book demo_resolved_db) 11 = 0.
Proof.
  pose proof demo_attempt_ok as E. unfold demo_attempt in E.
  destruct (resolution_pays_the_escrow (H0 := canonical_order) 1 demo_rep demo_sweep (Ok tt) Machine JInt demo_resolve_ids
    1000 1000 demo_resolve demo_close_db demo_close_db demo_resolved_db demo_resolve_receipt demo_close_wf demo_close_lots
    demo_close_backed demo_close_bounded E eq_refl) as (_ & _ & Hz & Hh & _); [discriminate|].
  split; [exact Hz|]. apply (Hh (mkOutcome 11 10 0 None None)); [left|reflexivity].
Defined.

(** a resolution is paid once.  After an attempt paid a market, every later
    attempt for it whose first reads see those tables, whatever curator
    decision it carries, answers with the first receipt, marked as replayed
    and with the same outcome, result and ledger transaction, and leaves the
    tables as they are. *)
Theorem resolution_replays `{UuidText} `{HashMapOrder} (oi_floor : Z) (rep_config : RepConfig)
    (sweep : IntegritySweepConfig) (crash_point : outcome StoreError unit) (actor : AdminContext)
    (time_json : Z -> Value) (ids : ResolveIds) (db_now now : Z) (cmd : ResolveMarketCmd) (pre db db' : Db)
    (r : ResolveReceipt) :
  db_wf db -> lots_wf (td_funds db) -> backed db (rs_market cmd) -> bounded_holdings db (rs_market cmd) ->
  resolve_attempt oi_floor rep_config sweep crash_point actor time_json ids db_now now cmd pre db = Ok (Some (r, db')) ->
  ro_replayed r = false -> ro_ledger_txn r <> None ->
  forall ids' db_now' now' override later,
    resolve_attempt oi_floor rep_config sweep crash_point actor time_json ids' db_now' now'
      (mkResolve (rs_market cmd) override) db' later = Ok (Some (replayed_receipt r, db')).
Proof.
  intros W L C Hb Hr Hnr Htxn ids' dn' n' ov later.
  apply resolve_attempt_Ok in Hr as [(txn & _ & _ & _ & E)|[[m Hm] [[[due ->] _]|(v & bps & txn & -> & R)]]];
    [congruence|done| |done..].
  unfold resolve_attempt. cbn [rs_market]. rewrite (rv_key _ _ _ _ _ _ R).
  by rewrite (resolved_replays _ _ _ _ _ _ _ R Hm).
Qed.

Lemma resolution_replays_witness :
  resolve_attempt (H0 := canonical_order) 1 demo_rep demo_sweep (Ok tt) Machine JInt demo_resolve_ids 2000 2000
    (mkResolve 10 (Some VoidDecision)) demo_resolved_db demo_resolved_db =
  Ok (Some (replayed_receipt demo_resolve_receipt, demo_resolved_db)).
Proof.
  pose proof demo_attempt_ok as E. unfold demo_attempt in E.
  exact (resolution_replays (H0 := canonical_order) 1 demo_rep demo_sweep (Ok tt) Machine JInt demo_resolve_ids
    1000 1000 demo_resolve demo_close_db demo_close_db demo_resolved_db demo_resolve_receipt demo_close_wf demo_close_lots
    demo_close_backed demo_close_bounded E eq_refl ltac:(discriminate) demo_resolve_ids 2000 2000 (Some VoidDecision)
    demo_resolved_db).
Defined.
