(* ===== verification/Lifecycle.v ===== *)
(** * Lifecycle: opening markets and moving them along

    [application/src/ensure_genesis.rs], [seed_market.rs], [advance_market.rs]
    and [advance_due.rs] over [pg/deposit_tx.rs], [pg/economy_tx.rs],
    [pg/advance_tx.rs], [pg/integrity_tx.rs] and the due query of
    [pg/store.rs]: capitalizing the house, creating a market with its pool and
    seed collateral, the whitelisted lifecycle events, and the scheduler's
    sweep, which cascades every due market across its boundaries, resolves it,
    writes integrity reports and flags the curator.  A sweep reads one instant
    of the clock and meets tables no other transaction changes meanwhile. *)

From S2P Require Import Prelude Money Amm Ledger Market Resolution Economy Integrity Chars Errors Credits PgLedger Json Config Fences ConfigStore Compliance Collect Postings Book Referrals Resolve.
#[local] Open Scope string_scope.
#[local] Open Scope list_scope.
#[local] Open Scope Z_scope.

(** ** Genesis, [ensure_genesis.rs] *)

Record EnsureGenesisCmd := mkGenesis { ge_currency : Currency; ge_amount : Z }.
Record GenesisReceipt := mkGenesisReceipt { gn_ledger_txn : N; gn_replayed : bool }.

Definition genesis_key (c : Currency) : string :=
  "genesis:house:" +:+ match c with Usdc => "usdc" | UsdcCredit => "usdc_credit" end.

Definition debug_currency (c : Currency) : string :=
  match c with Usdc => "Usdc" | UsdcCredit => "UsdcCredit" end.

Definition ensure_genesis `{HashMapOrder} (fresh : nat -> N) (cmd : EnsureGenesisCmd) (db : Db) :
    outcome AppError GenesisReceipt * Db :=
  let key := genesis_key (ge_currency cmd) in
  let led := fu_ledger (td_funds db) in
  atomic db (
    match txn_by_key led key with
    | Some txn => Ok (mkGenesisReceipt txn true, db)
    | None =>
        '(led, external) ← store (account (fresh 0%nat) led Ref.External (ge_currency cmd));
        '(led, house) ← store (account (fresh 1%nat) led Ref.House (ge_currency cmd));
        neg ← arith I64 (- ge_amount cmd);
        '(led, txn) ← store (ledger_apply (fresh 2%nat) led Deposit key
            [{| e_account := external; e_amount := neg |}; {| e_account := house; e_amount := ge_amount cmd |}]);
        let db := append_event (mkEvent "GenesisEnsured" "house" house
            (JObject [("amount_micro", JInt (ge_amount cmd)); ("currency", JString (debug_currency (ge_currency cmd)))]))
            (set_funds (set_ledger led (td_funds db)) db) in
        Ok (mkGenesisReceipt txn false, db)
    end).

(** ** New markets, [pg/deposit_tx.rs] and [pg/economy_tx.rs] *)

Record NewMarket := mkNewMarket {
  nm_id : N; nm_slug : string; nm_min_votes : Z; nm_closes_at : Z; nm_tally_hidden_at : Z }.

(** The row, with the check and the unique keys of [markets]; the two outcomes,
    with theirs.  The projection of [markets] that the configuration reads
    grows with the table. *)
Definition insert_market (fresh : nat -> N) (db_now : Z) (m : NewMarket) (db : Db) : outcome StoreError (N * Db) :=
  let b := td_book db in
  if nm_min_votes m <=? 0 then Err (Store.Integrity "markets_min_votes_to_resolve_check") else
  if bool_decide (is_Some (bk_markets b !! nm_id m)) || bool_decide (nm_slug m ∈ bk_slugs b)
  then Err (Store.Conflict "market") else
  let row := mkMarketRecord "draft" (nm_min_votes m) 0 (Some db_now) (Some (nm_closes_at m))
               (Some (nm_tally_hidden_at m)) None None None None None in
  let sides := [mkOutcome (fresh 0%nat) (nm_id m) 0 None None; mkOutcome (fresh 1%nat) (nm_id m) 1 None None] in
  if bool_decide (fresh 0%nat = fresh 1%nat) ||
     existsb (fun o => existsb (fun s => (oc_id o =? oc_id s)%N ||
                ((oc_market o =? oc_market s)%N && (oc_idx o =? oc_idx s))) sides) (bk_outcomes b)
  then Err (Store.Integrity "outcomes unique key") else
  let ops := td_ops db in
  Ok (nm_id m,
      set_ops (mkOpsDb (db_generation ops) (db_generations ops) (db_entries ops) (db_changes ops)
                 (db_proposals ops) (db_audit ops) (db_outbox ops)
                 (<[nm_id m := (nm_tally_hidden_at m, nm_closes_at m)]> (db_markets ops)))
        (set_book (set_slugs ({[ nm_slug m ]} ∪ bk_slugs b) (set_outcomes (bk_outcomes b ++ sides)
           (set_markets (<[nm_id m := row]> (bk_markets b)) b))) db)).

(** The pool, its account, and one reserve row per side. *)
Definition create_pool (fresh : N) (market : N) (fee seeded : Z) (db : Db) : outcome StoreError Db :=
  let b := td_book db in
  if seeded <? 0 then Err (Store.Integrity "pools_seeded_micro_check") else
  if bool_decide (is_Some (bk_pools b !! market)) then Err (Store.Integrity "pools_market_id_key") else
  let b := set_pools (<[market := mkPoolRecord fee seeded]> (bk_pools b)) b in
  '(led, _) ← account fresh (fu_ledger (td_funds db)) (Ref.MarketPool market) Usdc;
  let sides := List.filter (fun o => (oc_market o =? market)%N && ((oc_idx o =? 0) || (oc_idx o =? 1)))
                 (bk_outcomes b) in
  if existsb (fun o => bool_decide (is_Some (bk_reserves b !! oc_id o))) sides
  then Err (Store.Integrity "pool_reserves_pkey") else
  if negb (zlen sides =? 2) then Err (Store.Invariant "market does not have exactly two outcomes") else
  Ok (set_funds (set_ledger led (td_funds db))
        (set_book (set_reserves (fold_left (fun m o => <[oc_id o := seeded]> m) sides (bk_reserves b)) b) db)).

(** The market whose escrow a seed transaction with the key credited. *)
Definition seeded_market_by_key (led : PgLedger) (key : string) : option N :=
  match List.find (fun t => String.eqb (txn_key t) key && bool_decide (txn_kind t = Seed)) (pg_txns led) with
  | None => None
  | Some t =>
      head (omap (fun e : EntryRow =>
        if bool_decide (entry_txn e = txn_id t) && (entry_amount e >? 0) then
          match find_account led (entry_account e) with
          | Some a => if bool_decide (acct_type a = Escrow) then acct_owner a else None
          | None => None
          end
        else None) (pg_entries led))
  end.

(** [sum(lp_pnl_micro)::bigint] over the markets settled in the window. *)
Definition lp_pnl_sum (b : Book) (since until : Z) : outcome StoreError Z :=
  bigint (msum (fun _ r => match ma_settled_at r, ma_lp_pnl r with
                           | Some s, Some pnl => if (since <=? s) && (s <? until) then pnl else 0
                           | _, _ => 0
                           end) (bk_markets b)).

(** ** [seed_market.rs] *)

Record LpKillConfig := mkLpKill { lk_max_loss_micro : Z; lk_window_days : Z }.

Definition lp_kill_validate (c : LpKillConfig) : outcome string LpKillConfig :=
  if lk_max_loss_micro c <=? 0 then Err "maximum loss must be positive" else
  if lk_window_days c =? 0 then Err "window days must be positive" else Ok c.

Record SeedMarketCmd := mkSeedMarket {
  sm_market : N; sm_slug : string; sm_min_votes : Z; sm_closes_at : Z; sm_tally_hidden_at : Z; sm_fee : Z;
  sm_seed : Z; sm_key : string; sm_force : bool }.

Record SeedReceipt := mkSeedReceipt { sr_market : N; sr_replayed : bool }.

Definition map_seed_ledger_error (e : StoreError) : AppError :=
  match e with
  | Store.Ledger (InsufficientFunds _) => App.InsufficientFunds
  | other => App.Store other
  end.

(** The loss breaker: an event when it was overridden. *)
Definition check_lp_kill (config : LpKillConfig) (now : Z) (cmd : SeedMarketCmd) (db : Db) : outcome AppError Db :=
  since ← datetime (now - lk_window_days config * 86400);
  pnl ← store (lp_pnl_sum (td_book db) since now);
  floor ← arith I64 (- lk_max_loss_micro config);
  if pnl <=? floor then
    if negb (sm_force cmd) then Err App.LpPaused else
    Ok (append_event (mkEvent "LpKillOverride" "market" (sm_market cmd)
          (JObject [("lp_pnl_micro", JInt pnl); ("max_loss_micro", JInt (lk_max_loss_micro config));
                    ("seed_time_only", JBool true); ("window_days", JInt (lk_window_days config))])) db)
  else Ok db.

(** The seed posting: house to escrow. *)
Definition post_seed `{HashMapOrder} (fresh : nat -> N) (market : N) (cmd : SeedMarketCmd) (led : PgLedger) :
    outcome AppError PgLedger :=
  '(led, house) ← store (account (fresh 0%nat) led Ref.House Usdc);
  '(led, escrow) ← store (account (fresh 1%nat) led (Ref.MarketEscrow market) Usdc);
  neg ← arith I64 (- sm_seed cmd);
  '(led, _) ← map_err map_seed_ledger_error (ledger_apply (fresh 2%nat) led Seed (sm_key cmd)
      [{| e_account := house; e_amount := neg |}; {| e_account := escrow; e_amount := sm_seed cmd |}]);
  Ok led.

(** The identifiers a seed draws: outcomes, pool account, ledger. *)
Record SeedIds := mkSeedIds { sd_sides : nat -> N; sd_pool : N; sd_post : nat -> N }.

Definition seed_market `{HashMapOrder} (rep_config : RepConfig) (config : LpKillConfig) (ids : SeedIds)
    (db_now now : Z) (cmd : SeedMarketCmd) (db : Db) : outcome AppError SeedReceipt * Db :=
  atomic db (
    if sm_seed cmd <=? 0 then Err (App.Amm EmptyPool) else
    if sm_fee cmd <? rep_min_fee_bps rep_config
    then Err (App.SeedFeeBelowMinimum (sm_fee cmd) (rep_min_fee_bps rep_config)) else
    match seeded_market_by_key (fu_ledger (td_funds db)) (sm_key cmd) with
    | Some market => Ok (mkSeedReceipt market true, db)
    | None =>
        db ← check_lp_kill config now cmd db;
        '(market, db) ← store (insert_market (sd_sides ids) db_now
            (mkNewMarket (sm_market cmd) (sm_slug cmd) (sm_min_votes cmd) (sm_closes_at cmd) (sm_tally_hidden_at cmd)) db);
        db ← store (create_pool (sd_pool ids) market (sm_fee cmd) (sm_seed cmd) db);
        led ← post_seed (sd_post ids) market cmd (fu_ledger (td_funds db));
        pool ← map_err App.Amm (pool_new (sm_seed cmd) (sm_seed cmd) (sm_fee cmd));
        b ← store (save_reserves market pool (td_book db));
        scheduled ← illegal (transition Draft Approve);
        b ← store (set_market_state scheduled market b);
        let db := append_event (mkEvent "MarketSeeded" "market" market
            (JObject [("fee_bps", JInt (sm_fee cmd)); ("seed_micro", JInt (sm_seed cmd)); ("slug", JString (sm_slug cmd))]))
            (set_funds (set_ledger led (td_funds db)) (set_book b db)) in
        Ok (mkSeedReceipt market false, db)
    end).

(** ** [advance_market.rs], with the vocabulary of [pg/advance_tx.rs] *)

Definition event_name (e : MarketEvent) : string :=
  match e with
  | Approve => "approve" | GoLive => "go_live" | EnterCloseWindow => "enter_close_window" | Close => "close"
  | StartIntegritySweep => "start_integrity_sweep" | Resolve => "resolve" | Pay => "pay"
  | VoidLowParticipation => "void_low_participation" | VoidByAdmin => "void_by_admin"
  end.

Definition parse_event (value : string) : outcome StoreError MarketEvent :=
  if bool_decide (value = "approve") then Ok Approve
  else if bool_decide (value = "go_live") then Ok GoLive
  else if bool_decide (value = "enter_close_window") then Ok EnterCloseWindow
  else if bool_decide (value = "close") then Ok Close
  else if bool_decide (value = "start_integrity_sweep") then Ok StartIntegritySweep
  else if bool_decide (value = "resolve") then Ok Resolve
  else if bool_decide (value = "pay") then Ok Pay
  else if bool_decide (value = "void_low_participation") then Ok VoidLowParticipation
  else if bool_decide (value = "void_by_admin") then Ok VoidByAdmin
  else Err (Store.Invariant "unknown lifecycle event").

(** Reads back the stored names of the event and the state. *)
Definition lifecycle_command (key : string) (b : Book) : outcome StoreError (option LifecycleCommand) :=
  match bk_lifecycle b !! key with
  | None => Ok None
  | Some c =>
      e ← parse_event (event_name (lc_event c));
      s ← market_state (market_state_name (lc_resulting_state c));
      Ok (Some (mkLifecycle (lc_market c) e s))
  end.

Definition audit_for (actor : AdminContext) (action subject : string) (before after : option Value)
    (reason : option string) : option AdminAction :=
  match actor with
  | Machine => None
  | Admin digest role => Some (mkAdminAction role digest action subject before after reason)
  end.

Record AdvanceMarketCmd := mkAdvance { ad_market : N; ad_event : MarketEvent; ad_key : string }.
Record AdvanceReceipt := mkAdvanceReceipt { ar_market : N; ar_from : MarketState; ar_to : MarketState; ar_replayed : bool }.

Definition source_state (e : MarketEvent) : MarketState :=
  match e with
  | Approve => Draft | GoLive => Scheduled | EnterCloseWindow => Live | Close => Closing
  | StartIntegritySweep => Closed
  | Resolve | Pay | VoidLowParticipation | VoidByAdmin => Resolving
  end.

(** The events without money consequences. *)
Definition non_financial (e : MarketEvent) : bool :=
  match e with
  | Approve | GoLive | EnterCloseWindow | Close | StartIntegritySweep => true
  | Resolve | Pay | VoidLowParticipation | VoidByAdmin => false
  end.

Definition debug_event (e : MarketEvent) : string :=
  match e with
  | Approve => "Approve" | GoLive => "GoLive" | EnterCloseWindow => "EnterCloseWindow" | Close => "Close"
  | StartIntegritySweep => "StartIntegritySweep" | Resolve => "Resolve" | Pay => "Pay"
  | VoidLowParticipation => "VoidLowParticipation" | VoidByAdmin => "VoidByAdmin"
  end.

Definition advance_market `{UuidText} (actor : AdminContext) (cmd : AdvanceMarketCmd) (db : Db) :
    outcome AppError AdvanceReceipt * Db :=
  atomic db (
    if negb (non_financial (ad_event cmd)) then Err App.UseResolveMarket else
    found ← store (lifecycle_command (ad_key cmd) (td_book db));
    match found with
    | Some recorded =>
        Ok (mkAdvanceReceipt (lc_market recorded) (source_state (lc_event recorded))
              (lc_resulting_state recorded) true, db)
    | None =>
        m ← store (market_for_update (td_book db) (ad_market cmd));
        to ← illegal (transition (mk_state m) (ad_event cmd));
        b ← store (set_market_state to (ad_market cmd) (td_book db));
        b ← store (record_lifecycle_command (ad_key cmd) (mkLifecycle (ad_market cmd) (ad_event cmd) to) b);
        let db := append_event (mkEvent "MarketAdvanced" "market" (ad_market cmd)
            (JObject [("event", JString (debug_event (ad_event cmd))); ("from", JString (debug_state (mk_state m)));
                      ("to", JString (debug_state to))])) (set_book b db) in
        let db := match audit_for actor "advance_market" ("market:" +:+ uuid_text (ad_market cmd))
                    (Some (JObject [("state", JString (debug_state (mk_state m)))]))
                    (Some (JObject [("event", JString (debug_event (ad_event cmd))); ("state", JString (debug_state to))])) None with
                  | Some row => set_ops (audit_insert row (td_ops db)) db
                  | None => db
                  end in
        Ok (mkAdvanceReceipt (ad_market cmd) (mk_state m) to false, db)
    end).

(** ** Due markets, [pg/store.rs] *)

(** The instant a market became due, by its status; a closed market without a
    closing time is due, and sorts last. *)
Definition due_since (now : Z) (r : MarketRecord) : option (option Z) :=
  let at_ (t : option Z) := match t with Some x => if x <=? now then Some (Some x) else None | None => None end in
  if bool_decide (ma_status r = "scheduled") then at_ (ma_opens_at r) else
  if bool_decide (ma_status r = "live") then at_ (ma_tally_hidden_at r) else
  if bool_decide (ma_status r = "closing") then at_ (ma_closes_at r) else
  if bool_decide (ma_status r = "closed") then
    (if bool_decide (ma_curator_flagged_at r = None) then Some (ma_closes_at r) else None) else
  if bool_decide (ma_status r = "resolving") then
    (if bool_decide (ma_curator_flagged_at r = None) then at_ (ma_integrity_due_at r) else None)
  else None.

(** [order by due_at, id], nulls last. *)
Definition due_le (x y : option Z * N * string) : bool :=
  let '(d, i, _) := x in
  let '(d', i', _) := y in
  match d, d' with
  | Some a, Some b => (a <? b) || ((a =? b) && (i <=? i')%N)
  | Some _, None => true
  | None, Some _ => false
  | None, None => (i <=? i')%N
  end.

Record DueMarket := mkDue { dm_market : N; dm_state : MarketState }.

Definition due_from_row (x : option Z * N * string) : outcome StoreError DueMarket :=
  s ← market_state x.2; Ok (mkDue x.1.2 s).

Definition due_markets (b : Book) (now : Z) (limit : nat) : outcome StoreError (list DueMarket) :=
  let rows := sort_by due_le (omap (fun kr : N * MarketRecord =>
      (fun d => (d, kr.1, ma_status kr.2)) <$> due_since now kr.2) (map_to_list (bk_markets b))) in
  foldM (fun acc x => d ← due_from_row x; Ok (acc ++ [d])) [] (take limit rows).

(** ** Vote statistics and reports, [pg/integrity_tx.rs] *)

(** An [inet] value: an address and a netmask length. *)
Record Inet := mkInet { in_addr : IpAddr; in_masklen : Z }.

#[export] Instance Inet_eq_dec : EqDecision Inet.
Proof. solve_decision. Defined.

(** The function of [inet]: it sets the length and keeps the address. *)
Definition set_masklen (i : Inet) (len : Z) : Inet := mkInet (in_addr i) len.

(** An address as stored. *)
Definition inet_of (a : IpAddr) : Inet := mkInet a (match a with V4 _ => 32 | V6 _ => 128 end).

(** The grouping key of [subnet_counts]; the text of an [inet] determines it. *)
Definition subnet_prefix (a : IpAddr) : Inet :=
  match a with V4 _ => set_masklen (inet_of a) 24 | V6 _ => set_masklen (inet_of a) 64 end.

(** [coalesce(max(n), 0)] over the groups of equal keys. *)
Definition top_count {K} `{EqDecision K} (keys : list K) : Z :=
  default 0 (max_list (map (fun k => zlen (List.filter (fun x => bool_decide (x = k)) keys)) keys)).

Definition count_u32 (z : Z) : outcome StoreError Z :=
  ok_or (checked U32 z) (Store.Invariant "vote stats count overflow").

(** Votes joined with their users; the windows count back from the close. *)
Definition vote_base (b : Book) (market : N) : list (VoteRow * Z) :=
  omap (fun v => if (vo_market v =? market)%N then (fun at_ => (v, at_)) <$> bk_created b !! vo_user v else None)
    (bk_votes b).

Definition count_where {A} (P : A -> bool) (l : list A) : Z := zlen (List.filter P l).

Definition vote_stats (config : IntegritySweepConfig) (b : Book) (market : N) : outcome StoreError VoteStats :=
  window ← ok_or (checked I64 (sw_burst_window_secs config)) (Store.Invariant "burst window overflow");
  age ← ok_or (checked I64 (sw_young_account_age_secs config)) (Store.Invariant "young-account age overflow");
  span ← bigint (window * (sw_prior_horizon_windows config + 1));
  let base := if bool_decide (is_Some (bk_markets b !! market)) then vote_base b market else [] in
  let closes := bk_markets b !! market ≫= ma_closes_at in
  let within (lo hi : Z -> Z) (va : VoteRow * Z) :=
    match closes with Some c => (lo c <=? vo_created_at va.1) && (vo_created_at va.1 <? hi c) | None => false end in
  all ← count_u32 (zlen base);
  last ← count_u32 (count_where (within (fun c => c - window) (fun c => c)) base);
  prior ← count_u32 (count_where (within (fun c => c - span) (fun c => c - window)) base);
  young ← count_u32 (count_where (fun va : VoteRow * Z => vo_created_at va.1 - va.2 <? age) base);
  let ips := omap (fun va : VoteRow * Z => vo_cast_ip va.1) base in
  let devices := omap (fun va : VoteRow * Z => vo_device va.1) base in
  subnets ← count_u32 (zlen ips);
  top_subnet ← count_u32 (top_count (map subnet_prefix ips));
  device ← count_u32 (zlen devices);
  top_device ← count_u32 (top_count devices);
  Ok {| total := all; last_window := last; prior_windows_total := prior;
        prior_horizon_windows := sw_prior_horizon_windows config; young_accounts := young;
        subnet_observed := subnets; top_subnet_count := top_subnet; device_observed := device;
        top_device_count := top_device |}.

Definition thresholds (c : IntegritySweepConfig) : SweepThresholds :=
  {| burst_multiplier_ppm := sw_burst_multiplier_ppm c;
     young_account_share_max_ppm := sw_young_account_share_max_ppm c;
     subnet_share_max_ppm := sw_subnet_share_max_ppm c; device_share_max_ppm := sw_device_share_max_ppm c;
     min_votes_for_ratios := sw_min_votes_for_ratios c;
     min_metadata_coverage_ppm := sw_min_metadata_coverage_ppm c |}.

Definition verdict_name (v : Verdict) : string := match v with Pass => "pass" | Flag => "flag" end.

(** [on conflict do nothing]: the first report stands.  The table keeps the
    verdict; the checks and the time of a report are not read again. *)
Definition insert_integrity_report (market : N) (v : Verdict) (b : Book) : bool * Book :=
  match bk_reports b !! market with
  | Some _ => (false, b)
  | None => (true, set_reports (<[market := verdict_name v]> (bk_reports b)) b)
  end.

(** ** [advance_due.rs] *)

(** [update .. where status = 'resolving' and curator_flagged_at is null]. *)
Definition flag_curator_needed (db_now : Z) (market : N) (b : Book) : bool * Book :=
  match bk_markets b !! market with
  | Some r =>
      if bool_decide (ma_status r = "resolving") && bool_decide (ma_curator_flagged_at r = None) then
        (true, set_markets (<[market := mkMarketRecord (ma_status r) (ma_min_votes r) (ma_vote_seq r) (ma_opens_at r)
          (ma_closes_at r) (ma_tally_hidden_at r) (Some db_now) (ma_integrity_due_at r) (ma_lp_pnl r)
          (ma_settled_at r) (ma_collateral_at_close r)]> (bk_markets b)) b)
      else (false, b)
  | None => (false, b)
  end.

Record SweepReport := mkSweepReport {
  rp_advanced : Z; rp_resolved : Z; rp_curator_needed : Z; rp_held : Z; rp_swept_pass : Z; rp_swept_flag : Z;
  rp_errors : list (N * AppError) }.

Record CascadeResult := mkCascade {
  cs_advanced : Z; cs_resolved : Z; cs_curator_needed : Z; cs_held : Z; cs_swept_pass : Z; cs_swept_flag : Z }.

Definition classify_outcome (o : ResolveOutcome) (advanced : Z) : CascadeResult :=
  match o with
  | Settled | VoidedOutcome => mkCascade advanced 1 0 0 0 0
  | HeldForReview _ => mkCascade advanced 0 0 1 0 0
  | CuratorRequired => mkCascade advanced 0 1 0 0 0
  end.

Section AdvanceDue.
Context `{UuidText} `{HashMapOrder}.
Context (oi_floor : Z) (rep_config : RepConfig) (sweep_config : IntegritySweepConfig).
Context (crash_point : outcome StoreError unit) (time_json : Z -> Value).
(** The clocks of the database and of the process during the sweep. *)
Context (db_now now : Z).

(** The scheduler resolves as a machine. *)
Definition resolver (ids : ResolveIds) (cmd : ResolveMarketCmd) (db : Db) : outcome AppError ResolveReceipt * Db :=
  resolve_market oi_floor rep_config sweep_config crash_point Machine time_json ids db_now now cmd db.

Definition sched_key (market : N) (step : string) : string := "sched:" +:+ uuid_text market +:+ ":" +:+ step.

Definition flag_curator (market : N) (db : Db) : outcome AppError bool * Db :=
  let key := sched_key market "curator" in
  atomic db (
    m ← store (market_for_update (td_book db) market);
    let flag (b : Book) : bool * Db :=
      let '(won, b) := flag_curator_needed db_now market b in
      (won, if won then append_event (mkEvent "CuratorNeeded" "market" market
                          (JObject [("market_id", JString (uuid_text market))])) (set_book b db)
            else set_book b db) in
    match mk_state m with
    | Closed =>
        resolving ← illegal (transition Closed StartIntegritySweep);
        b ← store (set_market_state resolving market (td_book db));
        b ← store (record_lifecycle_command key (mkLifecycle market StartIntegritySweep resolving) b);
        Ok (flag b)
    | Resolving => Ok (flag (td_book db))
    | _ => Ok (false, db)
    end).

Definition write_integrity_report (market : N) (db : Db) : outcome AppError Verdict * Db :=
  atomic db (
    m ← store (market_for_update (td_book db) market);
    if negb (bool_decide (mk_state m = Resolving))
    then Err (App.Store (Store.Invariant "integrity report requires resolving market")) else
    stats ← store (vote_stats sweep_config (td_book db) market);
    checks ← lift_total (sweep_checks stats (thresholds sweep_config));
    let '(_, b) := insert_integrity_report market (verdict checks) (td_book db) in
    found ← store (integrity_report b market);
    stored ← ok_or found (App.Store (Store.Invariant "integrity report insert disappeared"));
    Ok (stored, set_book b db)).

(** What a closed market comes to. *)
Definition resolve_closed (ids : ResolveIds) (market advanced : _) (db : Db) : outcome AppError CascadeResult * Db :=
  match resolver ids (mkResolve market None) db with
  | (Ok r, db) => (Ok (classify_outcome (ro_outcome r) advanced), db)
  | (Err App.NeedsCuratorDecision, db) =>
      match flag_curator market db with
      | (Ok won, db) => (Ok (mkCascade advanced 0 (if won then 1 else 0) 0 0 0), db)
      | (Err e, db) => (Err e, db)
      | (Panic, db) => (Panic, db)
      end
  | (Err e, db) => (Err e, db)
  | (Panic, db) => (Panic, db)
  end.

(** What a held market comes to once its delay has passed. *)
Definition sweep_resolving (ids : ResolveIds) (market advanced : _) (db : Db) : outcome AppError CascadeResult * Db :=
  match write_integrity_report market db with
  | (Ok Flag, db) =>
      match flag_curator market db with
      | (Ok won, db) => (Ok (mkCascade advanced 0 (if won then 1 else 0) 0 0 (if won then 1 else 0)), db)
      | (Err e, db) => (Err e, db)
      | (Panic, db) => (Panic, db)
      end
  | (Ok Pass, db) =>
      match resolver ids (mkResolve market None) db with
      | (Ok r, db) =>
          let c := classify_outcome (ro_outcome r) advanced in
          (Ok (mkCascade (cs_advanced c) (cs_resolved c) (cs_curator_needed c) (cs_held c)
                 (if cs_resolved c =? 0 then 0 else 1) (cs_swept_flag c)), db)
      | (Err e, db) => (Err e, db)
      | (Panic, db) => (Panic, db)
      end
  | (Err e, db) => (Err e, db)
  | (Panic, db) => (Panic, db)
  end.

(** What the loop does next with a market row. *)
Inductive cascade_action := Step (e : MarketEvent) (name : string) | ResolveNow | SweepNow | Done.

Definition next_action (m : MarketRow) : cascade_action :=
  match mk_state m with
  | Scheduled => if mk_opens_at m <=? now then Step GoLive "open" else Done
  | Live => if mk_tally_hidden_at m <=? now then Step EnterCloseWindow "freeze" else Done
  | Closing => if mk_closes_at m <=? now then Step Close "close" else Done
  | Closed => ResolveNow
  | Resolving =>
      match mk_integrity_due_at m with
      | Some due => if (due <=? now) && bool_decide (mk_curator_flagged_at m = None) then SweepNow else Done
      | None => Done
      end
  | Draft | Resolved | Paid | Voided => Done
  end.

(** The loop; [None]: out of fuel.  The row read is that of [market_by_ref] on
    the text of an id.  Each event is its own transaction. *)
Fixpoint cascade_loop (fuel : nat) (ids : ResolveIds) (market advanced : _) (db : Db) :
    option (outcome AppError CascadeResult * Db) :=
  match fuel with
  | O => None
  | S fuel =>
      match store (market_for_update (td_book db) market) with
      | Ok m =>
          match next_action m with
          | Step e name =>
              match advance_market Machine (mkAdvance market e (sched_key market name)) db with
              | (Ok _, db) =>
                  match arith (E := AppError) U32 (advanced + 1) with
                  | Ok advanced => cascade_loop fuel ids market advanced db
                  | _ => Some (Panic, db)
                  end
              | (Err e, db) => Some (Err e, db)
              | (Panic, db) => Some (Panic, db)
              end
          | ResolveNow => Some (resolve_closed ids market advanced db)
          | SweepNow => Some (sweep_resolving ids market advanced db)
          | Done => Some (Ok (mkCascade advanced 0 0 0 0 0), db)
          end
      | Err e => Some (Err e, db)
      | Panic => Some (Panic, db)
      end
  end.

(** A market passes three boundaries at most: [cascade_complete] below. *)
Definition cascade (ids : ResolveIds) (market : N) (db : Db) : option (outcome AppError CascadeResult * Db) :=
  cascade_loop 4 ids market 0 db.

Definition add_result (c : CascadeResult) (r : SweepReport) : SweepReport :=
  mkSweepReport (saturate U32 (rp_advanced r + cs_advanced c)) (saturate U32 (rp_resolved r + cs_resolved c))
    (saturate U32 (rp_curator_needed r + cs_curator_needed c)) (saturate U32 (rp_held r + cs_held c))
    (saturate U32 (rp_swept_pass r + cs_swept_pass c)) (saturate U32 (rp_swept_flag r + cs_swept_flag c)) (rp_errors r).

Definition add_error (market : N) (e : AppError) (r : SweepReport) : SweepReport :=
  mkSweepReport (rp_advanced r) (rp_resolved r) (rp_curator_needed r) (rp_held r) (rp_swept_pass r) (rp_swept_flag r)
    (rp_errors r ++ [(market, e)]).

(** The progress of one market: the sum of [u32]s. *)
Definition result_progress (c : CascadeResult) : outcome AppError Z :=
  a ← arith U32 (cs_advanced c + cs_resolved c);
  a ← arith U32 (a + cs_curator_needed c);
  a ← arith U32 (a + cs_held c);
  a ← arith U32 (a + cs_swept_pass c);
  arith U32 (a + cs_swept_flag c).

(** One page of due markets; [ids i] for the [i]th. *)
Fixpoint sweep_page (ids : nat -> ResolveIds) (i : nat) (due : list DueMarket) (progress : Z) (report : SweepReport)
    (db : Db) : option (outcome AppError (Z * SweepReport) * Db) :=
  match due with
  | [] => Some (Ok (progress, report), db)
  | d :: due =>
      match cascade (ids i) (dm_market d) db with
      | None => None
      | Some (Ok c, db) =>
          match result_progress c with
          | Ok p => sweep_page ids (S i) due (saturate U32 (progress + p)) (add_result c report) db
          | _ => Some (Panic, db)
          end
      | Some (Err e, db) => sweep_page ids (S i) due progress (add_error (dm_market d) e report) db
      | Some (Panic, db) => Some (Panic, db)
      end
  end.

(** Up to [rounds] pages, until none is due or none moves. *)
Fixpoint sweep_rounds (rounds : nat) (ids : nat -> nat -> ResolveIds) (report : SweepReport) (db : Db) :
    option (outcome AppError SweepReport * Db) :=
  match rounds with
  | O => Some (Ok report, db)
  | S rounds =>
      match store (due_markets (td_book db) now 256) with
      | Ok [] => Some (Ok report, db)
      | Ok due =>
          match sweep_page (ids rounds) 0 due 0 report db with
          | None => None
          | Some (Ok (progress, report), db) =>
              if progress =? 0 then Some (Ok report, db) else sweep_rounds rounds ids report db
          | Some (Err e, db) => Some (Err e, db)
          | Some (Panic, db) => Some (Panic, db)
          end
      | Err e => Some (Err e, db)
      | Panic => Some (Panic, db)
      end
  end.

Definition sweep_due (ids : nat -> nat -> ResolveIds) (db : Db) : option (outcome AppError SweepReport * Db) :=
  sweep_rounds 8 ids (mkSweepReport 0 0 0 0 0 0 []) db.
End AdvanceDue.
