(* ===== verification/System.v ===== *)
(** * System: the market machine as a whole

    The step relation of the market: genesis, seeding, lifecycle events, votes,
    trades, grants, lazy credit work, curator flags, integrity reports and
    attempts to resolve, in any order and any interleaving of whole
    transactions, with the two states an attempt to resolve reads.  [life] adds
    the changes beside the markets (users, their standing, cash and
    configuration), without which no request of a user would pass.  The
    invariant by rule induction over it is the one on which real money rests:
    in every state reachable from empty tables the escrow of every market that
    is not yet paid or voided covers both of its sides exactly, so each of them
    can be settled at every result.  The other theorems are about markets that
    can no longer be paid. *)

From S2P Require Import Prelude Money Amm Ledger Market Resolution Economy Integrity Chars Errors Credits PgLedger Json Config Fences ConfigStore Compliance Collect Postings Book Vote Trade Referrals Resolve Settlement Lifecycle.
#[local] Open Scope string_scope.
#[local] Open Scope list_scope.
#[local] Open Scope Z_scope.

(** ** Specification *)

(** A market whose money is still in its escrow. *)
Definition unsettled (r : MarketRecord) : Prop := ma_status r <> "paid" /\ ma_status r <> "voided".

Record sound (db : Db) : Prop := {
  so_wf : db_wf db;
  so_lots : lots_wf (td_funds db);
  so_backed : forall m r, bk_markets (td_book db) !! m = Some r -> unsettled r -> backed db m;
  so_unknown : forall m, bk_markets (td_book db) !! m = None -> escrow_of (fu_ledger (td_funds db)) m = 0 }.

(** The tables before anything happened. *)
Definition empty_db : Db :=
  mkDb (mkFunds pg_empty {| db_trades := ∅; db_lots := ∅; db_facts := [] |} [] [] [])
    (mkOpsDb 1 [] ∅ [] [] [] [] ∅) (mkCompliance ∅ [] [] ∅ [] [] [] [])
    (mkBook ∅ [] ∅ ∅ ∅ [] [] ∅ ∅ ∅ ∅ ∅ ∅ ∅) ∅ [] (mkReferralDb [] [] ∅ ∅).

(** ** Lemmas: reading a market row *)

Lemma market_state_inv s st : market_state s = Ok st -> s = market_state_name st.
Proof. unfold market_state. repeat case_bool_decide; intros [= <-]; done. Qed.

Lemma market_state_name_Ok st : market_state (market_state_name st) = Ok st.
Proof. by destruct st. Qed.

Lemma market_for_update_row b k m :
  market_for_update b k = Ok m ->
  exists r, bk_markets b !! k = Some r /\ ma_status r = market_state_name (mk_state m) /\
    ma_opens_at r = Some (mk_opens_at m) /\ ma_tally_hidden_at r = Some (mk_tally_hidden_at m) /\
    ma_closes_at r = Some (mk_closes_at m) /\ ma_curator_flagged_at r = mk_curator_flagged_at m /\
    ma_integrity_due_at r = mk_integrity_due_at m.
Proof.
  unfold market_for_update. destruct (bk_markets b !! k) as [r|]; [|done].
  destruct (outcome_of b k 0); [|done]. destruct (outcome_of b k 1); [|done]. unfold market_from_row.
  intros (c & Hc%ok_or_Ok & Hr)%bind_Ok. apply bind_Ok in Hr as (h & Hh%ok_or_Ok & Hr).
  apply bind_Ok in Hr as (s & Hs%market_state_inv & Hr). apply bind_Ok in Hr as (o & Ho%ok_or_Ok & [= <-]).
  exists r. by split_and!.
Qed.

Lemma unsettled_state r st :
  ma_status r = market_state_name st -> st <> Paid -> st <> Voided -> unsettled r.
Proof. intros E. unfold unsettled. rewrite E. by destruct st. Qed.

(** ** Lemmas: what keeps the invariant *)

(** A change that moves no escrow and no share, and reopens no market. *)
Lemma sound_frame db db' :
  sound db -> db_wf db' -> lots_wf (td_funds db') ->
  (forall m, escrow_of (fu_ledger (td_funds db')) m = escrow_of (fu_ledger (td_funds db)) m) ->
  (forall m i, outcome_of (td_book db') m i = outcome_of (td_book db) m i) ->
  bk_reserves (td_book db') = bk_reserves (td_book db) ->
  (forall out, held_shares (td_book db') out = held_shares (td_book db) out) ->
  (forall m, is_Some (bk_markets (td_book db) !! m) -> is_Some (bk_markets (td_book db') !! m)) ->
  (forall m r', bk_markets (td_book db') !! m = Some r' -> unsettled r' ->
     exists r, bk_markets (td_book db) !! m = Some r /\ unsettled r) -> sound db'.
Proof.
  intros [W L B U] W' L' E O R H D S. split; [done|done| |].
  - intros m r' Hr Hu. destruct (S _ _ Hr Hu) as (r & Hr0 & Hu0).
    destruct (B _ _ Hr0 Hu0) as (yes & no & ry & rn & Hb). exists yes, no, ry, rn. by rewrite !O, R, !H, E.
  - intros m Hm. rewrite E. apply U. destruct (bk_markets (td_book db) !! m) eqn:Em; [|done].
    destruct (D m) as [r' Hr']; [by eexists|congruence].
Qed.

(** The form of [sound_frame] for changes of one market's row. *)
Lemma sound_framed db db' k :
  sound db -> framed k [] (td_book db) (td_book db') -> td_funds db' = td_funds db ->
  (forall r', bk_markets (td_book db') !! k = Some r' -> unsettled r' ->
     exists r, bk_markets (td_book db) !! k = Some r /\ unsettled r) -> sound db'.
Proof.
  intros S F E U. pose proof S as [W L _ _]. apply (sound_frame db); rewrite ?E; try done.
  - by apply (framed_db_wf k db).
  - intros m i. apply (framed_outcome_of _ _ _ _ F).
  - apply F.
  - intros out. apply (framed_held_same _ _ _ _ F). set_solver.
  - intros m [r Hr]. pose proof (fr_times _ _ _ _ F m) as T. rewrite Hr in T.
    destruct (bk_markets (td_book db') !! m); [by eexists|done].
  - intros m r' Hr Hu. destruct (decide (m = k)) as [->|Hm]; [by apply (U r')|]. exists r'.
    by rewrite <- (fr_markets _ _ _ _ F m Hm).
Qed.

(** The form for changes of the funds that leave the book. *)
Lemma sound_quiet db db' :
  sound db -> quiet (fu_ledger (td_funds db)) (fu_ledger (td_funds db')) -> lots_wf (td_funds db') ->
  td_book db' = td_book db -> sound db'.
Proof.
  intros S Q L' E. pose proof S as [[Wf Wb Wt Wk] L _ _]. apply (sound_frame db); rewrite ?E; eauto.
  - split; rewrite ?E; [apply L'|done| |].
    + eapply Forall_impl; [exact Wt|]. cbn. intros t. by eapply quiet_txns.
    + intros k p Hp. eapply quiet_find_owner; [done|by eapply Wk].
  - apply (qt_escrow _ _ _ Q eq_refl).
Qed.

(** ** Lemmas: lifecycle events *)

Lemma advance_market_Ok `{UuidText} actor cmd db r db' :
  advance_market actor cmd db = (Ok r, db') ->
  (db' = db /\ exists c, bk_lifecycle (td_book db) !! ad_key cmd = Some c) \/
  exists m to, market_for_update (td_book db) (ad_market cmd) = Ok m /\ non_financial (ad_event cmd) = true /\
    transition (mk_state m) (ad_event cmd) = Ok to /\ bk_lifecycle (td_book db) !! ad_key cmd = None /\
    r = mkAdvanceReceipt (ad_market cmd) (mk_state m) to false /\
    framed (ad_market cmd) [] (td_book db) (td_book db') /\ td_funds db' = td_funds db /\
    bk_lifecycle (td_book db') = <[ad_key cmd := mkLifecycle (ad_market cmd) (ad_event cmd) to]> (bk_lifecycle (td_book db)) /\
    bk_reports (td_book db') = bk_reports (td_book db) /\
    exists row, bk_markets (td_book db) !! ad_market cmd = Some row /\
      bk_markets (td_book db') = <[ad_market cmd := mkMarketRecord (market_state_name to) (ma_min_votes row)
        (ma_vote_seq row) (ma_opens_at row) (ma_closes_at row) (ma_tally_hidden_at row) (ma_curator_flagged_at row)
        (ma_integrity_due_at row) (ma_lp_pnl row) (ma_settled_at row) (ma_collateral_at_close row)]>
        (bk_markets (td_book db)).
Proof.
  unfold advance_market. intros Hr.
  match type of Hr with atomic _ ?m = _ => destruct m as [[a db1]|e|] eqn:E end; cbn in Hr; [|done..].
  injection Hr as -> ->. destruct (negb _) eqn:Hnf in E; [done|]. apply negb_false_iff in Hnf.
  apply bind_Ok in E as (found & Hf%store_Ok & E). unfold lifecycle_command in Hf.
  destruct (bk_lifecycle _ !! _) as [c|] eqn:Ek.
  { apply bind_Ok in Hf as (ev & _ & Hf). apply bind_Ok in Hf as (st & _ & [= <-]). injection E as <- <-. left. eauto. }
  injection Hf as <-. right. apply bind_Ok in E as (m & Hm%store_Ok & E). apply bind_Ok in E as (to & Ht & E).
  apply bind_Ok in E as (b1 & H1%store_Ok & E). apply bind_Ok in E as (b2 & H2%store_Ok & [= <- <-]).
  exists m, to. unfold illegal in Ht. apply map_err_Ok in Ht. apply set_state_Ok in H1 as HF. destruct HF as [F _].
  unfold record_lifecycle_command in H2. case_bool_decide; [done|]. injection H2 as <-.
  unfold set_market_state, update_market in H1. destruct (bk_markets _ !! _) as [row|] eqn:Er; [|done]. injection H1 as <-.
  destruct actor; cbn; (split_and!; try done; [|by exists row]); (eapply framed_nil; [exact F|by split]).
Qed.

Lemma advance_not_replayed `{UuidText} actor cmd db r db' :
  advance_market actor cmd db = (Ok r, db') -> ar_replayed r = false -> bk_lifecycle (td_book db) !! ad_key cmd = None.
Proof.
  unfold advance_market. intros Hr Hn.
  match type of Hr with atomic _ ?m = _ => destruct m as [[a db1]|e|] eqn:E end; cbn in Hr; [|done..].
  injection Hr as -> ->. destruct (negb _) in E; [done|]. apply bind_Ok in E as (found & Hf%store_Ok & E).
  unfold lifecycle_command in Hf. destruct (bk_lifecycle _ !! _) as [c|]; [|done].
  apply bind_Ok in Hf as (ev & _ & Hf). apply bind_Ok in Hf as (st & _ & [= <-]). by injection E as <- <-.
Qed.

(** A whitelisted event leaves and reaches unsettled states only. *)
Lemma transition_unsettled st e st' :
  transition st e = Ok st' -> non_financial e = true ->
  (st <> Paid /\ st <> Voided) /\ (st' <> Paid /\ st' <> Voided).
Proof. destruct st, e; cbn; intros Ht ?; try done; injection Ht as <-; done. Qed.

Lemma advance_sound `{UuidText} actor cmd db : sound db -> sound (advance_market actor cmd db).2.
Proof.
  intros S. destruct (advance_market actor cmd db) as [[r|e|] db'] eqn:E; cbn; [|by apply atomic_refused in E as ->..].
  apply advance_market_Ok in E as [[-> _]|(m & to & Hm & Hn & Ht & _ & _ & F & Ef & _ & _)]; [done|].
  eapply sound_framed; [exact S|exact F|done|]. intros r' _ _.
  destruct (market_for_update_row _ _ _ Hm) as (row & Hr & Hs & _). exists row. split; [done|].
  destruct (transition_unsettled _ _ _ Ht Hn) as [[] _]. by eapply unsettled_state.
Qed.

(** ** Lemmas: a new market *)

Section Seeding.
Context `{HashMapOrder}.

Definition new_sides (yes no market : N) : list OutcomeRow :=
  [mkOutcome yes market 0 None None; mkOutcome no market 1 None None].

(** What an accepted seed that is not a replay leaves. *)
Record seeded (cmd : SeedMarketCmd) (yes no : N) (db db' : Db) : Prop := {
  se_positive : 0 < sm_seed cmd;
  se_new : bk_markets (td_book db) !! sm_market cmd = None;
  se_markets : exists r, bk_markets (td_book db') = <[sm_market cmd := r]> (bk_markets (td_book db)) /\ unsettled r;
  se_outcomes : bk_outcomes (td_book db') = bk_outcomes (td_book db) ++ new_sides yes no (sm_market cmd);
  se_distinct : yes <> no;
  se_free : forall o, o ∈ bk_outcomes (td_book db) -> oc_id o <> yes /\ oc_id o <> no /\
    (oc_market o = sm_market cmd -> oc_idx o <> 0 /\ oc_idx o <> 1);
  se_reserves : forall out, bk_reserves (td_book db') !! out =
    if bool_decide (out = yes \/ out = no) then Some (sm_seed cmd) else bk_reserves (td_book db) !! out;
  se_positions : bk_positions (td_book db') = bk_positions (td_book db);
  se_trades : bk_trades (td_book db') = bk_trades (td_book db);
  se_reports : bk_reports (td_book db') = bk_reports (td_book db);
  se_ledger : extends (fu_ledger (td_funds db)) (fu_ledger (td_funds db'));
  se_escrow : forall m, escrow_of (fu_ledger (td_funds db')) m =
    escrow_of (fu_ledger (td_funds db)) m + (if (m =? sm_market cmd)%N then sm_seed cmd else 0);
  se_lots : db_lots (fu_credits (td_funds db')) = db_lots (fu_credits (td_funds db));
  se_reserved : forall o, reserved o = true -> held (fu_ledger (td_funds db')) o Usdc = held (fu_ledger (td_funds db)) o Usdc }.

Lemma post_seed_Ok fresh market cmd led led' :
  pg_wf led -> in_ty I64 (sm_seed cmd) -> post_seed fresh market cmd led = Ok led' ->
  extends led led' /\
  (forall m, escrow_of led' m = escrow_of led m + (if (m =? market)%N then sm_seed cmd else 0)) /\
  forall o, reserved o = true -> held led' o Usdc = held led o Usdc.
Proof.
  intros W Hs Hr. unfold post_seed in Hr. apply bind_Ok in Hr as ([l1 h] & H1%store_Ok & Hr).
  apply bind_Ok in Hr as ([l2 e] & H2%store_Ok & Hr). apply bind_Ok in Hr as (neg & [-> Hneg]%arith_Ok & Hr).
  apply bind_Ok in Hr as ([l3 t] & H3%map_err_Ok & [= <-]).
  apply account_held in H1 as (X1 & O1 & E1); [|done]. apply account_held in H2 as (X2 & O2 & E2); [|apply X1].
  apply (apply_held _ _ _ _ [mkPosting h Ref.House Usdc (- sm_seed cmd); mkPosting e (Ref.MarketEscrow market) Usdc (sm_seed cmd)])
    in H3 as (X3 & E3); [|apply X2|posting_side|posting_side|unfold zlen; cbn; lia].
  split_and!; [by eauto with ledger| |intros o Ho; rewrite E3, E2, E1; destruct o; try done; posted_simpl; lia]. intros m. rewrite !escrow_held, E3, E2, E1.
  destruct (N.eqb_spec m market) as [->|]; posted_simpl; lia.
Qed.

(** The checks of the two outcome rows. *)
Lemma new_sides_free (l : list OutcomeRow) yes no m :
  existsb (fun o => existsb (fun s => (oc_id o =? oc_id s)%N || ((oc_market o =? oc_market s)%N && (oc_idx o =? oc_idx s)))
    [mkOutcome yes m 0 None None; mkOutcome no m 1 None None]) l = false ->
  forall o, o ∈ l -> oc_id o <> yes /\ oc_id o <> no /\ (oc_market o = m -> oc_idx o <> 0 /\ oc_idx o <> 1).
Proof.
  rewrite existsb_false, Forall_forall. intros Hl o Ho. specialize (Hl o Ho). cbn in Hl.
  rewrite orb_false_r, !orb_false_iff, !andb_false_iff, !N.eqb_neq, !Z.eqb_neq in Hl. naive_solver.
Qed.

Lemma insert_market_Ok fresh db_now m db k d :
  insert_market fresh db_now m db = Ok (k, d) ->
  k = nm_id m /\ bk_markets (td_book db) !! k = None /\ fresh 0%nat <> fresh 1%nat /\ td_funds d = td_funds db /\
  (forall o, o ∈ bk_outcomes (td_book db) -> oc_id o <> fresh 0%nat /\ oc_id o <> fresh 1%nat /\
     (oc_market o = k -> oc_idx o <> 0 /\ oc_idx o <> 1)) /\
  bk_outcomes (td_book d) = bk_outcomes (td_book db) ++ new_sides (fresh 0%nat) (fresh 1%nat) k /\
  bk_reserves (td_book d) = bk_reserves (td_book db) /\ bk_positions (td_book d) = bk_positions (td_book db) /\
  bk_trades (td_book d) = bk_trades (td_book db) /\ bk_reports (td_book d) = bk_reports (td_book db) /\
  exists row, bk_markets (td_book d) = <[k := row]> (bk_markets (td_book db)).
Proof.
  unfold insert_market. cbv zeta. destruct (_ <=? 0); [done|].
  destruct (bool_decide (is_Some _) || _) eqn:C1; [done|].
  apply orb_false_iff in C1 as [C1%bool_decide_eq_false _]. rewrite <- eq_None_not_Some in C1.
  destruct (bool_decide (fresh _ = _) || _) eqn:C2; [done|].
  apply orb_false_iff in C2 as [C2%bool_decide_eq_false C3]. intros [= <- <-].
  split_and!; try done; [exact (new_sides_free _ _ _ _ C3)|by eexists].
Qed.

Lemma create_pool_Ok fresh market fee seed yes no (old : list OutcomeRow) db d :
  pg_wf (fu_ledger (td_funds db)) -> bk_outcomes (td_book db) = old ++ new_sides yes no market ->
  (forall o, o ∈ old -> oc_market o = market -> oc_idx o <> 0 /\ oc_idx o <> 1) ->
  create_pool fresh market fee seed db = Ok d ->
  exists led pools, d = set_funds (set_ledger led (td_funds db)) (set_book
    (set_reserves (<[no := seed]> (<[yes := seed]> (bk_reserves (td_book db)))) (set_pools pools (td_book db))) db) /\
    extends (fu_ledger (td_funds db)) led /\
    forall o c, held led o c = held (fu_ledger (td_funds db)) o c.
Proof.
  intros W Ho Hfree. unfold create_pool. cbv zeta. destruct (seed <? 0); [done|]. case_bool_decide; [done|].
  intros ([led a] & Ha & Hr)%bind_Ok. apply account_held in Ha as (X & _ & E); [|done].
  cbn [bk_outcomes bk_reserves set_pools] in Hr. rewrite Ho, List.filter_app, filter_none in Hr.
  2:{ intros o Hin. destruct (N.eqb_spec (oc_market o) market) as [Em|]; [|done]. destruct (Hfree o Hin Em).
      by rewrite !(proj2 (Z.eqb_neq _ _)). }
  cbn [new_sides List.filter oc_market oc_idx app] in Hr. rewrite N.eqb_refl in Hr. cbn [andb orb Z.eqb] in Hr.
  destruct (existsb _ _) in Hr; [done|]. destruct (negb _) in Hr; [done|]. injection Hr as <-.
  do 2 eexists. by split_and!.
Qed.

Lemma check_lp_kill_Ok config now cmd db d :
  check_lp_kill config now cmd db = Ok d -> td_book d = td_book db /\ td_funds d = td_funds db.
Proof.
  unfold check_lp_kill. intros (since & _ & Hr)%bind_Ok. apply bind_Ok in Hr as (pnl & _ & Hr).
  apply bind_Ok in Hr as (fl & _ & Hr). destruct (_ <=? _); [|by injection Hr as <-].
  destruct (negb _); [done|]. by injection Hr as <-.
Qed.

(** The sides of a new market are found by their index. *)
Lemma new_sides_of b old yes no market i x :
  bk_outcomes b = old ++ new_sides yes no market ->
  (forall o, o ∈ old -> oc_market o = market -> oc_idx o <> 0 /\ oc_idx o <> 1) ->
  (i = 0 /\ x = yes) \/ (i = 1 /\ x = no) -> outcome_of b market i = Some x.
Proof.
  intros E Hfree Hi. unfold outcome_of. rewrite E, find_app. destruct (List.find _ old) as [o|] eqn:Ef.
  - apply find_by in Ef as [Ho [Em%N.eqb_eq Ei%Z.eqb_eq]%andb_true_iff]. destruct (Hfree o Ho Em). naive_solver congruence.
  - cbn. rewrite N.eqb_refl. by destruct Hi as [[-> ->]|[-> ->]].
Qed.

Lemma seed_market_Ok rep_config config ids db_now now cmd db r db' :
  db_wf db -> in_ty I64 (sm_seed cmd) ->
  seed_market rep_config config ids db_now now cmd db = (Ok r, db') ->
  db' = db \/ seeded cmd (sd_sides ids 0%nat) (sd_sides ids 1%nat) db db'.
Proof.
  intros W Hty Hr. unfold seed_market in Hr.
  match type of Hr with atomic _ ?m = _ => destruct m as [[a db1]|e|] eqn:E end; cbn in Hr; [|done..].
  injection Hr as -> ->. destruct (Z.leb_spec (sm_seed cmd) 0) as [|Hpos]; [done|]. destruct (_ <? _) in E; [done|].
  destruct (seeded_market_by_key _ _) as [k|]; [left; by injection E as <- <-|right].
  apply bind_Ok in E as (d0 & [B0 F0]%check_lp_kill_Ok & E).
  apply bind_Ok in E as ([market d1] & H1%store_Ok & E).
  apply insert_market_Ok in H1 as (-> & Hnew & Hne & F1 & Hfree & O1 & R1 & P1 & T1 & V1 & row & M1). cbn [nm_id] in *. rewrite B0 in *.
  assert (Hf : forall o, o ∈ bk_outcomes (td_book db) -> oc_market o = sm_market cmd -> oc_idx o <> 0 /\ oc_idx o <> 1)
    by (intros o Ho; by destruct (Hfree o Ho) as (_ & _ & ?)).
  assert (L1 : fu_ledger (td_funds d1) = fu_ledger (td_funds db)) by by rewrite F1, F0.
  apply bind_Ok in E as (d2 & H2%store_Ok & E). pose proof (fw_ledger _ (tw_funds _ W)) as Wl.
  apply (create_pool_Ok _ _ _ _ _ _ _ _ _ ltac:(by rewrite L1) O1 Hf) in H2 as (l2 & pools & -> & X2 & E2).
  rewrite L1 in X2, E2. apply bind_Ok in E as (led & HP & E). cbn [td_funds set_funds fu_ledger set_ledger] in HP.
  apply post_seed_Ok in HP as (XP & EP & HW); [|apply X2|done].
  apply bind_Ok in E as (pool & HN%map_err_Ok & E). apply bind_Ok in E as (b3 & HS%store_Ok & E).
  apply bind_Ok in E as (sch & [= <-] & E). apply bind_Ok in E as (b4 & HM%store_Ok & [= <- <-]).
  assert (Hp : p_yes pool = sm_seed cmd /\ p_no pool = sm_seed cmd).
  { unfold pool_new in HN. do 2 (destruct (_ || _) in HN; [done|]). by injection HN as <-. }
  destruct Hp as [Py Pn]. unfold save_reserves in HS. destruct (_ || _) in HS; [done|].
  match type of HS with context [outcome_of ?b _ 0] =>
    rewrite (new_sides_of b _ _ _ _ 0 _ O1 Hf), (new_sides_of b _ _ _ _ 1 _ O1 Hf) in HS by eauto end.
  destruct (_ && _) in HS; [|done]. injection HS as <-.
  unfold set_market_state, update_market in HM. cbn [bk_markets set_reserves set_pools td_book set_funds set_book] in HM.
  rewrite M1, lookup_insert_eq in HM. injection HM as <-.
  split; cbn; try done.
  - eexists. split; [by rewrite insert_insert_eq|]. done.
  - intros out. rewrite Py, Pn, R1. case_bool_decide as Ho.
    + destruct Ho as [-> | ->]; [|by rewrite lookup_insert_eq]. by rewrite lookup_insert_ne, lookup_insert_eq by done.
    + apply Decidable.not_or in Ho as [Ho1 Ho2]. by rewrite !lookup_insert_ne by done.
  - eauto with ledger.
  - intros m. by rewrite EP, !escrow_held, E2.
  - by rewrite F1, F0.
  - intros o Ho. by rewrite HW, E2.
Qed.
End Seeding.

Lemma held_unknown b out : book_wf b -> out ∉ map oc_id (bk_outcomes b) -> held_shares b out = 0.
Proof.
  intros W Ho. unfold held_shares. rewrite (msum_ext _ (fun _ _ => 0)).
  - unfold msum. apply zsum_none. by intros [].
  - intros [u o] p Hp. cbn. destruct (N.eqb_spec o out) as [->|]; [|done]. destruct Ho. apply (bw_known _ W _ _ Hp).
Qed.

Lemma outcome_of_app b b' extra m i x :
  bk_outcomes b' = bk_outcomes b ++ extra -> outcome_of b m i = Some x -> outcome_of b' m i = Some x.
Proof.
  unfold outcome_of. intros E (o & Ho & ->)%fmap_Some. by rewrite E, find_app, Ho.
Qed.

Lemma seeded_wf cmd yes no db db' : db_wf db -> seeded cmd yes no db db' -> db_wf db'.
Proof.
  intros [[Wl Wa] [O S R P K] Wt Wk] [Hpos _ _ Ho Hne Hf Hr Hp Ht _ [X1 [x Hx] [y Hy]] _ Hl]. split.
  - split; [done|]. by rewrite Hl.
  - split; rewrite ?Ho, ?Hp, ?map_app; cbn.
    + apply NoDup_app. split_and!; [done| |by repeat constructor; rewrite ?list_elem_of_singleton; auto; apply not_elem_of_nil].
      intros i (o & -> & Hin)%list_elem_of_fmap. destruct (Hf o Hin) as (H1 & H2 & _).
      by rewrite !elem_of_cons, elem_of_nil; intros [|[|[]]].
    + apply NoDup_app. split_and!; [done| |by repeat constructor; rewrite ?list_elem_of_singleton; auto; apply not_elem_of_nil].
      intros i (o & -> & Hin)%list_elem_of_fmap. destruct (Hf o Hin) as (_ & _ & H3).
      rewrite !elem_of_cons, elem_of_nil. intros [[= E1 E2]|[[= E1 E2]|[]]]; by destruct (H3 E1).
    + intros out r. rewrite Hr. case_bool_decide; [intros [= <-]; lia|by apply R].
    + done.
    + intros k p Hk. apply elem_of_app. left. by eapply K.
  - rewrite Ht. eapply Forall_impl; [exact Wt|]. cbn. intros t Hin. rewrite Hy, map_app. apply elem_of_app. by left.
  - rewrite Hp. intros k p Hk. eapply find_owner_app; [exact Hx|by eapply Wk].
Qed.

Lemma seeded_held cmd yes no db db' out :
  seeded cmd yes no db db' -> held_shares (td_book db') out = held_shares (td_book db) out.
Proof. intros X. unfold held_shares. by rewrite (se_positions _ _ _ _ _ X). Qed.

(** A seeded market is backed by its seed, and no other is touched. *)
Lemma seeded_sound cmd yes no db db' : sound db -> seeded cmd yes no db db' -> sound db'.
Proof.
  intros [W L B U] X. pose proof (seeded_wf _ _ _ _ _ W X) as W'. pose proof (tw_book _ W) as Wb.
  pose proof X as [Hpos Hnew (row & Hm & _) Ho Hne Hf Hr Hp _ _ _ He Hl _].
  assert (Hids : yes ∉ map oc_id (bk_outcomes (td_book db)) /\ no ∉ map oc_id (bk_outcomes (td_book db))).
  { split; intros (o & E & Hin)%list_elem_of_fmap; destruct (Hf o Hin) as (? & ? & _); congruence. }
  destruct Hids as [Iy In]. split; [done| | |].
  - split; [apply W'|]. rewrite Hl. apply L.
  - intros m r Hmr Hu. rewrite Hm in Hmr. apply lookup_insert_Some in Hmr as [[<- <-]|[Hmm Hmr]].
    + exists yes, no, (sm_seed cmd), (sm_seed cmd). rewrite !(seeded_held _ _ _ _ _ _ X), !held_unknown by done.
      rewrite He, (U _ Hnew), N.eqb_refl, !Hr, !bool_decide_eq_true_2 by auto.
      assert (Hfr : forall o, o ∈ bk_outcomes (td_book db) -> oc_market o = sm_market cmd -> oc_idx o <> 0 /\ oc_idx o <> 1)
        by (intros o Hin; by destruct (Hf o Hin) as (_ & _ & ?)).
      split_and!; [eapply new_sides_of; eauto|eapply new_sides_of; eauto|done|done|lia|lia].
    + destruct (B m r Hmr Hu) as (y & n & ry & rn & Hy & Hn & Ry & Rn & E1 & E2). exists y, n, ry, rn.
      assert (Hold : forall i z, outcome_of (td_book db) m i = Some z -> z <> yes /\ z <> no).
      { intros i z (o & Hin & <- & _)%outcome_of_elem. by destruct (Hf o Hin) as (? & ? & _). }
      destruct (Hold _ _ Hy), (Hold _ _ Hn).
      rewrite !(outcome_of_app _ _ _ _ _ _ Ho Hy), !(outcome_of_app _ _ _ _ _ _ Ho Hn).
      rewrite !Hr, !bool_decide_eq_false_2 by naive_solver. rewrite !(seeded_held _ _ _ _ _ _ X), He.
      rewrite (proj2 (N.eqb_neq m (sm_market cmd))) by done. rewrite !Z.add_0_r. done.
  - intros m Hmn. rewrite Hm in Hmn. apply lookup_insert_None in Hmn as [Hmn Hne']. rewrite He, (U _ Hmn).
    by rewrite (proj2 (N.eqb_neq m (sm_market cmd))).
Qed.

Lemma seed_sound `{HashMapOrder} rep_config config ids db_now now cmd db :
  in_ty I64 (sm_seed cmd) -> sound db -> sound (seed_market rep_config config ids db_now now cmd db).2.
Proof.
  intros Hty S. destruct (seed_market _ _ _ _ _ _ _) as [[r|e|] db'] eqn:E; cbn; [|by apply atomic_refused in E as ->..].
  apply seed_market_Ok in E as [->|X]; [done|by eapply seeded_sound|apply S|done].
Qed.

Lemma genesis_quiet `{HashMapOrder} fresh cmd db :
  in_ty I64 (ge_amount cmd) -> sound db ->
  let db' := (ensure_genesis fresh cmd db).2 in
  quiet (fu_ledger (td_funds db)) (fu_ledger (td_funds db')) /\ lots_wf (td_funds db') /\ td_book db' = td_book db.
Proof.
  intros Hty S.
  assert (Same : quiet (fu_ledger (td_funds db)) (fu_ledger (td_funds db)) /\ lots_wf (td_funds db) /\ td_book db = td_book db)
    by (split_and!; [apply quiet_refl, S|apply S|done]). destruct (ensure_genesis _ _ _) as [[r|e|] db'] eqn:E; cbn; [|by apply atomic_refused in E as ->..].
  unfold ensure_genesis in E. match type of E with atomic _ ?m = _ => destruct m as [[a db1]|e|] eqn:Er end; cbn in E; [|done..].
  injection E as -> ->. destruct (txn_by_key _ _); [by injection Er as <- <-|].
  apply bind_Ok in Er as ([l1 x] & H1%store_Ok & Er). apply bind_Ok in Er as ([l2 h] & H2%store_Ok & Er).
  apply bind_Ok in Er as (neg & [-> Hneg]%arith_Ok & Er). apply bind_Ok in Er as ([l3 t] & H3%store_Ok & [= <- <-]).
  pose proof S as [[[Wl Wa] _ _ _] [_ Lk] _ _].
  apply (account_quiet escrowed) in H1 as [Q1 N1]; [|done..]. pose proof (qt_wf _ _ _ Q1) as W1.
  apply (account_quiet escrowed) in H2 as [Q2 N2]; [|done..]. pose proof (qt_wf _ _ _ Q2) as W2.
  apply (apply_quiet escrowed) in H3 as Q3; [|done|done|done|by apply (outside_quiet escrowed l1)|done].
  split_and!; [by eauto using quiet_trans| |done]. split; [split; [apply Q3|]|]; done.
Qed.

Lemma genesis_sound `{HashMapOrder} fresh cmd db :
  in_ty I64 (ge_amount cmd) -> sound db -> sound (ensure_genesis fresh cmd db).2.
Proof. intros Hty S. destruct (genesis_quiet fresh cmd db Hty S) as (Q & L & E). by apply (sound_quiet db). Qed.

(** ** Lemmas: trades, votes and credit *)

Lemma moved_book_backed cmd db db' pool after yes no out delta shares m :
  book_wf (td_book db) -> moved_book cmd db db' pool after yes no out delta shares -> backed db m -> backed db' m.
Proof.
  intros Wb M C. pose proof (backed_balanced _ _ C) as B. apply (moved_book_balanced _ _ _ _ _ _ _ _ _ _ Wb M) in B.
  destruct C as (y & n & ry & rn & Hy & Hn & Ry & Rn & _).
  assert (Hof : forall i, outcome_of (td_book db') m i = outcome_of (td_book db) m i)
    by (intros i; unfold outcome_of; by rewrite (mb_outcomes _ _ _ _ _ _ _ _ _ _ M)).
  assert (Hkeep : forall k r, bk_reserves (td_book db) !! k = Some r -> exists r', bk_reserves (td_book db') !! k = Some r').
  { intros k r Hk. rewrite (mb_reserves _ _ _ _ _ _ _ _ _ _ M).
    destruct (decide (k = no)) as [->|]; [rewrite lookup_insert_eq; eauto|rewrite lookup_insert_ne by done].
    destruct (decide (k = yes)) as [->|]; [rewrite lookup_insert_eq; eauto|rewrite lookup_insert_ne by done; eauto]. }
  destruct (Hkeep _ _ Ry) as [ry' Ry'], (Hkeep _ _ Rn) as [rn' Rn'].
  destruct (B y n ry' rn') as [E1 E2]; rewrite ?Hof; try done. exists y, n, ry', rn'. by rewrite !Hof.
Qed.

Section Money.
Context `{UuidText} `{HashMapOrder}.

Lemma trade_sound collate rep_config time_json fresh fresh_lazy fresh_alloc db_now now cmd db :
  rep_typed rep_config -> in_ty I64 (pt_amount_micro cmd) -> sound db ->
  sound (place_trade collate rep_config time_json fresh fresh_lazy fresh_alloc db_now now cmd db).2.
Proof.
  intros Hrep Ha S. destruct (place_trade _ _ _ _ _ _ _ _ _ _) as [[r|e|] db'] eqn:E; cbn; [|by apply atomic_refused in E as ->..].
  apply place_trade_Ok in E as [(txn & _ & -> & _)|(funds & pool & out & fee & legs & txn & led & X)]; [done| |done].
  pose proof S as [W L B U].
  destruct (executed_moves _ _ _ _ _ _ _ _ _ _ _ _ _ _ _ _ _ _ W Ha X) as (_ & C & (yes & no & M) & W' & Em & _ & _ & El).
  split; [done| | |].
  - split; [apply W'|]. rewrite El. apply (calm_lots _ _ L C).
  - intros m r0. rewrite Em. intros Hm Hu. eapply moved_book_backed; [apply W|exact M|by eapply B].
  - intros m. rewrite Em. intros Hm. rewrite (mb_escrow _ _ _ _ _ _ _ _ _ _ M), (U _ Hm).
    destruct (N.eqb_spec m (pt_market cmd)) as [->|]; [|done]. exfalso.
    destruct (ex_market _ _ _ _ _ _ _ _ _ _ _ _ _ _ _ _ _ _ X) as (mk & Hmk & _).
    apply market_for_update_row in Hmk as (row & Hrow & _). congruence.
Qed.

Lemma vote_sound config fresh fresh_lazy db_now now cmd db :
  sound db -> sound (cast_vote config fresh fresh_lazy db_now now cmd db).2.
Proof.
  intros S. destruct (cast_vote _ _ _ _ _ _ _) as [[r|e|] db'] eqn:E; cbn; [|by apply atomic_refused in E as ->..].
  apply cast_vote_Ok in E as [(r0 & _ & -> & _)|(funds & m & rec & out & X)]; [done|]. pose proof S as [W L _ _].
  destruct (voted_wf _ _ _ _ _ _ _ _ _ _ _ _ _ W X) as [W' C]. pose proof (vt_rec _ _ _ _ _ _ _ _ _ _ _ _ _ X) as Hrec.
  pose proof (calm_lots _ _ L C) as L'. rewrite (vt_db _ _ _ _ _ _ _ _ _ _ _ _ _ X) in W', C, L' |- *.
  apply (sound_frame db); try done; [exact (qt_escrow _ _ _ (cm_quiet _ _ C) eq_refl)|..]; cbn.
  - intros k [x Hk]. destruct (decide (k = cv_market cmd)) as [->|]; [rewrite lookup_insert_eq; by eexists|].
    rewrite lookup_insert_ne by done. by eexists.
  - intros k r'. intros [[<- <-]|[_ Hk]]%lookup_insert_Some Hu; [by exists rec|by exists r'].
Qed.

Lemma credit_sound db db' : credit_step db db' -> sound db -> sound db'.
Proof.
  intros Hs S. destruct (credit_granted _ _ (so_lots _ S) Hs) as [[Q _ _ _ Wt _] B _ _ _]. by apply (sound_quiet db).
Qed.

(** ** Lemmas: curator flags, reports and resolutions *)

Lemma flag_needed_framed db_now m b won b' :
  flag_curator_needed db_now m b = (won, b') -> framed m [] b b' /\
  (forall r', bk_markets b' !! m = Some r' -> exists r, bk_markets b !! m = Some r /\ ma_status r = ma_status r').
Proof.
  unfold flag_curator_needed. destruct (bk_markets b !! m) as [r|] eqn:Er.
  2:{ intros [= _ <-]. split; [apply framed_refl|]. rewrite Er. done. }
  destruct (_ && _); intros [= _ <-].
  2:{ split; [apply framed_refl|]. rewrite Er. intros r0 [= <-]. by exists r. }
  split; [|cbn; rewrite lookup_insert_eq; intros r' [= <-]; by exists r].
  split; try done; cbn; [|intros k Hk; by rewrite lookup_insert_ne].
  intros k. destruct (decide (k = m)) as [->|]; [by rewrite lookup_insert_eq, Er|by rewrite lookup_insert_ne].
Qed.

(** The flag touches its market's row only, and neither settles nor reopens. *)
Lemma flag_curator_framed db_now market db :
  let db' := (flag_curator db_now market db).2 in
  td_funds db' = td_funds db /\ framed market [] (td_book db) (td_book db') /\
  (forall r r', bk_markets (td_book db) !! market = Some r -> bk_markets (td_book db') !! market = Some r' ->
     unsettled r <-> unsettled r').
Proof.
  assert (Same : td_funds db = td_funds db /\ framed market [] (td_book db) (td_book db) /\
    (forall r r', bk_markets (td_book db) !! market = Some r -> bk_markets (td_book db) !! market = Some r' ->
     unsettled r <-> unsettled r')) by (split_and!; [done|apply framed_refl|naive_solver]).
  destruct (flag_curator _ _ _) as [[r|e|] db'] eqn:E; cbn; [|by apply atomic_refused in E as ->..].
  unfold flag_curator in E. match type of E with atomic _ ?m = _ => destruct m as [[a db1]|e|] eqn:Er end; cbn in E; [|done..].
  injection E as -> ->. apply bind_Ok in Er as (m & Hm%store_Ok & Er).
  destruct (market_for_update_row _ _ _ Hm) as (row & Hrow & Hst & _).
  assert (Key : forall b, framed market [] (td_book db) b -> mk_state m <> Paid -> mk_state m <> Voided ->
    (exists r0, bk_markets b !! market = Some r0 /\ unsettled r0) ->
    (let '(won, b) := flag_curator_needed db_now market b in
     (won, if won then append_event (mkEvent "CuratorNeeded" "market" market
        (JObject [("market_id", JString (uuid_text market))])) (set_book b db) else set_book b db)) = (r, db') ->
    td_funds db' = td_funds db /\ framed market [] (td_book db) (td_book db') /\
    (forall r r', bk_markets (td_book db) !! market = Some r -> bk_markets (td_book db') !! market = Some r' ->
     unsettled r <-> unsettled r')).
  { intros b F Hp Hv (r0 & Hr0 & Hu0) Hf. destruct (flag_curator_needed db_now market b) as [won b2] eqn:Ef. injection Hf as -> <-.
    apply flag_needed_framed in Ef as [F2 S2].
    assert (Eb : td_book (if r then append_event (mkEvent "CuratorNeeded" "market" market
        (JObject [("market_id", JString (uuid_text market))])) (set_book b2 db) else set_book b2 db) = b2) by by destruct r.
    split_and!; [by destruct r|rewrite Eb; by eapply framed_nil|]. rewrite Eb. intros r1 r2 H1 H2.
    destruct (S2 _ H2) as (r3 & H3 & E3). rewrite Hr0 in H3. injection H3 as <-. rewrite Hrow in H1. injection H1 as <-.
    assert (unsettled row) by by eapply unsettled_state. unfold unsettled in Hu0 |- *. rewrite <- E3. naive_solver. }
  destruct (mk_state m) eqn:Es; try (by injection Er as <- <-).
  - apply bind_Ok in Er as (nx & [= <-] & Er). apply bind_Ok in Er as (b1 & H1%store_Ok & Er).
    apply bind_Ok in Er as (b2 & H2%store_Ok & [= Er]). apply set_state_Ok in H1 as [F (r1 & r2 & _ & Hr2 & S2 & _)].
    unfold record_lifecycle_command in H2. case_bool_decide; [done|]. injection H2 as <-. eapply Key; [|done|done| |exact Er].
    + eapply framed_nil; [exact F|by split].
    + exists r2. split; [done|]. by eapply (unsettled_state r2 Resolving).
  - injection Er as Er. apply (Key (td_book db)); [apply framed_refl|done..| |done].
    exists row. split; [done|by eapply (unsettled_state row Resolving)].
Qed.

Lemma flag_sound db_now market db : sound db -> sound (flag_curator db_now market db).2.
Proof.
  intros S. destruct (flag_curator_framed db_now market db) as (E & F & U).
  apply (sound_framed db _ market); [done|done|done|]. intros r' Hr' Hu. pose proof (fr_times _ _ _ _ F market) as T.
  rewrite Hr' in T. destruct (bk_markets (td_book db) !! market) as [r|] eqn:Er; [|done]. exists r. split; [done|by eapply U].
Qed.

Lemma report_same sweep market db :
  let db' := (write_integrity_report sweep market db).2 in
  td_funds db' = td_funds db /\ exists x, td_book db' = set_reports x (td_book db) /\
    forall m, m <> market -> x !! m = bk_reports (td_book db) !! m.
Proof.
  assert (Same : td_funds db = td_funds db /\ exists x, td_book db = set_reports x (td_book db) /\
    forall m, m <> market -> x !! m = bk_reports (td_book db) !! m)
    by (split; [done|]; exists (bk_reports (td_book db)); split; [by destruct (td_book db)|done]).
  destruct (write_integrity_report _ _ _) as [[r|e|] db'] eqn:E; cbn; [|by apply atomic_refused in E as ->..].
  unfold write_integrity_report in E. match type of E with atomic _ ?m = _ => destruct m as [[a db1]|e|] eqn:Er end; cbn in E; [|done..].
  injection E as -> ->. apply bind_Ok in Er as (m & Hm%store_Ok & Er). destruct (negb _) in Er; [done|].
  apply bind_Ok in Er as (st & _ & Er). apply bind_Ok in Er as (ch & _ & Er).
  destruct (insert_integrity_report _ _ _) as [ins b] eqn:Ei. apply bind_Ok in Er as (f & _ & Er).
  apply bind_Ok in Er as (v & _ & [= <- <-]). unfold insert_integrity_report in Ei.
  destruct (bk_reports _ !! _); injection Ei as _ <-; [by destruct db|]. split; [done|]. eexists. split; [done|].
  intros k Hk. by rewrite lookup_insert_ne.
Qed.

Lemma report_sound sweep market db : sound db -> sound (write_integrity_report sweep market db).2.
Proof.
  intros S. destruct (report_same sweep market db) as (E & x & B & _).
  apply (sound_frame db); rewrite ?E, ?B; cbn; eauto; try apply S.
  destruct (so_wf _ S) as [Wf [O1 O2 O3 O4 O5] Wt Wk]. split; rewrite ?E, ?B; try done.
Qed.

(** A resolution that writes found its market closed or resolving, and passed
    the review checks. *)
Lemma resolve_attempt_checked oi_floor rep_config sweep crash_point actor time_json ids db_now now cmd pre db r db' :
  resolve_attempt oi_floor rep_config sweep crash_point actor time_json ids db_now now cmd pre db = Ok (Some (r, db')) ->
  ro_replayed r = false ->
  exists m, market_for_update (td_book db) (rs_market cmd) = Ok m /\ check_review cmd m (td_book db) = Ok tt /\
    (mk_state m = Closed \/ mk_state m = Resolving).
Proof.
  intros Hr Hn. unfold resolve_attempt in Hr. destruct (txn_by_key _ _) as [txn|] eqn:Ek.
  - apply bind_Ok in Hr as (r0 & Hr0 & [= <- <-]). unfold replay_receipt in Hr0.
    apply bind_Ok in Hr0 as (row & _ & Hr0). apply bind_Ok in Hr0 as ([o b] & _ & [= <-]). done.
  - apply bind_Ok in Hr as (prelock & _ & Hr). apply bind_Ok in Hr as (reps & _ & Hr).
    apply bind_Ok in Hr as (m & Hm%store_Ok & Hr). apply bind_Ok in Hr as (postlock & _ & Hr).
    destruct (negb _) in Hr; [done|]. apply bind_Ok in Hr as ([r0 d0] & Hr & [= <- <-]). unfold resolve_locked in Hr.
    apply bind_Ok in Hr as ([] & Hc & Hr). apply bind_Ok in Hr as ([st b1] & (_ & _ & _ & Hst & _)%enter_resolving_Ok & _).
    by exists m.
Qed.

Lemma checked_unsettled b k m :
  market_for_update b k = Ok m -> mk_state m = Closed \/ mk_state m = Resolving ->
  exists row, bk_markets b !! k = Some row /\ unsettled row.
Proof.
  intros Hm Hst. destruct (market_for_update_row _ _ _ Hm) as (row & Hrow & Hs & _). exists row. split; [done|].
  eapply unsettled_state; [done|destruct Hst; congruence..].
Qed.

Lemma resolve_sound oi_floor rep_config sweep crash_point actor time_json ids db_now now cmd pre db r db' :
  sound db -> bounded_holdings db (rs_market cmd) ->
  resolve_attempt oi_floor rep_config sweep crash_point actor time_json ids db_now now cmd pre db = Ok (Some (r, db')) ->
  ro_replayed r = false -> sound db'.
Proof.
  intros S Hb Hr Hn. destruct (resolve_attempt_checked _ _ _ _ _ _ _ _ _ _ _ _ _ _ Hr Hn) as (m0 & Hm0 & _ & Hst0).
  destruct (checked_unsettled _ _ _ Hm0 Hst0) as (row & Hrow & Hu).
  pose proof S as [W L B U]. pose proof (B _ _ Hrow Hu) as C.
  apply resolve_attempt_Ok in Hr as [(txn & _ & _ & _ & E)|[[m Hm] [[_ [F E _]]|(v & bps & txn & -> & R)]]];
    [congruence| | |done..].
  - apply (sound_framed db _ (rs_market cmd)); eauto.
  - pose proof R as [(held & _ & F) (r' & Hr' & Hst & _) E _ _ _ _ _ L' _].
    split; [by eapply resolved_wf|done| |].
    + intros k rk Hk Huk. destruct (decide (k = rs_market cmd)) as [->|Hne].
      * exfalso. rewrite Hr' in Hk. injection Hk as <-. unfold unsettled in Huk. rewrite Hst in Huk. destruct v; naive_solver.
      * eapply resolved_backed; [done|exact R|done|]. rewrite (fr_markets _ _ _ _ F k Hne) in Hk. by eapply B.
    + intros k Hk. rewrite E. destruct (N.eqb_spec k (rs_market cmd)); [done|]. apply U.
      pose proof (fr_times _ _ _ _ F k) as T. rewrite Hk in T. by destruct (bk_markets (td_book db) !! k).
Qed.
End Money.

(** ** Changes beside the markets *)

(** Sign-ups, channels, reputation, compliance, configuration, deposits,
    withdrawals, receivables: whatever leaves the tables of the markets as they
    are, only extends the ledger, moves no escrow and issues no lot.  Users,
    their standing and their cash are free. *)
Record beside (db db' : Db) : Prop := {
  be_markets : bk_markets (td_book db') = bk_markets (td_book db);
  be_outcomes : bk_outcomes (td_book db') = bk_outcomes (td_book db);
  be_pools : bk_pools (td_book db') = bk_pools (td_book db);
  be_reserves : bk_reserves (td_book db') = bk_reserves (td_book db);
  be_positions : bk_positions (td_book db') = bk_positions (td_book db);
  be_trades : bk_trades (td_book db') = bk_trades (td_book db);
  be_ledger : quiet_on escrow_class (fu_ledger (td_funds db)) (fu_ledger (td_funds db'));
  be_lots : forall l r, db_lots (fu_credits (td_funds db')) !! l = Some r ->
    exists r0, db_lots (fu_credits (td_funds db)) !! l = Some r0 /\ lot_amount r = lot_amount r0 /\
      lot_row_id r = lot_row_id r0 /\ lot_user r = lot_user r0 }.

Lemma beside_sound db db' : sound db -> beside db db' -> sound db'.
Proof.
  intros S [Bm Bo Bp Br Bs Bt Q L]. pose proof S as [[Wf [] Wt Wk] [_ K] _ _].
  assert (L' : lots_wf (td_funds db')).
  { split; [split; [apply Q|]|]; intros l r (r0 & Hr0 & Ea & Ei & _)%L; [rewrite Ea; by eapply Wf|rewrite Ei; by apply K]. }
  apply (sound_frame db); try done.
  - split; [apply L'|split; by rewrite ?Bo, ?Br, ?Bs| |].
    + rewrite Bt. eapply Forall_impl; [exact Wt|]. cbn. intros t. by eapply quiet_txns.
    + intros k p. rewrite Bs. intros Hp. destruct Q as [_ _ [x A] _]. eapply find_owner_app; [exact A|by eapply Wk].
  - apply (qt_escrow _ _ _ Q eq_refl).
  - intros m i. unfold outcome_of. by rewrite Bo.
  - intros out. unfold held_shares. by rewrite Bs.
  - by rewrite Bm.
  - intros m r'. rewrite Bm. eauto.
Qed.

(** ** The machine *)

Section Machine.
Context `{UuidText} `{HashMapOrder}.
Context (collate : string -> string -> bool) (rep_config : RepConfig) (lp_config : LpKillConfig)
  (vote_config : VoteIntegrityConfig) (oi_floor : Z) (sweep_config : IntegritySweepConfig)
  (crash_point : outcome StoreError unit) (time_json : Z -> Value).

(** One committed or refused request.  Amounts are [i64]; the holdings of a
    market fit a [Vec]. *)
Inductive request : Db -> Db -> Prop :=
| rq_genesis fresh cmd db : in_ty I64 (ge_amount cmd) -> request db (ensure_genesis fresh cmd db).2
| rq_seed ids db_now now cmd db : in_ty I64 (sm_seed cmd) ->
    request db (seed_market rep_config lp_config ids db_now now cmd db).2
| rq_advance actor cmd db : request db (advance_market actor cmd db).2
| rq_vote fresh fresh_lazy db_now now cmd db :
    request db (cast_vote vote_config fresh fresh_lazy db_now now cmd db).2
| rq_trade fresh fresh_lazy fresh_alloc db_now now cmd db : in_ty I64 (pt_amount_micro cmd) ->
    request db (place_trade collate rep_config time_json fresh fresh_lazy fresh_alloc db_now now cmd db).2
| rq_credit db db' : credit_step db db' -> request db db'
| rq_resolve actor ids db_now now cmd pre db r db' : bounded_holdings db (rs_market cmd) ->
    resolve_attempt oi_floor rep_config sweep_config crash_point actor time_json ids db_now now cmd pre db =
      Ok (Some (r, db')) ->
    ro_replayed r = false -> request db db'.

(** A request, or a write of the scheduler. *)
Inductive step : Db -> Db -> Prop :=
| st_request db db' : request db db' -> step db db'
| st_flag db_now market db : step db (flag_curator db_now market db).2
| st_report market db : step db (write_integrity_report sweep_config market db).2.

(** The same with the guards under which the scheduler writes: the row it read
    calls for it. *)
Inductive guarded : Db -> Db -> Prop :=
| gd_request db db' : request db db' -> guarded db db'
| gd_flag db_now now market m db : market_for_update (td_book db) market = Ok m ->
    next_action now m = ResolveNow \/ next_action now m = SweepNow ->
    guarded db (flag_curator db_now market db).2
| gd_report now market m db : market_for_update (td_book db) market = Ok m -> next_action now m = SweepNow ->
    guarded db (write_integrity_report sweep_config market db).2.

Lemma request_sound db db' : rep_typed rep_config -> request db db' -> sound db -> sound db'.
Proof.
  intros Hrep Hs S. destruct Hs; eauto using genesis_sound, seed_sound, advance_sound, vote_sound, trade_sound,
    credit_sound, resolve_sound.
Qed.

Lemma step_sound db db' : rep_typed rep_config -> step db db' -> sound db -> sound db'.
Proof. intros Hrep Hs S. destruct Hs; eauto using request_sound, flag_sound, report_sound. Qed.

Lemma guarded_step db db' : guarded db db' -> step db db'.
Proof. intros Hg. destruct Hg; by constructor. Qed.

(** The life of the platform around the markets: a step of the machine, or a
    change that only the parts beside the markets make. *)
Inductive life : Db -> Db -> Prop :=
| lf_step db db' : step db db' -> life db db'
| lf_beside db db' : beside db db' -> life db db'.

Lemma life_sound db db' : rep_typed rep_config -> rtc life db db' -> sound db -> sound db'.
Proof. intros Hrep. induction 1 as [|? ? ? []]; eauto using step_sound, beside_sound. Qed.

(** ** Lemmas: the ledger is a log *)

Definition logged (db db' : Db) : Prop :=
  exists extra, pg_txns (fu_ledger (td_funds db')) = pg_txns (fu_ledger (td_funds db)) ++ extra.

Lemma logged_refl db : logged db db.
Proof. exists []. by rewrite app_nil_r. Qed.

Lemma logged_same db db' : td_funds db' = td_funds db -> logged db db'.
Proof. intros E. unfold logged. rewrite E. apply logged_refl. Qed.

Lemma logged_key db db' key t :
  logged db db' -> txn_by_key (fu_ledger (td_funds db)) key = Some t -> txn_by_key (fu_ledger (td_funds db')) key = Some t.
Proof. intros [x E]. unfold txn_by_key. rewrite E. intros (r & Hr & ->)%fmap_Some. by rewrite find_app, Hr. Qed.

(** ** Lemmas: reserved money is out of reach *)

(** The ledger only grows, and the reserved balances stay. *)
Definition reserved_kept (db db' : Db) : Prop :=
  logged db db' /\
  forall o, reserved o = true -> held (fu_ledger (td_funds db')) o Usdc = held (fu_ledger (td_funds db)) o Usdc.

Lemma reserved_refl db : reserved_kept db db.
Proof. split; [apply logged_refl|done]. Qed.

Lemma reserved_same db db' : td_funds db' = td_funds db -> reserved_kept db db'.
Proof. intros E. split; [by apply logged_same|by rewrite E]. Qed.

Lemma reserved_quiet db db' : quiet (fu_ledger (td_funds db)) (fu_ledger (td_funds db')) -> reserved_kept db db'.
Proof. intros Q. split; [apply Q|]. intros o Ho. by apply (qt_holding _ _ _ Q o Usdc), reserved_escrowed. Qed.

Lemma request_reserved db db' : rep_typed rep_config -> request db db' -> sound db -> reserved_kept db db'.
Proof.
  intros Hrep Hs S. destruct Hs.
  - apply reserved_quiet. by destruct (genesis_quiet fresh cmd db) as (Q & _).
  - destruct (seed_market _ _ _ _ _ _ _) as [[r|e|] db'] eqn:E; cbn; [|apply atomic_refused in E as ->; [apply reserved_refl|done]..].
    apply seed_market_Ok in E as [->|X]; [apply reserved_refl|split; apply X|apply S|done].
  - destruct (advance_market _ _ _) as [[r|e|] db'] eqn:E; cbn; [|apply atomic_refused in E as ->; [apply reserved_refl|done]..].
    apply advance_market_Ok in E as [[-> _]|(m & to & _ & _ & _ & _ & _ & _ & E & _)]; [apply reserved_refl|by apply reserved_same].
  - destruct (cast_vote _ _ _ _ _ _ _) as [[r|e|] db'] eqn:E; cbn; [|apply atomic_refused in E as ->; [apply reserved_refl|done]..].
    apply cast_vote_Ok in E as [(r0 & _ & -> & _)|(funds & m & rec & out & X)]; [apply reserved_refl|].
    destruct (voted_wf _ _ _ _ _ _ _ _ _ _ _ _ _ (so_wf _ S) X) as [_ C]. by apply reserved_quiet, cm_quiet.
  - destruct (place_trade _ _ _ _ _ _ _ _ _ _) as [[r|e|] db'] eqn:E; cbn; [|apply atomic_refused in E as ->; [apply reserved_refl|done]..].
    apply place_trade_Ok in E as [(txn & _ & -> & _)|(funds & pool & out & fee & legs & txn & led & X)]; [apply reserved_refl| |done].
    destruct (executed_moves _ _ _ _ _ _ _ _ _ _ _ _ _ _ _ _ _ _ (so_wf _ S) ltac:(done) X) as (_ & _ & (yes & no & M) & _ & _ & _ & Hl & _).
    split; [done|apply M].
  - destruct (credit_granted _ _ (so_lots _ S) ltac:(done)) as [[Q _ _ _ _ _] _ _ _ _]. by apply reserved_quiet.
  - match goal with Hr : resolve_attempt _ _ _ _ _ _ _ _ _ _ _ _ = _, Hn : ro_replayed _ = false |- _ =>
      rename Hr into HR; rename Hn into HN end.
    destruct (resolve_attempt_checked _ _ _ _ _ _ _ _ _ _ _ _ _ _ HR HN) as (m0 & Hm0 & _ & Hst0).
    destruct (checked_unsettled _ _ _ Hm0 Hst0) as (row & Hrow & Hu). pose proof (so_backed _ S _ _ Hrow Hu) as C.
    apply resolve_attempt_Ok in HR as [(txn & _ & _ & _ & E)|[_ [[_ [_ E _]]|(v & bps & txn & -> & R)]]];
      [congruence|by apply reserved_same|split; apply R|apply S|apply S|done..].
Qed.

Lemma step_reserved db db' : rep_typed rep_config -> step db db' -> sound db -> reserved_kept db db'.
Proof.
  intros Hrep Hs S. destruct Hs; [by apply request_reserved|apply reserved_same..].
  - by destruct (flag_curator_framed db_now market db) as (-> & _).
  - by destruct (report_same sweep_config market db) as (-> & _).
Qed.

(** A market whose state, flags and report stay. *)
Record kept (m : N) (db db' : Db) : Prop := {
  kp_row : exists r r', bk_markets (td_book db) !! m = Some r /\ bk_markets (td_book db') !! m = Some r' /\
    ma_status r' = ma_status r /\ ma_curator_flagged_at r' = ma_curator_flagged_at r /\
    ma_integrity_due_at r' = ma_integrity_due_at r;
  kp_report : bk_reports (td_book db') !! m = bk_reports (td_book db) !! m }.

Lemma kept_refl m db : is_Some (bk_markets (td_book db) !! m) -> kept m db db.
Proof. intros [r Hr]. split; [by exists r, r|done]. Qed.

Lemma kept_same m db db' r :
  bk_markets (td_book db) !! m = Some r -> bk_markets (td_book db') !! m = bk_markets (td_book db) !! m ->
  bk_reports (td_book db') = bk_reports (td_book db) -> kept m db db'.
Proof. intros Hr E R. split; [exists r, r; by rewrite E|by rewrite R]. Qed.
(** What a request may do to a known market: nothing, a lifecycle event, or a
    resolution that passed the checks and either waits for review or paid under
    a new ledger key. *)
Inductive market_effect (m : N) (db db' : Db) : Prop :=
| ef_kept : kept m db db' -> market_effect m db db'
| ef_advanced mk e to r' : market_for_update (td_book db) m = Ok mk -> non_financial e = true ->
    transition (mk_state mk) e = Ok to -> bk_markets (td_book db') !! m = Some r' ->
    ma_status r' = market_state_name to -> market_effect m db db'
| ef_resolved cmd mk : rs_market cmd = m -> market_for_update (td_book db) m = Ok mk ->
    check_review cmd mk (td_book db) = Ok tt ->
    (exists r', bk_markets (td_book db') !! m = Some r' /\ ma_status r' = "resolving") \/
    txn_by_key (fu_ledger (td_funds db)) (resolve_key m) = None -> market_effect m db db'.

Lemma framed_kept k m db db' :
  framed k [] (td_book db) (td_book db') -> m <> k -> is_Some (bk_markets (td_book db) !! m) -> kept m db db'.
Proof. intros F Hm [r Hr]. by apply (kept_same m db db' r); [|apply F|apply F]. Qed.

Lemma refused_effect m db : is_Some (bk_markets (td_book db) !! m) -> logged db db /\ market_effect m db db.
Proof. intros Hm. split; [apply logged_refl|by apply ef_kept, kept_refl]. Qed.

Lemma book_effect m db db' :
  is_Some (bk_markets (td_book db) !! m) -> td_book db' = td_book db -> logged db db' -> logged db db' /\ market_effect m db db'.
Proof. intros [r Hr] E Hl. split; [done|]. by apply ef_kept, (kept_same m db db' r); rewrite ?E. Qed.

Lemma genesis_effect fresh cmd m db :
  sound db -> in_ty I64 (ge_amount cmd) -> is_Some (bk_markets (td_book db) !! m) ->
  logged db (ensure_genesis fresh cmd db).2 /\ market_effect m db (ensure_genesis fresh cmd db).2.
Proof.
  intros S Hty Hm. destruct (ensure_genesis _ _ _) as [[r|e|] db'] eqn:E; cbn; [|apply atomic_refused in E as ->; [by apply refused_effect|done]..].
  unfold ensure_genesis in E. match type of E with atomic _ ?m = _ => destruct m as [[a db1]|e|] eqn:Er end; cbn in E; [|done..].
  injection E as -> ->. destruct (txn_by_key _ _); [injection Er as <- <-; by apply refused_effect|].
  apply bind_Ok in Er as ([l1 x] & H1%store_Ok & Er). apply bind_Ok in Er as ([l2 h] & H2%store_Ok & Er).
  apply bind_Ok in Er as (neg & _ & Er). apply bind_Ok in Er as ([l3 t] & H3%store_Ok & [= <- <-]).
  apply book_effect; [done|done|]. apply account_txns in H1, H2. apply apply_log in H3 as [x' Hx]. exists x'.
  cbn. by rewrite Hx, H2, H1.
Qed.

Lemma seed_effect ids db_now now cmd m db :
  sound db -> in_ty I64 (sm_seed cmd) -> is_Some (bk_markets (td_book db) !! m) ->
  let db' := (seed_market rep_config lp_config ids db_now now cmd db).2 in logged db db' /\ market_effect m db db'.
Proof.
  intros S Hty Hm. destruct (seed_market _ _ _ _ _ _ _) as [[r|e|] db'] eqn:E; cbn; [|apply atomic_refused in E as ->; [by apply refused_effect|done]..].
  apply seed_market_Ok in E as [->|X]; [by apply refused_effect| |apply S|done]. split; [apply X|].
  destruct Hm as [r0 Hr0], (se_markets _ _ _ _ _ X) as (row & E & _). apply ef_kept, (kept_same m db db' r0 Hr0); [|apply X].
  rewrite E, lookup_insert_ne; [done|]. intros <-. pose proof (se_new _ _ _ _ _ X). congruence.
Qed.

Lemma advance_effect actor cmd m db :
  is_Some (bk_markets (td_book db) !! m) ->
  let db' := (advance_market actor cmd db).2 in logged db db' /\ market_effect m db db'.
Proof.
  intros Hm. destruct (advance_market _ _ _) as [[r|e|] db'] eqn:E; cbn; [|apply atomic_refused in E as ->; [by apply refused_effect|done]..].
  apply advance_market_Ok in E as [[-> _]|(mk & to & Hmk & Hn & Ht & _ & _ & F & Ef & _ & _ & row & _ & Em)]; [by apply refused_effect|].
  split; [by apply logged_same|]. destruct (decide (m = ad_market cmd)) as [->|Hne].
  - eapply ef_advanced; [done..| |]; [rewrite Em; apply lookup_insert_eq|done].
  - by apply ef_kept, (framed_kept (ad_market cmd)).
Qed.

Lemma vote_effect fresh fresh_lazy db_now now cmd m db :
  sound db -> is_Some (bk_markets (td_book db) !! m) ->
  let db' := (cast_vote vote_config fresh fresh_lazy db_now now cmd db).2 in logged db db' /\ market_effect m db db'.
Proof.
  intros S Hm. destruct (cast_vote _ _ _ _ _ _ _) as [[r|e|] db'] eqn:E; cbn; [|apply atomic_refused in E as ->; [by apply refused_effect|done]..].
  apply cast_vote_Ok in E as [(r0 & _ & -> & _)|(funds & mk & rec & out & X)]; [by apply refused_effect|].
  destruct (voted_wf _ _ _ _ _ _ _ _ _ _ _ _ _ (so_wf _ S) X) as [_ C]. split; [apply (cm_quiet _ _ C)|].
  pose proof (vt_rec _ _ _ _ _ _ _ _ _ _ _ _ _ X) as Hrec. rewrite (vt_db _ _ _ _ _ _ _ _ _ _ _ _ _ X).
  destruct Hm as [r0 Hr0]. apply ef_kept. split; [|done]. cbn. destruct (decide (m = cv_market cmd)) as [->|].
  - exists r0. eexists. rewrite lookup_insert_eq. split_and!; [done..| | |]; rewrite Hrec in Hr0; by injection Hr0 as <-.
  - exists r0, r0. by rewrite lookup_insert_ne.
Qed.

Lemma trade_effect fresh fresh_lazy fresh_alloc db_now now cmd m db :
  rep_typed rep_config -> sound db -> in_ty I64 (pt_amount_micro cmd) -> is_Some (bk_markets (td_book db) !! m) ->
  let db' := (place_trade collate rep_config time_json fresh fresh_lazy fresh_alloc db_now now cmd db).2 in
  logged db db' /\ market_effect m db db'.
Proof.
  intros Hrep S Ha Hm. destruct (place_trade _ _ _ _ _ _ _ _ _ _) as [[r|e|] db'] eqn:E; cbn;
    [|apply atomic_refused in E as ->; [by apply refused_effect|done]..].
  apply place_trade_Ok in E as [(txn & _ & -> & _)|(funds & pool & out & fee & legs & txn & led & X)]; [by apply refused_effect| |done].
  destruct (executed_moves _ _ _ _ _ _ _ _ _ _ _ _ _ _ _ _ _ _ (so_wf _ S) Ha X) as (_ & _ & _ & _ & Em & Er & Hl & _).
  split; [done|]. destruct Hm as [r0 Hr0]. by apply ef_kept, (kept_same m db db' r0); rewrite ?Em.
Qed.

Lemma credit_effect m db db' :
  sound db -> credit_step db db' -> is_Some (bk_markets (td_book db) !! m) -> logged db db' /\ market_effect m db db'.
Proof.
  intros S Hs Hm. pose proof (credit_granted _ _ (so_lots _ S) Hs) as [[Q _ _ _ _ _] B _ _ _].
  by apply book_effect; [| |apply Q].
Qed.

Lemma resolve_effect actor ids db_now now cmd pre m db r db' :
  sound db -> bounded_holdings db (rs_market cmd) ->
  resolve_attempt oi_floor rep_config sweep_config crash_point actor time_json ids db_now now cmd pre db = Ok (Some (r, db')) ->
  ro_replayed r = false -> is_Some (bk_markets (td_book db) !! m) -> logged db db' /\ market_effect m db db'.
Proof.
  intros S Hb Hr Hn Hm. destruct (resolve_attempt_checked _ _ _ _ _ _ _ _ _ _ _ _ _ _ Hr Hn) as (mk & Hmk & Hc & Hst).
  destruct (checked_unsettled _ _ _ Hmk Hst) as (row & Hrow & Hu). pose proof S as [W L B U].
  apply resolve_attempt_Ok in Hr as [(txn & _ & _ & _ & E)|[_ [[_ [F E R]]|(v & bps & txn & -> & R)]]];
    [congruence| | |done|done|by eapply B|done].
  - split; [by apply logged_same|]. destruct (decide (m = rs_market cmd)) as [->|Hne].
    + eapply ef_resolved; eauto.
    + by apply ef_kept, (framed_kept (rs_market cmd)).
  - split; [apply R|]. destruct (decide (m = rs_market cmd)) as [->|Hne].
    + eapply ef_resolved; eauto. right. apply R.
    + destruct Hm as [r0 Hr0], (rv_frame _ _ _ _ _ _ R) as (held & _ & F). apply ef_kept, (kept_same m db db' r0 Hr0); by apply F.
Qed.

Lemma request_effect m db db' :
  rep_typed rep_config -> sound db -> request db db' -> is_Some (bk_markets (td_book db) !! m) ->
  logged db db' /\ market_effect m db db'.
Proof.
  intros Hrep S Hq. destruct Hq; eauto using genesis_effect, seed_effect, advance_effect, vote_effect, trade_effect,
    credit_effect, resolve_effect.
Qed.
(** ** Lemmas: markets that cannot be paid *)

(** A market not yet paid whose payout key already names a transaction. *)
Definition blocked (m : N) (db : Db) : Prop :=
  is_Some (txn_by_key (fu_ledger (td_funds db)) (resolve_key m)) /\
  exists r, bk_markets (td_book db) !! m = Some r /\ unsettled r.

Lemma resolving_unsettled r : ma_status r = "resolving" -> unsettled r.
Proof. unfold unsettled. by intros ->. Qed.

Lemma effect_blocked m db db' : logged db db' -> market_effect m db db' -> blocked m db -> blocked m db'.
Proof.
  intros Hl He ([t Ht] & r & Hr & Hu). split; [exists t; by eapply logged_key|].
  destruct He as [[(r0 & r1 & H1 & H2 & St & _) _]|mk e to r' Hm Hn Htr Hr' St|cmd mk Hc Hm _ [(r' & Hr' & St)|Hnone]].
  - exists r1. split; [done|]. rewrite Hr in H1. injection H1 as <-. unfold unsettled in *. by rewrite St.
  - exists r'. split; [done|]. destruct (transition_unsettled _ _ _ Htr Hn) as [_ []]. by eapply unsettled_state.
  - exists r'. split; [done|by apply resolving_unsettled].
  - congruence.
Qed.

Lemma step_blocked m db db' : rep_typed rep_config -> sound db -> step db db' -> blocked m db -> blocked m db'.
Proof.
  intros Hrep S Hs B. pose proof B as ([t Ht] & r & Hr & Hu). destruct Hs as [db db' Hq|dn k db|k db].
  - destruct (request_effect m db db' Hrep S Hq) as [Hl He]; [by eexists|]. by eapply effect_blocked.
  - destruct (flag_curator_framed dn k db) as (E & F & U). split; [by rewrite E; exists t|].
    destruct (decide (m = k)) as [->|Hne]; [|exists r; by rewrite (fr_markets _ _ _ _ F m Hne)].
    pose proof (fr_times _ _ _ _ F k) as T. rewrite Hr in T.
    destruct (bk_markets (td_book (flag_curator dn k db).2) !! k) as [r'|] eqn:Er; [|done]. exists r'. split; [done|]. by apply (U r r').
  - destruct (report_same sweep_config k db) as (E & x & Bk & _). split; [by rewrite E; exists t|]. exists r. by rewrite Bk.
Qed.

(** A market in [Resolving] that nothing is going to look at. *)
Definition stranded (m : N) (db : Db) : Prop :=
  (exists r, bk_markets (td_book db) !! m = Some r /\ ma_status r = "resolving" /\
     ma_curator_flagged_at r = None /\ ma_integrity_due_at r = None) /\ bk_reports (td_book db) !! m = None.

Lemma stranded_row m db mk :
  stranded m db -> market_for_update (td_book db) m = Ok mk ->
  mk_state mk = Resolving /\ mk_curator_flagged_at mk = None /\ mk_integrity_due_at mk = None.
Proof.
  intros [(r & Hr & St & Fl & Du) _] Hm. destruct (market_for_update_row _ _ _ Hm) as (row & Hrow & Hs & _ & _ & _ & E1 & E2).
  rewrite Hr in Hrow. injection Hrow as <-. split_and!; [|congruence..]. rewrite St in Hs. by destruct (mk_state mk).
Qed.

Lemma stranded_review m db cmd mk :
  stranded m db -> market_for_update (td_book db) m = Ok mk -> rs_market cmd = m ->
  check_review cmd mk (td_book db) =
    Err (if rs_override cmd then App.CuratorOverrideNotAllowed else App.UnderReview).
Proof.
  intros S Hm <-. destruct (stranded_row _ _ _ S Hm) as (Es & Ef & _). unfold check_review, integrity_report.
  rewrite bool_decide_eq_true_2, Ef by done. destruct S as [_ ->]. by destruct (rs_override cmd).
Qed.

Lemma effect_stranded m db db' : market_effect m db db' -> stranded m db -> stranded m db'.
Proof.
  intros He S. destruct He as [[(r0 & r1 & H1 & H2 & St & E1 & E2) Ep]|mk e to r' Hm Hn Htr Hr' St|cmd mk Hc Hm Hok _].
  - destruct S as [(r & Hr & S1 & S2 & S3) S4]. rewrite Hr in H1. injection H1 as <-.
    split; [exists r1; by rewrite St, E1, E2|by rewrite Ep].
  - destruct (stranded_row _ _ _ S Hm) as (Es & _). rewrite Es in Htr. by destruct e.
  - by rewrite (stranded_review _ _ _ _ S Hm Hc) in Hok.
Qed.

Lemma stranded_action m db mk now :
  stranded m db -> market_for_update (td_book db) m = Ok mk -> next_action now mk = Done.
Proof.
  intros S Hm. destruct (stranded_row _ _ _ S Hm) as (Es & Ef & Ed). unfold next_action. by rewrite Es, Ed.
Qed.

Lemma guarded_stranded m db db' :
  rep_typed rep_config -> sound db -> guarded db db' -> stranded m db -> stranded m db'.
Proof.
  intros Hrep S Hg St. pose proof St as [(r & Hr & _) _].
  destruct Hg as [db db' Hq|dn now k mk db Hm Ha|now k mk db Hm Ha].
  - destruct (request_effect m db db' Hrep S Hq) as [_ He]; [by eexists|]. by eapply effect_stranded.
  - assert (Hne : m <> k) by (intros ->; rewrite (stranded_action _ _ _ _ St Hm) in Ha; naive_solver).
    destruct (flag_curator_framed dn k db) as (_ & F & _). destruct St as [Hrow Hrep'].
    split; [by rewrite (fr_markets _ _ _ _ F m Hne)|by rewrite (fr_reports _ _ _ _ F)].
  - assert (Hne : m <> k) by (intros ->; by rewrite (stranded_action _ _ _ _ St Hm) in Ha).
    destruct (report_same sweep_config k db) as (_ & x & B & Hx). destruct St as [Hrow Hrep'].
    split; rewrite B; cbn; [done|by rewrite (Hx m Hne)].
Qed.

Lemma guarded_run_stranded m db db' :
  rep_typed rep_config -> sound db -> stranded m db -> rtc guarded db db' -> sound db' /\ stranded m db'.
Proof.
  intros Hrep S St Hr. induction Hr as [db|db d1 db' Hg _ IH]; [done|].
  apply IH; [by eapply step_sound; [|apply guarded_step|]|by eapply guarded_stranded].
Qed.

Lemma blocked_run m db db' :
  rep_typed rep_config -> sound db -> blocked m db -> rtc step db db' -> sound db' /\ blocked m db'.
Proof.
  intros Hrep S B Hr. induction Hr as [db|db d1 db' Hg _ IH]; [done|].
  apply IH; [by eapply step_sound|by eapply step_blocked].
Qed.
End Machine.

Lemma empty_sound : sound empty_db.
Proof.
  assert (W : pg_wf pg_empty) by apply (pg_reachable_wf (H := canonical_order)), rtc_refl.
  assert (F : funds_wf (td_funds empty_db)) by by split.
  split; [split; [done| |constructor|by intros k p]|split; [done|by intros l r]|by intros m r|by intros m].
  split; [constructor|constructor|by intros o r|by intros k p|by intros k p].
Qed.

(** A due market has a due row. *)
Lemma due_markets_row b now limit due d :
  due_markets b now limit = Ok due -> d ∈ due ->
  exists r, bk_markets b !! dm_market d = Some r /\ is_Some (due_since now r).
Proof.
  unfold due_markets. intros Hr Hd. apply foldM_decode in Hr as (out & -> & Hf).
  destruct (Forall2_elem_r _ _ _ _ Hf Hd) as ([[t k] st] & Hx & Hdec). apply bind_Ok in Hdec as (s & _ & [= <-]).
  apply elem_of_take in Hx as (i & Hx & _). apply list_elem_of_lookup_2 in Hx. rewrite sort_by_perm in Hx.
  apply list_elem_of_omap in Hx as ([k' r] & Hin%elem_of_map_to_list & Hx). cbn in Hx.
  apply fmap_Some in Hx as (t' & Ht & [= -> -> ->]). exists r. split; [done|by eexists].
Qed.

Lemma stranded_not_due m db now limit due :
  stranded m db -> due_markets (td_book db) now limit = Ok due -> m ∉ map dm_market due.
Proof.
  intros [(r & Hr & St & Fl & Du) _] Hd (d & -> & Hin)%list_elem_of_fmap.
  destruct (due_markets_row _ _ _ _ _ Hd Hin) as (r' & Hr' & Hdue). rewrite Hr in Hr'. injection Hr' as <-.
  unfold due_since in Hdue. rewrite St, Fl, Du in Hdue. cbn in Hdue. by destruct Hdue.
Qed.

(** ** Markets in play *)

Definition demo_seed_ids : SeedIds := mkSeedIds (fun n => N.of_nat (11 + n)) 40 (fun n => N.of_nat (41 + n)).
Definition demo_seed : SeedMarketCmd := mkSeedMarket 10 "first" 1 900 800 100 1000000000 "seed-10" false.
Definition demo_lp : LpKillConfig := mkLpKill 9223372036854775807 30.

(** The users of [Book.v] sign up, pass the screenings and are paid in. *)
Definition demo_people_ledger : PgLedger :=
  {| pg_accounts :=
       [ {| acct_id := 1; acct_type := External; acct_owner := None; acct_currency := Usdc |};
         {| acct_id := 2; acct_type := User; acct_owner := Some 7%N; acct_currency := Usdc |} ];
     pg_txns := [{| txn_id := 1; txn_kind := Deposit; txn_key := "dep" |}];
     pg_entries := [ {| entry_txn := 1; entry_account := 1; entry_amount := -10000000 |};
                     {| entry_txn := 1; entry_account := 2; entry_amount := 10000000 |} ] |}.

Definition demo_people_db : Db :=
  mkDb (mkFunds demo_people_ledger {| db_trades := ∅; db_lots := ∅; db_facts := [] |} [] [] [])
    (td_ops demo_market_db) (td_comp demo_market_db)
    (mkBook ∅ [] ∅ ∅ ∅ [] [] (bk_reputation (td_book demo_market_db)) ∅ ∅ ∅ (bk_channels (td_book demo_market_db))
       (bk_created (td_book demo_market_db)) ∅)
    ∅ [] (mkReferralDb [] [] ∅ ∅).

Lemma demo_people_beside : beside empty_db demo_people_db.
Proof.
  split; try reflexivity; [|by intros l r]. split.
  - apply (pg_reachable_wf (H := canonical_order)).
    set (l1 := pg_opened 1 pg_empty External None Usdc). set (l2 := pg_opened 2 l1 User (Some 7%N) Usdc).
    eapply rtc_l; [apply (pg_account (H := canonical_order) 1 _ l1 Ref.External Usdc 1); vm_compute; reflexivity|].
    eapply rtc_l; [apply (pg_account (H := canonical_order) 2 _ l2 (Ref.User 7) Usdc 2); vm_compute; reflexivity|].
    eapply rtc_l; [|apply rtc_refl].
    apply (pg_apply (H := canonical_order) 1 l2 _ Deposit "dep"
      [{| e_account := 1%N; e_amount := -10000000 |}; {| e_account := 2%N; e_amount := 10000000 |}] 1).
    + apply (bool_decide_unpack _). vm_compute. exact I.
    + vm_compute. discriminate.
    + vm_compute. reflexivity.
  - by intros [] c.
  - by exists (pg_accounts demo_people_ledger).
  - by exists (pg_txns demo_people_ledger).
Qed.

Definition demo_genesis_db : Db :=
  (ensure_genesis (H := canonical_order) (fun n => N.of_nat (30 + n)) (mkGenesis Usdc 2000000000) demo_people_db).2.
Definition demo_seeded_db : Db :=
  (seed_market (H := canonical_order) demo_rep demo_lp demo_seed_ids 0 0 demo_seed demo_genesis_db).2.
Definition demo_live_db : Db := (advance_market Machine (mkAdvance 10 GoLive "live:10") demo_seeded_db).2.
Definition demo_live_vote : CastVoteCmd := mkCastVote 10 7 Yes 60 "v-1" None None.
Definition demo_ballot_db : Db :=
  (cast_vote (H0 := canonical_order) demo_config 51 (fun n => N.of_nat (300 + n)) 400 400 demo_live_vote demo_live_db).2.
Definition demo_run_db : Db := (demo_place demo_trade demo_ballot_db).2.

Definition demo_run_row : MarketRecord :=
  mkMarketRecord "live" 1 1 (Some 0) (Some 900) (Some 800) None None None None None.
Definition demo_run_held : list HoldingRow :=
  [mkHolding 2 (HeldByUser 7) 11 Yes 9875618; mkHolding 40 HeldByPool 11 Yes 995074382;
   mkHolding 40 HeldByPool 12 No 1004950000].

Lemma demo_run_market : bk_markets (td_book demo_run_db) !! 10%N = Some demo_run_row.
Proof. vm_compute. reflexivity. Qed.

Lemma demo_run_holdings : holdings (td_book demo_run_db) (fu_ledger (td_funds demo_run_db)) 10 = Ok demo_run_held.
Proof. vm_compute. reflexivity. Qed.

Lemma demo_run_reached :
  rtc (life (H0 := canonical_order) str_le demo_rep demo_lp demo_config 1 demo_sweep (Ok tt) JInt) empty_db demo_run_db.
Proof.
  apply (rtc_l _ _ demo_people_db); [apply lf_beside, demo_people_beside|].
  apply (rtc_l _ _ demo_genesis_db).
  { apply lf_step, st_request, (rq_genesis (H0 := canonical_order) _ _ _ _ _ _ _ _ _ (mkGenesis Usdc 2000000000)). done. }
  apply (rtc_l _ _ demo_seeded_db).
  { apply lf_step, st_request, (rq_seed (H0 := canonical_order) _ _ _ _ _ _ _ _ _ _ _ demo_seed). done. }
  apply (rtc_l _ _ demo_live_db); [apply lf_step, st_request, (rq_advance (H0 := canonical_order))|].
  apply (rtc_l _ _ demo_ballot_db); [apply lf_step, st_request, (rq_vote (H0 := canonical_order))|].
  apply rtc_once, lf_step, st_request, (rq_trade (H0 := canonical_order)). done.
Qed.

(** The live market of [Book.v]. *)
Lemma demo_market_sound : sound demo_market_db.
Proof.
  split; [apply demo_market_wf|split; [apply demo_market_wf|by intros l r]| |].
  - intros m r Hm _. cbn in Hm. apply lookup_singleton_Some in Hm as [<- _].
    exists 11%N, 12%N, 1000000000, 1000000000. vm_compute. split_and!; reflexivity.
  - intros m Hm. cbn in Hm. apply lookup_singleton_None in Hm. unfold escrow_of, holding.
    destruct (List.find _ _) as [a|] eqn:Ef; [|done]. exfalso. apply find_by in Ef as [Ha Hi].
    cbn in Ha. unfold is_account in Hi. rewrite !andb_true_iff, !bool_decide_eq_true in Hi. destruct Hi as [[H1 H2] _].
    rewrite !elem_of_cons, elem_of_nil in Ha. destruct Ha as [->|[->|[->|[]]]]; cbn in H1, H2; try done.
    by injection H2 as <-.
Qed.

Definition demo_key_trade : PlaceTradeCmd := mkPlaceTrade 10 7 Yes Buy 5000000 (resolve_key 10) None None (Some 1).
Definition demo_key_db : Db := (demo_place demo_key_trade demo_market_db).2.
Definition demo_key_receipt : TradeReceipt := mkReceipt 204 203 Yes Buy 9875618 5000000 50000 506297 false.

Lemma demo_key_ok : demo_place demo_key_trade demo_market_db = (Ok demo_key_receipt, demo_key_db).
Proof.
  assert (Hr : (demo_place demo_key_trade demo_market_db).1 = Ok demo_key_receipt) by (vm_compute; reflexivity).
  unfold demo_key_db. destruct (demo_place demo_key_trade demo_market_db). cbn in Hr. by rewrite Hr.
Qed.

(** The closed market of [Settlement.v], moved on by hand. *)
Definition demo_manual : AdvanceMarketCmd := mkAdvance 10 StartIntegritySweep "advance:10:resolving".
Definition demo_manual_db : Db := (advance_market Machine demo_manual demo_close_db).2.

Lemma demo_close_sound : sound demo_close_db.
Proof.
  split; [apply demo_close_wf|apply demo_close_lots| |].
  - intros m r Hm _. cbn in Hm. apply lookup_singleton_Some in Hm as [<- _]. apply demo_close_backed.
  - intros m Hm. cbn in Hm. apply lookup_singleton_None in Hm. unfold escrow_of, holding.
    destruct (List.find _ _) as [a|] eqn:Ef; [|done]. exfalso. apply find_by in Ef as [Ha Hi].
    cbn in Ha. unfold is_account in Hi. rewrite !andb_true_iff, !bool_decide_eq_true in Hi. destruct Hi as [[H1 H2] _].
    rewrite !elem_of_cons, elem_of_nil in Ha. destruct Ha as [->|[->|[->|[->|[]]]]]; cbn in H1, H2; try done.
    by injection H2 as <-.
Qed.

(** ** Properties *)

(** C6: every reachable open market can be paid.  From empty tables, after any
    interleaving of genesis, seeds, lifecycle events, votes, trades, grants and
    credit work, curator flags, integrity reports and attempts to resolve
    (each with any earlier state at its first reads), and of any changes beside
    the markets ([beside]: sign-ups, screenings, configuration, deposits and
    withdrawals, whatever leaves the market tables and the escrows alone), the
    escrow of every market that is not paid or voided holds exactly the shares
    of each of its sides, over its holders and its pool; so the holdings the
    settlement query returns settle at every result, and the payouts with the
    dust are the whole escrow. *)
Theorem reachable_markets_settle `{UuidText} `{HashMapOrder} (collate : string -> string -> bool)
    (rep_config : RepConfig) (lp_config : LpKillConfig) (vote_config : VoteIntegrityConfig) (oi_floor : Z)
    (sweep_config : IntegritySweepConfig) (crash_point : outcome StoreError unit) (time_json : Z -> Value)
    (db : Db) (m : N) (r : MarketRecord) (held : list HoldingRow) (bps : Z) :
  rep_typed rep_config ->
  rtc (life collate rep_config lp_config vote_config oi_floor sweep_config crash_point time_json) empty_db db ->
  bk_markets (td_book db) !! m = Some r -> unsettled r ->
  holdings (td_book db) (fu_ledger (td_funds db)) m = Ok held -> zlen held <= MAX_HOLDINGS -> 0 <= bps <= 10000 ->
  let escrow := escrow_of (fu_ledger (td_funds db)) m in
  backed db m /\ 0 < escrow /\
  settle_market (settlement_input held) bps escrow = Ok (expected_settlement (settlement_input held) bps escrow) /\
  zsum (map snd (st_payouts (expected_settlement (settlement_input held) bps escrow))) +
    st_dust (expected_settlement (settlement_input held) bps escrow) = escrow.
Proof.
  intros Hrep Hrun Hm Hu Hh Hlen Hb escrow. pose proof (life_sound _ _ _ _ _ _ _ _ _ _ Hrep Hrun empty_sound) as [W _ B _].
  pose proof (B _ _ Hm Hu) as C. split; [done|]. split; [by apply backed_positive|]. by apply backed_settles.
Qed.

Lemma reachable_markets_settle_witness :
  settle_market (settlement_input demo_run_held) 7350 1004950000 =
    Ok {| st_payouts := [(2%N, 7258579); (40%N, 731379670); (40%N, 266311750)]; st_dust := 1 |}.
Proof.
  destruct (reachable_markets_settle (H0 := canonical_order) _ demo_rep demo_lp demo_config 1 demo_sweep (Ok tt) JInt
    demo_run_db 10 demo_run_row demo_run_held 7350 demo_rep_typed demo_run_reached demo_run_market) as (_ & _ & Hs & _);
    [split; discriminate|exact demo_run_holdings|vm_compute; discriminate|lia|].
  replace (escrow_of (fu_ledger (td_funds demo_run_db)) 10) with 1004950000 in Hs by (vm_compute; reflexivity).
  rewrite Hs. vm_compute. reflexivity.
Defined.

(** C20: a trade can take a market's payout key for good.  The client chooses the
    idempotency key of a trade, and the ledger keeps it in the same column as
    the key [resolve:<id>] of the payout.  After an accepted trade whose key is
    the payout key of a market that is not yet settled, whatever happens next,
    that market is never paid or voided: its escrow stays positive, and every
    attempt to resolve it answers with the invariant violation of a payout key
    without a settled market. *)
Theorem taken_payout_key_blocks `{UuidText} `{HashMapOrder} (collate : string -> string -> bool)
    (rep_config : RepConfig) (lp_config : LpKillConfig) (vote_config : VoteIntegrityConfig) (oi_floor : Z)
    (sweep_config : IntegritySweepConfig) (crash_point : outcome StoreError unit) (time_json : Z -> Value)
    (fresh fresh_lazy fresh_alloc : nat -> N) (db_now now : Z) (cmd : PlaceTradeCmd) (receipt : TradeReceipt)
    (db db' : Db) (m : N) (r : MarketRecord) :
  rep_typed rep_config -> sound db -> in_ty I64 (pt_amount_micro cmd) ->
  place_trade collate rep_config time_json fresh fresh_lazy fresh_alloc db_now now cmd db = (Ok receipt, db') ->
  rt_replayed receipt = false -> pt_idempotency_key cmd = resolve_key m ->
  bk_markets (td_book db) !! m = Some r -> unsettled r ->
  forall later,
    rtc (step collate rep_config lp_config vote_config oi_floor sweep_config crash_point time_json) db' later ->
    0 < escrow_of (fu_ledger (td_funds later)) m /\
    (exists r', bk_markets (td_book later) !! m = Some r' /\ unsettled r') /\
    forall actor ids db_now' now' override mk locked, market_for_update (td_book later) m = Ok mk ->
      resolve_attempt oi_floor rep_config sweep_config crash_point actor time_json ids db_now' now'
        (mkResolve m override) later locked =
      Err (App.Store (Store.Invariant "resolve key exists but market is not settled")).
Proof.
  intros Hrep S Ha Hp Hn Hk Hm Hu later Hrun.
  assert (S' : sound db') by (pose proof (trade_sound collate rep_config time_json fresh fresh_lazy fresh_alloc db_now now cmd db Hrep Ha S) as S'; by rewrite Hp in S').
  assert (B : blocked m db').
  { apply place_trade_Ok in Hp as [(txn & _ & _ & E)|(funds & pool & out & fee & legs & txn & led & X)]; [congruence| |done].
    destruct (executed_moves _ _ _ _ _ _ _ _ _ _ _ _ _ _ _ _ _ _ (so_wf _ S) Ha X) as (L & C & _ & _ & Em & _).
    split; [|exists r; by rewrite Em]. exists txn. rewrite <- Hk. eapply (executed_key rep_config); [apply S|exact Ha|exact X]. }
  destruct (blocked_run _ _ _ _ _ _ _ _ m _ _ Hrep S' B Hrun) as [[W _ Bk _] ([t Ht] & r' & Hr' & Hu')].
  split_and!; [eapply backed_positive; [done|by eapply Bk]|by exists r'|].
  intros actor ids dn n ov mk locked Hmk. unfold resolve_attempt. cbn [rs_market]. rewrite Ht. unfold replay_receipt.
  rewrite Hmk. cbn. destruct (market_for_update_row _ _ _ Hmk) as (row & Hrow & Hs & _). rewrite Hr' in Hrow.
  injection Hrow as <-. destruct Hu' as [U1 U2]. destruct (mk_state mk); cbn in Hs; try done.
Qed.

Lemma taken_payout_key_blocks_witness :
  resolve_attempt (H0 := canonical_order) 1 demo_rep demo_sweep (Ok tt) Machine JInt demo_resolve_ids 1000 1000
    (mkResolve 10 None) demo_key_db demo_key_db =
  Err (App.Store (Store.Invariant "resolve key exists but market is not settled")).
Proof.
  pose proof demo_key_ok as E. unfold demo_place in E.
  destruct (taken_payout_key_blocks (H0 := canonical_order) _ demo_rep demo_lp demo_config 1 demo_sweep (Ok tt) _
    _ _ _ _ _ demo_key_trade demo_key_receipt demo_market_db demo_key_db 10 _ demo_rep_typed demo_market_sound
    ltac:(apply (bool_decide_unpack _); vm_compute; exact I) E eq_refl eq_refl eq_refl ltac:(by split) demo_key_db (rtc_refl _ _))
    as (_ & _ & Hr).
  apply (Hr Machine demo_resolve_ids 1000 1000 None
    (mkMarketRow 10 Live 1 0 900 800 11 12 None None) demo_key_db). vm_compute. reflexivity.
Defined.

(** C24: a market moved to [Resolving] by hand is stranded.  The whitelist of
    [AdvanceMarket] admits [StartIntegritySweep] on a closed market; that
    leaves it in [Resolving] without an integrity deadline, curator flag or
    report.  From then on, whatever requests follow and whatever the scheduler
    writes for markets it finds due, its escrow stays positive: no attempt to
    resolve it, with or without a curator decision, ever writes, the
    due query never returns it, and the cascade would leave it as it is. *)
Theorem manual_sweep_strands `{UuidText} `{HashMapOrder} (collate : string -> string -> bool)
    (rep_config : RepConfig) (lp_config : LpKillConfig) (vote_config : VoteIntegrityConfig) (oi_floor : Z)
    (sweep_config : IntegritySweepConfig) (crash_point : outcome StoreError unit) (time_json : Z -> Value)
    (actor : AdminContext) (m : N) (key : string) (receipt : AdvanceReceipt) (db db' : Db) (r : MarketRecord) :
  rep_typed rep_config -> sound db ->
  advance_market actor (mkAdvance m StartIntegritySweep key) db = (Ok receipt, db') -> ar_replayed receipt = false ->
  bk_markets (td_book db) !! m = Some r -> ma_curator_flagged_at r = None -> ma_integrity_due_at r = None ->
  bk_reports (td_book db) !! m = None ->
  forall later,
    rtc (guarded collate rep_config lp_config vote_config oi_floor sweep_config crash_point time_json) db' later ->
    0 < escrow_of (fu_ledger (td_funds later)) m /\
    (forall actor' ids db_now now override pre answer d,
       resolve_attempt oi_floor rep_config sweep_config crash_point actor' time_json ids db_now now
         (mkResolve m override) pre later = Ok (Some (answer, d)) -> ro_replayed answer = true) /\
    (forall now limit due, due_markets (td_book later) now limit = Ok due -> m ∉ map dm_market due) /\
    (forall now mk, market_for_update (td_book later) m = Ok mk -> next_action now mk = Done).
Proof.
  intros Hrep S Ha Hn Hm Hf Hd Hp later Hrun.
  assert (S' : sound db') by (pose proof (advance_sound actor (mkAdvance m StartIntegritySweep key) db S) as S'; by rewrite Ha in S').
  assert (St : stranded m db').
  { pose proof (advance_not_replayed _ _ _ _ _ Ha Hn) as Hfresh.
    apply advance_market_Ok in Ha as [[_ [c Hc]]|(mk & to & Hmk & _ & Ht & _ & _ & F & _ & _ & Er & row & Hrow & Em)];
      [congruence|]. cbn in *. rewrite Hm in Hrow. injection Hrow as <-. split; [|by rewrite Er].
    eexists. split; [rewrite Em; apply lookup_insert_eq|]. cbn. split_and!; [|done|done].
    destruct (mk_state mk); try done. by injection Ht as <-. }
  destruct (guarded_run_stranded _ _ _ _ _ _ _ _ m _ _ Hrep S' St Hrun) as [[W _ B _] St'].
  pose proof St' as [(row & Hrow & Hs & _) _]. split_and!.
  - eapply backed_positive; [done|]. eapply B; [done|by apply resolving_unsettled].
  - intros a ids dn n ov pre answer d Hr. destruct (ro_replayed answer) eqn:Er; [done|]. exfalso.
    destruct (resolve_attempt_checked _ _ _ _ _ _ _ _ _ _ _ _ _ _ Hr Er) as (mk & Hmk & Hc & _). cbn in Hmk.
    by rewrite (stranded_review _ _ (mkResolve m ov) _ St' Hmk eq_refl) in Hc.
  - intros n limit due. by apply stranded_not_due.
  - intros n mk Hmk. by eapply stranded_action.
Qed.

Lemma manual_sweep_strands_witness :
  0 < escrow_of (fu_ledger (td_funds demo_manual_db)) 10 /\ due_markets (td_book demo_manual_db) 100000 256 = Ok [].
Proof.
  assert (E : advance_market Machine demo_manual demo_close_db =
    (Ok (mkAdvanceReceipt 10 Closed Resolving false), demo_manual_db)).
  { assert (Hr : (advance_market Machine demo_manual demo_close_db).1 = Ok (mkAdvanceReceipt 10 Closed Resolving false))
      by (vm_compute; reflexivity).
    unfold demo_manual_db. destruct (advance_market Machine demo_manual demo_close_db). cbn in Hr. by rewrite Hr. }
  destruct (manual_sweep_strands (H0 := canonical_order) (fun _ _ => true) demo_rep demo_lp demo_config 1 demo_sweep (Ok tt) JInt
    Machine 10 _ _ demo_close_db demo_manual_db _ demo_rep_typed demo_close_sound E eq_refl eq_refl eq_refl eq_refl eq_refl
    demo_manual_db (rtc_refl _ _)) as (Hpos & _). split; [exact Hpos|vm_compute; reflexivity].
Defined.
