(* ===== verification/Clock.v ===== *)
(** * Clock: the scheduler's cascade and its vote statistics

    Proofs about the loop of [advance_due.rs]: with untaken scheduler keys it
    ends within four rounds, because a market passes at most three boundaries,
    and it leaves the market in the state the clock calls for, however far the
    scheduler was behind; with a taken key it goes round until its counter
    overflows; and about the subnet statistic of [pg/integrity_tx.rs]. *)

From S2P Require Import Prelude Money Amm Ledger Market Resolution Economy Integrity Chars Errors Credits PgLedger Json Config Fences ConfigStore Compliance Collect Postings Book Vote Trade Referrals Resolve Settlement Lifecycle System.
#[local] Open Scope string_scope.
#[local] Open Scope list_scope.
#[local] Open Scope Z_scope.

(** ** Specification *)

Definition with_state (s : MarketState) (m : MarketRow) : MarketRow :=
  mkMarketRow (mk_id m) s (mk_min_votes m) (mk_opens_at m) (mk_closes_at m) (mk_tally_hidden_at m)
    (mk_yes_outcome m) (mk_no_outcome m) (mk_curator_flagged_at m) (mk_integrity_due_at m).

(** The state the clock calls for. *)
Definition after_freeze (now : Z) (m : MarketRow) : MarketState := if mk_closes_at m <=? now then Closed else Closing.
Definition after_open (now : Z) (m : MarketRow) : MarketState :=
  if mk_tally_hidden_at m <=? now then after_freeze now m else Live.

Definition due_state (now : Z) (m : MarketRow) : MarketState :=
  match mk_state m with
  | Scheduled => if mk_opens_at m <=? now then after_open now m else Scheduled
  | Live => after_open now m
  | Closing => after_freeze now m
  | s => s
  end.

(** How many boundaries are ahead of a state. *)
Definition boundaries (s : MarketState) : Z :=
  match s with Scheduled => 3 | Live => 2 | Closing => 1 | _ => 0 end.

(** The scheduler has not yet taken the market over the boundaries ahead. *)
Definition steps_left (s : MarketState) : list string :=
  match s with
  | Scheduled => ["open"; "freeze"; "close"]
  | Live => ["freeze"; "close"]
  | Closing => ["close"]
  | _ => []
  end.

Definition untaken `{UuidText} (b : Book) (market : N) (s : MarketState) : Prop :=
  Forall (fun name => bk_lifecycle b !! sched_key market name = None) (steps_left s).

(** ** Lemmas *)

Section Cascade.
Context `{UuidText} `{HashMapOrder}.
Context (oi_floor : Z) (rep_config : RepConfig) (sweep_config : IntegritySweepConfig)
  (crash_point : outcome StoreError unit) (time_json : Z -> Value) (db_now now : Z).

#[local] Notation cascade_loop := (cascade_loop oi_floor rep_config sweep_config crash_point time_json db_now now).
#[local] Notation resolve_closed := (resolve_closed oi_floor rep_config sweep_config crash_point time_json db_now now).
#[local] Notation sweep_resolving := (sweep_resolving oi_floor rep_config sweep_config crash_point time_json db_now now).

(** What the loop does with a market that has no boundary left behind. *)
Definition finish (ids : ResolveIds) (market : N) (n : Z) (m : MarketRow) (db : Db) : outcome AppError CascadeResult * Db :=
  match next_action now m with
  | ResolveNow => resolve_closed ids market n db
  | SweepNow => sweep_resolving ids market n db
  | _ => (Ok (mkCascade n 0 0 0 0 0), db)
  end.

Lemma sched_key_inj market a b : sched_key market a = sched_key market b -> a = b.
Proof. unfold sched_key. intros E. by do 3 apply str_app_inj_l in E. Qed.

Lemma state_saved b b' market row m s :
  market_for_update b market = Ok m -> bk_markets b !! market = Some row ->
  (forall i, outcome_of b' market i = outcome_of b market i) ->
  bk_markets b' !! market = Some (mkMarketRecord (market_state_name s) (ma_min_votes row) (ma_vote_seq row)
    (ma_opens_at row) (ma_closes_at row) (ma_tally_hidden_at row) (ma_curator_flagged_at row)
    (ma_integrity_due_at row) (ma_lp_pnl row) (ma_settled_at row) (ma_collateral_at_close row)) ->
  market_for_update b' market = Ok (with_state s m).
Proof.
  unfold market_for_update. intros Hm Hr Ho Hr'. rewrite Hr in Hm. rewrite Hr', !Ho.
  destruct (outcome_of b market 0); [|done]. destruct (outcome_of b market 1); [|done]. unfold market_from_row in *. cbn.
  apply bind_Ok in Hm as (c & Hc%ok_or_Ok & Hm). apply bind_Ok in Hm as (h & Hh%ok_or_Ok & Hm).
  apply bind_Ok in Hm as (s0 & _ & Hm). apply bind_Ok in Hm as (o & Hop%ok_or_Ok & [= <-]).
  by rewrite Hc, Hh, Hop, market_state_name_Ok.
Qed.

(** An untaken boundary that the clock has passed is taken. *)
Lemma advance_taken market m e to key db :
  market_for_update (td_book db) market = Ok m -> non_financial e = true -> transition (mk_state m) e = Ok to ->
  bk_lifecycle (td_book db) !! key = None ->
  exists r db', advance_market Machine (mkAdvance market e key) db = (Ok r, db') /\
    market_for_update (td_book db') market = Ok (with_state to m) /\ td_funds db' = td_funds db /\
    bk_lifecycle (td_book db') = <[key := mkLifecycle market e to]> (bk_lifecycle (td_book db)).
Proof.
  intros Hm Hn Ht Hk. destruct (advance_market Machine (mkAdvance market e key) db) as [[r|e'|] db'] eqn:E.
  { exists r, db'. split; [done|]. apply advance_market_Ok in E as [[_ [c Hc]]|X]; [cbn in Hc; congruence|].
    destruct X as (m' & to' & Hm' & _ & Ht' & _ & _ & F & Ef & El & _ & row & Hrow & Em). cbn in *.
    rewrite Hm in Hm'. injection Hm' as <-. rewrite Ht in Ht'. injection Ht' as <-. split_and!; [|done|done].
    eapply state_saved; [done..| |]; [intros i; apply (framed_outcome_of _ _ _ _ F)|]. rewrite Em. apply lookup_insert_eq. }
  all: exfalso; revert E; unfold advance_market, lifecycle_command; cbn [ad_event ad_key ad_market].
  all: rewrite Hn, Hk, Hm; cbn; rewrite Ht; cbn; destruct (market_for_update_row _ _ _ Hm) as (row & Hrow & _).
  all: unfold set_market_state, update_market; rewrite Hrow; cbn; unfold record_lifecycle_command; cbn; by rewrite Hk.
Qed.

Lemma loop_steps fuel ids market n m e name to db :
  0 <= n < 4294967295 -> market_for_update (td_book db) market = Ok m -> next_action now m = Step e name ->
  non_financial e = true -> transition (mk_state m) e = Ok to ->
  bk_lifecycle (td_book db) !! sched_key market name = None ->
  exists db', cascade_loop (S fuel) ids market n db = cascade_loop fuel ids market (n + 1) db' /\
    market_for_update (td_book db') market = Ok (with_state to m) /\ td_funds db' = td_funds db /\
    forall other, other <> name -> bk_lifecycle (td_book db') !! sched_key market other =
      bk_lifecycle (td_book db) !! sched_key market other.
Proof.
  intros Hb Hm Ha Hn Ht Hk. destruct (advance_taken _ _ _ _ _ _ Hm Hn Ht Hk) as (r & db' & E & Hm' & Hf & Hl).
  exists db'. split_and!; [|done|done|].
  - cbn [Lifecycle.cascade_loop]. rewrite Hm. cbn [store map_err]. rewrite Ha, E. by rewrite arith_in by ty.
  - intros other Ho. rewrite Hl, lookup_insert_ne; [done|]. intros E'. by apply sched_key_inj in E'.
Qed.

Lemma loop_finishes fuel ids market n m db :
  market_for_update (td_book db) market = Ok m -> (forall e name, next_action now m <> Step e name) ->
  cascade_loop (S fuel) ids market n db = Some (finish ids market n m db).
Proof.
  intros Hm Hs. cbn [Lifecycle.cascade_loop]. rewrite Hm. cbn [store map_err]. unfold finish.
  destruct (next_action now m) as [e name| | |]; [by destruct (Hs e name)|done..].
Qed.

(** A recorded command is read back and replayed, and nothing is written. *)
Lemma advance_replays market e key c db :
  non_financial e = true -> bk_lifecycle (td_book db) !! key = Some c ->
  exists r, advance_market Machine (mkAdvance market e key) db = (Ok r, db).
Proof.
  intros Hn Hk. unfold advance_market, lifecycle_command. cbn [ad_event ad_key]. rewrite Hn, Hk. cbn [negb].
  assert (Hp : parse_event (event_name (lc_event c)) = Ok (lc_event c)) by by destruct (lc_event c).
  rewrite Hp. cbn [mbind outcome_bind]. rewrite market_state_name_Ok. by eexists.
Qed.

Lemma step_non_financial m e name : next_action now m = Step e name -> non_financial e = true.
Proof. unfold next_action. repeat case_match; intros [= <- _]; done. Qed.

(** At a boundary whose key is taken every round of the loop is the same: it
    does not end before its counter overflows. *)
Lemma loop_spins fuel ids market n m e name db :
  0 <= n <= 4294967295 -> market_for_update (td_book db) market = Ok m -> next_action now m = Step e name ->
  is_Some (bk_lifecycle (td_book db) !! sched_key market name) ->
  cascade_loop fuel ids market n db = if n + Z.of_nat fuel <=? 4294967295 then None else Some (Panic, db).
Proof.
  intros Hn Hm Ha [c Hc]. destruct (advance_replays market e _ c db (step_non_financial _ _ _ Ha) Hc) as [r E].
  revert n Hn. induction fuel as [|fuel IH]; intros n Hn.
  - by rewrite (proj2 (Z.leb_le _ _)) by lia.
  - cbn [Lifecycle.cascade_loop]. rewrite Hm. cbn [store map_err]. rewrite Ha, E.
    destruct (decide (n = 4294967295)) as [->|Hne].
    + change (arith (E := AppError) U32 (4294967295 + 1)) with (Panic : outcome AppError Z). by rewrite (proj2 (Z.leb_gt _ _)) by lia.
    + rewrite arith_in, IH by (ty || lia). by replace (n + 1 + Z.of_nat fuel) with (n + Z.of_nat (S fuel)) by lia.
Qed.

(** The loop from each state on, with one unit of fuel per boundary to spare. *)
Definition caught_up (fuel : nat) (ids : ResolveIds) (market : N) (n : Z) (m : MarketRow) (db : Db) : Prop :=
  exists db', market_for_update (td_book db') market = Ok (with_state (due_state now m) m) /\ td_funds db' = td_funds db /\
    cascade_loop fuel ids market n db =
      Some (finish ids market (n + boundaries (mk_state m) - boundaries (due_state now m)) (with_state (due_state now m) m) db').

Lemma with_same m : with_state (mk_state m) m = m.
Proof. by destruct m. Qed.

Lemma caught_up_here fuel ids market n m db :
  market_for_update (td_book db) market = Ok m -> due_state now m = mk_state m ->
  (forall e name, next_action now m <> Step e name) -> caught_up (S fuel) ids market n m db.
Proof.
  intros Hm Hd Hs. exists db. rewrite Hd, with_same, (loop_finishes _ _ _ _ _ _ Hm Hs). split_and!; [done..|].
  do 2 f_equal. lia.
Qed.

Lemma caught_up_step fuel ids market n m e name to db :
  0 <= n < 4294967295 -> market_for_update (td_book db) market = Ok m -> next_action now m = Step e name ->
  non_financial e = true -> transition (mk_state m) e = Ok to ->
  bk_lifecycle (td_book db) !! sched_key market name = None ->
  due_state now m = due_state now (with_state to m) -> boundaries (mk_state m) = boundaries to + 1 ->
  (forall db', (forall other, other <> name -> bk_lifecycle (td_book db') !! sched_key market other =
      bk_lifecycle (td_book db) !! sched_key market other) ->
    market_for_update (td_book db') market = Ok (with_state to m) -> caught_up fuel ids market (n + 1) (with_state to m) db') ->
  caught_up (S fuel) ids market n m db.
Proof.
  intros Hb Hm Ha Hn Ht Hk Hd Hbd Hrec. destruct (loop_steps fuel ids market n m e name to db) as (d1 & E & Hm1 & Hf1 & Hl1); try done.
  destruct (Hrec d1 Hl1 Hm1) as (d2 & Hm2 & Hf2 & E2). exists d2. rewrite E, E2, Hd. split_and!; [done|congruence|].
  cbn [mk_state with_state]. do 2 f_equal. lia.
Qed.

Ltac not_behind := intros ? ?; unfold next_action; cbn; repeat case_match; done.

Lemma caught_up_closing fuel ids market n m db :
  mk_state m = Closing -> 0 <= n <= 2 -> market_for_update (td_book db) market = Ok m -> untaken (td_book db) market Closing ->
  caught_up (S (S fuel)) ids market n m db.
Proof.
  intros Es Hn Hm [Hc _]%Forall_cons. destruct (mk_closes_at m <=? now) eqn:C.
  - apply (caught_up_step _ _ _ _ _ Close "close" Closed); try done.
    + lia.
    + unfold next_action. by rewrite Es, C.
    + by rewrite Es.
    + unfold due_state. rewrite Es. cbn. unfold after_freeze. by rewrite C.
    + by rewrite Es.
    + intros d _ Hd. by apply caught_up_here; [|done|not_behind].
  - apply caught_up_here; [done| |].
    + unfold due_state. rewrite Es. unfold after_freeze. by rewrite C.
    + intros e name. unfold next_action. by rewrite Es, C.
Qed.

Lemma caught_up_live fuel ids market n m db :
  mk_state m = Live -> 0 <= n <= 1 -> market_for_update (td_book db) market = Ok m -> untaken (td_book db) market Live ->
  caught_up (S (S (S fuel))) ids market n m db.
Proof.
  intros Es Hn Hm [Hf [Hc _]%Forall_cons]%Forall_cons. destruct (mk_tally_hidden_at m <=? now) eqn:C.
  - apply (caught_up_step _ _ _ _ _ EnterCloseWindow "freeze" Closing); try done.
    + lia.
    + unfold next_action. by rewrite Es, C.
    + by rewrite Es.
    + unfold due_state. rewrite Es. cbn. unfold after_open. by rewrite C.
    + by rewrite Es.
    + intros d Hl Hd. apply caught_up_closing; [done|lia|done|]. constructor; [|done]. by rewrite Hl.
  - apply caught_up_here; [done| |].
    + unfold due_state. rewrite Es. unfold after_open. by rewrite C.
    + intros e name. unfold next_action. by rewrite Es, C.
Qed.

Lemma caught_up_all ids market m db :
  market_for_update (td_book db) market = Ok m -> untaken (td_book db) market (mk_state m) -> caught_up 4 ids market 0 m db.
Proof.
  intros Hm Hu. destruct (mk_state m) eqn:Es; try (apply caught_up_here; [done|unfold due_state; by rewrite Es|];
    intros e name; unfold next_action; rewrite Es; by repeat case_match).
  - destruct (mk_opens_at m <=? now) eqn:C.
    + apply (caught_up_step _ _ _ _ _ GoLive "open" Live); try done.
      * unfold next_action. by rewrite Es, C.
      * by rewrite Es.
      * by apply Forall_cons in Hu as [? _].
      * unfold due_state. rewrite Es. cbn. by rewrite C.
      * by rewrite Es.
      * intros d Hl Hd. apply caught_up_live; [done|lia|done|]. apply Forall_cons in Hu as [_ Hu].
        repeat constructor; rewrite Hl by done; by repeat (apply Forall_cons in Hu as [? Hu]).
    + apply caught_up_here; [done|unfold due_state; by rewrite Es, C|]. intros e name. unfold next_action. by rewrite Es, C.
  - by apply caught_up_live; [|lia|..].
  - by apply caught_up_closing; [|lia|..].
Qed.
End Cascade.

(** ** Lemmas: grouping *)

Lemma subnet_prefix_inj a b : subnet_prefix a = subnet_prefix b -> a = b.
Proof. destruct a, b; cbn; by intros [= ->]. Qed.

Lemma filter_map_length {A B} (f : A -> B) (P : B -> bool) l :
  zlen (List.filter P (map f l)) = zlen (List.filter (fun x => P (f x)) l).
Proof.
  unfold zlen. f_equal. induction l as [|x l IH]; cbn; [done|]. destruct (P (f x)); cbn; by rewrite IH.
Qed.

Lemma top_count_map {A B} `{EqDecision A} `{EqDecision B} (f : A -> B) l :
  (forall x y, f x = f y -> x = y) -> top_count (map f l) = top_count l.
Proof.
  intros Hf. unfold top_count. do 2 f_equal. rewrite map_map. apply map_ext. intros k. rewrite filter_map_length. f_equal.
  apply filter_ext. intros x. apply bool_decide_ext. split; [apply Hf|by intros ->].
Qed.

Lemma max_list_le l z : (forall x, x ∈ l -> x <= z) -> 0 <= z -> default 0 (max_list l) <= z.
Proof.
  destruct l as [|x l]; [done|]. intros Hl _. cbn. assert (Hx : x <= z) by (apply Hl; left).
  assert (Hr : forall y, y ∈ l -> y <= z) by (intros y Hy; apply Hl; by right). clear Hl. revert x Hx.
  induction l as [|y l IH]; intros x Hx; [done|]. cbn. apply IH; [|].
  - intros w Hw. apply Hr. by right.
  - pose proof (Hr y ltac:(left)). lia.
Qed.

Lemma top_count_distinct {A} `{EqDecision A} (l : list A) : NoDup l -> top_count l <= 1.
Proof.
  intros Hn. apply max_list_le; [|lia]. intros x (k & -> & _)%list_elem_of_fmap.
  assert (Hk : forall l', NoDup l' -> zlen (List.filter (fun x => bool_decide (x = k)) l') <= 1); [|by apply Hk].
  clear l Hn. intros l Hl. induction Hl as [|y l Hy Hl IH]; [by unfold zlen; cbn|]. cbn. case_bool_decide; [|done].
  subst y. rewrite (filter_none (fun x => bool_decide (x = k)) l); [by unfold zlen; cbn|]. intros y Hin.
  apply bool_decide_eq_false. by intros ->.
Qed.

(** ** Properties *)

(** C25: the scheduler catches up, unless a boundary key is taken.  Take a
    readable market row that is behind any number of boundaries.  If the
    scheduler keys of the boundaries ahead of it are untaken, the cascade ends
    within four rounds of the loop; it takes the market over exactly the
    boundaries the clock has passed, one transaction each and without touching
    money, to the state the clock calls for; then it resolves a closed market,
    sweeps a held one whose deadline has passed, and otherwise stops.  If the key
    of the boundary the market is to pass is taken, every round replays the
    recorded command: nothing is written, and the loop goes on until its 32-bit
    counter overflows, whatever the bound on its rounds. *)
Theorem cascade_catches_up `{UuidText} `{HashMapOrder} (oi_floor : Z) (rep_config : RepConfig)
    (sweep_config : IntegritySweepConfig) (crash_point : outcome StoreError unit) (time_json : Z -> Value)
    (db_now now : Z) (ids : ResolveIds) (market : N) (m : MarketRow) (db : Db) :
  market_for_update (td_book db) market = Ok m ->
  (untaken (td_book db) market (mk_state m) ->
   exists db', market_for_update (td_book db') market = Ok (with_state (due_state now m) m) /\
     td_funds db' = td_funds db /\
     cascade oi_floor rep_config sweep_config crash_point time_json db_now now ids market db =
       Some (finish oi_floor rep_config sweep_config crash_point time_json db_now now ids market
               (boundaries (mk_state m) - boundaries (due_state now m)) (with_state (due_state now m) m) db')) /\
  (forall e name, next_action now m = Step e name ->
     is_Some (bk_lifecycle (td_book db) !! sched_key market name) ->
     forall rounds, cascade_loop oi_floor rep_config sweep_config crash_point time_json db_now now rounds ids market 0 db =
       if Z.of_nat rounds <=? 4294967295 then None else Some (Panic, db)).
Proof.
  intros Hm. split; [by apply caught_up_all|]. intros e name Ha Hk rounds. by eapply loop_spins.
Qed.

Definition demo_scheduled : MarketRow := mkMarketRow 10 Scheduled 1 0 900 800 11 12 None None.

(** The same market when its opening was recorded under the scheduler's key. *)
Definition demo_spinning_db : Db :=
  set_book (set_lifecycle {[ sched_key 10 "open" := mkLifecycle 10 GoLive Live ]} (td_book demo_seeded_db)) demo_seeded_db.

Lemma cascade_catches_up_witness :
  (exists db', market_for_update (td_book db') 10 = Ok (with_state Closing demo_scheduled) /\
     cascade (H0 := canonical_order) 1 demo_rep demo_sweep (Ok tt) JInt 850 850 demo_resolve_ids 10 demo_seeded_db =
       Some (Ok (mkCascade 2 0 0 0 0 0), db')) /\
  cascade_loop (H0 := canonical_order) 1 demo_rep demo_sweep (Ok tt) JInt 850 850 1000 demo_resolve_ids 10 0 demo_spinning_db = None.
Proof.
  split.
  - destruct (cascade_catches_up (H0 := canonical_order) 1 demo_rep demo_sweep (Ok tt) JInt 850 850 demo_resolve_ids 10
      demo_scheduled demo_seeded_db) as [Hc _]; [vm_compute; reflexivity|].
    destruct Hc as (db' & Hm & _ & Hc); [apply (bool_decide_unpack _); vm_compute; exact I|].
    exists db'. split; [exact Hm|exact Hc].
  - destruct (cascade_catches_up (H0 := canonical_order) 1 demo_rep demo_sweep (Ok tt) JInt 850 850 demo_resolve_ids 10
      demo_scheduled demo_spinning_db) as [_ Hc]; [vm_compute; reflexivity|].
    rewrite (Hc GoLive "open" eq_refl); [reflexivity|]. by eexists.
Defined.

(** The subnet statistic counts single addresses.  The query groups by
    [set_masklen] of the stored [inet], which sets the netmask length and keeps
    the address: the largest group is that of one address, not of one /24 or
    /64.  However many votes come from one subnet, if their addresses
    differ the largest count is one. *)
Theorem subnet_statistic_counts_addresses (config : IntegritySweepConfig) (b : Book) (market : N) (s : VoteStats) :
  vote_stats config b market = Ok s ->
  let ips := omap (fun va : VoteRow * Z => vo_cast_ip va.1)
               (if bool_decide (is_Some (bk_markets b !! market)) then vote_base b market else []) in
  top_subnet_count s = top_count ips /\ (NoDup ips -> top_subnet_count s <= 1).
Proof.
  intros Hr ips. assert (E : top_subnet_count s = top_count ips).
  { unfold vote_stats in Hr. do 8 (apply bind_Ok in Hr as (? & _ & Hr)).
    apply bind_Ok in Hr as (top & [-> _]%ok_or_Ok%checked_Some & Hr). do 2 (apply bind_Ok in Hr as (? & _ & Hr)).
    injection Hr as <-. by apply top_count_map, subnet_prefix_inj. }
  split; [done|]. rewrite E. apply top_count_distinct.
Qed.

(** Forty voters of 192.0.2.0/24. *)
Definition demo_ring_book : Book :=
  set_votes (map (fun i => mkVote (N.of_nat i) 7 10 11 50 (Z.of_nat i) "" 10 (Some (V4 (3221225984 + N.of_nat i))) None) (seq 1 40))
    (td_book demo_market_db).

Lemma subnet_statistic_counts_addresses_witness :
  exists s, vote_stats demo_sweep demo_ring_book 10 = Ok s /\ subnet_observed s = 40 /\ top_subnet_count s <= 1.
Proof.
  destruct (vote_stats demo_sweep demo_ring_book 10) as [s| |] eqn:E; [|vm_compute in E; discriminate..].
  exists s. split; [reflexivity|]. split.
  - vm_compute in E. injection E as <-. reflexivity.
  - apply (subnet_statistic_counts_addresses _ _ _ _ E). apply (bool_decide_unpack _). vm_compute. exact I.
Defined.
