(* ===== verification/Outbound.v ===== *)
(** * Outbound: payments to the chain, their attempts and the withdrawal states

    The vocabulary of [application/src/money/types.rs] (the combination of the
    three persisted dimensions of a withdrawal, the receipt check, the
    non-landing predicate and the base-58 address decoder), the payment and
    attempt tables of [adapters/src/pg/outbound_tx.rs] with the unique indexes
    of [migrations/0011_money.sql], the helpers of [money/outbound.rs], and the
    in-process rail of [adapters/src/rails/solana.rs].  A column that a [check]
    restricts to the names of an enum holds the enum here, and a read goes
    through its name and the parser of the source. *)

From S2P Require Import Prelude Amm Ledger Resolution Economy Chars Errors Credits PgLedger Json Config Fences ConfigStore Compliance.
#[local] Open Scope string_scope.
#[local] Open Scope list_scope.
#[local] Open Scope Z_scope.

(** ** The three dimensions of a withdrawal *)

Module WStatus.
Inductive WithdrawalStatus := Queued | RiskHold | Sent | Settled | Denied | Failed.
End WStatus.
Notation WithdrawalStatus := WStatus.WithdrawalStatus.

Module WReview.
Inductive WithdrawalReviewState := Screening | ReviewRequired | ApprovalProposed | Approved.
End WReview.
Notation WithdrawalReviewState := WReview.WithdrawalReviewState.

Module WSend.
Inductive WithdrawalSendState := Unsent | Sending | Broadcast | Finalized | DefinitiveFailed | Unknown.
End WSend.
Notation WithdrawalSendState := WSend.WithdrawalSendState.

#[export] Instance WithdrawalStatus_eq_dec : EqDecision WithdrawalStatus.
Proof. solve_decision. Defined.
#[export] Instance WithdrawalReviewState_eq_dec : EqDecision WithdrawalReviewState.
Proof. solve_decision. Defined.
#[export] Instance WithdrawalSendState_eq_dec : EqDecision WithdrawalSendState.
Proof. solve_decision. Defined.

Record Combo := mkCombo {
  cb_status : WithdrawalStatus; cb_review : WithdrawalReviewState; cb_send : WithdrawalSendState }.

#[export] Instance Combo_eq_dec : EqDecision Combo.
Proof. solve_decision. Defined.

Definition W1 : Combo := mkCombo WStatus.Queued WReview.Screening WSend.Unsent.
Definition W2 : Combo := mkCombo WStatus.Queued WReview.Approved WSend.Unsent.
Definition W3 : Combo := mkCombo WStatus.Queued WReview.Approved WSend.Sending.
Definition W4 : Combo := mkCombo WStatus.RiskHold WReview.ReviewRequired WSend.Unsent.
Definition W5 : Combo := mkCombo WStatus.RiskHold WReview.ApprovalProposed WSend.Unsent.
Definition W6 : Combo := mkCombo WStatus.Sent WReview.Approved WSend.Broadcast.
Definition W7 : Combo := mkCombo WStatus.Sent WReview.Approved WSend.Unknown.
Definition W8 : Combo := mkCombo WStatus.Sent WReview.Approved WSend.Sending.
Definition W9 : Combo := mkCombo WStatus.Sent WReview.Approved WSend.Finalized.
Definition W10 : Combo := mkCombo WStatus.Settled WReview.Approved WSend.Finalized.
Definition W11 : Combo := mkCombo WStatus.Denied WReview.Screening WSend.Unsent.
Definition W12 : Combo := mkCombo WStatus.Denied WReview.ReviewRequired WSend.Unsent.
Definition W13 : Combo := mkCombo WStatus.Denied WReview.ApprovalProposed WSend.Unsent.
Definition W14 : Combo := mkCombo WStatus.Denied WReview.Approved WSend.Unsent.
Definition W15 : Combo := mkCombo WStatus.Failed WReview.Approved WSend.DefinitiveFailed.

(** [Combo::label]. *)
Definition combo_label (c : Combo) : option string :=
  match cb_status c, cb_review c, cb_send c with
  | WStatus.Queued, WReview.Screening, WSend.Unsent => Some "W1"
  | WStatus.Queued, WReview.Approved, WSend.Unsent => Some "W2"
  | WStatus.Queued, WReview.Approved, WSend.Sending => Some "W3"
  | WStatus.RiskHold, WReview.ReviewRequired, WSend.Unsent => Some "W4"
  | WStatus.RiskHold, WReview.ApprovalProposed, WSend.Unsent => Some "W5"
  | WStatus.Sent, WReview.Approved, WSend.Broadcast => Some "W6"
  | WStatus.Sent, WReview.Approved, WSend.Unknown => Some "W7"
  | WStatus.Sent, WReview.Approved, WSend.Sending => Some "W8"
  | WStatus.Sent, WReview.Approved, WSend.Finalized => Some "W9"
  | WStatus.Settled, WReview.Approved, WSend.Finalized => Some "W10"
  | WStatus.Denied, WReview.Screening, WSend.Unsent => Some "W11"
  | WStatus.Denied, WReview.ReviewRequired, WSend.Unsent => Some "W12"
  | WStatus.Denied, WReview.ApprovalProposed, WSend.Unsent => Some "W13"
  | WStatus.Denied, WReview.Approved, WSend.Unsent => Some "W14"
  | WStatus.Failed, WReview.Approved, WSend.DefinitiveFailed => Some "W15"
  | _, _, _ => None
  end.

Definition is_legal (c : Combo) : bool := bool_decide (is_Some (combo_label c)).

Definition deny_target (c : Combo) : option Combo :=
  match cb_status c, cb_review c, cb_send c with
  | WStatus.Queued, WReview.Screening, WSend.Unsent => Some W11
  | WStatus.Queued, WReview.Approved, WSend.Unsent => Some W14
  | WStatus.RiskHold, WReview.ReviewRequired, WSend.Unsent => Some W12
  | WStatus.RiskHold, WReview.ApprovalProposed, WSend.Unsent => Some W13
  | _, _, _ => None
  end.

Definition has_active_hold (c : Combo) : bool :=
  match cb_status c with
  | WStatus.Denied | WStatus.Failed | WStatus.Settled => false
  | _ => true
  end.

(** The names of the columns and their parsers, [withdraw_tx.rs]. *)
Definition w_status_name (s : WithdrawalStatus) : string :=
  match s with
  | WStatus.Queued => "queued" | WStatus.RiskHold => "risk_hold" | WStatus.Sent => "sent"
  | WStatus.Settled => "settled" | WStatus.Denied => "denied" | WStatus.Failed => "failed"
  end.

Definition review_name (s : WithdrawalReviewState) : string :=
  match s with
  | WReview.Screening => "screening" | WReview.ReviewRequired => "review_required"
  | WReview.ApprovalProposed => "approval_proposed" | WReview.Approved => "approved"
  end.

Definition send_name (s : WithdrawalSendState) : string :=
  match s with
  | WSend.Unsent => "unsent" | WSend.Sending => "sending" | WSend.Broadcast => "broadcast"
  | WSend.Finalized => "finalized" | WSend.DefinitiveFailed => "definitive_failed"
  | WSend.Unknown => "unknown"
  end.

Definition parse_w_status (value : string) : outcome StoreError WithdrawalStatus :=
  if bool_decide (value = "queued") then Ok WStatus.Queued
  else if bool_decide (value = "risk_hold") then Ok WStatus.RiskHold
  else if bool_decide (value = "sent") then Ok WStatus.Sent
  else if bool_decide (value = "settled") then Ok WStatus.Settled
  else if bool_decide (value = "denied") then Ok WStatus.Denied
  else if bool_decide (value = "failed") then Ok WStatus.Failed
  else Err (Store.Invariant "unknown withdrawal status").

Definition parse_review (value : string) : outcome StoreError WithdrawalReviewState :=
  if bool_decide (value = "screening") then Ok WReview.Screening
  else if bool_decide (value = "review_required") then Ok WReview.ReviewRequired
  else if bool_decide (value = "approval_proposed") then Ok WReview.ApprovalProposed
  else if bool_decide (value = "approved") then Ok WReview.Approved
  else Err (Store.Invariant "unknown withdrawal review state").

Definition parse_send (value : string) : outcome StoreError WithdrawalSendState :=
  if bool_decide (value = "unsent") then Ok WSend.Unsent
  else if bool_decide (value = "sending") then Ok WSend.Sending
  else if bool_decide (value = "broadcast") then Ok WSend.Broadcast
  else if bool_decide (value = "finalized") then Ok WSend.Finalized
  else if bool_decide (value = "definitive_failed") then Ok WSend.DefinitiveFailed
  else if bool_decide (value = "unknown") then Ok WSend.Unknown
  else Err (Store.Invariant "unknown withdrawal send state").

Definition checked_combo (status review send : string) : outcome StoreError Combo :=
  s ← parse_w_status status; r ← parse_review review; d ← parse_send send;
  let combo := mkCombo s r d in
  if negb (is_legal combo) then Err (Store.Invariant "illegal withdrawal combination") else Ok combo.

Definition parse_combo (label : string) : outcome StoreError Combo :=
  match List.find (fun kv => bool_decide (kv.1 = label))
    [("W1", W1); ("W2", W2); ("W3", W3); ("W4", W4); ("W5", W5); ("W6", W6); ("W7", W7); ("W8", W8);
     ("W9", W9); ("W10", W10); ("W11", W11); ("W12", W12); ("W13", W13); ("W14", W14); ("W15", W15)] with
  | Some kv => Ok kv.2
  | None => Err (Store.Invariant "unknown withdrawal combination")
  end.

(** [counts_in_daily_window]. *)
Definition counts_in_daily_window (c : Combo) : bool :=
  negb (bool_decide (cb_status c = WStatus.Denied)) && negb (bool_decide (c = W15)).

(** ** Addresses *)

Definition ALPHABET : str := lit "123456789ABCDEFGHJKLMNPQRSTUVWXYZabcdefghijkmnopqrstuvwxyz".

(** [iter().position(..)], from index [i]. *)
Fixpoint position_from (p : Z -> bool) (i : Z) (l : list Z) : option Z :=
  match l with
  | [] => None
  | x :: l => if p x then Some i else position_from p (i + 1) l
  end.

(** One pass over [acc.iter_mut().rev()]; [acc] is kept least significant byte
    first. *)
Fixpoint mul_slots (slots : list Z) (carry : Z) : list Z * Z :=
  match slots with
  | [] => ([], carry)
  | slot :: slots =>
      let carry := carry + slot * 58 in
      let '(rest, c) := mul_slots slots (carry / 256) in
      (carry mod 256 :: rest, c)
  end.

(** [while carry > 0 { acc.insert(0, ..) }]; a [usize] has eight bytes. *)
Fixpoint carry_bytes (fuel : nat) (carry : Z) : list Z :=
  match fuel with
  | O => []
  | S fuel => if carry >? 0 then carry mod 256 :: carry_bytes fuel (carry / 256) else []
  end.

Definition base58_step (acc : list Z) (byte : Z) : option (list Z) :=
  value ← position_from (fun item => item =? byte) 0 ALPHABET;
  let '(slots, carry) := mul_slots acc value in
  Some (slots ++ carry_bytes 8 carry).

Fixpoint base58_loop (acc : list Z) (input : str) : option (list Z) :=
  match input with
  | [] => Some acc
  | byte :: input => acc ← base58_step acc byte; base58_loop acc input
  end.

(** The leading elements that satisfy [p], and the rest. *)
Fixpoint take_while (p : Z -> bool) (l : list Z) : list Z :=
  match l with
  | [] => []
  | x :: l => if p x then x :: take_while p l else []
  end.

Fixpoint skip_while (p : Z -> bool) (l : list Z) : list Z :=
  match l with
  | [] => []
  | x :: l' => if p x then skip_while p l' else l
  end.

Definition decode_base58 (input : str) : option (list Z) :=
  if is_empty input then None else
  acc ← base58_loop [0] input;
  let zeros := length (take_while (fun byte => byte =? 49) input) in
  Some (repeat 0 zeros ++ skip_while (fun byte => byte =? 0) (rev acc)).

(** The input is read by characters: one outside ASCII is outside the alphabet,
    as each of its bytes is. *)
Definition canonicalize_dest (raw : string) : option string :=
  let trimmed := trim (utf8_chars (lit raw)) in
  bytes ← decode_base58 trimmed;
  if (length bytes =? 32)%nat then Some (text_of trimmed) else None.

(** ** The rail *)

Record RailIdentity := mkRail {
  genesis_hash : string; rpc_endpoints : list string; usdc_mint : string; decimals : Z;
  treasury_owner : string; treasury_token_account : string; commitment : string }.

Definition empty_text (s : string) : bool := bool_decide (s = "").

(** [sort] then [dedup] leaves one of each. *)
Definition rail_validate (r : RailIdentity) : outcome string unit :=
  if empty_text (genesis_hash r) then Err "genesis hash is required"
  else if negb (length (rpc_endpoints r) =? 3)%nat
  then Err "need exactly three RPC endpoints for the 2-of-3 quorum"
  else if existsb empty_text (rpc_endpoints r) then Err "rpc endpoint must be non-empty"
  else if negb (length (remove_dups (rpc_endpoints r)) =? 3)%nat
  then Err "rpc endpoints must be distinct for an independent quorum"
  else if empty_text (usdc_mint r) then Err "usdc mint is required"
  else if negb (decimals r =? 6) then Err "usdc decimals must be 6"
  else if empty_text (treasury_owner r) || empty_text (treasury_token_account r)
  then Err "treasury owner and token account are required"
  else if negb (bool_decide (commitment r = "finalized")) then Err "commitment must be finalized"
  else Ok tt.

Fixpoint join_text (sep : string) (l : list string) : string :=
  match l with
  | [] => ""
  | [x] => x
  | x :: l => x +:+ sep +:+ join_text sep l
  end.

Definition rail_fingerprint (r : RailIdentity) : string :=
  genesis_hash r +:+ "|" +:+ usdc_mint r +:+ "|" +:+ text_of (show_u64 (decimals r)) +:+ "|" +:+
  treasury_owner r +:+ "|" +:+ treasury_token_account r +:+ "|" +:+ commitment r +:+ "|" +:+
  join_text "," (sort_by str_le (rpc_endpoints r)) +:+ "|depth=finalized-roots".

(** [SolanaRails]: the signed bytes it holds for each payment. *)
Definition Rail := gmap N (list Z * string).

Definition persist_signed (payment : N) (bytes : list Z) (signature : string) (rail : Rail) :
    outcome StoreError Rail :=
  match rail !! payment with
  | Some (existing_bytes, existing_signature) =>
      if negb (bool_decide (existing_bytes = bytes)) || negb (bool_decide (existing_signature = signature))
      then Err (Store.Conflict "persisted signed bytes changed")
      else Ok rail
  | None => Ok (<[payment := (bytes, signature)]> rail)
  end.

(** [rpc] is the answer of the first endpoint to [sendTransaction]. *)
Definition broadcast (r : RailIdentity) (rpc : list Z -> outcome StoreError Value) (payment : N)
    (rail : Rail) : outcome StoreError unit :=
  match rail !! payment with
  | None => Err (Store.NotFound "persisted signed bytes")
  | Some (bytes, signature) =>
      match rpc_endpoints r with
      | [] => Err (Store.Invariant "rail identity has no rpc")
      | _ :: _ =>
          returned ← rpc bytes;
          if bool_decide (as_str_opt returned = Some signature) then Ok tt
          else Err (Store.Invariant "sendTransaction returned a different signature")
      end
  end.

(** ** Payments and attempts *)

Inductive OutboundSubject := WithdrawalSubject | DepositRefund.

#[export] Instance OutboundSubject_eq_dec : EqDecision OutboundSubject.
Proof. solve_decision. Defined.

Definition subject_name (s : OutboundSubject) : string :=
  match s with WithdrawalSubject => "withdrawal" | DepositRefund => "deposit_refund" end.

Definition parse_subject (value : string) : outcome StoreError OutboundSubject :=
  if bool_decide (value = "withdrawal") then Ok WithdrawalSubject
  else if bool_decide (value = "deposit_refund") then Ok DepositRefund
  else Err (Store.Invariant "unknown outbound subject").

Record OutboundPaymentRow := mkPayment {
  op_id : N; op_subject : OutboundSubject; op_subject_id : N; op_dest : string;
  op_amount_micro : Z; op_rail_fingerprint : string }.

Module Landing.
Inductive LandingState := Prepared | Broadcast | Unknown | Finalized | DefinitiveFailed.
End Landing.
Notation LandingState := Landing.LandingState.

#[export] Instance LandingState_eq_dec : EqDecision LandingState.
Proof. solve_decision. Defined.

Definition landing_name (s : LandingState) : string :=
  match s with
  | Landing.Prepared => "prepared" | Landing.Broadcast => "broadcast" | Landing.Unknown => "unknown"
  | Landing.Finalized => "finalized" | Landing.DefinitiveFailed => "definitive_failed"
  end.

Definition parse_landing (value : string) : outcome StoreError LandingState :=
  if bool_decide (value = "prepared") then Ok Landing.Prepared
  else if bool_decide (value = "broadcast") then Ok Landing.Broadcast
  else if bool_decide (value = "unknown") then Ok Landing.Unknown
  else if bool_decide (value = "finalized") then Ok Landing.Finalized
  else if bool_decide (value = "definitive_failed") then Ok Landing.DefinitiveFailed
  else Err (Store.Invariant "unknown landing state").

(** [LandingState::is_live], which is also the set the queries name. *)
Definition landing_live (s : LandingState) : bool :=
  match s with Landing.Prepared | Landing.Broadcast | Landing.Unknown => true | _ => false end.

Record OutboundAttemptRow := mkAttempt {
  at_id : N; at_payment : N; at_number : Z; at_replaces : option N; at_bytes : list Z;
  at_signature : string; at_last_valid : Z; at_landing : LandingState; at_lease : option Z;
  at_evidence : option Value }.

(** [attempt_from_pg]. *)
Definition attempt_from_pg (r : OutboundAttemptRow) : outcome StoreError OutboundAttemptRow :=
  landing ← parse_landing (landing_name (at_landing r));
  Ok (mkAttempt (at_id r) (at_payment r) (at_number r) (at_replaces r) (at_bytes r) (at_signature r)
        (at_last_valid r) landing (at_lease r) (at_evidence r)).

Definition with_landing (s : LandingState) (a : OutboundAttemptRow) : OutboundAttemptRow :=
  mkAttempt (at_id a) (at_payment a) (at_number a) (at_replaces a) (at_bytes a) (at_signature a)
    (at_last_valid a) s (at_lease a) (at_evidence a).

Definition with_evidence (v : Value) (a : OutboundAttemptRow) : OutboundAttemptRow :=
  mkAttempt (at_id a) (at_payment a) (at_number a) (at_replaces a) (at_bytes a) (at_signature a)
    (at_last_valid a) (at_landing a) (at_lease a) (Some v).

(** The two tables. *)
Record OutboundDb := mkOutbound {
  ob_payments : list OutboundPaymentRow; ob_attempts : list OutboundAttemptRow }.

Definition insert_payment (p : OutboundPaymentRow) (db : OutboundDb) : outcome StoreError OutboundDb :=
  if existsb (fun q => (op_id q =? op_id p)%N ||
       (bool_decide (op_subject q = op_subject p) && (op_subject_id q =? op_subject_id p)%N))
       (ob_payments db)
  then Err (Store.Integrity "outbound_payments_subject_subject_id_key") else
  if op_amount_micro p <=? 0 then Err (Store.Integrity "outbound_payments_amount_micro_check") else
  Ok (mkOutbound (ob_payments db ++ [p]) (ob_attempts db)).

Definition payment_by_subject (subject : OutboundSubject) (id : N) (db : OutboundDb) :
    outcome StoreError (option OutboundPaymentRow) :=
  match List.find (fun p => bool_decide (op_subject p = subject) && (op_subject_id p =? id)%N)
          (ob_payments db) with
  | None => Ok None
  | Some p =>
      s ← parse_subject (subject_name (op_subject p));
      Ok (Some (mkPayment (op_id p) s (op_subject_id p) (op_dest p) (op_amount_micro p)
                  (op_rail_fingerprint p)))
  end.

(** [select id from outbound_payments where id = $1 for update]. *)
Definition lock_payment (payment : N) (db : OutboundDb) : outcome StoreError unit :=
  if existsb (fun p => (op_id p =? payment)%N) (ob_payments db) then Ok tt
  else Err (Store.NotFound "outbound payment").

(** [where payment_id = $1 order by attempt_number]. *)
Definition attempts_of (payment : N) (db : OutboundDb) : list OutboundAttemptRow :=
  sort_by (fun a b => at_number a <=? at_number b)
    (List.filter (fun a => (at_payment a =? payment)%N) (ob_attempts db)).

Definition attempts_for (payment : N) (db : OutboundDb) : outcome StoreError (list OutboundAttemptRow) :=
  foldM (fun acc a => a ← attempt_from_pg a; Ok (acc ++ [a])) [] (attempts_of payment db).

(** The live attempts, [order by attempt_number desc limit 2]. *)
Definition live_attempt (payment : N) (db : OutboundDb) : outcome StoreError (option OutboundAttemptRow) :=
  _ ← lock_payment payment db;
  match rev (List.filter (fun a => landing_live (at_landing a)) (attempts_of payment db)) with
  | [] => Ok None
  | [a] => a ← attempt_from_pg a; Ok (Some a)
  | _ => Err (Store.Invariant "multiple live outbound attempts")
  end.

Definition validate_attempt_lineage (attempt : OutboundAttemptRow) (expected_number : Z)
    (previous : option (N * string)) : outcome StoreError unit :=
  if negb (at_number attempt =? expected_number)
  then Err (Store.Invariant "outbound attempt number is not monotone") else
  match previous with
  | None =>
      if bool_decide (is_Some (at_replaces attempt))
      then Err (Store.Invariant "first outbound attempt has replacement lineage") else Ok tt
  | Some (previous_id, previous_state) =>
      if negb (bool_decide (at_replaces attempt = Some previous_id))
      then Err (Store.Invariant "outbound replacement lineage is invalid") else
      s ← parse_landing previous_state;
      if negb (bool_decide (s = Landing.DefinitiveFailed))
      then Err (Store.Invariant "outbound replacement lineage is invalid") else Ok tt
  end.

Definition validate_prepared_shape (a : OutboundAttemptRow) : outcome StoreError unit :=
  if is_empty (at_bytes a) || blank (at_signature a) || (at_last_valid a <=? 0) ||
     negb (bool_decide (at_landing a = Landing.Prepared)) || bool_decide (at_lease a = None)
  then Err (Store.Invariant "outbound prepared attempt shape") else Ok tt.

(** The unique indexes of [outbound_send_attempts], for a row [a] about to
    stand beside the rows [others]. *)
Definition attempt_conflict (a : OutboundAttemptRow) (others : list OutboundAttemptRow) : bool :=
  existsb (fun b => (at_id b =? at_id a)%N || bool_decide (at_signature b = at_signature a) ||
    ((at_payment b =? at_payment a)%N &&
       ((at_number b =? at_number a) || (landing_live (at_landing b) && landing_live (at_landing a)) ||
        (bool_decide (at_landing b = Landing.Finalized) && bool_decide (at_landing a = Landing.Finalized)))) ||
    (bool_decide (is_Some (at_replaces a)) && bool_decide (at_replaces b = at_replaces a))) others.

Definition insert_attempt (a : OutboundAttemptRow) (db : OutboundDb) : outcome StoreError OutboundDb :=
  _ ← lock_payment (at_payment a) db;
  let previous := last (attempts_of (at_payment a) db) in
  let expected_number :=
    match previous with None => 1 | Some p => saturate I32 (at_number p + 1) end in
  _ ← validate_attempt_lineage a expected_number
        ((fun p => (at_id p, landing_name (at_landing p))) <$> previous);
  _ ← validate_prepared_shape a;
  if existsb (fun b => bool_decide (at_signature b = at_signature a)) (ob_attempts db)
  then Err (Store.Conflict "outbound signature") else
  if attempt_conflict a (ob_attempts db) || (at_number a <=? 0)
  then Err (Store.Integrity "outbound_send_attempts") else
  Ok (mkOutbound (ob_payments db) (ob_attempts db ++ [a])).

Definition legal_attempt_edge (from to : LandingState) : bool :=
  bool_decide (from = to) ||
  match from, to with
  | Landing.Prepared, (Landing.Broadcast | Landing.Unknown | Landing.Finalized | Landing.DefinitiveFailed) => true
  | Landing.Broadcast, (Landing.Unknown | Landing.Finalized) => true
  | Landing.Unknown, (Landing.Finalized | Landing.DefinitiveFailed) => true
  | _, _ => false
  end.

(** [current] is the stored row. *)
Definition validate_attempt_update (a current : OutboundAttemptRow) : outcome StoreError unit :=
  if negb (at_payment current =? at_payment a)%N || negb (at_number current =? at_number a) ||
     negb (bool_decide (at_replaces current = at_replaces a)) ||
     negb (bool_decide (at_bytes current = at_bytes a)) ||
     negb (bool_decide (at_signature current = at_signature a)) ||
     negb (at_last_valid current =? at_last_valid a)
  then Err (Store.Invariant "outbound attempt immutable fields changed") else
  current_state ← parse_landing (landing_name (at_landing current));
  if negb (legal_attempt_edge current_state (at_landing a))
  then Err (Store.Invariant "illegal outbound attempt transition") else Ok tt.

Definition validate_competing_attempts (s : LandingState) (other_live other_finalized : bool) :
    outcome StoreError unit :=
  if landing_live s && other_live then Err (Store.Invariant "multiple live outbound attempts") else
  if bool_decide (s = Landing.Finalized) && other_finalized
  then Err (Store.Invariant "multiple finalized outbound attempts") else Ok tt.

(** The primary key makes the row found the only one the update writes. *)
Definition save_attempt (a : OutboundAttemptRow) (db : OutboundDb) : outcome StoreError OutboundDb :=
  _ ← lock_payment (at_payment a) db;
  current ← ok_or (List.find (fun b => (at_id b =? at_id a)%N) (ob_attempts db))
              (Store.NotFound "outbound attempt");
  _ ← validate_attempt_update a current;
  let others := List.filter (fun b => (at_payment b =? at_payment a)%N && negb (at_id b =? at_id a)%N)
                  (ob_attempts db) in
  let other_live := landing_live (at_landing a) && existsb (fun b => landing_live (at_landing b)) others in
  let other_finalized := bool_decide (at_landing a = Landing.Finalized) &&
    existsb (fun b => bool_decide (at_landing b = Landing.Finalized)) others in
  _ ← validate_competing_attempts (at_landing a) other_live other_finalized;
  Ok (mkOutbound (ob_payments db)
        (map (fun b => if (at_id b =? at_id a)%N
              then mkAttempt (at_id b) (at_payment b) (at_number b) (at_replaces b) (at_bytes b)
                     (at_signature b) (at_last_valid b) (at_landing a) (at_lease a) (at_evidence a)
              else b) (ob_attempts db))).

(** ** [money/outbound.rs] *)

Definition payment_for (fresh : N) (subject : OutboundSubject) (subject_id : N) (dest : string)
    (amount_micro : Z) (identity : RailIdentity) : OutboundPaymentRow :=
  mkPayment fresh subject subject_id dest amount_micro (rail_fingerprint identity).

Definition next_attempt_number (existing : list OutboundAttemptRow) : Z :=
  saturate I32
    (match existing with
     | [] => 0
     | a :: rest => fold_left Z.max (map at_number rest) (at_number a)
     end + 1).

Definition same_bytes_rebroadcast (r : RailIdentity) (rpc : list Z -> outcome StoreError Value)
    (payment : OutboundPaymentRow) (attempt : OutboundAttemptRow) (rail : Rail) :
    outcome AppError unit * Rail :=
  match persist_signed (op_id payment) (at_bytes attempt) (at_signature attempt) rail with
  | Ok rail => (store (broadcast r rpc (op_id payment) rail), rail)
  | Err e => (Err (App.Store e), rail)
  | Panic => (Panic, rail)
  end.

Definition can_replace (existing : list OutboundAttemptRow) : bool :=
  negb (existsb (fun a => bool_decide (at_landing a = Landing.Prepared \/ at_landing a = Landing.Broadcast))
          existing) &&
  match last existing with
  | Some a => bool_decide (at_landing a = Landing.Unknown)
  | None => false
  end.

(** ** Landing: the receipt and the non-landing proof *)

Record ChainReceipt := mkChainReceipt {
  ch_signature : string; ch_mint : string; ch_source : string; ch_dest_token_account : string;
  ch_delta_micro : Z; ch_commitment : string }.

Record QuorumObservation := mkObservation {
  qo_endpoint : string; qo_finalized_height : option Z; qo_signature_present : option bool;
  qo_pruned : bool }.

Inductive NonLandingVerdict := DefinitivelyFailed | LandingUnknown.

#[export] Instance NonLandingVerdict_eq_dec : EqDecision NonLandingVerdict.
Proof. solve_decision. Defined.

(** [for observation in observations], [fail_votes : u8] saturating; [None] is
    the early return. *)
Fixpoint fail_votes (last_valid : Z) (votes : Z) (l : list QuorumObservation) : option Z :=
  match l with
  | [] => Some votes
  | o :: l =>
      if qo_pruned o then None else
      match qo_finalized_height o, qo_signature_present o with
      | Some height, Some present =>
          fail_votes last_valid
            (if (height >? last_valid) && negb present then saturate U8 (votes + 1) else votes) l
      | _, _ => None
      end
  end.

Definition non_landing_verdict (last_valid : Z) (observations : list QuorumObservation) : NonLandingVerdict :=
  match fail_votes last_valid 0 observations with
  | Some votes => if votes >=? 2 then DefinitivelyFailed else LandingUnknown
  | None => LandingUnknown
  end.

(** Two [BTreeSet]s are compared as sets. *)
Definition safe_non_landing_verdict (last_valid : Z) (observations : list QuorumObservation)
    (expected_endpoints : list string) : NonLandingVerdict :=
  let endpoints : gset string := list_to_set (map qo_endpoint observations) in
  let expected : gset string := list_to_set expected_endpoints in
  if negb (length observations =? 3)%nat || negb (size endpoints =? 3)%nat ||
     negb (bool_decide (endpoints = expected)) ||
     existsb (fun o => bool_decide (qo_signature_present o = Some true)) observations
  then LandingUnknown
  else non_landing_verdict last_valid observations.

Definition verify_chain_receipt (identity : RailIdentity) (payment : OutboundPaymentRow)
    (attempt : OutboundAttemptRow) (receipt : ChainReceipt) : outcome string unit :=
  if negb (bool_decide (ch_commitment receipt = "finalized")) ||
     negb (bool_decide (commitment identity = "finalized")) then Err "commitment must be finalized"
  else if negb (bool_decide (ch_signature receipt = at_signature attempt)) then Err "signature mismatch"
  else if negb (bool_decide (ch_mint receipt = usdc_mint identity)) then Err "mint mismatch"
  else if negb (bool_decide (ch_source receipt = treasury_token_account identity)) then Err "source mismatch"
  else if negb (bool_decide (ch_dest_token_account receipt = op_dest payment)) then Err "dest mismatch"
  else if negb (ch_delta_micro receipt =? op_amount_micro payment) then Err "delta mismatch"
  else Ok tt.

(** Identity (d): the attempts of one payment. *)
Definition identity_d_holds (attempts : list OutboundAttemptRow) (settled : bool) : bool :=
  let finalized := length (List.filter (fun a => bool_decide (at_landing a = Landing.Finalized)) attempts) in
  if (1 <? finalized)%nat then false
  else if settled && negb (finalized =? 1)%nat then false
  else bool_decide (NoDup (map at_number attempts)).

(** ** Specification: the attempts of a payment *)

(** In the order they were inserted. *)
Definition of_payment (payment : N) (db : OutboundDb) : list OutboundAttemptRow :=
  List.filter (fun a => (at_payment a =? payment)%N) (ob_attempts db).

Definition disproved (a : OutboundAttemptRow) : Prop := at_landing a = Landing.DefinitiveFailed.

(** Numbered from one, and every attempt but the last is proved not to have
    landed. *)
Inductive lineage : list OutboundAttemptRow -> Prop :=
| lineage_nil : lineage []
| lineage_snoc l a : lineage l -> Forall disproved l -> at_number a = zlen l + 1 ->
    in_ty I32 (at_number a) -> lineage (l ++ [a]).

Record outbound_wf (db : OutboundDb) : Prop := {
  ow_payments : NoDup (map op_id (ob_payments db));
  ow_subjects : NoDup (map (fun p => (op_subject p, op_subject_id p)) (ob_payments db));
  ow_attempts : NoDup (map at_id (ob_attempts db));
  ow_signatures : NoDup (map at_signature (ob_attempts db));
  ow_lineage : forall payment, lineage (of_payment payment db);
  ow_owned : Forall (fun a => at_payment a ∈ map op_id (ob_payments db)) (ob_attempts db) }.

(** ** Lemmas: names *)

Lemma parse_w_status_name s : parse_w_status (w_status_name s) = Ok s.
Proof. by destruct s. Qed.
Lemma parse_review_name s : parse_review (review_name s) = Ok s.
Proof. by destruct s. Qed.
Lemma parse_send_name s : parse_send (send_name s) = Ok s.
Proof. by destruct s. Qed.
Lemma parse_landing_name s : parse_landing (landing_name s) = Ok s.
Proof. by destruct s. Qed.
Lemma parse_subject_name s : parse_subject (subject_name s) = Ok s.
Proof. by destruct s. Qed.

Lemma checked_combo_name c :
  checked_combo (w_status_name (cb_status c)) (review_name (cb_review c)) (send_name (cb_send c)) =
    if is_legal c then Ok c else Err (Store.Invariant "illegal withdrawal combination").
Proof.
  unfold checked_combo. rewrite parse_w_status_name, parse_review_name, parse_send_name. cbn. destruct c.
  by destruct (is_legal _).
Qed.

Lemma attempt_from_pg_Ok a : attempt_from_pg a = Ok a.
Proof. unfold attempt_from_pg. rewrite parse_landing_name. by destruct a. Qed.

(** The labels name exactly the legal combinations. *)
Lemma parse_combo_label c l : combo_label c = Some l <-> parse_combo l = Ok c.
Proof.
  split.
  - destruct c as [s r d]; destruct s, r, d; intros [= <-]; reflexivity.
  - unfold parse_combo. destruct (List.find _ _) as [kv|] eqn:E; [|done]. apply find_some in E as [Hin Hk].
    apply bool_decide_eq_true in Hk as <-. intros [= <-]. cbn in Hin.
    repeat (destruct Hin as [<-|Hin]; [reflexivity|]). done.
Qed.

(** ** Lemmas: the attempt tables *)

Lemma insert_by_le {A} (le : A -> A -> bool) x l :
  (forall y, y ∈ l -> le x y = true) -> insert_by le x l = x :: l.
Proof. destruct l as [|y l]; [done|]. cbn. intros E. by rewrite E by set_solver. Qed.

Lemma lineage_numbers l a : lineage l -> a ∈ l -> 1 <= at_number a <= zlen l.
Proof.
  intros L. revert a. induction L as [|l b L IH _ Hb _]; [set_solver|]. intros a.
  rewrite zlen_app, zlen_cons, elem_of_app, list_elem_of_singleton. pose proof (zlen_nonneg l).
  unfold zlen in *. cbn [length]. intros [Ha| ->]; [specialize (IH _ Ha); lia|lia].
Qed.

Lemma sort_lineage_app l k :
  lineage l -> (forall a b, a ∈ l -> b ∈ k -> at_number a <= at_number b) ->
  sort_by (fun a b => at_number a <=? at_number b) (l ++ k) =
    l ++ sort_by (fun a b => at_number a <=? at_number b) k.
Proof.
  intros L. revert k. induction L as [|l c L IH _ Hc _]; intros k Hk; [done|].
  rewrite <- !app_assoc. cbn [app]. rewrite IH.
  - f_equal. cbn [sort_by foldr]. apply insert_by_le. intros y Hy. apply Z.leb_le, Hk; [set_solver|].
    change (y ∈ sort_by (fun a b => at_number a <=? at_number b) k) in Hy. by rewrite sort_by_perm in Hy.
  - intros a b Ha. rewrite elem_of_cons. intros [->|Hb]; [|apply Hk; set_solver].
    pose proof (lineage_numbers _ _ L Ha). lia.
Qed.

Lemma attempts_of_wf payment db : outbound_wf db -> attempts_of payment db = of_payment payment db.
Proof.
  intros W. unfold attempts_of. fold (of_payment payment db).
  rewrite <- (app_nil_r (of_payment payment db)) at 1.
  rewrite sort_lineage_app; [by rewrite app_nil_r|apply W|set_solver].
Qed.

Lemma attempts_for_Ok payment db : outbound_wf db -> attempts_for payment db = Ok (of_payment payment db).
Proof.
  intros W. unfold attempts_for. rewrite attempts_of_wf by done.
  enough (E : forall l acc, foldM (fun acc a => a ← attempt_from_pg a; Ok (acc ++ [a])) acc l = @Ok StoreError _ (acc ++ l))
    by apply (E _ []).
  intros l. induction l as [|a l IH]; intros acc; cbn [foldM]; [by rewrite app_nil_r|].
  rewrite attempt_from_pg_Ok. cbn. by rewrite IH, <- app_assoc.
Qed.

(** Only the last attempt can be live or finalized. *)
Lemma lineage_last l a :
  lineage l -> a ∈ l -> at_landing a <> Landing.DefinitiveFailed ->
  exists front, l = front ++ [a] /\ lineage front /\ Forall disproved front /\ at_number a = zlen front + 1.
Proof.
  intros L Ha Hd. destruct L as [|l b L Hl Hn _]; [set_solver|]. apply elem_of_app in Ha as [Ha|Ha].
  - rewrite Forall_forall in Hl. by destruct Hd; apply Hl.
  - apply list_elem_of_singleton in Ha as ->. by exists l.
Qed.

Lemma is_live_not_failed s : landing_live s = true -> s <> Landing.DefinitiveFailed.
Proof. by intros ? ->. Qed.

Lemma filter_disproved l : Forall disproved l -> List.filter (fun a => landing_live (at_landing a)) l = [].
Proof. induction 1 as [|a l Ha _ IH]; [done|]. cbn. unfold disproved in Ha. by rewrite Ha. Qed.

Lemma live_attempt_Ok payment db a :
  outbound_wf db -> live_attempt payment db = Ok (Some a) ->
  landing_live (at_landing a) = true /\ a ∈ ob_attempts db /\ at_payment a = payment /\
  exists front, of_payment payment db = front ++ [a] /\ Forall disproved front.
Proof.
  intros W. unfold live_attempt. rewrite attempts_of_wf by done. intros (? & _ & Hr)%bind_Ok.
  destruct (rev _) as [|b [|]] eqn:E in Hr; [done| |done]. rewrite attempt_from_pg_Ok in Hr. injection Hr as <-.
  apply (f_equal (@rev _)) in E. rewrite rev_involutive in E. cbn in E.
  assert (Hb : b ∈ List.filter (fun a => landing_live (at_landing a)) (of_payment payment db)) by (rewrite E; set_solver).
  apply list_elem_of_In, filter_In in Hb as [Hb Hlive]. pose proof Hb as [Hb1 Hb2]%filter_In.
  apply list_elem_of_In in Hb. apply list_elem_of_In in Hb1.
  destruct (lineage_last _ _ (ow_lineage _ W payment) Hb) as (front & Ef & _ & Hf & _); [by apply is_live_not_failed|].
  split_and!; [done..|by apply N.eqb_eq|by exists front].
Qed.

Lemma lineage_map (f : OutboundAttemptRow -> OutboundAttemptRow) l :
  (forall a, a ∈ l -> at_number (f a) = at_number a) -> (forall a, a ∈ l -> disproved a -> disproved (f a)) ->
  lineage l -> lineage (map f l).
Proof.
  intros Hn Hd L. induction L as [|l a L IH Hl Ha Hr]; [constructor|]. rewrite map_app. constructor.
  - apply IH; intros b Hb; [apply Hn|apply Hd]; set_solver.
  - apply Forall_fmap. rewrite Forall_forall in *. intros b Hb. apply Hd; [set_solver|by apply Hl].
  - rewrite Hn by set_solver. unfold zlen in *. by rewrite length_map.
  - by rewrite Hn by set_solver.
Qed.

Lemma of_payment_snoc p db a :
  of_payment p (mkOutbound (ob_payments db) (ob_attempts db ++ [a])) =
    of_payment p db ++ (if (at_payment a =? p)%N then [a] else []).
Proof. unfold of_payment. cbn. rewrite List.filter_app. cbn. by destruct (at_payment a =? p)%N. Qed.

Lemma NoDup_snoc {A} (l : list A) x : NoDup l -> x ∉ l -> NoDup (l ++ [x]).
Proof. intros Hl Hx. apply NoDup_app. split_and!; [done|set_solver|apply NoDup_singleton]. Qed.

Lemma lock_payment_member payment db u : lock_payment payment db = Ok u -> payment ∈ map op_id (ob_payments db).
Proof.
  unfold lock_payment. destruct (existsb _ _) eqn:E; [|done]. intros _. apply existsb_exists in E as (p & Hp & Hid%N.eqb_eq).
  subst. apply list_elem_of_fmap_2. by apply list_elem_of_In.
Qed.

(** An insert follows only disproved attempts. *)
Lemma insert_attempt_Ok a db db' :
  outbound_wf db -> insert_attempt a db = Ok db' ->
  outbound_wf db' /\ ob_payments db' = ob_payments db /\ at_landing a = Landing.Prepared /\
  Forall disproved (of_payment (at_payment a) db) /\
  (forall p, of_payment p db' = of_payment p db ++ (if (at_payment a =? p)%N then [a] else [])).
Proof.
  intros W Hr. unfold insert_attempt in Hr. apply bind_Ok in Hr as (? & Hpm%lock_payment_member & Hr). cbv zeta in Hr.
  rewrite attempts_of_wf in Hr by done.
  apply bind_Ok in Hr as (? & Hlin & Hr). apply bind_Ok in Hr as (? & Hshape & Hr).
  destruct (existsb _ _) eqn:Hsig in Hr; [done|]. destruct (_ || _) eqn:Hx in Hr; [done|]. injection Hr as <-.
  apply orb_false_iff in Hx as [Hx _]. unfold attempt_conflict in Hx. apply existsb_false in Hx.
  apply existsb_false in Hsig. rewrite Forall_forall in Hx, Hsig.
  assert (Hprep : at_landing a = Landing.Prepared).
  { unfold validate_prepared_shape in Hshape. destruct (_ || _) eqn:E in Hshape; [done|]. bool_hyps.
    by eapply bool_decide_eq_true. }
  assert (Hl : Forall disproved (of_payment (at_payment a) db) /\ at_number a = zlen (of_payment (at_payment a) db) + 1 /\
    in_ty I32 (at_number a)).
  { unfold validate_attempt_lineage in Hlin. destruct (negb _) eqn:Hn in Hlin; [done|].
    apply negb_false_iff, Z.eqb_eq in Hn. pose proof (ow_lineage _ W (at_payment a)) as L.
    assert (Hin : forall b, b ∈ of_payment (at_payment a) db -> b ∈ ob_attempts db /\ at_payment b = at_payment a).
    { intros b [Hb1 Hb2]%list_elem_of_In%filter_In. split; [by apply list_elem_of_In|by apply N.eqb_eq]. }
    destruct L as [|k b L Hk Hb Hr]; [cbn in Hn; rewrite Hn; split_and!; [done..|ty]|]. rewrite last_snoc in *. cbn in Hlin.
    destruct (negb _) eqn:Hrep in Hlin; [done|]. rewrite parse_landing_name in Hlin. cbn in Hlin.
    destruct (negb _) eqn:Hs in Hlin; [done|]. apply negb_false_iff, bool_decide_eq_true in Hs.
    split; [apply Forall_app; split; [done|by constructor]|].
    destruct (Hin b) as [Hb1 Hb2]; [set_solver|]. specialize (Hx b Hb1). cbn beta in Hx. bool_hyps.
    match goal with H : ((at_payment b =? at_payment a)%N && _) = false |- _ =>
      apply andb_false_iff in H as [H|H]; [apply N.eqb_neq in H; done|] end. bool_hyps.
    rewrite Hb in *. rewrite zlen_app. unfold zlen in *. cbn [length]. unfold saturate in Hn. split; ty. }
  destruct Hl as (Hl & Hnum & Hrange). split_and!; try done; [|intros p; apply of_payment_snoc]. split; cbn.
  - apply W.
  - apply W.
  - rewrite map_app. apply NoDup_snoc; [apply W|]. intros (b & E & Hb)%list_elem_of_fmap.
    specialize (Hx b Hb). bool_hyps. match goal with H : (at_id b =? at_id a)%N = false |- _ => apply N.eqb_neq in H; congruence end.
  - rewrite map_app. apply NoDup_snoc; [apply W|]. intros (b & E & Hb)%list_elem_of_fmap.
    specialize (Hsig b Hb). apply bool_decide_eq_false in Hsig. congruence.
  - intros p. change (lineage (of_payment p (mkOutbound (ob_payments db) (ob_attempts db ++ [a])))).
    rewrite of_payment_snoc. destruct (N.eqb_spec (at_payment a) p) as [<-|].
    + by constructor; [apply W|..].
    + rewrite app_nil_r. apply W.
  - apply Forall_app. split; [apply W|]. by apply Forall_singleton.
Qed.

Definition saved (a b : OutboundAttemptRow) : OutboundAttemptRow :=
  if (at_id b =? at_id a)%N
  then mkAttempt (at_id b) (at_payment b) (at_number b) (at_replaces b) (at_bytes b) (at_signature b)
         (at_last_valid b) (at_landing a) (at_lease a) (at_evidence a)
  else b.

Lemma of_payment_saved a p db :
  of_payment p (mkOutbound (ob_payments db) (map (saved a) (ob_attempts db))) = map (saved a) (of_payment p db).
Proof.
  unfold of_payment. cbn. induction (ob_attempts db) as [|b l IH]; [done|]. cbn.
  assert (E : at_payment (saved a b) = at_payment b) by (unfold saved; by case_if). rewrite E.
  destruct (at_payment b =? p)%N; cbn; by rewrite IH.
Qed.

Lemma NoDup_map_elem {A B} (f : A -> B) l x y : NoDup (map f l) -> x ∈ l -> y ∈ l -> f x = f y -> x = y.
Proof.
  intros Hnd (i & Hi)%list_elem_of_lookup (j & Hj)%list_elem_of_lookup E.
  assert (i = j) as ->; [|congruence]. eapply (NoDup_lookup _ _ _ (f x) Hnd); [|rewrite E]; by apply list_lookup_fmap_Some_2.
Qed.

Lemma find_attempt db a b :
  NoDup (map at_id (ob_attempts db)) -> a ∈ ob_attempts db -> at_id a = at_id b ->
  List.find (fun x => (at_id x =? at_id b)%N) (ob_attempts db) = Some a.
Proof.
  intros Hnd Ha E. destruct (List.find _ _) as [x|] eqn:Ef.
  - apply find_by in Ef as [Hx Hid%N.eqb_eq]. f_equal.
    eapply (NoDup_map_elem at_id); [exact Hnd|done..|congruence].
  - apply find_none_by in Ef. rewrite Forall_forall in Ef. specialize (Ef a Ha). cbn in Ef.
    by rewrite E, N.eqb_refl in Ef.
Qed.

Lemma save_attempt_inv a db db' :
  save_attempt a db = Ok db' ->
  db' = mkOutbound (ob_payments db) (map (saved a) (ob_attempts db)) /\
  exists cur, cur ∈ ob_attempts db /\ at_id cur = at_id a /\ saved a cur = a /\ at_payment cur = at_payment a /\
    legal_attempt_edge (at_landing cur) (at_landing a) = true.
Proof.
  unfold save_attempt. intros (? & _ & Hr)%bind_Ok. apply bind_Ok in Hr as (cur & Hc%ok_or_Ok & Hr).
  apply bind_Ok in Hr as (? & Hv & Hr). cbv zeta in Hr. apply bind_Ok in Hr as (? & _ & [= <-]).
  split; [done|]. apply find_by in Hc as [Hc Hid%N.eqb_eq]. exists cur.
  unfold validate_attempt_update in Hv. destruct (_ || _) eqn:E in Hv; [done|]. rewrite parse_landing_name in Hv. cbn in Hv.
  destruct (negb _) eqn:He in Hv; [done|]. bool_hyps. rewrite ?bool_decide_eq_true, ?N.eqb_eq in *.
  split_and!; try done. unfold saved. rewrite Hid, N.eqb_refl. destruct a, cur; cbn in *. by subst.
Qed.

Lemma legal_edge_failed s : legal_attempt_edge Landing.DefinitiveFailed s = true -> s = Landing.DefinitiveFailed.
Proof. by destruct s. Qed.

Lemma saved_other a b : at_id b <> at_id a -> saved a b = b.
Proof. intros Hne. unfold saved. by apply N.eqb_neq in Hne as ->. Qed.

Lemma saved_key a b :
  at_id (saved a b) = at_id b /\ at_signature (saved a b) = at_signature b /\ at_number (saved a b) = at_number b.
Proof. unfold saved. by case_if. Qed.

(** Saving keeps the tables well formed and writes one row. *)
Lemma save_attempt_Ok a db db' :
  outbound_wf db -> save_attempt a db = Ok db' ->
  outbound_wf db' /\ ob_payments db' = ob_payments db /\
  (forall p, of_payment p db' = map (saved a) (of_payment p db)) /\
  exists cur, cur ∈ of_payment (at_payment a) db /\ at_id cur = at_id a /\ saved a cur = a /\
    legal_attempt_edge (at_landing cur) (at_landing a) = true.
Proof.
  intros W (-> & cur & Hc & Hid & Hs & Hp & He)%save_attempt_inv.
  assert (Hof : forall p, of_payment p (mkOutbound (ob_payments db) (map (saved a) (ob_attempts db))) =
    map (saved a) (of_payment p db)) by (intros p; apply of_payment_saved).
  split_and!; try done.
  - split; cbn [ob_payments ob_attempts]; [apply W|apply W|..].
    + rewrite map_map. rewrite (map_ext _ at_id) by apply saved_key. apply W.
    + rewrite map_map. rewrite (map_ext _ at_signature) by apply saved_key. apply W.
    + intros p. rewrite Hof. apply lineage_map; [intros b _; apply saved_key| |apply W].
      intros b [Hb _]%list_elem_of_In%filter_In Hd. apply list_elem_of_In in Hb.
      destruct (decide (at_id b = at_id a)) as [E|E]; [|by rewrite saved_other].
      assert (b = cur) as -> by (eapply (NoDup_map_elem at_id); [apply W|done..|congruence]).
      unfold disproved in *. rewrite Hd in He. rewrite Hs. by apply legal_edge_failed.
    + apply Forall_fmap. eapply Forall_impl; [apply W|]. cbn. intros b. unfold saved. by case_if.
  - exists cur. split_and!; try done. apply list_elem_of_In, filter_In. split; [by apply list_elem_of_In|].
    by apply N.eqb_eq.
Qed.

(** Saving the last attempt replaces it. *)
Lemma save_last a db db' front cur :
  outbound_wf db -> of_payment (at_payment a) db = front ++ [cur] -> at_id cur = at_id a ->
  save_attempt a db = Ok db' ->
  outbound_wf db' /\ ob_payments db' = ob_payments db /\ of_payment (at_payment a) db' = front ++ [a] /\
  (forall p, p <> at_payment a -> of_payment p db' = of_payment p db) /\
  legal_attempt_edge (at_landing cur) (at_landing a) = true.
Proof.
  intros W E Hid (W' & P & Hof & cur' & Hc & Hid' & Hs & He)%save_attempt_Ok; [|done].
  assert (Hrow : forall p b, b ∈ of_payment p db -> b ∈ ob_attempts db /\ at_payment b = p).
  { intros p b [H1 H2]%list_elem_of_In%filter_In. split; [by apply list_elem_of_In|by apply N.eqb_eq]. }
  assert (Hcur : cur ∈ of_payment (at_payment a) db) by (rewrite E; set_solver).
  assert (Hinj : forall b, b ∈ ob_attempts db -> at_id b = at_id a -> b = cur).
  { intros b Hb Eb. eapply (NoDup_map_elem at_id); [apply W|done|by eapply Hrow|congruence]. }
  assert (cur' = cur) as -> by (apply Hinj; [by eapply Hrow|done]).
  split_and!; try done.
  - rewrite Hof, E, map_app. cbn [map]. rewrite Hs. f_equal.
    rewrite (map_ext_in _ id); [by rewrite map_id|]. intros b Hb%list_elem_of_In. apply saved_other. intros Eb.
    assert (Hnd : NoDup (of_payment (at_payment a) db)).
    { apply NoDup_ListNoDup, List.NoDup_filter, NoDup_ListNoDup. apply (NoDup_fmap_1 at_id), W. }
    rewrite E in Hnd. apply NoDup_app in Hnd as (_ & Hnd & _). apply (Hnd b Hb). apply list_elem_of_singleton.
    apply Hinj; [|done]. apply (Hrow (at_payment a)). rewrite E. set_solver.
  - intros p Hp. rewrite Hof. rewrite (map_ext_in _ id); [by rewrite map_id|]. intros b Hb%list_elem_of_In.
    apply saved_other. intros Eb. apply Hrow in Hb as [Hb1 Hb2]. rewrite (Hinj b Hb1 Eb) in Hb2.
    apply Hp. rewrite <- Hb2. apply (Hrow (at_payment a)). done.
Qed.

(** ** Lemmas: payments *)

Definition payment_of (subject : OutboundSubject) (id : N) (db : OutboundDb) : option OutboundPaymentRow :=
  List.find (fun p => bool_decide (op_subject p = subject) && (op_subject_id p =? id)%N) (ob_payments db).

Lemma payment_by_subject_Ok subject id db : payment_by_subject subject id db = Ok (payment_of subject id db).
Proof.
  unfold payment_by_subject, payment_of. destruct (List.find _ _) as [p|]; [|done].
  rewrite parse_subject_name. by destruct p.
Qed.

Lemma payment_of_Some subject id db p :
  payment_of subject id db = Some p -> p ∈ ob_payments db /\ op_subject p = subject /\ op_subject_id p = id.
Proof.
  intros [H1 [H2%bool_decide_eq_true H3%N.eqb_eq]%andb_true_iff]%find_by. done.
Qed.

(** Two subjects never share a payment. *)
Lemma payment_of_inj subject subject' id id' db p p' :
  outbound_wf db -> payment_of subject id db = Some p -> payment_of subject' id' db = Some p' ->
  op_id p = op_id p' -> subject = subject' /\ id = id'.
Proof.
  intros W (H1 & <- & <-)%payment_of_Some (H1' & <- & <-)%payment_of_Some E.
  assert (p = p') as ->; [|done]. by eapply (NoDup_map_elem op_id); [apply W|..].
Qed.

Lemma payment_of_snoc subject id p db :
  payment_of subject id (mkOutbound (ob_payments db ++ [p]) (ob_attempts db)) =
    match payment_of subject id db with
    | Some q => Some q
    | None => if bool_decide (op_subject p = subject) && (op_subject_id p =? id)%N then Some p else None
    end.
Proof. unfold payment_of. cbn [ob_payments]. rewrite find_app. by destruct (List.find _ (ob_payments db)). Qed.

Lemma insert_payment_Ok p db db' :
  outbound_wf db -> insert_payment p db = Ok db' ->
  outbound_wf db' /\ ob_attempts db' = ob_attempts db /\ 0 < op_amount_micro p /\
  db' = mkOutbound (ob_payments db ++ [p]) (ob_attempts db) /\
  payment_of (op_subject p) (op_subject_id p) db = None /\ of_payment (op_id p) db = [].
Proof.
  intros W. unfold insert_payment. destruct (existsb _ _) eqn:Hx; [done|]. destruct (_ <=? _) eqn:Ha; [done|].
  intros [= <-]. bool_hyps. apply existsb_false in Hx. rewrite Forall_forall in Hx. split_and!; try done.
  - split; cbn [ob_payments ob_attempts]; try apply W.
    + rewrite map_app. apply NoDup_snoc; [apply W|]. intros (q & E & Hq)%list_elem_of_fmap.
      specialize (Hx q Hq). cbn beta in Hx. bool_hyps.
      match goal with H : (op_id q =? op_id p)%N = false |- _ => apply N.eqb_neq in H; congruence end.
    + rewrite map_app. apply NoDup_snoc; [apply W|]. intros (q & [= E1 E2] & Hq)%list_elem_of_fmap.
      specialize (Hx q Hq). cbn beta in Hx. bool_hyps.
      match goal with H : (bool_decide _ && _) = false |- _ => rewrite E1, E2, bool_decide_eq_true_2, N.eqb_refl in H by done; done end.
    + eapply Forall_impl; [apply W|]. cbn. intros a Hin. rewrite map_app. set_solver.
  - unfold payment_of. apply find_none_by, Forall_forall. intros q Hq. specialize (Hx q Hq). cbn beta in Hx. by bool_hyps.
  - destruct (of_payment (op_id p) db) as [|a l] eqn:E; [done|]. exfalso.
    assert (Hin : a ∈ of_payment (op_id p) db) by (rewrite E; set_solver).
    apply list_elem_of_In, filter_In in Hin as [Hin Hp%N.eqb_eq]. apply list_elem_of_In in Hin.
    pose proof (ow_owned _ W) as Ho. rewrite Forall_forall in Ho. specialize (Ho a Hin). cbn in Ho. rewrite Hp in Ho.
    apply list_elem_of_fmap in Ho as (q & Hid & Hq). specialize (Hx q Hq). cbn beta in Hx. by rewrite <- Hid, N.eqb_refl in Hx.
Qed.
