(* ===== verification/Withdraw.v ===== *)
(** * Withdraw: withdrawals from request to settlement

    [application/src/money/withdraw_request.rs], [withdraw_decide.rs],
    [withdraw_send.rs], [withdraw_reconcile.rs] and [withdraw_settle.rs] over the
    transaction of [adapters/src/pg/withdraw_tx.rs], with the anti-laundering
    evaluation of [money/aml.rs].  A request takes a hold of the user's cash in
    the [Withheld] account; the machine and the finance role decide it; the
    sender signs, persists and broadcasts; the reconciler classifies what the
    chain shows; the settlement moves the hold to [External], a denial or a
    proof of non-landing returns it.

    A use case that reads the owner or the fingerprint before it opens its
    transaction takes that earlier state as an argument.  Sending runs up to two
    transactions with a broadcast between them: [send] and [replace_expired]
    are the first, with the calls to the rail that precede their commit, and
    [after_commit] is the rest, on whatever state it finds.  Answers of the
    chain, the signer and the screening providers are arguments, as are clock,
    generated identifiers and outbox sequence numbers; SHA-256, the JSON printer
    and parser and the UUID parser are parameters. *)

From S2P Require Import Prelude Amm Ledger Resolution Economy Chars Errors Credits PgLedger Json Config Fences ConfigStore Compliance Collect Book Lifecycle Outbound.
#[local] Open Scope string_scope.
#[local] Open Scope list_scope.
#[local] Open Scope Z_scope.

(** ** Data *)

Record WithdrawalRow := mkWithdrawal {
  wr_id : N; wr_user : N; wr_dest : string; wr_amount_micro : Z; wr_combo : Combo; wr_hold_tx : N;
  wr_release_tx : option N; wr_settle_tx : option N; wr_fingerprint : string;
  wr_risk_reasons : list string; wr_requested_at : Z; wr_decided_at : option Z;
  wr_sent_at : option Z; wr_settled_at : option Z }.

Record WithdrawalReceipt := mkWithdrawalReceipt {
  wc_id : option N; wc_user : N; wc_dest : string; wc_amount_micro : Z; wc_combo : option Combo;
  wc_hold_tx : option N; wc_replayed : bool; wc_refused : bool; wc_refuse_code : option string;
  wc_refuse_message : option string }.

Record UserMoneyView := mkMoneyView { mv_status : UserStatus; mv_kyc_tier : Z; mv_excluded_until : option Z }.

Record WithdrawLimits := mkLimits {
  min_micro : Z; max_micro : Z; daily_micro : Z; auto_approve_micro : Z; dual_control_micro : Z;
  dest_warm_floor_micro : Z; dest_warm_age_hours : Z; dest_daily_micro : Z; hot_daily_micro : Z;
  withdraw_kyc_tier : Z; pause_withdrawals : bool; approve_daily_cap_micro : Z }.

Record DestWarmth := mkWarmth {
  dw_settled_micro : Z; dw_first_settled_at : option Z; dw_distinct_users : Z; dw_is_refund_dest : bool }.

Record RequestWithdrawCmd := mkRequest {
  rq_user : N; rq_amount_micro : Z; rq_dest : string; rq_client_ip : option IpAddr;
  rq_idempotency_key : option string }.

Inductive DecideCmd :=
| DecideMachine | FinanceApprove (reason : string) | ProposeDual (reason : string) | ConfirmDual
| ExpireProposal | Deny (reason : string).

Record WithdrawalEvent := mkWithdrawalEvent {
  we_withdrawal : N; we_kind : string; we_actor : string; we_at : Z; we_payload : Value }.

Record NewNotification := mkNotification {
  nn_user : N; nn_type : string; nn_payload : Value; nn_source_seq : Z; nn_created_at : Z }.

(** The table [deposits]. *)
Record DepositRow := mkDeposit {
  dp_id : N; dp_user : option N; dp_chain_sig : string; dp_amount_micro : Z; dp_status : string;
  dp_source : option string; dp_dest : option string; dp_mint : option string; dp_rail : option string;
  dp_slot : option Z; dp_suspense_tx : option N; dp_admit_tx : option N; dp_refund_tx : option N;
  dp_machine_status : option string; dp_created_at : Z }.

Record Wdb := mkWdb {
  wd_db : Db;
  wd_rows : gmap N WithdrawalRow;
  wd_events : list WithdrawalEvent;
  wd_outbound : OutboundDb;
  wd_deposits : list DepositRow;
  wd_notifications : list NewNotification }.

Definition set_db (x : Db) (w : Wdb) : Wdb :=
  mkWdb x (wd_rows w) (wd_events w) (wd_outbound w) (wd_deposits w) (wd_notifications w).
Definition set_rows (x : gmap N WithdrawalRow) (w : Wdb) : Wdb :=
  mkWdb (wd_db w) x (wd_events w) (wd_outbound w) (wd_deposits w) (wd_notifications w).
Definition set_events (x : list WithdrawalEvent) (w : Wdb) : Wdb :=
  mkWdb (wd_db w) (wd_rows w) x (wd_outbound w) (wd_deposits w) (wd_notifications w).
Definition set_outbound (x : OutboundDb) (w : Wdb) : Wdb :=
  mkWdb (wd_db w) (wd_rows w) (wd_events w) x (wd_deposits w) (wd_notifications w).
Definition set_deposits (x : list DepositRow) (w : Wdb) : Wdb :=
  mkWdb (wd_db w) (wd_rows w) (wd_events w) (wd_outbound w) x (wd_notifications w).
Definition set_notifications (x : list NewNotification) (w : Wdb) : Wdb :=
  mkWdb (wd_db w) (wd_rows w) (wd_events w) (wd_outbound w) (wd_deposits w) x.

Definition wd_ledger (w : Wdb) : PgLedger := fu_ledger (td_funds (wd_db w)).
Definition wd_comp (w : Wdb) : ComplianceDb := td_comp (wd_db w).
Definition wd_entries (w : Wdb) : gmap string Value := db_entries (td_ops (wd_db w)).

Definition set_wledger (l : PgLedger) (w : Wdb) : Wdb :=
  set_db (set_funds (set_ledger l (td_funds (wd_db w))) (wd_db w)) w.
Definition set_wcomp (c : ComplianceDb) (w : Wdb) : Wdb := set_db (set_comp c (wd_db w)) w.

(** Field updates of a row. *)
Definition with_combo (c : Combo) (r : WithdrawalRow) : WithdrawalRow :=
  mkWithdrawal (wr_id r) (wr_user r) (wr_dest r) (wr_amount_micro r) c (wr_hold_tx r) (wr_release_tx r)
    (wr_settle_tx r) (wr_fingerprint r) (wr_risk_reasons r) (wr_requested_at r) (wr_decided_at r)
    (wr_sent_at r) (wr_settled_at r).
Definition with_reasons (l : list string) (r : WithdrawalRow) : WithdrawalRow :=
  mkWithdrawal (wr_id r) (wr_user r) (wr_dest r) (wr_amount_micro r) (wr_combo r) (wr_hold_tx r)
    (wr_release_tx r) (wr_settle_tx r) (wr_fingerprint r) l (wr_requested_at r) (wr_decided_at r)
    (wr_sent_at r) (wr_settled_at r).
Definition with_decided (t : Z) (r : WithdrawalRow) : WithdrawalRow :=
  mkWithdrawal (wr_id r) (wr_user r) (wr_dest r) (wr_amount_micro r) (wr_combo r) (wr_hold_tx r)
    (wr_release_tx r) (wr_settle_tx r) (wr_fingerprint r) (wr_risk_reasons r) (wr_requested_at r) (Some t)
    (wr_sent_at r) (wr_settled_at r).
Definition with_sent (t : Z) (r : WithdrawalRow) : WithdrawalRow :=
  mkWithdrawal (wr_id r) (wr_user r) (wr_dest r) (wr_amount_micro r) (wr_combo r) (wr_hold_tx r)
    (wr_release_tx r) (wr_settle_tx r) (wr_fingerprint r) (wr_risk_reasons r) (wr_requested_at r)
    (wr_decided_at r) (Some t) (wr_settled_at r).
Definition with_release (t : N) (r : WithdrawalRow) : WithdrawalRow :=
  mkWithdrawal (wr_id r) (wr_user r) (wr_dest r) (wr_amount_micro r) (wr_combo r) (wr_hold_tx r) (Some t)
    (wr_settle_tx r) (wr_fingerprint r) (wr_risk_reasons r) (wr_requested_at r) (wr_decided_at r)
    (wr_sent_at r) (wr_settled_at r).
Definition with_settle (t : N) (at_ : Z) (r : WithdrawalRow) : WithdrawalRow :=
  mkWithdrawal (wr_id r) (wr_user r) (wr_dest r) (wr_amount_micro r) (wr_combo r) (wr_hold_tx r)
    (wr_release_tx r) (Some t) (wr_fingerprint r) (wr_risk_reasons r) (wr_requested_at r)
    (wr_decided_at r) (wr_sent_at r) (Some at_).

(** ** Pure helpers of [types.rs] *)

Definition union_reasons (snapshot current : list string) : list string :=
  fold_left (fun out reason => if existsb (fun e => bool_decide (e = reason)) out then out else out ++ [reason])
    current snapshot.

Definition blocks_auto_approve (reasons : list string) : bool := negb (is_empty reasons).

(** [time::Duration::hours] panics on overflow. *)
Definition is_warm {E} (dw : DestWarmth) (limits : WithdrawLimits) (now : Z) : outcome E bool :=
  if dw_is_refund_dest dw || (dw_distinct_users dw >=? 2) then Ok false else
  if dw_settled_micro dw <? dest_warm_floor_micro limits then Ok false else
  match dw_first_settled_at dw with
  | None => Ok false
  | Some first => age ← arith I64 (dest_warm_age_hours limits * 3600); Ok (now - first >=? age)
  end.

Definition sum_i64 {E} (l : list Z) : outcome E Z := foldM (fun acc x => arith I64 (acc + x)) 0 l.

Definition identity_a_holds {E} (withheld_balance : Z) (rows : list WithdrawalRow) : outcome E bool :=
  total ← sum_i64 (map wr_amount_micro (List.filter (fun r => has_active_hold (wr_combo r)) rows));
  Ok (withheld_balance =? total).

Definition identity_b_holds (rows : list WithdrawalRow) : bool :=
  forallb (fun r => negb (wr_hold_tx r =? 0)%N) rows.

Definition identity_c_holds (rows : list WithdrawalRow) : bool :=
  forallb (fun r =>
    let released := bool_decide (is_Some (wr_release_tx r)) in
    let settled := bool_decide (is_Some (wr_settle_tx r)) in
    match cb_status (wr_combo r) with
    | WStatus.Denied | WStatus.Failed => released && negb settled
    | WStatus.Settled => settled && negb released
    | _ => negb released && negb settled
    end) rows.

(** The big-endian bytes of a UUID. *)
Fixpoint be_bytes (n : nat) (u : N) : string :=
  match n with
  | O => ""
  | S n => be_bytes n (u / 256) +:+ String (Ascii.ascii_of_N (u mod 256)) ""
  end.
Definition uuid_bytes (u : N) : string := be_bytes 16 u.

(** [amount.to_le_bytes()], of an [i64]. *)
Fixpoint le_bytes (n : nat) (z : Z) : string :=
  match n with
  | O => ""
  | S n => String (Ascii.ascii_of_N (Z.to_N (z mod 256))) (le_bytes n (z / 256))
  end.

(** ** Anti-laundering, [money/aml.rs] *)

Inductive AmlDirection := DepositLeg | WithdrawalLeg.

#[export] Instance AmlDirection_eq_dec : EqDecision AmlDirection.
Proof. solve_decision. Defined.

Record AmlLeg := mkLeg {
  lg_id : N; lg_user : N; lg_dest : string; lg_amount_micro : Z; lg_at : Z; lg_direction : AmlDirection }.

(** [window] in seconds. *)
Record AmlPolicy := mkPolicy {
  ap_floor_micro : Z; ap_threshold_micro : Z; ap_n : Z; ap_window : Z;
  ap_deposit_velocity_micro_24h : Z; ap_withdraw_velocity_micro_24h : Z }.

Definition in_structuring_band (amount_micro : Z) (p : AmlPolicy) : bool :=
  (amount_micro >=? ap_floor_micro p) && (amount_micro <? ap_threshold_micro p).

Record AmlEvaluation := mkEvaluation {
  ae_structuring_user : Z; ae_structuring_dest : Z; ae_deposit_velocity : Z;
  ae_deposit_velocity_saturated : bool; ae_withdraw_velocity : Z;
  ae_withdraw_velocity_saturated : bool; ae_flags : list AmlKind }.

Definition velocity (amounts : list Z) : Z * bool :=
  fold_left (fun '(total, saturated) amount =>
    match checked I64 (total + amount) with
    | Some next => (next, saturated)
    | None => (saturate I64 (total + amount), true)
    end) amounts (0, false).

Definition evaluate_aml {E} (existing : list AmlLeg) (candidate : AmlLeg) (p : AmlPolicy) :
    outcome E AmlEvaluation :=
  since ← datetime (lg_at candidate - ap_window p);
  let legs := List.filter (fun l => (lg_at l >=? since) && (lg_at l <=? lg_at candidate)) existing ++ [candidate] in
  let structuring_user := zlen (List.filter (fun l => (lg_user l =? lg_user candidate)%N &&
                                                    in_structuring_band (lg_amount_micro l) p) legs) in
  let structuring_dest := zlen (List.filter (fun l => bool_decide (lg_dest l = lg_dest candidate) &&
                                                    in_structuring_band (lg_amount_micro l) p) legs) in
  let of_direction d := map lg_amount_micro
    (List.filter (fun l => (lg_user l =? lg_user candidate)%N && bool_decide (lg_direction l = d)) legs) in
  let '(dv, dsat) := velocity (of_direction DepositLeg) in
  let '(wv, wsat) := velocity (of_direction WithdrawalLeg) in
  let clamp n := saturate I64 n in
  Ok (mkEvaluation (clamp structuring_user) (clamp structuring_dest) dv dsat wv wsat
        ((if (clamp structuring_user >=? ap_n p) || (clamp structuring_dest >=? ap_n p)
          then [Structuring] else []) ++
         (if dv >=? ap_deposit_velocity_micro_24h p then [DepositVelocity] else []) ++
         (if wv >=? ap_withdraw_velocity_micro_24h p then [WithdrawVelocity] else []))).

(** ** The transaction, [withdraw_tx.rs] *)

(** [str::parse::<i64>]: a sign, then digits. *)
Definition parse_digits (s : str) : option Z :=
  if is_empty s || negb (forallb (fun c => (48 <=? c) && (c <=? 57)) s) then None
  else Some (fold_left (fun v c => v * 10 + (c - 48)) s 0).

Definition parse_i64 (s : string) : option Z :=
  v ← match lit s with
      | 45 :: rest => Z.opp <$> parse_digits rest
      | 43 :: rest => parse_digits rest
      | l => parse_digits l
      end;
  checked I64 v.

Definition parse_bool (s : string) : option bool :=
  if bool_decide (s = "true") then Some true else if bool_decide (s = "false") then Some false else None.

(** [Option::or_else]. *)
Definition or_else {A} (o o' : option A) : option A := match o with Some a => Some a | None => o' end.

Definition money_config_i64 (entries : gmap string Value) (key : string) : outcome StoreError Z :=
  value ← ok_or (entries !! key) (Store.Invariant "withdraw config key missing");
  ok_or (or_else (as_i64_opt value) (as_str_opt value ≫= parse_i64))
    (Store.Backend ("withdraw config " +:+ key +:+ " is not an integer")).

Definition money_config_bool (entries : gmap string Value) (key : string) : outcome StoreError bool :=
  value ← ok_or (entries !! key) (Store.Invariant "withdraw config key missing");
  ok_or (or_else (as_bool_opt value) (as_str_opt value ≫= parse_bool))
    (Store.Backend ("withdraw config " +:+ key +:+ " is not a boolean")).

Definition validate_limits (l : WithdrawLimits) : outcome StoreError unit :=
  let auto_valid := (auto_approve_micro l =? 0) ||
    ((min_micro l <=? auto_approve_micro l) && (auto_approve_micro l <? dest_warm_floor_micro l) &&
     (auto_approve_micro l <=? dual_control_micro l)) in
  let ordered := (min_micro l >? 0) && auto_valid && (dual_control_micro l <=? max_micro l) &&
    (max_micro l <=? dest_daily_micro l) && (dest_daily_micro l <=? daily_micro l) &&
    (daily_micro l <=? hot_daily_micro l) && (dest_warm_age_hours l >? 0) &&
    (0 <=? withdraw_kyc_tier l) && (withdraw_kyc_tier l <=? 2) && (approve_daily_cap_micro l >? 0) in
  if negb ordered then Err (Store.Invariant "invalid withdrawal limits") else Ok tt.

Definition limits (w : Wdb) : outcome StoreError WithdrawLimits :=
  let int := money_config_i64 (wd_entries w) in
  min ← int "withdraw_min_micro";
  max ← int "withdraw_max_micro";
  daily ← int "withdraw_daily_limit_micro";
  auto ← int "withdraw_auto_approve_micro";
  dual ← int "withdraw_dual_control_micro";
  floor ← int "dest_warm_floor_micro";
  age ← int "dest_warm_age_hours";
  dest ← int "dest_daily_limit_micro";
  hot ← int "hot_wallet_daily_limit_micro";
  tier ← int "withdraw_kyc_tier";
  pause ← money_config_bool (wd_entries w) "pause_withdrawals";
  cap ← int "withdraw_approve_daily_cap_micro";
  let l := mkLimits min max daily auto dual floor age dest hot tier pause cap in
  _ ← validate_limits l;
  Ok l.

(** [9999-12-31 23:59:59+00], the mark of an exclusion that is not lifted. *)
Definition FAR_FUTURE : Z := 253402300799.

Definition user_money_view (db_now : Z) (user : N) (w : Wdb) : outcome StoreError UserMoneyView :=
  u ← ok_or (co_users (wd_comp w) !! user) (Store.NotFound "user");
  status ← parse_user_status (u_status u);
  let excluded := existsb (fun e => (se_user e =? user)%N && bool_decide (se_lifted_at e = None) &&
                                    (se_starts_at e <=? db_now)) (co_exclusions (wd_comp w)) in
  Ok (mkMoneyView status (u_kyc_tier u) (if excluded then Some FAR_FUTURE else None)).

(** *** Screenings and flags *)

Definition append_screening (r : ScreeningRow) (c : ComplianceDb) : ComplianceDb :=
  mkCompliance (co_users c) (co_screenings c ++ [r]) (co_exclusions c) (co_limits c) (co_flags c)
    (co_proposals c) (co_decisions c) (co_audit c).

Definition append_flag (r : FlagRow) (c : ComplianceDb) : ComplianceDb :=
  mkCompliance (co_users c) (co_screenings c) (co_exclusions c) (co_limits c) (co_flags c ++ [r])
    (co_proposals c) (co_decisions c) (co_audit c).

Definition persist_screening (fresh : N) (db_now : Z) (user : N) (context : string) (v : ScreenVerdict)
    (w : Wdb) : outcome StoreError Wdb :=
  let '(name, checked, expires, policy) :=
    match v with
    | Clear checked_at expires_at version => ("clear", Some checked_at, Some expires_at, Some version)
    | Hit => ("hit", None, None, None)
    | Indeterminate => ("indeterminate", None, None, None)
    end in
  if existsb (fun r => (sr_id r =? fresh)%N) (co_screenings (wd_comp w))
  then Err (Store.Integrity "sanction_screenings_pkey") else
  Ok (set_wcomp (append_screening
        (mkScreening fresh (Some user) context name (default db_now checked) expires policy) (wd_comp w)) w).

(** [try_get(..).unwrap_or(..)] on the columns that may be null. *)
Definition latest_screening (user : N) (context : string) (w : Wdb) : option ScreenVerdict :=
  (fun r =>
     if bool_decide (sr_verdict r = "clear")
     then Clear (sr_checked_at r) (default 0 (sr_expires_at r)) (default "" (sr_policy_version r))
     else if bool_decide (sr_verdict r = "hit") then Hit else Indeterminate)
  <$> latest_screen (wd_comp w) user context.

(** [order by checked_at desc, id desc limit 1]. *)
Definition latest_fact (user : N) (c : ComplianceDb) : option ScreeningRow :=
  head (sort_by (fun a b => (sr_checked_at b <? sr_checked_at a) ||
                            ((sr_checked_at b =? sr_checked_at a) && (sr_id b <=? sr_id a)%N))
          (List.filter (fun r => bool_decide (sr_user r = Some user) && bool_decide (sr_context r = "withdraw"))
             (co_screenings c))).

Definition open_flag (user : N) (rule : string) (c : ComplianceDb) : bool :=
  existsb (fun f => (fr_user f =? user)%N && bool_decide (fr_rule f = rule) &&
                    bool_decide (fr_status f = "open")) (co_flags c).

Section Withdraw.
Context `{UuidText} `{HashMapOrder}.
Context (sha256 : string -> list Z) (to_string : Value -> string) (from_str : string -> option Value)
  (uuid_parse : string -> option N) (time_json : Z -> Value).

(** Materialises a sanctions hit as a flag, then counts. *)
Definition open_aml_flag_count (fresh : N) (db_now : Z) (user : N) (w : Wdb) : outcome StoreError (Z * Wdb) :=
  let c := wd_comp w in
  c ← match latest_fact user c with
      | Some h =>
          if bool_decide (sr_verdict h = "hit") && negb (open_flag user "sanctions_hit" c) then
            if existsb (fun f => (fr_id f =? fresh)%N) (co_flags c)
            then Err (Store.Integrity "aml_flags_pkey")
            else Ok (append_flag (mkFlagRow fresh user "sanctions_hit" (sr_context h)
                       (JObject [("screening_id", JString (uuid_text (sr_id h)))]) "open" db_now) c)
          else Ok c
      | None => Ok c
      end;
  n ← ok_or (checked U32 (zlen (List.filter (fun f => (fr_user f =? user)%N &&
                                                    bool_decide (fr_status f = "open")) (co_flags c))))
        (Store.Invariant "AML flag count overflow");
  Ok (n, set_wcomp c w).

(** The three arms of the [union all]. *)
Definition aml_legs (user : N) (dest : string) (since : Z) (w : Wdb) : list AmlLeg :=
  omap (fun d =>
    match dp_user d with
    | Some u =>
        if (dp_created_at d >=? since) && negb (bool_decide (dp_status d = "refunded")) &&
           ((u =? user)%N || bool_decide (dp_source d = Some dest))
        then Some (mkLeg (dp_id d) u (default "deposit" (dp_source d)) (dp_amount_micro d)
                     (dp_created_at d) DepositLeg)
        else None
    | None => None
    end) (wd_deposits w) ++
  omap (fun '(_, r) =>
    if (wr_requested_at r >=? since) &&
       negb (bool_decide (cb_status (wr_combo r) = WStatus.Denied \/ cb_status (wr_combo r) = WStatus.Failed)) &&
       ((wr_user r =? user)%N || bool_decide (wr_dest r = dest))
    then Some (mkLeg (wr_id r) (wr_user r) (wr_dest r) (wr_amount_micro r) (wr_requested_at r) WithdrawalLeg)
    else None) (map_to_list (wd_rows w)) ++
  omap (fun '(_, l) =>
    match converted_at l with
    | Some at_ =>
        if (at_ >=? since) && (lot_user l =? user)%N
        then Some (mkLeg (lot_row_id l) (lot_user l) ("convert:" +:+ uuid_text (lot_row_id l)) (lot_amount l)
                     at_ WithdrawalLeg)
        else None
    | None => None
    end) (map_to_list (db_lots (fu_credits (td_funds (wd_db w))))).

Definition aml_policy (w : Wdb) : outcome StoreError (AmlPolicy * Z) :=
  let int := money_config_i64 (wd_entries w) in
  window_hours ← int "aml_structuring_window_hours";
  floor ← int "aml_structuring_floor_micro";
  threshold ← int "aml_structuring_threshold_micro";
  n ← int "aml_structuring_n";
  deposit ← int "aml_deposit_velocity_micro_24h";
  withdraw ← int "aml_withdraw_velocity_micro_24h";
  if (floor <=? 0) || (floor >=? threshold) || negb ((2 <=? n) && (n <=? 100)) ||
     negb ((1 <=? window_hours) && (window_hours <=? 168)) || (deposit <=? 0) || (withdraw <=? 0)
  then Err (Store.Invariant "invalid AML policy")
  else Ok (mkPolicy floor threshold n (window_hours * 3600) deposit withdraw, window_hours).

Definition insert_flag_once (fresh : N) (user : N) (kind : AmlKind) (label : string) (evidence : Value)
    (at_ : Z) (w : Wdb) : outcome StoreError Wdb :=
  if open_flag user (aml_kind_str kind) (wd_comp w) then Ok w else
  if existsb (fun f => (fr_id f =? fresh)%N) (co_flags (wd_comp w))
  then Err (Store.Integrity "aml_flags_pkey")
  else Ok (set_wcomp (append_flag (mkFlagRow fresh user (aml_kind_str kind) label evidence "open" at_)
             (wd_comp w)) w).

Fixpoint insert_flags (fresh : nat -> N) (i : nat) (kinds : list AmlKind) (user : N) (label : string)
    (evidence : Value) (at_ : Z) (w : Wdb) : outcome StoreError Wdb :=
  match kinds with
  | [] => Ok w
  | kind :: kinds =>
      w ← insert_flag_once (fresh i) user kind label evidence at_ w;
      insert_flags fresh (S i) kinds user label evidence at_ w
  end.

Definition evaluate_withdraw_aml_candidate (fresh : nat -> N) (id user : N) (dest : string)
    (amount_micro at_ : Z) (w : Wdb) : outcome StoreError Wdb :=
  '(policy, window_hours) ← aml_policy w;
  since ← datetime (at_ - ap_window policy);
  let candidate := mkLeg id user dest amount_micro at_ WithdrawalLeg in
  e ← evaluate_aml (aml_legs user dest since w) candidate policy;
  insert_flags fresh 0 (ae_flags e) user (text_of (show_i64 window_hours) +:+ "h")
    (JObject [("deposit_velocity", JInt (ae_deposit_velocity e)); ("leg_id", JString (uuid_text id));
              ("structuring_dest", JInt (ae_structuring_dest e));
              ("structuring_user", JInt (ae_structuring_user e));
              ("withdraw_velocity", JInt (ae_withdraw_velocity e))]) at_ w.

(** *** Receipts and fingerprints *)

Definition intent_fingerprint (user : N) (amount_micro : Z) (dest : string) : string :=
  hex_of (sha256 ("withdraw-v1|" +:+ uuid_bytes user +:+ "|" +:+ text_of (show_i64 amount_micro) +:+ "|" +:+ dest)).

Definition json_opt {A} (f : A -> Value) (o : option A) : Value :=
  match o with Some a => f a | None => JNull end.

Definition encode_receipt (r : WithdrawalReceipt) : Value :=
  JObject [("amount_micro", JInt (wc_amount_micro r));
           ("combo", json_opt JString (wc_combo r ≫= combo_label));
           ("dest", JString (wc_dest r));
           ("hold_tx_id", json_opt (fun id => JString (uuid_text id)) (wc_hold_tx r));
           ("id", json_opt (fun id => JString (uuid_text id)) (wc_id r));
           ("refuse_code", json_opt JString (wc_refuse_code r));
           ("refuse_message", json_opt JString (wc_refuse_message r));
           ("refused", JBool (wc_refused r));
           ("user", JString (uuid_text (wc_user r)))].

(** [map(parse).transpose()]. *)
Definition parse_opt {A B} (f : A -> outcome StoreError B) (o : option A) : outcome StoreError (option B) :=
  match o with Some a => b ← f a; Ok (Some b) | None => Ok None end.

Definition decode_receipt (value : Value) : outcome StoreError WithdrawalReceipt :=
  let get (k : string) : option Value := as_object_opt value ≫= field_get k in
  user ← ok_or ((get "user" ≫= as_str_opt) ≫= uuid_parse) (Store.Invariant "intent receipt user");
  id ← parse_opt (fun raw => ok_or (uuid_parse raw) (Store.Invariant "intent receipt id"))
         (get "id" ≫= as_str_opt);
  dest ← ok_or (get "dest" ≫= as_str_opt) (Store.Invariant "intent receipt dest");
  amount_micro ← ok_or (get "amount_micro" ≫= as_i64_opt) (Store.Invariant "intent receipt amount");
  combo ← parse_opt parse_combo (get "combo" ≫= as_str_opt);
  hold_tx ← parse_opt (fun raw => ok_or (uuid_parse raw) (Store.Invariant "intent receipt hold id"))
              (get "hold_tx_id" ≫= as_str_opt);
  refused ← ok_or (get "refused" ≫= as_bool_opt) (Store.Invariant "intent receipt refusal flag");
  if (amount_micro <=? 0) || Bool.eqb refused (bool_decide (is_Some id)) ||
     Bool.eqb refused (bool_decide (is_Some combo)) || Bool.eqb refused (bool_decide (is_Some hold_tx))
  then Err (Store.Invariant "intent receipt shape") else
  Ok (mkWithdrawalReceipt id user dest amount_micro combo hold_tx false refused
        (get "refuse_code" ≫= as_str_opt) (get "refuse_message" ≫= as_str_opt)).

Definition fp_key (fingerprint : string) : string := "withdraw-fp:" +:+ fingerprint.

(** The lock-free read, which casts the text to [jsonb]. *)
Definition lookup_fingerprint (fingerprint : string) (w : Wdb) : outcome StoreError (option WithdrawalReceipt) :=
  match td_fingerprints (wd_db w) !! fp_key fingerprint with
  | None => Ok None
  | Some raw =>
      value ← ok_or (from_str (text_of raw)) (Store.Backend "invalid input syntax for type json");
      r ← decode_receipt value; Ok (Some r)
  end.

Definition lookup_fingerprint_tx (fingerprint : string) (w : Wdb) :
    outcome StoreError (option WithdrawalReceipt) :=
  match td_fingerprints (wd_db w) !! fp_key fingerprint with
  | None => Ok None
  | Some raw =>
      value ← ok_or (from_str (text_of raw)) (Store.Invariant "intent receipt is not JSON");
      r ← decode_receipt value; Ok (Some r)
  end.

Definition set_fingerprint (key : string) (text : string) (w : Wdb) : Wdb :=
  set_db (save_request_fingerprint key (lit text) (wd_db w)) w.

Definition persist_intent (r : WithdrawalReceipt) (w : Wdb) : outcome StoreError Wdb :=
  let key := fp_key (intent_fingerprint (wc_user r) (wc_amount_micro r) (wc_dest r)) in
  match td_fingerprints (wd_db w) !! key with
  | Some _ => Err (Store.Conflict "withdraw intent fingerprint")
  | None => Ok (set_fingerprint key (to_string (encode_receipt r)) w)
  end.

Definition lookup_idempotency (key : string) (w : Wdb) : option string :=
  text_of <$> td_fingerprints (wd_db w) !! key.

Definition persist_idempotency (key fingerprint : string) (w : Wdb) : outcome StoreError Wdb :=
  match td_fingerprints (wd_db w) !! key with
  | Some existing =>
      if bool_decide (text_of existing = fingerprint) then Ok w
      else Err (Store.Conflict "withdraw idempotency key")
  | None => Ok (set_fingerprint key fingerprint w)
  end.

(** *** Rows *)

(** [withdrawals_combination_check] and the check of the amount. *)
Definition row_check (r : WithdrawalRow) : bool :=
  let s := cb_status (wr_combo r) in
  let released := bool_decide (is_Some (wr_release_tx r)) in
  let settled := bool_decide (is_Some (wr_settle_tx r)) in
  is_legal (wr_combo r) && negb (released && settled) &&
  Bool.eqb (bool_decide (s = WStatus.Settled)) settled &&
  Bool.eqb (bool_decide (s = WStatus.Denied \/ s = WStatus.Failed)) released && (wr_amount_micro r >? 0).

Definition insert_withdrawal (r : WithdrawalRow) (w : Wdb) : outcome StoreError Wdb :=
  if bool_decide (is_Some (wd_rows w !! wr_id r)) then Err (Store.Integrity "withdrawals_pkey") else
  if negb (row_check r) then Err (Store.Integrity "withdrawals_combination_check") else
  Ok (set_rows (<[wr_id r := r]> (wd_rows w)) w).

(** The reasons are stored as JSON. *)
Definition reasons_of_json (v : Value) : outcome StoreError (list string) :=
  items ← ok_or (as_array_opt v) (Store.Invariant "withdrawal risk reasons are not an array");
  foldM (fun acc item => s ← ok_or (as_str_opt item) (Store.Invariant "withdrawal risk reason is not text");
                         Ok (acc ++ [s])) [] items.

Definition row_from_pg (r : WithdrawalRow) : outcome StoreError WithdrawalRow :=
  reasons ← reasons_of_json (JArray (map JString (wr_risk_reasons r)));
  combo ← checked_combo (w_status_name (cb_status (wr_combo r))) (review_name (cb_review (wr_combo r)))
            (send_name (cb_send (wr_combo r)));
  Ok (with_reasons reasons (with_combo combo r)).

Definition withdrawal_user (id : N) (w : Wdb) : outcome StoreError N :=
  ok_or (wr_user <$> wd_rows w !! id) (Store.NotFound "withdrawal").

Definition withdrawal_for_update (id : N) (w : Wdb) : outcome StoreError WithdrawalRow :=
  r ← ok_or (wd_rows w !! id) (Store.NotFound "withdrawal");
  row_from_pg r.

(** The columns the compare-and-set writes; the rest are the stored row's. *)
Definition cas_columns (next stored : WithdrawalRow) : WithdrawalRow :=
  mkWithdrawal (wr_id stored) (wr_user stored) (wr_dest stored) (wr_amount_micro stored) (wr_combo next)
    (wr_hold_tx stored) (wr_release_tx next) (wr_settle_tx next) (wr_fingerprint stored)
    (wr_risk_reasons next) (wr_requested_at stored) (wr_decided_at next) (wr_sent_at next)
    (wr_settled_at next).

Definition cas_withdrawal (id : N) (expected : Combo) (next : WithdrawalRow) (w : Wdb) :
    outcome StoreError (bool * Wdb) :=
  match wd_rows w !! id with
  | Some stored =>
      if bool_decide (wr_combo stored = expected) then
        let r := cas_columns next stored in
        if negb (row_check r) then Err (Store.Integrity "withdrawals_combination_check")
        else Ok (true, set_rows (<[id := r]> (wd_rows w)) w)
      else Ok (false, w)
  | None => Ok (false, w)
  end.

Definition append_withdrawal_event (db_now : Z) (id : N) (kind actor : string) (payload : Value) (w : Wdb) : Wdb :=
  set_events (wd_events w ++ [mkWithdrawalEvent id kind actor db_now payload]) w.

Definition record_event (e : Event) (w : Wdb) : Wdb :=
  set_db (set_ops (outbox_append e (td_ops (wd_db w))) (wd_db w)) w.

Definition withdraw_audit (a : option AdminAction) (w : Wdb) : Wdb :=
  match a with Some a => set_wcomp (admin_audit a (wd_comp w)) w | None => w end.

Definition list_withdrawals (w : Wdb) : outcome StoreError (list WithdrawalRow) :=
  foldM (fun acc r => r ← row_from_pg r; Ok (acc ++ [r])) [] (map_to_list (wd_rows w)).*2.

(** *** Sums over the window *)

Definition in_window (since : Z) (r : WithdrawalRow) : bool :=
  (wr_requested_at r >=? since) &&
  negb (bool_decide (cb_status (wr_combo r) = WStatus.Denied \/ cb_status (wr_combo r) = WStatus.Failed)).

Definition amount_where (p : WithdrawalRow -> bool) (w : Wdb) : Z :=
  msum (fun _ r => if p r then wr_amount_micro r else 0) (wd_rows w).

Definition window_sum_user (user : N) (since : Z) (w : Wdb) : outcome StoreError Z :=
  bigint (amount_where (fun r => (wr_user r =? user)%N && in_window since r) w).

Definition window_sum_dest (dest : string) (since : Z) (w : Wdb) : outcome StoreError Z :=
  bigint (amount_where (fun r => bool_decide (wr_dest r = dest) && in_window since r) w).

Definition window_sum_hot (since : Z) (w : Wdb) : outcome StoreError Z :=
  bigint (amount_where (in_window since) w).

Definition settled_to (dest : string) (r : WithdrawalRow) : bool :=
  bool_decide (wr_dest r = dest) && bool_decide (cb_status (wr_combo r) = WStatus.Settled).

Definition min_opt (l : list Z) : option Z :=
  match l with [] => None | x :: l => Some (fold_left Z.min l x) end.

Definition dest_warmth (dest : string) (w : Wdb) : outcome StoreError DestWarmth :=
  lim ← limits w;
  let counted r := settled_to dest r && (wr_amount_micro r >=? min_micro lim) in
  settled ← bigint (amount_where counted w);
  let rows := List.filter counted (map_to_list (wd_rows w)).*2 in
  let first := min_opt (omap wr_settled_at rows) in
  users ← ok_or (checked U32 (Z.of_nat (length (remove_dups (map wr_user rows)))))
            (Store.Invariant "destination user count overflow");
  let is_refund_dest :=
    existsb (fun p => bool_decide (op_subject p = DepositRefund) && bool_decide (op_dest p = dest))
      (ob_payments (wd_outbound w)) ||
    existsb (fun d => bool_decide (dp_source d = Some dest)) (wd_deposits w) in
  Ok (mkWarmth settled first users is_refund_dest).

Definition dest_was_settled_for_user (user : N) (dest : string) (w : Wdb) : bool :=
  existsb (fun r => (wr_user r =? user)%N && settled_to dest r) (map_to_list (wd_rows w)).*2.

Definition dest_is_observation_source_for_user (user : N) (dest : string) (w : Wdb) : bool :=
  existsb (fun d => bool_decide (dp_user d = Some user) && bool_decide (dp_source d = Some dest) &&
                    bool_decide (is_Some (dp_machine_status d))) (wd_deposits w).

(** *** Ledger legs *)

Definition owner_account (fresh : N) (owner : OwnerRef) (led : PgLedger) : outcome StoreError (PgLedger * N) :=
  match account fresh led owner Usdc with
  | Err (Store.Invariant _) => Err (Store.Backend "no rows returned")
  | r => r
  end.

Definition two_leg (fresh : N) (key : string) (kind : TxnKind) (a : N) (a_amt : Z) (b : N) (b_amt : Z)
    (led : PgLedger) : outcome StoreError (PgLedger * N) :=
  match txn_by_key led key with
  | Some _ => Err Store.DuplicateKey
  | None =>
      if existsb (fun t => (txn_id t =? fresh)%N) (pg_txns led)
      then Err (Store.Integrity "ledger_transactions_pkey") else
      if (a_amt =? 0) || (b_amt =? 0) then Err (Store.Integrity "ledger_entries_amount_micro_check") else
      Ok ({| pg_accounts := pg_accounts led;
             pg_txns := pg_txns led ++ [{| txn_id := fresh; txn_kind := kind; txn_key := key |}];
             pg_entries := pg_entries led ++
               [{| entry_txn := fresh; entry_account := a; entry_amount := a_amt |};
                {| entry_txn := fresh; entry_account := b; entry_amount := b_amt |}] |}, fresh)
  end.

(** Generated identifiers of one leg: the two accounts and the transaction. *)
Record LegIds := mkLegIds { li_from : N; li_to : N; li_txn : N }.

Definition transfer (ids : LegIds) (from to : OwnerRef) (kind : TxnKind) (amount : Z) (key : string) (w : Wdb) :
    outcome StoreError (N * Wdb) :=
  '(led, a) ← owner_account (li_from ids) from (wd_ledger w);
  '(led, b) ← owner_account (li_to ids) to led;
  debit ← arith I64 (- amount);
  '(led, txn) ← two_leg (li_txn ids) key kind a debit b amount led;
  Ok (txn, set_wledger led w).

Definition apply_hold (ids : LegIds) (user : N) (amount : Z) (key : string) : Wdb -> outcome StoreError (N * Wdb) :=
  transfer ids (Ref.User user) Ref.Withheld Withdrawal amount key.

Definition apply_release (ids : LegIds) (user : N) (amount : Z) (key : string) : Wdb -> outcome StoreError (N * Wdb) :=
  transfer ids Ref.Withheld (Ref.User user) Reversal amount key.

Definition apply_settle (ids : LegIds) (amount : Z) (key : string) : Wdb -> outcome StoreError (N * Wdb) :=
  transfer ids Ref.Withheld Ref.External Withdrawal amount key.

(** Opens the account it reads. *)
Definition owner_balance (fresh : N) (owner : OwnerRef) (negative : string) (w : Wdb) :
    outcome StoreError (Z * Wdb) :=
  '(led, id) ← owner_account fresh owner (wd_ledger w);
  bal ← bigint (entry_sum led id);
  if bal <? 0 then Err (Store.Invariant negative) else Ok (bal, set_wledger led w).

Definition user_cash (fresh : N) (user : N) : Wdb -> outcome StoreError (Z * Wdb) :=
  owner_balance fresh (Ref.User user) "user cash account is negative".

Definition withheld_balance (fresh : N) : Wdb -> outcome StoreError (Z * Wdb) :=
  owner_balance fresh Ref.Withheld "withheld account is negative".

(** ** Request, [withdraw_request.rs] *)

Definition geo_context (fingerprint : string) : string := "geo:withdraw:" +:+ fingerprint.

Definition is_fresh_clear (verdict : option ScreenVerdict) (now : Z) : bool :=
  match verdict with
  | Some (Clear checked_at expires_at version) =>
      (checked_at <=? now) && (expires_at >? now) && negb (empty_text version)
  | _ => false
  end.

Definition idempotency_slot (user : N) (client_key : string) : string :=
  "withdraw-idem:" +:+ uuid_text user +:+ ":" +:+ client_key.

Definition is_self_exclusion_egress (user : N) (dest : string) (w : Wdb) : bool :=
  dest_was_settled_for_user user dest w || dest_is_observation_source_for_user user dest w.

(** [geo] and [sanctions]: the answer of the provider, [None] for an error. *)
Definition screen_geo (geo : IpAddr -> option ScreenVerdict) (ip : option IpAddr) : option ScreenVerdict :=
  match ip with None => Some Indeterminate | Some ip => geo ip end.

Definition refusal (user : N) (dest : string) (amount : Z) (code message : string) : WithdrawalReceipt :=
  mkWithdrawalReceipt None user dest amount None None false true (Some code) (Some message).

Definition persist_idemp (cmd : RequestWithdrawCmd) (fingerprint : string) (w : Wdb) : outcome AppError Wdb :=
  match rq_idempotency_key cmd with
  | Some key => store (persist_idempotency (idempotency_slot (rq_user cmd) key) fingerprint w)
  | None => Ok w
  end.

(** Every refusal stores its receipt under the fingerprint. *)
Definition refuse (cmd : RequestWithdrawCmd) (dest fingerprint code message : string) (w : Wdb) :
    outcome AppError (WithdrawalReceipt * Wdb) :=
  let receipt := refusal (rq_user cmd) dest (rq_amount_micro cmd) code message in
  w ← store (persist_intent receipt w);
  w ← persist_idemp cmd fingerprint w;
  Ok (receipt, w).

Record RequestIds := mkRequestIds {
  ri_geo : N; ri_sanctions : N; ri_convert : nat -> N; ri_cash : N; ri_withdrawal : N;
  ri_aml : nat -> N; ri_flag : N; ri_hold : LegIds }.

Definition persist_remote (ids : RequestIds) (db_now : Z) (cmd : RequestWithdrawCmd) (fingerprint : string)
    (geo sanctions : option ScreenVerdict) (w : Wdb) : outcome AppError Wdb :=
  w ← store (persist_screening (ri_geo ids) db_now (rq_user cmd) (geo_context fingerprint)
               (default Indeterminate geo) w);
  store (persist_screening (ri_sanctions ids) db_now (rq_user cmd) "withdraw" (default Indeterminate sanctions) w).

Definition remote_refusal (geo sanctions : option ScreenVerdict) : option (string * string) :=
  if bool_decide (geo = None) then Some ("geo_unavailable", "geo screening unavailable")
  else if bool_decide (sanctions = None) then Some ("sanctions_unavailable", "sanctions screening unavailable")
  else None.

Definition admission_refusal (cmd : RequestWithdrawCmd) (l : WithdrawLimits) (view : UserMoneyView) :
    option (string * string) :=
  if pause_withdrawals l then Some ("paused", "withdrawals are paused")
  else if bool_decide (mv_status view = Banned) then Some ("banned", "account is banned")
  else if mv_kyc_tier view <? withdraw_kyc_tier l then Some ("kyc", "kyc tier too low")
  else if (rq_amount_micro cmd <? min_micro l) || (rq_amount_micro cmd >? max_micro l)
  then Some ("amount", "amount outside per-tx bounds")
  else if bool_decide (rq_client_ip cmd = None) then Some ("geo_missing_ip", "client ip is required")
  else None.

Definition within_limits (cmd : RequestWithdrawCmd) (dest : string) (l : WithdrawLimits) (since : Z) (w : Wdb) :
    outcome AppError bool :=
  user_sum ← store (window_sum_user (rq_user cmd) since w);
  dest_sum ← store (window_sum_dest dest since w);
  hot_sum ← store (window_sum_hot since w);
  Ok ((saturate I64 (user_sum + rq_amount_micro cmd) <=? daily_micro l) &&
      (saturate I64 (dest_sum + rq_amount_micro cmd) <=? dest_daily_micro l) &&
      (saturate I64 (hot_sum + rq_amount_micro cmd) <=? hot_daily_micro l)).

Definition push (b : bool) (reason : string) : list string := if b then [reason] else [].

(** The reasons that do not depend on the account's status. *)
Definition screening_reasons (flags : Z) (user : N) (dest fingerprint : string) (l : WithdrawLimits)
    (excluded_until : option Z) (now : Z) (w : Wdb) : outcome AppError (list string) :=
  let sanctions := latest_screening user "withdraw" w in
  let geo := latest_screening user (geo_context fingerprint) w in
  warmth ← store (dest_warmth dest w);
  warm ← is_warm warmth l now;
  let excluded := match excluded_until with Some until => until >? now | None => false end in
  Ok (push (flags >? 0) "aml_open" ++
      push (negb (is_fresh_clear sanctions now)) "sanctions_not_clear" ++
      push (negb (is_fresh_clear geo now)) "geo_not_clear" ++
      push (negb warm) "dest_not_warm" ++
      push (dw_distinct_users warmth >=? 2) "dest_shared" ++
      push (dw_is_refund_dest warmth) "dest_is_refund" ++
      push (excluded && negb (is_self_exclusion_egress user dest w)) "self_exclusion_new_dest").

Definition current_reasons (fresh : N) (db_now : Z) (cmd : RequestWithdrawCmd) (dest fingerprint : string)
    (l : WithdrawLimits) (view : UserMoneyView) (now : Z) (w : Wdb) : outcome AppError (list string * Wdb) :=
  '(flags, w) ← store (open_aml_flag_count fresh db_now (rq_user cmd) w);
  rest ← screening_reasons flags (rq_user cmd) dest fingerprint l (mv_excluded_until view) now w;
  Ok (push (rq_amount_micro cmd >=? auto_approve_micro l) "amount_ge_auto" ++
      push (rq_amount_micro cmd >=? dual_control_micro l) "amount_ge_dual" ++
      push (bool_decide (mv_status view = ShadowLimited)) "shadow_limited" ++ rest, w).

Definition hold_and_insert (ids : RequestIds) (db_now now : Z) (cmd : RequestWithdrawCmd)
    (dest fingerprint : string) (l : WithdrawLimits) (view : UserMoneyView) (w : Wdb) :
    outcome AppError (WithdrawalReceipt * Wdb) :=
  let id := ri_withdrawal ids in
  w ← store (evaluate_withdraw_aml_candidate (ri_aml ids) id (rq_user cmd) dest (rq_amount_micro cmd) now w);
  '(reasons, w) ← current_reasons (ri_flag ids) db_now cmd dest fingerprint l view now w;
  '(hold_tx, w) ← store (apply_hold (ri_hold ids) (rq_user cmd) (rq_amount_micro cmd)
                           ("withdraw-hold:" +:+ fingerprint) w);
  let row := mkWithdrawal id (rq_user cmd) dest (rq_amount_micro cmd) W1 hold_tx None None fingerprint reasons
               now None None None in
  w ← store (insert_withdrawal row w);
  let w := append_withdrawal_event db_now id "insert" "machine" (JObject [("combo", JString "W1")]) w in
  let w := record_event (mkEvent "WithdrawalRequested" "withdrawal" id
     (JObject [("amount_micro", JInt (rq_amount_micro cmd)); ("dest", JString dest);
               ("user_id", JString (uuid_text (rq_user cmd)))])) w in
  let receipt := mkWithdrawalReceipt (Some id) (rq_user cmd) dest (rq_amount_micro cmd) (Some W1) (Some hold_tx)
                   false false None None in
  w ← store (persist_intent receipt w);
  w ← persist_idemp cmd fingerprint w;
  Ok (receipt, w).

Definition revalidate_and_hold (ids : RequestIds) (db_now now : Z) (cmd : RequestWithdrawCmd)
    (dest fingerprint : string) (w : Wdb) : outcome AppError (WithdrawalReceipt * Wdb) :=
  l ← store (limits w);
  view ← store (user_money_view db_now (rq_user cmd) w);
  match admission_refusal cmd l view with
  | Some (code, message) => refuse cmd dest fingerprint code message w
  | None =>
      '(cash, w) ← store (user_cash (ri_cash ids) (rq_user cmd) w);
      if cash <? rq_amount_micro cmd
      then refuse cmd dest fingerprint "insufficient_funds" "insufficient available cash" w else
      since ← datetime (now - 86400);
      ok ← within_limits cmd dest l since w;
      if negb ok then refuse cmd dest fingerprint "limit" "withdrawal exceeds daily or destination cap" w
      else hold_and_insert ids db_now now cmd dest fingerprint l view w
  end.

Definition with_replayed (r : WithdrawalReceipt) : WithdrawalReceipt :=
  mkWithdrawalReceipt (wc_id r) (wc_user r) (wc_dest r) (wc_amount_micro r) (wc_combo r) (wc_hold_tx r) true
    (wc_refused r) (wc_refuse_code r) (wc_refuse_message r).

(** The key a client supplied must not name another intent. *)
Definition idempotency_agrees (cmd : RequestWithdrawCmd) (fingerprint : string) (w : Wdb) : bool :=
  match rq_idempotency_key cmd ≫= fun key => lookup_idempotency (idempotency_slot (rq_user cmd) key) w with
  | Some existing => bool_decide (existing = fingerprint)
  | None => true
  end.

(** The locked part; a replay writes nothing. *)
Definition request_tx (ids : RequestIds) (db_now now : Z) (cmd : RequestWithdrawCmd) (dest fingerprint : string)
    (geo sanctions : option ScreenVerdict) (w : Wdb) : outcome AppError (WithdrawalReceipt * Wdb) :=
  hit ← store (lookup_fingerprint_tx fingerprint w);
  match hit with
  | Some hit => Ok (with_replayed hit, w)
  | None =>
      if negb (idempotency_agrees cmd fingerprint w) then Err App.IdempotencyConflict else
      w ← persist_remote ids db_now cmd fingerprint geo sanctions w;
      match remote_refusal geo sanctions with
      | Some (code, message) => refuse cmd dest fingerprint code message w
      | None =>
          '(_, f) ← convert_then_collect (ri_convert ids) (rq_user cmd) now
                      ("withdraw-lock:" +:+ fingerprint) (td_funds (wd_db w));
          revalidate_and_hold ids db_now now cmd dest fingerprint (set_db (set_funds f (wd_db w)) w)
      end
  end.

(** [w0]: the state at the lock-free lookup. *)
Definition request_withdraw (ids : RequestIds) (db_now now : Z) (cmd : RequestWithdrawCmd)
    (geo : IpAddr -> option ScreenVerdict) (sanctions : option ScreenVerdict) (w0 w : Wdb) :
    outcome AppError WithdrawalReceipt * Wdb :=
  atomic w
    (dest ← ok_or (canonicalize_dest (rq_dest cmd))
              (App.ConfigInvalid "dest" "dest must be a 32-byte solana pubkey");
     if rq_amount_micro cmd <=? 0 then Err App.InsufficientFunds else
     let fingerprint := intent_fingerprint (rq_user cmd) (rq_amount_micro cmd) dest in
     hit ← store (lookup_fingerprint fingerprint w0);
     match hit with
     | Some hit => Ok (with_replayed hit, w)
     | None => request_tx ids db_now now cmd dest fingerprint (screen_geo geo (rq_client_ip cmd)) sanctions w
     end).

(** ** Decision, [withdraw_decide.rs] *)

Definition APPROVE_KIND : string := "approve_withdrawal".
Definition DUAL_DELAY : Z := 900.
Definition CONFIRM_WINDOW : Z := 900.

Definition require_machine (actor : AdminContext) : outcome AppError unit :=
  match actor with Machine => Ok tt | Admin _ _ => Err (App.AdminForbidden "machine actor required") end.

Definition require_finance (actor : AdminContext) : outcome AppError unit :=
  match actor with
  | Admin _ Finance => Ok tt
  | _ => Err (App.AdminForbidden "finance role required")
  end.

Definition require_finance_or_super (actor : AdminContext) : outcome AppError unit :=
  match actor with
  | Admin _ (Finance | Superadmin) => Ok tt
  | _ => Err (App.AdminForbidden "finance or superadmin role required")
  end.

Definition principal_digest (actor : AdminContext) : outcome AppError string :=
  match actor with
  | Admin token_digest _ => Ok token_digest
  | Machine => Err (App.ProposalConflict "machine actor")
  end.

Definition hard_gate (reason : string) : bool :=
  existsb (fun g => bool_decide (g = reason))
    ["withdrawals_paused"; "banned"; "kyc_not_eligible"; "aml_open"; "sanctions_not_clear"; "geo_not_clear";
     "self_exclusion_new_dest"].

Definition has_reason (reason : string) (r : WithdrawalRow) : bool :=
  existsb (fun e => bool_decide (e = reason)) (wr_risk_reasons r).

Definition withdraw_payload_hash (id : N) (amount : Z) : string :=
  hex_of (sha256 (uuid_bytes id +:+ le_bytes 8 amount)).

(** The compare-and-set with its event and outbox row. *)
Definition cas_with (event_type kind actor : string) (payload : Value) (db_now : Z) (from : Combo)
    (row : WithdrawalRow) (w : Wdb) : outcome AppError Wdb :=
  '(swapped, w) ← store (cas_withdrawal (wr_id row) from row w);
  if negb swapped then Err App.IllegalTransition else
  let w := append_withdrawal_event db_now (wr_id row) kind actor payload w in
  Ok (record_event (mkEvent event_type "withdrawal" (wr_id row)
        (JObject [("to", json_opt JString (combo_label (wr_combo row)))])) w).

Definition to_label (row : WithdrawalRow) : Value :=
  JObject [("to", json_opt JString (combo_label (wr_combo row)))].

Definition decide_cas (db_now : Z) (from : Combo) (row : WithdrawalRow) (actor : string) (w : Wdb) :
    outcome AppError (WithdrawalRow * Wdb) :=
  w ← cas_with "WithdrawalDecided" "cas" actor
        (JObject [("from", json_opt JString (combo_label from));
                  ("to", json_opt JString (combo_label (wr_combo row)))]) db_now from row w;
  Ok (row, w).

Definition live_reasons (fresh : N) (db_now : Z) (row : WithdrawalRow) (l : WithdrawLimits) (view : UserMoneyView)
    (now : Z) (w : Wdb) : outcome AppError (list string * Wdb) :=
  '(flags, w) ← store (open_aml_flag_count fresh db_now (wr_user row) w);
  rest ← screening_reasons flags (wr_user row) (wr_dest row) (wr_fingerprint row) l (mv_excluded_until view) now w;
  Ok (push (pause_withdrawals l) "withdrawals_paused" ++
      push (wr_amount_micro row >=? auto_approve_micro l) "amount_ge_auto" ++
      push (wr_amount_micro row >=? dual_control_micro l) "amount_ge_dual" ++
      match mv_status view with Banned => ["banned"] | ShadowLimited => ["shadow_limited"] | Active => [] end ++
      push (mv_kyc_tier view <? withdraw_kyc_tier l) "kyc_not_eligible" ++ rest, w).

Definition decide_machine (fresh : N) (db_now now : Z) (row : WithdrawalRow) (w : Wdb) :
    outcome AppError (WithdrawalRow * Wdb) :=
  if negb (bool_decide (wr_combo row = W1)) then Err App.IllegalTransition else
  l ← store (limits w);
  view ← store (user_money_view db_now (wr_user row) w);
  '(current, w) ← live_reasons fresh db_now row l view now w;
  let tightened := union_reasons (wr_risk_reasons row) current in
  let target := if blocks_auto_approve tightened then W4 else W2 in
  decide_cas db_now W1 (with_combo target (with_decided now (with_reasons tightened row))) "machine" w.

(** Sums the amounts of the [finance-approve] events. *)
Definition finance_approve_sum_since (since : Z) (w : Wdb) : outcome StoreError Z :=
  amounts ← foldM (fun acc e =>
    if bool_decide (we_kind e = "finance-approve") && (we_at e >=? since) then
      match (as_object_opt (we_payload e) ≫= field_get "amount_micro") with
      | Some (JInt z) => z ← bigint z; Ok (acc + z)
      | _ => Err (Store.Backend "invalid input syntax for type bigint")
      end
    else Ok acc) 0 (wd_events w);
  bigint amounts.

Definition consume_approval_cap (db_now now : Z) (row : WithdrawalRow) (l : WithdrawLimits) (w : Wdb) :
    outcome AppError Wdb :=
  since ← datetime (now - 86400);
  used ← store (finance_approve_sum_since since w);
  if saturate I64 (used + wr_amount_micro row) >? approve_daily_cap_micro l
  then Err (App.AdminForbidden "daily finance-approve cap")
  else Ok (append_withdrawal_event db_now (wr_id row) "finance-approve" "finance"
             (JObject [("amount_micro", JInt (wr_amount_micro row))]) w).

Definition subject_of (id : N) : string := "withdrawal:" +:+ uuid_text id.

Definition finance_approve (fresh : N) (db_now now : Z) (row : WithdrawalRow) (actor : AdminContext)
    (reason : string) (w : Wdb) : outcome AppError (WithdrawalRow * Wdb) :=
  _ ← require_finance actor;
  _ ← require_reason reason;
  if negb (bool_decide (wr_combo row = W4)) then Err App.IllegalTransition else
  l ← store (limits w);
  if (wr_amount_micro row >=? dual_control_micro l) || has_reason "amount_ge_dual" row
  then Err (App.AdminForbidden "amount requires dual-control proposal") else
  view ← store (user_money_view db_now (wr_user row) w);
  '(live, w) ← live_reasons fresh db_now row l view now w;
  if existsb hard_gate live || existsb hard_gate (wr_risk_reasons row)
  then Err (App.AdminForbidden "compliance-held withdrawal requires separate clearance") else
  let row := with_reasons (union_reasons (wr_risk_reasons row) live) row in
  w ← consume_approval_cap db_now now row l w;
  let w := withdraw_audit (audit_for actor "withdraw_finance_approve" (subject_of (wr_id row)) None
             (Some (JObject [("to", JString "W2")])) (Some reason)) w in
  decide_cas db_now W4 (with_decided now (with_combo W2 row)) "finance" w.

Definition open_proposal_for (subject : N) (kind : string) (w : Wdb) : option MoneyProposal :=
  List.find (fun p => (mp_subject_id p =? subject)%N && bool_decide (mp_kind p = kind) &&
                      bool_decide (mp_status p = Pending)) (co_proposals (wd_comp w)).

(** The insert with the indexes and checks of [money_command_proposals];
    [created_at] is the database clock. *)
Definition insert_money_proposal (p : MoneyProposal) (w : Wdb) : outcome StoreError Wdb :=
  match proposal_insert p (wd_comp w) with
  | Ok c => if mp_expires_at p >? mp_confirm_not_before p then Ok (set_wcomp c w)
            else Err (Store.Integrity "money_command_proposals_check")
  | Err _ => Err (Store.Integrity "money_command_proposals")
  | Panic => Panic
  end.

Definition set_proposals (l : list MoneyProposal) (c : ComplianceDb) : ComplianceDb :=
  mkCompliance (co_users c) (co_screenings c) (co_exclusions c) (co_limits c) (co_flags c) l
    (co_decisions c) (co_audit c).

(** Updates the pending row of this id, under the check that principals differ. *)
Definition save_money_proposal (id : N) (status : ProposalStatus) (confirmer : option string) (w : Wdb) :
    outcome StoreError Wdb :=
  let c := wd_comp w in
  let hit p := (mp_id p =? id)%N && bool_decide (mp_status p = Pending) in
  if existsb (fun p => hit p && bool_decide (confirmer = Some (mp_proposer_token_id p))) (co_proposals c)
  then Err (Store.Integrity "money_command_proposals_check1") else
  if existsb hit (co_proposals c) then
    Ok (set_wcomp (set_proposals (map (fun p => if hit p then
      mkMoneyProposal (mp_id p) (mp_kind p) (mp_subject_id p) (mp_payload_hash p) (mp_proposer_token_id p)
        confirmer (mp_reason p) status (mp_confirm_not_before p) (mp_expires_at p) (mp_replay_key p)
        (mp_created_at p) else p) (co_proposals c)) c) w)
  else Err (Store.Conflict "money proposal changed").

Definition propose_dual (fresh : N) (db_now now : Z) (row : WithdrawalRow) (actor : AdminContext)
    (reason : string) (w : Wdb) : outcome AppError (WithdrawalRow * Wdb) :=
  _ ← require_finance actor;
  _ ← require_reason reason;
  digest ← principal_digest actor;
  if bool_decide (wr_combo row = W5) then
    existing ← ok_or (open_proposal_for (wr_id row) APPROVE_KIND w) (App.ProposalConflict "no open proposal");
    if bool_decide (mp_kind existing = APPROVE_KIND) && (mp_subject_id existing =? wr_id row)%N &&
       bool_decide (mp_payload_hash existing = withdraw_payload_hash (wr_id row) (wr_amount_micro row)) &&
       bool_decide (mp_proposer_token_id existing = digest) && bool_decide (mp_reason existing = reason)
    then Ok (row, w) else Err (App.ProposalConflict "proposal payload mismatch")
  else
  if negb (bool_decide (wr_combo row = W4)) then Err App.IllegalTransition else
  confirm_not_before ← datetime (now + DUAL_DELAY);
  expires_at ← datetime (confirm_not_before + CONFIRM_WINDOW);
  let proposal := mkMoneyProposal fresh APPROVE_KIND (wr_id row)
    (withdraw_payload_hash (wr_id row) (wr_amount_micro row)) digest None reason Pending confirm_not_before
    expires_at ("approve-withdrawal:" +:+ uuid_text fresh) db_now in
  w ← store (insert_money_proposal proposal w);
  let w := withdraw_audit (audit_for actor "withdraw_propose_dual" (subject_of (wr_id row)) None
             (Some (JObject [("proposal", JString (uuid_text fresh))])) (Some reason)) w in
  decide_cas db_now W4 (with_combo W5 row) "propose-dual" w.

Definition confirm_dual (fresh : N) (db_now now : Z) (row : WithdrawalRow) (actor : AdminContext) (w : Wdb) :
    outcome AppError (WithdrawalRow * Wdb) :=
  _ ← require_finance_or_super actor;
  if negb (bool_decide (wr_combo row = W5)) then Err App.IllegalTransition else
  confirmer ← principal_digest actor;
  p ← ok_or (open_proposal_for (wr_id row) APPROVE_KIND w) (App.ProposalConflict "no open proposal");
  if bool_decide (confirmer = mp_proposer_token_id p)
  then Err (App.AdminForbidden "confirming token must be distinct") else
  if now <? mp_confirm_not_before p then Err (App.ProposalConflict "delay has not elapsed") else
  if now >=? mp_expires_at p then Err (App.ProposalConflict "proposal expired") else
  if negb (bool_decide (mp_kind p = APPROVE_KIND)) ||
     negb (bool_decide (mp_payload_hash p = withdraw_payload_hash (wr_id row) (wr_amount_micro row))) ||
     negb (bool_decide (mp_replay_key p = "approve-withdrawal:" +:+ uuid_text (mp_id p)))
  then Err (App.ProposalConflict "proposal payload mismatch") else
  l ← store (limits w);
  view ← store (user_money_view db_now (wr_user row) w);
  '(live, w) ← live_reasons fresh db_now row l view now w;
  if existsb hard_gate live then Err (App.AdminForbidden "current money gate blocks approval") else
  let row := with_reasons (union_reasons (wr_risk_reasons row) live) row in
  w ← consume_approval_cap db_now now row l w;
  w ← store (save_money_proposal (mp_id p) Confirmed (Some confirmer) w);
  let w := withdraw_audit (audit_for actor "withdraw_confirm_dual" (subject_of (wr_id row)) None
             (Some (JObject [("proposal", JString (uuid_text (mp_id p)))])) (Some (mp_reason p))) w in
  decide_cas db_now W5 (with_decided now (with_combo W2 row)) "confirm-dual" w.

Definition expire_proposal (db_now now : Z) (row : WithdrawalRow) (w : Wdb) :
    outcome AppError (WithdrawalRow * Wdb) :=
  if negb (bool_decide (wr_combo row = W5)) then Err App.IllegalTransition else
  p ← ok_or (open_proposal_for (wr_id row) APPROVE_KIND w) (App.ProposalConflict "no open proposal");
  if now <? mp_expires_at p then Err (App.ProposalConflict "proposal has not expired") else
  w ← store (save_money_proposal (mp_id p) Expired (mp_confirmer_token_id p) w);
  decide_cas db_now W5 (with_combo W4 row) "expire-proposal" w.

Definition release_key (id : N) : string := "withdraw-release:" +:+ uuid_text id.
Definition settle_key (id : N) : string := "withdraw-settle:" +:+ uuid_text id.

Definition deny (ids : LegIds) (db_now now : Z) (row : WithdrawalRow) (actor : AdminContext) (reason : string)
    (w : Wdb) : outcome AppError (WithdrawalRow * Wdb) :=
  _ ← require_finance actor;
  _ ← require_reason reason;
  target ← ok_or (deny_target (wr_combo row)) App.IllegalTransition;
  let from := wr_combo row in
  '(release, w) ← store (apply_release ids (wr_user row) (wr_amount_micro row) (release_key (wr_id row)) w);
  let row := with_decided now (with_combo target (with_release release row)) in
  let w := withdraw_audit (audit_for actor "withdraw_deny" (subject_of (wr_id row)) None
             (Some (JObject [("reason", JString reason)])) (Some reason)) w in
  w ← match open_proposal_for (wr_id row) APPROVE_KIND w with
      | Some p => store (save_money_proposal (mp_id p) Rejected (mp_confirmer_token_id p) w)
      | None => Ok w
      end;
  decide_cas db_now from row "deny" w.

Record DecideIds := mkDecideIds { di_flag : N; di_proposal : N; di_release : LegIds }.

(** The owner read before the lock must still be the row's. *)
Definition locked_row (id user : N) (w : Wdb) : outcome AppError WithdrawalRow :=
  row ← store (withdrawal_for_update id w);
  if negb (wr_user row =? user)%N
  then Err (App.Store (Store.Invariant "withdrawal owner changed after user lock")) else Ok row.

Definition decide_withdraw (ids : DecideIds) (db_now now : Z) (actor : AdminContext) (id : N) (cmd : DecideCmd)
    (w0 w : Wdb) : outcome AppError WithdrawalRow * Wdb :=
  atomic w
    (user ← store (withdrawal_user id w0);
     row ← locked_row id user w;
     match cmd with
     | DecideMachine => _ ← require_machine actor; decide_machine (di_flag ids) db_now now row w
     | FinanceApprove reason => finance_approve (di_flag ids) db_now now row actor reason w
     | ProposeDual reason => propose_dual (di_proposal ids) db_now now row actor reason w
     | ConfirmDual => confirm_dual (di_flag ids) db_now now row actor w
     | ExpireProposal => _ ← require_machine actor; expire_proposal db_now now row w
     | Deny reason => deny (di_release ids) db_now now row actor reason w
     end).

(** ** Sending, [withdraw_send.rs] *)

Definition LEASE : Z := 30.

Inductive SignaturePresence := Present | Absent | PresenceUnknown.

#[export] Instance SignaturePresence_eq_dec : EqDecision SignaturePresence.
Proof. solve_decision. Defined.

(** The answers of the signer and of the chain to one call. *)
Record SignerView := mkSigner {
  sg_sign : outcome StoreError (list Z * string * Z);
  sg_lookup : string -> outcome StoreError SignaturePresence;
  sg_height : outcome StoreError Z }.

(** What remains to be done after the commit. *)
Inductive SendStage :=
| SendDone (row : WithdrawalRow)
| SendBroadcast (payment : OutboundPaymentRow) (row : WithdrawalRow) (expected : Combo)
| SendRebroadcast (payment : OutboundPaymentRow) (attempt : OutboundAttemptRow) (row : WithdrawalRow)
    (expected : option Combo).

Definition ensure_payment_matches (identity : RailIdentity) (payment : OutboundPaymentRow) (row : WithdrawalRow) :
    outcome AppError unit :=
  if negb (bool_decide (op_subject payment = WithdrawalSubject)) || negb (op_subject_id payment =? wr_id row)%N ||
     negb (bool_decide (op_dest payment = wr_dest row)) || negb (op_amount_micro payment =? wr_amount_micro row) ||
     negb (bool_decide (op_rail_fingerprint payment = rail_fingerprint identity))
  then Err (App.Store (Store.Invariant "outbound payment intent mismatch")) else Ok tt.

(** The payment of a withdrawal, checked. *)
Definition matched_payment (identity : RailIdentity) (row : WithdrawalRow) (w : Wdb) :
    outcome AppError OutboundPaymentRow :=
  found ← store (payment_by_subject WithdrawalSubject (wr_id row) (wd_outbound w));
  payment ← ok_or found (App.Store (Store.NotFound "outbound payment"));
  _ ← ensure_payment_matches identity payment row;
  Ok payment.

Definition the_live_attempt (payment : OutboundPaymentRow) (w : Wdb) : outcome AppError OutboundAttemptRow :=
  found ← store (live_attempt (op_id payment) (wd_outbound w));
  ok_or found (App.Store (Store.NotFound "outbound attempt")).

Definition store_attempt (a : OutboundAttemptRow) (w : Wdb) : outcome AppError Wdb :=
  o ← store (save_attempt a (wd_outbound w)); Ok (set_outbound o w).

Definition ensure_landing (a : OutboundAttemptRow) (s : LandingState) (message : string) : outcome AppError unit :=
  if negb (bool_decide (at_landing a = s)) then Err (App.Store (Store.Invariant message)) else Ok tt.

Definition tightened (b : bool) (reason : string) (row : WithdrawalRow) : outcome AppError unit :=
  if b && negb (has_reason reason row)
  then Err (App.MoneyForbidden "withdrawal risk tightened after approval") else Ok tt.

Definition guard (b : bool) (e : AppError) : outcome AppError unit := if b then Err e else Ok tt.

Definition ensure_send_allowed (fresh : N) (db_now now : Z) (row : WithdrawalRow) (w : Wdb) :
    outcome AppError Wdb :=
  l ← store (limits w);
  view ← store (user_money_view db_now (wr_user row) w);
  _ ← guard (pause_withdrawals l) (App.MoneyForbidden "withdrawals are paused");
  _ ← guard (bool_decide (mv_status view = Banned)) (App.MoneyForbidden "account is banned");
  _ ← tightened (bool_decide (mv_status view = ShadowLimited)) "shadow_limited" row;
  _ ← guard (mv_kyc_tier view <? withdraw_kyc_tier l) (App.MoneyForbidden "kyc tier too low");
  '(flags, w) ← store (open_aml_flag_count fresh db_now (wr_user row) w);
  _ ← guard (flags >? 0) (App.MoneyForbidden "open AML flag");
  _ ← guard (negb (is_fresh_clear (latest_screening (wr_user row) "withdraw" w) now))
        (App.MoneyForbidden "sanctions screening is not fresh Clear");
  _ ← guard (negb (is_fresh_clear (latest_screening (wr_user row) (geo_context (wr_fingerprint row)) w) now))
        (App.MoneyForbidden "geo screening is not fresh Clear");
  _ ← guard (match mv_excluded_until view with Some until => until >? now | None => false end &&
             negb (is_self_exclusion_egress (wr_user row) (wr_dest row) w))
        (App.MoneyForbidden "self-excluded user may only use a settled or observation-source destination");
  _ ← tightened (wr_amount_micro row >=? auto_approve_micro l) "amount_ge_auto" row;
  _ ← tightened (wr_amount_micro row >=? dual_control_micro l) "amount_ge_dual" row;
  warmth ← store (dest_warmth (wr_dest row) w);
  warm ← is_warm warmth l now;
  _ ← tightened (negb warm) "dest_not_warm" row;
  _ ← tightened (dw_distinct_users warmth >=? 2) "dest_shared" row;
  _ ← tightened (dw_is_refund_dest warmth) "dest_is_refund" row;
  open ← store (open_receivables_for_user (td_funds (wd_db w)) (wr_user row));
  let outstanding := fold_left (fun sum ro => saturate I64 (sum + ro.2)) open 0 in
  if outstanding >? 0 then Err (App.ReceivableOpen outstanding) else Ok w.

(** [finish_cas]. *)
Definition finish_cas (db_now : Z) (from : Combo) (row : WithdrawalRow) (kind : string) (w : Wdb) :
    outcome AppError Wdb :=
  cas_with "WithdrawalSend" kind "machine" (to_label row) db_now from row w.

Record SendIds := mkSendIds { si_flag : N; si_payment : N; si_attempt : N }.

(** Inserts the payment unless it exists, and the first attempt. *)
Definition claim_prepare (ids : SendIds) (identity : RailIdentity) (signer : SignerView) (now : Z)
    (row : WithdrawalRow) (w : Wdb) : outcome AppError (OutboundPaymentRow * OutboundAttemptRow * Wdb) :=
  found ← store (payment_by_subject WithdrawalSubject (wr_id row) (wd_outbound w));
  '(payment, w) ← match found with
    | Some existing => Ok (existing, w)
    | None =>
        let payment := payment_for (si_payment ids) WithdrawalSubject (wr_id row) (wr_dest row)
                         (wr_amount_micro row) identity in
        o ← store (insert_payment payment (wd_outbound w));
        Ok (payment, set_outbound o w)
    end;
  _ ← ensure_payment_matches identity payment row;
  attempts ← store (attempts_for (op_id payment) (wd_outbound w));
  if negb (is_empty attempts) then Err (App.Store (Store.Invariant "W2 already has a send attempt")) else
  '(bytes, signature, last_valid) ← store (sg_sign signer);
  lease ← datetime (now + LEASE);
  let attempt := mkAttempt (si_attempt ids) (op_id payment) 1 None bytes signature last_valid
                   Landing.Prepared (Some lease) None in
  o ← store (insert_attempt attempt (wd_outbound w));
  Ok (payment, attempt, set_outbound o w).

(** A call to the rail inside the transaction keeps its effect when the
    transaction is dropped. *)
Definition with_rail {A} (payment : OutboundPaymentRow) (attempt : OutboundAttemptRow) (rail : Rail)
    (k : outcome AppError A) : outcome AppError A * Rail :=
  match persist_signed (op_id payment) (at_bytes attempt) (at_signature attempt) rail with
  | Ok rail => (k, rail)
  | Err e => (Err (App.Store e), rail)
  | Panic => (Panic, rail)
  end.

Definition claim_w2 (ids : SendIds) (identity : RailIdentity) (signer : SignerView) (db_now now : Z)
    (row : WithdrawalRow) (w : Wdb) (rail : Rail) : outcome AppError (SendStage * Wdb) * Rail :=
  match claim_prepare ids identity signer now row w with
  | Ok (payment, attempt, w) =>
      with_rail payment attempt rail
        (let row := with_combo W3 row in
         '(swapped, w) ← store (cas_withdrawal (wr_id row) W2 row w);
         if negb swapped then Err App.IllegalTransition else
         let w := append_withdrawal_event db_now (wr_id row) "send-claim" "machine"
                    (JObject [("to", JString "W3")]) w in
         Ok (SendBroadcast payment row W3, w))
  | Err e => (Err e, rail)
  | Panic => (Panic, rail)
  end.

(** [unwrap_or(SignaturePresence::Unknown)]. *)
Definition presence_of (signer : SignerView) (signature : string) : SignaturePresence :=
  match sg_lookup signer signature with Ok p => p | _ => PresenceUnknown end.

Definition height_at_most (signer : SignerView) (limit : Z) : bool :=
  match sg_height signer with Ok h => h <=? limit | _ => false end.

(** The attempt of a sending withdrawal: prepared, its lease over. *)
Definition expired_prepared (identity : RailIdentity) (row : WithdrawalRow) (now : Z)
    (not_prepared no_lease : string) (w : Wdb) : outcome AppError (OutboundPaymentRow * OutboundAttemptRow) :=
  payment ← matched_payment identity row w;
  attempt ← the_live_attempt payment w;
  _ ← ensure_landing attempt Landing.Prepared not_prepared;
  lease ← ok_or (at_lease attempt) (App.Store (Store.Invariant no_lease));
  if now <? lease then Err (App.ProposalConflict "send lease still held") else Ok (payment, attempt).

Definition recover_sending (identity : RailIdentity) (signer : SignerView) (db_now now : Z) (row : WithdrawalRow)
    (w : Wdb) : outcome AppError (SendStage * Wdb) :=
  let from := wr_combo row in
  '(payment, attempt) ← expired_prepared identity row now "sending withdrawal attempt is not prepared"
                          "sending attempt has no lease" w;
  let unknown :=
    let row := with_combo W7 row in
    w ← store_attempt (with_landing Landing.Unknown attempt) w;
    w ← finish_cas db_now from row "lease-lookup-unknown" w;
    Ok (SendDone row, w) in
  match presence_of signer (at_signature attempt) with
  | Present =>
      w ← store_attempt (with_landing Landing.Broadcast attempt) w;
      let row := with_sent now (with_combo W6 row) in
      w ← finish_cas db_now from row "lease-lookup-hit" w;
      Ok (SendDone row, w)
  | Absent =>
      if height_at_most signer (at_last_valid attempt)
      then Ok (SendRebroadcast payment attempt row (Some from), w)
      else unknown
  | PresenceUnknown => unknown
  end.

Definition rebroadcast_unknown (identity : RailIdentity) (signer : SignerView) (row : WithdrawalRow) (w : Wdb) :
    outcome AppError (SendStage * Wdb) :=
  payment ← matched_payment identity row w;
  attempt ← the_live_attempt payment w;
  _ ← ensure_landing attempt Landing.Unknown "W7 attempt is not unknown";
  height ← store (sg_height signer);
  if height >? at_last_valid attempt
  then Err (App.ProposalConflict "blockhash expired; archival proof is required")
  else Ok (SendRebroadcast payment attempt row None, w).

(** A withdrawal already sent is returned if an attempt bears it out. *)
Definition sent_already (identity : RailIdentity) (row : WithdrawalRow) (w : Wdb) :
    outcome AppError (SendStage * Wdb) :=
  payment ← matched_payment identity row w;
  attempts ← store (attempts_for (op_id payment) (wd_outbound w));
  let wanted := if bool_decide (wr_combo row = W6) then Landing.Broadcast else Landing.Finalized in
  if existsb (fun a => bool_decide (at_landing a = wanted)) attempts then Ok (SendDone row, w)
  else Err (App.Store (Store.Invariant "withdrawal state has no matching outbound attempt")).

(** The first transaction of [execute]. *)
Definition send (ids : SendIds) (identity : RailIdentity) (signer : SignerView) (db_now now : Z) (id : N)
    (w0 w : Wdb) (rail : Rail) : outcome AppError SendStage * Wdb * Rail :=
  let plain m := (atomic w m, rail) in
  match (user ← store (withdrawal_user id w0); locked_row id user w) with
  | Ok row =>
      let c := wr_combo row in
      if bool_decide (c = W6 \/ c = W9 \/ c = W10) then plain (sent_already identity row w)
      else if bool_decide (c = W3 \/ c = W8) then plain (recover_sending identity signer db_now now row w)
      else if bool_decide (c = W7) then plain (rebroadcast_unknown identity signer row w)
      else if negb (bool_decide (c = W2)) then plain (Err App.IllegalTransition)
      else match ensure_send_allowed (si_flag ids) db_now now row w with
           | Ok w1 => let '(m, rail) := claim_w2 ids identity signer db_now now row w1 rail in (atomic w m, rail)
           | Err e => plain (Err e)
           | Panic => plain Panic
           end
  | Err e => plain (Err e)
  | Panic => plain Panic
  end.

Definition observation_json (o : QuorumObservation) : Value :=
  JObject [("endpoint", JString (qo_endpoint o)); ("finalized_height", json_opt JInt (qo_finalized_height o));
           ("pruned", JBool (qo_pruned o)); ("signature_present", json_opt JBool (qo_signature_present o))].

Definition non_landing_name (v : NonLandingVerdict) : string :=
  match v with DefinitivelyFailed => "definitive_failed" | LandingUnknown => "unknown" end.

(** Signs and inserts the replacement of a disproved attempt. *)
Definition replace_prepare (ids : SendIds) (signer : SignerView) (now : Z) (row : WithdrawalRow)
    (payment : OutboundPaymentRow) (old : OutboundAttemptRow) (attempts : list OutboundAttemptRow) (w : Wdb) :
    outcome AppError (OutboundAttemptRow * Wdb) :=
  w ← store_attempt (with_landing Landing.DefinitiveFailed old) w;
  '(bytes, signature, last_valid) ← store (sg_sign signer);
  if existsb (fun a => bool_decide (at_signature a = signature)) attempts
  then Err (App.Store (Store.Invariant "replacement signature was reused")) else
  lease ← datetime (now + LEASE);
  let attempt := mkAttempt (si_attempt ids) (op_id payment) (next_attempt_number attempts) (Some (at_id old))
                   bytes signature last_valid Landing.Prepared (Some lease) None in
  o ← store (insert_attempt attempt (wd_outbound w));
  Ok (attempt, set_outbound o w).

(** The reads and checks of [replace_expired], up to the verdict. *)
Definition replace_checks (identity : RailIdentity) (signer : SignerView) (now : Z) (id user : N)
    (observations : list QuorumObservation) (w : Wdb) :
    outcome AppError (WithdrawalRow * OutboundPaymentRow * list OutboundAttemptRow * OutboundAttemptRow *
                      NonLandingVerdict) :=
  row ← locked_row id user w;
  if negb (bool_decide (wr_combo row = W7)) then Err App.IllegalTransition else
  payment ← matched_payment identity row w;
  attempts ← store (attempts_for (op_id payment) (wd_outbound w));
  old ← the_live_attempt payment w;
  _ ← ensure_landing old Landing.Unknown "W7 attempt is not unknown";
  height ← store (sg_height signer);
  if height <=? at_last_valid old then Err (App.ProposalConflict "blockhash has not expired") else
  let verdict := safe_non_landing_verdict (at_last_valid old) observations (rpc_endpoints identity) in
  let old := with_evidence (JObject
     [("last_valid_block_height", JInt (at_last_valid old));
      ("observations", JArray (map observation_json observations)); ("observed_at", time_json now);
      ("purpose", JString "replacement"); ("verdict", JString (non_landing_name verdict))]) old in
  Ok (row, payment, attempts, old, verdict).

Definition replace_expired (ids : SendIds) (identity : RailIdentity) (signer : SignerView) (db_now now : Z)
    (id : N) (observations : list QuorumObservation) (w0 w : Wdb) (rail : Rail) :
    outcome AppError SendStage * Wdb * Rail :=
  match (user ← store (withdrawal_user id w0); replace_checks identity signer now id user observations w) with
  | Ok (row, payment, attempts, old, verdict) =>
      if negb (bool_decide (verdict = DefinitivelyFailed))
      then (atomic w (w ← store_attempt old w; Ok (SendDone row, w)), rail)
      else match replace_prepare ids signer now row payment old attempts w with
           | Ok (attempt, w1) =>
               let '(m, rail) := with_rail payment attempt rail
                 (let row := with_combo W8 row in
                  w1 ← finish_cas db_now W7 row "replace-expired" w1;
                  Ok (SendBroadcast payment row W8, w1)) in
               (atomic w m, rail)
           | Err e => (Err e, w, rail)
           | Panic => (Panic, w, rail)
           end
  | Err e => (Err e, w, rail)
  | Panic => (Panic, w, rail)
  end.

Definition cas_broadcast (identity : RailIdentity) (db_now now : Z) (id : N) (expected : Combo) (w0 w : Wdb) :
    outcome AppError WithdrawalRow * Wdb :=
  atomic w
    (user ← store (withdrawal_user id w0);
     row ← locked_row id user w;
     if negb (bool_decide (wr_combo row = expected)) then Ok (row, w) else
     payment ← matched_payment identity row w;
     attempt ← the_live_attempt payment w;
     _ ← ensure_landing attempt Landing.Prepared "broadcast CAS attempt is not prepared";
     w ← store_attempt (with_landing Landing.Broadcast attempt) w;
     let row := with_combo W6 row in
     let row := match wr_sent_at row with Some _ => row | None => with_sent now row end in
     w ← finish_cas db_now expected row "broadcast" w;
     Ok (row, w)).

(** The rest of [execute] and [replace_expired]: broadcast, then advance the
    row found in a second transaction. *)
Definition after_commit (identity : RailIdentity) (rpc : list Z -> outcome StoreError Value) (db_now now : Z)
    (stage : SendStage) (w0 w : Wdb) (rail : Rail) : outcome AppError WithdrawalRow * Wdb * Rail :=
  match stage with
  | SendDone row => (Ok row, w, rail)
  | SendBroadcast payment row expected =>
      match broadcast identity rpc (op_id payment) rail with
      | Ok _ => (cas_broadcast identity db_now now (wr_id row) expected w0 w, rail)
      | Err e => (Err (App.Store e), w, rail)
      | Panic => (Panic, w, rail)
      end
  | SendRebroadcast payment attempt row expected =>
      let '(sent, rail) := same_bytes_rebroadcast identity rpc payment attempt rail in
      match sent, expected with
      | Ok _, Some from => (cas_broadcast identity db_now now (wr_id row) from w0 w, rail)
      | Ok _, None => (Ok row, w, rail)
      | Err e, _ => (Err e, w, rail)
      | Panic, _ => (Panic, w, rail)
      end
  end.

(** ** Reconciliation, [withdraw_reconcile.rs] *)

Definition reconcile_cas (db_now : Z) (from : Combo) (row : WithdrawalRow) (kind : string) (w : Wdb) :
    outcome AppError Wdb :=
  cas_with "WithdrawalReconciled" kind "machine" (to_label row) db_now from row w.

Definition mark_unknown (db_now now : Z) (id : N) (w0 w : Wdb) : outcome AppError WithdrawalRow * Wdb :=
  atomic w
    (user ← store (withdrawal_user id w0);
     row ← locked_row id user w;
     let from := wr_combo row in
     if bool_decide (from = W7) then Ok (row, w) else
     if negb (bool_decide (from = W6)) && negb (bool_decide (from = W3)) then Err App.IllegalTransition else
     found ← store (payment_by_subject WithdrawalSubject (wr_id row) (wd_outbound w));
     payment ← ok_or found (App.Store (Store.NotFound "outbound payment"));
     attempt ← the_live_attempt payment w;
     if bool_decide (from = W3) then
       lease ← ok_or (at_lease attempt) (App.Store (Store.Invariant "W3 attempt has no send lease"));
       if now <? lease then Err (App.ProposalConflict "send lease still held")
       else Err (App.ProposalConflict "W3 recovery requires signature lookup")
     else
     w ← store_attempt (with_landing Landing.Unknown attempt) w;
     let row := with_combo W7 row in
     w ← reconcile_cas db_now from row "mark-unknown" w;
     Ok (row, w)).

Definition recover_w3 (identity : RailIdentity) (signer : SignerView) (db_now now : Z) (id : N) (w0 w : Wdb) :
    outcome AppError WithdrawalRow * Wdb :=
  atomic w
    (user ← store (withdrawal_user id w0);
     row ← locked_row id user w;
     if bool_decide (wr_combo row = W6 \/ wr_combo row = W7) then Ok (row, w) else
     if negb (bool_decide (wr_combo row = W3)) then Err App.IllegalTransition else
     '(_, attempt) ← expired_prepared identity row now "W3 recovery attempt is not prepared"
                       "W3 attempt has no send lease" w;
     let presence := presence_of signer (at_signature attempt) in
     match presence with
     | Present =>
         w ← store_attempt (with_evidence (JObject
                [("observed_at", time_json now); ("purpose", JString "w3-lease-recovery");
                 ("signature_presence", JString "present")]) (with_landing Landing.Broadcast attempt)) w;
         let row := with_combo W6 row in
         let row := match wr_sent_at row with Some _ => row | None => with_sent now row end in
         w ← reconcile_cas db_now W3 row "lease-lookup-hit" w;
         Ok (row, w)
     | _ =>
         let name := if bool_decide (presence = Absent) then "absent" else "unknown" in
         if bool_decide (presence = Absent) && height_at_most signer (at_last_valid attempt)
         then Err (App.ProposalConflict "prepared attempt still requires same-bytes rebroadcast") else
         let height := match sg_height signer with Ok h => JInt h | _ => JNull end in
         w ← store_attempt (with_evidence (JObject
                [("finalized_height", height); ("last_valid_block_height", JInt (at_last_valid attempt));
                 ("observed_at", time_json now); ("purpose", JString "w3-lease-recovery");
                 ("signature_presence", JString name)]) (with_landing Landing.Unknown attempt)) w;
         let row := with_combo W7 row in
         w ← reconcile_cas db_now W3 row "lease-lookup-unknown" w;
         Ok (row, w)
     end).

Definition receipt_ok (identity : RailIdentity) (payment : OutboundPaymentRow) (attempt : OutboundAttemptRow)
    (receipt : ChainReceipt) : outcome AppError unit :=
  map_err (App.ConfigInvalid "receipt") (verify_chain_receipt identity payment attempt receipt).

Definition observe_finalized (identity : RailIdentity) (db_now now : Z) (id : N) (receipt : ChainReceipt)
    (w0 w : Wdb) : outcome AppError WithdrawalRow * Wdb :=
  atomic w
    (user ← store (withdrawal_user id w0);
     row ← locked_row id user w;
     let from := wr_combo row in
     if negb (bool_decide (from ∈ [W6; W7; W8; W9; W10])) then Err App.IllegalTransition else
     payment ← matched_payment identity row w;
     attempts ← store (attempts_for (op_id payment) (wd_outbound w));
     attempt ← ok_or (List.find (fun a => bool_decide (at_signature a = ch_signature receipt)) attempts)
                 (App.Store (Store.NotFound "outbound attempt"));
     _ ← receipt_ok identity payment attempt receipt;
     if bool_decide (from = W9 \/ from = W10) then
       _ ← ensure_landing attempt Landing.Finalized "finalized withdrawal has no finalized attempt";
       Ok (row, w)
     else
     w ← store_attempt (with_landing Landing.Finalized attempt) w;
     let row := with_combo W9 row in
     w ← reconcile_cas db_now from row "observe-finalized" w;
     Ok (row, w)).

Definition prove_non_landing (ids : LegIds) (identity : RailIdentity) (db_now now : Z) (id : N)
    (observations : list QuorumObservation) (w0 w : Wdb) : outcome AppError WithdrawalRow * Wdb :=
  atomic w
    (user ← store (withdrawal_user id w0);
     row ← locked_row id user w;
     let from := wr_combo row in
     if bool_decide (from = W15) then Ok (row, w) else
     if negb (bool_decide (from = W7)) && negb (bool_decide (from = W8)) then Err App.IllegalTransition else
     payment ← matched_payment identity row w;
     attempt ← the_live_attempt payment w;
     let verdict := safe_non_landing_verdict (at_last_valid attempt) observations (rpc_endpoints identity) in
     let attempt := with_evidence (JObject
        [("last_valid_block_height", JInt (at_last_valid attempt));
         ("observations", JArray (map observation_json observations)); ("observed_at", time_json now);
         ("verdict", JString (non_landing_name verdict))]) attempt in
     if bool_decide (verdict = LandingUnknown) then
       w ← store_attempt (with_landing Landing.Unknown attempt) w;
       if bool_decide (from = W7) then Ok (row, w) else
       let row := with_combo W7 row in
       w ← reconcile_cas db_now from row "non-landing-unknown" w;
       Ok (row, w)
     else
     '(release, w) ← store (apply_release ids (wr_user row) (wr_amount_micro row) (release_key (wr_id row)) w);
     w ← store_attempt (with_landing Landing.DefinitiveFailed attempt) w;
     let row := with_combo W15 (with_release release row) in
     w ← reconcile_cas db_now from row "definitive-fail" w;
     Ok (row, w)).

(** ** Settlement, [withdraw_settle.rs] *)

Record SettleIds := mkSettleIds { st_leg : LegIds; st_withheld : N; st_seq : Z }.

(** [debug_assert!] of the identities; the debug profile panics on a failure. *)
Definition check_identities (fresh : N) (attempts : list OutboundAttemptRow) (w : Wdb) : outcome AppError Wdb :=
  rows ← store (list_withdrawals w);
  '(withheld, w) ← store (withheld_balance fresh w);
  a ← identity_a_holds withheld rows;
  if a && identity_b_holds rows && identity_c_holds rows && identity_d_holds attempts true then Ok w else Panic.

Definition settle_withdraw (ids : SettleIds) (identity : RailIdentity) (db_now now : Z) (id : N)
    (receipt : ChainReceipt) (w0 w : Wdb) : outcome AppError WithdrawalRow * Wdb :=
  atomic w
    (user ← store (withdrawal_user id w0);
     row ← locked_row id user w;
     if negb (bool_decide (wr_combo row = W9)) && negb (bool_decide (wr_combo row = W10))
     then Err App.IllegalTransition else
     payment ← matched_payment identity row w;
     attempts ← store (attempts_for (op_id payment) (wd_outbound w));
     attempt ← ok_or (List.find (fun a => bool_decide (at_landing a = Landing.Finalized) &&
                                         bool_decide (at_signature a = ch_signature receipt)) attempts)
                 (App.Store (Store.NotFound "finalized attempt"));
     _ ← receipt_ok identity payment attempt receipt;
     if bool_decide (wr_combo row = W10) then Ok (row, w) else
     '(settle_tx, w) ← match apply_settle (st_leg ids) (wr_amount_micro row) (settle_key (wr_id row)) w with
       | Err Store.DuplicateKey =>
           Err (App.Store (Store.Invariant "settle key exists while withdrawal is W9"))
       | m => store m
       end;
     let row := with_combo W10 (with_settle settle_tx now row) in
     '(swapped, w) ← store (cas_withdrawal id W9 row w);
     if negb swapped then Err App.IllegalTransition else
     let w := append_withdrawal_event db_now id "settle" "machine" (JObject [("to", JString "W10")]) w in
     let w := record_event (mkEvent "WithdrawalSettled" "withdrawal" id
        (JObject [("amount_micro", JInt (wr_amount_micro row)); ("dest", JString (wr_dest row));
                  ("signature", JString (ch_signature receipt));
                  ("user_id", JString (uuid_text (wr_user row)))])) w in
     let w := set_notifications (wd_notifications w ++ [mkNotification (wr_user row) "withdrawal_settled"
        (JObject [("amount_micro", JInt (wr_amount_micro row)); ("withdrawal_id", JString (uuid_text id))])
        (st_seq ids) now]) w in
     w ← check_identities (st_withheld ids) attempts w;
     Ok (row, w)).
End Withdraw.
