(* ===== verification/Payout.v ===== *)
(** * Payout: the withdrawal machine keeps the money it holds

    Proofs about [Withdraw]: the ledger effect of a hold, a release and a
    settlement, the invariant that ties withdrawal rows to the [Withheld]
    balance and to the attempts of their payments, and its preservation by
    every transaction of the five use cases in any interleaving with the rest
    of the system. *)

From S2P Require Import Prelude Amm Ledger Resolution Economy Chars Errors Credits PgLedger Json Config Fences ConfigStore Compliance Collect Postings Book Lifecycle Outbound Withdraw.
#[local] Open Scope string_scope.
#[local] Open Scope list_scope.
#[local] Open Scope Z_scope.

(** ** Specification *)

(** The landing state of the last attempt of a withdrawal. *)
Definition landing_of (s : WithdrawalSendState) : option LandingState :=
  match s with
  | WSend.Unsent => None
  | WSend.Sending => Some Landing.Prepared
  | WSend.Broadcast => Some Landing.Broadcast
  | WSend.Finalized => Some Landing.Finalized
  | WSend.DefinitiveFailed => Some Landing.DefinitiveFailed
  | WSend.Unknown => Some Landing.Unknown
  end.

(** A withdrawal has a payment from the moment it is claimed, for its
    destination and amount, whose last attempt stands where the row says. *)
Definition sent_ok (ob : OutboundDb) (id : N) (r : WithdrawalRow) : Prop :=
  match landing_of (cb_send (wr_combo r)) with
  | None => payment_of WithdrawalSubject id ob = None
  | Some s => exists p front a, payment_of WithdrawalSubject id ob = Some p /\ op_dest p = wr_dest r /\
      op_amount_micro p = wr_amount_micro r /\ of_payment (op_id p) ob = front ++ [a] /\ at_landing a = s
  end.

Record row_ok (ob : OutboundDb) (id : N) (r : WithdrawalRow) : Prop := {
  ro_id : wr_id r = id;
  ro_check : row_check r = true;
  ro_amount : in_ty I64 (wr_amount_micro r);
  ro_hold : wr_hold_tx r <> 0%N;
  ro_sent : sent_ok ob id r }.

Definition holds_in (w : Wdb) : Z := amount_where (fun r => has_active_hold (wr_combo r)) w.

Record wsound (w : Wdb) : Prop := {
  ws_funds : funds_wf (td_funds (wd_db w));
  ws_supply : imin I64 < held (wd_ledger w) Ref.External Usdc;
  ws_holds : held (wd_ledger w) Ref.Withheld Usdc = holds_in w;
  ws_outbound : outbound_wf (wd_outbound w);
  ws_rows : forall id r, wd_rows w !! id = Some r -> row_ok (wd_outbound w) id r;
  ws_subjects : forall id, wd_rows w !! id = None -> payment_of WithdrawalSubject id (wd_outbound w) = None }.

(** The transition table published in [docs/copy/ops.md], row by row. *)
Definition published_moves : list (Combo * Combo) :=
  [(W1, W2); (W1, W4); (W4, W5); (W5, W2); (W4, W2); (W5, W4); (W1, W11); (W2, W14); (W4, W12); (W5, W13);
   (W2, W3); (W3, W6); (W6, W7); (W3, W7); (W7, W8); (W7, W7); (W6, W9); (W7, W9); (W8, W9); (W9, W10);
   (W7, W15); (W8, W15)].

(** The two moves the table does not list: a replacement that was found on the
    chain or broadcast, and one whose fate is unknown. *)
Definition recovery_moves : list (Combo * Combo) := [(W8, W6); (W8, W7)].

(** The edges a withdrawal moves along. *)
Definition edges : list (Combo * Combo) := published_moves ++ recovery_moves.

(** One row moves along an edge, and what was asked for stays. *)
Definition advanced (r r' : WithdrawalRow) : Prop :=
  (wr_combo r, wr_combo r') ∈ edges /\ wr_id r' = wr_id r /\ wr_user r' = wr_user r /\ wr_dest r' = wr_dest r /\
  wr_amount_micro r' = wr_amount_micro r /\ wr_hold_tx r' = wr_hold_tx r /\ wr_fingerprint r' = wr_fingerprint r /\
  wr_requested_at r' = wr_requested_at r.

(** What one transaction does to the table of withdrawals. *)
Inductive rows_step (rows : gmap N WithdrawalRow) : gmap N WithdrawalRow -> Prop :=
| rows_same : rows_step rows rows
| rows_insert id r : rows !! id = None -> wr_combo r = W1 -> rows_step rows (<[id := r]> rows)
| rows_advance id r r' : rows !! id = Some r -> advanced r r' -> rows_step rows (<[id := r']> rows).

(** ** Lemmas: the supply *)

(** An owner without an account holds nothing. *)
Lemma held_cases led o c :
  pg_wf led ->
  held led o c = 0 \/
  exists a s, owns led a o c /\ accounts (balances_of led) !! a = Some s /\ s_balance s = held led o c /\
    s_owner s = (owner_parts o).1 /\ s_currency s = c.
Proof.
  intros W. unfold held at 1, holding. destruct (List.find _ _) as [r|] eqn:E; [right|by left].
  apply find_by in E as [Hr Hi]. exists (acct_id r), (pg_slot led r).
  assert (Ho : owns led (acct_id r) o c) by by exists r. split; [done|].
  rewrite balances_lookup by apply pw_ids, W. rewrite (proj2 (find_account_Some led _ r (pw_ids _ W))) by done.
  split; [done|]. rewrite (held_owns led (acct_id r)) by done. unfold is_account in Hi. by bool_hyps;
    rewrite ?bool_decide_eq_true in *.
Qed.

Lemma held_range led o c : pg_wf led -> in_ty I64 (held led o c).
Proof.
  intros W. destruct (held_cases led o c W) as [->|(a & s & _ & Hs & <- & _)]; [ty|].
  by eapply lw_range; [apply pw_ledger|].
Qed.

Lemma held_nonneg led o c : pg_wf led -> o <> Ref.External -> 0 <= held led o c.
Proof.
  intros W Ho. destruct (held_cases led o c W) as [->|(a & s & _ & Hs & <- & Hown & _)]; [lia|].
  eapply lw_solvent; [by apply pw_ledger|done|]. rewrite Hown. by destruct o.
Qed.

Lemma msum_zero {V} (f : N -> V -> Z) (m : gmap N V) : (forall k v, m !! k = Some v -> f k v = 0) -> msum f m = 0.
Proof.
  intros Hf. rewrite (msum_ext _ (fun _ _ => 0)) by done. apply zsum_none. done.
Qed.

Lemma external_held led c : pg_wf led -> internal_sum (balances_of led) c = - held led Ref.External c.
Proof.
  intros W. pose proof (total_split (balances_of led) c) as T. rewrite lw_zero_sum in T by apply pw_ledger, W.
  enough (E : external_sum (balances_of led) c = held led Ref.External c) by lia. clear T.
  destruct (List.find (is_account External None c) (pg_accounts led)) as [r|] eqn:Ef.
  - apply find_by in Ef as [Hr Hi].
    rewrite (held_owns led (acct_id r) Ref.External) by (exact W || (exists r; split_and!; done)).
    unfold is_account in Hi. bool_hyps. rewrite ?bool_decide_eq_true in *.
    rewrite (external_sum_is _ c (acct_id r) (pg_slot led r)); [done|apply pw_ledger, W| |done..].
    rewrite balances_lookup by apply pw_ids, W. by rewrite (proj2 (find_account_Some led _ r (pw_ids _ W))).
  - unfold held, holding. cbn [owner_parts fst snd]. rewrite Ef. apply msum_zero. intros a s Ha.
    rewrite balances_lookup in Ha by apply pw_ids, W. apply fmap_Some in Ha as (r & Hr & ->).
    apply find_account_Some in Hr as [Hr _]; [|apply pw_ids, W]. unfold slot_in. cbn.
    case_bool_decide as Ht; [|done]. case_bool_decide as Hc; [|done]. exfalso.
    apply find_none_by in Ef. rewrite Forall_forall in Ef. specialize (Ef r Hr).
    pose proof (pw_shape _ W) as Hsh. rewrite Forall_forall in Hsh. specialize (Hsh r Hr). rewrite Ht in Hsh. cbn in Hsh.
    unfold is_account in Ef. rewrite Ht, Hc in Ef. rewrite (bool_decide_eq_true_2 (External = External)) in Ef by done. cbn in Ef.
    destruct (acct_owner r); [done|]. by rewrite (bool_decide_eq_true_2 (c = c)) in Ef.
Qed.

(** Two internal owners never hold more than the system owes the outside. *)
Lemma pair_supply led o o' c :
  pg_wf led -> o <> o' -> o <> Ref.External -> o' <> Ref.External ->
  held led o c + held led o' c <= - held led Ref.External c.
Proof.
  intros W Hne Ho Ho'. rewrite <- external_held by done. unfold internal_sum.
  set (f := fun (_ : AccountId) s => if bool_decide (s_owner s = External) then 0 else slot_in c s).
  assert (Hf : forall k v, accounts (balances_of led) !! k = Some v -> 0 <= f k v).
  { intros k v Hk. unfold f, slot_in. case_bool_decide; [lia|]. case_bool_decide; [|lia].
    eapply lw_solvent; [by apply pw_ledger|done..]. }
  assert (Hext : forall o, o <> Ref.External -> (owner_parts o).1 <> External) by by intros [].
  assert (Hs : forall o a s, o <> Ref.External -> s_owner s = (owner_parts o).1 -> s_currency s = c -> f a s = s_balance s).
  { intros q a s Hq E1 E2. unfold f, slot_in. rewrite bool_decide_eq_false_2 by (rewrite E1; by apply Hext).
    by rewrite bool_decide_eq_true_2. }
  destruct (held_cases led o c W) as [-> | (a & s & Oa & Ha & Ea & E1 & E2)].
  - destruct (held_cases led o' c W) as [-> | (a' & s' & _ & Ha' & <- & E1' & E2')].
    + by apply msum_nonneg.
    + rewrite <- (Hs o' a' s') by done. rewrite Z.add_0_l. by apply msum_ge.
  - destruct (held_cases led o' c W) as [-> | (a' & s' & Oa' & Ha' & Ea' & E1' & E2')].
    + rewrite <- Ea, <- (Hs o a s) by done. rewrite Z.add_0_r. by apply msum_ge.
    + rewrite <- Ea, <- Ea', <- (Hs o a s), <- (Hs o' a' s') by done.
      rewrite (msum_delete f _ a s Ha). enough (f a' s' <= msum f (delete a (accounts (balances_of led)))) by lia.
      apply msum_ge.
      * intros k v [_ Hk]%lookup_delete_Some. by apply Hf.
      * apply lookup_delete_Some. split; [|done]. intros ->.
        by destruct (owns_unique _ _ _ _ _ _ W Oa Oa').
Qed.

Lemma one_supply led o c : pg_wf led -> o <> Ref.External -> held led o c <= - held led Ref.External c.
Proof.
  intros W Ho. destruct (decide (o = Ref.Fees)) as [->|Hf].
  - pose proof (pair_supply led Ref.Fees Ref.House c W ltac:(done) ltac:(done) ltac:(done)).
    pose proof (held_nonneg led Ref.House c W ltac:(done)). lia.
  - pose proof (pair_supply led o Ref.Fees c W Hf Ho ltac:(done)).
    pose proof (held_nonneg led Ref.Fees c W ltac:(done)). lia.
Qed.

(** ** Lemmas: a transfer of the withdrawal transaction *)

Lemma owner_account_Ok fresh o led led' a :
  owner_account fresh o led = Ok (led', a) -> account fresh led o Usdc = Ok (led', a).
Proof. unfold owner_account. by destruct (account fresh led o Usdc) as [|[]|]. Qed.

(** The insert without validation that [two_leg] makes is a posting the
    validated path accepts, when the balances allow it. *)
Lemma two_leg_apply `{HashMapOrder} fresh key kind a o b o' amount led led' t :
  pg_wf led -> owns led a o Usdc -> owns led b o' Usdc -> o <> o' -> o <> Ref.External ->
  0 < amount <= held led o Usdc -> imin I64 < held led Ref.External Usdc ->
  two_leg fresh key kind a (- amount) b amount led = Ok (led', t) ->
  ledger_apply fresh led kind key (map entry_of [mkPosting a o Usdc (- amount); mkPosting b o' Usdc amount]) =
    Ok (led', t) /\ t = fresh.
Proof.
  intros W Oa Ob Hne Hext Ham Hsup. unfold two_leg. destruct (txn_by_key led key) eqn:Hk; [done|].
  destruct (existsb _ _) eqn:Hx; [done|]. destruct (_ || _) eqn:Hz; [done|]. intros [= <- <-]. split; [|done].
  pose proof (held_range led o Usdc W) as R1. pose proof (held_range led o' Usdc W) as R2.
  assert (Hab : a <> b) by (intros ->; by destruct (owns_unique _ _ _ _ _ _ W Oa Ob)).
  apply ledger_apply_Ok; [done|cbn [map entry_of ps_account ps_amount]; rewrite !Forall_cons; split_and!; (done || (cbn; ty))|unfold zlen; cbn; lia|].
  change (map entry_of _) with [{| e_account := a; e_amount := - amount |}; {| e_account := b; e_amount := amount |}].
  assert (Hslot : forall x q, owns led x q Usdc -> accounts (balances_of led) !! x =
    Some {| s_owner := (owner_parts q).1; s_currency := Usdc; s_balance := held led q Usdc |}).
  { intros x q Hq. rewrite (held_owns led x) by done. destruct Hq as (r & Hr & <- & Hi).
    rewrite balances_lookup by apply pw_ids, W. rewrite (proj2 (find_account_Some led _ r (pw_ids _ W))) by done.
    unfold is_account in Hi. bool_hyps. rewrite !bool_decide_eq_true in *. cbn. unfold pg_slot. congruence. }
  split_and!; [| | | |done|done].
  - split; [unfold zlen; cbn; lia|]. split; [|cbn; lia]. cbn [t_entries]. rewrite !Forall_cons. cbn. split_and!; (ty || lia || done).
  - assert (Hmv : forall x, moved [{| e_account := a; e_amount := - amount |}; {| e_account := b; e_amount := amount |}] x =
      (if bool_decide (a = x) then - amount else 0) + (if bool_decide (b = x) then amount else 0)).
    { intros x. unfold moved. cbn. lia. }
    split_and!; cbn [t_entries].
    + intros e [->|[->|?%elem_of_nil]%elem_of_cons]%elem_of_cons; cbn [e_account]; [rewrite (Hslot a o)|rewrite (Hslot b o')| ]; done.
    + intros c. unfold moved_in. cbn [map zsum foldr e_account e_amount]. rewrite (Hslot a o), (Hslot b o') by done. cbn. repeat case_bool_decide; lia.
    + intros e s [->|[->|?%elem_of_nil]%elem_of_cons]%elem_of_cons; cbn [e_account]; [| |done].
      * rewrite (Hslot a o) by done. intros [= <-]. rewrite Hmv, bool_decide_eq_true_2, bool_decide_eq_false_2 by done.
        cbn. split; [ty|lia].
      * rewrite (Hslot b o') by done. intros [= <-]. rewrite Hmv, bool_decide_eq_false_2, bool_decide_eq_true_2 by done.
        cbn. destruct (decide (o' = Ref.External)) as [->|Hn]; [split; [|done]|split; [|pose proof (held_nonneg led o' Usdc W Hn); lia]].
        -- pose proof (one_supply led o Usdc W Hext). ty.
        -- pose proof (pair_supply led o o' Usdc W Hne Hext Hn). pose proof (held_nonneg led o' Usdc W Hn). ty.
  - intros (x & -> & Hx')%list_elem_of_fmap. unfold txn_by_key in Hk. apply fmap_None, find_none_by in Hk.
    rewrite Forall_forall in Hk. specialize (Hk x Hx'). cbn in Hk. by rewrite String.eqb_refl in Hk.
  - intros (x & -> & Hx')%list_elem_of_fmap. apply existsb_false in Hx. rewrite Forall_forall in Hx.
    specialize (Hx x Hx'). cbn in Hx. by rewrite N.eqb_refl in Hx.
Qed.

Section PayoutLemmas.
Context `{UuidText} `{HashMapOrder}.

(** A transfer moves its amount between the two owners and touches the ledger
    alone. *)
Lemma transfer_Ok ids from to kind amount key w t w' :
  pg_wf (wd_ledger w) -> from <> to -> from <> Ref.External -> 0 < amount <= held (wd_ledger w) from Usdc ->
  imin I64 < held (wd_ledger w) Ref.External Usdc ->
  transfer ids from to kind amount key w = Ok (t, w') ->
  exists led', w' = set_wledger led' w /\ extends (wd_ledger w) led' /\ t = li_txn ids /\
    txn_by_key (wd_ledger w) key = None /\
    (forall o c, held led' o c = held (wd_ledger w) o c +
       posted_to o c [mkPosting 0 from Usdc (- amount); mkPosting 0 to Usdc amount]).
Proof.
  intros W Hne Hext Ham Hsup Hr. unfold transfer in Hr. apply bind_Ok in Hr as ([l1 a] & Ha%owner_account_Ok & Hr).
  apply bind_Ok in Hr as ([l2 b] & Hb%owner_account_Ok & Hr).
  apply bind_Ok in Hr as (debit & [-> Hd]%arith_Ok & Hr). apply bind_Ok in Hr as ([l3 t'] & Ht & [= <- <-]).
  pose proof (held_range _ from Usdc W) as R. pose proof (account_txns _ _ _ _ _ _ Ha) as T1. pose proof (account_txns _ _ _ _ _ _ Hb) as T2.
  apply account_held in Ha as (X1 & O1 & E1); [|done]. apply account_held in Hb as (X2 & O2 & E2); [|eauto with ledger].
  assert (Hk : txn_by_key l2 key = None) by (unfold two_leg in Ht; by destruct (txn_by_key l2 key)).
  apply (two_leg_apply _ _ _ _ from _ to) in Ht as [Ht ->]; [|eauto with ledger..|done|done|by rewrite E2, E1|by rewrite E2, E1].
  apply apply_held in Ht as (X3 & E3); [|eauto with ledger|posting_side|posting_side; ty|unfold zlen; cbn; lia].
  exists l3. split_and!; try done.
  - eauto with ledger.
  - unfold txn_by_key in *. by rewrite <- T1, <- T2.
  - intros o c. rewrite E3, E2, E1. done.
Qed.
End PayoutLemmas.

(** ** Lemmas: the markets are out of reach *)

(** A change of the funds that no market sees. *)
Record afar (db db' : Db) : Prop := {
  af_book : td_book db' = td_book db;
  af_ledger : quiet_on escrow_class (fu_ledger (td_funds db)) (fu_ledger (td_funds db'));
  af_lots : forall l r, db_lots (fu_credits (td_funds db')) !! l = Some r ->
    exists r0, db_lots (fu_credits (td_funds db)) !! l = Some r0 /\ lot_amount r = lot_amount r0 /\
      lot_row_id r = lot_row_id r0 /\ lot_user r = lot_user r0 }.

Lemma afar_refl db : funds_wf (td_funds db) -> afar db db.
Proof. intros F. split; [done|apply quiet_refl, F|]. intros l r Hr. by exists r. Qed.

Lemma afar_trans a b c : afar a b -> afar b c -> afar a c.
Proof.
  intros [B1 Q1 L1] [B2 Q2 L2]. split; [congruence|by eapply quiet_trans|]. intros l r Hr.
  destruct (L2 l r Hr) as (r1 & Hr1 & ? & ? & ?). destruct (L1 l r1 Hr1) as (r0 & Hr0 & ? & ? & ?).
  exists r0. split_and!; congruence.
Qed.

Lemma afar_same db db' :
  funds_wf (td_funds db) -> td_book db' = td_book db -> td_funds db' = td_funds db -> afar db db'.
Proof. intros F B E. split; rewrite ?E; [done|apply quiet_refl, F|]. intros l r Hr. by exists r. Qed.

Lemma afar_calm db f : calm (td_funds db) f -> afar db (set_funds f db).
Proof. intros C. split; [done| |apply C]. eapply quiet_weaken; [|apply C]. by intros []. Qed.

Lemma afar_extends db led :
  extends (fu_ledger (td_funds db)) led ->
  (forall m c, held led (Ref.MarketEscrow m) c = held (fu_ledger (td_funds db)) (Ref.MarketEscrow m) c) ->
  afar db (set_funds (set_ledger led (td_funds db)) db).
Proof.
  intros [W A T] E. split; [done| |intros l r Hr; by exists r]. split; [done| |done..].
  intros o c. destruct o; try done. intros _. apply E.
Qed.

(** ** Lemmas: transactions that leave the rows alone *)

(** The withdrawal tables and the balances they rest on are untouched. *)
Record steady (w w' : Wdb) : Prop := {
  sd_rows : wd_rows w' = wd_rows w;
  sd_outbound : wd_outbound w' = wd_outbound w;
  sd_deposits : wd_deposits w' = wd_deposits w;
  sd_funds : funds_wf (td_funds (wd_db w)) -> funds_wf (td_funds (wd_db w'));
  sd_held : forall o, fixed_class (owner_parts o).1 = true -> funds_wf (td_funds (wd_db w)) ->
    held (wd_ledger w') o Usdc = held (wd_ledger w) o Usdc;
  sd_afar : funds_wf (td_funds (wd_db w)) -> afar (wd_db w) (wd_db w') }.

Lemma steady_refl w : steady w w.
Proof. split; try done. apply afar_refl. Qed.

Lemma steady_trans w1 w2 w3 : steady w1 w2 -> steady w2 w3 -> steady w1 w3.
Proof.
  intros [R1 O1 D1 F1 E1 A1] [R2 O2 D2 F2 E2 A2]. split; [congruence..|by auto| |].
  - intros o Ho W. rewrite E2, E1; auto.
  - intros W. eapply afar_trans; eauto.
Qed.

(** Only tables no balance depends on are written. *)
Lemma steady_same w w' :
  wd_rows w' = wd_rows w -> wd_outbound w' = wd_outbound w -> td_funds (wd_db w') = td_funds (wd_db w) ->
  td_book (wd_db w') = td_book (wd_db w) -> wd_deposits w' = wd_deposits w -> steady w w'.
Proof.
  intros E1 E2 E3 E4 E5. split; [done..|by rewrite E3| |].
  - intros o _ _. unfold wd_ledger. by rewrite E3.
  - intros W. by apply afar_same.
Qed.

Lemma holds_in_ext w w' : wd_rows w' = wd_rows w -> holds_in w' = holds_in w.
Proof. unfold holds_in, amount_where. by intros ->. Qed.

Lemma steady_sound w w' : wsound w -> steady w w' -> wsound w'.
Proof.
  intros [W1 W2 W3 W4 W5 W6] [R O _ F E _]. split.
  - auto.
  - by rewrite E by done.
  - rewrite E by done. by rewrite W3, (holds_in_ext w w').
  - by rewrite O.
  - intros id r. rewrite R, O. apply W5.
  - intros id. rewrite R, O. apply W6.
Qed.

(** Nor is any balance. *)
Record still (w w' : Wdb) : Prop := {
  sl_rows : wd_rows w' = wd_rows w;
  sl_outbound : wd_outbound w' = wd_outbound w;
  sl_funds : td_funds (wd_db w') = td_funds (wd_db w);
  sl_book : td_book (wd_db w') = td_book (wd_db w);
  sl_deposits : wd_deposits w' = wd_deposits w }.

Lemma still_refl w : still w w.
Proof. done. Qed.

Lemma still_trans w1 w2 w3 : still w1 w2 -> still w2 w3 -> still w1 w3.
Proof. intros [] []. split; congruence. Qed.

Lemma still_steady w w' : still w w' -> steady w w'.
Proof. intros []. by apply steady_same. Qed.

Create HintDb payout.
#[export] Hint Resolve still_refl still_trans steady_refl steady_trans still_steady : payout.

(** Closes [still w w'] where [w'] is an explicit update of other tables. *)
Ltac still_done := first [assumption | apply still_refl | split; reflexivity].

Section Steady.
Context `{UuidText} `{HashMapOrder}.
Context (sha256 : string -> list Z) (to_string : Value -> string) (from_str : string -> option Value)
  (uuid_parse : string -> option N) (time_json : Z -> Value).

Lemma persist_screening_still fresh db_now user context v w w' :
  persist_screening fresh db_now user context v w = Ok w' -> still w w'.
Proof. unfold persist_screening. destruct v; destruct (existsb _ _); intros [= <-]; still_done. Qed.

Lemma open_aml_flag_count_still fresh db_now user w n w' :
  open_aml_flag_count fresh db_now user w = Ok (n, w') -> still w w'.
Proof.
  unfold open_aml_flag_count. intros (c & _ & Hr)%bind_Ok. apply bind_Ok in Hr as (k & _ & [= <- <-]). still_done.
Qed.

Lemma insert_flags_still fresh kinds i user label evidence at_ w w' :
  insert_flags fresh i kinds user label evidence at_ w = Ok w' -> still w w'.
Proof.
  revert i w. induction kinds as [|k kinds IH]; intros i w; cbn [insert_flags]; [intros [= <-]; still_done|].
  intros (w1 & Hw & Hr)%bind_Ok. eapply still_trans; [|by eapply IH]. unfold insert_flag_once in Hw.
  destruct (open_flag _ _ _); [injection Hw as <-; still_done|]. destruct (existsb _ _); [done|].
  injection Hw as <-. still_done.
Qed.

Lemma evaluate_aml_still fresh id user dest amount at_ w w' :
  evaluate_withdraw_aml_candidate fresh id user dest amount at_ w = Ok w' -> still w w'.
Proof.
  unfold evaluate_withdraw_aml_candidate. intros ([p h] & _ & Hr)%bind_Ok. apply bind_Ok in Hr as (since & _ & Hr).
  apply bind_Ok in Hr as (e & _ & Hr). by eapply insert_flags_still.
Qed.

Lemma set_fingerprint_still key text w : still w (set_fingerprint key text w).
Proof. unfold set_fingerprint, save_request_fingerprint. case_match; done. Qed.

Lemma persist_intent_still r w w' : persist_intent sha256 to_string r w = Ok w' -> still w w'.
Proof. unfold persist_intent. destruct (_ !! _); intros [= <-]. apply set_fingerprint_still. Qed.

Lemma persist_idemp_still cmd fp w w' : persist_idemp cmd fp w = Ok w' -> still w w'.
Proof.
  unfold persist_idemp, persist_idempotency. destruct (rq_idempotency_key cmd); [|intros [= <-]; still_done].
  intros Hr%map_err_Ok. destruct (_ !! _); [destruct (bool_decide _); [|done]|]; injection Hr as <-;
    [still_done|apply set_fingerprint_still].
Qed.

Lemma refuse_still cmd dest fp code message w r w' :
  refuse sha256 to_string cmd dest fp code message w = Ok (r, w') -> still w w'.
Proof.
  unfold refuse. intros (w1 & H1%map_err_Ok & Hr)%bind_Ok. apply bind_Ok in Hr as (w2 & H2 & [= _ <-]).
  eapply still_trans; [by eapply persist_intent_still|by eapply persist_idemp_still].
Qed.

Lemma persist_remote_still ids db_now cmd fp geo sanctions w w' :
  persist_remote ids db_now cmd fp geo sanctions w = Ok w' -> still w w'.
Proof.
  unfold persist_remote. intros (w1 & H1%map_err_Ok%persist_screening_still & Hr%map_err_Ok%persist_screening_still)%bind_Ok.
  by eapply still_trans.
Qed.

Lemma set_funds_steady f w : calm (td_funds (wd_db w)) f -> steady w (set_db (set_funds f (wd_db w)) w).
Proof.
  intros C. split; [done..| | |].
  - intros _. apply C.
  - intros o Ho _. apply (qt_holding _ _ _ (cm_fixed _ _ C) o Usdc Ho).
  - intros _. by apply afar_calm.
Qed.

(** Opening an account on the way to a balance. *)
Lemma owner_balance_Ok fresh o negative w bal w' :
  funds_wf (td_funds (wd_db w)) -> owner_balance fresh o negative w = Ok (bal, w') ->
  steady w w' /\ bal = held (wd_ledger w) o Usdc /\ (forall o c, held (wd_ledger w') o c = held (wd_ledger w) o c).
Proof.
  intros [W L] Hr. unfold owner_balance in Hr. apply bind_Ok in Hr as ([led a] & Ha%owner_account_Ok & Hr).
  apply bind_Ok in Hr as (b & Hb & Hr). destruct (b <? 0) eqn:Hn; [done|]. injection Hr as -> <-.
  apply account_held in Ha as (X & O & E); [|done]. apply ok_or_Ok, checked_Some in Hb as [-> _].
  split_and!.
  - split; [done..| | |].
    + intros _. split; [by apply X|done].
    + intros q _ _. apply E.
    + intros _. apply afar_extends; [done|]. intros m c. apply E.
  - rewrite <- (held_owns led a o Usdc); [apply E|apply X|done].
  - exact E.
Qed.

Lemma current_reasons_still fresh db_now cmd dest fp l view now w rs w' :
  current_reasons fresh db_now cmd dest fp l view now w = Ok (rs, w') -> still w w'.
Proof.
  unfold current_reasons. intros ([n w1] & H1%map_err_Ok & Hr)%bind_Ok. apply bind_Ok in Hr as (rest & _ & [= _ <-]).
  by eapply open_aml_flag_count_still.
Qed.

Lemma live_reasons_still fresh db_now row l view now w rs w' :
  live_reasons fresh db_now row l view now w = Ok (rs, w') -> still w w'.
Proof.
  unfold live_reasons. intros ([n w1] & H1%map_err_Ok & Hr)%bind_Ok. apply bind_Ok in Hr as (rest & _ & [= _ <-]).
  by eapply open_aml_flag_count_still.
Qed.

Lemma consume_cap_still db_now now row l w w' : consume_approval_cap db_now now row l w = Ok w' -> still w w'.
Proof.
  unfold consume_approval_cap. intros (since & _ & Hr)%bind_Ok. apply bind_Ok in Hr as (used & _ & Hr).
  destruct (_ >? _); [done|]. injection Hr as <-. still_done.
Qed.

Lemma insert_money_proposal_still p w w' : insert_money_proposal p w = Ok w' -> still w w'.
Proof.
  unfold insert_money_proposal. destruct (proposal_insert _ _); [|done..]. destruct (_ >? _); [|done].
  intros [= <-]. still_done.
Qed.

Lemma save_money_proposal_still id status confirmer w w' : save_money_proposal id status confirmer w = Ok w' -> still w w'.
Proof.
  unfold save_money_proposal. destruct (existsb _ _); [done|]. destruct (existsb _ _); [|done]. intros [= <-]. still_done.
Qed.

Lemma withdraw_audit_still a w : still w (withdraw_audit a w).
Proof. destruct a; still_done. Qed.

Lemma ensure_send_allowed_still fresh db_now now row w w' :
  ensure_send_allowed fresh db_now now row w = Ok w' -> still w w'.
Proof.
  unfold ensure_send_allowed. intros Hr.
  do 6 (apply bind_Ok in Hr as (? & _ & Hr)). apply bind_Ok in Hr as ([n w1] & H1%map_err_Ok & Hr).
  do 12 (apply bind_Ok in Hr as (? & _ & Hr)). destruct (_ >? 0); [done|]. injection Hr as <-.
  by eapply open_aml_flag_count_still.
Qed.
End Steady.

(** ** Lemmas: one row moves *)

Definition hold_amount (c : Combo) (amount : Z) : Z := if has_active_hold c then amount else 0.

(** The payments and attempts of every other subject stay. *)
Definition others_kept (s : OutboundSubject) (id : N) (ob ob' : OutboundDb) : Prop :=
  forall s' id', (s', id') <> (s, id) ->
    payment_of s' id' ob' = payment_of s' id' ob /\
    forall p, payment_of s' id' ob = Some p -> of_payment (op_id p) ob' = of_payment (op_id p) ob.

(** Deposits, the money in suspense and the refunds are untouched. *)
Record aside (w w' : Wdb) : Prop := {
  as_deposits : wd_deposits w' = wd_deposits w;
  as_suspense : held (wd_ledger w') Ref.DepositSuspense Usdc = held (wd_ledger w) Ref.DepositSuspense Usdc;
  as_payments : forall id, payment_of DepositRefund id (wd_outbound w') = payment_of DepositRefund id (wd_outbound w);
  as_attempts : forall id p, payment_of DepositRefund id (wd_outbound w) = Some p ->
    of_payment (op_id p) (wd_outbound w') = of_payment (op_id p) (wd_outbound w) }.

(** The payment of a withdrawal and its last attempt. *)
Record attempt_at (id : N) (ob : OutboundDb) (p : OutboundPaymentRow) (front : list OutboundAttemptRow)
    (a : OutboundAttemptRow) : Prop := {
  aa_payment : payment_of WithdrawalSubject id ob = Some p;
  aa_last : of_payment (op_id p) ob = front ++ [a] }.

(** Work on one withdrawal inside a transaction, before its row is written;
    [d] is what the [Withheld] account gained. *)
Record worked (id : N) (d : Z) (w w' : Wdb) : Prop := {
  wk_rows : wd_rows w' = wd_rows w;
  wk_funds : funds_wf (td_funds (wd_db w'));
  wk_supply : imin I64 < held (wd_ledger w') Ref.External Usdc;
  wk_held : held (wd_ledger w') Ref.Withheld Usdc = held (wd_ledger w) Ref.Withheld Usdc + d;
  wk_outbound : outbound_wf (wd_outbound w');
  wk_others : others_kept WithdrawalSubject id (wd_outbound w) (wd_outbound w');
  wk_deposits : wd_deposits w' = wd_deposits w;
  wk_suspense : held (wd_ledger w') Ref.DepositSuspense Usdc = held (wd_ledger w) Ref.DepositSuspense Usdc;
  wk_afar : afar (wd_db w) (wd_db w') }.

Lemma others_refl s id ob : others_kept s id ob ob.
Proof. done. Qed.

Lemma others_trans s id a b c : others_kept s id a b -> others_kept s id b c -> others_kept s id a c.
Proof.
  intros H1 H2 s' id' Hne. destruct (H1 s' id' Hne) as [P1 A1], (H2 s' id' Hne) as [P2 A2]. split; [by rewrite P2|].
  intros p Hp. rewrite A2 by by rewrite P1. by apply A1.
Qed.

Lemma aside_refl w : aside w w.
Proof. done. Qed.

Lemma aside_trans w1 w2 w3 : aside w1 w2 -> aside w2 w3 -> aside w1 w3.
Proof.
  intros [D1 S1 P1 A1] [D2 S2 P2 A2]. split; [congruence..| |]; intros; [by rewrite P2|].
  rewrite (A2 id) by by rewrite P1. by apply (A1 id).
Qed.

Lemma aside_steady w w' : funds_wf (td_funds (wd_db w)) -> steady w w' -> aside w w'.
Proof. intros F T. split; [apply T|by apply T|..]; intros; by rewrite (sd_outbound _ _ T). Qed.

Lemma worked_refl id w : wsound w -> worked id 0 w w.
Proof. intros []. split; try done; [lia|by apply afar_refl]. Qed.

Lemma worked_steady id d w w1 w2 : worked id d w w1 -> steady w1 w2 -> worked id d w w2.
Proof.
  intros [R F S E O K D H A] [R' O' D' F' E' A'].
  split; [congruence|auto|by rewrite E'|by rewrite E'|by rewrite O'|by rewrite O'|congruence|by rewrite E'|
    eapply afar_trans; eauto].
Qed.

Lemma worked_outbound id d w w1 ob :
  worked id d w w1 -> outbound_wf ob -> others_kept WithdrawalSubject id (wd_outbound w1) ob ->
  worked id d w (set_outbound ob w1).
Proof. intros [] W' K'. split; try done. by eapply others_trans. Qed.

Lemma worked_aside id d w w' : worked id d w w' -> aside w w'.
Proof.
  intros [R F S E O K D H A]. split; [done..| |]; intros i; destruct (K DepositRefund i ltac:(done)) as [P Q];
    [done|apply Q].
Qed.

Lemma row_from_pg_Ok r : row_check r = true -> row_from_pg r = Ok r.
Proof.
  intros Hc. unfold row_from_pg, reasons_of_json. cbn [as_array_opt ok_or mbind outcome_bind].
  assert (E : forall l acc, foldM (fun acc item => s ← ok_or (as_str_opt item) (Store.Invariant "withdrawal risk reason is not text");
    Ok (acc ++ [s])) acc (map JString l) = Ok (acc ++ l)).
  { intros l. induction l as [|x l IH]; intros acc; cbn [map foldM as_str_opt ok_or mbind outcome_bind]; [by rewrite app_nil_r|].
    by rewrite IH, <- app_assoc. }
  rewrite E. cbn [mbind outcome_bind app]. rewrite checked_combo_name. unfold row_check in Hc. bool_hyps.
  match goal with H : is_legal _ = true |- _ => rewrite H end. cbn. by destruct r.
Qed.

Lemma locked_row_Ok id user w row :
  wsound w -> locked_row id user w = Ok row -> wd_rows w !! id = Some row /\ row_ok (wd_outbound w) id row.
Proof.
  intros S. unfold locked_row, withdrawal_for_update. intros (r & Hr%map_err_Ok & Hu)%bind_Ok.
  apply bind_Ok in Hr as (r0 & H0%ok_or_Ok & Hr). pose proof (ws_rows _ S _ _ H0) as K.
  rewrite row_from_pg_Ok in Hr by apply K. injection Hr as ->. destruct (negb _); [done|]. by injection Hu as <-.
Qed.

Lemma cas_withdrawal_Ok id from next w w' :
  cas_withdrawal id from next w = Ok (true, w') ->
  exists stored, wd_rows w !! id = Some stored /\ wr_combo stored = from /\ row_check (cas_columns next stored) = true /\
    w' = set_rows (<[id := cas_columns next stored]> (wd_rows w)) w.
Proof.
  unfold cas_withdrawal. destruct (wd_rows w !! id) as [r|]; [|done]. destruct (bool_decide _) eqn:E; [|done].
  cbv zeta. destruct (negb _) eqn:Hc; [done|]. intros [= <-]. exists r.
  by apply negb_false_iff in Hc; apply bool_decide_eq_true in E.
Qed.

(** A transaction keeps the invariant, moves at most one row and touches no
    market. *)
Record moves (w w' : Wdb) : Prop := {
  mv_sound : wsound w';
  mv_rows : rows_step (wd_rows w) (wd_rows w');
  mv_aside : aside w w';
  mv_afar : afar (wd_db w) (wd_db w') }.

(** Writing the row after the work of the transaction. *)
Lemma write_row id d w w1 w' from next r :
  wsound w -> worked id d w w1 -> wd_rows w !! id = Some r -> cas_withdrawal id from next w1 = Ok (true, w') ->
  (wr_combo r, wr_combo next) ∈ edges ->
  d = hold_amount (wr_combo next) (wr_amount_micro r) - hold_amount (wr_combo r) (wr_amount_micro r) ->
  sent_ok (wd_outbound w1) id (with_combo (wr_combo next) r) ->
  moves w w'.
Proof.
  intros S K Hr (stored & Hs & Hf & Hc & ->)%cas_withdrawal_Ok He Hd Hsent. rewrite (wk_rows _ _ _ _ K) in Hs |- *.
  assert (stored = r) as -> by congruence. pose proof (ws_rows _ S _ _ Hr) as O.
  assert (A : advanced r (cas_columns next r)) by (by split_and!). split; [|by econstructor|by destruct (worked_aside _ _ _ _ K)|apply K].
  split; cbn.
  - apply K.
  - apply K.
  - change (held (wd_ledger w1) Ref.Withheld Usdc = holds_in (set_rows (<[id := cas_columns next r]> (wd_rows w)) w1)).
    rewrite (wk_held _ _ _ _ K), (ws_holds _ S), Hd. unfold holds_in, amount_where. cbn.
    rewrite (msum_insert _ _ id r) by done. unfold hold_amount. cbn. lia.
  - apply K.
  - intros id' r' [[<- <-]|[Hne Hr']]%lookup_insert_Some.
    + split; cbn; [apply O|done|apply O|apply O|exact Hsent].
    + destruct (ws_rows _ S _ _ Hr') as [O1 O2 O3 O4 O5]. split; try done. unfold sent_ok in *.
      destruct (wk_others _ _ _ _ K WithdrawalSubject id' ltac:(congruence)) as [P A']. rewrite P. revert O5. destruct (landing_of (cb_send (wr_combo r'))); [|done].
      intros (p & front & a & Hp & ? & ? & Hl & ?). exists p, front, a. rewrite A' by done. done.
  - intros id' [Hn Hne]%lookup_insert_None. destruct (wk_others _ _ _ _ K WithdrawalSubject id' ltac:(congruence)) as [-> _]. by apply S.
Qed.

Lemma wsound_same w w' :
  wd_rows w' = wd_rows w -> wd_outbound w' = wd_outbound w -> td_funds (wd_db w') = td_funds (wd_db w) ->
  td_book (wd_db w') = td_book (wd_db w) -> wd_deposits w' = wd_deposits w -> wsound w -> wsound w'.
Proof. intros E1 E2 E3 E4 E5 S. eapply steady_sound; [done|by apply steady_same]. Qed.

(** Steady work before and after. *)
Lemma moves_then w w1 w2 : moves w w1 -> steady w1 w2 -> moves w w2.
Proof.
  intros [S R D A] T. split; [by eapply steady_sound|by rewrite (sd_rows _ _ T)|..].
  - eapply aside_trans; [exact D|]. apply aside_steady; [apply S|exact T].
  - eapply afar_trans; [done|]. apply T, S.
Qed.

Section Moves.
Context `{UuidText} `{HashMapOrder}.

Lemma cas_finish ev kind actor payload db_now id d w w1 w' from next r :
  wsound w -> worked id d w w1 -> wd_rows w !! id = Some r ->
  cas_with ev kind actor payload db_now from next w1 = Ok w' -> wr_id next = id ->
  (wr_combo r, wr_combo next) ∈ edges ->
  d = hold_amount (wr_combo next) (wr_amount_micro r) - hold_amount (wr_combo r) (wr_amount_micro r) ->
  sent_ok (wd_outbound w1) id (with_combo (wr_combo next) r) ->
  moves w w'.
Proof.
  intros S K Hr Hcas Hid He Hd Hsent. unfold cas_with in Hcas. rewrite Hid in Hcas.
  apply bind_Ok in Hcas as ([swapped w2] & Hc%map_err_Ok & Hcas). destruct swapped; [|done]. injection Hcas as <-.
  eapply moves_then; [by eapply write_row|by apply steady_same].
Qed.

Lemma release_worked ids user amount key id w w1 t w2 :
  worked id 0 w w1 -> 0 < amount <= held (wd_ledger w1) Ref.Withheld Usdc ->
  apply_release ids user amount key w1 = Ok (t, w2) ->
  worked id (- amount) w w2 /\ wd_outbound w2 = wd_outbound w1.
Proof.
  intros [R F S E O K D H' A] Ham Hr. apply transfer_Ok in Hr as (led & -> & X & _ & _ & Hh); [|apply F| |done..]; [|discriminate].
  split; [|done]. split; try done.
  - split; [apply X|apply F].
  - change (wd_ledger (set_wledger led w1)) with led. rewrite Hh. posted_simpl. ty.
  - change (wd_ledger (set_wledger led w1)) with led. rewrite Hh, E. posted_simpl. lia.
  - change (wd_ledger (set_wledger led w1)) with led. rewrite Hh, H'. posted_simpl. lia.
  - eapply afar_trans; [exact A|]. apply afar_extends; [exact X|]. intros m c. fold (wd_ledger w1). rewrite Hh. posted_simpl. lia.
Qed.

Lemma settle_worked ids amount key id w w1 t w2 :
  worked id 0 w w1 -> 0 < amount <= held (wd_ledger w1) Ref.Withheld Usdc ->
  apply_settle ids amount key w1 = Ok (t, w2) ->
  worked id (- amount) w w2 /\ wd_outbound w2 = wd_outbound w1.
Proof.
  intros [R F S E O K D H' A] Ham Hr. apply transfer_Ok in Hr as (led & -> & X & _ & _ & Hh); [|apply F| |done..]; [|discriminate].
  split; [|done]. split; try done.
  - split; [apply X|apply F].
  - change (wd_ledger (set_wledger led w1)) with led. rewrite Hh. posted_simpl. ty.
  - change (wd_ledger (set_wledger led w1)) with led. rewrite Hh, E. posted_simpl. lia.
  - change (wd_ledger (set_wledger led w1)) with led. rewrite Hh, H'. posted_simpl. lia.
  - eapply afar_trans; [exact A|]. apply afar_extends; [exact X|]. intros m c. fold (wd_ledger w1). rewrite Hh. posted_simpl. lia.
Qed.

(** A row with an active hold is covered by the [Withheld] balance. *)
Lemma hold_covered w id r :
  wsound w -> wd_rows w !! id = Some r -> has_active_hold (wr_combo r) = true ->
  0 < wr_amount_micro r <= held (wd_ledger w) Ref.Withheld Usdc.
Proof.
  intros S Hr Ha. rewrite (ws_holds _ S).
  assert (Hpos : forall id r, wd_rows w !! id = Some r -> 0 < wr_amount_micro r).
  { intros i q Hq. pose proof (ro_check _ _ _ (ws_rows _ S _ _ Hq)) as Hc. unfold row_check in Hc. bool_hyps. lia. }
  split; [by eapply Hpos|]. unfold holds_in, amount_where.
  pose proof (msum_ge (fun _ r => if has_active_hold (wr_combo r) then wr_amount_micro r else 0) (wd_rows w) id r) as Hge.
  cbn in Hge. rewrite Ha in Hge. apply Hge; [|done]. intros k v Hk. specialize (Hpos _ _ Hk). case_if; lia.
Qed.
End Moves.

(** ** Lemmas: attempts inside a transaction *)

Lemma moves_refl w : wsound w -> moves w w.
Proof. intros S. split; [done|constructor|done|apply afar_refl, S]. Qed.

Lemma moves_steady w w' : wsound w -> steady w w' -> moves w w'.
Proof. intros S T. eapply moves_then; [by apply moves_refl|done]. Qed.

Lemma worked_same id w w' :
  wsound w -> worked id 0 w w' -> is_Some (wd_rows w !! id) ->
  (forall r, wd_rows w !! id = Some r -> sent_ok (wd_outbound w') id r) -> moves w w'.
Proof.
  intros S W [r0 Hr0] Hs. pose proof (worked_aside _ _ _ _ W) as Has. destruct W as [R F P E O K _ _ A].
  split; [|rewrite R; constructor|done|done]. split; try done.
  - rewrite E, (ws_holds _ S), (holds_in_ext w w') by done. lia.
  - intros id' r. rewrite R. intros Hr. destruct (ws_rows _ S _ _ Hr) as [O1 O2 O3 O4 O5]. split; try done.
    destruct (decide (id' = id)) as [->|Hne]; [by apply Hs|]. unfold sent_ok in O5 |- *.
    destruct (K WithdrawalSubject id' ltac:(congruence)) as [P' A']. rewrite P'. revert O5. destruct (landing_of (cb_send (wr_combo r))); [|done].
    intros (p & front & a & Hp & ? & ? & Hl & ?). exists p, front, a. by rewrite A'.
  - intros id' Hn. rewrite R in Hn. destruct (decide (id' = id)) as [->|Hne]; [congruence|].
    destruct (K WithdrawalSubject id' ltac:(congruence)) as [-> _]. by apply S.
Qed.

Lemma sent_attempt w id r s :
  row_ok (wd_outbound w) id r -> landing_of (cb_send (wr_combo r)) = Some s ->
  exists p front a, attempt_at id (wd_outbound w) p front a /\ at_landing a = s /\ op_dest p = wr_dest r /\
    op_amount_micro p = wr_amount_micro r.
Proof.
  intros O E. pose proof (ro_sent _ _ _ O) as Hs. unfold sent_ok in Hs. rewrite E in Hs.
  destruct Hs as (p & front & a & ? & ? & ? & ? & ?). by exists p, front, a.
Qed.

Lemma attempt_member id ob p front a : attempt_at id ob p front a -> a ∈ ob_attempts ob /\ at_payment a = op_id p.
Proof.
  intros [_ E]. assert (Ha : a ∈ of_payment (op_id p) ob) by (rewrite E; set_solver).
  apply list_elem_of_In, filter_In in Ha as [Ha Hp]. split; [by apply list_elem_of_In|by apply N.eqb_eq].
Qed.

Lemma attempt_front id ob p front a : outbound_wf ob -> attempt_at id ob p front a -> Forall disproved front.
Proof.
  intros W [_ E]. pose proof (ow_lineage _ W (op_id p)) as L. rewrite E in L. inversion L as [E'|l b ? Hl ? ? E'].
  - by destruct front.
  - by apply app_inj_tail in E' as [-> ->].
Qed.

Lemma live_is_last id w p front a b :
  outbound_wf (wd_outbound w) -> attempt_at id (wd_outbound w) p front a -> the_live_attempt p w = Ok b -> b = a.
Proof.
  intros W [_ E] Hb. unfold the_live_attempt in Hb. apply bind_Ok in Hb as (o & Hl%map_err_Ok & Ho%ok_or_Ok). subst o.
  apply live_attempt_Ok in Hl as (_ & _ & _ & front' & E' & _); [|done]. rewrite E in E'. by apply app_inj_tail in E' as [_ ->].
Qed.

Lemma matched_payment_Ok identity row w p :
  matched_payment identity row w = Ok p ->
  payment_of WithdrawalSubject (wr_id row) (wd_outbound w) = Some p /\ op_dest p = wr_dest row /\
  op_amount_micro p = wr_amount_micro row.
Proof.
  unfold matched_payment. intros (o & Ho%map_err_Ok & Hr)%bind_Ok. rewrite payment_by_subject_Ok in Ho. injection Ho as <-.
  apply bind_Ok in Hr as (q & Hq%ok_or_Ok & Hr). apply bind_Ok in Hr as (? & Hm & [= <-]).
  unfold ensure_payment_matches in Hm. destruct (_ || _) eqn:E in Hm; [done|]. bool_hyps.
  rewrite ?bool_decide_eq_true in *. by split_and!.
Qed.

(** The payment of the row is the one its attempt belongs to. *)
Lemma matched_attempt identity row w p p' front a :
  row_ok (wd_outbound w) (wr_id row) row -> attempt_at (wr_id row) (wd_outbound w) p front a ->
  matched_payment identity row w = Ok p' -> p' = p.
Proof. intros O [E _] (E' & _)%matched_payment_Ok. congruence. Qed.

(** Saving the last attempt of a subject's payment. *)
Lemma save_subject s id ob ob' p front cur a :
  outbound_wf ob -> payment_of s id ob = Some p -> of_payment (op_id p) ob = front ++ [cur] ->
  at_id a = at_id cur -> at_payment a = at_payment cur -> save_attempt a ob = Ok ob' ->
  outbound_wf ob' /\ others_kept s id ob ob' /\ payment_of s id ob' = Some p /\
  of_payment (op_id p) ob' = front ++ [a] /\ legal_attempt_edge (at_landing cur) (at_landing a) = true.
Proof.
  intros W E1 E2 Hid Hpay Hs. assert (Hp : at_payment cur = op_id p).
  { assert (Hc : cur ∈ of_payment (op_id p) ob) by (rewrite E2; set_solver).
    apply list_elem_of_In, filter_In in Hc as [_ Hc]. by apply N.eqb_eq. }
  rewrite <- Hp, <- Hpay in E2. apply (save_last _ _ _ front cur) in Hs as (W' & P & L & Ho & He); [|done..].
  assert (Hpo : forall s i, payment_of s i ob' = payment_of s i ob) by (intros s' i; unfold payment_of; by rewrite P).
  rewrite Hpo. split_and!; [done| |done|by rewrite <- Hp, <- Hpay|done].
  intros s' id' Hne. split; [apply Hpo|]. intros p' Hp'. apply Ho. intros E. destruct Hne.
  destruct (payment_of_inj s' s id' id ob p' p) as [-> ->]; [done..|congruence|done].
Qed.

(** A new attempt of a subject's payment. *)
Lemma insert_subject s id ob ob' p a :
  outbound_wf ob -> payment_of s id ob = Some p -> at_payment a = op_id p -> insert_attempt a ob = Ok ob' ->
  outbound_wf ob' /\ others_kept s id ob ob' /\ payment_of s id ob' = Some p /\
  of_payment (op_id p) ob' = of_payment (op_id p) ob ++ [a] /\ at_landing a = Landing.Prepared.
Proof.
  intros W Hp Hpay Hi. apply insert_attempt_Ok in Hi as (W' & P & Hl & _ & Hof); [|done].
  assert (Hpo : forall s i, payment_of s i ob' = payment_of s i ob) by (intros s' i; unfold payment_of; by rewrite P).
  rewrite Hpo, Hof, Hpay, N.eqb_refl. split_and!; try done.
  intros s' id' Hne. split; [apply Hpo|]. intros p' Hp'. rewrite Hof.
  destruct (N.eqb_spec (at_payment a) (op_id p')) as [E|]; [|by rewrite app_nil_r]. destruct Hne.
  destruct (payment_of_inj s' s id' id ob p' p) as [-> ->]; [done..|congruence|done].
Qed.

(** The payment of a subject that had none. *)
Lemma pay_subject s id ob ob' p :
  outbound_wf ob -> op_subject p = s -> op_subject_id p = id -> insert_payment p ob = Ok ob' ->
  outbound_wf ob' /\ others_kept s id ob ob' /\ payment_of s id ob' = Some p /\
  of_payment (op_id p) ob' = [].
Proof.
  intros W <- <- Hi. apply insert_payment_Ok in Hi as (W' & A & _ & -> & Hn & Hof); [|done]. split_and!; [done| |..|done].
  - intros s' id' Hne. split; [|done]. rewrite payment_of_snoc. destruct (payment_of s' id' ob); [done|].
    case_bool_decide as Es; [|done]. rewrite (proj2 (N.eqb_neq _ _)) by congruence. done.
  - rewrite payment_of_snoc, Hn, N.eqb_refl. by rewrite bool_decide_eq_true_2.
Qed.

Lemma store_attempt_worked id d w w1 w2 p front cur a :
  worked id d w w1 -> attempt_at id (wd_outbound w1) p front cur -> at_id a = at_id cur -> at_payment a = at_payment cur ->
  store_attempt a w1 = Ok w2 ->
  worked id d w w2 /\ attempt_at id (wd_outbound w2) p front a /\ wd_db w2 = wd_db w1.
Proof.
  intros K [E1 E2] Hid Hpay Hr. unfold store_attempt in Hr. apply bind_Ok in Hr as (ob & Hs%map_err_Ok & [= <-]).
  apply (save_subject WithdrawalSubject id _ _ p front cur) in Hs as (W' & Ko & P & L & _); [|apply K|done..].
  split_and!; [by apply worked_outbound|by split|done].
Qed.

Lemma attempt_sent_ok id ob p front a r c :
  attempt_at id ob p front a -> op_dest p = wr_dest r -> op_amount_micro p = wr_amount_micro r ->
  landing_of (cb_send c) = Some (at_landing a) -> sent_ok ob id (with_combo c r).
Proof. intros [E1 E2] Hd Ha Hl. unfold sent_ok. cbn. rewrite Hl. by exists p, front, a. Qed.

Lemma ensure_landing_Ok a s message u : ensure_landing a s message = Ok u -> at_landing a = s.
Proof. unfold ensure_landing. destruct (bool_decide _) eqn:E; [|done]. by apply bool_decide_eq_true in E. Qed.

(** A legal combination is known from its send state and status. *)
Lemma check_legal r : row_check r = true -> is_legal (wr_combo r) = true.
Proof. unfold row_check. intros. by bool_hyps. Qed.

(** ** Lemmas: reconciliation *)

(** Opens a transaction that locks its row. *)
Tactic Notation "locked" hyp(Hr) "as" ident(row) ident(Hrow) ident(O) :=
  let user := fresh "user" in let Hl := fresh "Hl" in
  apply bind_Ok in Hr as (user & _ & Hr); apply bind_Ok in Hr as (row & Hl & Hr);
  apply locked_row_Ok in Hl as [Hrow O]; [|done]; cbv zeta in Hr.

(** Decides membership of an edge. *)
Ltac edge := match goal with |- ?P => refine (bool_decide_unpack P _); vm_compute; exact I end.

Section Reconcile.
Context `{UuidText} `{HashMapOrder} (time_json : Z -> Value).

Lemma found_payment w id p o :
  payment_of WithdrawalSubject id (wd_outbound w) = Some p ->
  payment_by_subject WithdrawalSubject id (wd_outbound w) = Ok o -> o = Some p.
Proof. rewrite payment_by_subject_Ok. congruence. Qed.

(** An attempt and its row advance together, the hold staying. *)
Lemma advance_attempt ev kind actor payload db_now id w w1 w2 row from next p front a a' :
  wsound w -> wd_rows w !! id = Some row -> row_ok (wd_outbound w) id row ->
  attempt_at id (wd_outbound w) p front a -> store_attempt a' w = Ok w1 ->
  cas_with ev kind actor payload db_now from next w1 = Ok w2 ->
  op_dest p = wr_dest row -> op_amount_micro p = wr_amount_micro row ->
  at_id a' = at_id a -> at_payment a' = at_payment a -> wr_id next = wr_id row ->
  (wr_combo row, wr_combo next) ∈ edges ->
  has_active_hold (wr_combo row) = true -> has_active_hold (wr_combo next) = true ->
  landing_of (cb_send (wr_combo next)) = Some (at_landing a') -> moves w w2.
Proof.
  intros S Hrow O A Hs Hc Hd Ha Hid Hpay Hn He H1 H2 Hl.
  apply (store_attempt_worked id 0 w w w1 p front a) in Hs as (K & A' & _); [|by apply worked_refl|done..].
  eapply cas_finish; [done|exact K|done|exact Hc|by rewrite Hn; apply O|done| |].
  - unfold hold_amount. rewrite H1, H2. lia.
  - by eapply attempt_sent_ok.
Qed.

Lemma mark_unknown_moves db_now now id w0 w : wsound w -> moves w (mark_unknown db_now now id w0 w).2.
Proof.
  intros S. apply (atomic_cases w _ (moves w)); [by apply moves_refl|]. intros row' w' Hr. locked Hr as row Hrow O.
  case_bool_decide as H7; [injection Hr as _ <-; by apply moves_refl|].
  destruct (negb _ && negb _) eqn:E in Hr; [done|].
  apply bind_Ok in Hr as (found & Hf%map_err_Ok & Hr). apply bind_Ok in Hr as (p' & Hp'%ok_or_Ok & Hr). subst found.
  apply bind_Ok in Hr as (att & Hatt & Hr). case_bool_decide as H3.
  { apply bind_Ok in Hr as (lease & _ & Hr). by destruct (now <? lease). }
  assert (H6 : wr_combo row = W6).
  { apply andb_false_iff in E as [E|E]; [by apply negb_false_iff, bool_decide_eq_true in E|done]. }
  destruct (sent_attempt w id row Landing.Broadcast O) as (p & front & a & A & La & Hd & Ha); [by rewrite H6|].
  pose proof A as [Hp _]. rewrite (ro_id _ _ _ O) in Hf. apply (found_payment _ _ p) in Hf as [= ->]; [|done].
  apply (live_is_last id _ _ front a) in Hatt as ->; [|apply S|done].
  apply bind_Ok in Hr as (w1 & Hs & Hr). apply bind_Ok in Hr as (w2 & Hc & [= _ <-]).
  eapply advance_attempt; [done|exact Hrow|done|exact A|exact Hs|exact Hc|done..| | | |done]; rewrite ?H6; [edge|done..].
Qed.

(** The attempt a sending use case finds. *)
Lemma found_attempt identity w id row s p att :
  wsound w -> row_ok (wd_outbound w) id row -> landing_of (cb_send (wr_combo row)) = Some s ->
  matched_payment identity row w = Ok p -> the_live_attempt p w = Ok att ->
  exists front, attempt_at id (wd_outbound w) p front att /\ at_landing att = s /\ op_dest p = wr_dest row /\
    op_amount_micro p = wr_amount_micro row.
Proof.
  intros S O E (Hp & Hd & Ha)%matched_payment_Ok Hatt. rewrite (ro_id _ _ _ O) in Hp.
  destruct (sent_attempt w id row s O E) as (p' & front & a & A & La & _). pose proof A as [Hp' _].
  assert (p' = p) as -> by congruence. apply (live_is_last id _ _ front a) in Hatt as ->; [|apply S|done]. by exists front.
Qed.

(** A live attempt says which state the row is in. *)
Lemma live_state identity w id row p att :
  wsound w -> wd_rows w !! id = Some row -> row_ok (wd_outbound w) id row ->
  matched_payment identity row w = Ok p -> the_live_attempt p w = Ok att ->
  landing_of (cb_send (wr_combo row)) = Some (at_landing att).
Proof.
  intros S Hrow O Hm Hatt. destruct (landing_of (cb_send (wr_combo row))) as [s|] eqn:E.
  - by destruct (found_attempt identity w id row s p att) as (front & _ & <- & _).
  - apply matched_payment_Ok in Hm as (Hp & _). pose proof (ro_sent _ _ _ O) as Hs. unfold sent_ok in Hs. rewrite E in Hs.
    rewrite (ro_id _ _ _ O) in Hp. congruence.
Qed.

(** Sending means claimed or replaced. *)
Lemma sending_combo r : row_check r = true -> landing_of (cb_send (wr_combo r)) = Some Landing.Prepared ->
  wr_combo r = W3 \/ wr_combo r = W8.
Proof.
  intros Hc%check_legal. destruct (wr_combo r) as [s v d]. by destruct s, v, d; try discriminate Hc; cbn; auto.
Qed.

Lemma cas_broadcast_moves identity db_now now id expected w0 w :
  wsound w -> moves w (cas_broadcast identity db_now now id expected w0 w).2.
Proof.
  intros S. apply (atomic_cases w _ (moves w)); [by apply moves_refl|]. intros row' w' Hr. locked Hr as row Hrow O.
  destruct (negb _) eqn:Hx in Hr; [injection Hr as _ <-; by apply moves_refl|]. apply negb_false_iff, bool_decide_eq_true in Hx.
  apply bind_Ok in Hr as (p & Hp & Hr). apply bind_Ok in Hr as (att & Hatt & Hr).
  apply bind_Ok in Hr as (u & Hl%ensure_landing_Ok & Hr).
  pose proof (live_state _ _ _ _ _ _ S Hrow O Hp Hatt) as E. rewrite Hl in E.
  destruct (found_attempt identity w id row _ p att S O E Hp Hatt) as (front & A & La & Hd & Ha).
  apply bind_Ok in Hr as (w1 & Hs & Hr). apply bind_Ok in Hr as (w2 & Hc & [= _ <-]).
  destruct (sending_combo row (ro_check _ _ _ O) E) as [H3|H3];
  (eapply advance_attempt; [done|exact Hrow|done|exact A|exact Hs|exact Hc|done|done|done|done| | | | |];
    [by destruct (wr_sent_at _)|rewrite H3; destruct (wr_sent_at _); edge|by rewrite H3|by destruct (wr_sent_at _)..]).
Qed.

Lemma expired_prepared_Ok identity row now m1 m2 w p att :
  expired_prepared identity row now m1 m2 w = Ok (p, att) ->
  matched_payment identity row w = Ok p /\ the_live_attempt p w = Ok att /\ at_landing att = Landing.Prepared.
Proof.
  unfold expired_prepared. intros (q & Hq & Hr)%bind_Ok. apply bind_Ok in Hr as (b & Hb & Hr).
  apply bind_Ok in Hr as (u & Hl%ensure_landing_Ok & Hr). apply bind_Ok in Hr as (lease & _ & Hr).
  destruct (now <? lease); [done|]. by injection Hr as <- <-.
Qed.

Lemma recover_w3_moves identity signer db_now now id w0 w :
  wsound w -> moves w (recover_w3 time_json identity signer db_now now id w0 w).2.
Proof.
  intros S. apply (atomic_cases w _ (moves w)); [by apply moves_refl|]. intros row' w' Hr. locked Hr as row Hrow O.
  case_bool_decide as H67; [injection Hr as _ <-; by apply moves_refl|].
  destruct (negb _) eqn:H3 in Hr; [done|]. apply negb_false_iff, bool_decide_eq_true in H3.
  apply bind_Ok in Hr as ([p att] & (Hp & Hatt & _)%expired_prepared_Ok & Hr).
  destruct (found_attempt identity w id row Landing.Prepared p att S O) as (front & A & La & Hd & Ha); [by rewrite H3|done..|].
  destruct (presence_of _ _); cbv zeta in Hr;
    try (destruct (bool_decide _ && _) in Hr; [done|]);
    apply bind_Ok in Hr as (w1 & Hs & Hr); apply bind_Ok in Hr as (w2 & Hc & [= _ <-]);
    (eapply advance_attempt; [done|exact Hrow|done|exact A|exact Hs|exact Hc|done|done|done|done| | | | |]; try done;
     rewrite ?H3; try done; try (by destruct (wr_sent_at _)); try edge).
  destruct (wr_sent_at _); edge.
Qed.
(** Only the last attempt can still be moved. *)
Lemma stored_is_last id w w1 p front a att s :
  wsound w -> attempt_at id (wd_outbound w) p front a -> att ∈ of_payment (op_id p) (wd_outbound w) ->
  s <> Landing.DefinitiveFailed -> store_attempt (with_landing s att) w = Ok w1 -> att = a.
Proof.
  intros S [_ E] Hatt Hs Hr. unfold store_attempt in Hr. apply bind_Ok in Hr as (ob & Hsv%map_err_Ok & _).
  apply save_attempt_inv in Hsv as (_ & cur & Hc & Hid & _ & _ & He). cbn in Hid, He.
  pose proof (ws_outbound _ S) as W.
  assert (Hm : att ∈ ob_attempts (wd_outbound w)) by (apply list_elem_of_In, filter_In in Hatt as [? _]; by apply list_elem_of_In).
  assert (cur = att) as -> by (by eapply (NoDup_map_elem at_id); [apply W|..]).
  destruct (lineage_last _ _ (ow_lineage _ W (op_id p)) Hatt) as (front' & E' & _).
  - intros Hl. rewrite Hl in He. by apply legal_edge_failed in He.
  - rewrite E in E'. by apply app_inj_tail in E' as [_ ->].
Qed.

Lemma observe_finalized_moves identity db_now now id receipt w0 w :
  wsound w -> moves w (observe_finalized identity db_now now id receipt w0 w).2.
Proof.
  intros S. apply (atomic_cases w _ (moves w)); [by apply moves_refl|]. intros row' w' Hr. locked Hr as row Hrow O.
  destruct (negb _) eqn:Hin in Hr; [done|]. apply negb_false_iff, bool_decide_eq_true in Hin.
  apply bind_Ok in Hr as (p & Hp & Hr). apply bind_Ok in Hr as (atts & Hl%map_err_Ok & Hr).
  rewrite attempts_for_Ok in Hl by apply S. injection Hl as <-.
  apply bind_Ok in Hr as (att & Hf%ok_or_Ok & Hr). apply find_by in Hf as [Hatt _]. apply bind_Ok in Hr as (u & _ & Hr).
  case_bool_decide as H9. { apply bind_Ok in Hr as (u' & _ & Hr). injection Hr as _ <-. by apply moves_refl. }
  apply matched_payment_Ok in Hp as (Hp & _). rewrite (ro_id _ _ _ O) in Hp.
  apply bind_Ok in Hr as (w1 & Hs & Hr). apply bind_Ok in Hr as (w2 & Hc & [= _ <-]).
  assert (Hstate : wr_combo row = W6 \/ wr_combo row = W7 \/ wr_combo row = W8) by set_solver.
  assert (exists s, landing_of (cb_send (wr_combo row)) = Some s) as [s Es] by (by destruct Hstate as [->|[->| ->]]; eexists).
  destruct (sent_attempt w id row s O Es) as (p' & front & a & A & La & Hd & Ha). pose proof A as [Hp' _].
  assert (p' = p) as -> by congruence. assert (att = a) as -> by (by eapply (stored_is_last id w w1 p front a att Landing.Finalized)).
  eapply advance_attempt; [done|exact Hrow|done|exact A|exact Hs|exact Hc|done..| | | |done]; try done;
    destruct Hstate as [->|[->| ->]]; (edge || done).
Qed.

Lemma prove_non_landing_moves ids identity db_now now id observations w0 w :
  wsound w -> moves w (prove_non_landing time_json ids identity db_now now id observations w0 w).2.
Proof.
  intros S. apply (atomic_cases w _ (moves w)); [by apply moves_refl|]. intros row' w' Hr. locked Hr as row Hrow O.
  case_bool_decide as H15; [injection Hr as _ <-; by apply moves_refl|].
  destruct (negb _ && negb _) eqn:E in Hr; [done|].
  assert (H78 : wr_combo row = W7 \/ wr_combo row = W8).
  { apply andb_false_iff in E as [E|E]; apply negb_false_iff, bool_decide_eq_true in E; auto. }
  apply bind_Ok in Hr as (p & Hp & Hr). apply bind_Ok in Hr as (att & Hatt & Hr).
  pose proof (live_state _ _ _ _ _ _ S Hrow O Hp Hatt) as El.
  destruct (found_attempt identity w id row _ p att S O El Hp Hatt) as (front & A & _ & Hd & Ha).
  case_bool_decide as Hv.
  - apply bind_Ok in Hr as (w1 & Hs & Hr). case_bool_decide as H7.
    + injection Hr as _ <-. apply (store_attempt_worked id 0 w w w1 p front att) in Hs as (K & A' & _);
        [|by apply worked_refl|done..]. apply (worked_same id); [done..|by eexists|]. intros r Hr. assert (r = row) as -> by congruence.
      apply (attempt_sent_ok _ _ _ _ _ row W7) in A'; [|done..]. unfold sent_ok in *. by rewrite H7.
    + apply bind_Ok in Hr as (w2 & Hc & [= _ <-]). destruct H78 as [?|H8]; [done|].
      eapply advance_attempt; [done|exact Hrow|done|exact A|exact Hs|exact Hc|done..| | | |done]; rewrite ?H8; (edge || done).
  - apply bind_Ok in Hr as ([t w1] & Hrel%map_err_Ok & Hr).
    apply (release_worked _ _ _ _ id w w) in Hrel as [K Ho]; [|by apply worked_refl|by eapply hold_covered; [..|destruct H78 as [-> | ->]]].
    apply bind_Ok in Hr as (w2 & Hs & Hr). rewrite <- Ho in A.
    apply (store_attempt_worked id (- wr_amount_micro row) w w1 w2 p front att) in Hs as (K' & A' & _); [|done..].
    apply bind_Ok in Hr as (w3 & Hc & [= _ <-]).
    eapply cas_finish; [done|exact K'|done|exact Hc|apply O| | |by eapply attempt_sent_ok];
      destruct H78 as [-> | ->]; (edge || (cbn; lia)).
Qed.

Lemma check_identities_steady fresh attempts w w' :
  funds_wf (td_funds (wd_db w)) -> check_identities fresh attempts w = Ok w' -> steady w w'.
Proof.
  intros F. unfold check_identities. intros (rows & _ & Hr)%bind_Ok. apply bind_Ok in Hr as ([b w1] & Hb%map_err_Ok & Hr).
  apply bind_Ok in Hr as (a & _ & Hr). destruct (_ && _) in Hr; [|done]. injection Hr as <-.
  by apply owner_balance_Ok in Hb as [? _].
Qed.

Lemma settle_withdraw_moves ids identity db_now now id receipt w0 w :
  wsound w -> moves w (settle_withdraw ids identity db_now now id receipt w0 w).2.
Proof.
  intros S. apply (atomic_cases w _ (moves w)); [by apply moves_refl|]. intros row' w' Hr. locked Hr as row Hrow O.
  destruct (negb _ && negb _) eqn:E in Hr; [done|].
  apply bind_Ok in Hr as (p & Hp & Hr). apply bind_Ok in Hr as (atts & _ & Hr).
  apply bind_Ok in Hr as (att & _ & Hr). apply bind_Ok in Hr as (u & _ & Hr).
  case_bool_decide as H10; [injection Hr as _ <-; by apply moves_refl|].
  assert (H9 : wr_combo row = W9).
  { apply andb_false_iff in E as [E|E]; [by apply negb_false_iff, bool_decide_eq_true in E|done]. }
  apply bind_Ok in Hr as ([t w1] & Hset & Hr).
  assert (Hs : apply_settle (st_leg ids) (wr_amount_micro row) (settle_key (wr_id row)) w = Ok (t, w1))
    by (destruct (apply_settle _ _ _ _) as [x|e|]; [by injection Hset as ->|by destruct e|done]). clear Hset.
  apply (settle_worked _ _ _ id w w) in Hs as [K Ho]; [|by apply worked_refl|by eapply hold_covered; [..|rewrite H9]].
  apply bind_Ok in Hr as ([sw w2] & Hc%map_err_Ok & Hr). destruct sw; [|done]. cbn [negb] in Hr.
  apply bind_Ok in Hr as (w3 & Hi & [= _ <-]).
  assert (M : moves w w2).
  { eapply write_row; [done|exact K|done|exact Hc|rewrite H9; edge|rewrite H9; cbn; lia|].
    destruct (sent_attempt w id row Landing.Finalized O) as (p' & front & a & A & La & Hd & Ha); [by rewrite H9|].
    rewrite Ho. eapply attempt_sent_ok; [done..|]. by rewrite La. }
  apply check_identities_steady in Hi as Hi; [|apply M].
  eapply moves_then; [exact M|]. eapply steady_trans; [|exact Hi]. by apply steady_same.
Qed.
End Reconcile.

(** ** Lemmas: sending *)

Section Sending.
Context `{UuidText} `{HashMapOrder} (time_json : Z -> Value).

Lemma recover_sending_moves identity signer db_now now id row w stage w' :
  wsound w -> wd_rows w !! id = Some row -> row_ok (wd_outbound w) id row ->
  recover_sending identity signer db_now now row w = Ok (stage, w') -> moves w w'.
Proof.
  intros S Hrow O Hr. unfold recover_sending in Hr. cbv zeta in Hr.
  apply bind_Ok in Hr as ([p att] & (Hp & Hatt & Hl)%expired_prepared_Ok & Hr).
  pose proof (live_state _ _ _ _ _ _ S Hrow O Hp Hatt) as El. rewrite Hl in El.
  destruct (found_attempt identity w id row _ p att S O El Hp Hatt) as (front & A & _ & Hd & Ha).
  pose proof (sending_combo row (ro_check _ _ _ O) El) as H38.
  assert (Hunknown : forall stage, (w ← store_attempt (with_landing Landing.Unknown att) w;
    w ← finish_cas db_now (wr_combo row) (with_combo W7 row) "lease-lookup-unknown" w;
    Ok (SendDone (with_combo W7 row), w)) = Ok (stage, w') -> moves w w').
  { intros st (w1 & Hs & Hu)%bind_Ok. apply bind_Ok in Hu as (w2 & Hc & [= _ <-]).
    eapply advance_attempt; [done|exact Hrow|done|exact A|exact Hs|exact Hc|done..| | | |done]; try done;
      destruct H38 as [-> | ->]; (edge || done). }
  destruct (presence_of _ _); [|destruct (height_at_most _ _)|]; try by eapply Hunknown.
  - apply bind_Ok in Hr as (w1 & Hs & Hr). apply bind_Ok in Hr as (w2 & Hc & [= _ <-]).
    eapply advance_attempt; [done|exact Hrow|done|exact A|exact Hs|exact Hc|done..| | | |done]; try done;
      destruct H38 as [-> | ->]; (edge || done).
  - injection Hr as _ <-. by apply moves_refl.
Qed.

(** A new attempt of the payment of [id]. *)
Lemma insert_attempt_worked id d w w1 p a ob :
  worked id d w w1 -> payment_of WithdrawalSubject id (wd_outbound w1) = Some p -> at_payment a = op_id p ->
  insert_attempt a (wd_outbound w1) = Ok ob ->
  worked id d w (set_outbound ob w1) /\ attempt_at id ob p (of_payment (op_id p) (wd_outbound w1)) a /\
  at_landing a = Landing.Prepared.
Proof.
  intros K Hp Hpay Hi. apply (insert_subject WithdrawalSubject id _ _ p) in Hi as (W' & Ko & P & L & Hl); [|apply K|done..].
  split_and!; [by apply worked_outbound|by split|done].
Qed.

Lemma insert_payment_worked id d w w1 p ob :
  worked id d w w1 -> op_subject p = WithdrawalSubject -> op_subject_id p = id ->
  insert_payment p (wd_outbound w1) = Ok ob ->
  worked id d w (set_outbound ob w1) /\ payment_of WithdrawalSubject id ob = Some p.
Proof.
  intros K Hs Hid Hi. apply (pay_subject WithdrawalSubject id) in Hi as (W' & Ko & P & _); [|apply K|done..].
  split; [by apply worked_outbound|done].
Qed.

Lemma ensure_matches_Ok identity p row u :
  ensure_payment_matches identity p row = Ok u -> op_dest p = wr_dest row /\ op_amount_micro p = wr_amount_micro row.
Proof.
  unfold ensure_payment_matches. destruct (_ || _) eqn:E; [done|]. bool_hyps. by rewrite ?bool_decide_eq_true in *.
Qed.

Lemma claim_prepare_Ok ids identity signer now id row w0 w p a w' :
  worked id 0 w0 w -> row_ok (wd_outbound w) id row -> cb_send (wr_combo row) = WSend.Unsent ->
  claim_prepare ids identity signer now row w = Ok (p, a, w') ->
  worked id 0 w0 w' /\ attempt_at id (wd_outbound w') p [] a /\ op_dest p = wr_dest row /\
  op_amount_micro p = wr_amount_micro row /\ at_landing a = Landing.Prepared.
Proof.
  intros K O Hu Hr. unfold claim_prepare in Hr.
  pose proof (ro_sent _ _ _ O) as Hn. unfold sent_ok in Hn. rewrite Hu in Hn. cbn in Hn.
  apply bind_Ok in Hr as (found & Hf%map_err_Ok & Hr). rewrite payment_by_subject_Ok, (ro_id _ _ _ O), Hn in Hf.
  injection Hf as <-. apply bind_Ok in Hr as ([p1 w1] & Hp & Hr). cbv zeta in Hp.
  apply bind_Ok in Hp as (ob & Hi%map_err_Ok & [= <- <-]).
  apply (insert_payment_worked id 0 w0) in Hi as [K1 Hp1]; [|done|done|apply O].
  apply bind_Ok in Hr as (u & (Hd & Ha)%ensure_matches_Ok & Hr). apply bind_Ok in Hr as (atts & Hl%map_err_Ok & Hr).
  cbn [wd_outbound set_outbound] in Hl, Hr.
  rewrite attempts_for_Ok in Hl by apply K1. injection Hl as <-.
  destruct (is_empty _) eqn:He in Hr; [|done]. cbn [negb] in Hr.
  apply bind_Ok in Hr as ([[bytes sig] last] & _ & Hr). apply bind_Ok in Hr as (lease & _ & Hr). cbv zeta in Hr.
  apply bind_Ok in Hr as (ob2 & Hi2%map_err_Ok & [= <- <- <-]).
  eapply (insert_attempt_worked id 0 w0 (set_outbound ob w)) in Hi2 as (K2 & A2 & L2); [|exact K1|exact Hp1|done].
  split_and!; try done. cbn [wd_outbound set_outbound] in A2 |- *. by destruct (of_payment _ ob).
Qed.

(** A drop of the transaction, or what follows the rail's answer. *)
Lemma with_rail_Ok {A} p a rail (k : outcome AppError A) r rail' :
  with_rail p a rail k = (Ok r, rail') -> k = Ok r.
Proof. unfold with_rail. destruct (persist_signed _ _ _ _); by intros [= -> _]. Qed.

Lemma claim_w2_moves ids identity signer db_now now id row w w1 rail stage w' rail' :
  wsound w -> steady w w1 -> wd_rows w !! id = Some row -> row_ok (wd_outbound w) id row -> wr_combo row = W2 ->
  claim_w2 ids identity signer db_now now row w1 rail = (Ok (stage, w'), rail') -> moves w w'.
Proof.
  intros S T Hrow O H2 Hr. unfold claim_w2 in Hr.
  destruct (claim_prepare _ _ _ _ _ _) as [[[p a] w2]| |] eqn:Hp; [|done..]. apply with_rail_Ok in Hr. cbv zeta in Hr.
  apply (claim_prepare_Ok _ _ _ _ id _ w) in Hp as (K & A & Hd & Ha & Hl);
    [|by eapply worked_steady; [apply worked_refl|]|by rewrite (sd_outbound _ _ T)|by rewrite H2].
  apply bind_Ok in Hr as ([sw w3] & Hc%map_err_Ok & Hr). destruct sw; [|done]. injection Hr as _ <-.
  change (wr_id (with_combo W3 row)) with (wr_id row) in *. rewrite (ro_id _ _ _ O) in *.
  eapply moves_then; [|by apply (steady_same w3)].
  eapply (write_row id 0 w w2 w3 W2 (with_combo W3 row) row); try done;
    [rewrite H2; edge|rewrite H2; cbn; lia|by eapply attempt_sent_ok; [..|rewrite Hl]].
Qed.

Lemma send_moves ids identity signer db_now now id w0 w rail :
  wsound w -> moves w (send ids identity signer db_now now id w0 w rail).1.2.
Proof.
  intros S. unfold send. cbv zeta. destruct (user ← _; _) as [row| |] eqn:Hl; [|by apply moves_refl..].
  apply bind_Ok in Hl as (user & _ & [Hrow O]%locked_row_Ok); [|done].
  repeat case_bool_decide; cbn [negb].
  - apply (atomic_cases w _ (moves w)); [by apply moves_refl|]. intros st w' Hr. unfold sent_already in Hr.
    apply bind_Ok in Hr as (p & _ & Hr). apply bind_Ok in Hr as (atts & _ & Hr). cbv zeta in Hr.
    destruct (existsb _ _); [|done]. injection Hr as _ <-. by apply moves_refl.
  - apply (atomic_cases w _ (moves w)); [by apply moves_refl|]. intros st w' Hr. by eapply recover_sending_moves.
  - apply (atomic_cases w _ (moves w)); [by apply moves_refl|]. intros st w' Hr. unfold rebroadcast_unknown in Hr.
    do 4 (apply bind_Ok in Hr as (? & _ & Hr)). destruct (_ >? _); [done|]. injection Hr as _ <-. by apply moves_refl.
  - destruct (ensure_send_allowed _ _ _ _ _) as [w1| |] eqn:He; [|by apply moves_refl..].
    destruct (claim_w2 _ _ _ _ _ _ _ _) as [m rail'] eqn:Hc. cbn [fst snd].
    apply (atomic_cases w _ (moves w)); [by apply moves_refl|]. intros st w' ->.
    eapply claim_w2_moves; [done|by eapply still_steady, ensure_send_allowed_still|done..].
  - by apply moves_refl.
Qed.

Lemma replace_checks_Ok identity signer now id user observations w row p atts old verdict :
  wsound w -> replace_checks time_json identity signer now id user observations w = Ok (row, p, atts, old, verdict) ->
  wd_rows w !! id = Some row /\ row_ok (wd_outbound w) id row /\ wr_combo row = W7 /\ op_dest p = wr_dest row /\
  op_amount_micro p = wr_amount_micro row /\ atts = of_payment (op_id p) (wd_outbound w) /\
  exists front a, attempt_at id (wd_outbound w) p front a /\ at_landing a = Landing.Unknown /\ at_id old = at_id a /\
    at_payment old = at_payment a /\ at_landing old = at_landing a /\
    verdict = safe_non_landing_verdict (at_last_valid a) observations (rpc_endpoints identity).
Proof.
  intros S Hr. unfold replace_checks in Hr. apply bind_Ok in Hr as (r & Hl & Hr).
  apply locked_row_Ok in Hl as [Hrow O]; [|done]. destruct (negb _) eqn:H7 in Hr; [done|].
  apply negb_false_iff, bool_decide_eq_true in H7.
  apply bind_Ok in Hr as (q & Hp & Hr). apply bind_Ok in Hr as (atts' & Hat%map_err_Ok & Hr).
  rewrite attempts_for_Ok in Hat by apply S. injection Hat as <-. apply bind_Ok in Hr as (att & Hatt & Hr).
  apply bind_Ok in Hr as (u & Hun%ensure_landing_Ok & Hr). apply bind_Ok in Hr as (h & _ & Hr).
  destruct (h <=? _); [done|]. cbv zeta in Hr. injection Hr as <- <- <- <- <-.
  destruct (found_attempt identity w id r Landing.Unknown q att S O) as (front & A & La & Hd & Ha); [by rewrite H7|done..|].
  split_and!; try done. by exists front, att.
Qed.

Lemma replace_expired_moves ids identity signer db_now now id observations w0 w rail :
  wsound w -> moves w (replace_expired time_json ids identity signer db_now now id observations w0 w rail).1.2.
Proof.
  intros S. unfold replace_expired. destruct (user ← _; _) as [[[[[row p] atts] old] verdict]| |] eqn:Hl; [|by apply moves_refl..].
  apply bind_Ok in Hl as (user & _ & (Hrow & O & H7 & Hd & Ha & -> & front & a & A & La & Hid & Hpay & Lo & _)%replace_checks_Ok); [|done].
  case_bool_decide as Hv; cbn [negb fst snd].
  - destruct (replace_prepare _ _ _ _ _ _ _ _) as [[att w1]| |] eqn:Hp; [|by apply moves_refl..].
    destruct (with_rail _ _ _ _) as [m rail'] eqn:Hw. cbn [fst snd].
    apply (atomic_cases w _ (moves w)); [by apply moves_refl|]. intros st w' ->. apply with_rail_Ok in Hw. cbv zeta in Hw.
    apply bind_Ok in Hw as (w2 & Hc & [= _ <-]).
    unfold replace_prepare in Hp. apply bind_Ok in Hp as (w3 & Hs & Hp).
    apply (store_attempt_worked id 0 w w w3 p front a) in Hs as (K & A' & _); [|by apply worked_refl|done..].
    apply bind_Ok in Hp as ([[bytes sig] last] & _ & Hp). destruct (existsb _ _); [done|].
    apply bind_Ok in Hp as (lease & _ & Hp). cbv zeta in Hp. apply bind_Ok in Hp as (ob & Hi%map_err_Ok & [= <- <-]).
    eapply (insert_attempt_worked id 0 w) in Hi as (K2 & A2 & L2); [|exact K|apply A'|done].
    eapply cas_finish; [done|exact K2|done|exact Hc|apply O|rewrite H7; edge|rewrite H7; cbn; lia|].
    eapply attempt_sent_ok; [exact A2|done..].
  - apply (atomic_cases w _ (moves w)); [by apply moves_refl|]. intros st w' Hr. apply bind_Ok in Hr as (w1 & Hs & [= _ <-]).
    apply (store_attempt_worked id 0 w w w1 p front a) in Hs as (K & A' & _); [|by apply worked_refl|done..].
    apply (worked_same id); [done..|by eexists|]. intros r Hr. assert (r = row) as -> by congruence.
    apply (attempt_sent_ok _ _ _ _ _ row W7) in A'; [|done..|by rewrite Lo, La]. unfold sent_ok in *. by rewrite H7.
Qed.

Lemma after_commit_moves identity rpc db_now now stage w0 w rail :
  wsound w -> moves w (after_commit identity rpc db_now now stage w0 w rail).1.2.
Proof.
  intros S. unfold after_commit. destruct stage as [row|p row expected|p a row expected]; cbn.
  - by apply moves_refl.
  - destruct (broadcast _ _ _ _); cbn; [by apply cas_broadcast_moves|by apply moves_refl..].
  - destruct (same_bytes_rebroadcast _ _ _ _ _) as [sent rail']. destruct sent; [destruct expected|..]; cbn;
      [by apply cas_broadcast_moves|by apply moves_refl..].
Qed.
End Sending.

(** ** Lemmas: decision *)

Section Deciding.
Context `{UuidText} `{HashMapOrder} (sha256 : string -> list Z).

Lemma unsent_ok id ob r c :
  row_ok ob id r -> cb_send (wr_combo r) = WSend.Unsent -> cb_send c = WSend.Unsent -> sent_ok ob id (with_combo c r).
Proof. intros O E1 E2. pose proof (ro_sent _ _ _ O) as Hs. unfold sent_ok in *. rewrite E1 in Hs. cbn. by rewrite E2. Qed.

(** A decision that keeps the hold. *)
Lemma decide_moves db_now id w w1 w2 row from next actor r' :
  wsound w -> steady w w1 -> wd_rows w !! id = Some row -> row_ok (wd_outbound w) id row ->
  decide_cas db_now from next actor w1 = Ok (r', w2) -> wr_id next = wr_id row ->
  (wr_combo row, wr_combo next) ∈ edges ->
  cb_send (wr_combo row) = WSend.Unsent -> cb_send (wr_combo next) = WSend.Unsent ->
  has_active_hold (wr_combo row) = true -> has_active_hold (wr_combo next) = true -> moves w w2.
Proof.
  intros S T Hrow O Hr Hid He U1 U2 H1 H2. unfold decide_cas in Hr. apply bind_Ok in Hr as (w3 & Hc & [= _ <-]).
  eapply (cas_finish _ _ _ _ _ id 0 w w1); [done| |done|exact Hc|rewrite Hid; apply O|done| |].
  - eapply worked_steady; [by apply worked_refl|done].
  - unfold hold_amount. rewrite H1, H2. lia.
  - rewrite (sd_outbound _ _ T). by apply unsent_ok.
Qed.

Lemma is_combo row c : negb (bool_decide (wr_combo row = c)) = false -> wr_combo row = c.
Proof. by intros ?%negb_false_iff%bool_decide_eq_true. Qed.

Lemma decide_machine_moves fresh db_now now id row w r' w' :
  wsound w -> wd_rows w !! id = Some row -> row_ok (wd_outbound w) id row ->
  decide_machine fresh db_now now row w = Ok (r', w') -> moves w w'.
Proof.
  intros S Hrow O Hr. unfold decide_machine in Hr. destruct (negb _) eqn:H1 in Hr; [done|]. apply is_combo in H1.
  apply bind_Ok in Hr as (l & _ & Hr). apply bind_Ok in Hr as (view & _ & Hr).
  apply bind_Ok in Hr as ([cur w1] & Hl%live_reasons_still & Hr). cbv zeta in Hr.
  eapply decide_moves; [done|by apply still_steady|done|done|exact Hr|done|..]; rewrite ?H1; cbn; destruct (blocks_auto_approve _); (edge || done).
Qed.

Lemma finance_approve_moves fresh db_now now id row actor reason w r' w' :
  wsound w -> wd_rows w !! id = Some row -> row_ok (wd_outbound w) id row ->
  finance_approve fresh db_now now row actor reason w = Ok (r', w') -> moves w w'.
Proof.
  intros S Hrow O Hr. unfold finance_approve in Hr. do 2 (apply bind_Ok in Hr as (? & _ & Hr)).
  destruct (negb _) eqn:H4 in Hr; [done|]. apply is_combo in H4. apply bind_Ok in Hr as (l & _ & Hr).
  destruct (_ || _) in Hr; [done|]. apply bind_Ok in Hr as (view & _ & Hr).
  apply bind_Ok in Hr as ([cur w1] & Hl%live_reasons_still & Hr). destruct (_ || _) in Hr; [done|]. cbv zeta in Hr.
  apply bind_Ok in Hr as (w2 & Hc%consume_cap_still & Hr).
  eapply decide_moves; [done| |done|done|exact Hr|done|..]; rewrite ?H4; try (edge || done).
  eauto using withdraw_audit_still with payout.
Qed.

Lemma propose_dual_moves fresh db_now now id row actor reason w r' w' :
  wsound w -> wd_rows w !! id = Some row -> row_ok (wd_outbound w) id row ->
  propose_dual sha256 fresh db_now now row actor reason w = Ok (r', w') -> moves w w'.
Proof.
  intros S Hrow O Hr. unfold propose_dual in Hr. do 3 (apply bind_Ok in Hr as (? & _ & Hr)).
  case_bool_decide as H5.
  { apply bind_Ok in Hr as (p & _ & Hr). destruct (_ && _) in Hr; [|done]. injection Hr as _ <-. by apply moves_refl. }
  destruct (negb _) eqn:H4 in Hr; [done|]. apply is_combo in H4. do 2 (apply bind_Ok in Hr as (? & _ & Hr)). cbv zeta in Hr.
  apply bind_Ok in Hr as (w1 & Hi%map_err_Ok%insert_money_proposal_still & Hr).
  eapply decide_moves; [done| |done|done|exact Hr|done|..]; rewrite ?H4; try (edge || done).
  eauto using withdraw_audit_still with payout.
Qed.

Lemma confirm_dual_moves fresh db_now now id row actor w r' w' :
  wsound w -> wd_rows w !! id = Some row -> row_ok (wd_outbound w) id row ->
  confirm_dual sha256 fresh db_now now row actor w = Ok (r', w') -> moves w w'.
Proof.
  intros S Hrow O Hr. unfold confirm_dual in Hr. apply bind_Ok in Hr as (? & _ & Hr).
  destruct (negb _) eqn:H5 in Hr; [done|]. apply is_combo in H5. do 2 (apply bind_Ok in Hr as (? & _ & Hr)).
  case_bool_decide; [done|]. do 2 (destruct (_ <? _) in Hr || destruct (_ >=? _) in Hr; [done|]).
  destruct (_ || _) in Hr; [done|]. do 2 (apply bind_Ok in Hr as (? & _ & Hr)).
  apply bind_Ok in Hr as ([cur w1] & Hl%live_reasons_still & Hr). destruct (existsb _ _) in Hr; [done|]. cbv zeta in Hr.
  apply bind_Ok in Hr as (w2 & Hc%consume_cap_still & Hr). apply bind_Ok in Hr as (w3 & Hp%map_err_Ok%save_money_proposal_still & Hr).
  eapply decide_moves; [done| |done|done|exact Hr|done|..]; rewrite ?H5; try (edge || done).
  eauto using withdraw_audit_still with payout.
Qed.

Lemma expire_proposal_moves db_now now id row w r' w' :
  wsound w -> wd_rows w !! id = Some row -> row_ok (wd_outbound w) id row ->
  expire_proposal db_now now row w = Ok (r', w') -> moves w w'.
Proof.
  intros S Hrow O Hr. unfold expire_proposal in Hr. destruct (negb _) eqn:H5 in Hr; [done|]. apply is_combo in H5.
  apply bind_Ok in Hr as (? & _ & Hr). destruct (_ <? _) in Hr; [done|].
  apply bind_Ok in Hr as (w1 & Hp%map_err_Ok%save_money_proposal_still & Hr).
  eapply decide_moves; [done|by apply still_steady|done|done|exact Hr|done|..]; rewrite ?H5; (edge || done).
Qed.

Lemma deny_target_facts c target :
  deny_target c = Some target ->
  (c, target) ∈ edges /\ cb_send c = WSend.Unsent /\ cb_send target = WSend.Unsent /\
  has_active_hold c = true /\ has_active_hold target = false.
Proof.
  destruct c as [s v d]. destruct s, v, d; intros [= <-]; split_and!; (edge || done).
Qed.

Lemma deny_moves ids db_now now id row actor reason w r' w' :
  wsound w -> wd_rows w !! id = Some row -> row_ok (wd_outbound w) id row ->
  deny ids db_now now row actor reason w = Ok (r', w') -> moves w w'.
Proof.
  intros S Hrow O Hr. unfold deny in Hr. do 2 (apply bind_Ok in Hr as (? & _ & Hr)).
  apply bind_Ok in Hr as (target & Ht%ok_or_Ok & Hr). cbv zeta in Hr.
  destruct (deny_target_facts _ _ Ht) as (He & U1 & U2 & A1 & A2).
  apply bind_Ok in Hr as ([t w1] & Hrel%map_err_Ok & Hr).
  apply (release_worked _ _ _ _ id w w) in Hrel as [K Ho]; [|by apply worked_refl|by eapply hold_covered].
  apply bind_Ok in Hr as (w2 & Hp & Hr).
  assert (T : still w1 w2).
  { eapply still_trans; [apply withdraw_audit_still|]. destruct (open_proposal_for _ _ _); [|by injection Hp as <-].
    by apply map_err_Ok, save_money_proposal_still in Hp. }
  unfold decide_cas in Hr. apply bind_Ok in Hr as (w3 & Hc & [= _ <-]).
  eapply cas_finish; [done|eapply worked_steady; [exact K|by apply still_steady]|done|exact Hc|apply O|done| |].
  - unfold hold_amount. cbn. rewrite A1, A2. lia.
  - rewrite (sl_outbound _ _ T), Ho. by apply unsent_ok.
Qed.

Lemma decide_withdraw_moves ids db_now now actor id cmd w0 w :
  wsound w -> moves w (decide_withdraw sha256 ids db_now now actor id cmd w0 w).2.
Proof.
  intros S. apply (atomic_cases w _ (moves w)); [by apply moves_refl|]. intros r' w' Hr. locked Hr as row Hrow O.
  destruct cmd; [apply bind_Ok in Hr as (? & _ & Hr)|..|apply bind_Ok in Hr as (? & _ & Hr)|].
  - by eapply decide_machine_moves.
  - by eapply finance_approve_moves.
  - by eapply propose_dual_moves.
  - by eapply confirm_dual_moves.
  - by eapply expire_proposal_moves.
  - by eapply deny_moves.
Qed.
End Deciding.

(** ** Lemmas: request *)

Section Requesting.
Context `{UuidText} `{HashMapOrder}.
Context (sha256 : string -> list Z) (to_string : Value -> string) (from_str : string -> option Value)
  (uuid_parse : string -> option N).

Lemma still_ledger w w' : still w w' -> wd_ledger w' = wd_ledger w.
Proof. intros T. unfold wd_ledger. by rewrite (sl_funds _ _ T). Qed.

Lemma insert_withdrawal_Ok r w w' :
  insert_withdrawal r w = Ok w' ->
  wd_rows w !! wr_id r = None /\ row_check r = true /\ w' = set_rows (<[wr_id r := r]> (wd_rows w)) w.
Proof.
  unfold insert_withdrawal. case_bool_decide as Hn; [done|]. destruct (row_check r); [|done]. intros [= <-].
  split_and!; [|done..]. by apply eq_None_not_Some.
Qed.

(** What an accepted request writes. *)
Lemma hold_and_insert_Ok ids db_now now cmd dest fp l view w r w' :
  wsound w -> 0 < rq_amount_micro cmd <= held (wd_ledger w) (Ref.User (rq_user cmd)) Usdc ->
  li_txn (ri_hold ids) <> 0%N ->
  hold_and_insert sha256 to_string ids db_now now cmd dest fp l view w = Ok (r, w') ->
  wsound w' /\ wd_rows w !! ri_withdrawal ids = None /\
  (exists reasons, wd_rows w' = <[ri_withdrawal ids := mkWithdrawal (ri_withdrawal ids) (rq_user cmd) dest (rq_amount_micro cmd)
     W1 (li_txn (ri_hold ids)) None None fp reasons now None None None]> (wd_rows w)) /\
  (forall o c, held (wd_ledger w') o c = held (wd_ledger w) o c +
     posted_to o c [mkPosting 0 (Ref.User (rq_user cmd)) Usdc (- rq_amount_micro cmd);
                    mkPosting 0 Ref.Withheld Usdc (rq_amount_micro cmd)]) /\
  r = mkWithdrawalReceipt (Some (ri_withdrawal ids)) (rq_user cmd) dest (rq_amount_micro cmd) (Some W1)
        (Some (li_txn (ri_hold ids))) false false None None /\
  aside w w' /\ afar (wd_db w) (wd_db w').
Proof.
  intros S Ham Hnz Hr. unfold hold_and_insert in Hr. cbv zeta in Hr.
  apply bind_Ok in Hr as (w1 & T1%map_err_Ok%evaluate_aml_still & Hr).
  apply bind_Ok in Hr as ([rs w2] & T2%current_reasons_still & Hr).
  assert (T : still w w2) by by eapply still_trans. pose proof (still_ledger _ _ T) as L.
  apply bind_Ok in Hr as ([t w3] & Hh%map_err_Ok & Hr).
  pose proof (steady_sound _ _ S (still_steady _ _ T)) as S2. 
  pose proof (held_range _ (Ref.User (rq_user cmd)) Usdc (fw_ledger _ (ws_funds _ S))) as R.
  apply transfer_Ok in Hh as (led & -> & X & -> & _ & Hh); [|apply S2|done|done|by rewrite L|apply S2].
  apply bind_Ok in Hr as (w4 & (Hn & Hc & ->)%map_err_Ok%insert_withdrawal_Ok & Hr). cbn [wr_id] in Hn.
  apply bind_Ok in Hr as (w5 & T5%map_err_Ok%persist_intent_still & Hr).
  apply bind_Ok in Hr as (w6 & T6%persist_idemp_still & [= <- <-]).
  set (row := mkWithdrawal _ _ _ _ _ _ _ _ _ _ _ _ _ _) in *.
  set (wx := set_rows (<[wr_id row := row]> (wd_rows (set_wledger led w2))) (set_wledger led w2)) in *.
  assert (T' : still wx w6) by (eapply still_trans; [|exact T6]; eapply still_trans; [|exact T5]; by split).
  assert (Hrows : wd_rows w2 = wd_rows w) by apply T.
  split_and!.
  - eapply steady_sound; [|by apply still_steady]. subst wx. split; cbn.
    + split; [apply X|apply S2].
    + change (imin I64 < held led Ref.External Usdc). rewrite Hh. posted_simpl. pose proof (ws_supply _ S2). cbn in *. lia.
    + change (held led Ref.Withheld Usdc = holds_in (set_rows (<[wr_id row := row]> (wd_rows w2)) (set_wledger led w2))).
      rewrite Hh, (ws_holds _ S2). unfold holds_in, amount_where. cbn [wd_rows set_rows]. rewrite msum_insert_new by done.
      cbn. posted_simpl. lia.
    + apply S2.
    + intros id' r' [[<- <-]|[Hne Hr']]%lookup_insert_Some; [|by apply S2].
      split; try done; [cbn; fold (wd_ledger w) in R; ty|]. unfold sent_ok. cbn. by apply S2.
    + intros id' [Hn' _]%lookup_insert_None. by apply S2.
  - cbn in Hn. by rewrite Hrows in Hn.
  - exists rs. rewrite (sl_rows _ _ T'). subst wx. cbn. by rewrite Hrows.
  - intros o c. rewrite (still_ledger _ _ T'). rewrite <- L. apply Hh.
  - done.
  - apply still_steady, aside_steady in T; [|apply S]. apply still_steady, aside_steady in T'; [|split; [apply X|apply S2]].
    eapply aside_trans; [exact T|]. eapply aside_trans; [|exact T']. subst wx. split; try done. cbn.
    change (held led Ref.DepositSuspense Usdc = held (wd_ledger w2) Ref.DepositSuspense Usdc). rewrite Hh. posted_simpl. lia.
  - apply still_steady, sd_afar in T; [|apply S]. apply still_steady, sd_afar in T'; [|split; [apply X|apply S2]].
    eapply afar_trans; [exact T|]. eapply afar_trans; [|exact T']. subst wx. cbn.
    apply afar_extends; [exact X|]. intros m c. fold (wd_ledger w2). rewrite Hh. posted_simpl. lia.
Qed.

Lemma revalidate_moves ids db_now now cmd dest fp w r w' :
  wsound w -> 0 < rq_amount_micro cmd -> li_txn (ri_hold ids) <> 0%N ->
  revalidate_and_hold sha256 to_string ids db_now now cmd dest fp w = Ok (r, w') -> moves w w'.
Proof.
  intros S Hpos Hnz Hr. unfold revalidate_and_hold in Hr.
  apply bind_Ok in Hr as (l & _ & Hr). apply bind_Ok in Hr as (view & _ & Hr).
  assert (Href : forall w1 code message, steady w w1 -> refuse sha256 to_string cmd dest fp code message w1 = Ok (r, w') -> moves w w').
  { intros w1 code message T Hf%refuse_still. apply moves_steady; [done|]. eauto with payout. }
  destruct (admission_refusal _ _ _) as [[code message]|]; [eapply Href; [apply steady_refl|exact Hr]|].
  apply bind_Ok in Hr as ([cash w1] & Hc%map_err_Ok & Hr). apply owner_balance_Ok in Hc as (T & -> & E); [|apply S].
  destruct (_ <? _) eqn:Hcash in Hr; [eapply Href; [exact T|exact Hr]|]. apply Z.ltb_ge in Hcash.
  apply bind_Ok in Hr as (since & _ & Hr). apply bind_Ok in Hr as (ok & _ & Hr). destruct ok; [|eapply Href; [exact T|exact Hr]]. cbn [negb] in Hr.
  apply hold_and_insert_Ok in Hr as (S' & Hn & (rs & Hrows) & _ & _ & D & A); [|by eapply steady_sound|by rewrite E|done].
  split; [done| | |].
  - rewrite Hrows. rewrite (sd_rows _ _ T) in Hn |- *. by apply rows_insert.
  - eapply aside_trans; [|exact D]. apply aside_steady; [apply S|exact T].
  - eapply afar_trans; [|exact A]. apply T, S.
Qed.

Lemma request_withdraw_moves ids db_now now cmd geo sanctions w0 w :
  wsound w -> li_txn (ri_hold ids) <> 0%N ->
  moves w (request_withdraw sha256 to_string from_str uuid_parse ids db_now now cmd geo sanctions w0 w).2.
Proof.
  intros S Hnz. apply (atomic_cases w _ (moves w)); [by apply moves_refl|]. intros r w' Hr.
  apply bind_Ok in Hr as (dest & _ & Hr). destruct (_ <=? 0) eqn:Hpos in Hr; [done|]. apply Z.leb_gt in Hpos. cbv zeta in Hr.
  apply bind_Ok in Hr as (hit & _ & Hr). destruct hit as [hit|]; [injection Hr as _ <-; by apply moves_refl|].
  unfold request_tx in Hr. apply bind_Ok in Hr as (hit & _ & Hr). destruct hit as [hit|]; [injection Hr as _ <-; by apply moves_refl|].
  destruct (negb _) in Hr; [done|]. apply bind_Ok in Hr as (w1 & T1%persist_remote_still & Hr).
  destruct (remote_refusal _ _) as [[code message]|].
  { apply refuse_still in Hr. apply moves_steady; [done|]. eauto with payout. }
  apply bind_Ok in Hr as ([c f] & Hcol & Hr). 
  pose proof (steady_sound _ _ S (still_steady _ _ T1)) as S1.
  apply convert_then_collect_calm in Hcol; [|apply S1].
  pose proof (set_funds_steady f w1 Hcol) as T2.
  apply revalidate_moves in Hr as [S' R' D' A']; [|by eapply steady_sound|done|done].
  split; [done| | |].
  - cbn [wd_rows set_db] in R'. by rewrite (sl_rows _ _ T1) in R'.
  - eapply aside_trans; [|exact D']. eapply aside_trans; [|apply (aside_steady _ _ (ws_funds _ S1) T2)].
    apply aside_steady; [apply S|by apply still_steady].
  - eapply afar_trans; [|exact A']. eapply afar_trans; [|apply T2, S1]. apply still_steady in T1. apply T1, S.
Qed.
End Requesting.
