(* ===== verification/Disburse.v ===== *)
(** * Disburse: markets and withdrawals in one machine

    Every committed transaction of the market use cases ([System]) and of the
    withdrawal use cases ([Withdraw]), in any order, each with any earlier state
    at its first reads, and any change elsewhere.  The escrows stay backed, the
    [Withheld] account stays the sum of the active holds, the attempts of a
    payment never allow it to land twice, and each row follows the table of
    [docs/copy/ops.md] and two recovery moves that table leaves out. *)

From S2P Require Import Prelude Money Amm Ledger Market Resolution Economy Integrity Chars Errors Credits PgLedger Json Config Fences ConfigStore Compliance Collect Postings Book Vote Trade Referrals Resolve Settlement Lifecycle System Outbound Withdraw Payout.
#[local] Open Scope string_scope.
#[local] Open Scope list_scope.
#[local] Open Scope Z_scope.

(** ** The machine *)

(** Changes that withdrawals and markets do not see: compliance, configuration,
    notifications, deposits with the money they move, and payments that are not
    withdrawals. *)
Record elsewhere (w w' : Wdb) : Prop := {
  el_rows : wd_rows w' = wd_rows w;
  el_afar : afar (wd_db w) (wd_db w');
  el_withheld : held (wd_ledger w') Ref.Withheld Usdc = held (wd_ledger w) Ref.Withheld Usdc;
  el_supply : imin I64 < held (wd_ledger w') Ref.External Usdc;
  el_outbound : outbound_wf (wd_outbound w');
  el_payments : forall id, payment_of WithdrawalSubject id (wd_outbound w') = payment_of WithdrawalSubject id (wd_outbound w);
  el_attempts : forall id p, payment_of WithdrawalSubject id (wd_outbound w) = Some p ->
    of_payment (op_id p) (wd_outbound w') = of_payment (op_id p) (wd_outbound w) }.

(** No withdrawal was ever requested. *)
Record idle (w : Wdb) : Prop := {
  id_markets : sound (wd_db w);
  id_rows : wd_rows w = ∅;
  id_outbound : outbound_wf (wd_outbound w);
  id_payments : forall id, payment_of WithdrawalSubject id (wd_outbound w) = None;
  id_withheld : held (wd_ledger w) Ref.Withheld Usdc = 0;
  id_supply : imin I64 < held (wd_ledger w) Ref.External Usdc }.

Section Machine.
Context `{UuidText} `{HashMapOrder}.
Context (collate : string -> string -> bool) (rep_config : RepConfig) (lp_config : LpKillConfig)
  (vote_config : VoteIntegrityConfig) (oi_floor : Z) (sweep_config : IntegritySweepConfig)
  (crash_point : outcome StoreError unit) (time_json : Z -> Value) (sha256 : string -> list Z)
  (to_string : Value -> string) (from_str : string -> option Value) (uuid_parse : string -> option N).

(** A transaction of a withdrawal use case.  Generated transaction ids are not
    nil. *)
Inductive withdrawal_tx : Wdb -> Wdb -> Prop :=
| wt_request ids db_now now cmd geo sanctions w0 w : li_txn (ri_hold ids) <> 0%N ->
    withdrawal_tx w (request_withdraw sha256 to_string from_str uuid_parse ids db_now now cmd geo sanctions w0 w).2
| wt_decide ids db_now now actor id cmd w0 w :
    withdrawal_tx w (decide_withdraw sha256 ids db_now now actor id cmd w0 w).2
| wt_send ids identity signer db_now now id w0 w rail :
    withdrawal_tx w (send ids identity signer db_now now id w0 w rail).1.2
| wt_replace ids identity signer db_now now id observations w0 w rail :
    withdrawal_tx w (replace_expired time_json ids identity signer db_now now id observations w0 w rail).1.2
| wt_after_commit identity rpc db_now now stage w0 w rail :
    withdrawal_tx w (after_commit identity rpc db_now now stage w0 w rail).1.2
| wt_unknown db_now now id w0 w : withdrawal_tx w (mark_unknown db_now now id w0 w).2
| wt_recover identity signer db_now now id w0 w :
    withdrawal_tx w (recover_w3 time_json identity signer db_now now id w0 w).2
| wt_observe identity db_now now id receipt w0 w :
    withdrawal_tx w (observe_finalized identity db_now now id receipt w0 w).2
| wt_non_landing ids identity db_now now id observations w0 w :
    withdrawal_tx w (prove_non_landing time_json ids identity db_now now id observations w0 w).2
| wt_settle ids identity db_now now id receipt w0 w :
    withdrawal_tx w (settle_withdraw ids identity db_now now id receipt w0 w).2.

(** The money in the system stays below 2^63 - 1 micro-dollars. *)
Inductive machine : Wdb -> Wdb -> Prop :=
| mc_market w db' :
    step collate rep_config lp_config vote_config oi_floor sweep_config crash_point time_json (wd_db w) db' ->
    imin I64 < held (fu_ledger (td_funds db')) Ref.External Usdc -> machine w (set_db db' w)
| mc_elsewhere w w' : elsewhere w w' -> machine w w'
| mc_withdrawal w w' : withdrawal_tx w w' -> machine w w'.

(** ** Lemmas *)

Lemma afar_beside db db' : afar db db' -> beside db db'.
Proof. intros [B Q L]. split; by rewrite ?B. Qed.

Lemma afar_sound db db' : sound db -> afar db db' -> sound db'.
Proof. intros S A. by eapply beside_sound, afar_beside. Qed.

Lemma market_moves w db' :
  rep_typed rep_config -> sound (wd_db w) -> wsound w ->
  step collate rep_config lp_config vote_config oi_floor sweep_config crash_point time_json (wd_db w) db' ->
  imin I64 < held (fu_ledger (td_funds db')) Ref.External Usdc -> sound db' /\ wsound (set_db db' w).
Proof.
  intros Hrep S [W1 W2 W3 W4 W5 W6] Hs Hsup. pose proof (step_sound _ _ _ _ _ _ _ _ _ _ Hrep Hs S) as S'.
  split; [done|]. split; try done; [apply S'|]. cbn. unfold wd_ledger in *. cbn.
  by destruct (step_reserved _ _ _ _ _ _ _ _ _ _ Hrep Hs S) as [_ ->].
Qed.

Lemma elsewhere_sound w w' : sound (wd_db w') -> wsound w -> elsewhere w w' -> wsound w'.
Proof.
  intros S [W1 W2 W3 W4 W5 W6] [R F E Sup O P A]. split; rewrite ?R; try done.
  - apply S.
  - by rewrite E, W3, (holds_in_ext w w').
  - intros id r Hr. destruct (W5 id r Hr) as [O1 O2 O3 O4 O5]. split; try done. unfold sent_ok in *. rewrite P.
    revert O5. destruct (landing_of (cb_send (wr_combo r))); [|done].
    intros (p & front & a & Hp & ? & ? & Hl & ?). exists p, front, a. by rewrite (A id).
  - intros id Hn. rewrite P. by apply W6.
Qed.

Lemma withdrawal_moves w w' : withdrawal_tx w w' -> wsound w -> moves w w'.
Proof.
  intros Ht W. destruct Ht.
  - by apply request_withdraw_moves.
  - by apply decide_withdraw_moves.
  - by apply send_moves.
  - by apply replace_expired_moves.
  - by apply after_commit_moves.
  - by apply mark_unknown_moves.
  - by apply recover_w3_moves.
  - by apply observe_finalized_moves.
  - by apply prove_non_landing_moves.
  - by apply settle_withdraw_moves.
Qed.

(** A step keeps both invariants and moves at most one row. *)
Lemma machine_keeps w w' :
  rep_typed rep_config -> machine w w' -> sound (wd_db w) -> wsound w ->
  (sound (wd_db w') /\ wsound w') /\ rows_step (wd_rows w) (wd_rows w').
Proof.
  intros Hrep Hm S W. destruct Hm as [w db' Hs Hsup|w w' He|w w' Hm].
  - split; [by apply market_moves|constructor].
  - split; [|rewrite (el_rows _ _ He); constructor].
    assert (S' : sound (wd_db w')) by (eapply afar_sound; [exact S|apply He]).
    split; [done|]. by eapply elsewhere_sound.
  - destruct (withdrawal_moves _ _ Hm W) as [W' R D A]. split; [|done]. split; [by eapply afar_sound|done].
Qed.

(** A key in the ledger stays there. *)
Lemma machine_key w w' key t :
  rep_typed rep_config -> machine w w' -> sound (wd_db w) -> wsound w ->
  txn_by_key (wd_ledger w) key = Some t -> txn_by_key (wd_ledger w') key = Some t.
Proof.
  intros Hrep Hm S W Hk. destruct Hm as [w db' Hs Hsup|w w' He|w w' Hm].
  - destruct (step_reserved _ _ _ _ _ _ _ _ _ _ Hrep Hs S) as [L _]. by apply (logged_key _ _ _ _ L).
  - by apply (quiet_key _ _ _ _ _ (af_ledger _ _ (el_afar _ _ He))).
  - by apply (quiet_key _ _ _ _ _ (af_ledger _ _ (mv_afar _ _ (withdrawal_moves _ _ Hm W)))).
Qed.

Lemma machine_run w w' :
  rep_typed rep_config -> rtc machine w w' -> sound (wd_db w) -> wsound w ->
  (sound (wd_db w') /\ wsound w') /\ rtc rows_step (wd_rows w) (wd_rows w').
Proof.
  intros Hrep. induction 1 as [w|w w1 w2 Hs _ IH]; intros S W; [split; [done|constructor]|].
  destruct (machine_keeps _ _ Hrep Hs S W) as [[S1 W1] R1]. destruct (IH S1 W1) as [K R2]. split; [done|].
  by eapply rtc_l.
Qed.

Lemma machine_run_key w w' key t :
  rep_typed rep_config -> rtc machine w w' -> sound (wd_db w) -> wsound w ->
  txn_by_key (wd_ledger w) key = Some t -> txn_by_key (wd_ledger w') key = Some t.
Proof.
  intros Hrep. induction 1 as [w|w w1 w2 Hs _ IH]; intros S W Hk; [done|].
  destruct (machine_keeps _ _ Hrep Hs S W) as [[S1 W1] _]. apply IH; [done..|]. by eapply machine_key.
Qed.
End Machine.

Lemma idle_sound w : idle w -> wsound w.
Proof.
  intros [S R O P E H]. split; [apply S|done| |done|..].
  - rewrite E. unfold holds_in, amount_where. by rewrite R, msum_empty.
  - intros id r. by rewrite R, lookup_empty.
  - intros id _. apply P.
Qed.

(** ** Lemmas: the identities the settlement asserts *)

Lemma list_withdrawals_Ok w : wsound w -> list_withdrawals w = Ok (map_to_list (wd_rows w)).*2.
Proof.
  intros S. unfold list_withdrawals.
  enough (E : forall l acc, Forall (fun r => row_check r = true) l ->
    foldM (fun acc r => r ← row_from_pg r; Ok (acc ++ [r])) acc l = @Ok StoreError _ (acc ++ l)).
  { apply (E _ []). apply Forall_fmap, Forall_forall. intros [id r] Hin%elem_of_map_to_list. cbn. by eapply ws_rows. }
  intros l. induction l as [|r l IH]; intros acc Hl; cbn [foldM]; [by rewrite app_nil_r|].
  apply Forall_cons in Hl as [Hr Hl]. rewrite row_from_pg_Ok by done. cbn [mbind outcome_bind]. by rewrite IH, <- app_assoc.
Qed.

Lemma sum_i64_Ok {E} l : Forall (fun z => 0 <= z) l -> zsum l <= imax I64 -> @sum_i64 E l = Ok (zsum l).
Proof.
  intros Hl Hs. unfold sum_i64.
  enough (Hg : forall acc, 0 <= acc -> acc + zsum l <= imax I64 ->
    foldM (fun acc x => arith I64 (acc + x)) acc l = @Ok E _ (acc + zsum l)) by (by rewrite Hg).
  clear Hs. induction Hl as [|z l Hz Hl IH]; intros acc Ha Hs; cbn [foldM]; [cbn; by rewrite Z.add_0_r|].
  pose proof (zsum_nonneg l Hl). change (zsum (z :: l)) with (z + zsum l) in *. rewrite arith_in by ty.
  cbn [mbind outcome_bind]. rewrite IH; [f_equal; lia|lia|lia].
Qed.

Lemma filter_zsum (p : WithdrawalRow -> bool) (l : list (N * WithdrawalRow)) :
  zsum (map wr_amount_micro (List.filter p l.*2)) = zsum (map (fun kv => if p kv.2 then wr_amount_micro kv.2 else 0) l).
Proof. induction l as [|[k r] l IH]; cbn; [done|]. destruct (p r); cbn; rewrite IH; done. Qed.

Lemma row_amount w id r : wsound w -> wd_rows w !! id = Some r -> 0 < wr_amount_micro r.
Proof. intros S Hr. pose proof (ro_check _ _ _ (ws_rows _ S _ _ Hr)) as Hc. unfold row_check in Hc. bool_hyps. lia. Qed.

Lemma identity_a_Ok {E} w :
  wsound w -> @identity_a_holds E (held (wd_ledger w) Ref.Withheld Usdc) (map_to_list (wd_rows w)).*2 = Ok true.
Proof.
  intros S. pose proof (held_range _ Ref.Withheld Usdc (fw_ledger _ (ws_funds _ S))) as R. fold (wd_ledger w) in R.
  rewrite (ws_holds _ S) in *. unfold identity_a_holds.
  assert (Es : zsum (map wr_amount_micro (List.filter (fun r => has_active_hold (wr_combo r)) (map_to_list (wd_rows w)).*2)) = holds_in w)
    by (rewrite filter_zsum; done).
  rewrite sum_i64_Ok.
  - cbn [mbind outcome_bind]. by rewrite Es, Z.eqb_refl.
  - apply Forall_fmap, Forall_forall. intros r Hr. apply list_elem_of_In, filter_In in Hr as [Hr _].
    apply list_elem_of_In, list_elem_of_fmap in Hr as ([id r'] & -> & Hin%elem_of_map_to_list).
    pose proof (row_amount _ _ _ S Hin). cbn. lia.
  - rewrite Es. apply R.
Qed.

Lemma rows_forallb (f : WithdrawalRow -> bool) w :
  (forall id r, wd_rows w !! id = Some r -> f r = true) -> forallb f (map_to_list (wd_rows w)).*2 = true.
Proof.
  intros Hf. apply forallb_forall. intros r Hr. apply list_elem_of_In, list_elem_of_fmap in Hr as ([id r'] & -> & Hin).
  apply elem_of_map_to_list in Hin. by eapply Hf.
Qed.

Lemma identity_b_Ok w : wsound w -> identity_b_holds (map_to_list (wd_rows w)).*2 = true.
Proof.
  intros S. apply rows_forallb. intros id r Hr. apply negb_true_iff, N.eqb_neq. apply (ws_rows _ S _ _ Hr).
Qed.

Lemma identity_c_Ok w : wsound w -> identity_c_holds (map_to_list (wd_rows w)).*2 = true.
Proof.
  intros S. apply rows_forallb. intros id r Hr. pose proof (ro_check _ _ _ (ws_rows _ S _ _ Hr)) as Hc.
  unfold row_check in Hc. destruct (cb_status (wr_combo r)), (wr_release_tx r), (wr_settle_tx r); cbn in *; try done;
    bool_hyps; try done.
Qed.

(** ** Lemmas: attempts and the row *)

(** The attempts of a withdrawal. *)
Definition attempts_at (w : Wdb) (id : N) : list OutboundAttemptRow :=
  match payment_of WithdrawalSubject id (wd_outbound w) with
  | Some p => of_payment (op_id p) (wd_outbound w)
  | None => []
  end.

Definition can_land (a : OutboundAttemptRow) : bool := negb (bool_decide (at_landing a = Landing.DefinitiveFailed)).
Definition finalized (a : OutboundAttemptRow) : bool := bool_decide (at_landing a = Landing.Finalized).

Lemma disproved_none front : Forall disproved front -> List.filter can_land front = [] /\ List.filter finalized front = [].
Proof.
  induction 1 as [|a l Ha _ [IH1 IH2]]; [done|]. cbn. unfold can_land, finalized, disproved in *. rewrite Ha. done.
Qed.

Lemma lineage_NoDup l : lineage l -> NoDup (map at_number l).
Proof.
  induction 1 as [|l a L IH _ Hn _]; [constructor|]. rewrite map_app. apply NoDup_snoc; [done|].
  intros (b & E & Hb)%list_elem_of_fmap. pose proof (lineage_numbers _ _ L Hb). unfold zlen in *. lia.
Qed.

(** The attempts of a row, split at the last. *)
Lemma attempts_split w id r :
  wsound w -> wd_rows w !! id = Some r ->
  match landing_of (cb_send (wr_combo r)) with
  | None => attempts_at w id = []
  | Some s => exists front a, attempts_at w id = front ++ [a] /\ Forall disproved front /\ at_landing a = s
  end.
Proof.
  intros S Hr. pose proof (ws_rows _ S _ _ Hr) as O. unfold attempts_at.
  destruct (landing_of (cb_send (wr_combo r))) as [s|] eqn:E.
  - destruct (sent_attempt w id r s O E) as (p & front & a & A & La & _). pose proof A as [-> ->]. exists front, a.
    split_and!; [done| |done]. eapply attempt_front; [apply S|exact A].
  - pose proof (ro_sent _ _ _ O) as Hs. unfold sent_ok in Hs. rewrite E in Hs. by rewrite Hs.
Qed.

Lemma attempts_lineage w id : wsound w -> lineage (attempts_at w id).
Proof. intros S. unfold attempts_at. destruct (payment_of _ _ _); [apply S|constructor]. Qed.

Lemma one_can_land w id r : wsound w -> wd_rows w !! id = Some r -> (length (List.filter can_land (attempts_at w id)) <= 1)%nat.
Proof.
  intros S Hr. pose proof (attempts_split w id r S Hr) as Hs. destruct (landing_of _).
  - destruct Hs as (front & a & -> & [Hf _]%disproved_none & _). rewrite List.filter_app, Hf. cbn. destruct (can_land a); cbn; lia.
  - rewrite Hs. cbn. lia.
Qed.

Lemma legal_row_send r :
  row_check r = true ->
  (cb_status (wr_combo r) = WStatus.Settled -> cb_send (wr_combo r) = WSend.Finalized) /\
  (cb_status (wr_combo r) = WStatus.Denied -> cb_send (wr_combo r) = WSend.Unsent) /\
  (cb_status (wr_combo r) = WStatus.Failed -> cb_send (wr_combo r) = WSend.DefinitiveFailed).
Proof.
  intros Hc%check_legal. destruct (wr_combo r) as [s v d]. cbn in *. by destruct s, v, d.
Qed.

Lemma identity_d_Ok w id r :
  wsound w -> wd_rows w !! id = Some r ->
  identity_d_holds (attempts_at w id) (bool_decide (cb_status (wr_combo r) = WStatus.Settled)) = true.
Proof.
  intros S Hr. pose proof (attempts_split w id r S Hr) as Hs. unfold identity_d_holds.
  rewrite (bool_decide_eq_true_2 (NoDup _)) by apply lineage_NoDup, attempts_lineage, S.
  change (fun a => bool_decide (at_landing a = Landing.Finalized)) with finalized.
  destruct (legal_row_send r (ro_check _ _ _ (ws_rows _ S _ _ Hr))) as [Hst _].
  destruct (landing_of (cb_send (wr_combo r))) as [s|] eqn:E.
  - destruct Hs as (front & a & -> & [_ Hf]%disproved_none & Ha). rewrite List.filter_app, Hf. cbn [app List.filter].
    unfold finalized. rewrite Ha. destruct (decide (cb_status (wr_combo r) = WStatus.Settled)) as [Hx|Hx].
    + rewrite (Hst Hx) in E. injection E as <-. by rewrite (bool_decide_eq_true_2 _ Hx).
    + rewrite (bool_decide_eq_false_2 _ Hx). by destruct s.
  - rewrite Hs. cbn. case_bool_decide as Hx; [|done]. by rewrite (Hst Hx) in E.
Qed.

(** Money given back, or settled, can no longer be paid out a second time. *)
Lemma closed_attempts w id r :
  wsound w -> wd_rows w !! id = Some r ->
  (is_Some (wr_release_tx r) -> Forall disproved (attempts_at w id)) /\
  (is_Some (wr_settle_tx r) -> exists front a, attempts_at w id = front ++ [a] /\ Forall disproved front /\
     at_landing a = Landing.Finalized).
Proof.
  intros S Hr. pose proof (attempts_split w id r S Hr) as Hs. pose proof (ro_check _ _ _ (ws_rows _ S _ _ Hr)) as Hc.
  destruct (legal_row_send r Hc) as (L1 & L2 & L3). unfold row_check in Hc. bool_hyps. split; intros Hsome.
  - assert (Hst : cb_status (wr_combo r) = WStatus.Denied \/ cb_status (wr_combo r) = WStatus.Failed).
    { match goal with H : Bool.eqb _ (bool_decide (is_Some (wr_release_tx r))) = true |- _ => rename H into He end.
      apply eqb_prop in He. rewrite (bool_decide_eq_true_2 _ Hsome) in He. by apply bool_decide_eq_true in He. }
    destruct Hst as [E|E]; [rewrite (L2 E) in Hs|rewrite (L3 E) in Hs]; cbn in Hs; [by rewrite Hs|].
    destruct Hs as (front & a & -> & Hf & Ha). apply Forall_app. split; [done|by constructor].
  - assert (Hst : cb_status (wr_combo r) = WStatus.Settled).
    { match goal with H : Bool.eqb _ (bool_decide (is_Some (wr_settle_tx r))) = true |- _ => rename H into He end.
      apply eqb_prop in He. rewrite (bool_decide_eq_true_2 _ Hsome) in He. by apply bool_decide_eq_true in He. }
    by rewrite (L1 Hst) in Hs.
Qed.

(** ** Lemmas: a settlement runs to its end *)

Lemma account_found fresh led o c a : pg_wf led -> owns led a o c -> account fresh led o c = Ok (led, a).
Proof.
  intros W (r & Hr & <- & Hi). unfold account. destruct (owner_parts o) as [ty oid] eqn:Eo. cbn in Hi.
  assert (Hx : existsb (conflicts ty oid c) (pg_accounts led) = true).
  { apply existsb_exists. exists r. split; [by apply list_elem_of_In|by apply is_account_conflicts]. }
  rewrite Hx. cbn [mbind outcome_bind].
  destruct (List.find (is_account ty oid c) (pg_accounts led)) as [r'|] eqn:Ef; cbn.
  - apply find_by in Ef as [Hr' Hi']. do 3 f_equal. by eapply is_account_unique.
  - apply find_none_by in Ef. rewrite Forall_forall in Ef. specialize (Ef r Hr). congruence.
Qed.

Lemma owner_found fresh led o : pg_wf led -> held led o Usdc <> 0 ->
  exists a, owner_account fresh o led = Ok (led, a) /\ owns led a o Usdc.
Proof.
  intros W Hne. destruct (held_cases led o Usdc W) as [E|(a & s & Ho & _)]; [done|]. exists a. split; [|done].
  unfold owner_account. by rewrite (account_found fresh led o Usdc a).
Qed.

Section Settles.
Context `{UuidText} `{HashMapOrder}.

Lemma transfer_runs ids from to kind amount key w :
  pg_wf (wd_ledger w) -> held (wd_ledger w) from Usdc <> 0 -> held (wd_ledger w) to Usdc <> 0 ->
  0 < amount -> in_ty I64 amount ->
  txn_by_key (wd_ledger w) key = None -> li_txn ids ∉ map txn_id (pg_txns (wd_ledger w)) ->
  exists led, transfer ids from to kind amount key w = Ok (li_txn ids, set_wledger led w).
Proof.
  intros W Hf Ht Ham Hty Hk Hn. unfold transfer.
  destruct (owner_found (li_from ids) _ _ W Hf) as (a & -> & _). cbn [mbind outcome_bind].
  destruct (owner_found (li_to ids) _ _ W Ht) as (b & -> & _). cbn [mbind outcome_bind].
  rewrite arith_in by ty. cbn [mbind outcome_bind]. unfold two_leg. rewrite Hk.
  destruct (existsb _ _) eqn:Ex.
  { apply existsb_exists in Ex as (t & Ht' & Et%N.eqb_eq). destruct Hn. rewrite <- Et. apply list_elem_of_fmap_2.
    by apply list_elem_of_In. }
  rewrite (proj2 (Z.eqb_neq (- amount) 0)), (proj2 (Z.eqb_neq amount 0)) by lia. cbn. by eexists.
Qed.

Lemma withheld_balance_runs fresh w :
  funds_wf (td_funds (wd_db w)) -> (exists a, owns (wd_ledger w) a Ref.Withheld Usdc) ->
  exists w', withheld_balance fresh w = Ok (held (wd_ledger w) Ref.Withheld Usdc, w') /\ wd_ledger w' = wd_ledger w /\
    wd_rows w' = wd_rows w.
Proof.
  intros F [a Ha]. unfold withheld_balance, owner_balance, owner_account.
  rewrite (account_found fresh _ Ref.Withheld Usdc a) by (done || apply F). cbn [mbind outcome_bind].
  pose proof (held_owns _ _ _ _ (fw_ledger _ F) Ha) as E. fold (wd_ledger w) in E. rewrite <- E.
  unfold bigint. rewrite checked_in by apply (held_range _ _ _ (fw_ledger _ F)). cbn [ok_or mbind outcome_bind].
  rewrite (proj2 (Z.ltb_ge _ _)) by (apply held_nonneg; [apply F|done]). by eexists.
Qed.

Lemma check_identities_runs fresh attempts w :
  wsound w -> (exists a, owns (wd_ledger w) a Ref.Withheld Usdc) -> identity_d_holds attempts true = true ->
  exists w', check_identities fresh attempts w = Ok w' /\ wd_ledger w' = wd_ledger w /\ wd_rows w' = wd_rows w.
Proof.
  intros S Ha Hd. unfold check_identities. rewrite list_withdrawals_Ok by done. cbn [store map_err mbind outcome_bind].
  destruct (withheld_balance_runs fresh w (ws_funds _ S) Ha) as (w' & -> & L & R). cbn [store map_err mbind outcome_bind].
  rewrite identity_a_Ok by done. cbn [mbind outcome_bind].
  rewrite identity_b_Ok, identity_c_Ok, Hd by done. by exists w'.
Qed.

Lemma locked_row_runs w0 w id r :
  wsound w -> wd_rows w !! id = Some r -> wr_user <$> wd_rows w0 !! id = Some (wr_user r) ->
  (user ← store (withdrawal_user id w0); locked_row id user w) = Ok r.
Proof.
  intros S Hr Hu. unfold withdrawal_user. rewrite Hu. cbn [ok_or store map_err mbind outcome_bind].
  unfold locked_row, withdrawal_for_update. rewrite Hr. cbn [ok_or store map_err mbind outcome_bind].
  rewrite row_from_pg_Ok by apply (ws_rows _ S _ _ Hr). cbn. by rewrite N.eqb_refl.
Qed.

Lemma matched_payment_runs identity w id r p :
  wsound w -> wd_rows w !! id = Some r -> payment_of WithdrawalSubject id (wd_outbound w) = Some p ->
  op_rail_fingerprint p = rail_fingerprint identity -> cb_send (wr_combo r) <> WSend.Unsent ->
  matched_payment identity r w = Ok p.
Proof.
  intros S Hr Hp Hfp Hs. pose proof (ws_rows _ S _ _ Hr) as O. pose proof (ro_sent _ _ _ O) as Hsent. unfold sent_ok in Hsent.
  destruct (landing_of (cb_send (wr_combo r))) as [s|] eqn:E; [|by destruct (cb_send (wr_combo r))].
  destruct Hsent as (p' & front & a & Hp' & Hd & Ha & _). assert (p' = p) as -> by congruence.
  unfold matched_payment. rewrite payment_by_subject_Ok, (ro_id _ _ _ O), Hp. cbn [ok_or store map_err mbind outcome_bind].
  unfold ensure_payment_matches. destruct (payment_of_Some _ _ _ _ Hp) as (_ & H1 & H2).
  rewrite (ro_id _ _ _ O), H2, N.eqb_refl, Ha, Z.eqb_refl, !bool_decide_eq_true_2 by done. done.
Qed.
Lemma find_last w id (P : OutboundAttemptRow -> bool) a :
  wsound w -> a ∈ attempts_at w id -> at_landing a = Landing.Finalized -> P a = true ->
  List.find (fun b => bool_decide (at_landing b = Landing.Finalized) && P b) (attempts_at w id) = Some a.
Proof.
  intros S Ha Hl HP. destruct (List.find _ _) as [b|] eqn:Ef.
  - apply find_by in Ef as [Hb [Hbl%bool_decide_eq_true _]%andb_true_iff].
    destruct (lineage_last _ _ (attempts_lineage w id S) Ha) as (front & E & _); [by rewrite Hl|].
    destruct (lineage_last _ _ (attempts_lineage w id S) Hb) as (front' & E' & _); [by rewrite Hbl|].
    rewrite E in E'. by apply app_inj_tail in E' as [_ ->].
  - apply find_none_by in Ef. rewrite Forall_forall in Ef. specialize (Ef a Ha). cbn in Ef.
    by rewrite bool_decide_eq_true_2, HP in Ef by done.
Qed.

Lemma verified_signature identity p a receipt :
  verify_chain_receipt identity p a receipt = Ok tt -> ch_signature receipt = at_signature a.
Proof.
  unfold verify_chain_receipt. destruct (_ || _); [done|]. destruct (bool_decide _) eqn:E; [|done]. by apply bool_decide_eq_true in E.
Qed.

Lemma settled_check t now r : row_check r = true -> wr_combo r = W9 ->
  row_check (cas_columns (with_combo W10 (with_settle t now r)) r) = true /\
  cas_columns (with_combo W10 (with_settle t now r)) r = with_combo W10 (with_settle t now r).
Proof.
  intros Hc E. split; [|by destruct r]. unfold row_check in *. rewrite E in Hc. cbn in Hc |- *. bool_hyps.
  destruct (wr_release_tx r); [done|]. cbn. by rewrite !andb_true_r in *.
Qed.

Definition paid_row (ids : SettleIds) (now : Z) (r : WithdrawalRow) : WithdrawalRow :=
  with_combo W10 (with_settle (li_txn (st_leg ids)) now r).

Lemma settle_runs ids identity db_now now id receipt w0 w r p a :
  wsound w -> wd_rows w !! id = Some r -> wr_combo r = W9 -> wr_user <$> wd_rows w0 !! id = Some (wr_user r) ->
  payment_of WithdrawalSubject id (wd_outbound w) = Some p -> op_rail_fingerprint p = rail_fingerprint identity ->
  a ∈ attempts_at w id -> at_landing a = Landing.Finalized -> verify_chain_receipt identity p a receipt = Ok tt ->
  txn_by_key (wd_ledger w) (settle_key id) = None ->
  li_txn (st_leg ids) ∉ map txn_id (pg_txns (wd_ledger w)) ->
  exists w', settle_withdraw ids identity db_now now id receipt w0 w = (Ok (paid_row ids now r), w') /\
    wd_rows w' = <[id := paid_row ids now r]> (wd_rows w) /\
    forall o c, held (wd_ledger w') o c = held (wd_ledger w) o c +
      posted_to o c [mkPosting 0 Ref.Withheld Usdc (- wr_amount_micro r); mkPosting 0 Ref.External Usdc (wr_amount_micro r)].
Proof.
  intros S Hr E9 Hu Hp Hfp Ha Hl Hv Hk Hn. pose proof (ws_rows _ S _ _ Hr) as O.
  pose proof (hold_covered w id r S Hr ltac:(by rewrite E9)) as Hcov. pose proof (fw_ledger _ (ws_funds _ S)) as Wl.
  fold (wd_ledger w) in Wl. pose proof (one_supply _ Ref.Withheld Usdc Wl ltac:(done)) as Hsup.
  destruct (transfer_runs (st_leg ids) Ref.Withheld Ref.External Withdrawal (wr_amount_micro r) (settle_key id) w)
    as (led & Ht); [done|lia|lia|lia|apply O|done|done|].
  pose proof Ht as Hh. apply transfer_Ok in Hh as (led' & Eq & X & _ & _ & Hh); [|done..|apply S].
  assert (led' = led) as -> by (apply (f_equal wd_ledger) in Eq; by cbn in Eq). clear Eq.
  destruct (settled_check (li_txn (st_leg ids)) now r (ro_check _ _ _ O) E9) as [Hck Hcc].
  set (w1 := set_wledger led w) in *. set (w2 := set_rows (<[id := paid_row ids now r]> (wd_rows w)) w1).
  assert (Hcas : cas_withdrawal id W9 (paid_row ids now r) w1 = Ok (true, w2)).
  { unfold cas_withdrawal. cbn [wd_rows w1 set_wledger set_db]. rewrite Hr, E9, bool_decide_eq_true_2 by done.
    unfold paid_row. by rewrite Hck, Hcc. }
  assert (M : moves w w2).
  { apply (settle_worked _ _ _ id w w) in Ht as [K Ho]; [|by apply worked_refl|done].
    eapply write_row; [done|exact K|done|exact Hcas|rewrite E9; edge|rewrite E9; cbn; lia|].
    destruct (sent_attempt w id r Landing.Finalized O) as (p' & front & a' & A & La & Hd & Ham); [by rewrite E9|].
    rewrite Ho. eapply attempt_sent_ok; [done..|]. by rewrite La. }
  assert (Hd : identity_d_holds (attempts_at w id) true = true).
  { pose proof (attempts_split w id r S Hr) as Hs. rewrite E9 in Hs. destruct Hs as (front & b & Es & [_ Hf]%disproved_none & Hb).
    unfold identity_d_holds. rewrite (bool_decide_eq_true_2 (NoDup _)) by apply lineage_NoDup, attempts_lineage, S.
    change (fun a => bool_decide (at_landing a = Landing.Finalized)) with finalized. rewrite Es, List.filter_app, Hf.
    cbn. unfold finalized. by rewrite Hb. }
  assert (Eat : attempts_at w id = of_payment (op_id p) (wd_outbound w)) by (unfold attempts_at; by rewrite Hp).
  unfold settle_withdraw.
  match goal with |- context [atomic w ?m] => enough (exists w', m = Ok (paid_row ids now r, w') /\
    wd_rows w' = wd_rows w2 /\ wd_ledger w' = wd_ledger w2) as (w' & -> & Er & El) end.
  { exists w'. split; [done|]. split; [exact Er|]. intros o c. rewrite El. apply Hh. }
  pose proof (locked_row_runs w0 w id r S Hr Hu) as Hlock. apply bind_Ok in Hlock as (user & -> & Hlock).
  cbn [mbind outcome_bind]. rewrite Hlock. cbn [mbind outcome_bind]. rewrite E9.
  rewrite (matched_payment_runs identity w id r p) by (done || by rewrite E9). cbn [mbind outcome_bind negb andb bool_decide].
  rewrite (bool_decide_eq_true_2 (W9 = W9)) by done. rewrite (bool_decide_eq_false_2 (W9 = W10)) by done. cbn [negb andb].
  rewrite attempts_for_Ok by apply S. cbn [store map_err mbind outcome_bind]. rewrite <- Eat.
  rewrite (find_last w id (fun b => bool_decide (at_signature b = ch_signature receipt)) a);
    [|done..|apply bool_decide_eq_true_2; by rewrite (verified_signature _ _ _ _ Hv)].
  cbn [ok_or mbind outcome_bind]. unfold receipt_ok. rewrite Hv. cbn [map_err mbind outcome_bind].
  unfold apply_settle. rewrite (ro_id _ _ _ O), Ht. cbn [store map_err mbind outcome_bind].
  fold (paid_row ids now r). rewrite Hcas.
  cbn [store map_err mbind outcome_bind negb].
  match goal with |- exists w', (w ← check_identities ?f ?l ?w3; _) = _ /\ _ =>
    assert (T : still w2 w3) by done; destruct (check_identities_runs f l w3) as (w4 & -> & L4 & R4);
      [eapply steady_sound; [apply M|by apply still_steady]| |done|] end.
  { destruct (held_cases _ Ref.Withheld Usdc Wl) as [Ez|(x & _ & Hx & _)]; [lia|]. exists x.
    rewrite (still_ledger _ _ T). cbn. by eapply owns_extends. }
  exists w4. split; [done|]. rewrite L4, R4. split; [apply T|apply (still_ledger _ _ T)].
Qed.
End Settles.

(** ** Lemmas: a taken key *)

Lemma taken_key_transfer ids from to kind amount key w t :
  txn_by_key (wd_ledger w) key = Some t -> forall x, transfer ids from to kind amount key w <> Ok x.
Proof.
  intros Hk [t' w'] Hr. unfold transfer in Hr. apply bind_Ok in Hr as ([l1 a] & Ha%owner_account_Ok & Hr).
  apply bind_Ok in Hr as ([l2 b] & Hb%owner_account_Ok & Hr). apply bind_Ok in Hr as (debit & _ & Hr).
  apply bind_Ok in Hr as ([l3 t3] & Ht & _). apply account_txns in Ha, Hb. unfold two_leg in Ht.
  assert (txn_by_key l2 key = Some t) as E by (unfold txn_by_key in *; by rewrite Hb, Ha). by rewrite E in Ht.
Qed.

Lemma taken_key_settle `{UuidText} ids identity db_now now id receipt w0 w r t :
  wsound w -> wd_rows w !! id = Some r -> wr_combo r = W9 -> txn_by_key (wd_ledger w) (settle_key id) = Some t ->
  (settle_withdraw ids identity db_now now id receipt w0 w).2 = w /\
  forall x, (settle_withdraw ids identity db_now now id receipt w0 w).1 <> Ok x.
Proof.
  intros S Hr E9 Hk. destruct (settle_withdraw _ _ _ _ _ _ _ _) as [ans w'] eqn:E. cbn.
  enough (forall x, ans <> Ok x) by (split; [by apply atomic_refused in E|done]).
  intros x ->. unfold settle_withdraw in E. match type of E with atomic _ ?m = _ => destruct m as [[a w1]|e|] eqn:Em end; cbn in E; [|done..].
  locked Em as row Hrow O. assert (row = r) as -> by congruence. rewrite E9 in Em.
  destruct (negb _ && negb _) in Em; [done|]. do 4 (apply bind_Ok in Em as (? & _ & Em)).
  rewrite (bool_decide_eq_false_2 (W9 = W10)) in Em by done. apply bind_Ok in Em as ([t' w2] & Hs & _).
  rewrite (ro_id _ _ _ O) in Hs. destruct (apply_settle _ _ _ _) as [y|e|] eqn:Ea; [|by destruct e|done].
  by apply (taken_key_transfer _ _ _ _ _ _ _ _ Hk) in Ea.
Qed.

(** ** Lemmas: runs of the table *)

Definition edge_rel (c c' : Combo) : Prop := (c, c') ∈ published_moves \/ (c, c') ∈ recovery_moves.

(** What a request fixes for good. *)
Definition same_request (r r' : WithdrawalRow) : Prop :=
  wr_id r' = wr_id r /\ wr_user r' = wr_user r /\ wr_dest r' = wr_dest r /\ wr_amount_micro r' = wr_amount_micro r /\
  wr_hold_tx r' = wr_hold_tx r /\ wr_fingerprint r' = wr_fingerprint r /\ wr_requested_at r' = wr_requested_at r.

Definition final_combo (c : Combo) : Prop := has_active_hold c = false.

Lemma final_stuck c c' : final_combo c -> ~ edge_rel c c'.
Proof.
  intros Ht He%elem_of_app. repeat (apply elem_of_cons in He as [[= -> ->]|He]; [done|]). by apply elem_of_nil in He.
Qed.

Lemma rows_step_row rows rows' id r :
  rows_step rows rows' -> rows !! id = Some r -> exists r', rows' !! id = Some r' /\ (r' = r \/ advanced r r').
Proof.
  intros [|i x Hn _|i x y Hx Ha] Hr; [by exists r; auto|..].
  - exists r. split; [|by left]. rewrite lookup_insert_ne; [done|congruence].
  - destruct (decide (i = id)) as [->|Hne]; [|exists r; rewrite lookup_insert_ne by done; auto].
    exists y. rewrite lookup_insert_eq. assert (x = r) as -> by congruence. auto.
Qed.

Lemma rows_run rows rows' id r :
  rtc rows_step rows rows' -> rows !! id = Some r ->
  exists r', rows' !! id = Some r' /\ rtc edge_rel (wr_combo r) (wr_combo r') /\ same_request r r' /\
    (final_combo (wr_combo r) -> r' = r).
Proof.
  intros Hrun. revert r. induction Hrun as [rows|rows rows1 rows2 Hs _ IH]; intros r Hr.
  - exists r. split_and!; try done.
  - destruct (rows_step_row _ _ _ _ Hs Hr) as (r1 & Hr1 & [->|(He%elem_of_app & A)]); [by apply IH|].
    destruct (IH r1 Hr1) as (r2 & Hr2 & R & (B1 & B2 & B3 & B4 & B5 & B6 & B7) & T). destruct A as (A1 & A2 & A3 & A4 & A5 & A6 & A7).
    exists r2. split_and!; [done|by eapply rtc_l|split_and!; congruence|]. intros Ht. by destruct (final_stuck _ _ Ht He).
Qed.

(** ** A small withdrawal *)

(** User 7 of the small market withdraws two of ten dollars: requested, held
    for review, approved by finance, claimed, broadcast, seen on the chain and
    settled. *)
Definition demo_withdraw_entries : gmap string Value :=
  list_to_map [("withdraw_min_micro", JInt 1000000); ("withdraw_max_micro", JInt 5000000);
    ("withdraw_daily_limit_micro", JInt 20000000); ("withdraw_auto_approve_micro", JInt 0);
    ("withdraw_dual_control_micro", JInt 3000000); ("dest_warm_floor_micro", JInt 4000000);
    ("dest_warm_age_hours", JInt 24); ("dest_daily_limit_micro", JInt 10000000);
    ("hot_wallet_daily_limit_micro", JInt 50000000); ("withdraw_kyc_tier", JInt 2);
    ("pause_withdrawals", JBool false); ("withdraw_approve_daily_cap_micro", JInt 9000000);
    ("aml_structuring_window_hours", JInt 24); ("aml_structuring_floor_micro", JInt 8000000);
    ("aml_structuring_threshold_micro", JInt 10000000); ("aml_structuring_n", JInt 3);
    ("aml_deposit_velocity_micro_24h", JInt 50000000); ("aml_withdraw_velocity_micro_24h", JInt 50000000)].

Definition demo_idle : Wdb :=
  mkWdb (set_ops (mkOpsDb 1 [(1, "migration:0008")] (demo_withdraw_entries ∪ demo_gate_entries) [] [] [] [] ∅) demo_market_db)
    ∅ [] (mkOutbound [] []) [] [].

Definition demo_dest : string := "11111111111111111111111111111111".

Definition demo_rail : RailIdentity := mkRail "genesis" ["a"; "b"; "c"] "mint" 6 "owner" "treasury" "finalized".

Definition demo_request : RequestWithdrawCmd := mkRequest 7 2000000 demo_dest (Some (V4 1)) (Some "k").
Definition demo_request_ids : RequestIds :=
  mkRequestIds 21 22 (fun n => N.of_nat (100 + n)) 23 4 (fun n => N.of_nat (30 + n)) 24 (mkLegIds 25 26 2).

Definition demo_digest (s : string) : list Z := lit s.
Definition demo_clear : ScreenVerdict := Clear 90 500 "v1".

Definition demo_request_run (w : Wdb) : outcome AppError WithdrawalReceipt * Wdb :=
  request_withdraw (H0 := canonical_order) demo_digest (fun _ => "") (fun _ => None) (fun _ => None) demo_request_ids 100 100 demo_request
    (fun _ => Some demo_clear) (Some demo_clear) w w.
Definition demo_requested : Wdb := (demo_request_run demo_idle).2.

Definition demo_decide (actor : AdminContext) (cmd : DecideCmd) (w : Wdb) : outcome AppError WithdrawalRow * Wdb :=
  decide_withdraw demo_digest (mkDecideIds 27 28 (mkLegIds 25 26 3)) 101 101 actor 4 cmd w w.
Definition demo_review (w : Wdb) : Wdb := (demo_decide Machine DecideMachine w).2.
Definition demo_approve (w : Wdb) : Wdb := (demo_decide (Admin "t1" Finance) (FinanceApprove "known") w).2.

Definition demo_signer : SignerView := mkSigner (Ok ([1; 2; 3], "sig", 50)) (fun _ => Ok Absent) (Ok 10).
Definition demo_send (w : Wdb) : outcome AppError SendStage * Wdb * Rail :=
  send (mkSendIds 29 5 6) demo_rail demo_signer 102 102 4 w w ∅.
Definition demo_claim (w : Wdb) : Wdb := (demo_send w).1.2.
Definition demo_payment : OutboundPaymentRow :=
  mkPayment 5 WithdrawalSubject 4 demo_dest 2000000 (rail_fingerprint demo_rail).

Definition demo_stage (w : Wdb) : SendStage :=
  match (demo_send w).1.1 with
  | Ok stage => stage
  | _ => SendDone (mkWithdrawal 0 0 "" 0 W1 0 None None "" [] 0 None None None)
  end.
Definition demo_broadcast (w : Wdb) : Wdb :=
  (after_commit demo_rail (fun _ => Ok (JString "sig")) 103 103 (demo_stage w) (demo_claim w) (demo_claim w)
     (demo_send w).2).1.2.

Definition demo_chain : ChainReceipt := mkChainReceipt "sig" "mint" "treasury" demo_dest 2000000 "finalized".
Definition demo_observe (w : Wdb) : Wdb := (observe_finalized demo_rail 104 104 4 demo_chain w w).2.
Definition demo_pay (w : Wdb) : Wdb := demo_observe (demo_broadcast (demo_approve (demo_review w))).
Definition demo_observed : Wdb := demo_pay demo_requested.
Definition demo_settle_ids : SettleIds := mkSettleIds (mkLegIds 31 32 9) 33 1.
Definition demo_settled : Wdb := (settle_withdraw demo_settle_ids demo_rail 105 105 4 demo_chain demo_observed demo_observed).2.

Definition demo_withdrawal (c : Combo) (sent : option Z) : WithdrawalRow :=
  mkWithdrawal 4 7 demo_dest 2000000 c 2 None None (intent_fingerprint demo_digest 7 2000000 demo_dest)
    ["amount_ge_auto"; "dest_not_warm"] 100 (Some 101) sent None.

Definition demo_sent_attempt (s : LandingState) : OutboundAttemptRow :=
  mkAttempt 6 5 1 None [1; 2; 3] "sig" 50 s (Some 132) None.

Lemma demo_idle_idle : idle demo_idle.
Proof.
  split.
  - eapply afar_sound; [exact demo_market_sound|]. apply afar_same; [apply demo_market_wf|done|done].
  - done.
  - split; cbn; constructor.
  - done.
  - vm_compute. reflexivity.
  - vm_compute. reflexivity.
Qed.

Notation demo_machine :=
  (machine (H0 := canonical_order) str_le demo_rep demo_lp demo_config 1 demo_sweep (Ok tt) JInt demo_digest
     (fun _ => "") (fun _ => None) (fun _ => None)).

Lemma demo_requested_reached : rtc demo_machine demo_idle demo_requested.
Proof. apply rtc_once, mc_withdrawal, (wt_request (H0 := canonical_order)). done. Qed.

Lemma demo_pay_reached w : rtc demo_machine w (demo_pay w).
Proof.
  apply (rtc_l _ _ (demo_review w)); [apply mc_withdrawal, (wt_decide (H0 := canonical_order))|].
  apply (rtc_l _ _ (demo_approve (demo_review w))); [apply mc_withdrawal, (wt_decide (H0 := canonical_order))|].
  apply (rtc_l _ _ (demo_claim (demo_approve (demo_review w)))); [apply mc_withdrawal, (wt_send (H0 := canonical_order))|].
  apply (rtc_l _ _ (demo_broadcast (demo_approve (demo_review w)))); [apply mc_withdrawal, (wt_after_commit (H0 := canonical_order))|].
  apply rtc_once, mc_withdrawal, (wt_observe (H0 := canonical_order)).
Qed.

Lemma demo_observed_reached : rtc demo_machine demo_requested demo_observed.
Proof. apply demo_pay_reached. Qed.

Lemma demo_settled_reached : rtc demo_machine demo_observed demo_settled.
Proof. apply rtc_once, mc_withdrawal, (wt_settle (H0 := canonical_order)). Qed.

Lemma demo_observed_row : wd_rows demo_observed !! 4%N = Some (demo_withdrawal W9 (Some 103)).
Proof. vm_compute. reflexivity. Qed.

Lemma demo_requested_row : wr_combo <$> wd_rows demo_requested !! 4%N = Some W1.
Proof. vm_compute. reflexivity. Qed.

(** ** Properties *)

(** C7: withdrawals and markets never share a dollar.  From a state without
    withdrawals, after any interleaving of market transactions, withdrawal
    requests, decisions, sends, replacements, reconciliations, settlements and
    changes elsewhere, the markets are still sound, and the four identities the
    settlement asserts hold of every state: the [Withheld] balance is the sum of
    the active holds, each row has its hold, releases and settlements stand
    exactly on the rows that ended, and the attempts of each withdrawal are
    numbered apart with at most one finalized, exactly one once settled. *)
Theorem holds_stay_backed `{UuidText} `{HashMapOrder} (collate : string -> string -> bool) (rep_config : RepConfig)
    (lp_config : LpKillConfig) (vote_config : VoteIntegrityConfig) (oi_floor : Z) (sweep_config : IntegritySweepConfig)
    (crash_point : outcome StoreError unit) (time_json : Z -> Value) (sha256 : string -> list Z)
    (to_string : Value -> string) (from_str : string -> option Value) (uuid_parse : string -> option N) (w w' : Wdb) :
  rep_typed rep_config -> idle w ->
  rtc (machine collate rep_config lp_config vote_config oi_floor sweep_config crash_point time_json sha256 to_string
         from_str uuid_parse) w w' ->
  sound (wd_db w') /\
  (exists rows, list_withdrawals w' = Ok rows /\
     @identity_a_holds AppError (held (wd_ledger w') Ref.Withheld Usdc) rows = Ok true /\
     identity_b_holds rows = true /\ identity_c_holds rows = true) /\
  (forall id r, wd_rows w' !! id = Some r ->
     identity_d_holds (attempts_at w' id) (bool_decide (cb_status (wr_combo r) = WStatus.Settled)) = true).
Proof.
  intros Hrep I Hrun. destruct (machine_run _ _ _ _ _ _ _ _ _ _ _ _ _ _ Hrep Hrun (id_markets _ I) (idle_sound _ I)) as [[S W] _].
  split; [done|]. split; [|intros id r; by apply identity_d_Ok]. exists (map_to_list (wd_rows w')).*2.
  by rewrite list_withdrawals_Ok, identity_a_Ok, identity_b_Ok, identity_c_Ok.
Qed.

Lemma holds_stay_backed_witness :
  sound (wd_db demo_observed) /\ held (wd_ledger demo_observed) Ref.Withheld Usdc = 2000000.
Proof.
  split; [|vm_compute; reflexivity].
  apply (holds_stay_backed (H0 := canonical_order) str_le demo_rep demo_lp demo_config 1 demo_sweep (Ok tt) JInt demo_digest
    (fun _ => "") (fun _ => None) (fun _ => None) demo_idle demo_observed demo_rep_typed demo_idle_idle).
  etrans; [exact demo_requested_reached|exact demo_observed_reached].
Defined.



(** C8: no dollar leaves twice.  In every reachable state a withdrawal has at
    most one attempt that can still land or has landed, its payment is for the
    row's destination and amount; when the hold was given back every attempt is
    proved not to have landed, and when it was settled one attempt is finalized
    and every other disproved. *)
Theorem released_money_cannot_land `{UuidText} `{HashMapOrder} (collate : string -> string -> bool) (rep_config : RepConfig)
    (lp_config : LpKillConfig) (vote_config : VoteIntegrityConfig) (oi_floor : Z) (sweep_config : IntegritySweepConfig)
    (crash_point : outcome StoreError unit) (time_json : Z -> Value) (sha256 : string -> list Z)
    (to_string : Value -> string) (from_str : string -> option Value) (uuid_parse : string -> option N)
    (w w' : Wdb) (id : N) (r : WithdrawalRow) :
  rep_typed rep_config -> idle w ->
  rtc (machine collate rep_config lp_config vote_config oi_floor sweep_config crash_point time_json sha256 to_string
         from_str uuid_parse) w w' ->
  wd_rows w' !! id = Some r ->
  (length (List.filter can_land (attempts_at w' id)) <= 1)%nat /\
  (forall p, payment_of WithdrawalSubject id (wd_outbound w') = Some p ->
     op_dest p = wr_dest r /\ op_amount_micro p = wr_amount_micro r) /\
  (is_Some (wr_release_tx r) -> Forall disproved (attempts_at w' id)) /\
  (is_Some (wr_settle_tx r) -> exists front a, attempts_at w' id = front ++ [a] /\ Forall disproved front /\
     at_landing a = Landing.Finalized).
Proof.
  intros Hrep I Hrun Hr. destruct (machine_run _ _ _ _ _ _ _ _ _ _ _ _ _ _ Hrep Hrun (id_markets _ I) (idle_sound _ I)) as [[S W] _].
  split; [by eapply one_can_land|]. split; [|by apply (closed_attempts w' id r)].
  intros p Hp. pose proof (ro_sent _ _ _ (ws_rows _ W _ _ Hr)) as Hs. unfold sent_ok in Hs. destruct (landing_of _); [|congruence].
  destruct Hs as (p' & front & a & Hp' & Hd & Ha & _). assert (p' = p) as -> by congruence. done.
Qed.

Lemma released_money_cannot_land_witness :
  exists front a, attempts_at demo_settled 4 = front ++ [a] /\ Forall disproved front /\ at_landing a = Landing.Finalized.
Proof.
  assert (Hrun : rtc demo_machine demo_idle demo_settled).
  { etrans; [exact demo_requested_reached|]. etrans; [exact demo_observed_reached|exact demo_settled_reached]. }
  eapply (released_money_cannot_land (H0 := canonical_order) str_le demo_rep demo_lp demo_config 1 demo_sweep (Ok tt) JInt
    demo_digest (fun _ => "") (fun _ => None) (fun _ => None) demo_idle demo_settled 4
    (paid_row demo_settle_ids 105 (demo_withdrawal W9 (Some 103))) demo_rep_typed demo_idle_idle Hrun).
  - vm_compute. reflexivity.
  - by eexists.
Defined.

(** C10: a finalized withdrawal settles.  In every reachable state, a withdrawal
    whose payment was finalized, given a receipt that the rail's check accepts,
    a fresh transaction id and an unused settlement key, is settled: the call
    returns the row in its final state, none of its assertions fails, and the
    amount moves from [Withheld] to [External] and nowhere else. *)
Theorem settlement_completes `{UuidText} `{HashMapOrder} (collate : string -> string -> bool) (rep_config : RepConfig)
    (lp_config : LpKillConfig) (vote_config : VoteIntegrityConfig) (oi_floor : Z) (sweep_config : IntegritySweepConfig)
    (crash_point : outcome StoreError unit) (time_json : Z -> Value) (sha256 : string -> list Z)
    (to_string : Value -> string) (from_str : string -> option Value) (uuid_parse : string -> option N)
    (ids : SettleIds) (identity : RailIdentity) (db_now now : Z) (id : N) (receipt : ChainReceipt) (w w0 w1 : Wdb)
    (r : WithdrawalRow) (p : OutboundPaymentRow) (a : OutboundAttemptRow) :
  rep_typed rep_config -> idle w ->
  rtc (machine collate rep_config lp_config vote_config oi_floor sweep_config crash_point time_json sha256 to_string
         from_str uuid_parse) w w1 ->
  wd_rows w1 !! id = Some r -> wr_combo r = W9 -> wr_user <$> wd_rows w0 !! id = Some (wr_user r) ->
  payment_of WithdrawalSubject id (wd_outbound w1) = Some p -> op_rail_fingerprint p = rail_fingerprint identity ->
  a ∈ attempts_at w1 id -> at_landing a = Landing.Finalized -> verify_chain_receipt identity p a receipt = Ok tt ->
  txn_by_key (wd_ledger w1) (settle_key id) = None -> li_txn (st_leg ids) ∉ map txn_id (pg_txns (wd_ledger w1)) ->
  exists w2, settle_withdraw ids identity db_now now id receipt w0 w1 = (Ok (paid_row ids now r), w2) /\
    wd_rows w2 = <[id := paid_row ids now r]> (wd_rows w1) /\
    forall o c, held (wd_ledger w2) o c = held (wd_ledger w1) o c +
      posted_to o c [mkPosting 0 Ref.Withheld Usdc (- wr_amount_micro r); mkPosting 0 Ref.External Usdc (wr_amount_micro r)].
Proof.
  intros Hrep I Hrun. destruct (machine_run _ _ _ _ _ _ _ _ _ _ _ _ _ _ Hrep Hrun (id_markets _ I) (idle_sound _ I)) as [[S W] _].
  intros. by eapply settle_runs.
Qed.

Lemma settlement_completes_witness :
  exists w2, settle_withdraw demo_settle_ids demo_rail 105 105 4 demo_chain demo_observed demo_observed =
    (Ok (paid_row demo_settle_ids 105 (demo_withdrawal W9 (Some 103))), w2) /\
  held (wd_ledger w2) Ref.Withheld Usdc = 0.
Proof.
  destruct (settlement_completes (H0 := canonical_order) str_le demo_rep demo_lp demo_config 1 demo_sweep (Ok tt) JInt
    demo_digest (fun _ => "") (fun _ => None) (fun _ => None) demo_settle_ids demo_rail 105 105 4 demo_chain demo_idle demo_observed
    demo_observed (demo_withdrawal W9 (Some 103)) demo_payment (demo_sent_attempt Landing.Finalized)) as (w2 & E & _ & Hh);
    [exact demo_rep_typed|exact demo_idle_idle| |exact demo_observed_row|reflexivity| | |reflexivity| |reflexivity| | | |].
  - etrans; [exact demo_requested_reached|exact demo_observed_reached].
  - vm_compute. reflexivity.
  - vm_compute. reflexivity.
  - replace (attempts_at demo_observed 4) with [demo_sent_attempt Landing.Finalized] by (vm_compute; reflexivity). left.
  - vm_compute. reflexivity.
  - vm_compute. reflexivity.
  - apply (bool_decide_unpack _). vm_compute. exact I.
  - exists w2. split; [exact E|]. rewrite Hh. vm_compute. reflexivity.
Defined.

(** a trade can take a withdrawal's settlement key for good.  The key
    [withdraw-settle:<id>] lives in the same column as the idempotency keys that
    clients choose for their trades, and the client knows the id.  After an
    accepted trade under that key, whatever happens next, no attempt to settle
    the withdrawal succeeds: each changes nothing, and the paid-out hold stays
    in [Withheld]. *)
Theorem taken_settle_key_blocks `{UuidText} `{HashMapOrder} (collate : string -> string -> bool) (rep_config : RepConfig)
    (lp_config : LpKillConfig) (vote_config : VoteIntegrityConfig) (oi_floor : Z) (sweep_config : IntegritySweepConfig)
    (crash_point : outcome StoreError unit) (time_json : Z -> Value) (sha256 : string -> list Z)
    (to_string : Value -> string) (from_str : string -> option Value) (uuid_parse : string -> option N)
    (fresh fresh_lazy fresh_alloc : nat -> N) (trade_db_now trade_now : Z) (cmd : PlaceTradeCmd) (receipt : TradeReceipt)
    (ids : SettleIds) (identity : RailIdentity) (db_now now : Z) (id : N) (chain : ChainReceipt) (w w0 w1 w2 : Wdb)
    (db' : Db) (r : WithdrawalRow) :
  let run := rtc (machine collate rep_config lp_config vote_config oi_floor sweep_config crash_point time_json sha256
                    to_string from_str uuid_parse) in
  rep_typed rep_config -> idle w -> run w w1 -> in_ty I64 (pt_amount_micro cmd) ->
  place_trade collate rep_config time_json fresh fresh_lazy fresh_alloc trade_db_now trade_now cmd (wd_db w1) = (Ok receipt, db') ->
  rt_replayed receipt = false -> pt_idempotency_key cmd = settle_key id ->
  imin I64 < held (fu_ledger (td_funds db')) Ref.External Usdc ->
  run (set_db db' w1) w2 -> wd_rows w2 !! id = Some r -> wr_combo r = W9 ->
  (settle_withdraw ids identity db_now now id chain w0 w2).2 = w2 /\
  forall x, (settle_withdraw ids identity db_now now id chain w0 w2).1 <> Ok x.
Proof.
  intros run Hrep I H1 Hty Ht Hrp Hkey Hsup H2 Hr E9.
  destruct (machine_run _ _ _ _ _ _ _ _ _ _ _ _ _ _ Hrep H1 (id_markets _ I) (idle_sound _ I)) as [[S W] _].
  assert (Hs : machine collate rep_config lp_config vote_config oi_floor sweep_config crash_point time_json sha256
    to_string from_str uuid_parse w1 (set_db db' w1)).
  { apply mc_market; [|done]. replace db' with (place_trade collate rep_config time_json fresh fresh_lazy fresh_alloc
      trade_db_now trade_now cmd (wd_db w1)).2 by (by rewrite Ht). by apply st_request, rq_trade. }
  destruct (machine_keeps _ _ _ _ _ _ _ _ _ _ _ _ _ _ Hrep Hs S W) as [[S1 W1] _].
  destruct (machine_run _ _ _ _ _ _ _ _ _ _ _ _ _ _ Hrep H2 S1 W1) as [[_ W2] _].
  apply place_trade_Ok in Ht as [(txn & _ & _ & E)|(funds & pool & out & fee & legs & txn & led & X)]; [congruence| |done].
  pose proof (executed_key rep_config _ _ _ _ _ _ _ _ _ _ _ _ _ _ _ _ _ (so_wf _ S) Hty X) as Hk. rewrite Hkey in Hk.
  eapply (taken_key_settle _ _ _ _ _ _ _ _ r txn); [done..|]. by eapply machine_run_key.
Qed.

Definition demo_taking_trade : PlaceTradeCmd := mkPlaceTrade 10 7 Yes Buy 5000000 (settle_key 4) None None (Some 1).
Definition demo_taken_db : Db := (demo_place demo_taking_trade (wd_db demo_requested)).2.

Lemma demo_taken_ok : exists receipt,
  demo_place demo_taking_trade (wd_db demo_requested) = (Ok receipt, demo_taken_db) /\ rt_replayed receipt = false.
Proof.
  assert (Hr : exists r, (demo_place demo_taking_trade (wd_db demo_requested)).1 = Ok r /\ rt_replayed r = false)
    by (eexists; split; [vm_compute; reflexivity|reflexivity]).
  destruct Hr as (r & Hr & Hn). exists r. split; [|done]. unfold demo_taken_db.
  destruct (demo_place demo_taking_trade (wd_db demo_requested)). cbn in Hr. by rewrite Hr.
Qed.

Lemma taken_settle_key_blocks_witness :
  (settle_withdraw demo_settle_ids demo_rail 105 105 4 demo_chain (demo_pay (set_db demo_taken_db demo_requested))
    (demo_pay (set_db demo_taken_db demo_requested))).2 = demo_pay (set_db demo_taken_db demo_requested) /\
  forall x, (settle_withdraw demo_settle_ids demo_rail 105 105 4 demo_chain (demo_pay (set_db demo_taken_db demo_requested))
    (demo_pay (set_db demo_taken_db demo_requested))).1 <> Ok x.
Proof.
  destruct demo_taken_ok as (receipt & E & Hn). unfold demo_place in E.
  refine (taken_settle_key_blocks (H0 := canonical_order) str_le demo_rep demo_lp demo_config 1 demo_sweep (Ok tt) JInt
    demo_digest (fun _ => "") (fun _ => None) (fun _ => None) _ _ _ _ _ demo_taking_trade receipt demo_settle_ids demo_rail 105 105 4
    demo_chain demo_idle (demo_pay (set_db demo_taken_db demo_requested)) demo_requested
    (demo_pay (set_db demo_taken_db demo_requested)) demo_taken_db (demo_withdrawal W9 (Some 103)) demo_rep_typed demo_idle_idle
    demo_requested_reached _ E Hn eq_refl _ _ _ _).
  - split; vm_compute; discriminate.
  - vm_compute. reflexivity.
  - apply demo_pay_reached.
  - vm_compute. reflexivity.
  - reflexivity.
Defined.
