(* ===== verification/Intents.v ===== *)
(** * Intents: what a withdrawal request and its approval mean

    [request_withdraw], [decide_withdraw] and [replace_expired] of [Withdraw]:
    an accepted request passed every gate and withholds its amount, a request is
    answered once for each user, amount and destination, an approval had the
    authority the amount needs, and the limits of a replacement. *)

From S2P Require Import Prelude Money Amm Ledger Market Resolution Economy Integrity Chars Errors Credits PgLedger Json Config Fences ConfigStore Compliance Collect Postings Book Vote Trade Referrals Resolve Settlement Lifecycle System Outbound Withdraw Payout Disburse.
#[local] Open Scope string_scope.
#[local] Open Scope list_scope.
#[local] Open Scope Z_scope.

(** ** Texts and receipts *)

Lemma text_of_lit s : text_of (lit s) = s.
Proof.
  unfold text_of, lit. rewrite map_map. rewrite <- (String.string_of_list_ascii_of_string s) at 2. f_equal.
  rewrite <- (map_id (String.list_ascii_of_string s)) at 2. apply map_ext. intros a.
  by rewrite N2Z.id, Ascii.ascii_N_embedding.
Qed.

Lemma bigint_value {z y} : bigint z = Ok y -> y = z.
Proof. unfold bigint. by intros [-> _]%ok_or_Ok%checked_Some. Qed.

Lemma datetime_value {E} z y : @datetime E z = Ok y -> y = z.
Proof. unfold datetime. case_match; congruence. Qed.

Section Intents.
Context `{UuidText} `{HashMapOrder}.
Context (sha256 : string -> list Z) (to_string : Value -> string) (from_str : string -> option Value)
  (uuid_parse : string -> option N).

(** The shape every stored receipt has. *)
Record receipt_shape (r : WithdrawalReceipt) : Prop := {
  rs_amount : 0 < wc_amount_micro r;
  rs_typed : in_ty I64 (wc_amount_micro r);
  rs_kind : match wc_id r, wc_combo r, wc_hold_tx r with
            | Some _, Some c, Some _ => is_legal c = true /\ wc_refused r = false
            | None, None, None => wc_refused r = true
            | _, _, _ => False
            end }.

(** The identifiers printed in a receipt. *)
Definition receipt_ids (r : WithdrawalReceipt) : list N :=
  wc_user r :: option_list (wc_id r) ++ option_list (wc_hold_tx r).

(** Each field of a printed receipt. *)
Lemma fields_of_receipt r :
  let get k := as_object_opt (encode_receipt r) ≫= field_get k in
  get "amount_micro" = Some (JInt (wc_amount_micro r)) /\
  get "combo" = Some (json_opt JString (wc_combo r ≫= combo_label)) /\
  get "dest" = Some (JString (wc_dest r)) /\
  get "hold_tx_id" = Some (json_opt (fun id => JString (uuid_text id)) (wc_hold_tx r)) /\
  get "id" = Some (json_opt (fun id => JString (uuid_text id)) (wc_id r)) /\
  get "refuse_code" = Some (json_opt JString (wc_refuse_code r)) /\
  get "refuse_message" = Some (json_opt JString (wc_refuse_message r)) /\
  get "refused" = Some (JBool (wc_refused r)) /\
  get "user" = Some (JString (uuid_text (wc_user r))).
Proof. by repeat split. Qed.

Lemma opt_text o : Some (json_opt JString o) ≫= as_str_opt = o.
Proof. by destruct o. Qed.

Lemma opt_uuid o : Some (json_opt (fun id => JString (uuid_text id)) o) ≫= as_str_opt = uuid_text <$> o.
Proof. by destruct o. Qed.

Lemma decode_encode r :
  receipt_shape r -> wc_replayed r = false ->
  (forall u, u ∈ receipt_ids r -> uuid_parse (uuid_text u) = Some u) ->
  decode_receipt uuid_parse (encode_receipt r) = Ok r.
Proof.
  intros [Ha Ht Hk] Hrep Hp. destruct (fields_of_receipt r) as (Fa & Fc & Fd & Fh & Fi & Fx & Fm & Fr & Fu).
  unfold decode_receipt. cbv zeta. rewrite Fa, Fc, Fd, Fh, Fi, Fx, Fm, Fr, Fu, !opt_text, !opt_uuid. clear Fa Fc Fd Fh Fi Fx Fm Fr Fu.
  destruct r as [id user dest amount combo hold rep refused code message]. unfold receipt_ids in Hp. cbn in *. subst rep.
  rewrite (Hp user) by set_solver. cbn. rewrite (proj2 (checked_Some I64 amount amount)) by done.
  destruct id as [id|], combo as [c|], hold as [hold|]; try done.
  - destruct Hk as [Hl ->]. cbn. rewrite (Hp id) by set_solver. apply bool_decide_eq_true in Hl as [s Hs].
    cbn. rewrite Hs. cbn. rewrite (proj1 (parse_combo_label _ _) Hs). cbn. rewrite (Hp hold) by set_solver. cbn.
    by rewrite (proj2 (Z.leb_gt amount 0)).
  - subst refused. cbn. by rewrite (proj2 (Z.leb_gt amount 0)).
Qed.

(** ** What a request leaves *)

Notation prints w := (td_fingerprints (wd_db w)).

Lemma set_fingerprint_keeps key text k v w :
  prints w !! k = Some v -> prints (set_fingerprint key text w) !! k = Some v.
Proof.
  unfold set_fingerprint, save_request_fingerprint. cbn. destruct (_ !! key) eqn:E; [done|]. cbn. intros Hk.
  rewrite lookup_insert_ne; [done|]. intros <-. congruence.
Qed.

Lemma persist_intent_stores r w w' :
  persist_intent sha256 to_string r w = Ok w' ->
  prints w' !! fp_key (intent_fingerprint sha256 (wc_user r) (wc_amount_micro r) (wc_dest r)) =
    Some (lit (to_string (encode_receipt r))).
Proof.
  unfold persist_intent. cbv zeta. destruct (_ !! _) eqn:E; [done|]. intros [= <-].
  unfold set_fingerprint, save_request_fingerprint. cbn. rewrite E. cbn. by simplify_map_eq.
Qed.

Lemma persist_idemp_keeps cmd fp k v w w' :
  prints w !! k = Some v -> persist_idemp cmd fp w = Ok w' -> prints w' !! k = Some v.
Proof.
  unfold persist_idemp. intros Hk. destruct (rq_idempotency_key cmd) as [key|]; [|by intros [= <-]].
  intros Hp%map_err_Ok. unfold persist_idempotency in Hp.
  destruct (_ !! idempotency_slot _ _) in Hp; [case_match; [by injection Hp as <-|done]|].
  injection Hp as <-. by apply set_fingerprint_keeps.
Qed.

(** The receipt of [cmd] is stored under its fingerprint. *)
Definition answered (cmd : RequestWithdrawCmd) (dest : string) (r : WithdrawalReceipt) (w : Wdb) : Prop :=
  receipt_shape r /\ wc_replayed r = false /\
  prints w !! fp_key (intent_fingerprint sha256 (rq_user cmd) (rq_amount_micro cmd) dest) =
    Some (lit (to_string (encode_receipt r))).

Lemma refuse_answers cmd dest fp code message w r w' :
  0 < rq_amount_micro cmd -> in_ty I64 (rq_amount_micro cmd) ->
  refuse sha256 to_string cmd dest fp code message w = Ok (r, w') -> answered cmd dest r w'.
Proof.
  intros Ha Ht Hr. unfold refuse in Hr. cbv zeta in Hr.
  apply bind_Ok in Hr as (w1 & H1%map_err_Ok%persist_intent_stores & Hr). apply bind_Ok in Hr as (w2 & H2 & [= <- <-]).
  split; [done|]. split; [done|]. by eapply persist_idemp_keeps.
Qed.

Lemma hold_answers ids db_now now cmd dest fp l view w r w' :
  0 < rq_amount_micro cmd -> in_ty I64 (rq_amount_micro cmd) ->
  hold_and_insert sha256 to_string ids db_now now cmd dest fp l view w = Ok (r, w') -> answered cmd dest r w'.
Proof.
  intros Ha Ht Hr. unfold hold_and_insert in Hr. cbv zeta in Hr.
  apply bind_Ok in Hr as (w1 & _ & Hr). apply bind_Ok in Hr as ([rs w2] & _ & Hr).
  apply bind_Ok in Hr as ([t w3] & _ & Hr). apply bind_Ok in Hr as (w4 & _ & Hr).
  apply bind_Ok in Hr as (w5 & H1%map_err_Ok%persist_intent_stores & Hr). apply bind_Ok in Hr as (w6 & H2 & [= <- <-]).
  split; [done|]. split; [done|]. by eapply persist_idemp_keeps.
Qed.

Lemma revalidate_answers ids db_now now cmd dest fp w r w' :
  0 < rq_amount_micro cmd -> in_ty I64 (rq_amount_micro cmd) ->
  revalidate_and_hold sha256 to_string ids db_now now cmd dest fp w = Ok (r, w') -> answered cmd dest r w'.
Proof.
  intros Ha Ht Hr. unfold revalidate_and_hold in Hr.
  apply bind_Ok in Hr as (l & _ & Hr). apply bind_Ok in Hr as (view & _ & Hr).
  destruct (admission_refusal _ _ _) as [[code message]|]; [by eapply refuse_answers|].
  apply bind_Ok in Hr as ([cash w1] & _ & Hr). destruct (_ <? _); [by eapply refuse_answers|].
  apply bind_Ok in Hr as (since & _ & Hr). apply bind_Ok in Hr as (ok & _ & Hr).
  destruct (negb ok); [by eapply refuse_answers|by eapply hold_answers].
Qed.

Lemma request_answers ids db_now now cmd geo sanctions w0 w r w' :
  in_ty I64 (rq_amount_micro cmd) ->
  request_withdraw sha256 to_string from_str uuid_parse ids db_now now cmd geo sanctions w0 w = (Ok r, w') ->
  wc_replayed r = false ->
  exists dest, canonicalize_dest (rq_dest cmd) = Some dest /\ 0 < rq_amount_micro cmd /\ answered cmd dest r w'.
Proof.
  intros Ht Hr%atomic_answer Hrep. apply bind_Ok in Hr as (dest & Hd%ok_or_Ok & Hr). exists dest. split; [done|].
  destruct (_ <=? 0) eqn:Hpos in Hr; [done|]. apply Z.leb_gt in Hpos. split; [done|]. cbv zeta in Hr.
  apply bind_Ok in Hr as ([hit|] & _ & Hr); [by injection Hr as <- _|].
  unfold request_tx in Hr. apply bind_Ok in Hr as ([hit|] & _ & Hr); [by injection Hr as <- _|].
  destruct (negb _) in Hr; [done|]. apply bind_Ok in Hr as (w1 & _ & Hr).
  destruct (remote_refusal _ _) as [[code message]|]; [by eapply refuse_answers|].
  apply bind_Ok in Hr as ([c f] & _ & Hr). by eapply revalidate_answers.
Qed.

(** A stored receipt answers every later request for the same intent. *)
Lemma answered_replays ids db_now now cmd cmd' dest r geo sanctions w w0' w1 :
  answered cmd dest r w ->
  from_str (to_string (encode_receipt r)) = Some (encode_receipt r) ->
  (forall u, u ∈ receipt_ids r -> uuid_parse (uuid_text u) = Some u) ->
  0 < rq_amount_micro cmd -> rq_user cmd' = rq_user cmd -> rq_amount_micro cmd' = rq_amount_micro cmd ->
  canonicalize_dest (rq_dest cmd') = Some dest ->
  let key := fp_key (intent_fingerprint sha256 (rq_user cmd) (rq_amount_micro cmd) dest) in
  prints w1 !! key = prints w !! key -> prints w0' !! key = None \/ prints w0' !! key = prints w !! key ->
  request_withdraw sha256 to_string from_str uuid_parse ids db_now now cmd' geo sanctions w0' w1 =
    (Ok (with_replayed r), w1).
Proof.
  intros (Hs & Hrep & Hk) Hj Hu Hpos Eu Ea Hd key E1 E0. unfold request_withdraw. rewrite Hd, Eu, Ea. cbn [ok_or mbind].
  cbn. rewrite (proj2 (Z.leb_gt _ 0) Hpos). cbv zeta. fold key in Hk. rewrite Hk in E1, E0.
  assert (Htx : lookup_fingerprint_tx from_str uuid_parse (intent_fingerprint sha256 (rq_user cmd) (rq_amount_micro cmd) dest) w1 = Ok (Some r)).
  { unfold lookup_fingerprint_tx. fold key. rewrite E1, text_of_lit, Hj. cbn. by rewrite decode_encode. }
  unfold lookup_fingerprint. fold key. destruct E0 as [-> | ->]; cbn.
  - unfold request_tx. by rewrite Htx.
  - rewrite text_of_lit, Hj. cbn. by rewrite decode_encode.
Qed.

(** ** The terms a request is judged by *)

(** Configuration, accounts, exclusions and rows are as they were. *)
Record same_terms (w w' : Wdb) : Prop := {
  st_entries : wd_entries w' = wd_entries w;
  st_users : co_users (wd_comp w') = co_users (wd_comp w);
  st_exclusions : co_exclusions (wd_comp w') = co_exclusions (wd_comp w);
  st_rows : wd_rows w' = wd_rows w }.

Lemma same_terms_trans w1 w2 w3 : same_terms w1 w2 -> same_terms w2 w3 -> same_terms w1 w3.
Proof. intros [] []. split; congruence. Qed.

Lemma same_terms_limits w w' : same_terms w w' -> limits w' = limits w.
Proof. intros T. unfold limits. by rewrite (st_entries _ _ T). Qed.

Lemma same_terms_view w w' now user : same_terms w w' -> user_money_view now user w' = user_money_view now user w.
Proof. intros T. unfold user_money_view. by rewrite (st_users _ _ T), (st_exclusions _ _ T). Qed.

Lemma same_terms_window w w' p : same_terms w w' -> amount_where p w' = amount_where p w.
Proof. intros T. unfold amount_where. by rewrite (st_rows _ _ T). Qed.

Lemma persist_screening_terms fresh db_now user context v w w' :
  persist_screening fresh db_now user context v w = Ok w' -> same_terms w w'.
Proof. unfold persist_screening. destruct v; case_match; try done; intros [= <-]; done. Qed.

Lemma persist_remote_terms ids db_now cmd fp geo sanctions w w' :
  persist_remote ids db_now cmd fp geo sanctions w = Ok w' -> same_terms w w'.
Proof.
  unfold persist_remote. intros (w1 & H1%map_err_Ok%persist_screening_terms & Hr%map_err_Ok%persist_screening_terms)%bind_Ok.
  by eapply same_terms_trans.
Qed.

Lemma owner_balance_terms fresh o negative w bal w' :
  owner_balance fresh o negative w = Ok (bal, w') -> same_terms w w'.
Proof.
  intros Hr. unfold owner_balance in Hr. apply bind_Ok in Hr as ([led a] & _ & Hr).
  apply bind_Ok in Hr as (b & _ & Hr). by destruct (b <? 0); [|injection Hr as _ <-].
Qed.

Lemma saturate_cap x cap : saturate I64 x <= cap -> Z.min x (imax I64) <= cap.
Proof. unfold saturate. lia. Qed.

(** Rows still counted by the daily windows. *)
Definition spent (p : WithdrawalRow -> bool) (now : Z) (w : Wdb) : Z :=
  amount_where (fun r => p r && in_window (now - 86400) r) w.

Lemma within_limits_caps cmd dest l now w :
  within_limits cmd dest l (now - 86400) w = Ok true ->
  Z.min (spent (fun r => (wr_user r =? rq_user cmd)%N) now w + rq_amount_micro cmd) (imax I64) <= daily_micro l /\
  Z.min (spent (fun r => bool_decide (wr_dest r = dest)) now w + rq_amount_micro cmd) (imax I64) <= dest_daily_micro l /\
  Z.min (spent (fun _ => true) now w + rq_amount_micro cmd) (imax I64) <= hot_daily_micro l.
Proof.
  unfold within_limits, window_sum_user, window_sum_dest, window_sum_hot, spent. intros Hr.
  apply bind_Ok in Hr as (a & Ha%map_err_Ok & Hr). apply bind_Ok in Hr as (b & Hb%map_err_Ok & Hr).
  apply bind_Ok in Hr as (c & Hc%map_err_Ok & Hr). injection Hr as Hr.
  apply bigint_value in Ha as ->, Hb as ->, Hc as ->.
  rewrite !andb_true_iff, !Z.leb_le in Hr. destruct Hr as [[? ?] ?].
  split_and!; by apply saturate_cap.
Qed.

(** What [admission_refusal] lets through. *)
Lemma admission_passes cmd l view :
  admission_refusal cmd l view = None ->
  pause_withdrawals l = false /\ mv_status view <> Banned /\ withdraw_kyc_tier l <= mv_kyc_tier view /\
  min_micro l <= rq_amount_micro cmd <= max_micro l /\ is_Some (rq_client_ip cmd).
Proof.
  unfold admission_refusal. destruct (pause_withdrawals l); [done|]. case_bool_decide; [done|].
  destruct (_ <? withdraw_kyc_tier l) eqn:Hk; [done|]. destruct (_ || _) eqn:Hm; [done|].
  case_bool_decide as Hip; [done|]. intros _. rewrite orb_false_iff, Z.ltb_ge, Z.gtb_ltb, Z.ltb_ge in Hm.
  apply Z.ltb_ge in Hk. split_and!; try done; try lia. by apply not_eq_None_Some.
Qed.

Lemma refuse_refused cmd dest fp code message w r w' :
  refuse sha256 to_string cmd dest fp code message w = Ok (r, w') -> wc_refused r = true.
Proof.
  unfold refuse. cbv zeta. intros (w1 & _ & Hr)%bind_Ok. by apply bind_Ok in Hr as (w2 & _ & [= <- _]).
Qed.

(** The request was admitted on the terms of [w] and its hold placed. *)
Record admitted (ids : RequestIds) (db_now now : Z) (cmd : RequestWithdrawCmd) (dest fp : string) (w w' : Wdb)
    (r : WithdrawalReceipt) : Prop := {
  ad_terms : exists l view, limits w = Ok l /\ user_money_view db_now (rq_user cmd) w = Ok view /\
    (pause_withdrawals l = false /\ mv_status view <> Banned /\ withdraw_kyc_tier l <= mv_kyc_tier view /\
     min_micro l <= rq_amount_micro cmd <= max_micro l /\ is_Some (rq_client_ip cmd)) /\
    Z.min (spent (fun r => (wr_user r =? rq_user cmd)%N) now w + rq_amount_micro cmd) (imax I64) <= daily_micro l /\
    Z.min (spent (fun r => bool_decide (wr_dest r = dest)) now w + rq_amount_micro cmd) (imax I64) <= dest_daily_micro l /\
    Z.min (spent (fun _ => true) now w + rq_amount_micro cmd) (imax I64) <= hot_daily_micro l;
  ad_fresh : wd_rows w !! ri_withdrawal ids = None;
  ad_rows : exists reasons, wd_rows w' = <[ri_withdrawal ids := mkWithdrawal (ri_withdrawal ids) (rq_user cmd) dest
    (rq_amount_micro cmd) W1 (li_txn (ri_hold ids)) None None fp reasons now None None None]> (wd_rows w);
  ad_held : held (wd_ledger w') Ref.Withheld Usdc = held (wd_ledger w) Ref.Withheld Usdc + rq_amount_micro cmd;
  ad_receipt : r = mkWithdrawalReceipt (Some (ri_withdrawal ids)) (rq_user cmd) dest (rq_amount_micro cmd) (Some W1)
    (Some (li_txn (ri_hold ids))) false false None None }.

Lemma revalidate_admits ids db_now now cmd dest fp w r w' :
  wsound w -> 0 < rq_amount_micro cmd -> li_txn (ri_hold ids) <> 0%N ->
  revalidate_and_hold sha256 to_string ids db_now now cmd dest fp w = Ok (r, w') -> wc_refused r = false ->
  admitted ids db_now now cmd dest fp w w' r.
Proof.
  intros S Hpos Hnz Hr Hacc. unfold revalidate_and_hold in Hr.
  apply bind_Ok in Hr as (l & Hl%map_err_Ok & Hr). apply bind_Ok in Hr as (view & Hv%map_err_Ok & Hr).
  destruct (admission_refusal _ _ _) as [[code message]|] eqn:Had; [apply refuse_refused in Hr; congruence|].
  apply admission_passes in Had.
  apply bind_Ok in Hr as ([cash w1] & Hc%map_err_Ok & Hr). pose proof (owner_balance_terms _ _ _ _ _ _ Hc) as T1.
  apply owner_balance_Ok in Hc as (T & -> & E); [|apply S].
  destruct (_ <? _) eqn:Hcash in Hr; [apply refuse_refused in Hr; congruence|]. apply Z.ltb_ge in Hcash.
  apply bind_Ok in Hr as (since & ->%datetime_value & Hr). apply bind_Ok in Hr as (ok & Hlim & Hr).
  destruct ok; [|apply refuse_refused in Hr; congruence]. cbn [negb] in Hr. apply within_limits_caps in Hlim.
  unfold spent in Hlim. rewrite !(same_terms_window _ _ _ T1) in Hlim.
  apply hold_and_insert_Ok in Hr as (_ & Hn & (rs & Hrows) & Hh & -> & _); [|by eapply steady_sound|by rewrite E|done].
  rewrite (sd_rows _ _ T) in Hn, Hrows. split; [|done|by exists rs| |done].
  - by exists l, view.
  - rewrite Hh, E. unfold posted_to. cbn -[bool_decide]. rewrite bool_decide_eq_false_2 by congruence. rewrite bool_decide_eq_true_2 by done. cbn. lia.
Qed.
End Intents.

(** ** Approvals *)

Section Approvals.
Context `{UuidText} `{HashMapOrder} (sha256 : string -> list Z).

(** No gate stands against paying [r] at [now]. *)
Record cleared (now : Z) (r : WithdrawalRow) (l : WithdrawLimits) (view : UserMoneyView) (w : Wdb) : Prop := {
  cl_open : pause_withdrawals l = false;
  cl_status : mv_status view <> Banned;
  cl_kyc : withdraw_kyc_tier l <= mv_kyc_tier view;
  cl_flags : forall f, f ∈ co_flags (wd_comp w) -> fr_user f = wr_user r -> fr_status f <> "open";
  cl_sanctions : is_fresh_clear (latest_screening (wr_user r) "withdraw" w) now = true;
  cl_geo : is_fresh_clear (latest_screening (wr_user r) (geo_context (wr_fingerprint r)) w) now = true;
  cl_exclusion : forall until, mv_excluded_until view = Some until -> now < until ->
    is_self_exclusion_egress (wr_user r) (wr_dest r) w = true }.

(** Counting the flags changes no screening, row, deposit or event. *)
Record same_facts (w w' : Wdb) : Prop := {
  sf_screenings : co_screenings (wd_comp w') = co_screenings (wd_comp w);
  sf_proposals : co_proposals (wd_comp w') = co_proposals (wd_comp w);
  sf_rows : wd_rows w' = wd_rows w;
  sf_deposits : wd_deposits w' = wd_deposits w;
  sf_outbound : wd_outbound w' = wd_outbound w;
  sf_entries : wd_entries w' = wd_entries w;
  sf_events : wd_events w' = wd_events w }.

Lemma open_aml_flag_count_facts fresh db_now user w n w' :
  open_aml_flag_count fresh db_now user w = Ok (n, w') ->
  same_facts w w' /\
  (n <= 0 -> forall f, f ∈ co_flags (wd_comp w) -> fr_user f = user -> fr_status f <> "open").
Proof.
  unfold open_aml_flag_count. cbv zeta. intros (c & Hc & Hr)%bind_Ok. apply bind_Ok in Hr as (k & Hk & [= <- <-]).
  assert (K : co_screenings c = co_screenings (wd_comp w) /\ co_proposals c = co_proposals (wd_comp w) /\
    forall f, f ∈ co_flags (wd_comp w) -> f ∈ co_flags c).
  { destruct (latest_fact _ _); [|by injection Hc as <-]. destruct (_ && _); [|by injection Hc as <-].
    destruct (existsb _ _); [done|]. injection Hc as <-. cbn. split_and!; [done..|]. set_solver. }
  destruct K as (K1 & K2 & K3). split; [done|]. intros Hn f Hf Hu Ho.
  apply ok_or_Ok, checked_Some in Hk as [-> _]. unfold zlen in Hn.
  assert (List.filter (fun f => (fr_user f =? user)%N && bool_decide (fr_status f = "open")) (co_flags c) = []) as E
    by (apply length_zero_iff_nil; lia).
  assert (Hin : In f (co_flags c)) by by apply list_elem_of_In, K3.
  assert (Hnil : In f []); [|done]. rewrite <- E. apply filter_In. split; [done|]. by rewrite Hu, N.eqb_refl, bool_decide_eq_true_2.
Qed.

Lemma latest_screening_facts w w' user context : same_facts w w' -> latest_screening user context w' = latest_screening user context w.
Proof. intros F. unfold latest_screening, latest_screen. by rewrite (sf_screenings _ _ F). Qed.

Lemma egress_facts w w' user dest : same_facts w w' -> is_self_exclusion_egress user dest w' = is_self_exclusion_egress user dest w.
Proof.
  intros F. unfold is_self_exclusion_egress, dest_was_settled_for_user, dest_is_observation_source_for_user.
  by rewrite (sf_rows _ _ F), (sf_deposits _ _ F).
Qed.

Lemma dest_warmth_facts w w' dest : same_facts w w' -> dest_warmth dest w' = dest_warmth dest w.
Proof.
  intros F. unfold dest_warmth, limits, amount_where.
  by rewrite (sf_rows _ _ F), (sf_deposits _ _ F), (sf_outbound _ _ F), (sf_entries _ _ F).
Qed.

Lemma push_gate b reason : existsb hard_gate (push b reason) = b && hard_gate reason.
Proof. destruct b; cbn; [by rewrite orb_false_r|done]. Qed.

(** Reasons without a hard gate leave the row cleared; no reason at all also
    keeps it under the automatic threshold, to a warm destination. *)
Lemma live_reasons_cleared fresh db_now row l view now w live w' :
  live_reasons fresh db_now row l view now w = Ok (live, w') ->
  same_facts w w' /\ (existsb hard_gate live = false -> cleared now row l view w) /\
  (live = [] -> wr_amount_micro row < auto_approve_micro l /\
     exists dw, dest_warmth (wr_dest row) w = Ok dw /\ @is_warm AppError dw l now = Ok true).
Proof.
  unfold live_reasons, screening_reasons. intros ([n w1] & Hc%map_err_Ok & Hr)%bind_Ok.
  apply open_aml_flag_count_facts in Hc as [F Hflags]. apply bind_Ok in Hr as (rest & Hs & [= <- <-]).
  apply bind_Ok in Hs as (dw & Hdw%map_err_Ok & Hs). apply bind_Ok in Hs as (warm & Hw & [= <-]).
  rewrite (dest_warmth_facts _ _ _ F) in Hdw. rewrite !(latest_screening_facts _ _ _ _ F), (egress_facts _ _ _ _ F).
  split; [done|]. split.
  - rewrite !existsb_app, !push_gate, !orb_false_iff. intros (H1 & _ & _ & H4 & H5 & H6 & H7 & H8 & _ & _ & _ & H12).
    change (hard_gate _) with true in H1, H5, H6, H7, H8, H12. rewrite andb_true_r in *.
    split; [done|by intros E; rewrite E in H4|by apply Z.ltb_ge in H5| | | |].
    + apply Hflags. rewrite Z.gtb_ltb, Z.ltb_ge in H6. done.
    + by apply negb_false_iff.
    + by apply negb_false_iff.
    + intros u E Hu. rewrite E in H12. rewrite (proj2 (Z.gtb_lt u now)) in H12 by lia. by apply negb_false_iff.
  - intros E. rewrite !app_nil in E. destruct E as (_ & E1 & _ & _ & _ & _ & _ & _ & E2 & _).
    split.
    + destruct (_ >=? auto_approve_micro l) eqn:G; [done|]. rewrite Z.geb_leb, Z.leb_gt in G. done.
    + exists dw. split; [done|]. rewrite Hw. by destruct warm.
Qed.

Lemma union_keeps old new : exists more, union_reasons old new = old ++ more.
Proof.
  unfold union_reasons. revert old. induction new as [|x new IH]; intros old; cbn [fold_left]; [by exists []; rewrite app_nil_r|].
  destruct (existsb _ old); [apply IH|]. destruct (IH (old ++ [x])) as [more ->]. exists (x :: more). by rewrite <- app_assoc.
Qed.

Lemma union_nil old new : union_reasons old new = [] -> old = [] /\ new = [].
Proof.
  intros E. destruct (union_keeps old new) as [more E']. rewrite E in E'. symmetry in E'. apply app_nil in E' as [-> _].
  split; [done|]. destruct new as [|x new]; [done|]. change (union_reasons [x] new = []) in E.
  destruct (union_keeps [x] new) as [more' E']. by rewrite E in E'.
Qed.

(** The finance approvals of the last day leave room for [amount]. *)
Definition capped (amount now : Z) (l : WithdrawLimits) (w : Wdb) : Prop :=
  exists used, finance_approve_sum_since (now - 86400) w = Ok used /\
    Z.min (used + amount) (imax I64) <= approve_daily_cap_micro l.

Lemma consume_cap_capped db_now now row l w w' w0 :
  consume_approval_cap db_now now row l w = Ok w' -> wd_events w = wd_events w0 -> capped (wr_amount_micro row) now l w0.
Proof.
  unfold consume_approval_cap. intros (since & ->%datetime_value & Hr)%bind_Ok E. apply bind_Ok in Hr as (used & Hu%map_err_Ok & Hr).
  exists used. unfold finance_approve_sum_since in *. rewrite E in Hu. split; [done|].
  destruct (_ >? _) eqn:G; [done|]. rewrite Z.gtb_ltb, Z.ltb_ge in G. by apply saturate_cap.
Qed.

(** What the command, the principal and the row must be for an approval. *)
Definition authority (now : Z) (actor : AdminContext) (cmd : DecideCmd) (r : WithdrawalRow) (l : WithdrawLimits)
    (w : Wdb) : Prop :=
  match cmd with
  | DecideMachine =>
      actor = Machine /\ wr_combo r = W1 /\ wr_risk_reasons r = [] /\ wr_amount_micro r < auto_approve_micro l /\
      exists dw, dest_warmth (wr_dest r) w = Ok dw /\ @is_warm AppError dw l now = Ok true
  | FinanceApprove _ =>
      (exists token, actor = Admin token Finance) /\ wr_combo r = W4 /\ wr_amount_micro r < dual_control_micro l /\
      (forall reason, reason ∈ wr_risk_reasons r -> hard_gate reason = false /\ reason <> "amount_ge_dual") /\
      capped (wr_amount_micro r) now l w
  | ConfirmDual =>
      exists token role p, actor = Admin token role /\ (role = Finance \/ role = Superadmin) /\ wr_combo r = W5 /\
      p ∈ co_proposals (wd_comp w) /\ mp_status p = Pending /\ mp_kind p = APPROVE_KIND /\ mp_subject_id p = wr_id r /\
      mp_payload_hash p = withdraw_payload_hash sha256 (wr_id r) (wr_amount_micro r) /\
      mp_proposer_token_id p <> token /\ mp_confirm_not_before p <= now < mp_expires_at p /\
      capped (wr_amount_micro r) now l w
  | _ => False
  end.

Lemma decide_cas_answer db_now from row actor w r w' : decide_cas db_now from row actor w = Ok (r, w') -> r = row.
Proof. unfold decide_cas. by intros (w1 & _ & [= <- _])%bind_Ok. Qed.

(** The three ways to W2. *)
Definition approved (db_now now : Z) (actor : AdminContext) (cmd : DecideCmd) (r : WithdrawalRow) (w : Wdb) : Prop :=
  exists l view, limits w = Ok l /\ user_money_view db_now (wr_user r) w = Ok view /\ cleared now r l view w /\
    authority now actor cmd r l w.

Lemma machine_approved fresh db_now now r w r' w' :
  decide_machine fresh db_now now r w = Ok (r', w') -> wr_combo r' = W2 ->
  approved db_now now Machine DecideMachine r w.
Proof.
  unfold decide_machine. case_bool_decide as E; [|done]. cbn [negb]. intros (l & Hl%map_err_Ok & Hr)%bind_Ok Hw2.
  apply bind_Ok in Hr as (view & Hv%map_err_Ok & Hr). apply bind_Ok in Hr as ([live w1] & Hlive & Hr). cbv zeta in Hr.
  apply decide_cas_answer in Hr as ->. cbn in Hw2. unfold blocks_auto_approve in Hw2.
  destruct (union_reasons _ live) eqn:Hn; [|done]. apply union_nil in Hn as [Hn ->].
  apply live_reasons_cleared in Hlive as (_ & Hc & Hw). destruct (Hw eq_refl) as [Ha Hd].
  exists l, view. split_and!; [done..|by apply Hc|done].
Qed.

Lemma finance_approved fresh db_now now r actor reason w r' w' :
  finance_approve fresh db_now now r actor reason w = Ok (r', w') ->
  approved db_now now actor (FinanceApprove reason) r w.
Proof.
  unfold finance_approve. intros (u & Hf & Hr)%bind_Ok. apply bind_Ok in Hr as (u' & _ & Hr).
  case_bool_decide as E; [|done]. cbn [negb] in Hr. apply bind_Ok in Hr as (l & Hl%map_err_Ok & Hr).
  destruct (_ || _) eqn:Hd in Hr; [done|]. apply bind_Ok in Hr as (view & Hv%map_err_Ok & Hr).
  apply bind_Ok in Hr as ([live w1] & Hlive & Hr). destruct (existsb hard_gate live || _) eqn:Hg; [done|].
  cbv zeta in Hr. apply bind_Ok in Hr as (w2 & Hcap & _). apply orb_false_iff in Hd as [Ha Hdual], Hg as [Hg1 Hg2].
  apply live_reasons_cleared in Hlive as (F & Hc & _). apply (consume_cap_capped _ _ _ _ _ _ w) in Hcap; [|apply F].
  exists l, view. split_and!; [done..|by apply Hc|]. split.
  - destruct actor as [|token role]; [done|]. destruct role; try done. by exists token.
  - split; [done|]. split; [rewrite Z.geb_leb, Z.leb_gt in Ha; done|]. split; [|done]. intros x Hx. split.
    + destruct (hard_gate x) eqn:Hh; [|done]. assert (existsb hard_gate (wr_risk_reasons r) = true); [|congruence].
      apply existsb_exists. exists x. by rewrite <- list_elem_of_In.
    + intros ->. unfold has_reason in Hdual. assert (existsb (fun e => bool_decide (e = "amount_ge_dual")) (wr_risk_reasons r) = true); [|congruence].
      apply existsb_exists. exists "amount_ge_dual". by rewrite <- list_elem_of_In.
Qed.

Lemma confirm_approved fresh db_now now r actor w r' w' :
  confirm_dual sha256 fresh db_now now r actor w = Ok (r', w') -> approved db_now now actor ConfirmDual r w.
Proof.
  unfold confirm_dual. intros (u & Hf & Hr)%bind_Ok. case_bool_decide as E; [|done]. cbn [negb] in Hr.
  apply bind_Ok in Hr as (confirmer & Hp & Hr). apply bind_Ok in Hr as (p & Ho%ok_or_Ok & Hr).
  destruct (bool_decide (confirmer = _)) eqn:Hne; [done|]. apply bool_decide_eq_false in Hne. destruct (now <? _) eqn:Hd; [done|]. destruct (now >=? _) eqn:He; [done|].
  destruct (_ || _) eqn:Hh in Hr; [done|]. apply bind_Ok in Hr as (l & Hl%map_err_Ok & Hr). apply bind_Ok in Hr as (view & Hv%map_err_Ok & Hr).
  apply bind_Ok in Hr as ([live w1] & Hlive & Hr). destruct (existsb hard_gate live) eqn:Hg; [done|].
  cbv zeta in Hr. apply bind_Ok in Hr as (w2 & Hcap & _).
  apply live_reasons_cleared in Hlive as (F & Hc & _). apply (consume_cap_capped _ _ _ _ _ _ w) in Hcap; [|apply F].
  exists l, view. split_and!; [done..|by apply Hc|].
  destruct actor as [|token role]; [done|]. injection Hp as <-. exists token, role, p.
  apply find_some in Ho as [Hin Ho]. rewrite !andb_true_iff in Ho. destruct Ho as [[Hs Hk] Hst].
  rewrite !orb_false_iff, !negb_false_iff in Hh. destruct Hh as [[_ Hh] _].
  apply bool_decide_eq_true in Hk, Hst, Hh. apply N.eqb_eq in Hs. apply Z.ltb_ge in Hd. rewrite Z.geb_leb, Z.leb_gt in He.
  split_and!; try done; [by destruct role; try done; [left|right]|by apply list_elem_of_In].
Qed.
End Approvals.

(** ** Replacement *)

Section Replacement.
Context `{UuidText} `{HashMapOrder} (time_json : Z -> Value).

Lemma persist_signed_other payment bytes signature old_bytes old_signature rail :
  rail !! payment = Some (old_bytes, old_signature) -> old_signature <> signature ->
  persist_signed payment bytes signature rail = Err (Store.Conflict "persisted signed bytes changed").
Proof.
  intros E Hne. unfold persist_signed. rewrite E. rewrite (bool_decide_eq_false_2 (old_signature = signature)) by done.
  by rewrite orb_true_r.
Qed.

(** A replacement is signed under a signature no earlier attempt carries. *)
Lemma replace_prepare_new ids signer now row payment old attempts w a w' :
  replace_prepare ids signer now row payment old attempts w = Ok (a, w') ->
  forall b, b ∈ attempts -> at_signature b <> at_signature a.
Proof.
  unfold replace_prepare. intros (w1 & _ & Hr)%bind_Ok. apply bind_Ok in Hr as ([[bytes signature] last] & _ & Hr).
  destruct (existsb _ _) eqn:Hs; [done|]. apply bind_Ok in Hr as (lease & _ & Hr). cbv zeta in Hr.
  apply bind_Ok in Hr as (o & _ & [= <- _]). cbn. intros b Hb E.
  assert (existsb (fun a => bool_decide (at_signature a = signature)) attempts = true); [|congruence].
  apply existsb_exists. exists b. by rewrite <- list_elem_of_In, bool_decide_eq_true.
Qed.
End Replacement.

(** ** Scenario *)

Lemma demo_reached_sound w : rtc demo_machine demo_idle w -> wsound w.
Proof.
  intros Hrun. apply (machine_run (H0 := canonical_order) _ _ _ _ _ _ _ _ _ _ _ _ _ _ demo_rep_typed Hrun
    (id_markets _ demo_idle_idle) (idle_sound _ demo_idle_idle)).
Qed.

Definition demo_intent : WithdrawalReceipt :=
  mkWithdrawalReceipt (Some 4%N) 7 demo_dest 2000000 (Some W1) (Some 2%N) false false None None.

(** A codec that knows the receipt and the identifiers of the scenario. *)
Definition demo_from_str (s : string) : option Value :=
  if bool_decide (s = "receipt") then Some (encode_receipt demo_intent) else None.
Definition demo_uuid_parse (s : string) : option N :=
  List.find (fun u => bool_decide (uuid_text u = s)) [2; 4; 7]%N.

Notation demo_ask cmd now w :=
  (request_withdraw (H0 := canonical_order) demo_digest (fun _ => "receipt") demo_from_str demo_uuid_parse demo_request_ids
     now now cmd (fun _ => Some demo_clear) (Some demo_clear) w w).
Definition demo_asked : Wdb := (demo_ask demo_request 100 demo_idle).2.

Lemma demo_request_answer : demo_request_run demo_idle = (Ok demo_intent, demo_requested).
Proof. refine (pair_run (demo_request_run demo_idle) (Ok demo_intent) _). vm_compute. reflexivity. Qed.

Lemma demo_ask_answer : demo_ask demo_request 100 demo_idle = (Ok demo_intent, demo_asked).
Proof. refine (pair_run (demo_ask demo_request 100 demo_idle) (Ok demo_intent) _). vm_compute. reflexivity. Qed.

(** A payment whose broadcast was lost sight of, and its disproof. *)
Definition demo_lose (w : Wdb) : Wdb := (mark_unknown 110 110 4 w w).2.
Definition demo_reviewed : Wdb := demo_review demo_requested.
Definition demo_approved : Wdb := demo_approve demo_reviewed.
Definition demo_lost : Wdb := demo_lose (demo_broadcast demo_approved).
Definition demo_rail_used : Rail := (demo_send demo_approved).2.
Definition demo_proof : list QuorumObservation :=
  map (fun e => mkObservation e (Some 60) (Some false) false) ["a"; "b"; "c"].
Definition demo_resigner : SignerView := mkSigner (Ok ([4; 5; 6], "sig2", 90)) (fun _ => Ok Absent) (Ok 60).
Definition demo_replace (rail : Rail) : outcome AppError SendStage * Wdb * Rail :=
  replace_expired JInt (mkSendIds 41 42 43) demo_rail demo_resigner 120 120 4 demo_proof demo_lost demo_lost rail.

Lemma demo_lose_reached w : rtc demo_machine w (demo_lose (demo_broadcast (demo_approve (demo_review w)))).
Proof.
  apply (rtc_l _ _ (demo_review w)); [apply mc_withdrawal, (wt_decide (H0 := canonical_order))|].
  apply (rtc_l _ _ (demo_approve (demo_review w))); [apply mc_withdrawal, (wt_decide (H0 := canonical_order))|].
  apply (rtc_l _ _ (demo_claim (demo_approve (demo_review w)))); [apply mc_withdrawal, (wt_send (H0 := canonical_order))|].
  apply (rtc_l _ _ (demo_broadcast (demo_approve (demo_review w)))); [apply mc_withdrawal, (wt_after_commit (H0 := canonical_order))|].
  apply rtc_once, mc_withdrawal, (wt_unknown (H0 := canonical_order)).
Qed.

Lemma demo_lost_sound : wsound demo_lost.
Proof. apply demo_reached_sound. transitivity demo_requested; [exact demo_requested_reached|exact (demo_lose_reached demo_requested)]. Qed.

Lemma demo_review_reached w : rtc demo_machine w (demo_review w).
Proof. apply rtc_once, mc_withdrawal, (wt_decide (H0 := canonical_order)). Qed.

Lemma demo_reviewed_sound : wsound demo_reviewed.
Proof. apply demo_reached_sound. transitivity demo_requested; [exact demo_requested_reached|exact (demo_review_reached demo_requested)]. Qed.

Notation demo_decision w :=
  (decide_withdraw demo_digest (mkDecideIds 27 28 (mkLegIds 25 26 3)) 101 101 (Admin "t1" Finance) 4 (FinanceApprove "known") w w).

Lemma demo_approve_answer : demo_decision demo_reviewed = (Ok (demo_withdrawal W2 None), demo_approved).
Proof.
  unfold demo_approved, demo_approve, demo_decide.
  refine (pair_run (demo_decision demo_reviewed) (Ok (demo_withdrawal W2 None)) _). vm_compute. reflexivity.
Qed.

Lemma demo_lost_payment : payment_of WithdrawalSubject 4 (wd_outbound demo_lost) = Some demo_payment.
Proof. vm_compute. reflexivity. Qed.

Lemma demo_lost_attempts : of_payment (op_id demo_payment) (wd_outbound demo_lost) = [demo_sent_attempt Landing.Unknown].
Proof. vm_compute. reflexivity. Qed.

Lemma demo_rail_holds : demo_rail_used !! op_id demo_payment = Some ([1; 2; 3], "sig").
Proof. vm_compute. reflexivity. Qed.

(** ** Properties *)

(** C17: an accepted withdrawal was admissible and its money is out of reach.
    When a request is accepted (neither a replay nor a refusal), its destination
    decodes to 32 bytes, both screening providers answered, withdrawals were not
    paused, the account was not banned and had the required KYC tier, the amount
    was within the bounds and a client address was known; the withdrawals of the
    last day that were not denied or failed, with this one, stay under the caps
    of the user, the destination and the hot wallet (sums beyond 64 bits
    saturate); exactly one row is added, in W1, and the [Withheld] account gains
    exactly the amount. *)
Theorem accepted_request_withholds `{UuidText} `{HashMapOrder} (sha256 : string -> list Z) (to_string : Value -> string)
    (from_str : string -> option Value) (uuid_parse : string -> option N) (ids : RequestIds) (db_now now : Z)
    (cmd : RequestWithdrawCmd) (geo : IpAddr -> option ScreenVerdict) (sanctions : option ScreenVerdict) (w0 w w' : Wdb)
    (r : WithdrawalReceipt) :
  wsound w -> li_txn (ri_hold ids) <> 0%N ->
  request_withdraw sha256 to_string from_str uuid_parse ids db_now now cmd geo sanctions w0 w = (Ok r, w') ->
  wc_replayed r = false -> wc_refused r = false ->
  is_Some (screen_geo geo (rq_client_ip cmd)) /\ is_Some sanctions /\
  exists dest, canonicalize_dest (rq_dest cmd) = Some dest /\
    admitted ids db_now now cmd dest (intent_fingerprint sha256 (rq_user cmd) (rq_amount_micro cmd) dest) w w' r.
Proof.
  intros S Hnz Hr%atomic_answer Hrep Hacc. apply bind_Ok in Hr as (dest & Hd%ok_or_Ok & Hr).
  destruct (_ <=? 0) eqn:Hpos in Hr; [done|]. apply Z.leb_gt in Hpos. cbv zeta in Hr.
  apply bind_Ok in Hr as ([hit|] & _ & Hr); [by injection Hr as <- _|].
  unfold request_tx in Hr. apply bind_Ok in Hr as ([hit|] & _ & Hr); [by injection Hr as <- _|].
  destruct (negb _) in Hr; [done|]. apply bind_Ok in Hr as (w1 & Hp & Hr).
  pose proof (persist_remote_terms _ _ _ _ _ _ _ _ Hp) as T. apply persist_remote_still in Hp as T1.
  unfold remote_refusal in Hr. case_bool_decide as Hg; [apply refuse_refused in Hr; congruence|].
  case_bool_decide as Hsa; [apply refuse_refused in Hr; congruence|].
  split; [by apply not_eq_None_Some|]. split; [by apply not_eq_None_Some|]. exists dest. split; [done|].
  apply bind_Ok in Hr as ([c f] & Hcol & Hr).
  pose proof (steady_sound _ _ S (still_steady _ _ T1)) as S1. apply convert_then_collect_calm in Hcol; [|apply S1].
  pose proof (set_funds_steady f w1 Hcol) as T2.
  apply revalidate_admits in Hr as [(l & view & Hl & Hv & Ha & Hcaps) Hf Hrows Hh Hrc]; [|by eapply steady_sound|done|done|done].
  assert (T' : same_terms w (set_db (set_funds f (wd_db w1)) w1)) by (destruct T; by split).
  rewrite (same_terms_limits _ _ T') in Hl. rewrite (same_terms_view _ _ _ _ T') in Hv.
  unfold spent in Hcaps. rewrite !(same_terms_window _ _ _ T') in Hcaps. cbn [wd_rows set_db] in Hf, Hrows.
  rewrite (st_rows _ _ T) in Hf, Hrows. split; [by exists l, view|done|done| |done].
  rewrite Hh, (sd_held _ _ T2 Ref.Withheld eq_refl (ws_funds _ S1)). by rewrite (still_ledger _ _ T1).
Qed.

Lemma accepted_request_withholds_witness :
  exists dest, canonicalize_dest demo_dest = Some dest /\
    admitted demo_request_ids 100 100 demo_request dest (intent_fingerprint demo_digest 7 2000000 dest) demo_idle demo_requested
      demo_intent.
Proof.
  refine (proj2 (proj2 (accepted_request_withholds (H0 := canonical_order) demo_digest (fun _ => "") (fun _ => None) (fun _ => None)
    demo_request_ids 100 100 demo_request (fun _ => Some demo_clear) (Some demo_clear) demo_idle demo_idle demo_requested
    demo_intent (idle_sound _ demo_idle_idle) _ demo_request_answer eq_refl eq_refl))).
  discriminate.
Defined.

(** C19: a request is answered once.  Once a request has its receipt, accepted or
    refused, every later request of the same user for the same amount to the
    same destination is answered with that receipt, marked as replayed, and
    changes nothing: whatever its idempotency key, identifiers and clocks, the
    answers of the screening providers and the state otherwise, as long as the
    stored receipt is there (the first, lock-free lookup may still miss it). *)
Theorem requests_answer_once `{UuidText} `{HashMapOrder} (sha256 : string -> list Z) (to_string : Value -> string)
    (from_str : string -> option Value) (uuid_parse : string -> option N) (ids ids' : RequestIds) (db_now now db_now' now' : Z)
    (cmd cmd' : RequestWithdrawCmd) (geo geo' : IpAddr -> option ScreenVerdict) (sanctions sanctions' : option ScreenVerdict)
    (w0 w w' w0' w1 : Wdb) (r : WithdrawalReceipt) :
  in_ty I64 (rq_amount_micro cmd) ->
  request_withdraw sha256 to_string from_str uuid_parse ids db_now now cmd geo sanctions w0 w = (Ok r, w') ->
  wc_replayed r = false ->
  from_str (to_string (encode_receipt r)) = Some (encode_receipt r) ->
  (forall u, u ∈ receipt_ids r -> uuid_parse (uuid_text u) = Some u) ->
  rq_user cmd' = rq_user cmd -> rq_amount_micro cmd' = rq_amount_micro cmd ->
  canonicalize_dest (rq_dest cmd') = canonicalize_dest (rq_dest cmd) ->
  (forall dest, let key := fp_key (intent_fingerprint sha256 (rq_user cmd) (rq_amount_micro cmd) dest) in
     canonicalize_dest (rq_dest cmd) = Some dest ->
     td_fingerprints (wd_db w1) !! key = td_fingerprints (wd_db w') !! key /\
     (td_fingerprints (wd_db w0') !! key = None \/
      td_fingerprints (wd_db w0') !! key = td_fingerprints (wd_db w') !! key)) ->
  request_withdraw sha256 to_string from_str uuid_parse ids' db_now' now' cmd' geo' sanctions' w0' w1 =
    (Ok (with_replayed r), w1).
Proof.
  intros Ht Hr Hrep Hj Hu Eu Ea Ed Hk. destruct (request_answers _ _ _ _ _ _ _ _ _ _ _ _ _ _ Ht Hr Hrep) as (dest & Hd & Hpos & A).
  destruct (Hk dest Hd) as [K1 K0]. eapply answered_replays; [exact A|done|done|done|done|done|congruence|done|done].
Qed.

Lemma requests_answer_once_witness :
  demo_ask (mkRequest 7 2000000 demo_dest None (Some "another key")) 200 demo_asked =
    (Ok (with_replayed demo_intent), demo_asked).
Proof.
  refine (requests_answer_once (H0 := canonical_order) demo_digest (fun _ => "receipt") demo_from_str demo_uuid_parse
    demo_request_ids demo_request_ids 100 100 200 200 demo_request (mkRequest 7 2000000 demo_dest None (Some "another key"))
    (fun _ => Some demo_clear) (fun _ => Some demo_clear) (Some demo_clear) (Some demo_clear) demo_idle demo_idle demo_asked
    demo_asked demo_asked demo_intent _ demo_ask_answer eq_refl _ _ eq_refl eq_refl eq_refl _).
  - split; discriminate.
  - vm_compute. reflexivity.
  - intros u Hu. repeat (apply elem_of_cons in Hu as [-> | Hu]; [vm_compute; reflexivity|]). by apply not_elem_of_nil in Hu.
  - intros dest key _. exact (conj eq_refl (or_intror eq_refl)).
Defined.

(** C18: an approval had the authority its amount needs.  When a decision moves a
    withdrawal to W2, no gate stood against it: withdrawals open, account not
    banned and of the required tier, no open AML flag, fresh clear sanctions and
    geography screenings, and a self-excluded user paying only a known
    destination.  Moreover either the machine decided, on a row without any risk
    reason, below the automatic threshold, to a warm destination; or one finance
    principal did, below the dual-control threshold, on a row without a
    compliance reason; or a second principal confirmed the pending proposal of
    another one, for this row and amount, after its delay and before its expiry.
    Both human ways stay within the daily approval cap. *)
Theorem approvals_have_authority `{UuidText} `{HashMapOrder} (sha256 : string -> list Z) (ids : DecideIds) (db_now now : Z)
    (actor : AdminContext) (id : N) (cmd : DecideCmd) (w0 w w' : Wdb) (r' : WithdrawalRow) :
  wsound w -> decide_withdraw sha256 ids db_now now actor id cmd w0 w = (Ok r', w') -> wr_combo r' = W2 ->
  exists r, wd_rows w !! id = Some r /\ approved sha256 db_now now actor cmd r w.
Proof.
  intros S Hr%atomic_answer H2. locked Hr as row Hrow O. exists row. split; [done|].
  destruct cmd; [apply bind_Ok in Hr as ([] & Hm & Hr)|..|apply bind_Ok in Hr as ([] & Hm & Hr)|].
  - destruct actor; [|done]. by eapply machine_approved.
  - by eapply finance_approved.
  - unfold propose_dual in Hr. apply bind_Ok in Hr as (? & _ & Hr). apply bind_Ok in Hr as (? & _ & Hr). apply bind_Ok in Hr as (d & _ & Hr).
    case_bool_decide as E5.
    { apply bind_Ok in Hr as (e & _ & Hr). destruct (_ && _); [|done]. injection Hr as <- _. rewrite H2 in E5. discriminate E5. }
    destruct (negb _); [done|]. apply bind_Ok in Hr as (? & _ & Hr). apply bind_Ok in Hr as (? & _ & Hr). cbv zeta in Hr.
    apply bind_Ok in Hr as (w1 & _ & ->%decide_cas_answer). discriminate H2.
  - by eapply confirm_approved.
  - unfold expire_proposal in Hr. destruct (negb _); [done|]. apply bind_Ok in Hr as (p & _ & Hr). destruct (_ <? _); [done|].
    apply bind_Ok in Hr as (w1 & _ & ->%decide_cas_answer). discriminate H2.
  - unfold deny in Hr. apply bind_Ok in Hr as (? & _ & Hr). apply bind_Ok in Hr as (? & _ & Hr). apply bind_Ok in Hr as (t & Ht%ok_or_Ok & Hr).
    cbv zeta in Hr. apply bind_Ok in Hr as ([rel w1] & _ & Hr). apply bind_Ok in Hr as (w2 & _ & ->%decide_cas_answer).
    cbn in H2. subst t. unfold deny_target in Ht. by repeat case_match.
Qed.

Lemma approvals_have_authority_witness :
  exists r, wd_rows demo_reviewed !! 4%N = Some r /\
    approved demo_digest 101 101 (Admin "t1" Finance) (FinanceApprove "known") r demo_reviewed.
Proof.
  refine (approvals_have_authority (H0 := canonical_order) demo_digest (mkDecideIds 27 28 (mkLegIds 25 26 3)) 101 101
    (Admin "t1" Finance) 4 (FinanceApprove "known") demo_reviewed demo_reviewed demo_approved (demo_withdrawal W2 None)
    demo_reviewed_sound demo_approve_answer eq_refl).
Defined.

(** C23: a replacement fails in the process that sent the payment.  While the
    rail holds the signed bytes of any earlier attempt of a withdrawal's payment,
    [replace_expired] never replaces it: whatever the proof of non-landing and
    the new signature, the rows and the rail stay as they are, and the only
    successful answer is the row, still in W7. *)
Theorem replacement_blocked_by_rail `{UuidText} `{HashMapOrder} (time_json : Z -> Value) (ids : SendIds) (identity : RailIdentity)
    (signer : SignerView) (db_now now : Z) (id : N) (observations : list QuorumObservation) (w0 w : Wdb) (rail : Rail)
    (p : OutboundPaymentRow) (a : OutboundAttemptRow) (bytes : list Z) :
  wsound w -> payment_of WithdrawalSubject id (wd_outbound w) = Some p -> a ∈ of_payment (op_id p) (wd_outbound w) ->
  rail !! op_id p = Some (bytes, at_signature a) ->
  let '(answer, w', rail') := replace_expired time_json ids identity signer db_now now id observations w0 w rail in
  wd_rows w' = wd_rows w /\ rail' = rail /\
  (forall stage, answer = Ok stage -> exists row, stage = SendDone row /\ wr_combo row = W7).
Proof.
  intros S Hp Ha Hrail. unfold replace_expired.
  destruct (_ ≫= _) as [[[[[row q] atts] old] verdict]| |] eqn:Hc; [|done..].
  apply bind_Ok in Hc as (user & _ & Hc). apply replace_checks_Ok in Hc as (Hrow & _ & H7 & _ & _ & -> & front & b & [Hq _] & _); [|done].
  rewrite Hp in Hq. injection Hq as <-. destruct (negb _).
  - destruct (store_attempt old w) as [w1| |] eqn:Hs; [|done..]. cbn.
    apply bind_Ok in Hs as (o & _ & [= <-]). split_and!; [done..|]. intros stage [= <-]. by exists row.
  - destruct (replace_prepare _ _ _ _ _ _ _ _) as [[n w1]| |] eqn:Hn; [|done..].
    unfold with_rail. rewrite (persist_signed_other _ _ _ bytes (at_signature a)); [done|done|].
    by eapply replace_prepare_new.
Qed.

Lemma replacement_blocked_by_rail_witness :
  (forall stage, (demo_replace demo_rail_used).1.1 = Ok stage -> exists row, stage = SendDone row /\ wr_combo row = W7) /\
  match (demo_replace ∅).1.1 with Ok (SendBroadcast _ _ W8) => True | _ => False end.
Proof.
  split; [|vm_compute; exact I].
  pose proof (replacement_blocked_by_rail (H0 := canonical_order) JInt (mkSendIds 41 42 43) demo_rail demo_resigner 120 120 4
    demo_proof demo_lost demo_lost demo_rail_used demo_payment (demo_sent_attempt Landing.Unknown) [1; 2; 3] demo_lost_sound
    demo_lost_payment) as T.
  rewrite demo_lost_attempts in T. specialize (T (list_elem_of_here _ _) demo_rail_holds).
  unfold demo_replace. destruct (replace_expired _ _ _ _ _ _ _ _ _ _ _) as [[answer w'] rail']. exact (proj2 (proj2 T)).
Defined.
