(* ===== verification/Address.v ===== *)
(** * Address: base58 destinations

    [decode_base58] of [Outbound] against positional notation: it reads a number
    in base 58 and writes it in base 256, with one leading zero byte for each
    leading [1].  So a destination text and its 32-byte key determine each other,
    and the caps and histories kept by text are kept by key. *)

From S2P Require Import Prelude Chars Errors Compliance Outbound.
#[local] Open Scope string_scope.
#[local] Open Scope list_scope.
#[local] Open Scope Z_scope.

(** ** Positional notation *)

(** The value of digits, most significant first. *)
Definition positional (base : Z) (digits : list Z) : Z := fold_left (fun v d => v * base + d) digits 0.

(** The value of digits, least significant first. *)
Definition little (base : Z) (digits : list Z) : Z := foldr (fun d v => d + base * v) 0 digits.

(** Digits of [base] without a leading zero. *)
Definition numeral (base : Z) (digits : list Z) : Prop :=
  Forall (fun d => 0 <= d < base) digits /\ head digits <> Some 0.

(** The digits of a text, by the alphabet. *)
Definition digit58 (c : Z) : option Z := position_from (fun item => item =? c) 0 ALPHABET.

Definition digits58 (s : str) (ds : list Z) : Prop := Forall2 (fun c d => digit58 c = Some d) s ds.

Definition ones (s : str) : nat := length (take_while (fun byte => byte =? 49) s).

(** ** Lemmas: numerals *)

Lemma positional_snoc base l d : positional base (l ++ [d]) = positional base l * base + d.
Proof. unfold positional. by rewrite fold_left_app. Qed.

Lemma positional_cons base d l : positional base (d :: l) = d * base ^ Z.of_nat (length l) + positional base l.
Proof.
  induction l as [|x l IH] using rev_ind; [cbn; lia|].
  rewrite app_comm_cons, !positional_snoc, IH, length_app, Nat.add_comm. cbn [length Nat.add].
  rewrite Nat2Z.inj_succ, Z.pow_succ_r by lia. lia.
Qed.

Lemma positional_rev base l : positional base (rev l) = little base l.
Proof. induction l as [|d l IH]; [done|]. cbn [rev little foldr]. rewrite positional_snoc, IH. unfold little. lia. Qed.

Lemma positional_nonneg base l : 0 < base -> Forall (fun d => 0 <= d < base) l -> 0 <= positional base l.
Proof. intros Hb. induction 1 as [|d l Hd _ IH]; [done|]. rewrite positional_cons. nia. Qed.

Lemma numeral_zero base l : 0 < base -> numeral base l -> positional base l = 0 -> l = [].
Proof.
  intros Hb [Hl Hh] E. destruct l as [|d l]; [done|]. exfalso. apply Forall_cons in Hl as [Hd Hl].
  rewrite positional_cons in E. pose proof (positional_nonneg base l Hb Hl) as Hp.
  pose proof (Z.pow_pos_nonneg base (Z.of_nat (length l)) Hb ltac:(lia)) as Hw.
  assert (d <> 0) by (intros ->; done). nia.
Qed.

Lemma numeral_init base l d : numeral base (l ++ [d]) -> numeral base l /\ 0 <= d < base.
Proof.
  intros [Hl Hh]. apply Forall_app in Hl as [Hl Hd]. apply Forall_cons in Hd as [Hd _].
  split; [split; [done|]|done]. by destruct l.
Qed.

(** A number has one numeral. *)
Lemma numeral_unique base l k :
  1 < base -> numeral base l -> numeral base k -> positional base l = positional base k -> l = k.
Proof.
  intros Hb. revert k. induction l as [|d l IH] using rev_ind; intros k Hl Hk E.
  - symmetry in E. symmetry. eapply numeral_zero; [|exact Hk|exact E]. lia.
  - destruct k as [|e k] using rev_ind; [by apply (numeral_zero base) in E; [|lia|]|]. clear IHk.
    apply numeral_init in Hl as [Hl Hd], Hk as [Hk He]. rewrite !positional_snoc in E.
    assert (positional base l = positional base k /\ d = e) as [E1 ->]
      by (apply (Z.div_mod_unique base); lia).
    by rewrite (IH k).
Qed.

(** ** Lemmas: the decoder *)

Notation bytes := (Forall (fun b => 0 <= b < 256)).

(** One digit: the slots and the carry hold [58 * acc + digit]. *)
Lemma mul_slots_value slots carry rest c :
  bytes slots -> 0 <= carry < 58 -> mul_slots slots carry = (rest, c) ->
  bytes rest /\ 0 <= c < 58 /\ length rest = length slots /\
  little 256 rest + 256 ^ Z.of_nat (length rest) * c = little 256 slots * 58 + carry.
Proof.
  intros Hs. revert carry rest c. induction Hs as [|s slots Hs Hss IH]; intros carry rest c Hc; cbn [mul_slots].
  - intros [= <- <-]. cbn. split_and!; [constructor|lia..].
  - destruct (mul_slots slots ((carry + s * 58) / 256)) as [rest' c'] eqn:E. intros [= <- <-].
    apply IH in E as (Hb & Hc' & Hl & Hv); [|split; [apply Z.div_pos; lia|apply Z.div_lt_upper_bound; lia]].
    split_and!; [constructor; [apply Z.mod_pos_bound; lia|done]|lia|lia|by cbn; rewrite Hl|].
    cbn [length little foldr]. fold (little 256 rest') (little 256 slots).
    rewrite Nat2Z.inj_succ, Z.pow_succ_r by lia. pose proof (Z.div_mod (carry + s * 58) 256). lia.
Qed.

Lemma carry_bytes_value c : 0 <= c < 58 -> bytes (carry_bytes 8 c) /\ little 256 (carry_bytes 8 c) = c.
Proof.
  intros Hc. cbn [carry_bytes]. destruct (c >? 0) eqn:G; rewrite Z.gtb_ltb in G.
  - rewrite (Z.mod_small c 256), (Z.div_small c 256) by lia. cbn -[Z.mul]. split; [by repeat constructor; lia|lia].
  - apply Z.ltb_ge in G. cbn. split; [constructor|lia].
Qed.

Lemma little_app base l k : little base (l ++ k) = little base l + base ^ Z.of_nat (length l) * little base k.
Proof.
  induction l as [|d l IH]; [cbn [app length]; rewrite Z.pow_0_r; change (little base []) with 0; lia|]. cbn [app length]. rewrite Nat2Z.inj_succ, Z.pow_succ_r by lia.
  cbn [little foldr]. fold (little base (l ++ k)) (little base l). rewrite IH. lia.
Qed.

Lemma position_from_bound p i l v : position_from p i l = Some v -> i <= v < i + Z.of_nat (length l).
Proof.
  revert i. induction l as [|x l IH]; intros i; cbn [position_from length]; [done|].
  destruct (p x); [intros [= <-]; lia|]. intros Hv%IH. lia.
Qed.

Lemma digit58_bound c d : digit58 c = Some d -> 0 <= d < 58.
Proof. intros Hd%position_from_bound. by vm_compute (length ALPHABET) in Hd. Qed.

Lemma little_nonneg l : bytes l -> 0 <= little 256 l.
Proof. induction 1 as [|d l Hd _ IH]; cbn -[Z.mul]; [done|]. fold (little 256 l). lia. Qed.

Lemma base58_step_value acc c acc' :
  bytes acc -> base58_step acc c = Some acc' ->
  exists d, digit58 c = Some d /\ bytes acc' /\ little 256 acc' = little 256 acc * 58 + d.
Proof.
  intros Hb. unfold base58_step. fold (digit58 c). destruct (digit58 c) as [d|] eqn:Hd; [|done]. cbn [mbind option_bind].
  destruct (mul_slots acc d) as [rest k] eqn:Hm. intros E. assert (acc' = rest ++ carry_bytes 8 k) as -> by congruence. exists d. split; [done|].
  apply mul_slots_value in Hm as (Hr & Hk & Hl & Hv); [|done|by eapply digit58_bound].
  destruct (carry_bytes_value k Hk) as [Hc Ec]. split; [by apply Forall_app|]. by rewrite little_app, Ec.
Qed.

Lemma base58_step_total acc c : digit58 c <> None -> base58_step acc c <> None.
Proof. unfold base58_step. fold (digit58 c). destruct (digit58 c); [|done]. cbn. by destruct (mul_slots _ _). Qed.

(** The loop multiplies by 58 and adds, digit by digit. *)
Lemma base58_loop_value s acc acc' :
  bytes acc -> base58_loop acc s = Some acc' ->
  exists ds, digits58 s ds /\ bytes acc' /\
    little 256 acc' = fold_left (fun v d => v * 58 + d) ds (little 256 acc).
Proof.
  revert acc. induction s as [|c s IH]; intros acc Hb; cbn [base58_loop].
  - intros [= <-]. exists []. split_and!; [constructor|done|done].
  - destruct (base58_step acc c) as [acc1|] eqn:Hs; [|done]. cbn. intros Hl.
    apply base58_step_value in Hs as (d & Hd & Hb1 & Hv); [|done]. destruct (IH acc1 Hb1 Hl) as (ds & Hds & Hb' & E).
    exists (d :: ds). split; [by constructor|]. split; [done|]. cbn. by rewrite E, Hv.
Qed.

Lemma base58_loop_total s acc ds : digits58 s ds -> is_Some (base58_loop acc s).
Proof.
  revert acc ds. induction s as [|c s IH]; intros acc ds; cbn [base58_loop]; [by eexists|].
  intros (d & k & Hd & Hk & ->)%Forall2_cons_inv_l. destruct (base58_step acc c) eqn:Hs; [by eapply IH|].
  exfalso. revert Hs. apply base58_step_total. by rewrite Hd.
Qed.

Lemma skip_zeros_numeral l :
  bytes l -> numeral 256 (skip_while (fun b => b =? 0) l) /\
  positional 256 (skip_while (fun b => b =? 0) l) = positional 256 l.
Proof.
  induction 1 as [|b l Hb Hl IH]; cbn [skip_while]; [by split; [split; [constructor|]|]|].
  destruct (b =? 0) eqn:E.
  - apply Z.eqb_eq in E as ->. destruct IH as [IH1 IH2]. split; [done|]. rewrite IH2, positional_cons. lia.
  - apply Z.eqb_neq in E. split; [split; [by constructor|cbn; congruence]|done].
Qed.

(** ** Lemmas: texts and keys *)

(** The leading ones are the leading zero digits. *)
Lemma digit58_one c d : digit58 c = Some d -> (c =? 49) = (d =? 0).
Proof.
  unfold digit58. change ALPHABET with (49 :: tail ALPHABET). cbn [position_from].
  destruct (49 =? c) eqn:E; [intros [= <-]; apply Z.eqb_eq in E as <-; done|].
  intros Hd%position_from_bound. apply Z.eqb_neq in E. rewrite (proj2 (Z.eqb_neq c 49)) by lia. symmetry. apply Z.eqb_neq. lia.
Qed.

Lemma position_from_hit i l c v : position_from (fun item => item =? c) i l = Some v -> nth_error l (Z.to_nat (v - i)) = Some c.
Proof.
  revert i. induction l as [|x l IH]; intros i; cbn [position_from]; [done|]. destruct (x =? c) eqn:E.
  - intros [= <-]. apply Z.eqb_eq in E as ->. by rewrite Z.sub_diag.
  - intros Hv. pose proof (position_from_bound _ _ _ _ Hv). apply IH in Hv.
    replace (v - i) with (Z.succ (v - (i + 1))) by lia. by rewrite Z2Nat.inj_succ by lia.
Qed.

Lemma digit58_inj c c' d : digit58 c = Some d -> digit58 c' = Some d -> c = c'.
Proof. intros Hc%position_from_hit Hc'%position_from_hit. congruence. Qed.

Lemma digits58_inj s s' ds : digits58 s ds -> digits58 s' ds -> s = s'.
Proof.
  intros Hs. revert s'. induction Hs as [|c d s ds Hc _ IH]; intros s' Hs'.
  - by inversion Hs'.
  - apply Forall2_cons_inv_r in Hs' as (c' & k & Hc' & Hk & ->). f_equal; [by eapply digit58_inj|by apply IH].
Qed.

Lemma digits58_fun s ds ds' : digits58 s ds -> digits58 s ds' -> ds = ds'.
Proof.
  intros Hs. revert ds'. induction Hs as [|c d s ds Hc _ IH]; intros k Hk.
  - by inversion Hk.
  - apply Forall2_cons_inv_l in Hk as (d' & k' & Hd' & Hk' & ->). f_equal; [congruence|by apply IH].
Qed.

Lemma digit58_None c : digit58 c = None -> c ∉ ALPHABET.
Proof.
  unfold digit58. generalize 0. generalize ALPHABET. intros l. induction l as [|x l IH]; intros i; cbn [position_from]; [by intros _ ?%elem_of_nil|].
  destruct (x =? c) eqn:E; [done|]. apply Z.eqb_neq in E. intros Hn. apply not_elem_of_cons. split; [done|by eapply IH].
Qed.

Lemma digits58_dec s : (exists ds, digits58 s ds) \/ exists c, c ∈ s /\ c ∉ ALPHABET.
Proof.
  induction s as [|c s [[ds Hs]|(c' & Hc & Ha)]]; [left; exists []; constructor| |right; exists c'; set_solver].
  destruct (digit58 c) as [d|] eqn:Hd; [left; exists (d :: ds); by constructor|]. right. exists c. split; [set_solver|by apply digit58_None].
Qed.

Lemma digits58_alphabet s ds c : digits58 s ds -> c ∈ s -> c ∈ ALPHABET.
Proof.
  induction 1 as [|x d s ds Hx _ IH]; [by intros ?%elem_of_nil|]. intros [-> | Hc]%elem_of_cons; [|by apply IH].
  apply position_from_hit, nth_error_In in Hx. by apply list_elem_of_In.
Qed.

(** A text is its ones, then a numeral. *)
Lemma digits58_split s ds :
  digits58 s ds -> exists rest, ds = repeat 0 (ones s) ++ rest /\ numeral 58 rest.
Proof.
  induction 1 as [|c d s ds Hc Hs IH]; [by exists []|]. pose proof (digit58_bound _ _ Hc) as Hd.
  unfold ones. cbn [take_while]. rewrite (digit58_one _ _ Hc). destruct (d =? 0) eqn:E.
  - apply Z.eqb_eq in E as ->. destruct IH as (rest & -> & Hn). by exists rest.
  - apply Z.eqb_neq in E. exists (d :: ds). split; [done|]. split; [|cbn; congruence]. constructor; [done|].
    clear -Hs. induction Hs; constructor; [by eapply digit58_bound|done].
Qed.

Lemma positional_zeros base n l : positional base (repeat 0 n ++ l) = positional base l.
Proof. induction n as [|n IH]; [done|]. cbn [repeat app]. rewrite positional_cons, IH. lia. Qed.

(** Zeros before numerals are counted by the list. *)
Lemma zeros_split n m (l k : list Z) :
  head l <> Some 0 -> head k <> Some 0 -> repeat 0 n ++ l = repeat 0 m ++ k -> n = m /\ l = k.
Proof.
  revert m. induction n as [|n IH]; intros [|m] Hl Hk; cbn [repeat app].
  - done.
  - intros ->. done.
  - intros <-. done.
  - intros [= E]. destruct (IH m Hl Hk E) as [-> ->]. done.
Qed.

(** What [decode_base58] returns. *)
Lemma decode_base58_Some s out :
  decode_base58 s = Some out -> s <> [] /\ exists ds body, digits58 s ds /\ out = repeat 0 (ones s) ++ body /\
    numeral 256 body /\ positional 256 body = positional 58 ds.
Proof.
  unfold decode_base58. destruct s as [|c s]; [done|]. cbn [is_empty]. destruct (base58_loop [0] _) as [acc|] eqn:Hl; [|done].
  cbn [mbind option_bind]. cbv zeta. intros E. assert (out = repeat 0 (ones (c :: s)) ++ skip_while (fun b => b =? 0) (rev acc)) as -> by (unfold ones; congruence).
  split; [done|]. apply base58_loop_value in Hl as (ds & Hds & Hb & Hv); [|repeat constructor; lia].
  destruct (skip_zeros_numeral (rev acc)) as [Hn Hp]; [by apply Forall_rev|].
  exists ds, (skip_while (fun b => b =? 0) (rev acc)). split_and!; [done..|]. rewrite Hp, positional_rev, Hv. done.
Qed.

Lemma decode_base58_total s ds : s <> [] -> digits58 s ds -> is_Some (decode_base58 s).
Proof.
  intros Hs Hd. unfold decode_base58. destruct s as [|c s]; [done|]. cbn [is_empty].
  destruct (base58_loop_total _ [0] _ Hd) as [acc ->]. by eexists.
Qed.

Lemma decode_base58_inj s s' out : decode_base58 s = Some out -> decode_base58 s' = Some out -> s = s'.
Proof.
  intros (_ & ds & body & Hd & -> & [Hb Hh] & Ev)%decode_base58_Some (_ & ds' & body' & Hd' & E & [Hb' Hh'] & Ev')%decode_base58_Some.
  apply zeros_split in E as [En <-]; [|done..].
  destruct (digits58_split _ _ Hd) as (r & -> & Hn), (digits58_split _ _ Hd') as (r' & -> & Hn').
  rewrite positional_zeros in Ev, Ev'. assert (r = r') as <- by (apply (numeral_unique 58); [lia|done|done|congruence]).
  rewrite <- En in Hd'. by eapply digits58_inj.
Qed.

(** ** Lemmas: canonical texts *)

(** Every character of the alphabet is ASCII and not white space. *)
Definition plain_char (c : Z) : bool := (0 <=? c) && (c <? 128) && negb (is_whitespace c).

Lemma digit58_plain c d : digit58 c = Some d -> plain_char c = true.
Proof.
  intros Hd%position_from_hit%nth_error_In. assert (Ha : forallb plain_char ALPHABET = true) by (vm_compute; reflexivity).
  rewrite forallb_forall in Ha. by apply Ha.
Qed.

Lemma digits58_plain s ds : digits58 s ds -> Forall (fun c => plain_char c = true) s.
Proof. induction 1; constructor; [by eapply digit58_plain|done]. Qed.

Lemma utf8_chars_plain s : Forall (fun c => plain_char c = true) s -> utf8_chars s = s.
Proof.
  induction 1 as [|c s Hc _ IH]; [done|]. cbn [utf8_chars]. unfold plain_char in Hc. rewrite !andb_true_iff in Hc.
  destruct Hc as [[_ ->] _]. by rewrite IH.
Qed.

Lemma trim_start_plain s : Forall (fun c => plain_char c = true) s -> trim_start s = s.
Proof.
  destruct 1 as [|c s Hc _]; [done|]. cbn [trim_start]. unfold plain_char in Hc. rewrite !andb_true_iff, negb_true_iff in Hc.
  by destruct Hc as [_ ->].
Qed.

Lemma trim_plain s : Forall (fun c => plain_char c = true) s -> trim s = s.
Proof. intros Hs. unfold trim. rewrite (trim_start_plain s), (trim_start_plain (rev s)) by (try apply Forall_rev; done). apply rev_involutive. Qed.

Lemma lit_text_plain s : Forall (fun c => plain_char c = true) s -> lit (text_of s) = s.
Proof.
  intros Hs. unfold lit, text_of. rewrite String.list_ascii_of_string_of_list_ascii, map_map.
  induction Hs as [|c s Hc _ IH]; [done|]. cbn [map]. rewrite IH. f_equal. unfold plain_char in Hc.
  rewrite !andb_true_iff, Z.leb_le, Z.ltb_lt in Hc. destruct Hc as [[? ?] _]. rewrite Ascii.N_ascii_embedding by lia. lia.
Qed.

(** A canonical text is trimmed and its own decoding. *)
Lemma canonicalize_Some raw x :
  canonicalize_dest raw = Some x ->
  exists key, decode_base58 (lit x) = Some key /\ length key = 32%nat /\ trim (utf8_chars (lit x)) = lit x /\ text_of (lit x) = x.
Proof.
  unfold canonicalize_dest. cbv zeta. generalize (trim (utf8_chars (lit raw))). intros t.
  destruct (decode_base58 t) as [key|] eqn:Hd; [|done]. cbn [mbind option_bind]. destruct (length key =? 32)%nat eqn:Hl; [|done]. intros [= <-]. apply Nat.eqb_eq in Hl. exists key.
  destruct (decode_base58_Some _ _ Hd) as (_ & ds & _ & Hds & _). apply digits58_plain in Hds.
  rewrite !lit_text_plain, utf8_chars_plain, trim_plain; done.
Qed.

(** ** Properties *)

(** C38: the base58 decoder is positional notation.  [decode_base58] answers with
    bytes exactly on the non-empty texts over the alphabet, and the answer is the
    number the text denotes in base 58, written in base 256 without leading
    zeros, after one zero byte for each leading [1]; the byte-wise carries
    never overflow their slots or run out. *)
Theorem base58_is_positional (s : str) (out : list Z) :
  (decode_base58 s = Some out <->
   s <> [] /\ exists ds body, digits58 s ds /\ out = repeat 0 (ones s) ++ body /\ numeral 256 body /\
     positional 256 body = positional 58 ds) /\
  (decode_base58 s = None <-> s = [] \/ exists c, c ∈ s /\ c ∉ ALPHABET).
Proof.
  split; [split; [apply decode_base58_Some|]|].
  - intros (Hs & ds & body & Hd & -> & Hb & Hv). destruct (decode_base58_total s ds Hs Hd) as [out Ho]. rewrite Ho. f_equal.
    apply decode_base58_Some in Ho as (_ & ds' & body' & Hd' & -> & Hb' & Hv'). f_equal.
    assert (ds' = ds) as -> by by eapply digits58_fun. apply (numeral_unique 256); [lia|done|done|congruence].
  - split.
    + intros Hn. destruct (decide (s = [])) as [|Hs]; [by left|]. right. destruct (digits58_dec s) as [[ds Hd]|Hc]; [|done].
      destruct (decode_base58_total s ds Hs Hd). congruence.
    + intros [->|(c & Hc & Ha)]; [done|]. destruct (decode_base58 s) as [out'|] eqn:Ho; [|done]. exfalso. apply Ha.
      apply decode_base58_Some in Ho as (_ & ds & _ & Hd & _). by eapply digits58_alphabet.
Qed.

(** C39: a destination text and its key determine each other.  What
    [canonicalize_dest] accepts decodes to 32 bytes and is accepted as it is, and
    two accepted texts that decode to the same key are the same text: the caps,
    histories and fingerprints kept by text cannot be evaded by another
    spelling. *)
Theorem destinations_name_one_key (raw raw' x y : string) :
  canonicalize_dest raw = Some x -> canonicalize_dest raw' = Some y ->
  (exists key, decode_base58 (lit x) = Some key /\ length key = 32%nat) /\ canonicalize_dest x = Some x /\
  (decode_base58 (lit x) = decode_base58 (lit y) -> x = y).
Proof.
  intros (key & Hk & Hl & Ht & Ex)%canonicalize_Some (key' & Hk' & _ & _ & Ey)%canonicalize_Some.
  split; [by exists key|]. split.
  - unfold canonicalize_dest. cbv zeta. rewrite Ht, Hk. cbn [mbind option_bind]. by rewrite (proj2 (Nat.eqb_eq _ _) Hl), Ex.
  - rewrite Hk, Hk'. intros [= <-]. rewrite <- Ex, <- Ey. f_equal. by eapply decode_base58_inj.
Qed.

Lemma destinations_name_one_key_witness :
  (exists key, decode_base58 (lit "11111111111111111111111111111112") = Some key /\ length key = 32%nat) /\
  canonicalize_dest "11111111111111111111111111111112" = Some "11111111111111111111111111111112" /\
  (decode_base58 (lit "11111111111111111111111111111112") = decode_base58 (lit "11111111111111111111111111111111") ->
   "11111111111111111111111111111112" = "11111111111111111111111111111111").
Proof.
  apply (destinations_name_one_key " 11111111111111111111111111111112 " "11111111111111111111111111111111"); vm_compute; reflexivity.
Defined.
