(* ===== verification/Deposits.v ===== *)
(** * Deposits: observations, admission and refunds

    [application/src/credit_deposit.rs] over the deposit queries of
    [adapters/src/pg/credit_tx.rs], the names of [money/mod.rs] and the table of
    [migrations/0011_money.sql].  A finalized inflow is booked from [External]
    to [DepositSuspense]; a second transaction admits it to the user, or holds
    it for compliance; a held deposit is admitted or refunded to its source by
    two administrators, and a refund is signed, persisted and broadcast like a
    withdrawal.

    As for withdrawals, [begin_refund_send] and [replace_expired_refund] are the
    first transaction with the calls to the rail before its commit, and
    [after_refund_commit] is the rest, on whatever state it finds.  Answers of
    the signer and the chain, the clocks and the generated identifiers are
    arguments; SHA-256 and the JSON of a time are parameters. *)

From S2P Require Import Prelude Amm Ledger Resolution Economy Chars Errors Credits PgLedger Json Config Fences ConfigStore Compliance Collect Book Lifecycle Outbound Withdraw.
#[local] Open Scope string_scope.
#[local] Open Scope list_scope.
#[local] Open Scope Z_scope.

(** ** Data *)

Module Dep.
Inductive DepositMachineStatus :=
| ObservedFinalized | AdmissionPending | Admitted_ | AdmittedLegacy | ComplianceHold | RefundApproved
| RefundSending | Refunded.
End Dep.
Notation DepositMachineStatus := Dep.DepositMachineStatus.

#[export] Instance DepositMachineStatus_eq_dec : EqDecision DepositMachineStatus.
Proof. solve_decision. Defined.

Definition deposit_status_name (s : DepositMachineStatus) : string :=
  match s with
  | Dep.ObservedFinalized => "observed_finalized" | Dep.AdmissionPending => "admission_pending"
  | Dep.Admitted_ => "admitted" | Dep.AdmittedLegacy => "admitted_legacy"
  | Dep.ComplianceHold => "compliance_hold" | Dep.RefundApproved => "refund_approved"
  | Dep.RefundSending => "refund_sending" | Dep.Refunded => "refunded"
  end.

Definition parse_deposit_status (value : string) : outcome StoreError DepositMachineStatus :=
  if bool_decide (value = "observed_finalized") then Ok Dep.ObservedFinalized
  else if bool_decide (value = "admission_pending") then Ok Dep.AdmissionPending
  else if bool_decide (value = "admitted") then Ok Dep.Admitted_
  else if bool_decide (value = "admitted_legacy") || bool_decide (value = "credited") then Ok Dep.AdmittedLegacy
  else if bool_decide (value = "compliance_hold") then Ok Dep.ComplianceHold
  else if bool_decide (value = "refund_approved") then Ok Dep.RefundApproved
  else if bool_decide (value = "refund_sending") then Ok Dep.RefundSending
  else if bool_decide (value = "refunded") then Ok Dep.Refunded
  else Err (Store.Invariant "unknown deposit machine status").

Definition is_suspense_liability (s : DepositMachineStatus) : bool :=
  match s with Dep.Admitted_ | Dep.AdmittedLegacy | Dep.Refunded => false | _ => true end.

Definition legal_deposit_transition (from to : DepositMachineStatus) : bool :=
  match from, to with
  | Dep.ObservedFinalized, Dep.AdmissionPending => true
  | Dep.AdmissionPending, (Dep.Admitted_ | Dep.ComplianceHold) => true
  | Dep.ComplianceHold, (Dep.AdmissionPending | Dep.Admitted_ | Dep.RefundApproved) => true
  | Dep.RefundApproved, Dep.RefundSending => true
  | Dep.RefundSending, Dep.Refunded => true
  | _, _ => false
  end.

Record ObservedDeposit := mkObserved {
  od_user : option N; od_amount : Z; od_chain_sig : string; od_source_address : string;
  od_dest_address : string; od_mint : string; od_slot : Z }.

Record DepositMachineRow := mkMachineRow {
  dm_id : N; dm_user : option N; dm_amount : Z; dm_chain_sig : string; dm_source_address : string;
  dm_dest_address : string; dm_mint : string; dm_rail_fingerprint : string; dm_slot : Z;
  dm_status : DepositMachineStatus; dm_suspense_tx : option N; dm_admit_tx : option N;
  dm_refund_tx : option N }.

Record DepositRefundPayment := mkRefundPayment {
  rp_id : N; rp_deposit : N; rp_dest : string; rp_amount_micro : Z; rp_rail_fingerprint : string }.

Record CreditDepositCmd := mkCreditDeposit {
  xd_user : N; xd_amount : Z; xd_chain_sig : string; xd_idempotency_key : string }.

Record DepositReceipt := mkDepositReceipt {
  dr_deposit_id : N; dr_ledger_txn : option N; dr_replayed : bool; dr_collected_micro : Z }.

Record ObservationReceipt := mkObservationReceipt {
  or_deposit_id : N; or_suspense_tx : N; or_replayed : bool }.

Record RefundReceipt := mkRefundReceipt {
  rf_deposit_id : N; rf_payment_id : N; rf_dest : string; rf_replayed : bool }.

Record RefundSettlementReceipt := mkRefundSettlement {
  rs_deposit_id : N; rs_payment_id : N; rs_ledger_txn : N; rs_replayed : bool }.

(** ** The table *)

(** [coalesce(machine_status, status)]. *)
Definition deposit_state_text (d : DepositRow) : string := default (dp_status d) (dp_machine_status d).

(** [machine_status is not null and machine_status <> 'quarantined_legacy']. *)
Definition on_machine (d : DepositRow) : bool :=
  match dp_machine_status d with Some m => negb (bool_decide (m = "quarantined_legacy")) | None => false end.

(** The checks on the status, on the two terminal transactions, on the identity
    of an observation and on the amount. *)
Definition deposit_check (d : DepositRow) : bool :=
  let some {A} (o : option A) := bool_decide (is_Some o) in
  bool_decide (dp_status d ∈ ["seen"; "confirmed"; "credited"; "observed_finalized"; "admission_pending"; "admitted";
                              "admitted_legacy"; "compliance_hold"; "refund_approved"; "refund_sending"; "refunded"]) &&
  negb (some (dp_admit_tx d) && some (dp_refund_tx d)) &&
  match dp_machine_status d with
  | None => true
  | Some m =>
      bool_decide (m = "admitted_legacy") || bool_decide (m = "quarantined_legacy") ||
      (some (dp_source d) && some (dp_dest d) && some (dp_mint d) && some (dp_slot d) && some (dp_rail d))
  end && (dp_amount_micro d >? 0).

Definition deposit_machine_from_row (d : DepositRow) : outcome StoreError DepositMachineRow :=
  status ← parse_deposit_status (deposit_state_text d);
  if negb (bool_decide (status = Dep.AdmittedLegacy)) &&
     (bool_decide (dp_source d = None) || bool_decide (dp_dest d = None) || bool_decide (dp_mint d = None) ||
      match dp_rail d with Some r => empty_text r | None => true end || bool_decide (dp_slot d = None))
  then Err (Store.Invariant "machine deposit observation identity incomplete") else
  Ok (mkMachineRow (dp_id d) (dp_user d) (dp_amount_micro d) (dp_chain_sig d) (default "" (dp_source d))
        (default "" (dp_dest d)) (default "" (dp_mint d)) (default "" (dp_rail d)) (default 0 (dp_slot d)) status
        (dp_suspense_tx d) (dp_admit_tx d) (dp_refund_tx d)).

(** [fetch_optional], then the row decoded if there is one. *)
Definition decoded (o : option DepositRow) : outcome StoreError (option DepositMachineRow) :=
  match o with Some d => r ← deposit_machine_from_row d; Ok (Some r) | None => Ok None end.

Definition deposit_machine_by_sig (sig : string) (w : Wdb) : outcome StoreError (option DepositMachineRow) :=
  decoded (List.find (fun d => bool_decide (dp_chain_sig d = sig) && on_machine d) (wd_deposits w)).

Definition deposit_machine_by_id (id : N) (w : Wdb) : outcome StoreError (option DepositMachineRow) :=
  match List.find (fun d => (dp_id d =? id)%N && on_machine d) (wd_deposits w) with
  | Some d => deposit_machine_by_sig (dp_chain_sig d) w
  | None => Ok None
  end.

Definition observe_deposit (fresh : N) (db_now : Z) (obs : ObservedDeposit) (suspense_tx : N) (rail : string)
    (w : Wdb) : outcome StoreError (N * Wdb) :=
  let d := mkDeposit fresh (od_user obs) (od_chain_sig obs) (od_amount obs) "observed_finalized"
             (Some (od_source_address obs)) (Some (od_dest_address obs)) (Some (od_mint obs)) (Some rail)
             (Some (od_slot obs)) (Some suspense_tx) None None (Some "observed_finalized") db_now in
  if existsb (fun e => (dp_id e =? fresh)%N) (wd_deposits w) then Err (Store.Integrity "deposits_pkey") else
  if existsb (fun e => bool_decide (dp_chain_sig e = od_chain_sig obs)) (wd_deposits w)
  then Err (Store.Integrity "deposits_chain_sig_key") else
  if negb (deposit_check d) then Err (Store.Integrity "deposits_check") else
  if match od_user obs with Some u => bool_decide (co_users (wd_comp w) !! u = None) | None => false end
  then Err (Store.Integrity "deposits_user_id_fkey") else
  Ok (fresh, set_deposits (wd_deposits w ++ [d]) w).

(** An [update .. where], and whether a row was affected; the primary key makes
    the row with the id the only one. *)
Definition update_deposit (id : N) (cond : DepositRow -> bool) (f : DepositRow -> DepositRow) (w : Wdb) :
    outcome StoreError (bool * Wdb) :=
  let hit d := (dp_id d =? id)%N && cond d in
  if negb (forallb (fun d => negb (hit d) || deposit_check (f d)) (wd_deposits w))
  then Err (Store.Integrity "deposits_check")
  else Ok (existsb hit (wd_deposits w), set_deposits (map (fun d => if hit d then f d else d) (wd_deposits w)) w).

Definition with_deposit_status (name : string) (d : DepositRow) : DepositRow :=
  mkDeposit (dp_id d) (dp_user d) (dp_chain_sig d) (dp_amount_micro d) name (dp_source d) (dp_dest d) (dp_mint d)
    (dp_rail d) (dp_slot d) (dp_suspense_tx d) (dp_admit_tx d) (dp_refund_tx d) (Some name) (dp_created_at d).
Definition with_admit (t : N) (d : DepositRow) : DepositRow :=
  mkDeposit (dp_id d) (dp_user d) (dp_chain_sig d) (dp_amount_micro d) (dp_status d) (dp_source d) (dp_dest d)
    (dp_mint d) (dp_rail d) (dp_slot d) (dp_suspense_tx d) (Some t) (dp_refund_tx d) (dp_machine_status d)
    (dp_created_at d).
Definition with_refund (t : N) (d : DepositRow) : DepositRow :=
  mkDeposit (dp_id d) (dp_user d) (dp_chain_sig d) (dp_amount_micro d) (dp_status d) (dp_source d) (dp_dest d)
    (dp_mint d) (dp_rail d) (dp_slot d) (dp_suspense_tx d) (dp_admit_tx d) (Some t) (dp_machine_status d)
    (dp_created_at d).

Definition cas_deposit_status (id : N) (from to : DepositMachineStatus) (w : Wdb) :
    outcome StoreError (bool * Wdb) :=
  if negb (legal_deposit_transition from to) then Err (Store.Invariant "illegal deposit transition") else
  update_deposit id (fun d => bool_decide (deposit_state_text d = deposit_status_name from))
    (with_deposit_status (deposit_status_name to)) w.

(** Neither terminal transaction is set. *)
Definition unclosed (d : DepositRow) : bool :=
  bool_decide (dp_admit_tx d = None) && bool_decide (dp_refund_tx d = None).

Definition mark_admitted (id admit_tx : N) (w : Wdb) : outcome StoreError Wdb :=
  '(hit, w) ← update_deposit id unclosed (with_admit admit_tx) w;
  if negb hit then Err (Store.Conflict "deposit admission transaction") else Ok w.

Definition mark_refunded (id refund_tx : N) (w : Wdb) : outcome StoreError Wdb :=
  '(hit, w) ← update_deposit id unclosed (with_refund refund_tx) w;
  if negb hit then Err (Store.Conflict "deposit refund transaction") else Ok w.

Definition refund_payment_for_deposit (id : N) (w : Wdb) : option DepositRefundPayment :=
  (fun p => mkRefundPayment (op_id p) (op_subject_id p) (op_dest p) (op_amount_micro p) (op_rail_fingerprint p))
  <$> List.find (fun p => bool_decide (op_subject p = DepositRefund) && (op_subject_id p =? id)%N)
        (ob_payments (wd_outbound w)).

(** The sum the invariant checker compares with the suspense account,
    [invariant_read_tx.rs]. *)
Definition suspense_status (name : string) : bool :=
  bool_decide (name ∈ ["observed_finalized"; "admission_pending"; "compliance_hold"; "refund_approved";
                       "refund_sending"]).

Definition suspense_liability_micro (w : Wdb) : outcome StoreError Z :=
  bigint (zsum (map (fun d => if suspense_status (deposit_state_text d) then dp_amount_micro d else 0)
                  (wd_deposits w))).

Definition deposit_decision (d : ComplianceDecision) (w : Wdb) : outcome AppError Wdb :=
  c ← store (insert_decision d (wd_comp w)); Ok (set_wcomp c w).

(** ** Helpers of [credit_deposit.rs] *)

Definition validate_observation (o : ObservedDeposit) : outcome StoreError unit :=
  if od_amount o <=? 0 then Err (Store.Invariant "deposit amount must be positive") else
  if empty_text (od_chain_sig o) || empty_text (od_source_address o) || empty_text (od_dest_address o) ||
     empty_text (od_mint o)
  then Err (Store.Invariant "deposit observation identity incomplete") else
  if od_slot o <? 0 then Err (Store.Invariant "deposit slot must be non-negative") else Ok tt.

Definition same_observation (e : DepositMachineRow) (o : ObservedDeposit) (rail : string) : bool :=
  bool_decide (dm_user e = od_user o) && (dm_amount e =? od_amount o) &&
  bool_decide (dm_chain_sig e = od_chain_sig o) && bool_decide (dm_source_address e = od_source_address o) &&
  bool_decide (dm_dest_address e = od_dest_address o) && bool_decide (dm_mint e = od_mint o) &&
  bool_decide (dm_rail_fingerprint e = rail) && (dm_slot e =? od_slot o).

Definition existing_receipt (row : DepositMachineRow) : DepositReceipt :=
  mkDepositReceipt (dm_id row) (or_else (or_else (dm_admit_tx row) (dm_refund_tx row)) (dm_suspense_tx row)) true 0.

Definition actor_name (actor : AdminContext) : string :=
  match actor with Machine => "machine" | Admin token_digest _ => token_digest end.

Definition admission_hold_reason (e : AppError) : option string :=
  match e with
  | App.ComplianceHold reason | App.MoneyForbidden reason => Some reason
  | App.DepositsPaused => Some "pause_deposits"
  | App.PositionCapExceeded _ _ => Some "shadow_deposit_cap"
  | _ => None
  end.

Definition refund_receipt (row : DepositMachineRow) (p : DepositRefundPayment) (replayed : bool) : RefundReceipt :=
  mkRefundReceipt (dm_id row) (rp_id p) (rp_dest p) replayed.

Definition refund_outbound (row : DepositMachineRow) (p : DepositRefundPayment) : OutboundPaymentRow :=
  mkPayment (rp_id p) DepositRefund (dm_id row) (rp_dest p) (rp_amount_micro p) (rp_rail_fingerprint p).

Definition checked_refund_payment (row : DepositMachineRow) (w : Wdb) : outcome StoreError DepositRefundPayment :=
  p ← ok_or (refund_payment_for_deposit (dm_id row) w) (Store.Invariant "refund state has no outbound payment");
  if negb (rp_deposit p =? dm_id row)%N || negb (bool_decide (rp_dest p = dm_source_address row)) ||
     negb (rp_amount_micro p =? dm_amount row) ||
     negb (bool_decide (rp_rail_fingerprint p = dm_rail_fingerprint row))
  then Err (Store.Invariant "deposit refund payment is not source-locked") else Ok p.

(** Two [BTreeSet]s are compared as sets. *)
Definition refund_non_landing_verdict (last_valid : Z) (observations : list QuorumObservation)
    (expected_endpoints : list string) : NonLandingVerdict :=
  let observed : gset string := list_to_set (map qo_endpoint observations) in
  let expected : gset string := list_to_set expected_endpoints in
  if negb (length observations =? 3)%nat || negb (size observed =? 3)%nat || negb (bool_decide (observed = expected)) ||
     existsb (fun o => bool_decide (qo_signature_present o = Some true)) observations
  then LandingUnknown else non_landing_verdict last_valid observations.

Definition ensure_status (row : DepositMachineRow) (s : DepositMachineStatus) (conflict : string) :
    outcome AppError unit :=
  if negb (bool_decide (dm_status row = s)) then Err (App.Store (Store.Conflict conflict)) else Ok tt.

(** A compare-and-set that has to succeed. *)
Definition advance_deposit (id : N) (from to : DepositMachineStatus) (w : Wdb) : outcome AppError Wdb :=
  '(hit, w) ← store (cas_deposit_status id from to w);
  if negb hit then Err (App.Store (Store.Conflict "deposit status")) else Ok w.

(** Two entries, the accounts opened in their order. *)
Definition post_deposit `{HashMapOrder} (ids : LegIds) (from to : OwnerRef) (kind : TxnKind) (amount : Z)
    (key : string) (w : Wdb) : outcome AppError (N * Wdb) :=
  '(led, a) ← store (account (li_from ids) (wd_ledger w) from Usdc);
  '(led, b) ← store (account (li_to ids) led to Usdc);
  debit ← arith I64 (- amount);
  '(led, txn) ← store (ledger_apply (li_txn ids) led kind key
                         [{| e_account := a; e_amount := debit |}; {| e_account := b; e_amount := amount |}]);
  Ok (txn, set_wledger led w).

Section Deposits.
Context `{UuidText} `{HashMapOrder} (sha256 : string -> list Z) (time_json : Z -> Value).

Definition deposit_event (event_type : string) (id : N) (payload : list (string * Value)) : Wdb -> Wdb :=
  record_event (mkEvent event_type "deposit" id (JObject payload)).

Definition opt_id (o : option N) : Value := json_opt (fun id => JString (uuid_text id)) o.

(** ** Observation *)

Record ObserveIds := mkObserveIds { oi_legs : LegIds; oi_deposit : N }.

Definition observe_key (sig : string) : string := "deposit-observe:" +:+ sig.

Definition observe_finalized_on_rail (ids : ObserveIds) (db_now : Z) (o : ObservedDeposit) (rail : string) (w : Wdb) :
    outcome AppError ObservationReceipt * Wdb :=
  atomic w
    (_ ← store (validate_observation o);
     if empty_text rail then Err (App.Store (Store.Invariant "deposit rail fingerprint missing")) else
     found ← store (deposit_machine_by_sig (od_chain_sig o) w);
     match found with
     | Some existing =>
         if negb (same_observation existing o rail)
         then Err (App.Store (Store.Conflict "deposit observation binding")) else
         t ← ok_or (dm_suspense_tx existing)
               (App.Store (Store.Invariant "observed deposit has no suspense transaction"));
         Ok (mkObservationReceipt (dm_id existing) t true, w)
     | None =>
         '(t, w) ← post_deposit (oi_legs ids) Ref.External Ref.DepositSuspense Deposit (od_amount o)
                     (observe_key (od_chain_sig o)) w;
         '(id, w) ← store (observe_deposit (oi_deposit ids) db_now o t rail w);
         Ok (mkObservationReceipt id t false,
             deposit_event "DepositObserved" id
               [("amount_micro", JInt (od_amount o)); ("chain_sig", JString (od_chain_sig o));
                ("dest_address", JString (od_dest_address o)); ("mint", JString (od_mint o));
                ("rail_fingerprint", JString rail); ("slot", JInt (od_slot o));
                ("source_address", JString (od_source_address o)); ("user_id", opt_id (od_user o))] w)
     end).

(** The fingerprint that stands for a watcher without a pinned rail. *)
Definition observe_finalized_legacy (ids : ObserveIds) (db_now : Z) (o : ObservedDeposit) (w : Wdb) :
    outcome AppError ObservationReceipt * Wdb :=
  observe_finalized_on_rail ids db_now o ("legacy-observation:" +:+ od_mint o) w.

(** ** Anti-laundering inside the admission *)

(** The window is built before the bounds are checked; [Duration::hours] panics
    on overflow. *)
Definition deposit_aml_policy (w : Wdb) : outcome StoreError (AmlPolicy * Z) :=
  let int := money_config_i64 (wd_entries w) in
  window_hours ← int "aml_structuring_window_hours";
  floor ← int "aml_structuring_floor_micro";
  threshold ← int "aml_structuring_threshold_micro";
  n ← int "aml_structuring_n";
  window ← arith I64 (window_hours * 3600);
  deposit ← int "aml_deposit_velocity_micro_24h";
  withdraw ← int "aml_withdraw_velocity_micro_24h";
  if (floor <=? 0) || (floor >=? threshold) || negb ((2 <=? n) && (n <=? 100)) ||
     negb ((1 <=? window_hours) && (window_hours <=? 168)) || (deposit <=? 0) || (withdraw <=? 0)
  then Err (Store.Invariant "invalid AML policy")
  else Ok (mkPolicy floor threshold n window deposit withdraw, window_hours).

(** The deposit itself is not among its own legs. *)
Definition evaluate_deposit_aml_candidate (fresh : nat -> N) (id user : N) (source : string) (amount at_ : Z)
    (w : Wdb) : outcome StoreError (bool * Wdb) :=
  bound ← ok_or (List.find (fun d => (dp_id d =? id)%N) (wd_deposits w)) (Store.NotFound "deposit");
  if negb (bool_decide (dp_user bound = Some user)) || negb (bool_decide (default "" (dp_source bound) = source)) ||
     negb (dp_amount_micro bound =? amount)
  then Err (Store.Conflict "deposit aml candidate") else
  '(policy, window_hours) ← deposit_aml_policy w;
  since ← datetime (at_ - ap_window policy);
  let legs := aml_legs user source since
                (set_deposits (List.filter (fun d => negb (dp_id d =? id)%N) (wd_deposits w)) w) in
  e ← evaluate_aml legs (mkLeg id user source amount at_ DepositLeg) policy;
  w ← insert_flags fresh 0 (ae_flags e) user (text_of (show_i64 window_hours) +:+ "h")
        (JObject [("deposit_velocity", JInt (ae_deposit_velocity e)); ("leg_id", JString (uuid_text id));
                  ("structuring_dest", JInt (ae_structuring_dest e));
                  ("structuring_user", JInt (ae_structuring_user e));
                  ("withdraw_velocity", JInt (ae_withdraw_velocity e))]) at_ w;
  Ok (existsb (fun f => (fr_user f =? user)%N && bool_decide (fr_status f = "open")) (co_flags (wd_comp w)), w).

(** ** Admission *)

Record AdmitIds := mkAdmitIds {
  ai_aml : nat -> N; ai_pre : nat -> N; ai_legs : LegIds; ai_post : nat -> N; ai_decision : N }.

(** [convert_then_collect] of the transaction; what it collected. *)
Definition collect_from (fresh : nat -> N) (user : N) (now : Z) (key : string) (w : Wdb) :
    outcome AppError (Z * Wdb) :=
  '(r, f) ← convert_then_collect fresh user now key (td_funds (wd_db w));
  Ok (rc_collected_micro r, set_db (set_funds f (wd_db w)) w).

Definition insert_deposit_audit (actor : AdminContext) (row : DepositMachineRow) (outcome_ : string)
    (ledger_txn : option N) (collected : Z) (w : Wdb) : Wdb :=
  withdraw_audit (audit_for actor "faucet_deposit" ("user:" +:+ uuid_text (default 0%N (dm_user row))) None
    (Some (JObject [("amount_micro", JInt (dm_amount row)); ("collected_micro", JInt collected);
                    ("deposit_id", JString (uuid_text (dm_id row))); ("ledger_txn", opt_id ledger_txn);
                    ("outcome", JString outcome_)])) None) w.

Definition hold_admission (fresh : N) (row : DepositMachineRow) (reason : string) (collected : Z)
    (actor : AdminContext) (now : Z) (w : Wdb) : outcome AppError (DepositReceipt * Wdb) :=
  w ← advance_deposit (dm_id row) Dep.AdmissionPending Dep.ComplianceHold w;
  w ← deposit_decision (mkDecision fresh "deposit" (dm_id row) "compliance_hold" (actor_name actor) now
                          (JObject [("reason", JString reason)])) w;
  let w := deposit_event "DepositHeld" (dm_id row) [("reason", JString reason)] w in
  let w := insert_deposit_audit actor row reason (dm_suspense_tx row) collected w in
  Ok (mkDepositReceipt (dm_id row) (dm_suspense_tx row) false collected, w).

Definition admit_key (id : N) : string := "deposit-admit:" +:+ uuid_text id.

(** Suspense to the user, and the row's transaction. *)
Definition credit_user (ids : LegIds) (row : DepositMachineRow) (user : N) (w : Wdb) : outcome AppError (N * Wdb) :=
  '(t, w) ← post_deposit ids Ref.DepositSuspense (Ref.User user) Deposit (dm_amount row) (admit_key (dm_id row)) w;
  w ← store (mark_admitted (dm_id row) t w);
  Ok (t, w).

Definition admission_gate (db_now now : Z) (row : DepositMachineRow) (user : N) (w : Wdb) :
    outcome AppError (outcome AppError unit) :=
  status ← store (user_status (wd_comp w) user);
  Ok (if bool_decide (status = "banned") then Err (App.ComplianceHold "banned")
      else enforce_money_mutation (wd_comp w) (wd_entries w) db_now user DepositAdmit (dm_amount row) now).

(** From the credit to the receipt. *)
Definition admit_user (ids : AdmitIds) (now : Z) (row : DepositMachineRow) (user : N) (pre : Z) (actor : AdminContext)
    (w : Wdb) : outcome AppError (DepositReceipt * Wdb) :=
  '(t, w) ← credit_user (ai_legs ids) row user w;
  w ← advance_deposit (dm_id row) Dep.AdmissionPending Dep.Admitted_ w;
  w ← deposit_decision (mkDecision (ai_decision ids) "deposit" (dm_id row) "admitted" (actor_name actor) now
                          (JObject [("amount_micro", JInt (dm_amount row))])) w;
  let w := deposit_event "DepositAdmitted" (dm_id row)
             [("amount_micro", JInt (dm_amount row)); ("user_id", JString (uuid_text user))] w in
  '(post, w) ← collect_from (ai_post ids) user now (admit_key (dm_id row)) w;
  collected ← ok_or (checked I64 (pre + post)) App.Overflow;
  let w := insert_deposit_audit actor row "admitted" (Some t) collected w in
  Ok (mkDepositReceipt (dm_id row) (Some t) false collected, w).

(** A pending deposit is held or admitted. *)
Definition admit_pending (ids : AdmitIds) (db_now now : Z) (actor : AdminContext) (row : DepositMachineRow) (w : Wdb) :
    outcome AppError (DepositReceipt * Wdb) :=
  match dm_user row with
  | None => hold_admission (ai_decision ids) row "unmatched" 0 actor now w
  | Some user =>
      '(flagged, w) ← store (evaluate_deposit_aml_candidate (ai_aml ids) (dm_id row) user (dm_source_address row)
                               (dm_amount row) now w);
      if (flagged : bool) then hold_admission (ai_decision ids) row "aml_open" 0 actor now w else
      '(pre, w) ← collect_from (ai_pre ids) user now ("deposit-lock:" +:+ uuid_text (dm_id row)) w;
      gate ← admission_gate db_now now row user w;
      match gate with
      | Ok _ => admit_user ids now row user pre actor w
      | Err e =>
          match admission_hold_reason e with
          | Some reason => hold_admission (ai_decision ids) row reason pre actor now w
          | None => Err e
          end
      | Panic => Panic
      end
  end.

Definition admit_observed (ids : AdmitIds) (db_now now : Z) (sig : string) (actor : AdminContext) (reevaluate : bool)
    (w : Wdb) : outcome AppError DepositReceipt * Wdb :=
  atomic w
    (if reevaluate && match actor with Machine => false | Admin _ _ => true end
     then Err (App.AdminForbidden
       "held deposit reevaluation is machine-only; use dual control for a manual admission") else
     found ← store (deposit_machine_by_sig sig w);
     row ← ok_or found (App.Store (Store.NotFound "deposit"));
     match dm_status row with
     | Dep.Admitted_ | Dep.AdmittedLegacy => Ok (existing_receipt row, w)
     | Dep.RefundApproved | Dep.RefundSending | Dep.Refunded =>
         Err (App.Store (Store.Conflict "deposit refund already selected"))
     | Dep.ComplianceHold =>
         if negb reevaluate then Ok (existing_receipt row, w) else
         w ← advance_deposit (dm_id row) (dm_status row) Dep.AdmissionPending w;
         admit_pending ids db_now now actor row w
     | Dep.ObservedFinalized =>
         w ← advance_deposit (dm_id row) (dm_status row) Dep.AdmissionPending w;
         admit_pending ids db_now now actor row w
     | Dep.AdmissionPending => admit_pending ids db_now now actor row w
     end).

Definition reevaluate_held (ids : AdmitIds) (db_now now : Z) (sig : string) : Wdb -> outcome AppError DepositReceipt * Wdb :=
  admit_observed ids db_now now sig Machine true.

(** The staging faucet: both transactions, one after the other. *)
Definition execute_as (oids : ObserveIds) (ids : AdmitIds) (db_now now : Z) (cmd : CreditDepositCmd)
    (actor : AdminContext) (w : Wdb) : outcome AppError DepositReceipt * Wdb :=
  let o := mkObserved (Some (xd_user cmd)) (xd_amount cmd) (xd_chain_sig cmd)
             ("staging-faucet:" +:+ uuid_text (xd_user cmd)) "staging-faucet-treasury" "staging-usdc" 0 in
  match observe_finalized_on_rail oids db_now o "staging-faucet" w with
  | (Ok observation, w) =>
      match admit_observed ids db_now now (xd_chain_sig cmd) actor false w with
      | (Ok a, w) => (Ok (mkDepositReceipt (dr_deposit_id a) (dr_ledger_txn a) (dr_replayed a && or_replayed observation)
                            (dr_collected_micro a)), w)
      | r => r
      end
  | (Err e, w) => (Err e, w)
  | (Panic, w) => (Panic, w)
  end.

(** ** Dual control of a held deposit *)

Definition MANUAL_DEPOSIT_ADMIT : string := "manual_deposit_admit".
Definition DEPOSIT_REFUND : string := "deposit_refund".

Definition deposit_command_payload (kind : string) (row : DepositMachineRow) : string :=
  kind +:+ "|" +:+ uuid_text (dm_id row) +:+ "|" +:+ text_of (show_i64 (dm_amount row)) +:+ "|" +:+
  dm_source_address row +:+ "|" +:+ dm_chain_sig row +:+ "|" +:+ dm_rail_fingerprint row.

Definition command_replay_key (kind : string) (id : N) : string := kind +:+ ":" +:+ uuid_text id.

Definition status_value (s : DepositMachineStatus) : string * Value := ("status", JString (deposit_status_name s)).

Definition propose_deposit_command (fresh : N) (now : Z) (deposit : N) (refund : bool) (reason : string)
    (actor : AdminContext) (w : Wdb) : outcome AppError MoneyProposal * Wdb :=
  atomic w
    ('(digest, role) ← require_admin actor;
     _ ← require_role role [Finance];
     if blank reason then Err (App.AdminForbidden "reason is required") else
     let kind := if refund then DEPOSIT_REFUND else MANUAL_DEPOSIT_ADMIT in
     let replay_key := command_replay_key kind deposit in
     found ← store (deposit_machine_by_id deposit w);
     row ← ok_or found (App.Store (Store.NotFound "deposit"));
     _ ← ensure_status row Dep.ComplianceHold "deposit is not held";
     let hash := payload_hash sha256 (deposit_command_payload kind row) in
     match proposal_by_replay replay_key (wd_comp w) with
     | Some existing =>
         if negb (bool_decide (mp_kind existing = kind)) || negb (mp_subject_id existing =? deposit)%N ||
            negb (bool_decide (mp_payload_hash existing = hash))
         then Err (App.ProposalConflict "deposit proposal drift") else Ok (existing, w)
     | None =>
         let p := new_proposal fresh kind deposit hash digest reason replay_key 0 now in
         c ← store (proposal_insert p (wd_comp w));
         let audit := mkAdminAction role digest ("propose_" +:+ kind) ("deposit:" +:+ uuid_text deposit)
                        (Some (JObject [status_value (dm_status row)])) None (Some reason) in
         Ok (p, withdraw_audit (Some audit) (set_wcomp c w))
     end).

Definition validate_deposit_proposal (p : MoneyProposal) (kind confirmer : string) (now : Z) : outcome AppError unit :=
  _ ← require_distinct_tokens (mp_proposer_token_id p) confirmer;
  if negb (bool_decide (mp_kind p = kind)) then Err (App.ProposalConflict "wrong deposit proposal kind") else
  if negb (bool_decide (mp_status p = Pending)) then Err (App.ProposalConflict "proposal is not pending") else
  if (now <? mp_confirm_not_before p) || (now >? mp_expires_at p)
  then Err (App.ProposalConflict "proposal not confirmable") else Ok tt.

Definition validate_deposit_proposal_payload (p : MoneyProposal) (row : DepositMachineRow) : outcome AppError unit :=
  let expected := payload_hash sha256 (deposit_command_payload (mp_kind p) row) in
  if negb (mp_subject_id p =? dm_id row)%N || negb (bool_decide (mp_payload_hash p = expected))
  then Err (App.ProposalConflict "deposit proposal drift") else Ok tt.

Definition validate_confirmed_deposit_proposal (p : MoneyProposal) : outcome AppError unit :=
  if negb (bool_decide (mp_status p = Confirmed)) then Err (App.ProposalConflict "proposal confirmation lost") else Ok tt.

(** The checks both confirmations begin with. *)
Definition confirmable (proposal_id : N) (kind conflict : string) (now : Z) (actor : AdminContext) (w : Wdb) :
    outcome AppError (string * AdminRole * MoneyProposal * DepositMachineRow) :=
  '(digest, role) ← require_admin actor;
  _ ← require_role role [Superadmin];
  p ← store (proposal_by_id proposal_id (wd_comp w));
  _ ← validate_deposit_proposal p kind digest now;
  found ← store (deposit_machine_by_id (mp_subject_id p) w);
  row ← ok_or found (App.Store (Store.NotFound "deposit"));
  _ ← validate_deposit_proposal_payload p row;
  _ ← ensure_status row Dep.ComplianceHold conflict;
  Ok (digest, role, p, row).

Definition confirm_deposit_proposal (p : MoneyProposal) (digest : string) (w : Wdb) : outcome AppError Wdb :=
  '(confirmed, c) ← store (proposal_confirm (mp_id p) digest (wd_comp w));
  _ ← validate_confirmed_deposit_proposal confirmed;
  Ok (set_wcomp c w).

Definition confirm_manual_deposit_admission (ids : AdmitIds) (now : Z) (proposal_id : N) (actor : AdminContext)
    (w : Wdb) : outcome AppError DepositReceipt * Wdb :=
  atomic w
    ('(digest, role, p, row) ← confirmable proposal_id MANUAL_DEPOSIT_ADMIT "deposit is not held" now actor w;
     user ← ok_or (dm_user row) (App.Store (Store.Invariant "unmatched deposit cannot be admitted"));
     '(pre, w) ← collect_from (ai_pre ids) user now ("manual-deposit-admit-lock:" +:+ uuid_text (dm_id row)) w;
     '(t, w) ← credit_user (ai_legs ids) row user w;
     w ← advance_deposit (dm_id row) Dep.ComplianceHold Dep.Admitted_ w;
     '(post, w) ← collect_from (ai_post ids) user now (admit_key (dm_id row)) w;
     collected ← ok_or (checked I64 (pre + post)) App.Overflow;
     w ← confirm_deposit_proposal p digest w;
     w ← deposit_decision (mkDecision (ai_decision ids) "deposit" (dm_id row) "manual_admitted" digest now
           (JObject [("collected_micro", JInt collected); ("ledger_txn", JString (uuid_text t));
                     ("proposal_id", JString (uuid_text (mp_id p)))])) w;
     let w := deposit_event "DepositAdmitted" (dm_id row)
                [("amount_micro", JInt (dm_amount row)); ("manual", JBool true);
                 ("proposal_id", JString (uuid_text (mp_id p))); ("user_id", JString (uuid_text user))] w in
     let audit := mkAdminAction role digest "confirm_manual_deposit_admit" ("deposit:" +:+ uuid_text (dm_id row))
                    (Some (JObject [status_value Dep.ComplianceHold]))
                    (Some (JObject [("ledger_txn", JString (uuid_text t)); status_value Dep.Admitted_]))
                    (Some (mp_reason p)) in
     Ok (mkDepositReceipt (dm_id row) (Some t) false collected, withdraw_audit (Some audit) w)).

Record RefundIds := mkRefundIds { re_pre : nat -> N; re_payment : N; re_decision : N }.

(** The owner of a refund, if known, must be clear. *)
Definition refund_clear (ids : RefundIds) (now : Z) (row : DepositMachineRow) (w : Wdb) : outcome AppError Wdb :=
  match dm_user row with
  | None => Ok w
  | Some user =>
      '(_, w) ← collect_from (re_pre ids) user now ("deposit-refund-lock:" +:+ uuid_text (dm_id row)) w;
      status ← store (user_status (wd_comp w) user);
      if bool_decide (status = "banned") || negb (fresh_clear (wd_comp w) user "geo" now) ||
         negb (fresh_clear (wd_comp w) user "sanctions" now)
      then Err (App.ComplianceHold "refund_requires_clear") else Ok w
  end.

Definition confirm_deposit_refund (ids : RefundIds) (now : Z) (proposal_id : N) (actor : AdminContext) (w : Wdb) :
    outcome AppError RefundReceipt * Wdb :=
  atomic w
    ('(digest, role, p, row) ← confirmable proposal_id DEPOSIT_REFUND "deposit is not refundable" now actor w;
     w ← refund_clear ids now row w;
     w ← advance_deposit (dm_id row) Dep.ComplianceHold Dep.RefundApproved w;
     let outbound := mkPayment (re_payment ids) DepositRefund (dm_id row) (dm_source_address row) (dm_amount row)
                       (dm_rail_fingerprint row) in
     o ← store (insert_payment outbound (wd_outbound w));
     w ← confirm_deposit_proposal p digest (set_outbound o w);
     w ← deposit_decision (mkDecision (re_decision ids) "deposit" (dm_id row) "refund_approved" digest now
           (JObject [("dest", JString (op_dest outbound)); ("payment_id", JString (uuid_text (op_id outbound)));
                     ("proposal_id", JString (uuid_text (mp_id p)))])) w;
     let w := deposit_event "DepositRefundApproved" (dm_id row)
                [("payment_id", JString (uuid_text (op_id outbound)));
                 ("proposal_id", JString (uuid_text (mp_id p)))] w in
     let audit := mkAdminAction role digest "confirm_deposit_refund" ("deposit:" +:+ uuid_text (dm_id row))
                    (Some (JObject [status_value Dep.ComplianceHold]))
                    (Some (JObject [("dest", JString (dm_source_address row));
                                    ("payment_id", JString (uuid_text (op_id outbound)));
                                    status_value Dep.RefundApproved]))
                    (Some (mp_reason p)) in
     Ok (mkRefundReceipt (dm_id row) (op_id outbound) (op_dest outbound) false, withdraw_audit (Some audit) w)).

(** ** Sending a refund *)

(** What remains to be done after the commit; [RefundUnproved] commits and
    answers with an error. *)
Inductive RefundStage :=
| RefundDone (r : RefundReceipt)
| RefundUnproved
| RefundBroadcast (payment : N) (r : RefundReceipt)
| RefundRebroadcast (payment : OutboundPaymentRow) (attempt : OutboundAttemptRow) (mark : bool) (r : RefundReceipt).

Definition deposit_row (sig : string) (w : Wdb) : outcome AppError DepositMachineRow :=
  found ← store (deposit_machine_by_sig sig w);
  ok_or found (App.Store (Store.NotFound "deposit")).

Definition refund_live_attempt (p : DepositRefundPayment) (missing : string) (w : Wdb) :
    outcome AppError OutboundAttemptRow :=
  found ← store (live_attempt (rp_id p) (wd_outbound w));
  ok_or found (App.Store (Store.Invariant missing)).

(** A refunded deposit is answered if one attempt bears it out. *)
Definition refunded_already (row : DepositMachineRow) (p : DepositRefundPayment) (w : Wdb) :
    outcome AppError (RefundStage * Wdb) :=
  attempts ← store (attempts_for (rp_id p) (wd_outbound w));
  if negb (length (List.filter (fun a => bool_decide (at_landing a = Landing.Finalized)) attempts) =? 1)%nat
  then Err (App.Store (Store.Invariant "refunded deposit has no unique finalized attempt"))
  else Ok (RefundDone (refund_receipt row p true), w).

Definition resume_refund (signer : SignerView) (now : Z) (row : DepositMachineRow) (p : DepositRefundPayment) (w : Wdb) :
    outcome AppError (RefundStage * Wdb) :=
  attempt ← refund_live_attempt p "refund_sending deposit has no live attempt" w;
  let done := RefundDone (refund_receipt row p true) in
  match at_landing attempt with
  | Landing.Broadcast => Ok (done, w)
  | Landing.Prepared =>
      lease ← ok_or (at_lease attempt) (App.Store (Store.Invariant "prepared refund attempt has no lease"));
      if now <? lease then Err (App.ProposalConflict "send lease still held") else
      let unknown := w ← store_attempt (with_landing Landing.Unknown attempt) w; Ok (done, w) in
      match presence_of signer (at_signature attempt) with
      | Present => w ← store_attempt (with_landing Landing.Broadcast attempt) w; Ok (done, w)
      | Absent =>
          if height_at_most signer (at_last_valid attempt)
          then Ok (RefundRebroadcast (refund_outbound row p) attempt true (refund_receipt row p true), w)
          else unknown
      | PresenceUnknown => unknown
      end
  | Landing.Unknown =>
      height ← store (sg_height signer);
      if height >? at_last_valid attempt
      then Err (App.ProposalConflict "refund blockhash expired; archival proof is required")
      else Ok (RefundRebroadcast (refund_outbound row p) attempt false (refund_receipt row p true), w)
  | Landing.Finalized | Landing.DefinitiveFailed =>
      Err (App.Store (Store.Invariant "refund_sending deposit has a terminal live attempt"))
  end.

(** The first attempt of an approved refund. *)
Definition refund_prepare (fresh : N) (signer : SignerView) (now : Z) (p : DepositRefundPayment) (w : Wdb) :
    outcome AppError (OutboundAttemptRow * Wdb) :=
  attempts ← store (attempts_for (rp_id p) (wd_outbound w));
  if negb (is_empty attempts) then Err (App.Store (Store.Invariant "approved refund already has an attempt")) else
  '(bytes, signature, last_valid) ← store (sg_sign signer);
  lease ← datetime (now + LEASE);
  let attempt := mkAttempt fresh (rp_id p) 1 None bytes signature last_valid Landing.Prepared (Some lease) None in
  o ← store (insert_attempt attempt (wd_outbound w));
  Ok (attempt, set_outbound o w).

Definition refund_claim (fresh : N) (signer : SignerView) (now : Z) (row : DepositMachineRow) (p : DepositRefundPayment)
    (w : Wdb) (rail : Rail) : outcome AppError (RefundStage * Wdb) * Rail :=
  match refund_prepare fresh signer now p w with
  | Ok (attempt, w) =>
      with_rail (refund_outbound row p) attempt rail
        (w ← advance_deposit (dm_id row) Dep.RefundApproved Dep.RefundSending w;
         Ok (RefundBroadcast (rp_id p) (refund_receipt row p false),
             deposit_event "DepositRefundSending" (dm_id row) [("payment_id", JString (uuid_text (rp_id p)))] w))
  | Err e => (Err e, rail)
  | Panic => (Panic, rail)
  end.

(** The deposit and its payment, for the statuses that have one. *)
Definition refund_under_way (sig : string) (w : Wdb) : outcome AppError (DepositMachineRow * DepositRefundPayment) :=
  row ← deposit_row sig w;
  if negb (bool_decide (dm_status row ∈ [Dep.RefundApproved; Dep.RefundSending; Dep.Refunded]))
  then Err (App.Store (Store.Conflict "deposit refund is not approved")) else
  p ← store (checked_refund_payment row w);
  Ok (row, p).

Definition begin_refund_send (fresh : N) (signer : SignerView) (now : Z) (sig : string) (w : Wdb) (rail : Rail) :
    outcome AppError RefundStage * Wdb * Rail :=
  match refund_under_way sig w with
  | Ok (row, p) =>
      match dm_status row with
      | Dep.Refunded => (atomic w (refunded_already row p w), rail)
      | Dep.RefundSending => (atomic w (resume_refund signer now row p w), rail)
      | _ => let '(m, rail) := refund_claim fresh signer now row p w rail in (atomic w m, rail)
      end
  | Err e => (Err e, w, rail)
  | Panic => (Panic, w, rail)
  end.

(** The reads and checks of a replacement, up to the verdict. *)
Definition refund_replace_checks (identity : RailIdentity) (signer : SignerView) (now : Z) (sig : string)
    (observations : list QuorumObservation) (w : Wdb) :
    outcome AppError (DepositMachineRow * DepositRefundPayment * list OutboundAttemptRow * OutboundAttemptRow *
                      NonLandingVerdict) :=
  row ← deposit_row sig w;
  _ ← ensure_status row Dep.RefundSending "deposit refund is not sending";
  p ← store (checked_refund_payment row w);
  if negb (bool_decide (rp_rail_fingerprint p = rail_fingerprint identity))
  then Err (App.Store (Store.Invariant "refund rail identity drift")) else
  attempts ← store (attempts_for (rp_id p) (wd_outbound w));
  old ← refund_live_attempt p "refund has no live attempt" w;
  _ ← ensure_landing old Landing.Unknown "refund replacement attempt is not unknown";
  height ← store (sg_height signer);
  if height <=? at_last_valid old then Err (App.ProposalConflict "blockhash has not expired") else
  let verdict := refund_non_landing_verdict (at_last_valid old) observations (rpc_endpoints identity) in
  let old := with_evidence (JObject
     [("last_valid_block_height", JInt (at_last_valid old));
      ("observations", JArray (map observation_json observations)); ("observed_at", time_json now);
      ("purpose", JString "replacement"); ("verdict", JString (non_landing_name verdict))]) old in
  Ok (row, p, attempts, old, verdict).

Definition refund_replace_prepare (fresh : N) (signer : SignerView) (now : Z) (p : DepositRefundPayment)
    (old : OutboundAttemptRow) (attempts : list OutboundAttemptRow) (w : Wdb) :
    outcome AppError (OutboundAttemptRow * Wdb) :=
  w ← store_attempt (with_landing Landing.DefinitiveFailed old) w;
  '(bytes, signature, last_valid) ← store (sg_sign signer);
  if existsb (fun a => bool_decide (at_signature a = signature)) attempts
  then Err (App.Store (Store.Invariant "refund replacement signature was reused")) else
  lease ← datetime (now + LEASE);
  let attempt := mkAttempt fresh (rp_id p) (next_attempt_number attempts) (Some (at_id old)) bytes signature last_valid
                   Landing.Prepared (Some lease) None in
  o ← store (insert_attempt attempt (wd_outbound w));
  Ok (attempt, set_outbound o w).

Definition replace_expired_refund (fresh : N) (identity : RailIdentity) (signer : SignerView) (now : Z) (sig : string)
    (observations : list QuorumObservation) (w : Wdb) (rail : Rail) : outcome AppError RefundStage * Wdb * Rail :=
  match refund_replace_checks identity signer now sig observations w with
  | Ok (row, p, attempts, old, verdict) =>
      if negb (bool_decide (verdict = DefinitivelyFailed))
      then (atomic w (w ← store_attempt old w; Ok (RefundUnproved, w)), rail)
      else match refund_replace_prepare fresh signer now p old attempts w with
           | Ok (attempt, w1) =>
               let '(m, rail) := with_rail (refund_outbound row p) attempt rail
                 (Ok (RefundBroadcast (rp_id p) (refund_receipt row p true),
                      deposit_event "DepositRefundAttemptReplaced" (dm_id row)
                        [("attempt_id", JString (uuid_text (at_id attempt)));
                         ("payment_id", JString (uuid_text (rp_id p)));
                         ("replaces_attempt_id", JString (uuid_text (at_id old)))] w1)) in
               (atomic w m, rail)
           | Err e => (Err e, w, rail)
           | Panic => (Panic, w, rail)
           end
  | Err e => (Err e, w, rail)
  | Panic => (Panic, w, rail)
  end.

Definition mark_refund_broadcast (sig : string) (w : Wdb) : outcome AppError unit * Wdb :=
  atomic w
    (row ← deposit_row sig w;
     _ ← ensure_status row Dep.RefundSending "deposit refund is not sending";
     p ← store (checked_refund_payment row w);
     attempt ← refund_live_attempt p "refund_sending deposit has no live attempt" w;
     if bool_decide (at_landing attempt = Landing.Broadcast) then Ok (tt, w) else
     if negb (bool_decide (at_landing attempt ∈ [Landing.Prepared; Landing.Unknown]))
     then Err (App.Store (Store.Invariant "refund attempt cannot become broadcast")) else
     w ← store_attempt (with_landing Landing.Broadcast attempt) w;
     Ok (tt, w)).

(** The second transaction, and the receipt if it succeeds. *)
Definition marked (sig : string) (r : RefundReceipt) (w : Wdb) (rail : Rail) :
    outcome AppError RefundReceipt * Wdb * Rail :=
  match mark_refund_broadcast sig w with
  | (Ok _, w) => (Ok r, w, rail)
  | (Err e, w) => (Err e, w, rail)
  | (Panic, w) => (Panic, w, rail)
  end.

(** The rest of [begin_refund_send] and [replace_expired_refund]. *)
Definition after_refund_commit (identity : RailIdentity) (rpc : list Z -> outcome StoreError Value) (sig : string)
    (stage : RefundStage) (w : Wdb) (rail : Rail) : outcome AppError RefundReceipt * Wdb * Rail :=
  match stage with
  | RefundDone r => (Ok r, w, rail)
  | RefundUnproved => (Err (App.ProposalConflict "archival non-landing proof is not definitive"), w, rail)
  | RefundBroadcast payment r =>
      match broadcast identity rpc payment rail with
      | Ok _ => marked sig r w rail
      | Err e => (Err (App.Store e), w, rail)
      | Panic => (Panic, w, rail)
      end
  | RefundRebroadcast payment attempt mark r =>
      let '(sent, rail) := same_bytes_rebroadcast identity rpc payment attempt rail in
      match sent with
      | Ok _ => if mark then marked sig r w rail else (Ok r, w, rail)
      | Err e => (Err e, w, rail)
      | Panic => (Panic, w, rail)
      end
  end.

(** ** Settlement of a refund *)

Record RefundSettleIds := mkRefundSettleIds { fs_legs : LegIds; fs_decision : N }.

Definition refund_key (id : N) : string := "deposit-refund:" +:+ uuid_text id.

(** The attempt the receipt names, verified. *)
Definition refund_attempt (identity : RailIdentity) (receipt : ChainReceipt) (row : DepositMachineRow) (w : Wdb) :
    outcome AppError (DepositRefundPayment * OutboundAttemptRow) :=
  p ← store (checked_refund_payment row w);
  if negb (bool_decide (rp_rail_fingerprint p = rail_fingerprint identity))
  then Err (App.Store (Store.Invariant "refund rail identity drift")) else
  attempts ← store (attempts_for (rp_id p) (wd_outbound w));
  attempt ← ok_or (List.find (fun a => bool_decide (at_signature a = ch_signature receipt)) attempts)
              (App.Store (Store.Invariant "finalized refund receipt has no persisted attempt"));
  _ ← store (map_err Store.Invariant (verify_chain_receipt identity (refund_outbound row p) attempt receipt));
  Ok (p, attempt).

Definition settle_refund (ids : RefundSettleIds) (identity : RailIdentity) (now : Z) (sig : string)
    (receipt : ChainReceipt) (w : Wdb) : outcome AppError RefundSettlementReceipt * Wdb :=
  atomic w
    (row ← deposit_row sig w;
     '(p, attempt) ← refund_attempt identity receipt row w;
     if bool_decide (dm_status row = Dep.Refunded) then
       _ ← ensure_landing attempt Landing.Finalized "refunded deposit attempt is not finalized";
       t ← ok_or (dm_refund_tx row) (App.Store (Store.Invariant "refunded deposit has no ledger transaction"));
       Ok (mkRefundSettlement (dm_id row) (rp_id p) t true, w)
     else
     _ ← ensure_status row Dep.RefundSending "deposit refund is not sending";
     if negb (landing_live (at_landing attempt)) then Err (App.Store (Store.Invariant "refund attempt is not live")) else
     w ← store_attempt (with_evidence (JObject
           [("commitment", JString (ch_commitment receipt)); ("delta_micro", JInt (ch_delta_micro receipt));
            ("dest_token_account", JString (ch_dest_token_account receipt)); ("mint", JString (ch_mint receipt));
            ("signature", JString (ch_signature receipt)); ("source", JString (ch_source receipt));
            ("verified_at", time_json now)]) (with_landing Landing.Finalized attempt)) w;
     '(t, w) ← post_deposit (fs_legs ids) Ref.DepositSuspense Ref.External Withdrawal (dm_amount row)
                 (refund_key (dm_id row)) w;
     w ← store (mark_refunded (dm_id row) t w);
     w ← advance_deposit (dm_id row) Dep.RefundSending Dep.Refunded w;
     w ← deposit_decision (mkDecision (fs_decision ids) "deposit" (dm_id row) "refunded" "machine" now
           (JObject [("ledger_txn", JString (uuid_text t)); ("payment_id", JString (uuid_text (rp_id p)))])) w;
     Ok (mkRefundSettlement (dm_id row) (rp_id p) t false,
         deposit_event "DepositRefunded" (dm_id row)
           [("ledger_txn", JString (uuid_text t)); ("payment_id", JString (uuid_text (rp_id p)))] w)).
End Deposits.
