(* ===== verification/Inflow.v ===== *)
(** * Inflow: the deposit machine keeps the money in suspense

    Proofs about [Deposits]: the invariant that ties the rows of [deposits] to
    the [DepositSuspense] balance and to the payments and attempts of refunds,
    and its preservation by every transaction of the deposit use cases, each of
    which withdrawals and markets do not see. *)

From S2P Require Import Prelude Amm Ledger Resolution Economy Chars Errors Credits PgLedger Json Config Fences ConfigStore Compliance Collect Postings Book Lifecycle System Outbound Withdraw Payout Disburse Deposits.
#[local] Open Scope string_scope.
#[local] Open Scope list_scope.
#[local] Open Scope Z_scope.

(** ** Specification *)

(** A row stands in a state of the machine. *)
Record row_at (s : DepositMachineStatus) (d : DepositRow) : Prop := {
  ra_status : dp_status d = deposit_status_name s;
  ra_machine : dp_machine_status d = Some (deposit_status_name s);
  ra_amount : 0 < dp_amount_micro d;
  ra_range : in_ty I64 (dp_amount_micro d);
  ra_source : is_Some (dp_source d);
  ra_dest : is_Some (dp_dest d);
  ra_mint : is_Some (dp_mint d);
  ra_slot : is_Some (dp_slot d);
  ra_rail : exists r, dp_rail d = Some r /\ r <> "";
  ra_suspense : is_Some (dp_suspense_tx d);
  ra_admit : is_Some (dp_admit_tx d) <-> s = Dep.Admitted_;
  ra_refund : is_Some (dp_refund_tx d) <-> s = Dep.Refunded }.

(** The payment goes back where the money came from. *)
Definition source_locked (d : DepositRow) (p : OutboundPaymentRow) : Prop :=
  dp_source d = Some (op_dest p) /\ op_amount_micro p = dp_amount_micro d /\ dp_rail d = Some (op_rail_fingerprint p).

(** A refund has a payment from its approval on, and attempts from its claim. *)
Definition refund_ok (ob : OutboundDb) (d : DepositRow) (s : DepositMachineStatus) : Prop :=
  match s with
  | Dep.RefundApproved => exists p, payment_of DepositRefund (dp_id d) ob = Some p /\ source_locked d p /\
      of_payment (op_id p) ob = []
  | Dep.RefundSending => exists p front a, payment_of DepositRefund (dp_id d) ob = Some p /\ source_locked d p /\
      of_payment (op_id p) ob = front ++ [a] /\ landing_live (at_landing a) = true
  | Dep.Refunded => exists p front a, payment_of DepositRefund (dp_id d) ob = Some p /\ source_locked d p /\
      of_payment (op_id p) ob = front ++ [a] /\ at_landing a = Landing.Finalized
  | _ => payment_of DepositRefund (dp_id d) ob = None
  end.

(** A row from before the machine: nothing of it is in suspense. *)
Definition before_machine (d : DepositRow) : Prop :=
  suspense_status (deposit_state_text d) = false /\ dp_refund_tx d = None /\
  (on_machine d = true -> dp_machine_status d = Some (deposit_status_name Dep.AdmittedLegacy)).

Inductive deposit_ok (ob : OutboundDb) (d : DepositRow) : Prop :=
| dk_legacy : before_machine d -> payment_of DepositRefund (dp_id d) ob = None -> deposit_ok ob d
| dk_machine s : s <> Dep.AdmittedLegacy -> row_at s d -> refund_ok ob d s -> deposit_ok ob d.

(** What a row holds in suspense. *)
Definition in_suspense (d : DepositRow) : Z :=
  if suspense_status (deposit_state_text d) then dp_amount_micro d else 0.

Definition suspense_sum (l : list DepositRow) : Z := zsum (map in_suspense l).

Record dsound (w : Wdb) : Prop := {
  ds_ids : NoDup (map dp_id (wd_deposits w));
  ds_sigs : NoDup (map dp_chain_sig (wd_deposits w));
  ds_rows : Forall (deposit_ok (wd_outbound w)) (wd_deposits w);
  ds_suspense : held (wd_ledger w) Ref.DepositSuspense Usdc = suspense_sum (wd_deposits w);
  ds_subjects : forall id, id ∉ map dp_id (wd_deposits w) -> payment_of DepositRefund id (wd_outbound w) = None }.

Definition legal_rel (s s' : DepositMachineStatus) : Prop := legal_deposit_transition s s' = true.

(** What an observation fixes for good. *)
Definition same_inflow (d d' : DepositRow) : Prop :=
  dp_id d' = dp_id d /\ dp_user d' = dp_user d /\ dp_chain_sig d' = dp_chain_sig d /\
  dp_amount_micro d' = dp_amount_micro d /\ dp_source d' = dp_source d /\ dp_dest d' = dp_dest d /\
  dp_mint d' = dp_mint d /\ dp_rail d' = dp_rail d /\ dp_slot d' = dp_slot d /\ dp_suspense_tx d' = dp_suspense_tx d /\
  dp_created_at d' = dp_created_at d.

(** A row is as it was, or moved along legal transitions. *)
Inductive deposit_advanced (d : DepositRow) : DepositRow -> Prop :=
| da_same : deposit_advanced d d
| da_moved s s' d' : row_at s d -> row_at s' d' -> tc legal_rel s s' -> same_inflow d d' -> deposit_advanced d d'.

(** What a run does to the table. *)
Definition deposits_run (l l' : list DepositRow) : Prop :=
  exists l1 new, l' = l1 ++ new /\ Forall2 deposit_advanced l l1.

(** ** Lemmas: names *)

Lemma parse_deposit_name s : parse_deposit_status (deposit_status_name s) = Ok s.
Proof. by destruct s. Qed.

Lemma suspense_name s : suspense_status (deposit_status_name s) = is_suspense_liability s.
Proof. by destruct s. Qed.

Lemma deposit_name_inj s s' : deposit_status_name s = deposit_status_name s' -> s = s'.
Proof. by destruct s, s'. Qed.

Lemma row_at_text s d : row_at s d -> deposit_state_text d = deposit_status_name s.
Proof. intros A. unfold deposit_state_text. by rewrite (ra_machine _ _ A). Qed.

Lemma row_at_inj s s' d : row_at s d -> row_at s' d -> s = s'.
Proof. intros A A'. apply deposit_name_inj. by rewrite <- (row_at_text _ _ A), <- (row_at_text _ _ A'). Qed.

Lemma row_at_on s d : row_at s d -> on_machine d = true.
Proof. intros A. unfold on_machine. rewrite (ra_machine _ _ A). by destruct s. Qed.

Lemma row_at_suspense s d :
  row_at s d -> in_suspense d = if is_suspense_liability s then dp_amount_micro d else 0.
Proof. intros A. unfold in_suspense. by rewrite (row_at_text _ _ A), suspense_name. Qed.

(** ** Lemmas: the table *)

(** The row as the machine reads it. *)
Definition machine_row (s : DepositMachineStatus) (d : DepositRow) : DepositMachineRow :=
  mkMachineRow (dp_id d) (dp_user d) (dp_amount_micro d) (dp_chain_sig d) (default "" (dp_source d))
    (default "" (dp_dest d)) (default "" (dp_mint d)) (default "" (dp_rail d)) (default 0 (dp_slot d)) s
    (dp_suspense_tx d) (dp_admit_tx d) (dp_refund_tx d).

Lemma from_row_machine s d : row_at s d -> deposit_machine_from_row d = Ok (machine_row s d).
Proof.
  intros A. unfold deposit_machine_from_row, machine_row. rewrite (row_at_text _ _ A), parse_deposit_name. cbn [mbind outcome_bind].
  destruct (ra_source _ _ A) as [x ->], (ra_dest _ _ A) as [y ->], (ra_mint _ _ A) as [z ->], (ra_slot _ _ A) as [t ->],
    (ra_rail _ _ A) as (r & -> & Hr). unfold empty_text. rewrite (bool_decide_eq_false_2 _ Hr).
  rewrite (bool_decide_eq_false_2 (Some x = None)), (bool_decide_eq_false_2 (Some y = None)),
    (bool_decide_eq_false_2 (Some z = None)), (bool_decide_eq_false_2 (Some t = None)) by done. cbn [orb]. by rewrite andb_false_r.
Qed.

(** What a decoded row was. *)
Lemma decoded_Ok ob d row :
  deposit_ok ob d -> on_machine d = true -> deposit_machine_from_row d = Ok row ->
  exists s, row = machine_row s d /\
    (s = Dep.AdmittedLegacy \/ row_at s d /\ refund_ok ob d s).
Proof.
  intros [(Hs & _ & Hl) Hp|s Hs A R] Hon Hr.
  - specialize (Hl Hon). exists Dep.AdmittedLegacy. split; [|by left]. unfold deposit_machine_from_row, deposit_state_text in Hr.
    rewrite Hl in Hr. unfold default, id in Hr. rewrite parse_deposit_name in Hr. cbn in Hr. by injection Hr as <-.
  - rewrite (from_row_machine s) in Hr by done. injection Hr as <-. exists s. auto.
Qed.

Lemma by_sig_Ok sig w row :
  dsound w -> deposit_machine_by_sig sig w = Ok (Some row) ->
  exists s d, d ∈ wd_deposits w /\ dp_chain_sig d = sig /\ row = machine_row s d /\
    (s = Dep.AdmittedLegacy \/ row_at s d /\ refund_ok (wd_outbound w) d s).
Proof.
  intros D. unfold deposit_machine_by_sig. destruct (List.find _ _) as [d|] eqn:E; [|done]. cbn.
  intros (r & Hr & [= <-])%bind_Ok. apply find_by in E as [Hd Hc]. bool_hyps. rewrite bool_decide_eq_true in *.
  pose proof (ds_rows _ D) as Hk. rewrite Forall_forall in Hk. destruct (decoded_Ok _ _ _ (Hk d Hd) ltac:(done) Hr) as (s & -> & Hs).
  by exists s, d.
Qed.

Lemma sig_inj w d d' : dsound w -> d ∈ wd_deposits w -> d' ∈ wd_deposits w -> dp_chain_sig d = dp_chain_sig d' -> d = d'.
Proof. intros D. apply NoDup_map_elem, D. Qed.

Lemma id_inj w d d' : dsound w -> d ∈ wd_deposits w -> d' ∈ wd_deposits w -> dp_id d = dp_id d' -> d = d'.
Proof. intros D. apply NoDup_map_elem, D. Qed.

Lemma by_id_Ok id w row :
  dsound w -> deposit_machine_by_id id w = Ok (Some row) ->
  exists s d, d ∈ wd_deposits w /\ dp_id d = id /\ row = machine_row s d /\
    (s = Dep.AdmittedLegacy \/ row_at s d /\ refund_ok (wd_outbound w) d s).
Proof.
  intros D. unfold deposit_machine_by_id. destruct (List.find _ _) as [d|] eqn:E; [|done].
  apply find_by in E as [Hd Hc]. bool_hyps. rewrite N.eqb_eq in *. intros (s & d' & Hd' & Hs & -> & Hk)%by_sig_Ok; [|done].
  assert (d' = d) as -> by (by eapply sig_inj). exists s, d. done.
Qed.

Lemma legacy_not_at s d : before_machine d -> row_at s d -> s = Dep.AdmittedLegacy.
Proof.
  intros (_ & _ & Hl) A. specialize (Hl (row_at_on _ _ A)). rewrite (ra_machine _ _ A) in Hl.
  apply deposit_name_inj. congruence.
Qed.

(** A row is found by its signature. *)
Lemma by_sig_found w d :
  dsound w -> d ∈ wd_deposits w -> on_machine d = true ->
  exists s, deposit_machine_by_sig (dp_chain_sig d) w = Ok (Some (machine_row s d)).
Proof.
  intros D Hd Hon. unfold deposit_machine_by_sig. destruct (List.find _ _) as [e|] eqn:E.
  - apply find_by in E as [He Hc]. bool_hyps. rewrite bool_decide_eq_true in *.
    assert (e = d) as -> by (by eapply sig_inj). pose proof (ds_rows _ D) as Hk. rewrite Forall_forall in Hk.
    destruct (Hk d Hd) as [(Hs & _ & Hl) Hp|s Hs A R].
    + exists Dep.AdmittedLegacy. unfold decoded, deposit_machine_from_row, deposit_state_text. rewrite (Hl Hon).
      unfold default, id. by rewrite parse_deposit_name.
    + exists s. unfold decoded. by rewrite (from_row_machine s).
  - apply find_none_by in E. rewrite Forall_forall in E. specialize (E d Hd). cbn in E.
    by rewrite Hon, (bool_decide_eq_true_2 _ (eq_refl _)) in E.
Qed.

Lemma by_sig_at w s d :
  dsound w -> d ∈ wd_deposits w -> row_at s d -> deposit_machine_by_sig (dp_chain_sig d) w = Ok (Some (machine_row s d)).
Proof.
  intros D Hd A. destruct (by_sig_found w d D Hd (row_at_on _ _ A)) as (s' & E). pose proof E as E'.
  unfold deposit_machine_by_sig in E'. destruct (List.find _ _) as [e|] eqn:Ef in E'; [|done].
  apply find_by in Ef as [He Hc]. bool_hyps. rewrite bool_decide_eq_true in *. assert (e = d) as -> by (by eapply sig_inj).
  cbn in E'. rewrite (from_row_machine s) in E' by done. injection E' as <-. done.
Qed.

(** What the machine knows of a row in a state. *)
Lemma ok_at w s d :
  dsound w -> d ∈ wd_deposits w -> row_at s d -> s <> Dep.AdmittedLegacy -> refund_ok (wd_outbound w) d s.
Proof.
  intros D Hd A Hs. pose proof (ds_rows _ D) as Hk. rewrite Forall_forall in Hk.
  destruct (Hk d Hd) as [Hl _|s' _ A' R]; [by destruct (legacy_not_at _ _ Hl A)|]. by rewrite (row_at_inj _ _ _ A A').
Qed.

(** A row splits the table. *)
Lemma table_split w d :
  dsound w -> d ∈ wd_deposits w ->
  exists l1 l2, wd_deposits w = l1 ++ d :: l2 /\ Forall (fun e => dp_id e <> dp_id d) (l1 ++ l2).
Proof.
  intros D (l1 & l2 & E)%list_elem_of_split. exists l1, l2. split; [done|]. pose proof (ds_ids _ D) as Hn.
  rewrite E, map_app in Hn. cbn in Hn. apply Forall_forall. intros e He Heq.
  apply NoDup_app in Hn as (_ & Hn & Hn2). apply NoDup_cons in Hn2 as [Hn2 _].
  apply elem_of_app in He as [He|He].
  - apply (Hn (dp_id e)); [by apply list_elem_of_fmap_2|]. rewrite Heq. set_solver.
  - apply Hn2. rewrite <- Heq. by apply list_elem_of_fmap_2.
Qed.

Lemma map_others id cond f l :
  Forall (fun e => dp_id e <> id) l -> map (fun d => if (dp_id d =? id)%N && cond d then f d else d) l = l.
Proof.
  induction 1 as [|e l He _ IH]; [done|]. cbn. rewrite IH. by apply N.eqb_neq in He as ->.
Qed.

Lemma hit_others id (cond : DepositRow -> bool) l :
  Forall (fun e => dp_id e <> id) l -> existsb (fun d => (dp_id d =? id)%N && cond d) l = false.
Proof. induction 1 as [|e l He _ IH]; [done|]. cbn. rewrite IH. by apply N.eqb_neq in He as ->. Qed.

(** An update that hits writes the row with the id and no other. *)
Lemma update_deposit_Ok id cond f w w' l1 d l2 :
  wd_deposits w = l1 ++ d :: l2 -> Forall (fun e => dp_id e <> dp_id d) (l1 ++ l2) -> dp_id d = id ->
  update_deposit id cond f w = Ok (true, w') ->
  cond d = true /\ deposit_check (f d) = true /\ w' = set_deposits (l1 ++ f d :: l2) w.
Proof.
  intros E [H1 H2]%Forall_app <-. unfold update_deposit. cbv zeta. rewrite E.
  destruct (negb _) eqn:Hc; [done|]. apply negb_false_iff in Hc. intros [= Hx <-].
  rewrite existsb_app in Hx. cbn in Hx. rewrite N.eqb_refl, !hit_others, orb_false_r in Hx by done. cbn in Hx.
  rewrite forallb_app in Hc. cbn in Hc. rewrite N.eqb_refl, Hx in Hc. cbn in Hc. bool_hyps.
  split_and!; [done..|]. rewrite map_app. cbn. rewrite !map_others by done. by rewrite N.eqb_refl, Hx.
Qed.

(** ** Lemmas: one row moves *)

(** Work on one deposit inside a transaction: the row [d0] has become [d1], and
    the suspense account gained [x]. *)
Record dworked (l1 l2 : list DepositRow) (d0 d1 : DepositRow) (x : Z) (w w' : Wdb) : Prop := {
  dw_rows : wd_rows w' = wd_rows w;
  dw_funds : funds_wf (td_funds (wd_db w'));
  dw_supply : imin I64 < held (wd_ledger w') Ref.External Usdc;
  dw_withheld : held (wd_ledger w') Ref.Withheld Usdc = held (wd_ledger w) Ref.Withheld Usdc;
  dw_suspense : held (wd_ledger w') Ref.DepositSuspense Usdc = held (wd_ledger w) Ref.DepositSuspense Usdc + x;
  dw_outbound : outbound_wf (wd_outbound w');
  dw_others : others_kept DepositRefund (dp_id d0) (wd_outbound w) (wd_outbound w');
  dw_before : wd_deposits w = l1 ++ d0 :: l2;
  dw_apart : Forall (fun e => dp_id e <> dp_id d0) (l1 ++ l2);
  dw_after : wd_deposits w' = l1 ++ d1 :: l2;
  dw_same : same_inflow d0 d1;
  dw_afar : afar (wd_db w) (wd_db w') }.

(** A transaction keeps the invariant, is not seen elsewhere and moves rows
    along legal transitions. *)
Record dmoves (w w' : Wdb) : Prop := {
  dv_sound : dsound w';
  dv_elsewhere : elsewhere w w';
  dv_run : deposits_run (wd_deposits w) (wd_deposits w');
  dv_new : forall d, d ∈ wd_deposits w' -> dp_chain_sig d ∉ map dp_chain_sig (wd_deposits w) ->
    txn_by_key (wd_ledger w) (observe_key (dp_chain_sig d)) = None }.

Lemma same_inflow_refl d : same_inflow d d.
Proof. by split_and!. Qed.

Lemma advanced_refl l : Forall2 deposit_advanced l l.
Proof. apply Forall_Forall2_diag, Forall_forall. constructor. Qed.

Lemma deposits_run_refl l : deposits_run l l.
Proof. exists l, []. by rewrite app_nil_r; split; [|apply advanced_refl]. Qed.

Lemma same_inflow_trans a b c : same_inflow a b -> same_inflow b c -> same_inflow a c.
Proof. unfold same_inflow. intuition congruence. Qed.

Lemma advanced_trans a b c : deposit_advanced a b -> deposit_advanced b c -> deposit_advanced a c.
Proof.
  intros [|s s' b' A A' T M] Hbc; [done|]. destruct Hbc as [|t t' c B B' T' M']; [by eapply da_moved|].
  assert (t = s') as -> by (by eapply row_at_inj). eapply da_moved; [done..|by etrans|by eapply same_inflow_trans].
Qed.

Lemma deposits_run_trans l l' l'' : deposits_run l l' -> deposits_run l' l'' -> deposits_run l l''.
Proof.
  intros (l1 & n1 & -> & F1) (l2 & n2 & -> & F2). apply Forall2_app_inv_l in F2 as (k1 & k2 & G1 & _ & ->).
  exists k1, (k2 ++ n2). split; [by rewrite app_assoc|]. eapply Forall2_trans; [exact advanced_trans|exact F1|exact G1].
Qed.

Lemma deposits_run_row l l' d : deposits_run l l' -> d ∈ l -> exists d', d' ∈ l' /\ deposit_advanced d d'.
Proof.
  intros (l1 & new & -> & F) (i & Hi)%list_elem_of_lookup. destruct (Forall2_lookup_l _ _ _ _ _ F Hi) as (d' & Hd' & A).
  exists d'. split; [|done]. apply elem_of_app. left. by eapply list_elem_of_lookup_2.
Qed.

(** A row depends on its own payment and attempts alone. *)
Lemma deposit_ok_same ob ob' d :
  payment_of DepositRefund (dp_id d) ob' = payment_of DepositRefund (dp_id d) ob ->
  (forall p, payment_of DepositRefund (dp_id d) ob = Some p -> of_payment (op_id p) ob' = of_payment (op_id p) ob) ->
  deposit_ok ob d -> deposit_ok ob' d.
Proof.
  intros P A [L Hp|s Hs At R]; [apply dk_legacy; [done|by rewrite P]|]. apply (dk_machine _ _ s); [done..|].
  destruct s; cbn in *; rewrite ?P; try done.
  - destruct R as (p & Hp & ? & ?). exists p. by rewrite A.
  - destruct R as (p & front & a & Hp & ? & ? & ?). exists p, front, a. by rewrite A.
  - destruct R as (p & front & a & Hp & ? & ? & ?). exists p, front, a. by rewrite A.
Qed.

Lemma deposit_ok_kept id ob ob' d :
  others_kept DepositRefund id ob ob' -> dp_id d <> id -> deposit_ok ob d -> deposit_ok ob' d.
Proof.
  intros K Hne. destruct (K DepositRefund (dp_id d) ltac:(congruence)) as [P A]. by apply deposit_ok_same.
Qed.

(** Nothing another component does reaches the machine. *)
Lemma dsound_aside w w' : aside w w' -> dsound w -> dsound w'.
Proof.
  intros [Dp Su P A] [D1 D2 D3 D4 D5]. split; rewrite ?Dp; try done.
  - eapply Forall_impl; [exact D3|]. intros d. apply deposit_ok_same; [apply P|apply A].
  - by rewrite Su.
  - intros id Hn. rewrite P. by apply D5.
Qed.

Lemma suspense_sum_app l1 l2 : suspense_sum (l1 ++ l2) = suspense_sum l1 + suspense_sum l2.
Proof. unfold suspense_sum. by rewrite map_app, zsum_app. Qed.

Lemma dworked_start w d : wsound w -> dsound w -> d ∈ wd_deposits w -> exists l1 l2, dworked l1 l2 d d 0 w w.
Proof.
  intros S D Hd. destruct (table_split _ _ D Hd) as (l1 & l2 & E & Ha). exists l1, l2.
  split; try done; [apply S|apply S|lia|apply S|apply afar_refl, S].
Qed.

Lemma dworked_elsewhere l1 l2 d0 d1 x w w' : dworked l1 l2 d0 d1 x w w' -> elsewhere w w'.
Proof.
  intros []. split; try done; intros id; destruct (dw_others0 WithdrawalSubject id ltac:(done)) as [P A]; [done|apply A].
Qed.

Lemma dworked_finish l1 l2 d0 d1 x w w' :
  dsound w -> dworked l1 l2 d0 d1 x w w' -> deposit_ok (wd_outbound w') d1 -> deposit_advanced d0 d1 ->
  x = in_suspense d1 - in_suspense d0 -> dmoves w w'.
Proof.
  intros D K Hk Ha Hx. pose proof (dworked_elsewhere _ _ _ _ _ _ _ K) as He. destruct K as [_ _ _ _ Hs _ Ho Eb Hap Ea Hsm _].
  destruct Hsm as (Hid & _ & Hsig & _).
  assert (Ei : map dp_id (wd_deposits w') = map dp_id (wd_deposits w)) by (rewrite Ea, Eb, !map_app; cbn; congruence).
  assert (Es : map dp_chain_sig (wd_deposits w') = map dp_chain_sig (wd_deposits w))
    by (rewrite Ea, Eb, !map_app; cbn; congruence).
  split; [split|done|..].
  - rewrite Ei. apply D.
  - rewrite Es. apply D.
  - pose proof (ds_rows _ D) as Hr. rewrite Eb, Forall_app, Forall_cons in Hr. rewrite Ea, Forall_app, Forall_cons.
    destruct Hr as (R1 & _ & R2). apply Forall_app in Hap as [H1 H2]. rewrite Forall_forall in R1, R2, H1, H2.
    split_and!; [|done|]; apply Forall_forall; intros e Hin; eapply deposit_ok_kept; eauto.
  - rewrite Hs, (ds_suspense _ D), Ea, Eb, !suspense_sum_app, Hx. unfold suspense_sum. cbn. lia.
  - intros id Hn. rewrite Ei in Hn. assert (Hne : id <> dp_id d0).
    { intros ->. apply Hn. rewrite Eb, map_app. cbn. set_solver. }
    destruct (Ho DepositRefund id ltac:(congruence)) as [-> _]. by apply D.
  - exists (l1 ++ d1 :: l2), []. rewrite app_nil_r, Ea, Eb. split; [done|].
    apply Forall2_app; [apply advanced_refl|]. constructor; [done|apply advanced_refl].
  - intros d Hd Hn. destruct Hn. rewrite <- Es. by apply list_elem_of_fmap_2.
Qed.

Lemma dworked_steady l1 l2 d0 d1 x w w1 w2 :
  dworked l1 l2 d0 d1 x w w1 -> steady w1 w2 -> dworked l1 l2 d0 d1 x w w2.
Proof.
  intros [] [R' O' D' F' E' A'].
  split; try done; [congruence|auto|by rewrite E'|by rewrite E'|by rewrite E'|by rewrite O'|by rewrite O'|congruence|].
  eapply afar_trans; eauto.
Qed.

Lemma dworked_outbound l1 l2 d0 d1 x w w1 ob :
  dworked l1 l2 d0 d1 x w w1 -> outbound_wf ob -> others_kept DepositRefund (dp_id d0) (wd_outbound w1) ob ->
  dworked l1 l2 d0 d1 x w (set_outbound ob w1).
Proof. intros [] W' K'. split; try done. by eapply others_trans. Qed.

Lemma dmoves_steady w w' : wsound w -> dsound w -> steady w w' -> dmoves w w'.
Proof.
  intros S [D1 D2 D3 D4 D5] [R O D F E A]. split.
  - split; rewrite ?D, ?O; try done. rewrite E by (done || apply S). done.
  - split; try done; rewrite ?O; try done; [apply A, S|apply E; [done|apply S]| |apply S].
    rewrite E by (done || apply S). apply S.
  - rewrite D. apply deposits_run_refl.
  - intros d Hd Hn. destruct Hn. rewrite <- D. by apply list_elem_of_fmap_2.
Qed.

Lemma dmoves_refl w : wsound w -> dsound w -> dmoves w w.
Proof. intros. by apply dmoves_steady; [..|apply steady_refl]. Qed.

(** ** Lemmas: writes of the row *)

Lemma advance_worked l1 l2 d0 d1 x from to w w1 w2 :
  dworked l1 l2 d0 d1 x w w1 -> advance_deposit (dp_id d0) from to w1 = Ok w2 ->
  legal_rel from to /\ deposit_state_text d1 = deposit_status_name from /\
  dworked l1 l2 d0 (with_deposit_status (deposit_status_name to) d1) x w w2 /\ wd_outbound w2 = wd_outbound w1 /\
  wd_db w2 = wd_db w1.
Proof.
  intros K Hr. unfold advance_deposit in Hr. apply bind_Ok in Hr as ([hit w3] & Hc%map_err_Ok & Hr).
  destruct hit; [|done]. injection Hr as <-. unfold cas_deposit_status in Hc.
  destruct (negb _) eqn:Hl in Hc; [done|]. apply negb_false_iff in Hl. pose proof (dw_same _ _ _ _ _ _ _ K) as Hsm.
  apply (update_deposit_Ok _ _ _ _ _ l1 d1 l2) in Hc as (Ht & _ & ->); [|apply K| |apply Hsm].
  - apply bool_decide_eq_true in Ht. split_and!; try done. destruct K. split; try done.
  - destruct Hsm as (-> & _). apply K.
Qed.

Lemma admitted_worked l1 l2 d0 d1 x t w w1 w2 :
  dworked l1 l2 d0 d1 x w w1 -> mark_admitted (dp_id d0) t w1 = Ok w2 ->
  dworked l1 l2 d0 (with_admit t d1) x w w2 /\ wd_outbound w2 = wd_outbound w1 /\ wd_db w2 = wd_db w1 /\
  unclosed d1 = true.
Proof.
  intros K Hr. unfold mark_admitted in Hr. apply bind_Ok in Hr as ([hit w3] & Hc & Hr). destruct hit; [|done].
  injection Hr as <-. pose proof (dw_same _ _ _ _ _ _ _ K) as Hsm.
  apply (update_deposit_Ok _ _ _ _ _ l1 d1 l2) in Hc as (Ht & _ & ->); [|apply K| |apply Hsm].
  - split_and!; try done. destruct K. split; try done.
  - destruct Hsm as (-> & _). apply K.
Qed.

Lemma refunded_worked l1 l2 d0 d1 x t w w1 w2 :
  dworked l1 l2 d0 d1 x w w1 -> mark_refunded (dp_id d0) t w1 = Ok w2 ->
  dworked l1 l2 d0 (with_refund t d1) x w w2 /\ wd_outbound w2 = wd_outbound w1 /\ wd_db w2 = wd_db w1 /\
  unclosed d1 = true.
Proof.
  intros K Hr. unfold mark_refunded in Hr. apply bind_Ok in Hr as ([hit w3] & Hc & Hr). destruct hit; [|done].
  injection Hr as <-. pose proof (dw_same _ _ _ _ _ _ _ K) as Hsm.
  apply (update_deposit_Ok _ _ _ _ _ l1 d1 l2) in Hc as (Ht & _ & ->); [|apply K| |apply Hsm].
  - split_and!; try done. destruct K. split; try done.
  - destruct Hsm as (-> & _). apply K.
Qed.

(** ** Lemmas: the ledger *)

Section InflowLemmas.
Context `{UuidText} `{HashMapOrder} (sha256 : string -> list Z) (time_json : Z -> Value).

Lemma post_deposit_Ok ids from to kind amount key w t w' :
  pg_wf (wd_ledger w) -> 0 < amount -> in_ty I64 amount ->
  post_deposit ids from to kind amount key w = Ok (t, w') ->
  exists led', w' = set_wledger led' w /\ extends (wd_ledger w) led' /\ txn_by_key (wd_ledger w) key = None /\
    (forall o c, held led' o c = held (wd_ledger w) o c +
       posted_to o c [mkPosting 0 from Usdc (- amount); mkPosting 0 to Usdc amount]).
Proof.
  intros W Hpos Hty Hr. unfold post_deposit in Hr. apply bind_Ok in Hr as ([l1 a] & Ha%map_err_Ok & Hr).
  apply bind_Ok in Hr as ([l2 b] & Hb%map_err_Ok & Hr).
  apply bind_Ok in Hr as (debit & [-> Hd]%arith_Ok & Hr). apply bind_Ok in Hr as ([l3 t'] & Ht%map_err_Ok & [= <- <-]).
  pose proof (account_txns _ _ _ _ _ _ Ha) as T1. pose proof (account_txns _ _ _ _ _ _ Hb) as T2.
  apply account_held in Ha as (X1 & O1 & E1); [|done]. apply account_held in Hb as (X2 & O2 & E2); [|eauto with ledger].
  pose proof (apply_key_new _ _ _ _ _ _ _ Ht) as Hk.
  apply (apply_held _ _ _ _ [mkPosting a from Usdc (- amount); mkPosting b to Usdc amount]) in Ht as (X3 & E3);
    [|eauto with ledger|posting_side|posting_side; ty|unfold zlen; cbn; lia].
  exists l3. split_and!; [done|eauto with ledger| |].
  - unfold txn_by_key in *. by rewrite <- T1, <- T2.
  - intros o c. rewrite E3, E2, E1. done.
Qed.

(** Money leaves suspense for a user or for the chain. *)
Definition payee (o : OwnerRef) : Prop := (exists u, o = Ref.User u) \/ o = Ref.External.

Lemma paid_worked l1 l2 d0 d1 x ids to kind amount key t w w1 w2 :
  dworked l1 l2 d0 d1 x w w1 -> payee to -> 0 < amount -> in_ty I64 amount ->
  post_deposit ids Ref.DepositSuspense to kind amount key w1 = Ok (t, w2) ->
  dworked l1 l2 d0 d1 (x - amount) w w2 /\ wd_outbound w2 = wd_outbound w1 /\
  (forall o c, held (wd_ledger w2) o c = held (wd_ledger w1) o c +
     posted_to o c [mkPosting 0 Ref.DepositSuspense Usdc (- amount); mkPosting 0 to Usdc amount]).
Proof.
  intros [R F S W E O K B P A M Af] Hto Hpos Hty Hr. apply post_deposit_Ok in Hr as (led & -> & X & _ & Hh); [|apply F|done..].
  split_and!; [|done|exact Hh]. split; try done.
  - split; [apply X|apply F].
  - change (wd_ledger (set_wledger led w1)) with led. rewrite Hh. destruct Hto as [[u ->] | ->]; posted_simpl; ty.
  - change (wd_ledger (set_wledger led w1)) with led. rewrite Hh, W. destruct Hto as [[u ->] | ->]; posted_simpl; lia.
  - change (wd_ledger (set_wledger led w1)) with led. rewrite Hh, E. destruct Hto as [[u ->] | ->]; posted_simpl; lia.
  - eapply afar_trans; [exact Af|]. apply afar_extends; [exact X|]. intros m c. fold (wd_ledger w1). rewrite Hh.
    destruct Hto as [[u ->] | ->]; posted_simpl; lia.
Qed.

Lemma collect_from_steady fresh user now key w c w' :
  funds_wf (td_funds (wd_db w)) -> collect_from fresh user now key w = Ok (c, w') -> steady w w'.
Proof.
  intros F Hr. unfold collect_from in Hr. apply bind_Ok in Hr as ([r f] & Hc & [= _ <-]).
  apply convert_then_collect_calm in Hc; [|done]. by apply set_funds_steady.
Qed.

Lemma deposit_decision_still d w w' : deposit_decision d w = Ok w' -> still w w'.
Proof. unfold deposit_decision. intros (c & _ & [= <-])%bind_Ok. still_done. Qed.

Lemma deposit_event_still k id p w : still w (deposit_event k id p w).
Proof. still_done. Qed.

Lemma deposit_audit_still actor row o t c w : still w (insert_deposit_audit actor row o t c w).
Proof. apply withdraw_audit_still. Qed.

Lemma evaluate_deposit_still fresh id user source amount at_ w b w' :
  evaluate_deposit_aml_candidate fresh id user source amount at_ w = Ok (b, w') -> still w w'.
Proof.
  unfold evaluate_deposit_aml_candidate. intros (bound & _ & Hr)%bind_Ok. destruct (_ || _) in Hr; [done|].
  apply bind_Ok in Hr as ([p h] & _ & Hr). apply bind_Ok in Hr as (since & _ & Hr). cbv zeta in Hr.
  apply bind_Ok in Hr as (e & _ & Hr). apply bind_Ok in Hr as (w1 & Hi & [= _ <-]). by eapply insert_flags_still.
Qed.

Lemma confirm_proposal_still p digest w w' : confirm_deposit_proposal p digest w = Ok w' -> still w w'.
Proof.
  unfold confirm_deposit_proposal. intros ([q c] & _ & Hr)%bind_Ok. apply bind_Ok in Hr as (u & _ & [= <-]). still_done.
Qed.

(** ** Lemmas: admission *)

Lemma row_status s s' d :
  row_at s d -> (is_Some (dp_admit_tx d) <-> s' = Dep.Admitted_) -> (is_Some (dp_refund_tx d) <-> s' = Dep.Refunded) ->
  row_at s' (with_deposit_status (deposit_status_name s') d).
Proof. intros [] HA HR. by split. Qed.

(** Transitions between states that end nothing. *)
Lemma row_open s s' d :
  row_at s d -> is_suspense_liability s = true -> is_suspense_liability s' = true ->
  row_at s' (with_deposit_status (deposit_status_name s') d).
Proof.
  intros A Hs Hs'. eapply row_status; [done|rewrite (ra_admit _ _ A)|rewrite (ra_refund _ _ A)];
    split; intros ->; done.
Qed.

Lemma row_unclosed s d :
  row_at s d -> is_suspense_liability s = true -> dp_admit_tx d = None /\ dp_refund_tx d = None.
Proof.
  intros A Hs. split; apply eq_None_not_Some; [rewrite (ra_admit _ _ A)|rewrite (ra_refund _ _ A)]; by intros ->.
Qed.

(** A deposit pending in the middle of a transaction. *)
Record pending (l1 l2 : list DepositRow) (d0 d1 : DepositRow) (w w1 : Wdb) : Prop := {
  pe_work : dworked l1 l2 d0 d1 0 w w1;
  pe_row : row_at Dep.AdmissionPending d1;
  pe_from : exists s, row_at s d0 /\ rtc legal_rel s Dep.AdmissionPending /\ is_suspense_liability s = true;
  pe_unpaid : payment_of DepositRefund (dp_id d0) (wd_outbound w1) = None }.

Lemma pending_steady l1 l2 d0 d1 w w1 w2 : pending l1 l2 d0 d1 w w1 -> steady w1 w2 -> pending l1 l2 d0 d1 w w2.
Proof. intros [] T. split; try done; [by eapply dworked_steady|]. by rewrite (sd_outbound _ _ T). Qed.

(** What the gate of an admission reads. *)
Record same_view (w w' : Wdb) : Prop := {
  sv_users : co_users (wd_comp w') = co_users (wd_comp w);
  sv_screenings : co_screenings (wd_comp w') = co_screenings (wd_comp w);
  sv_exclusions : co_exclusions (wd_comp w') = co_exclusions (wd_comp w);
  sv_limits : co_limits (wd_comp w') = co_limits (wd_comp w);
  sv_flags : co_flags (wd_comp w') = co_flags (wd_comp w);
  sv_entries : wd_entries w' = wd_entries w }.

Lemma same_view_refl w : same_view w w.
Proof. done. Qed.

Lemma same_view_trans w1 w2 w3 : same_view w1 w2 -> same_view w2 w3 -> same_view w1 w3.
Proof. intros [] []. split; congruence. Qed.

Lemma same_view_db w w' : wd_db w' = wd_db w -> same_view w w'.
Proof. intros E. split; unfold wd_comp, wd_entries; by rewrite E. Qed.

Lemma deposit_decision_view d w w' : deposit_decision d w = Ok w' -> same_view w w'.
Proof.
  unfold deposit_decision, insert_decision. intros (c & Hc%map_err_Ok & [= <-])%bind_Ok. destruct (existsb _ _); [done|].
  by injection Hc as <-.
Qed.

Lemma collect_from_view fresh user now key w c w' : collect_from fresh user now key w = Ok (c, w') -> same_view w w'.
Proof. unfold collect_from. by intros ([r f] & _ & [= _ <-])%bind_Ok. Qed.

Lemma deposit_audit_view actor row o t c w : same_view w (insert_deposit_audit actor row o t c w).
Proof. unfold insert_deposit_audit, audit_for. by destruct actor. Qed.

Lemma post_deposit_view ids from to kind amount key w t w' :
  post_deposit ids from to kind amount key w = Ok (t, w') -> same_view w w'.
Proof. unfold post_deposit. intros Hr. repeat (apply bind_Ok in Hr as ([? ?] & _ & Hr) || apply bind_Ok in Hr as (? & _ & Hr)). by injection Hr as _ <-. Qed.

Lemma hold_admission_Ok l1 l2 d0 d1 w w1 fresh s reason c actor now r w2 :
  pending l1 l2 d0 d1 w w1 ->
  hold_admission fresh (machine_row s d0) reason c actor now w1 = Ok (r, w2) ->
  exists d', dworked l1 l2 d0 d' 0 w w2 /\ row_at Dep.ComplianceHold d' /\ legal_rel Dep.AdmissionPending Dep.ComplianceHold /\
    payment_of DepositRefund (dp_id d0) (wd_outbound w2) = None.
Proof.
  intros [K A _ Hp] Hr. unfold hold_admission in Hr. apply bind_Ok in Hr as (w3 & Hc & Hr).
  destruct (advance_worked _ _ _ _ _ _ _ _ _ _ K Hc) as (Hl & _ & K' & Eo & _).
  apply bind_Ok in Hr as (w4 & Hd%deposit_decision_still & [= _ <-]).
  match goal with |- exists d', dworked _ _ _ _ _ _ ?x /\ _ => assert (T : still w3 x) end.
  { eauto using deposit_audit_still, deposit_event_still with payout. }
  eexists. split_and!; [eapply dworked_steady; [exact K'|by apply still_steady]|by eapply row_open|done|].
  by rewrite (sl_outbound _ _ T), Eo.
Qed.

Lemma row_admitted s t d :
  row_at s d -> is_suspense_liability s = true ->
  row_at Dep.Admitted_ (with_deposit_status (deposit_status_name Dep.Admitted_) (with_admit t d)).
Proof.
  intros A Hs. destruct (row_unclosed _ _ A Hs) as [_ Hr]. destruct A. split; try done; cbn.
  rewrite Hr. split; [by intros []|done].
Qed.

Lemma row_refunded s t d :
  row_at s d -> is_suspense_liability s = true ->
  row_at Dep.Refunded (with_deposit_status (deposit_status_name Dep.Refunded) (with_refund t d)).
Proof.
  intros A Hs. destruct (row_unclosed _ _ A Hs) as [Ha _]. destruct A. split; try done; cbn.
  rewrite Ha. split; [by intros []|done].
Qed.

Lemma credit_worked l1 l2 d0 d1 x s s0 ids user t w w1 w2 :
  dworked l1 l2 d0 d1 x w w1 -> row_at s0 d0 -> credit_user ids (machine_row s d0) user w1 = Ok (t, w2) ->
  dworked l1 l2 d0 (with_admit t d1) (x - dp_amount_micro d0) w w2 /\ wd_outbound w2 = wd_outbound w1 /\
  (forall o c, held (wd_ledger w2) o c = held (wd_ledger w1) o c +
     posted_to o c [mkPosting 0 Ref.DepositSuspense Usdc (- dp_amount_micro d0); mkPosting 0 (Ref.User user) Usdc (dp_amount_micro d0)]).
Proof.
  intros K A Hr. unfold credit_user in Hr. apply bind_Ok in Hr as ([t' w3] & Hp & Hr).
  apply bind_Ok in Hr as (w4 & Hm%map_err_Ok & [= <- <-]).
  apply (paid_worked l1 l2 d0 d1 x _ _ _ _ _ _ w) in Hp as (K1 & O1 & Hh); [|done|by left; eexists|apply A|apply A].
  apply (admitted_worked _ _ _ _ _ _ _ _ _ K1) in Hm as (K2 & O2 & E2 & _).
  split_and!; [done|by rewrite O2|]. intros o c. rewrite <- Hh. unfold wd_ledger. by rewrite E2.
Qed.

Lemma credit_view ids row user w t w' : credit_user ids row user w = Ok (t, w') -> same_view w w'.
Proof.
  unfold credit_user. intros ([t' w1] & Hp%post_deposit_view & Hr)%bind_Ok. apply bind_Ok in Hr as (w2 & Hm%map_err_Ok & [= _ <-]).
  eapply same_view_trans; [exact Hp|]. unfold mark_admitted, update_deposit in Hm. apply bind_Ok in Hm as ([hit w3] & Hu & Hm).
  cbv zeta in Hu. destruct (negb _) in Hu; [done|]. injection Hu as _ <-. destruct hit; [|done]. by injection Hm as <-.
Qed.

Lemma admit_user_Ok l1 l2 d0 d1 w w1 ids now s user pre actor r w2 :
  pending l1 l2 d0 d1 w w1 -> admit_user ids now (machine_row s d0) user pre actor w1 = Ok (r, w2) ->
  exists d', dworked l1 l2 d0 d' (- dp_amount_micro d0) w w2 /\ row_at Dep.Admitted_ d' /\
    legal_rel Dep.AdmissionPending Dep.Admitted_ /\ payment_of DepositRefund (dp_id d0) (wd_outbound w2) = None /\
    same_view w1 w2.
Proof.
  intros [K A (s0 & A0 & _) Hp] Hr. unfold admit_user in Hr. apply bind_Ok in Hr as ([t w3] & Hc & Hr).
  pose proof (credit_view _ _ _ _ _ _ Hc) as V3. destruct (credit_worked _ _ _ _ _ _ _ _ _ _ _ _ _ K A0 Hc) as (K3 & O3 & _).
  apply bind_Ok in Hr as (w4 & Hadv & Hr). destruct (advance_worked _ _ _ _ _ _ _ _ _ _ K3 Hadv) as (Hl & _ & K4 & O4 & E4).
  apply bind_Ok in Hr as (w5 & Hd & Hr). pose proof (deposit_decision_view _ _ _ Hd) as V5. apply deposit_decision_still in Hd.
  cbv zeta in Hr. apply bind_Ok in Hr as ([post w6] & Hcol & Hr). apply bind_Ok in Hr as (tot & _ & [= _ <-]).
  pose proof (dworked_steady _ _ _ _ _ _ _ _ K4 (still_steady _ _ Hd)) as K5. pose proof (collect_from_view _ _ _ _ _ _ _ Hcol) as V6.
  apply collect_from_steady in Hcol; [|apply K5].
  match goal with |- exists d', dworked _ _ _ _ _ _ ?x /\ _ => assert (T : steady w4 x) end.
  { eapply steady_trans; [by apply still_steady|]. eapply steady_trans; [|apply still_steady, deposit_audit_still].
    eapply steady_trans; [apply still_steady, deposit_event_still|exact Hcol]. }
  eexists. split_and!; [eapply dworked_steady; [exact K4|exact T]|by eapply (row_admitted _ t)|done|..].
  - by rewrite (sd_outbound _ _ T), O4, O3.
  - eapply same_view_trans; [exact V3|]. eapply same_view_trans; [by apply same_view_db|]. eapply same_view_trans; [exact V5|].
    eapply same_view_trans; [|apply deposit_audit_view]. eapply same_view_trans; [|exact V6]. done.
Qed.

(** A pending deposit that is held, or admitted through the gate. *)
Inductive settled_as (db_now now : Z) (l1 l2 : list DepositRow) (d0 : DepositRow) (w w2 : Wdb) (d' : DepositRow) : Prop :=
| sa_held : dworked l1 l2 d0 d' 0 w w2 -> row_at Dep.ComplianceHold d' ->
    legal_rel Dep.AdmissionPending Dep.ComplianceHold -> settled_as db_now now l1 l2 d0 w w2 d'
| sa_admitted user : dworked l1 l2 d0 d' (- dp_amount_micro d0) w w2 -> row_at Dep.Admitted_ d' ->
    legal_rel Dep.AdmissionPending Dep.Admitted_ -> dp_user d0 = Some user ->
    user_status (wd_comp w2) user <> Ok "banned" ->
    existsb (fun f => (fr_user f =? user)%N && bool_decide (fr_status f = "open")) (co_flags (wd_comp w2)) = false ->
    enforce_money_mutation (wd_comp w2) (wd_entries w2) db_now user DepositAdmit (dp_amount_micro d0) now = Ok tt ->
    settled_as db_now now l1 l2 d0 w w2 d'.

Lemma gate_same db_now now user kind amount w w' :
  same_view w w' ->
  enforce_money_mutation (wd_comp w') (wd_entries w') db_now user kind amount now =
    enforce_money_mutation (wd_comp w) (wd_entries w) db_now user kind amount now /\
  user_status (wd_comp w') user = user_status (wd_comp w) user.
Proof.
  intros [U S E L F C]. unfold enforce_money_mutation, gate_snapshot, user_status, user_kyc_tier, self_excluded,
    active_self_exclusion, fresh_clear, latest_screen, deposit_limit_micro. by rewrite U, S, E, L, C.
Qed.

Lemma evaluate_deposit_flags fresh id user source amount at_ w b w' :
  evaluate_deposit_aml_candidate fresh id user source amount at_ w = Ok (b, w') ->
  b = existsb (fun f => (fr_user f =? user)%N && bool_decide (fr_status f = "open")) (co_flags (wd_comp w')).
Proof.
  unfold evaluate_deposit_aml_candidate. intros (bound & _ & Hr)%bind_Ok. destruct (_ || _) in Hr; [done|].
  apply bind_Ok in Hr as ([p h] & _ & Hr). apply bind_Ok in Hr as (since & _ & Hr). cbv zeta in Hr.
  apply bind_Ok in Hr as (e & _ & Hr). by apply bind_Ok in Hr as (w1 & _ & [= <- <-]).
Qed.

Lemma admit_pending_Ok l1 l2 d0 d1 w w1 ids db_now now actor s r w2 :
  pending l1 l2 d0 d1 w w1 -> admit_pending ids db_now now actor (machine_row s d0) w1 = Ok (r, w2) ->
  payment_of DepositRefund (dp_id d0) (wd_outbound w2) = None /\ exists d', settled_as db_now now l1 l2 d0 w w2 d'.
Proof.
  intros P Hr. assert (Hhold : forall w1 reason c, pending l1 l2 d0 d1 w w1 ->
    hold_admission (ai_decision ids) (machine_row s d0) reason c actor now w1 = Ok (r, w2) ->
    payment_of DepositRefund (dp_id d0) (wd_outbound w2) = None /\ exists d', settled_as db_now now l1 l2 d0 w w2 d').
  { intros w3 reason c P3 Hh. destruct (hold_admission_Ok _ _ _ _ _ _ _ _ _ _ _ _ _ _ P3 Hh) as (d' & K & A & L & N).
    split; [done|]. exists d'. by apply sa_held. }
  unfold admit_pending in Hr. change (dm_user (machine_row s d0)) with (dp_user d0) in Hr.
  destruct (dp_user d0) as [user|] eqn:Hu; [|by eapply Hhold].
  apply bind_Ok in Hr as ([flagged w3] & Hf%map_err_Ok & Hr). pose proof (evaluate_deposit_flags _ _ _ _ _ _ _ _ _ Hf) as Hfl.
  apply evaluate_deposit_still, still_steady in Hf. pose proof (pending_steady _ _ _ _ _ _ _ P Hf) as P3.
  destruct flagged; [by eapply Hhold|].
  apply bind_Ok in Hr as ([pre w4] & Hc & Hr). pose proof (collect_from_view _ _ _ _ _ _ _ Hc) as V4.
  apply collect_from_steady in Hc; [|apply P3]. pose proof (pending_steady _ _ _ _ _ _ _ P3 Hc) as P4.
  unfold admission_gate in Hr. apply bind_Ok in Hr as (gate & Hg & Hr). apply bind_Ok in Hg as (status & Hst%map_err_Ok & [= <-]).
  case_bool_decide as Hb; [cbn in Hr; by eapply Hhold|].
  destruct (enforce_money_mutation _ _ _ _ _ _ _) as [[]|e|] eqn:He; [| |done].
  - destruct (admit_user_Ok _ _ _ _ _ _ _ _ _ _ _ _ _ _ P4 Hr) as (d' & K & A & L & N & V). split; [done|]. exists d'.
    destruct (gate_same db_now now user DepositAdmit (dp_amount_micro d0) _ _ V) as [G U].
    eapply (sa_admitted _ _ _ _ _ _ _ _ user); try done; [by rewrite U, Hst; intros [=]| |by rewrite G].
    rewrite (sv_flags _ _ V), (sv_flags _ _ V4). by symmetry.
  - destruct (admission_hold_reason e); [by eapply Hhold|done].
Qed.

Lemma admit_pending_moves l1 l2 d0 d1 w w1 ids db_now now actor s r w2 :
  dsound w -> pending l1 l2 d0 d1 w w1 -> admit_pending ids db_now now actor (machine_row s d0) w1 = Ok (r, w2) -> dmoves w w2.
Proof.
  intros D P Hr. destruct (admit_pending_Ok _ _ _ _ _ _ _ _ _ _ _ _ _ P Hr) as (N & d' & Hs).
  destruct P as [_ _ (s0 & A0 & R0 & L0) _].
  assert (Hend : forall x s', dworked l1 l2 d0 d' x w w2 -> row_at s' d' -> legal_rel Dep.AdmissionPending s' ->
    refund_ok (wd_outbound w2) d' s' -> s' <> Dep.AdmittedLegacy -> x = in_suspense d' - in_suspense d0 -> dmoves w w2).
  { intros x s' K A L R Hl Hx. eapply dworked_finish; [done|exact K|by eapply dk_machine| |done].
    eapply da_moved; [exact A0|exact A|by eapply tc_rtc_l; [|apply tc_once]|apply K]. }
  destruct Hs as [K A L|user K A L _ _ _ _]; pose proof (dw_same _ _ _ _ _ _ _ K) as (Hid & _ & _ & Ham & _);
    (eapply Hend; [exact K|exact A|exact L|cbn; by rewrite Hid|done|]);
    rewrite (row_at_suspense _ _ A), (row_at_suspense _ _ A0), L0; cbn; lia.
Qed.

Lemma advance_pending l1 l2 d0 s w w1 :
  dworked l1 l2 d0 d0 0 w w -> row_at s d0 -> refund_ok (wd_outbound w) d0 s -> is_suspense_liability s = true ->
  advance_deposit (dp_id d0) s Dep.AdmissionPending w = Ok w1 ->
  exists d1, pending l1 l2 d0 d1 w w1.
Proof.
  intros K A R L Hr. apply (advance_worked l1 l2 d0 d0 0 _ _ w) in Hr as (Hl & _ & K' & O & _); [|done].
  eexists. split; [exact K'|by eapply row_open| |].
  - exists s. split_and!; [done|by apply rtc_once|done].
  - rewrite O. by destruct s.
Qed.

Lemma admit_observed_moves ids db_now now sig actor reevaluate w :
  wsound w -> dsound w -> dmoves w (admit_observed ids db_now now sig actor reevaluate w).2.
Proof.
  intros S D. apply (atomic_cases w _ (dmoves w)); [by apply dmoves_refl|]. intros r w' Hr.
  destruct (_ && _) in Hr; [done|]. apply bind_Ok in Hr as (found & Hf%map_err_Ok & Hr).
  apply bind_Ok in Hr as (row & Hrow%ok_or_Ok & Hr). subst found.
  apply by_sig_Ok in Hf as (s & d & Hd & _ & -> & Hs); [|done].
  destruct (dworked_start _ _ S D Hd) as (l1 & l2 & K). cbn [dm_status machine_row] in Hr.
  assert (Hopen : forall w', is_suspense_liability s = true -> s <> Dep.AdmissionPending ->
    (w1 ← advance_deposit (dm_id (machine_row s d)) s Dep.AdmissionPending w;
     admit_pending ids db_now now actor (machine_row s d) w1) = Ok (r, w') -> dmoves w w').
  { intros w2 L _ (w1 & Ha & Hp)%bind_Ok. destruct Hs as [->|[A R]]; [done|].
    destruct (advance_pending l1 l2 d s w w1 K A R L Ha) as (d1 & P). by eapply admit_pending_moves. }
  destruct s; try done; try (injection Hr as _ <-; by apply dmoves_refl).
  - by apply Hopen.
  - destruct Hs as [|[A R]]; [done|]. eapply (admit_pending_moves l1 l2 d d); [done| |exact Hr]. split; try done. by exists Dep.AdmissionPending.
  - destruct (negb reevaluate); [injection Hr as _ <-; by apply dmoves_refl|]. by apply Hopen.
Qed.

(** An admission that is not a replay. *)
Lemma admit_observed_Ok ids db_now now actor reevaluate s d w r w' :
  wsound w -> dsound w -> d ∈ wd_deposits w -> row_at s d -> is_suspense_liability s = true ->
  admit_observed ids db_now now (dp_chain_sig d) actor reevaluate w = (Ok r, w') -> dr_replayed r = false ->
  exists l1 l2 d', settled_as db_now now l1 l2 d w w' d'.
Proof.
  intros S D Hd A L Hr Hn. assert (R : refund_ok (wd_outbound w) d s) by (apply ok_at; [done..|by destruct s]).
  unfold admit_observed in Hr. apply atomic_answer in Hr. destruct (_ && _) in Hr; [done|].
  rewrite (by_sig_at w s d D Hd A) in Hr. cbn [store map_err mbind outcome_bind ok_or dm_status machine_row] in Hr.
  destruct (dworked_start _ _ S D Hd) as (l1 & l2 & K). exists l1, l2.
  assert (Hopen : (w1 ← advance_deposit (dm_id (machine_row s d)) s Dep.AdmissionPending w;
     admit_pending ids db_now now actor (machine_row s d) w1) = Ok (r, w') -> exists d', settled_as db_now now l1 l2 d w w' d').
  { intros (w1 & Ha & Hp)%bind_Ok. destruct (advance_pending l1 l2 d s w w1 K A R L Ha) as (d1 & P).
    by apply (admit_pending_Ok _ _ _ _ _ _ _ _ _ _ _ _ _ P Hp). }
  destruct s; try done.
  - by apply Hopen.
  - eapply (admit_pending_Ok l1 l2 d d); [|exact Hr]. split; try done. by exists Dep.AdmissionPending.
  - destruct (negb reevaluate); [by injection Hr as <- _|]. by apply Hopen.
Qed.

(** ** Lemmas: observation *)

Lemma observe_deposit_Ok fresh db_now o t rail w id w' :
  observe_deposit fresh db_now o t rail w = Ok (id, w') ->
  id = fresh /\ fresh ∉ map dp_id (wd_deposits w) /\ od_chain_sig o ∉ map dp_chain_sig (wd_deposits w) /\
  w' = set_deposits (wd_deposits w ++ [mkDeposit fresh (od_user o) (od_chain_sig o) (od_amount o) "observed_finalized"
    (Some (od_source_address o)) (Some (od_dest_address o)) (Some (od_mint o)) (Some rail) (Some (od_slot o)) (Some t)
    None None (Some "observed_finalized") db_now]) w.
Proof.
  unfold observe_deposit. cbv zeta. destruct (existsb (fun e => (dp_id e =? fresh)%N) _) eqn:E1; [done|].
  destruct (existsb (fun e => bool_decide (dp_chain_sig e = _)) _) eqn:E2; [done|]. destruct (negb (deposit_check _)); [done|].
  destruct (match od_user o with Some _ => _ | None => _ end); [done|]. intros [= <- <-].
  apply existsb_false in E1, E2. rewrite Forall_forall in E1, E2.
  split_and!; [done| | |done]; intros (d & E & Hd)%list_elem_of_fmap; [specialize (E1 d Hd)|specialize (E2 d Hd)]; cbn beta in *.
  - apply N.eqb_neq in E1. congruence.
  - apply bool_decide_eq_false in E2. congruence.
Qed.

(** The row an observation inserts. *)
Definition observed_row (fresh : N) (db_now : Z) (o : ObservedDeposit) (rail : string) (t : N) : DepositRow :=
  mkDeposit fresh (od_user o) (od_chain_sig o) (od_amount o) "observed_finalized" (Some (od_source_address o))
    (Some (od_dest_address o)) (Some (od_mint o)) (Some rail) (Some (od_slot o)) (Some t) None None
    (Some "observed_finalized") db_now.

Lemma observed_at fresh db_now o rail t :
  0 < od_amount o -> in_ty I64 (od_amount o) -> rail <> "" ->
  row_at Dep.ObservedFinalized (observed_row fresh db_now o rail t).
Proof. intros. split; try done; cbn; [by exists rail|..]; (split; [by intros []|done]). Qed.

(** What a first observation writes. *)
Lemma observe_Ok ids db_now o rail w r w' :
  pg_wf (wd_ledger w) -> in_ty I64 (od_amount o) ->
  observe_finalized_on_rail ids db_now o rail w = (Ok r, w') -> or_replayed r = false ->
  0 < od_amount o /\ rail <> "" /\ oi_deposit ids ∉ map dp_id (wd_deposits w) /\
  od_chain_sig o ∉ map dp_chain_sig (wd_deposits w) /\ or_deposit_id r = oi_deposit ids /\
  exists led w1, w1 = set_deposits (wd_deposits w ++ [observed_row (oi_deposit ids) db_now o rail (or_suspense_tx r)])
      (set_wledger led w) /\ still w1 w' /\
    extends (wd_ledger w) led /\ txn_by_key (wd_ledger w) (observe_key (od_chain_sig o)) = None /\
    (forall o' c, held led o' c = held (wd_ledger w) o' c +
       posted_to o' c [mkPosting 0 Ref.External Usdc (- od_amount o); mkPosting 0 Ref.DepositSuspense Usdc (od_amount o)]).
Proof.
  intros W Hty Hr Hn. unfold observe_finalized_on_rail in Hr. apply atomic_answer in Hr.
  apply bind_Ok in Hr as (u & Hv%map_err_Ok & Hr). unfold empty_text in Hr. case_bool_decide as He; [done|].
  unfold validate_observation in Hv. destruct (_ <=? 0) eqn:Hpos in Hv; [done|]. apply Z.leb_gt in Hpos.
  apply bind_Ok in Hr as (found & _ & Hr). destruct found as [e|].
  { destruct (negb _) in Hr; [done|]. apply bind_Ok in Hr as (t & _ & [= <- _]). done. }
  apply bind_Ok in Hr as ([t w1] & Hp & Hr). apply bind_Ok in Hr as ([id w2] & Ho%map_err_Ok & [= <- <-]).
  apply post_deposit_Ok in Hp as (led & -> & X & Hk & Hh); [|done..].
  apply observe_deposit_Ok in Ho as (-> & Hi & Hs & ->). cbn in Hi, Hs.
  split_and!; try done. exists led. eexists. split_and!; [reflexivity|apply deposit_event_still|done..].
Qed.

Lemma observe_moves ids db_now o rail w :
  let w' := (observe_finalized_on_rail ids db_now o rail w).2 in
  wsound w -> dsound w -> in_ty I64 (od_amount o) -> imin I64 < held (wd_ledger w') Ref.External Usdc -> dmoves w w'.
Proof.
  cbv zeta. intros S D Hty Hsup. destruct (observe_finalized_on_rail _ _ _ _ _) as [ans w'] eqn:E. cbn in *.
  destruct ans as [r|e|]; [|apply atomic_refused in E as ->; [by apply dmoves_refl|done]..].
  destruct (or_replayed r) eqn:Hn.
  { unfold observe_finalized_on_rail in E. apply atomic_answer in E. apply bind_Ok in E as (u & _ & E).
    destruct (empty_text rail); [done|]. apply bind_Ok in E as (found & _ & E). destruct found.
    - destruct (negb _) in E; [done|]. apply bind_Ok in E as (t & _ & [= _ <-]). by apply dmoves_refl.
    - do 2 (apply bind_Ok in E as ([? ?] & _ & E)). by injection E as <- _. }
  apply observe_Ok in E as (Hpos & Hrail & Hi & Hs & _ & led & w1 & -> & T & X & Hkey & Hh); [|apply S|done..].
  set (d := observed_row _ _ _ _ _) in *. pose proof (observed_at (oi_deposit ids) db_now o rail (or_suspense_tx r) Hpos Hty Hrail) as A.
  fold d in A. pose proof (still_ledger _ _ T) as L. change (wd_ledger (set_deposits _ _)) with led in L.
  rewrite L in Hsup. split.
  - split; rewrite ?(sl_deposits _ _ T), ?(sl_outbound _ _ T), ?L; cbn [wd_deposits set_deposits].
    + rewrite map_app. apply NoDup_snoc; [apply D|done].
    + rewrite map_app. apply NoDup_snoc; [apply D|done].
    + apply Forall_app. split; [apply D|]. apply Forall_singleton. eapply dk_machine; [..|exact A|]; [done|]. cbn. by apply D.
    + rewrite Hh, (ds_suspense _ D), suspense_sum_app. change (suspense_sum [d]) with (in_suspense d + 0).
      rewrite (row_at_suspense _ _ A). cbn. posted_simpl. lia.
    + intros id. rewrite map_app. intros Hn'. apply D. set_solver.
  - split; rewrite ?(sl_rows _ _ T), ?(sl_outbound _ _ T), ?L; try done; [|rewrite Hh; posted_simpl; lia|apply S].
    eapply afar_trans; [|apply still_steady, sd_afar in T; [exact T|split; [apply X|apply S]]]. cbn.
    apply afar_extends; [exact X|]. intros m c. fold (wd_ledger w). rewrite Hh. posted_simpl. lia.
  - rewrite (sl_deposits _ _ T). cbn. exists (wd_deposits w), [d]. split; [done|apply advanced_refl].
  - intros e. rewrite (sl_deposits _ _ T). cbn [wd_deposits set_deposits]. intros [He|He]%elem_of_app Hnew.
    + destruct Hnew. by apply list_elem_of_fmap_2.
    + by apply list_elem_of_singleton in He as ->.
Qed.

(** ** Lemmas: dual control *)

Lemma propose_moves fresh now deposit refund reason actor w :
  wsound w -> dsound w -> dmoves w (propose_deposit_command sha256 fresh now deposit refund reason actor w).2.
Proof.
  intros S D. apply (atomic_cases w _ (dmoves w)); [by apply dmoves_refl|]. intros r w' Hr.
  apply bind_Ok in Hr as ([digest role] & _ & Hr). apply bind_Ok in Hr as (? & _ & Hr). destruct (blank reason); [done|].
  cbv zeta in Hr. apply bind_Ok in Hr as (found & _ & Hr). apply bind_Ok in Hr as (row & _ & Hr).
  apply bind_Ok in Hr as (? & _ & Hr). destruct (proposal_by_replay _ _).
  - destruct (_ || _) in Hr; [done|]. injection Hr as _ <-. by apply dmoves_refl.
  - apply bind_Ok in Hr as (c & _ & [= _ <-]). apply dmoves_steady; [done..|]. by apply still_steady.
Qed.

Lemma ensure_status_Ok row s message u : ensure_status row s message = Ok u -> dm_status row = s.
Proof. unfold ensure_status. destruct (negb _) eqn:E; [done|]. intros _. by apply negb_false_iff, bool_decide_eq_true in E. Qed.

(** What a confirmation has checked. *)
Record confirmed_by (kind : string) (now : Z) (actor : AdminContext) (w : Wdb) (digest : string) (p : MoneyProposal)
    (d : DepositRow) : Prop := {
  cf_actor : actor = Admin digest Superadmin;
  cf_stored : p ∈ co_proposals (wd_comp w);
  cf_pending : mp_status p = Pending;
  cf_distinct : mp_proposer_token_id p <> digest;
  cf_kind : mp_kind p = kind;
  cf_window : mp_confirm_not_before p <= now <= mp_expires_at p;
  cf_subject : mp_subject_id p = dp_id d;
  cf_bound : mp_payload_hash p = payload_hash sha256 (deposit_command_payload kind (machine_row Dep.ComplianceHold d)) }.

Lemma confirmable_Ok proposal_id kind message now actor w digest role p row :
  dsound w -> confirmable sha256 proposal_id kind message now actor w = Ok (digest, role, p, row) ->
  exists d, d ∈ wd_deposits w /\ row = machine_row Dep.ComplianceHold d /\ row_at Dep.ComplianceHold d /\
    payment_of DepositRefund (dp_id d) (wd_outbound w) = None /\ role = Superadmin /\ mp_id p = proposal_id /\
    confirmed_by kind now actor w digest p d.
Proof.
  intros D Hr. unfold confirmable in Hr. apply bind_Ok in Hr as ([dg rl] & Ha%require_admin_Ok & Hr).
  apply bind_Ok in Hr as ([] & Hrole%require_role_Ok & Hr). apply bind_Ok in Hr as (q & Hq%map_err_Ok & Hr).
  apply bind_Ok in Hr as (? & Hv & Hr). apply bind_Ok in Hr as (found & Hf%map_err_Ok & Hr).
  apply bind_Ok in Hr as (rw & Hrw%ok_or_Ok & Hr). subst found. apply bind_Ok in Hr as (? & Hp & Hr).
  apply bind_Ok in Hr as (? & Hs%ensure_status_Ok & [= <- <- <- <-]).
  apply list_elem_of_singleton in Hrole as ->. unfold proposal_by_id in Hq. apply ok_or_Ok, find_by in Hq as [Hq Hid%N.eqb_eq].
  apply by_id_Ok in Hf as (s & d & Hd & Hsub & -> & Hk); [|done]. cbn in Hs. subst s. destruct Hk as [|[A R]]; [done|].
  unfold validate_deposit_proposal in Hv. apply bind_Ok in Hv as ([] & Hdist%require_distinct_Ok & Hv).
  destruct (negb _) eqn:E1 in Hv; [done|]. destruct (negb _) eqn:E2 in Hv; [done|]. destruct (_ || _) eqn:E3 in Hv; [done|].
  unfold validate_deposit_proposal_payload in Hp. destruct (_ || _) eqn:E4 in Hp; [done|]. bool_hyps.
  rewrite ?bool_decide_eq_true in *. exists d. split_and!; try done. split; try done; [lia|congruence].
Qed.

(** A confirmed manual admission: who confirmed what, and the row it admits. *)
Lemma confirm_admission_Ok ids now proposal_id actor w r w' :
  wsound w -> dsound w -> confirm_manual_deposit_admission sha256 ids now proposal_id actor w = (Ok r, w') ->
  exists l1 l2 d d' digest p user, dworked l1 l2 d d' (- dp_amount_micro d) w w' /\ row_at Dep.ComplianceHold d /\
    row_at Dep.Admitted_ d' /\ dp_user d = Some user /\ mp_id p = proposal_id /\
    confirmed_by MANUAL_DEPOSIT_ADMIT now actor w digest p d /\
    payment_of DepositRefund (dp_id d') (wd_outbound w') = None.
Proof.
  intros S D Hr. apply atomic_answer in Hr. apply bind_Ok in Hr as ([[[digest role] p] row] & Hc & Hr).
  apply confirmable_Ok in Hc as (d & Hd & -> & A & Hn & _ & Hid & Hby); [|done].
  destruct (dworked_start _ _ S D Hd) as (l1 & l2 & K).
  apply bind_Ok in Hr as (user & Hu%ok_or_Ok & Hr). apply bind_Ok in Hr as ([pre w1] & Hpre & Hr).
  apply collect_from_steady in Hpre; [|apply S]. pose proof (dworked_steady _ _ _ _ _ _ _ _ K Hpre) as K1.
  apply bind_Ok in Hr as ([t w2] & Hcr & Hr). apply (credit_worked _ _ _ _ _ _ _ _ _ _ _ _ _ K1 A) in Hcr as (K2 & O2 & _).
  apply bind_Ok in Hr as (w3 & Hadv & Hr). apply (advance_worked _ _ _ _ _ _ _ _ _ _ K2) in Hadv as (Hl & _ & K3 & O3 & _).
  apply bind_Ok in Hr as ([post w4] & Hpost & Hr). apply collect_from_steady in Hpost; [|apply K3].
  apply bind_Ok in Hr as (tot & _ & Hr). apply bind_Ok in Hr as (w5 & T5%confirm_proposal_still & Hr).
  apply bind_Ok in Hr as (w6 & T6%deposit_decision_still & Hr). cbv zeta in Hr. injection Hr as _ <-.
  match goal with |- context [dworked _ _ _ _ _ w ?x] => assert (T : steady w3 x) end.
  { eapply steady_trans; [exact Hpost|]. apply still_steady. eapply still_trans; [exact T5|]. eapply still_trans; [exact T6|].
    still_done. }
  do 7 eexists. split; [eapply dworked_steady; [exact K3|exact T]|].
  split_and!; [exact A|exact (row_admitted _ t _ A eq_refl)|exact Hu|exact Hid|exact Hby|].
  rewrite (sd_outbound _ _ T), O3, O2. cbn [dp_id with_deposit_status with_admit]. by rewrite (sd_outbound _ _ Hpre).
Qed.

Lemma confirm_admission_moves ids now proposal_id actor w :
  wsound w -> dsound w -> dmoves w (confirm_manual_deposit_admission sha256 ids now proposal_id actor w).2.
Proof.
  intros S D. destruct (confirm_manual_deposit_admission _ _ _ _ _ _) as [ans w'] eqn:E. cbn.
  destruct ans as [r|e|]; [|apply atomic_refused in E as ->; [by apply dmoves_refl|done]..].
  apply confirm_admission_Ok in E as (l1 & l2 & d & d' & digest & p & user & K & A & A' & _ & _ & _ & Hn); [|done..].
  eapply dworked_finish; [done|exact K|..].
  - by eapply dk_machine; [..|exact A'|].
  - eapply da_moved; [exact A|exact A'|by apply tc_once|apply K].
  - rewrite (row_at_suspense _ _ A'), (row_at_suspense _ _ A). cbn. lia.
Qed.

Lemma refund_clear_steady ids now row w w' :
  funds_wf (td_funds (wd_db w)) -> refund_clear ids now row w = Ok w' -> steady w w'.
Proof.
  intros F. unfold refund_clear. destruct (dm_user row); [|intros [= <-]; apply steady_refl].
  intros ([c w1] & Hc & Hr)%bind_Ok. apply collect_from_steady in Hc; [|done]. apply bind_Ok in Hr as (? & _ & Hr).
  destruct (_ || _) in Hr; [done|]. by injection Hr as <-.
Qed.

(** A confirmed refund: who confirmed what, and the payment it creates. *)
Lemma confirm_refund_Ok ids now proposal_id actor w r w' :
  wsound w -> dsound w -> confirm_deposit_refund sha256 ids now proposal_id actor w = (Ok r, w') ->
  exists l1 l2 d d' digest p q, dworked l1 l2 d d' 0 w w' /\ row_at Dep.ComplianceHold d /\ row_at Dep.RefundApproved d' /\
    mp_id p = proposal_id /\ confirmed_by DEPOSIT_REFUND now actor w digest p d /\
    payment_of DepositRefund (dp_id d) (wd_outbound w) = None /\
    payment_of DepositRefund (dp_id d) (wd_outbound w') = Some q /\ source_locked d q /\ of_payment (op_id q) (wd_outbound w') = [] /\
    r = mkRefundReceipt (dp_id d) (op_id q) (op_dest q) false.
Proof.
  intros S D Hr. apply atomic_answer in Hr. apply bind_Ok in Hr as ([[[digest role] p] row] & Hc & Hr).
  apply confirmable_Ok in Hc as (d & Hd & -> & A & Hn & _ & Hid & Hby); [|done].
  destruct (dworked_start _ _ S D Hd) as (l1 & l2 & K).
  apply bind_Ok in Hr as (w1 & Hpre & Hr). apply refund_clear_steady in Hpre; [|apply S].
  pose proof (dworked_steady _ _ _ _ _ _ _ _ K Hpre) as K1.
  apply bind_Ok in Hr as (w2 & Hadv & Hr). apply (advance_worked _ _ _ _ _ _ _ _ _ _ K1) in Hadv as (Hl & _ & K2 & O2 & _).
  cbv zeta in Hr. apply bind_Ok in Hr as (ob & Hi%map_err_Ok & Hr).
  apply (pay_subject DepositRefund (dp_id d)) in Hi as (W & Ko & Hp & Hof); [|apply K2|done|done].
  pose proof (dworked_outbound _ _ _ _ _ _ _ _ K2 W Ko) as K3.
  apply bind_Ok in Hr as (w4 & T4%confirm_proposal_still & Hr). apply bind_Ok in Hr as (w5 & T5%deposit_decision_still & Hr).
  injection Hr as <- <-.
  match goal with |- context [dworked _ _ _ _ _ w ?x] => assert (T : still (set_outbound ob w2) x) end.
  { eapply still_trans; [exact T4|]. eapply still_trans; [exact T5|].
    still_done. }
  destruct (ra_source _ _ A) as [src Es], (ra_rail _ _ A) as (rail & Er & _).
  do 7 eexists. split; [eapply dworked_steady; [exact K3|by apply still_steady]|]. rewrite (sl_outbound _ _ T).
  split_and!; [exact A|exact (row_open _ Dep.RefundApproved _ A eq_refl eq_refl)|exact Hid|exact Hby|exact Hn|exact Hp
    | |exact Hof|done].
  split_and!; cbn; [by rewrite Es|done|by rewrite Er].
Qed.

Lemma confirm_refund_moves ids now proposal_id actor w :
  wsound w -> dsound w -> dmoves w (confirm_deposit_refund sha256 ids now proposal_id actor w).2.
Proof.
  intros S D. destruct (confirm_deposit_refund _ _ _ _ _ _) as [ans w'] eqn:E. cbn.
  destruct ans as [r|e|]; [|apply atomic_refused in E as ->; [by apply dmoves_refl|done]..].
  apply confirm_refund_Ok in E as (l1 & l2 & d & d' & digest & p & q & K & A & A' & _ & _ & _ & Hp & Hs & Hof & _); [|done..].
  eapply dworked_finish; [done|exact K|..].
  - eapply dk_machine; [..|exact A'|]; [done|]. pose proof (dw_same _ _ _ _ _ _ _ K) as M.
    cbn [refund_ok]. exists q. unfold source_locked in *. destruct M as (-> & _ & _ & -> & -> & _ & _ & -> & _). done.
  - eapply da_moved; [exact A|exact A'|by apply tc_once|apply K].
  - rewrite (row_at_suspense _ _ A'), (row_at_suspense _ _ A). cbn. pose proof (dw_same _ _ _ _ _ _ _ K) as M.
    destruct M as (_ & _ & _ & -> & _). lia.
Qed.

(** ** Lemmas: refunds *)

Lemma deposit_row_Ok sig w row :
  dsound w -> deposit_row sig w = Ok row ->
  exists s d, d ∈ wd_deposits w /\ dp_chain_sig d = sig /\ row = machine_row s d /\
    (s = Dep.AdmittedLegacy \/ row_at s d /\ refund_ok (wd_outbound w) d s).
Proof.
  intros D. unfold deposit_row. intros (found & Hf%map_err_Ok & ->%ok_or_Ok)%bind_Ok. by apply by_sig_Ok.
Qed.

(** The payment read back. *)
Definition refund_of (q : OutboundPaymentRow) : DepositRefundPayment :=
  mkRefundPayment (op_id q) (op_subject_id q) (op_dest q) (op_amount_micro q) (op_rail_fingerprint q).

Lemma checked_refund_Ok s d w p :
  checked_refund_payment (machine_row s d) w = Ok p ->
  exists q, payment_of DepositRefund (dp_id d) (wd_outbound w) = Some q /\ p = refund_of q.
Proof.
  unfold checked_refund_payment. intros (p' & Hp%ok_or_Ok & Hr)%bind_Ok. destruct (_ || _) in Hr; [done|].
  injection Hr as <-. unfold refund_payment_for_deposit in Hp. apply fmap_Some in Hp as (q & Hq & ->). by exists q.
Qed.

(** A refund under way, with its last attempt. *)
Record sending (w : Wdb) (d : DepositRow) (q : OutboundPaymentRow) (front : list OutboundAttemptRow)
    (a : OutboundAttemptRow) : Prop := {
  se_row : row_at Dep.RefundSending d;
  se_payment : payment_of DepositRefund (dp_id d) (wd_outbound w) = Some q;
  se_locked : source_locked d q;
  se_last : of_payment (op_id q) (wd_outbound w) = front ++ [a];
  se_live : landing_live (at_landing a) = true }.

Lemma refund_live_Ok q message w b :
  outbound_wf (wd_outbound w) -> refund_live_attempt (refund_of q) message w = Ok b ->
  landing_live (at_landing b) = true /\ exists front, of_payment (op_id q) (wd_outbound w) = front ++ [b].
Proof.
  intros W. unfold refund_live_attempt. intros (o & Ho%map_err_Ok & ->%ok_or_Ok)%bind_Ok.
  apply live_attempt_Ok in Ho as (Hl & _ & _ & front & E & _); [|done]. split; [done|by exists front].
Qed.

Lemma sending_attempt s d q message w b :
  outbound_wf (wd_outbound w) -> s = Dep.RefundSending -> row_at s d -> refund_ok (wd_outbound w) d s ->
  payment_of DepositRefund (dp_id d) (wd_outbound w) = Some q ->
  refund_live_attempt (refund_of q) message w = Ok b -> exists front, sending w d q front b.
Proof.
  intros W -> A (q' & front & a & Hq & Hl & E & Hlive) Hq' (Hb & front' & E')%refund_live_Ok; [|done].
  assert (q' = q) as -> by congruence. exists front'. by split.
Qed.

Lemma stored_worked l1 l2 d0 d1 x w w1 w2 q front a b :
  dworked l1 l2 d0 d1 x w w1 -> payment_of DepositRefund (dp_id d0) (wd_outbound w1) = Some q ->
  of_payment (op_id q) (wd_outbound w1) = front ++ [a] -> at_id b = at_id a -> at_payment b = at_payment a ->
  store_attempt b w1 = Ok w2 ->
  dworked l1 l2 d0 d1 x w w2 /\ payment_of DepositRefund (dp_id d0) (wd_outbound w2) = Some q /\
  of_payment (op_id q) (wd_outbound w2) = front ++ [b] /\ wd_db w2 = wd_db w1 /\
  legal_attempt_edge (at_landing a) (at_landing b) = true.
Proof.
  intros K Hq E Hid Hpay Hr. unfold store_attempt in Hr. apply bind_Ok in Hr as (ob & Hs%map_err_Ok & [= <-]).
  apply (save_subject DepositRefund (dp_id d0) _ _ q front a) in Hs as (W' & Ko & P & L & He); [|apply K|done..].
  split_and!; [by apply dworked_outbound|done..].
Qed.

(** The refund stays under way. *)
Lemma still_sending l1 l2 d w w' q front a :
  dsound w -> dworked l1 l2 d d 0 w w' -> row_at Dep.RefundSending d -> source_locked d q ->
  payment_of DepositRefund (dp_id d) (wd_outbound w') = Some q ->
  of_payment (op_id q) (wd_outbound w') = front ++ [a] -> landing_live (at_landing a) = true -> dmoves w w'.
Proof.
  intros D K A Hl Hq E Hlive. eapply dworked_finish; [done|exact K|..|lia]; [|constructor].
  eapply dk_machine; [..|exact A|]; [done|]. by exists q, front, a.
Qed.

Lemma store_sending w d q front a b w' :
  wsound w -> dsound w -> d ∈ wd_deposits w -> sending w d q front a -> store_attempt b w = Ok w' ->
  at_id b = at_id a -> at_payment b = at_payment a -> landing_live (at_landing b) = true -> dmoves w w'.
Proof.
  intros S D Hd [A Hq Hl E _] Hs Hid Hpay Hlive. destruct (dworked_start _ _ S D Hd) as (l1 & l2 & K).
  eapply stored_worked in Hs as (K' & Hq' & E' & _); [|exact K|exact Hq|exact E|done..]. by eapply still_sending.
Qed.

Lemma resume_refund_moves signer now d q w stage w' :
  wsound w -> dsound w -> d ∈ wd_deposits w -> row_at Dep.RefundSending d ->
  refund_ok (wd_outbound w) d Dep.RefundSending -> payment_of DepositRefund (dp_id d) (wd_outbound w) = Some q ->
  resume_refund signer now (machine_row Dep.RefundSending d) (refund_of q) w = Ok (stage, w') -> dmoves w w'.
Proof.
  intros S D Hd A R Hq Hr. unfold resume_refund in Hr. apply bind_Ok in Hr as (b & Hb & Hr).
  apply (sending_attempt Dep.RefundSending d) in Hb as (front & Hse); [|apply S|done..]. cbv zeta in Hr.
  assert (Hsave : forall s st, landing_live s = true ->
    (w ← store_attempt (with_landing s b) w; Ok (st, w)) = Ok (stage, w') -> dmoves w w').
  { intros s st Hs (w1 & H1 & [= _ <-])%bind_Ok. by eapply store_sending. }
  destruct (at_landing b); try done.
  - apply bind_Ok in Hr as (lease & _ & Hr). destruct (now <? lease); [done|].
    destruct (presence_of _ _); [|destruct (height_at_most _ _)|]; try (eapply Hsave; [|exact Hr]; done).
    injection Hr as _ <-. by apply dmoves_refl.
  - injection Hr as _ <-. by apply dmoves_refl.
  - apply bind_Ok in Hr as (h & _ & Hr). destruct (_ >? _); [done|]. injection Hr as _ <-. by apply dmoves_refl.
Qed.

Lemma refund_claim_moves fresh signer now d q w rail stage w' rail' :
  wsound w -> dsound w -> d ∈ wd_deposits w -> row_at Dep.RefundApproved d ->
  refund_ok (wd_outbound w) d Dep.RefundApproved -> payment_of DepositRefund (dp_id d) (wd_outbound w) = Some q ->
  refund_claim fresh signer now (machine_row Dep.RefundApproved d) (refund_of q) w rail = (Ok (stage, w'), rail') ->
  dmoves w w'.
Proof.
  intros S D Hd A (q' & Hq' & Hl & E) Hq Hr. assert (q' = q) as -> by congruence. unfold refund_claim in Hr.
  destruct (dworked_start _ _ S D Hd) as (l1 & l2 & K).
  destruct (refund_prepare _ _ _ _ _) as [[a w1]| |] eqn:Hp; [|done..]. apply with_rail_Ok in Hr. unfold refund_prepare in Hp.
  apply bind_Ok in Hp as (atts & _ & Hp). destruct (negb _) in Hp; [done|].
  apply bind_Ok in Hp as ([[bytes sig] last] & _ & Hp). apply bind_Ok in Hp as (lease & _ & Hp). cbv zeta in Hp.
  apply bind_Ok in Hp as (ob & Hi%map_err_Ok & [= <- <-]).
  apply (insert_subject DepositRefund (dp_id d) _ _ q) in Hi as (W' & Ko & P & L & _); [|apply S|done|done].
  pose proof (dworked_outbound _ _ _ _ _ _ _ _ K W' Ko) as K1.
  apply bind_Ok in Hr as (w2 & Hadv & [= _ <-]).
  destruct (advance_worked _ _ _ _ _ _ _ _ _ _ K1 Hadv) as (Hle & _ & K2 & O2 & _).
  pose proof (row_open _ Dep.RefundSending _ A eq_refl eq_refl) as A'.
  eapply dworked_finish; [done|eapply dworked_steady; [exact K2|apply still_steady, deposit_event_still]|..].
  - eapply dk_machine; [..|exact A'|]; [done|]. cbn [refund_ok]. change (wd_outbound (deposit_event _ _ _ w2)) with (wd_outbound w2).
    rewrite O2. exists q, []. eexists. split_and!; [exact P|exact Hl|rewrite E in L; exact L|done].
  - eapply da_moved; [exact A|exact A'|by apply tc_once|apply K2].
  - rewrite (row_at_suspense _ _ A'), (row_at_suspense _ _ A). cbn. lia.
Qed.

Lemma begin_refund_moves fresh signer now sig w rail :
  wsound w -> dsound w -> dmoves w (begin_refund_send fresh signer now sig w rail).1.2.
Proof.
  intros S D. unfold begin_refund_send. destruct (refund_under_way sig w) as [[row p]| |] eqn:Hu; [|by apply dmoves_refl..].
  unfold refund_under_way in Hu. apply bind_Ok in Hu as (row' & Hrow & Hu). destruct (negb _) eqn:Hst in Hu; [done|].
  apply negb_false_iff, bool_decide_eq_true in Hst. apply bind_Ok in Hu as (p' & Hp%map_err_Ok & [= <- <-]).
  apply deposit_row_Ok in Hrow as (s & d & Hd & _ & -> & Hs); [|done]. apply checked_refund_Ok in Hp as (q & Hq & ->).
  cbn [dm_status machine_row].
  assert (Hclaim : s <> Dep.RefundSending -> s <> Dep.Refunded -> dmoves w (let '(m, rail1) := refund_claim fresh signer now (machine_row s d) (refund_of q) w rail in
    (atomic w m, rail1)).1.2).
  { intros H1 H2. destruct (refund_claim _ _ _ _ _ _ _) as [m rail1] eqn:Hc. cbn [fst snd].
    apply (atomic_cases w _ (dmoves w)); [by apply dmoves_refl|]. intros st w' ->.
    assert (s = Dep.RefundApproved) as -> by (cbn in Hst; set_solver).
    destruct Hs as [|[A R]]; [done|]. by eapply refund_claim_moves. }
  destruct s; try (by apply Hclaim); cbn [fst snd]; apply (atomic_cases w _ (dmoves w)); try (by apply dmoves_refl); intros st w' Hr.
  - destruct Hs as [|[A R]]; [done|]. by eapply resume_refund_moves.
  - unfold refunded_already in Hr. apply bind_Ok in Hr as (atts & _ & Hr). destruct (negb _) in Hr; [done|].
    injection Hr as _ <-. by apply dmoves_refl.
Qed.

Lemma refund_replace_checks_Ok identity signer now sig observations w row p atts old verdict :
  wsound w -> dsound w ->
  refund_replace_checks time_json identity signer now sig observations w = Ok (row, p, atts, old, verdict) ->
  exists d q front a, d ∈ wd_deposits w /\ row = machine_row Dep.RefundSending d /\ p = refund_of q /\
    sending w d q front a /\ at_id old = at_id a /\ at_payment old = at_payment a /\ at_landing old = at_landing a.
Proof.
  intros S D Hr. unfold refund_replace_checks in Hr. apply bind_Ok in Hr as (rw & Hrow & Hr).
  apply bind_Ok in Hr as (? & Hst%ensure_status_Ok & Hr). apply bind_Ok in Hr as (pp & Hp%map_err_Ok & Hr).
  destruct (negb _) in Hr; [done|]. apply bind_Ok in Hr as (ats & _ & Hr). apply bind_Ok in Hr as (b & Hb & Hr).
  apply bind_Ok in Hr as (? & _ & Hr). apply bind_Ok in Hr as (h & _ & Hr). destruct (_ <=? _) in Hr; [done|].
  cbv zeta in Hr. injection Hr as <- <- <- <- <-.
  apply deposit_row_Ok in Hrow as (s & d & Hd & _ & -> & Hs); [|done]. cbn in Hst. subst s. destruct Hs as [|[A R]]; [done|].
  apply checked_refund_Ok in Hp as (q & Hq & ->).
  destruct (sending_attempt Dep.RefundSending d q _ w b (ws_outbound _ S) eq_refl A R Hq Hb) as (front & Hse).
  by exists d, q, front, b.
Qed.

Lemma replace_refund_moves fresh identity signer now sig observations w rail :
  wsound w -> dsound w -> dmoves w (replace_expired_refund time_json fresh identity signer now sig observations w rail).1.2.
Proof.
  intros S D. unfold replace_expired_refund.
  destruct (refund_replace_checks _ _ _ _ _ _ _) as [[[[[row p] atts] old] verdict]| |] eqn:Hc; [|by apply dmoves_refl..].
  apply refund_replace_checks_Ok in Hc as (d & q & front & a & Hd & -> & -> & Hse & Hid & Hpay & Hl); [|done..].
  case_bool_decide as Hv; cbn [negb fst snd].
  - destruct (refund_replace_prepare _ _ _ _ _ _ _) as [[b w1]| |] eqn:Hp; [|by apply dmoves_refl..].
    destruct (with_rail _ _ _ _) as [m rail'] eqn:Hw. cbn [fst snd].
    apply (atomic_cases w _ (dmoves w)); [by apply dmoves_refl|]. intros st w' ->. apply with_rail_Ok in Hw. injection Hw as _ <-.
    destruct Hse as [A Hq Hlk E _]. destruct (dworked_start _ _ S D Hd) as (l1 & l2 & K).
    unfold refund_replace_prepare in Hp. apply bind_Ok in Hp as (w2 & Hs & Hp).
    destruct (stored_worked _ _ _ _ _ _ _ _ q front a (with_landing Landing.DefinitiveFailed old) K Hq E Hid Hpay Hs)
      as (K2 & Hq2 & E2 & _).
    apply bind_Ok in Hp as ([[bytes sg] last] & _ & Hp). destruct (existsb _ _); [done|].
    apply bind_Ok in Hp as (lease & _ & Hp). cbv zeta in Hp. apply bind_Ok in Hp as (ob & Hi%map_err_Ok & [= <- <-]).
    apply (insert_subject DepositRefund (dp_id d) _ _ q) in Hi as (W' & Ko & P & L & _); [|apply K2|done|done].
    pose proof (dworked_outbound _ _ _ _ _ _ _ _ K2 W' Ko) as K3.
    eapply still_sending; [done|eapply dworked_steady; [exact K3|apply still_steady, deposit_event_still]|done|done|..].
    + exact P.
    + exact L.
    + done.
  - apply (atomic_cases w _ (dmoves w)); [by apply dmoves_refl|]. intros st w' Hr.
    apply bind_Ok in Hr as (w1 & Hs & [= _ <-]). eapply store_sending; [done..|exact Hse|exact Hs|done|done|].
    rewrite Hl. apply Hse.
Qed.

Lemma mark_broadcast_moves sig w : wsound w -> dsound w -> dmoves w (mark_refund_broadcast sig w).2.
Proof.
  intros S D. apply (atomic_cases w _ (dmoves w)); [by apply dmoves_refl|]. intros u w' Hr.
  apply bind_Ok in Hr as (row & Hrow & Hr). apply bind_Ok in Hr as (? & Hst%ensure_status_Ok & Hr).
  apply bind_Ok in Hr as (p & Hp%map_err_Ok & Hr). apply bind_Ok in Hr as (b & Hb & Hr).
  apply deposit_row_Ok in Hrow as (s & d & Hd & _ & -> & Hs); [|done]. cbn in Hst. subst s. destruct Hs as [|[A R]]; [done|].
  apply checked_refund_Ok in Hp as (q & Hq & ->).
  destruct (sending_attempt Dep.RefundSending d q _ w b (ws_outbound _ S) eq_refl A R Hq Hb) as (front & Hse).
  case_bool_decide; [injection Hr as _ <-; by apply dmoves_refl|]. destruct (negb _) in Hr; [done|].
  apply bind_Ok in Hr as (w1 & Hsv & [= _ <-]). by eapply store_sending.
Qed.

Lemma after_refund_moves identity rpc sig stage w rail :
  wsound w -> dsound w -> dmoves w (after_refund_commit identity rpc sig stage w rail).1.2.
Proof.
  intros S D. pose proof (mark_broadcast_moves sig w S D) as Hm. pose proof (dmoves_refl w S D) as Hrefl.
  assert (Hmark : forall r rail, dmoves w (marked sig r w rail).1.2).
  { intros r rl. unfold marked. by destruct (mark_refund_broadcast sig w) as [[] w1]. }
  unfold after_refund_commit. destruct stage as [r| |p r|p a mark r]; try done.
  - by destruct (broadcast _ _ _ _).
  - destruct (same_bytes_rebroadcast _ _ _ _ _) as [[] rl]; [destruct mark|..]; done.
Qed.

Lemma refund_attempt_Ok identity receipt s d w p a :
  outbound_wf (wd_outbound w) -> refund_attempt identity receipt (machine_row s d) w = Ok (p, a) ->
  exists q, payment_of DepositRefund (dp_id d) (wd_outbound w) = Some q /\ p = refund_of q /\
    a ∈ of_payment (op_id q) (wd_outbound w) /\ verify_chain_receipt identity (refund_outbound (machine_row s d) p) a receipt = Ok tt.
Proof.
  intros W. unfold refund_attempt. intros (p' & (q & Hq & ->)%map_err_Ok%checked_refund_Ok & Hr)%bind_Ok.
  destruct (negb _) in Hr; [done|]. apply bind_Ok in Hr as (ats & Ha%map_err_Ok & Hr).
  apply bind_Ok in Hr as (b & Hb%ok_or_Ok & Hr). apply bind_Ok in Hr as ([] & Hv%map_err_Ok%map_err_Ok & [= <- <-]).
  change (rp_id (refund_of q)) with (op_id q) in Ha. rewrite attempts_for_Ok in Ha by done. injection Ha as <-.
  apply find_by in Hb as [Hb _]. by exists q.
Qed.

Lemma settle_refund_moves ids identity now sig receipt w :
  wsound w -> dsound w -> dmoves w (settle_refund time_json ids identity now sig receipt w).2.
Proof.
  intros S D. apply (atomic_cases w _ (dmoves w)); [by apply dmoves_refl|]. intros r w' Hr.
  apply bind_Ok in Hr as (row & Hrow & Hr). apply bind_Ok in Hr as ([p b] & Hat & Hr).
  apply deposit_row_Ok in Hrow as (s & d & Hd & _ & -> & Hs); [|done].
  apply refund_attempt_Ok in Hat as (q & Hq & -> & Hb & _); [|apply S].
  case_bool_decide; [apply bind_Ok in Hr as (? & _ & Hr); apply bind_Ok in Hr as (? & _ & [= _ <-]); by apply dmoves_refl|].
  apply bind_Ok in Hr as (? & Hst%ensure_status_Ok & Hr). cbn in Hst. subst s. destruct Hs as [|[A R]]; [done|].
  destruct (negb _) eqn:Hlive in Hr; [done|]. apply negb_false_iff in Hlive.
  destruct R as (q' & front & a & Hq' & Hlk & E & _). assert (q' = q) as -> by congruence.
  assert (b = a) as ->.
  { destruct (lineage_last _ _ (ow_lineage _ (ws_outbound _ S) (op_id q)) Hb) as (front' & E' & _); [by apply is_live_not_failed|].
    rewrite E in E'. by apply app_inj_tail in E' as [_ ->]. }
  destruct (dworked_start _ _ S D Hd) as (l1 & l2 & K). apply bind_Ok in Hr as (w1 & Hsv & Hr).
  eapply stored_worked in Hsv as (K1 & Hq1 & E1 & _); [|exact K|exact Hq|exact E|done..].
  apply bind_Ok in Hr as ([t w2] & Hp & Hr). change (dm_amount (machine_row _ d)) with (dp_amount_micro d) in Hp.
  destruct (paid_worked _ _ _ _ _ _ _ _ _ _ _ _ _ _ K1 (or_intror eq_refl) (ra_amount _ _ A) (ra_range _ _ A) Hp) as (K2 & O2 & _).
  apply bind_Ok in Hr as (w3 & Hm%map_err_Ok & Hr). destruct (refunded_worked _ _ _ _ _ _ _ _ _ K2 Hm) as (K3 & O3 & _).
  apply bind_Ok in Hr as (w4 & Hadv & Hr). destruct (advance_worked _ _ _ _ _ _ _ _ _ _ K3 Hadv) as (Hle & _ & K4 & O4 & _).
  apply bind_Ok in Hr as (w5 & T5%deposit_decision_still & [= _ <-]).
  match goal with |- dmoves w ?x => assert (T : still w4 x) by (eapply still_trans; [exact T5|still_done]) end.
  pose proof (row_refunded _ t _ A eq_refl) as A'.
  eapply dworked_finish; [done|eapply dworked_steady; [exact K4|by apply still_steady]|..].
  - eapply dk_machine; [..|exact A'|]; [done|]. cbn [refund_ok]. rewrite (sl_outbound _ _ T), O4, O3, O2.
    exists q, front. eexists. split_and!; [exact Hq1|done|exact E1|done].
  - eapply da_moved; [exact A|exact A'|by apply tc_once|apply K4].
  - rewrite (row_at_suspense _ _ A'), (row_at_suspense _ _ A). cbn. lia.
Qed.
End InflowLemmas.
