(* ===== verification/Treasury.v ===== *)
(** * Treasury: markets, withdrawals and deposits in one machine

    Every committed transaction of the market use cases, of the withdrawal use
    cases and of the deposit use cases, in any order, and any change elsewhere.
    The money in suspense is the sum of the deposits that are neither admitted
    nor refunded, a deposit ends once, and its row moves along the legal
    transitions only. *)

From S2P Require Import Prelude Money Amm Ledger Market Resolution Economy Integrity Chars Errors Credits PgLedger Json Config Fences ConfigStore Compliance Collect Postings Book Vote Trade Referrals Resolve Settlement Lifecycle System Outbound Withdraw Payout Disburse Deposits Inflow.
#[local] Open Scope string_scope.
#[local] Open Scope list_scope.
#[local] Open Scope Z_scope.

(** ** The machine *)

(** No withdrawal was ever requested, and every deposit predates the machine. *)
Record opening (w : Wdb) : Prop := {
  og_idle : idle w;
  og_ids : NoDup (map dp_id (wd_deposits w));
  og_sigs : NoDup (map dp_chain_sig (wd_deposits w));
  og_legacy : Forall before_machine (wd_deposits w);
  og_refunds : forall id, payment_of DepositRefund id (wd_outbound w) = None;
  og_suspense : held (wd_ledger w) Ref.DepositSuspense Usdc = 0 }.

Section Treasury.
Context `{UuidText} `{HashMapOrder}.
Context (collate : string -> string -> bool) (rep_config : RepConfig) (lp_config : LpKillConfig)
  (vote_config : VoteIntegrityConfig) (oi_floor : Z) (sweep_config : IntegritySweepConfig)
  (crash_point : outcome StoreError unit) (time_json : Z -> Value) (sha256 : string -> list Z)
  (to_string : Value -> string) (from_str : string -> option Value) (uuid_parse : string -> option N).

(** A transaction of a deposit use case.  An observed amount is an [i64], and the
    money in the system stays below 2^63 - 1 micro-dollars. *)
Inductive deposit_tx : Wdb -> Wdb -> Prop :=
| dt_observe ids db_now o rail w :
    in_ty I64 (od_amount o) ->
    imin I64 < held (wd_ledger (observe_finalized_on_rail ids db_now o rail w).2) Ref.External Usdc ->
    deposit_tx w (observe_finalized_on_rail ids db_now o rail w).2
| dt_admit ids db_now now sig actor reevaluate w :
    deposit_tx w (admit_observed ids db_now now sig actor reevaluate w).2
| dt_propose fresh now deposit refund reason actor w :
    deposit_tx w (propose_deposit_command sha256 fresh now deposit refund reason actor w).2
| dt_confirm_admission ids now proposal_id actor w :
    deposit_tx w (confirm_manual_deposit_admission sha256 ids now proposal_id actor w).2
| dt_confirm_refund ids now proposal_id actor w :
    deposit_tx w (confirm_deposit_refund sha256 ids now proposal_id actor w).2
| dt_begin fresh signer now sig w rail :
    deposit_tx w (begin_refund_send fresh signer now sig w rail).1.2
| dt_replace fresh identity signer now sig observations w rail :
    deposit_tx w (replace_expired_refund time_json fresh identity signer now sig observations w rail).1.2
| dt_after_commit identity rpc sig stage w rail :
    deposit_tx w (after_refund_commit identity rpc sig stage w rail).1.2
| dt_settle ids identity now sig receipt w :
    deposit_tx w (settle_refund time_json ids identity now sig receipt w).2.

Inductive treasury : Wdb -> Wdb -> Prop :=
| tr_market w db' :
    step collate rep_config lp_config vote_config oi_floor sweep_config crash_point time_json (wd_db w) db' ->
    imin I64 < held (fu_ledger (td_funds db')) Ref.External Usdc -> treasury w (set_db db' w)
| tr_elsewhere w w' : elsewhere w w' -> aside w w' -> treasury w w'
| tr_withdrawal w w' :
    withdrawal_tx time_json sha256 to_string from_str uuid_parse w w' -> treasury w w'
| tr_deposit w w' : deposit_tx w w' -> treasury w w'.

(** ** Lemmas *)

Lemma deposit_moves w w' : deposit_tx w w' -> wsound w -> dsound w -> dmoves w w'.
Proof.
  intros Ht S D. destruct Ht.
  - by apply observe_moves.
  - by apply admit_observed_moves.
  - by apply propose_moves.
  - by apply confirm_admission_moves.
  - by apply confirm_refund_moves.
  - by apply begin_refund_moves.
  - by apply replace_refund_moves.
  - by apply after_refund_moves.
  - by apply settle_refund_moves.
Qed.

Lemma market_aside w db' :
  rep_typed rep_config -> sound (wd_db w) ->
  step collate rep_config lp_config vote_config oi_floor sweep_config crash_point time_json (wd_db w) db' ->
  aside w (set_db db' w).
Proof.
  intros Hrep S Hs. split; try done. unfold wd_ledger. cbn.
  by destruct (step_reserved _ _ _ _ _ _ _ _ _ _ Hrep Hs S) as [_ ->].
Qed.

(** Each step is one that markets and withdrawals allow, and what it does to
    the deposits. *)
Lemma treasury_cases w w' :
  rep_typed rep_config -> treasury w w' -> sound (wd_db w) -> wsound w -> dsound w ->
  machine collate rep_config lp_config vote_config oi_floor sweep_config crash_point time_json sha256 to_string from_str
    uuid_parse w w' /\ (aside w w' \/ dmoves w w').
Proof.
  intros Hrep Ht S W D. destruct Ht as [w db' Hs Hsup|w w' He Ha|w w' Hm|w w' Hd].
  - split; [by apply mc_market|left; by apply market_aside].
  - split; [by apply mc_elsewhere|by left].
  - split; [by apply mc_withdrawal|left]. by eapply mv_aside, withdrawal_moves.
  - pose proof (deposit_moves _ _ Hd W D) as M. split; [apply mc_elsewhere, M|by right].
Qed.

Lemma treasury_keeps w w' :
  rep_typed rep_config -> treasury w w' -> sound (wd_db w) -> wsound w -> dsound w ->
  sound (wd_db w') /\ wsound w' /\ dsound w' /\ deposits_run (wd_deposits w) (wd_deposits w').
Proof.
  intros Hrep Ht S W D. destruct (treasury_cases _ _ Hrep Ht S W D) as [Hm Hc].
  destruct (machine_keeps _ _ _ _ _ _ _ _ _ _ _ _ _ _ Hrep Hm S W) as [[S' W'] _]. split_and!; [done..| |].
  - destruct Hc as [Ha|Ha]; [by eapply dsound_aside|apply Ha].
  - destruct Hc as [Ha|Ha]; [|apply Ha]. rewrite (as_deposits _ _ Ha). apply deposits_run_refl.
Qed.

Lemma treasury_run w w' :
  rep_typed rep_config -> rtc treasury w w' -> sound (wd_db w) -> wsound w -> dsound w ->
  sound (wd_db w') /\ wsound w' /\ dsound w' /\ deposits_run (wd_deposits w) (wd_deposits w').
Proof.
  intros Hrep. induction 1 as [w|w w1 w2 Hs _ IH]; intros S W D; [split_and!; [done..|apply deposits_run_refl]|].
  destruct (treasury_keeps _ _ Hrep Hs S W D) as (S1 & W1 & D1 & R1). destruct (IH S1 W1 D1) as (S2 & W2 & D2 & R2).
  split_and!; [done..|]. by eapply deposits_run_trans.
Qed.

(** A key in the ledger stays there, and a signature whose key is taken by
    another transaction gets no row. *)
Lemma treasury_key w w' sig t :
  rep_typed rep_config -> rtc treasury w w' -> sound (wd_db w) -> wsound w -> dsound w ->
  txn_by_key (wd_ledger w) (observe_key sig) = Some t -> sig ∉ map dp_chain_sig (wd_deposits w) ->
  txn_by_key (wd_ledger w') (observe_key sig) = Some t /\ sig ∉ map dp_chain_sig (wd_deposits w').
Proof.
  intros Hrep. induction 1 as [w|w w1 w2 Hs _ IH]; intros S W D Hk Hn; [done|].
  destruct (treasury_keeps _ _ Hrep Hs S W D) as (S1 & W1 & D1 & _).
  destruct (treasury_cases _ _ Hrep Hs S W D) as [Hm Hc]. apply IH; [done..|by eapply machine_key|].
  destruct Hc as [Ha|Ha]; [by rewrite (as_deposits _ _ Ha)|]. intros (d & -> & Hd)%list_elem_of_fmap.
  pose proof (dv_new _ _ Ha d Hd Hn). congruence.
Qed.
End Treasury.

Lemma opening_sound w : opening w -> sound (wd_db w) /\ wsound w /\ dsound w.
Proof.
  intros [I O1 O2 O3 O4 O5]. split_and!; [apply I|by apply idle_sound|]. split; try done.
  - eapply Forall_impl; [exact O3|]. intros d Hd. by apply dk_legacy.
  - rewrite O5. unfold suspense_sum. symmetry. apply zsum_none. intros d Hd. rewrite Forall_forall in O3.
    unfold in_suspense. by destruct (O3 d Hd) as [-> _].
Qed.

(** The attempts of a deposit's refund. *)
Definition refund_attempts (w : Wdb) (id : N) : list OutboundAttemptRow :=
  match payment_of DepositRefund id (wd_outbound w) with
  | Some p => of_payment (op_id p) (wd_outbound w)
  | None => []
  end.

Lemma refund_front w q front a :
  wsound w -> of_payment (op_id q) (wd_outbound w) = front ++ [a] -> Forall disproved front.
Proof.
  intros S E. pose proof (ow_lineage _ (ws_outbound _ S) (op_id q)) as L. rewrite E in L.
  inversion L as [E'|l b ? Hl ? ? E']; [by destruct front|]. by apply app_inj_tail in E' as [-> ->].
Qed.

(** A refund lands at most once. *)
Lemma refund_lands_once w d :
  wsound w -> deposit_ok (wd_outbound w) d -> (length (List.filter can_land (refund_attempts w (dp_id d))) <= 1)%nat.
Proof.
  intros S Hk. unfold refund_attempts.
  assert (Hone : forall q front a, of_payment (op_id q) (wd_outbound w) = front ++ [a] ->
    (length (List.filter can_land (of_payment (op_id q) (wd_outbound w))) <= 1)%nat).
  { intros q front a E. pose proof (refund_front w q front a S E) as [Hf _]%disproved_none. rewrite E, List.filter_app, Hf.
    cbn. destruct (can_land a); cbn; lia. }
  destruct Hk as [_ ->|s _ _ R]; [cbn; lia|]. destruct s; cbn in R; try (rewrite R; cbn; lia).
  - destruct R as (q & -> & _ & ->). cbn. lia.
  - destruct R as (q & front & a & -> & _ & E & _). by eapply Hone.
  - destruct R as (q & front & a & -> & _ & E & _). by eapply Hone.
Qed.

(** What stands in a row that was admitted or refunded. *)
Lemma deposit_ends w d :
  wsound w -> deposit_ok (wd_outbound w) d ->
  (is_Some (dp_admit_tx d) -> dp_refund_tx d = None /\ payment_of DepositRefund (dp_id d) (wd_outbound w) = None) /\
  (is_Some (dp_refund_tx d) -> dp_admit_tx d = None /\ exists front a, refund_attempts w (dp_id d) = front ++ [a] /\
     Forall disproved front /\ at_landing a = Landing.Finalized) /\
  (forall p, payment_of DepositRefund (dp_id d) (wd_outbound w) = Some p -> source_locked d p).
Proof.
  intros S [(_ & Hr & _) Hp|s Hs A R].
  - rewrite Hp, Hr. split_and!; [done|by intros []|done].
  - split_and!.
    + intros ->%(ra_admit _ _ A). split; [|done]. apply eq_None_not_Some. by intros Hx%(ra_refund _ _ A).
    + intros ->%(ra_refund _ _ A). split; [apply eq_None_not_Some; by intros Hx%(ra_admit _ _ A)|].
      destruct R as (q & front & a & Hq & _ & E & Hl). exists front, a. unfold refund_attempts. rewrite Hq.
      split_and!; [done|by eapply refund_front|done].
    + intros p Hp. destruct s; cbn in R; try congruence.
      * destruct R as (q & Hq & Hl & _). congruence.
      * destruct R as (q & front & a & Hq & Hl & _). congruence.
      * destruct R as (q & front & a & Hq & Hl & _). congruence.
Qed.

Lemma suspense_owed w : wsound w -> dsound w ->
  suspense_liability_micro w = Ok (held (wd_ledger w) Ref.DepositSuspense Usdc).
Proof.
  intros S D. rewrite (ds_suspense _ D). unfold suspense_liability_micro. change (map _ (wd_deposits w)) with (map in_suspense (wd_deposits w)).
  fold (suspense_sum (wd_deposits w)). unfold bigint. rewrite checked_in; [done|]. rewrite <- (ds_suspense _ D).
  apply held_range, S.
Qed.

Lemma deposit_terminal_stuck s s' : is_suspense_liability s = false -> ~ tc legal_rel s s'.
Proof. intros Hs Ht. destruct Ht as [? ? Hl|? ? ? Hl]; unfold legal_rel in Hl; by destruct x. Qed.

(** ** Lemmas: an observation is found again *)

(** The row an observation is bound to. *)
Record bound_to (o : ObservedDeposit) (rail : string) (d : DepositRow) : Prop := {
  bo_on : on_machine d = true;
  bo_sig : dp_chain_sig d = od_chain_sig o;
  bo_same : forall s, same_observation (machine_row s d) o rail = true }.

Lemma same_observation_iff row o rail :
  same_observation row o rail = true <->
  (od_user o, od_amount o, od_chain_sig o, od_source_address o, od_dest_address o, od_mint o, rail, od_slot o) =
  (dm_user row, dm_amount row, dm_chain_sig row, dm_source_address row, dm_dest_address row, dm_mint row,
   dm_rail_fingerprint row, dm_slot row).
Proof.
  unfold same_observation. rewrite !andb_true_iff, !bool_decide_eq_true, !Z.eqb_eq. split; [intros; destruct_and!; congruence|].
  intros [=]. by split_and!.
Qed.

Lemma bound_advanced o rail d d' : bound_to o rail d -> deposit_advanced d d' -> bound_to o rail d' /\ same_inflow d d'.
Proof.
  intros [On Sg Sm] [|s s' d'' A A' _ M]; [by split|]. split; [|done].
  pose proof M as (E1 & E2 & E3 & E4 & E5 & E6 & E7 & E8 & E9 & _). split; [by eapply row_at_on|congruence|].
  intros t. specialize (Sm t). apply same_observation_iff in Sm. apply same_observation_iff. cbn in *. congruence.
Qed.

Section Bound.
Context `{UuidText} `{HashMapOrder}.

Lemma observe_bound ids db_now o rail w r w' :
  pg_wf (wd_ledger w) -> dsound w -> in_ty I64 (od_amount o) ->
  observe_finalized_on_rail ids db_now o rail w = (Ok r, w') ->
  exists d, d ∈ wd_deposits w' /\ bound_to o rail d /\ dp_id d = or_deposit_id r /\ dp_suspense_tx d = Some (or_suspense_tx r) /\
    validate_observation o = Ok tt /\ empty_text rail = false /\
    (or_replayed r = false -> forall o' c, held (wd_ledger w') o' c = held (wd_ledger w) o' c +
       posted_to o' c [mkPosting 0 Ref.External Usdc (- od_amount o); mkPosting 0 Ref.DepositSuspense Usdc (od_amount o)]).
Proof.
  intros W D Hty Hr. pose proof Hr as Hr'. unfold observe_finalized_on_rail in Hr. apply atomic_answer in Hr.
  apply bind_Ok in Hr as ([] & Hv%map_err_Ok & Hr). destruct (empty_text rail) eqn:He; [done|].
  apply bind_Ok in Hr as (found & Hf%map_err_Ok & Hr). destruct found as [row|].
  - destruct (negb _) eqn:Hs in Hr; [done|]. apply negb_false_iff in Hs. apply bind_Ok in Hr as (t & Ht%ok_or_Ok & [= <- <-]).
    unfold deposit_machine_by_sig in Hf. destruct (List.find _ _) as [d|] eqn:Ef in Hf; [|done].
    apply find_by in Ef as [Hd Hc]. bool_hyps. rewrite bool_decide_eq_true in *.
    pose proof (ds_rows _ D) as Hk. rewrite Forall_forall in Hk. cbn in Hf. apply bind_Ok in Hf as (row' & Hrow & [= ->]).
    destruct (decoded_Ok _ _ _ (Hk d Hd) ltac:(done) Hrow) as (s & -> & _). exists d. by split_and!.
  - apply bind_Ok in Hr as ([t w1] & _ & Hr). apply bind_Ok in Hr as ([id w2] & _ & [= <- <-]).
    apply observe_Ok in Hr' as (_ & _ & _ & _ & E & led & w3 & -> & T & X & _ & Hh); [|done..]. cbn [or_deposit_id or_suspense_tx] in *.
    subst id. exists (observed_row (oi_deposit ids) db_now o rail t). split_and!; try done.
    + rewrite (sl_deposits _ _ T). cbn. set_solver.
    + split; [done..|]. intros s. by apply same_observation_iff.
    + intros _ o' c. by rewrite (still_ledger _ _ T).
Qed.

Lemma observe_again ids db_now o rail w d t :
  dsound w -> d ∈ wd_deposits w -> bound_to o rail d -> dp_suspense_tx d = Some t ->
  validate_observation o = Ok tt -> empty_text rail = false ->
  observe_finalized_on_rail ids db_now o rail w = (Ok (mkObservationReceipt (dp_id d) t true), w).
Proof.
  intros D Hd [On Sg Sm] Ht Hv He. destruct (by_sig_found w d D Hd On) as (s & Hf). unfold observe_finalized_on_rail.
  rewrite Hv, He, <- Sg, Hf. cbn [store map_err mbind outcome_bind]. rewrite Sm. cbn [negb].
  change (dm_suspense_tx (machine_row s d)) with (dp_suspense_tx d). by rewrite Ht.
Qed.

Lemma observe_other ids db_now o rail o2 rail2 w d :
  dsound w -> d ∈ wd_deposits w -> bound_to o rail d -> od_chain_sig o2 = od_chain_sig o -> (o2, rail2) <> (o, rail) ->
  (observe_finalized_on_rail ids db_now o2 rail2 w).2 = w /\
  forall x, (observe_finalized_on_rail ids db_now o2 rail2 w).1 <> Ok x.
Proof.
  intros D Hd [On Sg Sm] Hsig Hne. destruct (by_sig_found w d D Hd On) as (s & Hf).
  destruct (observe_finalized_on_rail _ _ _ _ _) as [ans w'] eqn:E. cbn.
  enough (Hx : forall x, ans <> Ok x) by (split; [by apply atomic_refused in E|done]).
  intros x ->. unfold observe_finalized_on_rail in E. apply atomic_answer in E. apply bind_Ok in E as (u & _ & E).
  destruct (empty_text rail2); [done|]. rewrite Hsig, <- Sg, Hf in E. cbn [store map_err mbind outcome_bind] in E.
  destruct (negb _) eqn:Hs in E; [done|]. apply negb_false_iff, same_observation_iff in Hs. specialize (Sm s).
  apply same_observation_iff in Sm. apply Hne. destruct o, o2. cbn in *. congruence.
Qed.
End Bound.

(** ** Lemmas: what an admission rests on *)

(** The account is clear of flags, bans, exclusions and pauses, its tier and its
    screenings suffice, and the amount is within its limits. *)
Record admission_clear (db_now now : Z) (user : N) (amount : Z) (w : Wdb) : Prop := {
  ac_flags : forall f, f ∈ co_flags (wd_comp w) -> fr_user f = user -> fr_status f <> "open";
  ac_user : exists u required, co_users (wd_comp w) !! user = Some u /\ u_status u <> "banned" /\
    required_i64 (wd_entries w) "deposit_kyc_tier" = Ok required /\ required <= u_kyc_tier u /\
    (money_status_parse (u_status u) = ShadowLimited ->
       exists cap, required_i64 (wd_entries w) "shadow_deposit_cap_micro" = Ok cap /\ amount <= cap);
  ac_excluded : self_excluded (wd_comp w) user now = false;
  ac_geo : fresh_clear (wd_comp w) user "geo" now = true;
  ac_sanctions : fresh_clear (wd_comp w) user "sanctions" now = true;
  ac_paused : required_config_flag (wd_entries w) "pause_deposits" = Ok false;
  ac_limit : forall limit, deposit_limit_micro (wd_comp w) db_now user = Some limit -> amount <= limit }.

Lemma gate_clear db_now now user amount w :
  user_status (wd_comp w) user <> Ok "banned" ->
  existsb (fun f => (fr_user f =? user)%N && bool_decide (fr_status f = "open")) (co_flags (wd_comp w)) = false ->
  enforce_money_mutation (wd_comp w) (wd_entries w) db_now user DepositAdmit amount now = Ok tt ->
  admission_clear db_now now user amount w.
Proof.
  intros Hb Hf Hg. unfold enforce_money_mutation in Hg. apply bind_Ok in Hg as (snap & Hs%map_err_Ok & Hg).
  unfold gate_snapshot in Hs. apply bind_Ok in Hs as (st & Hst & Hs). cbv zeta in Hs.
  apply bind_Ok in Hs as (kyc & Hk & Hs). apply bind_Ok in Hs as (req & Hq & Hs). apply bind_Ok in Hs as (paused & Hp & Hs).
  apply bind_Ok in Hs as (tcap & _ & Hs). apply bind_Ok in Hs as (dcap & Hdc & [= <-]). rewrite Hst in Hb.
  unfold user_status in Hst. apply ok_or_Ok, fmap_Some in Hst as (u & Hu & ->).
  unfold user_kyc_tier in Hk. rewrite Hu in Hk. injection Hk as <-.
  unfold decide_money_mutation in Hg. rewrite (bool_decide_eq_true_2 (DepositAdmit = DepositAdmit)), andb_false_r in Hg by done.
  cbn [mg_self_excluded mg_deposits_paused mg_kyc_tier mg_required_kyc_tier mg_geo_clear mg_sanctions_clear
       mg_deposit_limit_micro mg_status mg_shadow_deposit_cap_micro] in Hg.
  destruct (self_excluded _ _ _) eqn:E1; [done|]. destruct paused eqn:E2; [done|]. destruct (_ <? _) eqn:E3; [done|].
  destruct (negb _) eqn:E4 in Hg; [done|]. destruct (negb _) eqn:E5 in Hg; [done|].
  destruct (match deposit_limit_micro _ _ _ with Some _ => _ | None => _ end) eqn:E6; [done|].
  destruct (_ && _) eqn:E7 in Hg; [by unfold shadow_refusal in Hg|]. apply negb_false_iff in E4, E5.
  split; try done.
  - intros f Hin <- Ho. apply existsb_false in Hf. rewrite Forall_forall in Hf. specialize (Hf f Hin). cbn in Hf.
    by rewrite N.eqb_refl, Ho in Hf.
  - exists u, req. split_and!; [done|congruence|done|lia|]. intros Hsh. exists dcap. split; [done|].
    rewrite Hsh, bool_decide_eq_true_2, andb_true_l in E7 by done. lia.
  - intros limit Hl. rewrite Hl in E6. lia.
Qed.

(** ** A small inflow *)

(** User 7 deposits three dollars, which are admitted; two dollars of an unknown
    sender are held, refunded under dual control, sent, seen on the chain and
    settled. *)
Definition demo_inflow : ObservedDeposit := mkObserved (Some 7%N) 3000000 "in1" "src7" "treasury" "mint" 12.
Definition demo_stray : ObservedDeposit := mkObserved None 2000000 "in2" "src9" "treasury" "mint" 13.

Notation demo_observe_run o id legs w :=
  (observe_finalized_on_rail (H0 := canonical_order) (mkObserveIds legs id) 90 o (rail_fingerprint demo_rail) w).
Notation demo_admit_run sig n w :=
  (admit_observed (H0 := canonical_order) (mkAdmitIds (fun i => N.of_nat (n + i)) (fun i => N.of_nat (n + 10 + i))
     (mkLegIds 71 72 (N.of_nat n)) (fun i => N.of_nat (n + 20 + i)) (N.of_nat n)) 100 100 sig Machine false w).

Definition demo_seen : Wdb := (demo_observe_run demo_inflow 40 (mkLegIds 61 62 63) demo_idle).2.
Definition demo_admitted : Wdb := (demo_admit_run "in1" 500%nat demo_seen).2.
Definition demo_stray_seen : Wdb := (demo_observe_run demo_stray 41 (mkLegIds 64 65 66) demo_admitted).2.
Definition demo_on_hold : Wdb := (demo_admit_run "in2" 600%nat demo_stray_seen).2.

Notation demo_propose_run w :=
  (propose_deposit_command demo_digest 80 200 41 true "unknown sender" (Admin "fin" Finance) w).
Definition demo_proposed : Wdb := (demo_propose_run demo_on_hold).2.
Notation demo_confirm_run w :=
  (confirm_deposit_refund (H0 := canonical_order) demo_digest (mkRefundIds (fun i => N.of_nat (700 + i)) 81 82) 300 80
     (Admin "sup" Superadmin) w).
Definition demo_refund_approved : Wdb := (demo_confirm_run demo_proposed).2.

Definition demo_refund_signer : SignerView := mkSigner (Ok ([4; 5], "rsig", 60)) (fun _ => Ok Absent) (Ok 10).
Definition demo_sending : Wdb := (begin_refund_send 83 demo_refund_signer 400 "in2" demo_refund_approved ∅).1.2.
Definition demo_refund_chain : ChainReceipt := mkChainReceipt "rsig" "mint" "treasury" "src9" 2000000 "finalized".
Definition demo_refunded : Wdb :=
  (settle_refund (H0 := canonical_order) JInt (mkRefundSettleIds (mkLegIds 84 85 86) 87) demo_rail 500 "in2"
     demo_refund_chain demo_sending).2.

Notation demo_treasury :=
  (treasury (H0 := canonical_order) str_le demo_rep demo_lp demo_config 1 demo_sweep (Ok tt) JInt demo_digest
     (fun _ => "") (fun _ => None) (fun _ => None)).

Lemma demo_opening : opening demo_idle.
Proof. split; [exact demo_idle_idle|constructor|constructor|constructor|done|vm_compute; reflexivity]. Qed.

Lemma demo_observe_step o id legs w :
  in_ty I64 (od_amount o) -> imin I64 < held (wd_ledger (demo_observe_run o id legs w).2) Ref.External Usdc ->
  demo_treasury w (demo_observe_run o id legs w).2.
Proof. intros. apply tr_deposit. by apply (dt_observe (H0 := canonical_order)). Qed.

Lemma demo_admit_step sig n w : demo_treasury w (demo_admit_run sig n w).2.
Proof. apply tr_deposit, (dt_admit (H0 := canonical_order)). Qed.

Lemma demo_seen_reached : rtc demo_treasury demo_idle demo_seen.
Proof. apply rtc_once, demo_observe_step; [split; vm_compute; discriminate|vm_compute; reflexivity]. Qed.

Lemma demo_held_reached : rtc demo_treasury demo_seen demo_on_hold.
Proof.
  apply (rtc_l _ _ demo_admitted); [apply demo_admit_step|]. apply (rtc_l _ _ demo_stray_seen).
  - apply demo_observe_step; [split; vm_compute; discriminate|vm_compute; reflexivity].
  - apply rtc_once, demo_admit_step.
Qed.

Lemma demo_refunded_reached : rtc demo_treasury demo_on_hold demo_refunded.
Proof.
  apply (rtc_l _ _ demo_proposed); [apply tr_deposit, (dt_propose (H0 := canonical_order))|].
  apply (rtc_l _ _ demo_refund_approved); [apply tr_deposit, (dt_confirm_refund (H0 := canonical_order))|].
  apply (rtc_l _ _ demo_sending); [apply tr_deposit, (dt_begin (H0 := canonical_order))|].
  apply rtc_once, tr_deposit, (dt_settle (H0 := canonical_order)).
Qed.

Lemma demo_all_reached : rtc demo_treasury demo_idle demo_refunded.
Proof. etrans; [exact demo_seen_reached|]. etrans; [exact demo_held_reached|exact demo_refunded_reached]. Qed.

Definition demo_deposit_at (name : string) (refund_tx : option N) : DepositRow :=
  mkDeposit 41 None "in2" 2000000 name (Some "src9") (Some "treasury") (Some "mint") (Some (rail_fingerprint demo_rail))
    (Some 13) (Some 66%N) None refund_tx (Some name) 90.

Lemma demo_held_row : demo_deposit_at "compliance_hold" None ∈ wd_deposits demo_on_hold.
Proof.
  assert (E : last (wd_deposits demo_on_hold) = Some (demo_deposit_at "compliance_hold" None)) by (vm_compute; reflexivity).
  by apply last_Some_elem_of.
Qed.

Lemma demo_refunded_row : demo_deposit_at "refunded" (Some 86%N) ∈ wd_deposits demo_refunded.
Proof.
  assert (E : last (wd_deposits demo_refunded) = Some (demo_deposit_at "refunded" (Some 86%N))) by (vm_compute; reflexivity).
  by apply last_Some_elem_of.
Qed.

(** ** Properties *)

(** C11: the money in suspense is owed, to the cent.  From a state without
    withdrawals and without deposits on the machine, after any interleaving of
    market, withdrawal and deposit transactions and changes elsewhere, the
    markets are sound, the [Withheld] account is the sum of the active holds,
    and the [DepositSuspense] account is what the invariant checker computes from
    the table: the sum of the deposits neither admitted nor refunded. *)
Theorem suspense_stays_owed `{UuidText} `{HashMapOrder} (collate : string -> string -> bool) (rep_config : RepConfig)
    (lp_config : LpKillConfig) (vote_config : VoteIntegrityConfig) (oi_floor : Z) (sweep_config : IntegritySweepConfig)
    (crash_point : outcome StoreError unit) (time_json : Z -> Value) (sha256 : string -> list Z)
    (to_string : Value -> string) (from_str : string -> option Value) (uuid_parse : string -> option N) (w w' : Wdb) :
  rep_typed rep_config -> opening w ->
  rtc (treasury collate rep_config lp_config vote_config oi_floor sweep_config crash_point time_json sha256 to_string
         from_str uuid_parse) w w' ->
  sound (wd_db w') /\ held (wd_ledger w') Ref.Withheld Usdc = holds_in w' /\
  suspense_liability_micro w' = Ok (held (wd_ledger w') Ref.DepositSuspense Usdc).
Proof.
  intros Hrep (S & W & D)%opening_sound Hrun.
  destruct (treasury_run _ _ _ _ _ _ _ _ _ _ _ _ _ _ Hrep Hrun S W D) as (S' & W' & D' & _).
  split_and!; [done|apply W'|by apply suspense_owed].
Qed.

Lemma suspense_stays_owed_witness :
  sound (wd_db demo_on_hold) /\ suspense_liability_micro demo_on_hold = Ok 2000000.
Proof.
  destruct (suspense_stays_owed (H0 := canonical_order) str_le demo_rep demo_lp demo_config 1 demo_sweep (Ok tt) JInt demo_digest
    (fun _ => "") (fun _ => None) (fun _ => None) demo_idle demo_on_hold demo_rep_typed demo_opening) as (S & _ & E).
  - etrans; [exact demo_seen_reached|exact demo_held_reached].
  - split; [exact S|]. rewrite E. vm_compute. reflexivity.
Defined.

(** C12: a deposit ends once.  In every reachable state, a deposit that was
    admitted was not refunded and has no refund payment; one that was refunded
    was not admitted, one attempt of its payment is finalized and every other
    disproved; a refund goes to the address the money came from, for its amount
    and over its rail, and at most one of its attempts can land. *)
Theorem deposits_end_once `{UuidText} `{HashMapOrder} (collate : string -> string -> bool) (rep_config : RepConfig)
    (lp_config : LpKillConfig) (vote_config : VoteIntegrityConfig) (oi_floor : Z) (sweep_config : IntegritySweepConfig)
    (crash_point : outcome StoreError unit) (time_json : Z -> Value) (sha256 : string -> list Z)
    (to_string : Value -> string) (from_str : string -> option Value) (uuid_parse : string -> option N) (w w' : Wdb)
    (d : DepositRow) :
  rep_typed rep_config -> opening w ->
  rtc (treasury collate rep_config lp_config vote_config oi_floor sweep_config crash_point time_json sha256 to_string
         from_str uuid_parse) w w' ->
  d ∈ wd_deposits w' ->
  (is_Some (dp_admit_tx d) -> dp_refund_tx d = None /\ payment_of DepositRefund (dp_id d) (wd_outbound w') = None) /\
  (is_Some (dp_refund_tx d) -> dp_admit_tx d = None /\ exists front a, refund_attempts w' (dp_id d) = front ++ [a] /\
     Forall disproved front /\ at_landing a = Landing.Finalized) /\
  (forall p, payment_of DepositRefund (dp_id d) (wd_outbound w') = Some p -> source_locked d p) /\
  (length (List.filter can_land (refund_attempts w' (dp_id d))) <= 1)%nat.
Proof.
  intros Hrep (S & W & D)%opening_sound Hrun Hd.
  destruct (treasury_run _ _ _ _ _ _ _ _ _ _ _ _ _ _ Hrep Hrun S W D) as (_ & W' & D' & _).
  pose proof (ds_rows _ D') as Hk. rewrite Forall_forall in Hk. specialize (Hk d Hd).
  destruct (deposit_ends w' d W' Hk) as (H1 & H2 & H3). split_and!; [done..|by apply refund_lands_once].
Qed.

Lemma deposits_end_once_witness :
  exists front a, refund_attempts demo_refunded 41 = front ++ [a] /\ Forall disproved front /\
    at_landing a = Landing.Finalized.
Proof.
  destruct (deposits_end_once (H0 := canonical_order) str_le demo_rep demo_lp demo_config 1 demo_sweep (Ok tt) JInt demo_digest
    (fun _ => "") (fun _ => None) (fun _ => None) demo_idle demo_refunded (demo_deposit_at "refunded" (Some 86%N)) demo_rep_typed
    demo_opening demo_all_reached demo_refunded_row) as (_ & Hr & _).
  apply Hr. by eexists.
Defined.

(** C13: a deposit follows the machine.  A row, once there, stays; what the
    observation fixed never changes; its status moves along
    [legal_deposit_transition] only, and a row that was admitted or refunded, or
    that predates the machine, is never written again. *)
Theorem deposits_follow_the_machine `{UuidText} `{HashMapOrder} (collate : string -> string -> bool) (rep_config : RepConfig)
    (lp_config : LpKillConfig) (vote_config : VoteIntegrityConfig) (oi_floor : Z) (sweep_config : IntegritySweepConfig)
    (crash_point : outcome StoreError unit) (time_json : Z -> Value) (sha256 : string -> list Z)
    (to_string : Value -> string) (from_str : string -> option Value) (uuid_parse : string -> option N) (w w1 w2 : Wdb)
    (d : DepositRow) :
  let run := rtc (treasury collate rep_config lp_config vote_config oi_floor sweep_config crash_point time_json sha256
                    to_string from_str uuid_parse) in
  rep_typed rep_config -> opening w -> run w w1 -> run w1 w2 -> d ∈ wd_deposits w1 ->
  exists d', d' ∈ wd_deposits w2 /\ same_inflow d d' /\
    (d' = d \/ exists s s', row_at s d /\ row_at s' d' /\ tc legal_rel s s' /\ is_suspense_liability s = true).
Proof.
  intros run Hrep (S & W & D)%opening_sound H1 H2 Hd.
  destruct (treasury_run _ _ _ _ _ _ _ _ _ _ _ _ _ _ Hrep H1 S W D) as (S1 & W1 & D1 & _).
  destruct (treasury_run _ _ _ _ _ _ _ _ _ _ _ _ _ _ Hrep H2 S1 W1 D1) as (_ & _ & _ & R).
  destruct (deposits_run_row _ _ d R Hd) as (d' & Hd' & A). exists d'. split; [done|].
  destruct A as [|s s' d' A A' T M]; [split; [apply same_inflow_refl|by left]|]. split; [done|]. right. exists s, s'.
  split_and!; try done. destruct (is_suspense_liability s) eqn:E; [done|]. by destruct (deposit_terminal_stuck s s').
Qed.

Lemma deposits_follow_the_machine_witness :
  exists d', d' ∈ wd_deposits demo_refunded /\ same_inflow (demo_deposit_at "compliance_hold" None) d'.
Proof.
  destruct (deposits_follow_the_machine (H0 := canonical_order) str_le demo_rep demo_lp demo_config 1 demo_sweep (Ok tt) JInt
    demo_digest (fun _ => "") (fun _ => None) (fun _ => None) demo_idle demo_on_hold demo_refunded
    (demo_deposit_at "compliance_hold" None) demo_rep_typed demo_opening) as (d' & H1 & H2 & _).
  - etrans; [exact demo_seen_reached|exact demo_held_reached].
  - exact demo_refunded_reached.
  - exact demo_held_row.
  - exists d'. split; [exact H1|exact H2].
Defined.

(** C14: an observation is bound to its signature for good.  A first observation
    books its amount from [External] to [DepositSuspense] and nowhere else; and
    whatever happens next, observing the same tuple over the same rail again
    answers with the same deposit and transaction and changes nothing, while any
    other tuple or rail under that signature is refused and changes nothing. *)
Theorem observations_are_bound `{UuidText} `{HashMapOrder} (collate : string -> string -> bool) (rep_config : RepConfig)
    (lp_config : LpKillConfig) (vote_config : VoteIntegrityConfig) (oi_floor : Z) (sweep_config : IntegritySweepConfig)
    (crash_point : outcome StoreError unit) (time_json : Z -> Value) (sha256 : string -> list Z)
    (to_string : Value -> string) (from_str : string -> option Value) (uuid_parse : string -> option N)
    (ids ids2 : ObserveIds) (db_now db_now2 : Z) (o : ObservedDeposit) (rail : string) (r : ObservationReceipt)
    (w w1 w1' w2 : Wdb) :
  let run := rtc (treasury collate rep_config lp_config vote_config oi_floor sweep_config crash_point time_json sha256
                    to_string from_str uuid_parse) in
  rep_typed rep_config -> opening w -> run w w1 -> in_ty I64 (od_amount o) ->
  observe_finalized_on_rail ids db_now o rail w1 = (Ok r, w1') -> imin I64 < held (wd_ledger w1') Ref.External Usdc ->
  run w1' w2 ->
  (or_replayed r = false -> forall o' c, held (wd_ledger w1') o' c = held (wd_ledger w1) o' c +
     posted_to o' c [mkPosting 0 Ref.External Usdc (- od_amount o); mkPosting 0 Ref.DepositSuspense Usdc (od_amount o)]) /\
  observe_finalized_on_rail ids2 db_now2 o rail w2 =
    (Ok (mkObservationReceipt (or_deposit_id r) (or_suspense_tx r) true), w2) /\
  forall o2 rail2, od_chain_sig o2 = od_chain_sig o -> (o2, rail2) <> (o, rail) ->
    (observe_finalized_on_rail ids2 db_now2 o2 rail2 w2).2 = w2 /\
    forall x, (observe_finalized_on_rail ids2 db_now2 o2 rail2 w2).1 <> Ok x.
Proof.
  intros run Hrep (S & W & D)%opening_sound H1 Hty Ho Hsup H2.
  destruct (treasury_run _ _ _ _ _ _ _ _ _ _ _ _ _ _ Hrep H1 S W D) as (S1 & W1 & D1 & _).
  destruct (observe_bound _ _ _ _ _ _ _ (fw_ledger _ (ws_funds _ W1)) D1 Hty Ho) as (d & Hd & B & Hid & Ht & Hv & He & Hh).
  assert (Hs : deposit_tx time_json sha256 w1 w1').
  { replace w1' with (observe_finalized_on_rail ids db_now o rail w1).2 in * by by rewrite Ho. by apply dt_observe. }
  destruct (treasury_keeps collate rep_config lp_config vote_config oi_floor sweep_config crash_point time_json sha256
    to_string from_str uuid_parse w1 w1' Hrep (tr_deposit _ _ _ _ _ _ _ _ _ _ _ _ _ _ Hs) S1 W1 D1) as (S1' & W1' & D1' & _).
  destruct (treasury_run _ _ _ _ _ _ _ _ _ _ _ _ _ _ Hrep H2 S1' W1' D1') as (_ & _ & D2 & R).
  destruct (deposits_run_row _ _ d R Hd) as (d' & Hd' & A). destruct (bound_advanced _ _ _ _ B A) as [B' M].
  split_and!; [done| |].
  - rewrite (observe_again ids2 db_now2 o rail w2 d' (or_suspense_tx r)); [|done..|destruct M as (_ & _ & _ & _ & _ & _ & _ & _ & _ & -> & _); done|done|done].
    by destruct M as (-> & _); rewrite Hid.
  - intros o2 rail2. by eapply observe_other.
Qed.

Lemma observations_are_bound_witness :
  observe_finalized_on_rail (H0 := canonical_order) (mkObserveIds (mkLegIds 1 2 3) 4) 99 demo_inflow (rail_fingerprint demo_rail)
    demo_on_hold = (Ok (mkObservationReceipt 40 63 true), demo_on_hold).
Proof.
  assert (E : demo_observe_run demo_inflow 40 (mkLegIds 61 62 63) demo_idle = (Ok (mkObservationReceipt 40 63 false), demo_seen)).
  { refine (pair_run (demo_observe_run demo_inflow 40 (mkLegIds 61 62 63) demo_idle) (Ok (mkObservationReceipt 40 63 false)) _).
    vm_compute. reflexivity. }
  eapply (observations_are_bound (H0 := canonical_order) str_le demo_rep demo_lp demo_config 1 demo_sweep (Ok tt) JInt demo_digest
    (fun _ => "") (fun _ => None) (fun _ => None) _ (mkObserveIds (mkLegIds 1 2 3) 4) _ 99 demo_inflow _ _ demo_idle demo_idle demo_seen
    demo_on_hold demo_rep_typed demo_opening (rtc_refl _ _) _ E _ demo_held_reached).
  Unshelve.
  - split; vm_compute; discriminate.
  - vm_compute. reflexivity.
Defined.


Definition demo_inflow_row : DepositRow :=
  mkDeposit 40 (Some 7%N) "in1" 3000000 "observed_finalized" (Some "src7") (Some "treasury") (Some "mint")
    (Some (rail_fingerprint demo_rail)) (Some 12) (Some 63%N) None None (Some "observed_finalized") 90.

Lemma demo_seen_row : demo_inflow_row ∈ wd_deposits demo_seen.
Proof.
  assert (E : last (wd_deposits demo_seen) = Some demo_inflow_row) by (vm_compute; reflexivity).
  by apply last_Some_elem_of.
Qed.

Lemma demo_inflow_at : row_at Dep.ObservedFinalized demo_inflow_row.
Proof.
  split; try reflexivity; try (by eexists); cbn; (split; [by intros []|done]).
Qed.

(** The same deposit when its user's screenings have lapsed: held, then admitted
    by two people. *)
Definition demo_lapsed : Wdb :=
  (admit_observed (H0 := canonical_order) (mkAdmitIds (fun i => N.of_nat (500 + i)) (fun i => N.of_nat (510 + i))
     (mkLegIds 71 72 500) (fun i => N.of_nat (520 + i)) 500) 2000 2000 "in1" Machine false demo_seen).2.
Definition demo_manual_proposed : Wdb :=
  (propose_deposit_command demo_digest 80 2100 40 false "papers seen" (Admin "fin" Finance) demo_lapsed).2.
Notation demo_manual_run :=
  (confirm_manual_deposit_admission (H0 := canonical_order) demo_digest (mkAdmitIds (fun i => N.of_nat (700 + i))
     (fun i => N.of_nat (710 + i)) (mkLegIds 73 74 700) (fun i => N.of_nat (720 + i)) 700) 2200 80
     (Admin "sup" Superadmin) demo_manual_proposed).
Definition demo_manual_admitted : Wdb := demo_manual_run.2.

Lemma demo_manual_reached : rtc demo_treasury demo_idle demo_manual_proposed.
Proof.
  etrans; [exact demo_seen_reached|]. apply (rtc_l _ _ demo_lapsed); [apply tr_deposit, (dt_admit (H0 := canonical_order))|].
  apply rtc_once, tr_deposit, (dt_propose (H0 := canonical_order)).
Qed.


(** C16: a refund takes two people.  A confirmation in a reachable state is a
    superadmin's, of a pending proposal of another token, of the refund kind,
    inside its window and bound to the held deposit by its hash; the deposit had
    no refund payment before, and has one after, to the address and for the
    amount and over the rail the money came with, which the receipt names. *)
Theorem refunds_are_dual_controlled `{UuidText} `{HashMapOrder} (collate : string -> string -> bool) (rep_config : RepConfig)
    (lp_config : LpKillConfig) (vote_config : VoteIntegrityConfig) (oi_floor : Z) (sweep_config : IntegritySweepConfig)
    (crash_point : outcome StoreError unit) (time_json : Z -> Value) (sha256 : string -> list Z)
    (to_string : Value -> string) (from_str : string -> option Value) (uuid_parse : string -> option N)
    (ids : RefundIds) (now : Z) (proposal_id : N) (actor : AdminContext) (w w1 w2 : Wdb) (r : RefundReceipt) :
  rep_typed rep_config -> opening w ->
  rtc (treasury collate rep_config lp_config vote_config oi_floor sweep_config crash_point time_json sha256 to_string
         from_str uuid_parse) w w1 ->
  confirm_deposit_refund sha256 ids now proposal_id actor w1 = (Ok r, w2) ->
  exists d d' digest p q, d ∈ wd_deposits w1 /\ d' ∈ wd_deposits w2 /\ same_inflow d d' /\
    row_at Dep.ComplianceHold d /\ row_at Dep.RefundApproved d' /\
    mp_id p = proposal_id /\ confirmed_by sha256 DEPOSIT_REFUND now actor w1 digest p d /\
    payment_of DepositRefund (dp_id d) (wd_outbound w1) = None /\
    payment_of DepositRefund (dp_id d) (wd_outbound w2) = Some q /\ source_locked d q /\
    r = mkRefundReceipt (dp_id d) (op_id q) (op_dest q) false.
Proof.
  intros Hrep (S & W & D)%opening_sound Hrun Hr.
  destruct (treasury_run _ _ _ _ _ _ _ _ _ _ _ _ _ _ Hrep Hrun S W D) as (_ & W1 & D1 & _).
  destruct (confirm_refund_Ok _ _ _ _ _ _ _ _ W1 D1 Hr)
    as (l1 & l2 & d & d' & digest & p & q & K & A & A' & Hid & Hby & Hn & Hp & Hs & _ & Er).
  exists d, d', digest, p, q. rewrite (dw_before _ _ _ _ _ _ _ K), (dw_after _ _ _ _ _ _ _ K).
  split_and!; try done; [set_solver|set_solver|apply K..].
Qed.

Lemma demo_proposed_reached : rtc demo_treasury demo_idle demo_proposed.
Proof.
  etrans; [exact demo_seen_reached|]. etrans; [exact demo_held_reached|].
  apply rtc_once, tr_deposit, (dt_propose (H0 := canonical_order)).
Qed.

Lemma refunds_are_dual_controlled_witness :
  exists d digest p, d ∈ wd_deposits demo_proposed /\
    confirmed_by demo_digest DEPOSIT_REFUND 300 (Admin "sup" Superadmin) demo_proposed digest p d.
Proof.
  assert (E : demo_confirm_run demo_proposed = (Ok (mkRefundReceipt 41 81 "src9" false), demo_refund_approved)).
  { refine (pair_run (demo_confirm_run demo_proposed) (Ok (mkRefundReceipt 41 81 "src9" false)) _). vm_compute. reflexivity. }
  destruct (refunds_are_dual_controlled (H0 := canonical_order) str_le demo_rep demo_lp demo_config 1 demo_sweep (Ok tt) JInt
    demo_digest (fun _ => "") (fun _ => None) (fun _ => None) _ _ _ _ demo_idle demo_proposed demo_refund_approved _ demo_rep_typed
    demo_opening demo_proposed_reached E) as (d & d' & digest & p & q & H1 & _ & _ & _ & _ & _ & H2 & _).
  exists d, digest, p. split; [exact H1|exact H2].
Defined.

Lemma observe_taken `{UuidText} `{HashMapOrder} ids db_now o rail w t :
  pg_wf (wd_ledger w) -> dsound w -> in_ty I64 (od_amount o) ->
  txn_by_key (wd_ledger w) (observe_key (od_chain_sig o)) = Some t ->
  od_chain_sig o ∉ map dp_chain_sig (wd_deposits w) ->
  (observe_finalized_on_rail ids db_now o rail w).2 = w /\
  forall x, (observe_finalized_on_rail ids db_now o rail w).1 <> Ok x.
Proof.
  intros W D Hty Hk Hn. destruct (observe_finalized_on_rail _ _ _ _ _) as [ans w'] eqn:E. cbn.
  enough (Hx : forall x, ans <> Ok x) by (split; [by apply atomic_refused in E|done]).
  intros r ->. destruct (or_replayed r) eqn:Hr.
  - unfold observe_finalized_on_rail in E. apply atomic_answer in E. apply bind_Ok in E as (? & _ & E).
    destruct (empty_text rail); [done|]. apply bind_Ok in E as (found & Hf%map_err_Ok & E). destruct found as [row|].
    + apply by_sig_Ok in Hf as (s & d & Hd & Hs & _); [|done]. apply Hn, list_elem_of_fmap. by exists d.
    + apply bind_Ok in E as ([? ?] & _ & E). by apply bind_Ok in E as ([? ?] & _ & [= <- _]).
  - destruct (observe_Ok _ _ _ _ _ _ _ W Hty E Hr) as (_ & _ & _ & _ & _ & led & w1 & _ & _ & _ & Hf & _). congruence.
Qed.

(** C21: a trade can take a deposit's key for good.  The key
    [deposit-observe:<signature>] lives in the same column as the idempotency
    keys that clients choose for their trades, and a signature is public before
    the watcher reports it.  After an accepted trade under that key, whatever
    happens next, the deposit is never observed: each attempt changes nothing,
    and the money stays on the chain without a row. *)
Theorem taken_deposit_key_blocks `{UuidText} `{HashMapOrder} (collate : string -> string -> bool) (rep_config : RepConfig)
    (lp_config : LpKillConfig) (vote_config : VoteIntegrityConfig) (oi_floor : Z) (sweep_config : IntegritySweepConfig)
    (crash_point : outcome StoreError unit) (time_json : Z -> Value) (sha256 : string -> list Z)
    (to_string : Value -> string) (from_str : string -> option Value) (uuid_parse : string -> option N)
    (fresh fresh_lazy fresh_alloc : nat -> N) (trade_db_now trade_now : Z) (cmd : PlaceTradeCmd) (receipt : TradeReceipt)
    (ids : ObserveIds) (db_now : Z) (o : ObservedDeposit) (rail : string) (w w1 w2 : Wdb) (db' : Db) :
  let run := rtc (treasury collate rep_config lp_config vote_config oi_floor sweep_config crash_point time_json sha256
                    to_string from_str uuid_parse) in
  rep_typed rep_config -> opening w -> run w w1 -> in_ty I64 (pt_amount_micro cmd) ->
  place_trade collate rep_config time_json fresh fresh_lazy fresh_alloc trade_db_now trade_now cmd (wd_db w1) = (Ok receipt, db') ->
  rt_replayed receipt = false -> pt_idempotency_key cmd = observe_key (od_chain_sig o) ->
  imin I64 < held (fu_ledger (td_funds db')) Ref.External Usdc ->
  od_chain_sig o ∉ map dp_chain_sig (wd_deposits w1) ->
  run (set_db db' w1) w2 -> in_ty I64 (od_amount o) ->
  (observe_finalized_on_rail ids db_now o rail w2).2 = w2 /\
  forall x, (observe_finalized_on_rail ids db_now o rail w2).1 <> Ok x.
Proof.
  intros run Hrep (S & W & D)%opening_sound H1 Hty Ht Hrp Hkey Hsup Hnew H2 Hamt.
  destruct (treasury_run _ _ _ _ _ _ _ _ _ _ _ _ _ _ Hrep H1 S W D) as (S1 & W1 & D1 & _).
  assert (Hs : treasury collate rep_config lp_config vote_config oi_floor sweep_config crash_point time_json sha256
    to_string from_str uuid_parse w1 (set_db db' w1)).
  { apply tr_market; [|done]. replace db' with (place_trade collate rep_config time_json fresh fresh_lazy fresh_alloc
      trade_db_now trade_now cmd (wd_db w1)).2 by (by rewrite Ht). by apply st_request, rq_trade. }
  destruct (treasury_keeps _ _ _ _ _ _ _ _ _ _ _ _ _ _ Hrep Hs S1 W1 D1) as (S1' & W1' & D1' & _).
  destruct (treasury_run _ _ _ _ _ _ _ _ _ _ _ _ _ _ Hrep H2 S1' W1' D1') as (_ & W2 & D2 & _).
  apply place_trade_Ok in Ht as [(txn & _ & _ & E)|(funds & pool & out & fee & legs & txn & led & X)]; [congruence| |done].
  pose proof (executed_key rep_config _ _ _ _ _ _ _ _ _ _ _ _ _ _ _ _ _ (so_wf _ S1) Hty X) as Hk. rewrite Hkey in Hk.
  destruct (treasury_key _ _ _ _ _ _ _ _ _ _ _ _ _ _ _ _ Hrep H2 S1' W1' D1' Hk Hnew) as [Hk2 Hn2].
  eapply observe_taken; [apply W2|done..].
Qed.

Definition demo_squat_trade : PlaceTradeCmd := mkPlaceTrade 10 7 Yes Buy 5000000 (observe_key "in2") None None (Some 1).
Definition demo_squat_db : Db := (demo_place demo_squat_trade (wd_db demo_admitted)).2.

Lemma demo_squat_ok : exists receipt,
  demo_place demo_squat_trade (wd_db demo_admitted) = (Ok receipt, demo_squat_db) /\ rt_replayed receipt = false.
Proof.
  assert (Hr : exists r, (demo_place demo_squat_trade (wd_db demo_admitted)).1 = Ok r /\ rt_replayed r = false)
    by (eexists; split; [vm_compute; reflexivity|reflexivity]).
  destruct Hr as (r & Hr & Hn). exists r. split; [|done]. exact (pair_run (demo_place demo_squat_trade (wd_db demo_admitted)) _ Hr).
Qed.

Lemma taken_deposit_key_blocks_witness :
  (demo_observe_run demo_stray 41 (mkLegIds 64 65 66) (set_db demo_squat_db demo_admitted)).2 = set_db demo_squat_db demo_admitted.
Proof.
  destruct demo_squat_ok as (receipt & E & Hn). unfold demo_place in E.
  refine (proj1 (taken_deposit_key_blocks (H0 := canonical_order) str_le demo_rep demo_lp demo_config 1 demo_sweep (Ok tt) JInt
    demo_digest (fun _ => "") (fun _ => None) (fun _ => None) _ _ _ _ _ demo_squat_trade receipt _ 90 demo_stray _
    demo_idle demo_admitted (set_db demo_squat_db demo_admitted) demo_squat_db demo_rep_typed demo_opening _ _ E Hn eq_refl _ _
    (rtc_refl _ _) _)).
  - eapply rtc_r; [exact demo_seen_reached|apply demo_admit_step].
  - split; vm_compute; discriminate.
  - vm_compute. reflexivity.
  - apply (bool_decide_unpack _). vm_compute. exact I.
  - split; vm_compute; discriminate.
Defined.

(** A confirmation names a proposal of the kind, on a held deposit, that has
    not expired. *)
Lemma confirmable_alive `{UuidText} sha256 proposal_id kind message now actor w digest role q row :
  confirmable sha256 proposal_id kind message now actor w = Ok (digest, role, q, row) ->
  proposal_by_id proposal_id (wd_comp w) = Ok q /\ mp_kind q = kind /\ now <= mp_expires_at q /\
  deposit_machine_by_id (mp_subject_id q) w = Ok (Some row).
Proof.
  intros Hr. unfold confirmable in Hr. apply bind_Ok in Hr as ([dg rl] & _ & Hr).
  apply bind_Ok in Hr as ([] & _ & Hr). apply bind_Ok in Hr as (p & Hq%map_err_Ok & Hr).
  apply bind_Ok in Hr as (? & Hv & Hr). apply bind_Ok in Hr as (found & Hf%map_err_Ok & Hr).
  apply bind_Ok in Hr as (rw & Hrw%ok_or_Ok & Hr). apply bind_Ok in Hr as (? & _ & Hr).
  apply bind_Ok in Hr as (? & _ & [= _ _ -> ->]). subst found.
  unfold validate_deposit_proposal in Hv. apply bind_Ok in Hv as ([] & _ & Hv).
  destruct (negb _) eqn:E1 in Hv; [done|]. destruct (negb _) eqn:E2 in Hv; [done|]. destruct (_ || _) eqn:E3 in Hv; [done|].
  bool_hyps. rewrite ?bool_decide_eq_true in *. split_and!; [done..|lia|done].
Qed.

(** C22: an expired refund proposal blocks the refund.  Once the window of the
    only refund proposal of a deposit has passed, proposing the refund again
    answers with the dead proposal and changes nothing, and no confirmation of a
    refund of that deposit succeeds; when no user is known for it, no manual
    admission succeeds either, so that no command moves the money out of
    suspense. *)
Theorem expired_refund_proposal_blocks `{UuidText} `{HashMapOrder} (sha256 : string -> list Z) (w : Wdb) (p : MoneyProposal)
    (deposit : N) (now : Z) :
  proposal_by_replay (command_replay_key DEPOSIT_REFUND deposit) (wd_comp w) = Some p ->
  (forall q, q ∈ co_proposals (wd_comp w) -> mp_kind q = DEPOSIT_REFUND -> mp_subject_id q = deposit -> q = p) ->
  mp_expires_at p < now ->
  (forall fresh at_ reason actor, (propose_deposit_command sha256 fresh at_ deposit true reason actor w).2 = w /\
     forall q, (propose_deposit_command sha256 fresh at_ deposit true reason actor w).1 = Ok q -> q = p) /\
  (forall ids proposal_id actor q, proposal_by_id proposal_id (wd_comp w) = Ok q -> mp_subject_id q = deposit ->
     (confirm_deposit_refund sha256 ids now proposal_id actor w).2 = w /\
     forall r, (confirm_deposit_refund sha256 ids now proposal_id actor w).1 <> Ok r) /\
  (forall row, deposit_machine_by_id deposit w = Ok (Some row) -> dm_user row = None ->
   forall ids at_ proposal_id actor q, proposal_by_id proposal_id (wd_comp w) = Ok q -> mp_subject_id q = deposit ->
     (confirm_manual_deposit_admission sha256 ids at_ proposal_id actor w).2 = w /\
     forall r, (confirm_manual_deposit_admission sha256 ids at_ proposal_id actor w).1 <> Ok r).
Proof.
  intros Hp Honly Hexp. split_and!.
  - intros fresh at_ reason actor. destruct (propose_deposit_command _ _ _ _ _ _ _ _) as [ans w'] eqn:E. cbn.
    destruct ans as [r|e|]; [|split; [by apply atomic_refused in E|done]..]. apply atomic_answer in E.
    apply bind_Ok in E as ([dg rl] & _ & E). apply bind_Ok in E as (? & _ & E). destruct (blank reason); [done|]. cbv zeta iota in E.
    apply bind_Ok in E as (found & _ & E). apply bind_Ok in E as (row & _ & E). apply bind_Ok in E as (? & _ & E).
    rewrite Hp in E. destruct (_ || _) in E; [done|]. injection E as <- <-. split; [done|]. by intros q [= ->].
  - intros ids pid actor q Hq Hs. destruct (confirm_deposit_refund _ _ _ _ _ _) as [ans w'] eqn:E. cbn.
    enough (Hx : forall r, ans <> Ok r) by (split; [by apply atomic_refused in E|done]).
    intros r ->. apply atomic_answer in E. apply bind_Ok in E as ([[[dg rl] q'] row] & Hc & _).
    apply confirmable_alive in Hc as (Hq' & Hk & Hl & _). assert (q' = q) as -> by congruence.
    apply proposal_by_id_Ok in Hq as [Hin _]. rewrite (Honly q Hin Hk Hs) in Hl. lia.
  - intros row Hrow Hu ids at_ pid actor q Hq Hs. destruct (confirm_manual_deposit_admission _ _ _ _ _ _) as [ans w'] eqn:E. cbn.
    enough (Hx : forall r, ans <> Ok r) by (split; [by apply atomic_refused in E|done]).
    intros r ->. apply atomic_answer in E. apply bind_Ok in E as ([[[dg rl] q'] row'] & Hc & E).
    apply confirmable_alive in Hc as (Hq' & _ & _ & Hrow'). assert (q' = q) as -> by congruence.
    rewrite Hs, Hrow in Hrow'. injection Hrow' as <-. rewrite Hu in E. discriminate E.
Qed.

Definition demo_dead_proposal : MoneyProposal :=
  new_proposal 80 DEPOSIT_REFUND 41
    (payload_hash demo_digest (deposit_command_payload DEPOSIT_REFUND
       (machine_row Dep.ComplianceHold (demo_deposit_at "compliance_hold" None))))
    "fin" "unknown sender" (command_replay_key DEPOSIT_REFUND 41) 0 200.

Lemma expired_refund_proposal_blocks_witness :
  (demo_propose_run demo_proposed).2 = demo_proposed /\
  (confirm_deposit_refund (H0 := canonical_order) demo_digest (mkRefundIds (fun i => N.of_nat (700 + i)) 81 82) 1101 80
     (Admin "sup" Superadmin) demo_proposed).2 = demo_proposed.
Proof.
  destruct (expired_refund_proposal_blocks (H0 := canonical_order) demo_digest demo_proposed demo_dead_proposal 41 1101)
    as (H1 & H2 & _).
  - vm_compute. reflexivity.
  - assert (E : co_proposals (wd_comp demo_proposed) = [demo_dead_proposal]) by (vm_compute; reflexivity).
    rewrite E. intros q Hq _ _. by apply list_elem_of_singleton in Hq.
  - vm_compute. reflexivity.
  - split; [exact (proj1 (H1 _ _ _ _))|]. refine (proj1 (H2 _ 80%N _ demo_dead_proposal _ _)); vm_compute; reflexivity.
Defined.
